(* ===== verification/_CoqProject ===== *)
-Q . S2P
Prelude.v
Double.v
TValue.v
TypeMask.v
BitField.v
ArrayType.v
SparseMap.v
Butterfly.v
Machine.v
HiddenClass.v
TableObject.v
TableArray.v
TableLength.v
TableTheorems.v
MiscMath.v
Probing.v
CheckedTable.v
ClassHeap.v
Structure.v
Transition.v
ClassInv.v
ClassLookup.v
ClassFrame.v
ClassAnchor.v
ClassCreate.v
ClassTable.v
ClassTransition.v
ClassQuery.v
ClassOps.v
ClassView.v
ClassTheorems.v
TableClasses.v
ClassIterator.v
Dictionary.v
NamedProps.v
NamedInv.v
NamedPut.v
NamedTransition.v
NamedMeta.v
NamedAssign.v
TableWhole.v
TableHistory.v
TableProperties.v
DictionaryTheorems.v
TableIterator.v
TableCells.v
TableIteration.v
TableTraverse.v
TableCreate.v
TableClone.v
TableWorld.v
IterationProperties.v
WorldProperties.v
Metatables.v
Metamethods.v
MetamethodChain.v
IndexEvent.v
GetBytecodes.v
IndexProofs.v
TablePut.v
PutBytecodes.v
PutIndexBytecodes.v
NewIndexEvent.v
NewIndexProofs.v
ArrayPut.v
PutIndexProofs.v
PutValueProofs.v
BytecodeProperties.v
PutProperties.v
OperatorBytecodes.v
OperatorEvents.v
OperatorProofs.v
OperatorProperties.v
ArrayKinds.v
BytecodePrograms.v
ProgramProofs.v
ProgramProperties.v
