(* ===== verification/Prelude.v ===== *)
(** * A verification library for LuaJIT Remake

    LuaJIT Remake is a runtime for Lua 5.1 whose interpreter and compilers are
    generated from the bytecode semantics in [annotated/].  This library models the
    part that those semantics are written on: values, tables with their hidden
    classes, metatables, and the bytecodes that read and write fields, compare and
    take the length.  The definitions are translations of the C++ of [drt/], [runtime/], [common_utils/]
    and [annotated/bytecodes/], and run by [vm_compute]; the theorems are about the
    definitions.  (All file names of the program are relative to [src/].)

    ** The parts of the program and their files

    - Values.  [Double]: IEEE doubles as bit patterns, with [==], the conversions
      from and to [int64_t], and [IsInt64Index].  [TValue]: the NaN-boxed words of
      [drt/tvalue.h] with every encoder, decoder and tag test.  [TypeMask]: the
      lattice of type speculations of the same file, computed like the templates
      do.  [BitField] and [MiscMath]: the helpers of
      [common_utils/misc_math_helper.h].
    - Heaps.  [Machine]: the result type and the state monad of the model, the bump
      allocator of the user heap ([runtime/vm.h], [runtime/vm.cpp]) and the heap
      pointers of [drt/memory_ptr.h].  [ClassHeap]: the system heap.
    - The array part of tables.  [ArrayType] and [Butterfly]: [runtime/array_type.h]
      and [runtime/butterfly.h].  [SparseMap]: [class ArraySparseMap].
      [TableObject]: the indexed reads and writes of [runtime/table_object.h], with
      and without inline cache.  [TableLength]: the length operator.  Proofs in
      [TableArray], against the interface [HiddenClass.HiddenClassLaws].
    - Hidden classes, [runtime/structure.h].  [Structure], [Transition],
      [ClassIterator]: [class Structure] with transition tables, anchor tables and
      inline hash tables.  [Dictionary]: [class CacheableDictionary].  [Probing]
      and [CheckedTable] have what their hash tables share.  Invariant and proofs
      in [ClassInv], [ClassLookup], [ClassFrame], [ClassAnchor], [ClassCreate],
      [ClassTable], [ClassTransition], [ClassQuery], [ClassOps], [ClassView].
      [TableClasses] shows that structures implement the interface of the array
      part.
    - Named properties and metatables of tables: [NamedProps], proofs in [NamedInv],
      [NamedPut], [NamedTransition], [NamedMeta], [NamedAssign].
    - Whole tables: [TableWhole] and [TableHistory] put the array part and the named
      part together; [TableIterator] is [pairs] and [next] ([TableObjectIterator]),
      with proofs in [TableCells], [TableIteration], [TableTraverse].
    - Many tables: [TableCreate] makes and clones tables; a [World] of [TableWorld]
      has all tables at their addresses.
    - Metamethods: [Metatables] is the lookup in [runtime/table_object.h] and
      [runtime/runtime_utils.h], [Metamethods] what it finds.
    - Bytecodes that read and write fields, with their slow paths:
      [GetBytecodes] is [annotated/bytecodes/table_get_by_*.cpp] and
      [global_get.cpp], [PutBytecodes] is [table_put_by_id.cpp] and
      [global_put.cpp], [PutIndexBytecodes] is [table_put_by_imm.cpp] and
      [table_put_by_val.cpp].  [IndexEvent] and [NewIndexEvent] are the events of
      the Lua manual they implement, [MetamethodChain] what both have in common;
      [IndexProofs], [TablePut], [NewIndexProofs], [ArrayPut], [PutIndexProofs] and
      [PutValueProofs] are the refinements.
    - Operators: [OperatorBytecodes] is [equality_bytecodes.cpp],
      [comparison_bytecodes.cpp], [length_operator.cpp] and the tests of truth, with
      [HeapString::Compare] of [runtime/vm.h]; [OperatorEvents] are the events of
      the manual, [OperatorProofs] the refinements.
    - Sequences of bytecodes: [BytecodePrograms] runs straight-line sequences of the
      bytecodes above on the slots of a frame, with their types and their events;
      [ArrayKinds] follows the array kinds through every put, and [ProgramProofs]
      has the proof, instruction by instruction.

    The state of an operation is explicit: the objects it can reach, in the monad of
    [Machine].  [Ok] is a result; [VMFail] is a stop of the process by [VM_FAIL_IF]
    or [ReleaseAssert]; [UB] is anything the code must not do, such as an access
    outside of an object.  Statements run in the order of the C++; integers wrap
    where the C++ types wrap.

    ** What the theorems show

    - [WorldProperties], [TableProperties]: tables are independent maps.  After any
      program of puts by name and by index, changes of the metatable, creations and
      clones, every read gives the last value written, and nothing is undefined.
      This holds for tables whose initial vector has at most [x_alwaysVectorCutoff]
      elements; [TableTheorems] shows that a table with a larger one loses a write.
      Inline caches: what one look-up has found out with a structure is right for
      every table that has it, at any later time.
    - [BytecodeProperties], [PutProperties]: the bytecodes implement the index and
      newindex events, for every base and key, through every chain of metatables;
      they loop only when the chain does.  What a put stores, a get finds.
    - [ProgramProperties]: sequences of bytecodes are type safe.  From typed slots and
      tables they are never undefined, do what their events give one after the
      other, and leave typed slots and tables.
    - [OperatorProperties]: equality, order and length are those of the manual, with
      the metamethods that it asks; one case in which the order is not.
    - [IterationProperties]: [pairs] and [next] end, and see every pair once, also
      when the program assigns to fields on the way.
    - [ClassTheorems], [DictionaryTheorems]: every operation on hidden classes is
      defined; structures never change; transitions are shared; the hash tables
      are searches of the key list; dictionaries grow and keep their slots.
    - [TableTheorems], [SparseMap], [Butterfly], [TypeMask], [TValue], [ArrayType],
      [BitField], [MiscMath]: the parts on their own.  Fast paths equal slow paths,
      the length operator finds a border, boxing is faithful, the static type masks
      are exactly the run-time checks, but for the NaNs with another pattern than
      [0x7ff8000000000000], which no check of a leaf accepts.

    ** Bounds and fuel

    A loop over a hash table has as much fuel as the table has entries; the
    invariant keeps an entry empty, and the theorems show that the fuel is enough.
    The loops of the length operator have 2^32 steps, one for each value of their
    [uint32_t].  The slow paths of the bytecodes have a unit of fuel for every
    value that is indexed after the first; the number of tables of the world is
    enough, or the event has no outcome.

    ** What is taken for granted

    - Strings are interned: two string objects with the same characters are the same
      object.  Their characters are a parameter, since no operation changes them.
    - The hash [XXH3_64bits] (vendored) and the low bits of object hashes are
      parameters, without any assumption.
    - [mmap] succeeds; there is no garbage collector (the program has none yet).
    - A butterfly belongs to its table, since every one is a fresh allocation; an
      access to it is checked against the words allocated.  Sparse maps and hidden
      classes are objects of shared heaps, with their aliasing.
    - A body given to an inline cache is run as it is; that a cached result may be
      used instead is the property of [TableProperties] about inline caches.
    - A call ends the run of a bytecode in the model; what the bytecode does with
      the result is noted where it is defined.
    - No part of the runtime produces 32-bit integers and user data yet, and some
      bytecodes assert that there are none or have no code for them.  User data is
      no value of the theorems about bytecodes.  Int32 is no key; it is excluded from
      the values that are put under an index, from the operands of comparisons and,
      where a metamethod is compared, from the tables; and no table of the world has
      an array part for int32, which [ArrayKinds] shows to stay so.  The model has
      the assertions and [IcSpecializeValueFullCoverage] as [UB].
    - Other debug assertions are not run; what they claim is proved where it matters.

    ** What is not modelled

    Deegen (an offline generator that transforms LLVM IR, and the code it
    generates), the DFG compiler and the bytecode builder (which work on generated
    traits that are not in the repository), arithmetic, concatenation, calls and
    loops, the builtin libraries, the parser and number formatting ported from LuaJIT, and vendored
    code. *)

From Stdlib Require Export ZArith Lia Bool List.
From stdpp Require Export base numbers list gmap.

Open Scope Z_scope.

(** ** Machine integers

    A machine integer is kept as its value in [Z]; the wrap-around of the C++
    unsigned types is written with [wrapu], the reinterpretation of a word as
    a two's complement signed integer with [wraps]. *)

Definition wrapu (w z : Z) : Z := z mod 2 ^ w.
Definition wraps (w z : Z) : Z :=
  let u := z mod 2 ^ w in if u <? 2 ^ (w - 1) then u else u - 2 ^ w.

Abbreviation u8 := (wrapu 8) (only parsing).
Abbreviation u32 := (wrapu 32).
Abbreviation u64 := (wrapu 64).
Abbreviation i32 := (wraps 32).
Abbreviation i64 := (wraps 64).

Definition in_u (w z : Z) : Prop := 0 <= z < 2 ^ w.
Definition in_i (w z : Z) : Prop := - 2 ^ (w - 1) <= z < 2 ^ (w - 1).

#[export] Instance in_u_dec w z : Decision (in_u w z).
Proof. unfold in_u. apply _. Defined.
#[export] Instance in_i_dec w z : Decision (in_i w z).
Proof. unfold in_i. apply _. Defined.

(** Rewriting database: reading bits of words. *)
Create Rewrite HintDb testbit.
Create HintDb words.
#[export] Hint Rewrite Z.land_spec Z.lor_spec Z.lxor_spec Z.ldiff_spec
  Z.testbit_0_l : testbit.
#[export] Hint Rewrite Z.shiftl_spec Z.shiftr_spec Z.lnot_spec
  Z.mod_pow2_bits_high Z.mod_pow2_bits_low Z.testbit_ones_nonneg
  using lia : testbit.

(** Arithmetic closing tactics. *)
Ltac pow2 := repeat match goal with
  | |- context [2 ^ ?k] => is_ground k; let v := eval vm_compute in (2 ^ k) in change (2 ^ k) with v
  | H : context [2 ^ ?k] |- _ => is_ground k; let v := eval vm_compute in (2 ^ k) in change (2 ^ k) with v in H
  end.

Ltac zbool :=
  repeat match goal with
  | H : (_ && _) = true |- _ => apply andb_true_iff in H; destruct H
  | H : (_ || _) = false |- _ => apply orb_false_iff in H; destruct H
  | H : (_ <? _) = true |- _ => apply Z.ltb_lt in H
  | H : (_ <? _) = false |- _ => apply Z.ltb_ge in H
  | H : (_ <=? _) = true |- _ => apply Z.leb_le in H
  | H : (_ <=? _) = false |- _ => apply Z.leb_gt in H
  | H : (_ =? _) = true |- _ => apply Z.eqb_eq in H
  | H : (_ =? _) = false |- _ => apply Z.eqb_neq in H
  | H : negb _ = true |- _ => apply negb_true_iff in H
  | H : negb _ = false |- _ => apply negb_false_iff in H
  end.

Ltac word_lia := unfold in_u, in_i, wrapu, wraps in *; pow2; lia.

(** ** Words *)

Lemma wrapu_small w z : in_u w z -> wrapu w z = z.
Proof. intros H. apply Z.mod_small. exact H. Qed.

Lemma wrapu_range w z : 0 <= w -> in_u w (wrapu w z).
Proof. intros H. apply Z.mod_pos_bound. lia. Qed.

Lemma wraps_range w z : 0 < w -> in_i w (wraps w z).
Proof.
  intros Hw. unfold in_i, wraps.
  assert (2 ^ w = 2 * 2 ^ (w - 1)) as E.
  { rewrite <- Z.pow_succ_r by lia. f_equal. lia. }
  pose proof (Z.mod_pos_bound z (2 ^ w) ltac:(lia)).
  destruct (Z.ltb_spec (z mod 2 ^ w) (2 ^ (w - 1))); lia.
Qed.

Lemma wraps_small w z : 0 < w -> in_i w z -> wraps w z = z.
Proof.
  intros Hw [Hl Hu]. unfold wraps.
  assert (2 ^ w = 2 * 2 ^ (w - 1)) as E.
  { rewrite <- Z.pow_succ_r by lia. f_equal. lia. }
  destruct (Z_lt_le_dec z 0).
  - replace (z mod 2 ^ w) with (z + 2 ^ w).
    2:{ symmetry. rewrite <- (Z.mod_small (z + 2 ^ w) (2 ^ w)) by lia.
        rewrite <- (Z.mul_1_l (2 ^ w)) at 2. by rewrite Z.mod_add by lia. }
    destruct (Z.ltb_spec (z + 2 ^ w) (2 ^ (w - 1))); lia.
  - rewrite Z.mod_small by lia. destruct (Z.ltb_spec z (2 ^ (w - 1))); lia.
Qed.

Lemma wraps_wrapu w z : 0 <= w -> wraps w (wrapu w z) = wraps w z.
Proof. intros H. unfold wraps, wrapu. by rewrite Zmod_mod. Qed.

Lemma wrapu_wraps w z : 0 <= w -> wrapu w (wraps w z) = wrapu w z.
Proof.
  intros H. unfold wraps, wrapu.
  destruct (_ <? _); [apply Zmod_mod|].
  replace (z mod 2 ^ w - 2 ^ w) with (z mod 2 ^ w + (-1) * 2 ^ w) by lia.
  rewrite Z_mod_plus_full. apply Zmod_mod.
Qed.

(** Bits above the width of a word are clear. *)
Lemma in_u_testbit w z i : in_u w z -> 0 <= w <= i -> Z.testbit z i = false.
Proof.
  intros H Hi. rewrite <- (wrapu_small w z H). unfold wrapu.
  apply Z.mod_pow2_bits_high. lia.
Qed.

(** Bitwise equality of words: reduce to bits, rewrite, case on the bits. *)
Ltac bitwise i Hi := apply Z.bits_inj'; intros i Hi; autorewrite with testbit.

Lemma land_ldiff_split a b : Z.land a b + Z.ldiff a b = a.
Proof.
  rewrite <- Z.add_lor_land.
  replace (Z.land (Z.land a b) (Z.ldiff a b)) with 0.
  - rewrite Z.add_0_r. bitwise i Hi.
    destruct (Z.testbit a i), (Z.testbit b i); reflexivity.
  - symmetry. bitwise i Hi.
    destruct (Z.testbit a i), (Z.testbit b i); reflexivity.
Qed.

Lemma land_le_l a b : 0 <= a -> Z.land a b <= a.
Proof.
  intros Ha. pose proof (land_ldiff_split a b).
  assert (0 <= Z.ldiff a b) by (apply Z.ldiff_nonneg; auto). lia.
Qed.

Lemma lor_disjoint_add a b : Z.land a b = 0 -> Z.lor a b = a + b.
Proof. intros H. pose proof (Z.add_lor_land a b). lia. Qed.

(** A word split at bit [k]: masking with a constant that only has bits above
    [k] only looks at the high part. *)
Lemma land_mask k x : 0 <= k -> Z.land x (2 ^ k - 1) = x mod 2 ^ k.
Proof. intros H. rewrite <- Z.land_ones by done. f_equal. rewrite Z.ones_equiv. lia. Qed.

Lemma land_high k hi lo c : 0 <= k -> 0 <= lo < 2 ^ k ->
  Z.land (hi * 2 ^ k + lo) (c * 2 ^ k) = Z.land hi c * 2 ^ k.
Proof.
  intros Hk Hlo. rewrite <- !Z.shiftl_mul_pow2 by lia.
  rewrite <- (lor_disjoint_add (Z.shiftl hi k) lo).
  - bitwise i Hi. destruct (Z.lt_ge_cases i k).
    + by rewrite !(Z.testbit_neg_r _ (i - k)), !andb_false_r by lia.
    + rewrite (in_u_testbit k lo i) by (unfold in_u; lia).
      by rewrite orb_false_r.
  - bitwise i Hi. destruct (Z.lt_ge_cases i k).
    + by rewrite !(Z.testbit_neg_r _ (i - k)) by lia.
    + rewrite (in_u_testbit k lo i) by (unfold in_u; lia). apply andb_false_r.
Qed.

Lemma lor_high k hi lo : 0 <= k -> 0 <= lo < 2 ^ k ->
  Z.lor (hi * 2 ^ k) lo = hi * 2 ^ k + lo.
Proof.
  intros Hk Hlo. apply lor_disjoint_add.
  rewrite <- Z.shiftl_mul_pow2 by lia. bitwise i Hi.
  destruct (Z.lt_ge_cases i k).
  - by rewrite (Z.testbit_neg_r _ (i - k)) by lia.
  - rewrite (in_u_testbit k lo i) by (unfold in_u; lia). apply andb_false_r.
Qed.

Lemma split_word k v : 0 <= k -> v = v / 2 ^ k * 2 ^ k + v mod 2 ^ k.
Proof. intros Hk. pose proof (Z.div_mod v (2 ^ k)). lia. Qed.

Lemma in_u_land w a b : 0 <= w -> in_u w a -> 0 <= b -> in_u w (Z.land a b).
Proof.
  intros Hw Ha Hb. pose proof (land_le_l a b ltac:(destruct Ha; lia)).
  assert (0 <= Z.land a b) by (apply Z.land_nonneg; auto).
  destruct Ha; split; lia.
Qed.

Lemma in_u_bits w a : 0 <= w -> 0 <= a ->
  (forall i, w <= i -> Z.testbit a i = false) -> in_u w a.
Proof.
  intros Hw Ha H. split; [done|].
  destruct (Z.eq_dec a 0) as [->|Hz]; [lia|].
  apply Z.log2_lt_pow2; [lia|]. destruct (Z.lt_ge_cases (Z.log2 a) w); [done|].
  pose proof (Z.bit_log2 a ltac:(lia)). rewrite H in *; [done|lia].
Qed.

Lemma in_u_lor w a b : 0 <= w -> in_u w a -> in_u w b -> in_u w (Z.lor a b).
Proof.
  intros Hw Ha Hb. apply in_u_bits; [done| |].
  - apply Z.lor_nonneg. destruct Ha, Hb; auto.
  - intros i Hi. rewrite Z.lor_spec, !(in_u_testbit w) by (done || lia). done.
Qed.

Lemma in_u_lxor w a b : 0 <= w -> in_u w a -> in_u w b -> in_u w (Z.lxor a b).
Proof.
  intros Hw Ha Hb. apply in_u_bits; [done| |].
  - apply Z.lxor_nonneg. destruct Ha, Hb; tauto.
  - intros i Hi. rewrite Z.lxor_spec, !(in_u_testbit w) by (done || lia). done.
Qed.
#[export] Hint Resolve in_u_land in_u_lor in_u_lxor wrapu_range : words.

(** ** Bounded loops

    [loop p step s] runs [step] at most [p] times; the bound is binary, so that
    a bound as large as [2 ^ 32] costs nothing when the loop stops early. *)
Section loop.
Context {S R : Type} (step : S -> S + R).

Fixpoint loop (p : positive) (s : S) : S + R :=
  match p with
  | xH => step s
  | xO p' => match loop p' s with inl s' => loop p' s' | inr r => inr r end
  | xI p' =>
      match step s with
      | inl s1 => match loop p' s1 with inl s' => loop p' s' | inr r => inr r end
      | inr r => inr r
      end
  end.

Fixpoint loop_nat (n : nat) (s : S) : S + R :=
  match n with
  | O => inl s
  | Datatypes.S n' => match step s with inl s' => loop_nat n' s' | inr r => inr r end
  end.

Lemma loop_nat_add n m s : loop_nat (n + m) s =
  match loop_nat n s with inl s' => loop_nat m s' | inr r => inr r end.
Proof. revert s. induction n as [|n IH]; intros s; simpl; [done|]. destruct (step s); auto. Qed.

Lemma loop_eq_nat p s : loop p s = loop_nat (Pos.to_nat p) s.
Proof.
  revert s. induction p as [p IH|p IH|]; intros s; cbn [loop].
  - rewrite Pos2Nat.inj_xI. simpl. destruct (step s) as [s1|]; [|done].
    rewrite Nat.add_0_r, loop_nat_add, IH. destruct (loop_nat _ s1); [apply IH|done].
  - rewrite Pos2Nat.inj_xO. simpl. rewrite Nat.add_0_r, loop_nat_add, IH.
    destruct (loop_nat _ s); [apply IH|done].
  - simpl. by destruct (step s).
Qed.

(** A loop with an invariant and a decreasing non-negative measure stops within
    a bound above the measure. *)
Lemma loop_measure (I : S -> Prop) (Q : R -> Prop) (mu : S -> Z) p s :
  (forall s, I s -> match step s with
                    | inl s' => I s' /\ 0 <= mu s' < mu s
                    | inr r => Q r
                    end) ->
  I s -> 0 <= mu s < Z.pos p -> exists r, loop p s = inr r /\ Q r.
Proof.
  intros Hstep Hs Hm. rewrite loop_eq_nat.
  assert (0 <= mu s < Z.of_nat (Pos.to_nat p)) as Hn by lia. clear Hm.
  revert s Hs Hn. induction (Pos.to_nat p) as [|n IH]; intros s Hs Hn; simpl; [lia|].
  specialize (Hstep s Hs). destruct (step s) as [s'|r]; [|eauto]. apply IH; [tauto|lia].
Qed.

(** The same for the bound [2 ^ 32] of the loops over [uint32_t] ranges. *)
Lemma loop_measure32 (I : S -> Prop) (Q : R -> Prop) (mu : S -> Z) s :
  (forall s, I s -> match step s with
                    | inl s' => I s' /\ 0 <= mu s' < mu s
                    | inr r => Q r
                    end) ->
  I s -> 0 <= mu s < 2 ^ 32 -> exists r, loop (2 ^ 32) s = inr r /\ Q r.
Proof. intros Hstep Hs Hm. by apply (loop_measure I Q mu). Qed.
End loop.
