(* ===== verification/Double.v ===== *)
(** * IEEE binary64 values as the runtime uses them

    A [double] is kept as its 64-bit pattern (what [cxx2a_bit_cast] exposes),
    because the NaN-boxing scheme of [drt/tvalue.h] reads and compares the
    pattern itself.  The file gives the C++ operations the runtime applies to
    doubles: [==] and [!=] ([UnsafeFloatEqual], [IsNaN] of
    [common_utils/misc_math_helper.h]), the conversions between [int64_t] and
    [double] on x86-64, and [TableObject::IsInt64Index]. *)

From S2P Require Import Prelude.

Definition dbl_sign (b : Z) : bool := 2 ^ 63 <=? b.
Definition dbl_exp (b : Z) : Z := b / 2 ^ 52 mod 2 ^ 11.
Definition dbl_frac (b : Z) : Z := b mod 2 ^ 52.

(** The patterns IEEE 754 reserves for NaNs, and the two zeros. *)
Definition nan_pattern (b : Z) : bool := (dbl_exp b =? 2047) && negb (dbl_frac b =? 0).
Definition zero_pattern (b : Z) : bool := (b =? 0) || (b =? 2 ^ 63).

(** [a == b] on doubles. *)
Definition UnsafeFloatEqual (a b : Z) : bool :=
  negb (nan_pattern a) && negb (nan_pattern b)
  && ((a =? b) || (zero_pattern a && zero_pattern b)).

(** [a != a]. *)
Definition IsNaN (a : Z) : bool := negb (UnsafeFloatEqual a a).

(** [std::numeric_limits<double>::quiet_NaN()]. *)
Definition quiet_NaN : Z := 0x7ff8000000000000.

(** [static_cast<double>(int64_t)]: round to nearest, ties to even. *)
Definition double_of_int (z : Z) : Z :=
  if z =? 0 then 0 else
  let s := if z <? 0 then 2 ^ 63 else 0 in
  let m := Z.abs z in
  let e := Z.log2 m in
  let q :=
    if e <=? 52 then m * 2 ^ (52 - e)
    else
      let k := e - 52 in
      let q := m / 2 ^ k in
      let r := m mod 2 ^ k in
      if (2 ^ (k - 1) <? r) || ((r =? 2 ^ (k - 1)) && Z.odd q) then q + 1 else q in
  s + (e + 1023) * 2 ^ 52 + (q - 2 ^ 52).

(** [static_cast<int64_t>(double)] as the x86-64 [cvttsd2si] instruction does
    it: truncation, and the "integer indefinite" value when out of range.  The
    comment in [IsInt64Index] states that the code relies on this. *)
Definition int_of_double (b : Z) : Z :=
  let e := dbl_exp b in
  if e =? 2047 then - 2 ^ 63 else
  let m := if e =? 0 then dbl_frac b else dbl_frac b + 2 ^ 52 in
  let mag := if e <? 1075 then m / 2 ^ (1075 - e) else m * 2 ^ (e - 1075) in
  let v := if dbl_sign b then - mag else mag in
  if (- 2 ^ 63 <=? v) && (v <? 2 ^ 63) then v else - 2 ^ 63.

(** [TableObject::IsInt64Index]: [Some idx] when the conversion is lossless. *)
Definition IsInt64Index (vidx : Z) : option Z :=
  let idx := int_of_double vidx in
  if UnsafeFloatEqual (double_of_int idx) vidx then Some idx else None.

(** ** Equality of doubles is an equivalence on numbers *)

Lemma IsNaN_pattern a : IsNaN a = nan_pattern a.
Proof.
  unfold IsNaN, UnsafeFloatEqual. rewrite Z.eqb_refl. by destruct (nan_pattern a).
Qed.

Lemma zero_pattern_not_nan a : zero_pattern a = true -> nan_pattern a = false.
Proof. unfold zero_pattern. intros H. zbool. apply orb_true_iff in H as [H|H]; zbool; by subst. Qed.

Lemma feq_spec a b :
  UnsafeFloatEqual a b = true <->
  IsNaN a = false /\ IsNaN b = false /\ (a = b \/ (zero_pattern a = true /\ zero_pattern b = true)).
Proof.
  rewrite !IsNaN_pattern. unfold UnsafeFloatEqual.
  rewrite !andb_true_iff, !negb_true_iff, orb_true_iff, andb_true_iff, Z.eqb_eq. tauto.
Qed.

Lemma feq_refl a : IsNaN a = false -> UnsafeFloatEqual a a = true.
Proof. intros H. apply feq_spec. auto. Qed.

Lemma feq_sym a b : UnsafeFloatEqual a b = UnsafeFloatEqual b a.
Proof. apply eq_true_iff_eq. rewrite !feq_spec. intuition. Qed.

Lemma feq_trans a b c :
  UnsafeFloatEqual a b = true -> UnsafeFloatEqual b c = true -> UnsafeFloatEqual a c = true.
Proof. rewrite !feq_spec. intuition (subst; auto). Qed.

Lemma feq_nan_l a b : UnsafeFloatEqual a b = true -> IsNaN a = false.
Proof. rewrite feq_spec. tauto. Qed.

Lemma feq_nan_r a b : UnsafeFloatEqual a b = true -> IsNaN b = false.
Proof. rewrite feq_spec. tauto. Qed.

(** IEEE equality as a partial equivalence, for setoid rewriting. *)
Definition feq (a b : Z) : Prop := UnsafeFloatEqual a b = true.

#[export] Instance feq_per : RelationClasses.PER feq.
Proof.
  split; red; unfold feq; [intros a b; by rewrite feq_sym | apply feq_trans].
Qed.

#[export] Instance UnsafeFloatEqual_proper : Proper (feq ==> feq ==> eq) UnsafeFloatEqual.
Proof.
  intros a a' Ha b b' Hb. apply eq_true_iff_eq. change (feq a b <-> feq a' b').
  split; intros H; [by rewrite <- Ha, <- Hb | by rewrite Ha, Hb].
Qed.

(** Equal numbers compare alike. *)
Lemma feq_congr a b k : feq a b -> UnsafeFloatEqual a k = UnsafeFloatEqual b k.
Proof.
  unfold feq. intros H. apply eq_true_iff_eq. split; intros E.
  - apply (feq_trans b a k); [by rewrite feq_sym|done].
  - by apply (feq_trans a b k).
Qed.

(** ** Conversions *)

(** A pattern given by its three fields. *)
Lemma fields_of (s : bool) ex fr : 0 <= ex < 2 ^ 11 -> 0 <= fr < 2 ^ 52 ->
  let b := (if s then 2 ^ 63 else 0) + ex * 2 ^ 52 + fr in
  dbl_sign b = s /\ dbl_exp b = ex /\ dbl_frac b = fr /\ in_u 64 b.
Proof.
  intros Hex Hfr b. unfold dbl_sign, dbl_exp, dbl_frac, in_u. pow2.
  assert (b / 4503599627370496 = (if s then 2048 else 0) + ex) as Hq.
  { symmetry. apply (Z.div_unique _ _ _ fr); [lia|]. unfold b. destruct s; pow2; lia. }
  assert (b mod 4503599627370496 = fr) as Hr.
  { symmetry. apply (Z.mod_unique _ _ ((if s then 2048 else 0) + ex)); [lia|].
    unfold b. destruct s; pow2; lia. }
  rewrite Hq, Hr. repeat split; [ | |unfold b; destruct s; pow2; lia..].
  - unfold b. destruct s; pow2; [apply Z.leb_le|apply Z.leb_gt]; lia.
  - destruct s; [|apply Z.mod_small; lia].
    replace (2048 + ex) with (ex + 1 * 2048) by lia.
    rewrite Z_mod_plus_full. apply Z.mod_small; lia.
Qed.

(** The exponent [log2 |z|] of a non-zero 64-bit integer. *)
Lemma int_log2 z : in_i 64 z -> z <> 0 ->
  0 <= Z.log2 (Z.abs z) <= 63 /\
  2 ^ Z.log2 (Z.abs z) <= Z.abs z < 2 ^ (Z.log2 (Z.abs z) + 1).
Proof.
  intros Hz H0. pose proof (Z.log2_spec (Z.abs z) ltac:(lia)) as Hs.
  unfold Z.succ in Hs. repeat split; [apply Z.log2_nonneg| |lia|lia].
  assert (Z.log2 (Z.abs z) <= Z.log2 (2 ^ 63)) as H.
  { apply Z.log2_le_mono. unfold in_i in Hz. simpl in Hz. pow2. lia. }
  rewrite Z.log2_pow2 in H; lia.
Qed.

(** The rounded significand is in [[2^52, 2^53]]. *)
Lemma double_of_int_shape z : in_i 64 z -> z <> 0 ->
  exists q, 2 ^ 52 <= q <= 2 ^ 53 /\
    (Z.log2 (Z.abs z) <= 52 -> q = Z.abs z * 2 ^ (52 - Z.log2 (Z.abs z)) /\ q < 2 ^ 53) /\
    double_of_int z = (if z <? 0 then 2 ^ 63 else 0)
      + (Z.log2 (Z.abs z) + 1023) * 2 ^ 52 + (q - 2 ^ 52).
Proof.
  intros Hz H0. destruct (int_log2 z Hz H0) as [He [Hlo Hhi]].
  unfold double_of_int. rewrite (proj2 (Z.eqb_neq z 0) H0).
  set (e := Z.log2 (Z.abs z)) in *. set (m := Z.abs z) in *. eexists. split; [|split; [|reflexivity]].
  - destruct (Z.leb_spec e 52) as [Hle|Hgt].
    + assert (2 ^ 52 = 2 ^ e * 2 ^ (52 - e)) as -> by (rewrite <- Z.pow_add_r by lia; f_equal; lia).
      assert (2 ^ 53 = 2 ^ (e + 1) * 2 ^ (52 - e)) as -> by (rewrite <- Z.pow_add_r by lia; f_equal; lia).
      assert (0 < 2 ^ (52 - e)) by (apply Z.pow_pos_nonneg; lia). split; nia.
    + assert (0 < 2 ^ (e - 52)) as Hp by (apply Z.pow_pos_nonneg; lia).
      assert (2 ^ 52 <= m / 2 ^ (e - 52)).
      { apply Z.div_le_lower_bound; [lia|]. rewrite <- Z.pow_add_r by lia.
        by replace (e - 52 + 52) with e by lia. }
      assert (m / 2 ^ (e - 52) < 2 ^ 53).
      { apply Z.div_lt_upper_bound; [lia|]. rewrite <- Z.pow_add_r by lia.
        by replace (e - 52 + 53) with (e + 1) by lia. }
      cbv zeta. destruct (_ || _); lia.
  - intros Hle. rewrite (proj2 (Z.leb_le e 52) Hle). split; [done|].
    assert (2 ^ 53 = 2 ^ (e + 1) * 2 ^ (52 - e)) as -> by (rewrite <- Z.pow_add_r by lia; f_equal; lia).
    assert (0 < 2 ^ (52 - e)) by (apply Z.pow_pos_nonneg; lia). nia.
Qed.

(** Every converted integer is an ordinary number, never [-0.0]. *)
Lemma double_of_int_number z : in_i 64 z ->
  in_u 64 (double_of_int z) /\ IsNaN (double_of_int z) = false /\ double_of_int z <> 2 ^ 63.
Proof.
  intros Hz. destruct (Z.eq_dec z 0) as [->|H0]; [by vm_compute|].
  destruct (double_of_int_shape z Hz H0) as (q & Hq & _ & ->).
  destruct (int_log2 z Hz H0) as [He _]. set (e := Z.log2 (Z.abs z)) in *.
  destruct (Z.eq_dec q (2 ^ 53)) as [->|Hne].
  - destruct (fields_of (z <? 0) (e + 1024) 0) as (_ & Hex & _ & Hu); [pow2; lia..|].
    replace (_ + _ + (2 ^ 53 - 2 ^ 52)) with ((if z <? 0 then 2 ^ 63 else 0) + (e + 1024) * 2 ^ 52 + 0)
      by (pow2; lia).
    split; [done|]. rewrite IsNaN_pattern. unfold nan_pattern. rewrite Hex. split.
    + by rewrite (proj2 (Z.eqb_neq _ _)) by lia.
    + destruct (z <? 0); pow2; lia.
  - destruct (fields_of (z <? 0) (e + 1023) (q - 2 ^ 52)) as (_ & Hex & _ & Hu); [pow2; lia..|].
    split; [done|]. rewrite IsNaN_pattern. unfold nan_pattern. rewrite Hex. split.
    + by rewrite (proj2 (Z.eqb_neq _ _)) by lia.
    + destruct (z <? 0); pow2; lia.
Qed.

(** Integers below [2^53] convert exactly, so the round trip is the identity. *)
Lemma int_double_int z : Z.abs z < 2 ^ 53 -> int_of_double (double_of_int z) = z.
Proof.
  intros Hz. destruct (Z.eq_dec z 0) as [->|H0]; [by vm_compute|].
  assert (in_i 64 z) as Hi by (unfold in_i; simpl; pow2; lia).
  destruct (double_of_int_shape z Hi H0) as (q & Hq & Hex & ->).
  destruct (int_log2 z Hi H0) as [He [Hlo Hhi]]. set (e := Z.log2 (Z.abs z)) in *.
  assert (e <= 52) as He'.
  { apply Z.lt_succ_r. apply (Z.pow_lt_mono_r_iff 2); [lia|lia|]. change (2 ^ Z.succ 52) with (2 ^ 53). lia. }
  destruct (Hex He') as [Eq Hlt].
  destruct (fields_of (z <? 0) (e + 1023) (q - 2 ^ 52)) as (Hs & Hx & Hf & _); [pow2; lia..|].
  unfold int_of_double. rewrite Hs, Hx, Hf. replace (q - 2 ^ 52 + 2 ^ 52) with q by lia.
  rewrite (proj2 (Z.eqb_neq (e + 1023) 2047)), (proj2 (Z.eqb_neq (e + 1023) 0)) by lia.
  assert ((if e + 1023 <? 1075 then q / 2 ^ (1075 - (e + 1023)) else q * 2 ^ (e + 1023 - 1075)) = Z.abs z) as ->.
  { destruct (Z.ltb_spec (e + 1023) 1075).
    - replace (1075 - (e + 1023)) with (52 - e) by lia. rewrite Eq. apply Z.div_mul.
      apply Z.pow_nonzero; lia.
    - replace e with 52 in * by lia. rewrite Eq. simpl. lia. }
  assert ((if z <? 0 then - Z.abs z else Z.abs z) = z) as -> by (destruct (Z.ltb_spec z 0); lia).
  rewrite (proj2 (Z.leb_le (- 2 ^ 63) z)), (proj2 (Z.ltb_lt z (2 ^ 63))) by (pow2; lia). done.
Qed.

Lemma int_of_double_range b : in_i 64 (int_of_double b).
Proof.
  unfold int_of_double. destruct (dbl_exp b =? 2047); [by vm_compute|]. cbv zeta.
  match goal with |- in_i _ (if (_ <=? ?v) && _ then _ else _) => generalize v; intros v' end.
  destruct (_ && _) eqn:E; [|by vm_compute]. zbool. split; assumption.
Qed.

(** ** The canonical key of a number

    [IsInt64Index] sends the integral doubles through [int64_t]; converting
    back normalises [-0.0].  Two numbers are equal exactly when their
    canonical patterns are. *)
Definition canon (k : Z) : Z :=
  match IsInt64Index k with Some i => double_of_int i | None => k end.

Lemma IsInt64Index_Some k i :
  IsInt64Index k = Some i -> in_i 64 i /\ feq (double_of_int i) k /\ i = int_of_double k.
Proof.
  unfold IsInt64Index. destruct (UnsafeFloatEqual _ k) eqn:E; [|done].
  intros [= <-]. auto using int_of_double_range.
Qed.

Lemma IsInt64Index_int i : Z.abs i < 2 ^ 53 -> IsInt64Index (double_of_int i) = Some i.
Proof.
  intros Hi. unfold IsInt64Index. rewrite int_double_int by done.
  rewrite feq_refl; [done|]. apply double_of_int_number. unfold in_i; simpl; pow2; lia.
Qed.

Lemma double_of_int_feq_inj i j : Z.abs i < 2 ^ 53 -> Z.abs j < 2 ^ 53 ->
  feq (double_of_int i) (double_of_int j) -> i = j.
Proof.
  intros Hi Hj H. apply feq_spec in H as (_ & _ & [H|[Hi0 Hj0]]).
  - by rewrite <- (int_double_int i), <- (int_double_int j), H.
  - assert (forall x, Z.abs x < 2 ^ 53 -> zero_pattern (double_of_int x) = true -> x = 0) as Hz.
    { intros x Hx H. rewrite <- (int_double_int x Hx). unfold zero_pattern in H.
      apply orb_true_iff in H as [H|H]; zbool; rewrite H; by vm_compute. }
    by rewrite (Hz i Hi Hi0), (Hz j Hj Hj0).
Qed.

Lemma int_of_double_feq a b : feq a b -> int_of_double a = int_of_double b.
Proof.
  intros H. apply feq_spec in H as (_ & _ & [->|[Ha Hb]]); [done|].
  unfold zero_pattern in *. apply orb_true_iff in Ha, Hb.
  destruct Ha as [Ha|Ha], Hb as [Hb|Hb]; zbool; subst; by vm_compute.
Qed.

#[export] Instance IsInt64Index_proper : Proper (feq ==> eq) IsInt64Index.
Proof.
  intros a b H. unfold IsInt64Index. rewrite (int_of_double_feq a b H).
  assert (UnsafeFloatEqual (double_of_int (int_of_double b)) a
          = UnsafeFloatEqual (double_of_int (int_of_double b)) b) as ->; [|done].
  apply eq_true_iff_eq. split; intros E.
  - exact (feq_trans _ _ _ E H).
  - symmetry in H. exact (feq_trans _ _ _ E H).
Qed.

Lemma zero_is_index k : zero_pattern k = true -> IsInt64Index k = Some 0.
Proof.
  intros H. unfold zero_pattern in H. apply orb_true_iff in H as [H|H]; zbool; subst; by vm_compute.
Qed.

Lemma canon_feq k : IsNaN k = false -> feq (canon k) k.
Proof.
  intros H. unfold canon. destruct (IsInt64Index k) eqn:E.
  - apply (IsInt64Index_Some k z E).
  - by apply feq_refl.
Qed.

Lemma canon_eq_iff k k' : IsNaN k = false -> IsNaN k' = false ->
  canon k = canon k' <-> feq k k'.
Proof.
  intros H H'. split.
  - intros E. rewrite <- (canon_feq k), <- (canon_feq k'), E by done.
    apply feq_refl. apply (feq_nan_l _ k'), canon_feq, H'.
  - intros E. unfold canon. pose proof (IsInt64Index_proper _ _ E) as EI. rewrite EI.
    destruct (IsInt64Index k') eqn:E2; [done|].
    apply feq_spec in E as (_ & _ & [E|[Hz _]]); [done|].
    rewrite (zero_is_index k Hz) in EI. done.
Qed.
