(* ===== verification/TValue.v ===== *)
(** * NaN-boxed values ([drt/tvalue.h])

    [TValue] is a 64-bit word.  The file gives the tag tests, the encoders and
    decoders of [struct TValue] and [struct MiscImmediateValue], an abstract
    type of Lua values, and proves that boxing is a faithful representation of
    it: every encoder produces a word that exactly one of the four tag tests
    accepts and that its decoder reads back. *)

From S2P Require Import Prelude Double.

Module MIV.
Definition x_nil : Z := 0.
Definition x_false : Z := 2.
Definition x_true : Z := 3.
Definition x_impossible_value : Z := 4.

  (** The assertion of the constructor. *)
Definition valid (m : Z) : bool :=
    (m =? x_nil) || (m =? x_true) || (m =? x_false) || (m =? x_impossible_value).

Definition IsNil (m : Z) : bool := m =? 0.
Definition IsTrue (m : Z) : bool := m =? x_true.
Definition IsBoolean (m : Z) : bool := negb (m =? 0).
Definition GetBooleanValue (m : Z) : bool := negb (Z.land m 1 =? 0).
Definition FlipBooleanValue (m : Z) : Z := Z.lxor m 1.
Definition CreateNil : Z := x_nil.
Definition CreateBoolean (v : bool) : Z := if v then x_true else x_false.
Definition CreateImpossibleValue : Z := x_impossible_value.
End MIV.

Definition x_int32Tag : Z := 0xFFFBFFFF00000000.
Definition x_mivTag : Z := 0xFFFCFFFF0000007F.

Definition IsInt32 (v : Z) : bool := Z.land v x_int32Tag =? x_int32Tag.
Definition IsMIV (v : Z) : bool := Z.land v (x_mivTag - 0x7F) =? x_mivTag - 0x7F.
Definition IsPointer (v : Z) : bool := x_mivTag <? v.
Definition IsDouble (v : Z) : bool := v <? x_int32Tag.
Definition IsDoubleNotNaN (v : Z) : bool := negb (IsNaN v).
Definition IsDoubleNaN (v : Z) : bool := v =? 0x7ff8000000000000.

(** [cxx2a_bit_cast] is the identity on patterns. *)
Definition ViewAsDouble (v : Z) : Z := v.
Definition AsDouble (v : Z) : Z := v.
Definition AsInt32 (v : Z) : Z := i32 v.
Definition IsTruthy (v : Z) : bool := 2 <? Z.lxor v x_mivTag.
(** A heap pointer is a (negative) 64-bit offset from the GS base. *)
Definition AsPointer (v : Z) : Z := i64 v.
Definition AsMIV (v : Z) : Z := Z.lxor v x_mivTag.

Definition CreateInt32 (value : Z) : Z := Z.lor x_int32Tag (u32 value).
Definition CreateDouble (value : Z) : Z := value.
Definition CreatePointer (ptr : Z) : Z := u64 ptr.
Definition CreateMIV (miv : Z) : Z := Z.lxor miv x_mivTag.
Definition CreateImpossibleValue : Z := CreateMIV MIV.CreateImpossibleValue.
Definition CreateTrue : Z := CreateMIV (MIV.CreateBoolean true).
Definition CreateFalse : Z := CreateMIV (MIV.CreateBoolean false).
Definition CreateBoolean (v : bool) : Z := CreateMIV (MIV.CreateBoolean v).
Definition Nil : Z := CreateMIV MIV.CreateNil.
Definition IsNil (v : Z) : bool := v =? Nil.

(** ** The values the boxing scheme represents *)

Inductive LuaValue :=
| LDouble (d : Z)
| LInt32 (i : Z)
| LMIV (m : Z)
| LPointer (p : Z).

#[export] Instance LuaValue_eq_dec : EqDecision LuaValue.
Proof. solve_decision. Defined.

(** The ranges of the boxing scheme: doubles up to [FFFA FFFF FFFF FFFF] (every
    number, and the NaNs below the tags), user-heap offsets in the last 12GB
    below [-4GB]. *)
Definition LuaValue_valid (x : LuaValue) : bool :=
  match x with
  | LDouble d => (0 <=? d) && (d <=? 0xFFFAFFFFFFFFFFFF)
  | LInt32 i => (- 2 ^ 31 <=? i) && (i <? 2 ^ 31)
  | LMIV m => MIV.valid m
  | LPointer p => (- 2 ^ 34 <=? p) && (p <? - 2 ^ 32)
  end.

Definition box (x : LuaValue) : Z :=
  match x with
  | LDouble d => CreateDouble d
  | LInt32 i => CreateInt32 i
  | LMIV m => CreateMIV m
  | LPointer p => CreatePointer p
  end.

(** The dispatch every consumer of a [TValue] performs. *)
Definition unbox (v : Z) : LuaValue :=
  if IsDouble v then LDouble (AsDouble v)
  else if IsInt32 v then LInt32 (AsInt32 v)
  else if IsMIV v then LMIV (AsMIV v)
  else LPointer (AsPointer v).

Definition Boxed (v : Z) : Prop := exists x, LuaValue_valid x = true /\ v = box x.

(** ** The four tag tests on each kind of word *)

(** The four tests of a word, in the order double, int32, MIV, pointer. *)
Definition tag_tests (v : Z) : bool * bool * bool * bool :=
  (IsDouble v, IsInt32 v, IsMIV v, IsPointer v).

Lemma tag_mask_false v c : 0 <= v -> v < c -> (Z.land v c =? c) = false.
Proof. intros Hv Hc. apply Z.eqb_neq. pose proof (land_le_l v c Hv). lia. Qed.

(** A tag whose low 32 bits are clear only looks at the high word. *)
Lemma tag_mask_hi hi lo c : 0 <= lo < 2 ^ 32 ->
  (Z.land (hi * 2 ^ 32 + lo) (c * 2 ^ 32) =? c * 2 ^ 32) = (Z.land hi c =? c).
Proof.
  intros Hlo. rewrite land_high by lia.
  destruct (Z.eqb_spec (Z.land hi c) c) as [->|Hne]; [apply Z.eqb_refl|].
  apply Z.eqb_neq. intros E. apply Hne. pow2. lia.
Qed.

Lemma tests_double d : LuaValue_valid (LDouble d) = true ->
  tag_tests (CreateDouble d) = (true, false, false, false).
Proof.
  simpl. intros H. zbool. unfold tag_tests, CreateDouble, IsDouble, IsInt32, IsMIV, IsPointer.
  unfold x_int32Tag, x_mivTag.
  rewrite !tag_mask_false by lia. repeat f_equal; lia.
Qed.

Lemma CreateInt32_split i : CreateInt32 i = 0xFFFBFFFF * 2 ^ 32 + u32 i.
Proof.
  unfold CreateInt32. change x_int32Tag with (0xFFFBFFFF * 2 ^ 32).
  apply lor_high; [lia|]. apply wrapu_range. lia.
Qed.

Lemma tests_int32 i : tag_tests (CreateInt32 i) = (false, true, false, false).
Proof.
  rewrite CreateInt32_split. pose proof (wrapu_range 32 i ltac:(lia)) as H. unfold in_u in H.
  unfold tag_tests, IsDouble, IsInt32, IsMIV, IsPointer.
  change x_int32Tag with (0xFFFBFFFF * 2 ^ 32).
  change (x_mivTag - 127) with (0xFFFCFFFF * 2 ^ 32).
  rewrite !tag_mask_hi by lia. unfold x_mivTag. pow2. repeat f_equal; lia.
Qed.

Lemma MIV_valid_cases m : MIV.valid m = true -> m = 0 \/ m = 2 \/ m = 3 \/ m = 4.
Proof. unfold MIV.valid, MIV.x_nil, MIV.x_true, MIV.x_false, MIV.x_impossible_value. lia. Qed.

Lemma tests_miv m : MIV.valid m = true ->
  tag_tests (CreateMIV m) = (false, false, true, false).
Proof. intros H. apply MIV_valid_cases in H as [->|[->|[->| ->]]]; reflexivity. Qed.

Lemma tests_pointer p : LuaValue_valid (LPointer p) = true ->
  tag_tests (CreatePointer p) = (false, false, false, true).
Proof.
  simpl. intros H. zbool. unfold CreatePointer.
  assert (u64 p = p + 2 ^ 64) as ->.
  { unfold wrapu. symmetry. apply (Z.mod_unique _ _ (-1)); pow2; lia. }
  pose proof (split_word 32 (p + 2 ^ 64) ltac:(lia)) as Hs.
  pose proof (Z.mod_pos_bound (p + 2 ^ 64) (2 ^ 32) ltac:(lia)) as Hlo.
  unfold tag_tests, IsDouble, IsInt32, IsMIV, IsPointer. rewrite Hs.
  change x_int32Tag with (0xFFFBFFFF * 2 ^ 32).
  change (x_mivTag - 127) with (0xFFFCFFFF * 2 ^ 32).
  rewrite !tag_mask_hi by done. set (lo := (p + 2 ^ 64) mod 2 ^ 32) in *. clearbody lo.
  set (hi := (p + 2 ^ 64) / 2 ^ 32) in *. clearbody hi. unfold x_mivTag.
  assert (hi = 0xFFFFFFFC \/ hi = 0xFFFFFFFD \/ hi = 0xFFFFFFFE) as Hhi by (pow2; lia).
  destruct Hhi as [->|[->| ->]]; simpl; pow2; repeat f_equal; lia.
Qed.

Lemma AsInt32_CreateInt32 i : LuaValue_valid (LInt32 i) = true -> AsInt32 (CreateInt32 i) = i.
Proof.
  simpl. intros H. zbool. rewrite CreateInt32_split. unfold AsInt32.
  rewrite <- (wraps_wrapu 32) by lia. unfold wrapu at 1.
  rewrite Z.add_comm, Z_mod_plus_full. fold (wrapu 32 (u32 i)).
  rewrite !wraps_wrapu by lia. apply wraps_small; [lia|]. unfold in_i; simpl; pow2; lia.
Qed.

Lemma AsPointer_CreatePointer p : LuaValue_valid (LPointer p) = true ->
  AsPointer (CreatePointer p) = p.
Proof.
  simpl. intros H. zbool. unfold AsPointer, CreatePointer. rewrite wraps_wrapu by lia.
  apply wraps_small; [lia|]. unfold in_i; simpl; pow2; lia.
Qed.

Lemma AsMIV_CreateMIV m : AsMIV (CreateMIV m) = m.
Proof. unfold AsMIV, CreateMIV. by rewrite Z.lxor_assoc, Z.lxor_nilpotent, Z.lxor_0_r. Qed.

(** The tests of a boxed value, by its constructor. *)
Lemma tests_box x : LuaValue_valid x = true ->
  tag_tests (box x) = match x with
    | LDouble _ => (true, false, false, false)
    | LInt32 _ => (false, true, false, false)
    | LMIV _ => (false, false, true, false)
    | LPointer _ => (false, false, false, true)
    end.
Proof.
  destruct x; simpl box; intros H;
    [by apply tests_double|by apply tests_int32|by apply tests_miv|by apply tests_pointer].
Qed.

Ltac tests_of x H :=
  let E := fresh "Etests" in
  pose proof (tests_box x H) as E; unfold tag_tests in E.

Lemma unbox_box_lemma x : LuaValue_valid x = true -> unbox (box x) = x.
Proof.
  intros H. tests_of x H. unfold unbox.
  destruct x; simpl box in *; injection Etests as E1 E2 E3 _; rewrite E1, ?E2, ?E3.
  - done.
  - by rewrite AsInt32_CreateInt32.
  - by rewrite AsMIV_CreateMIV.
  - by rewrite AsPointer_CreatePointer.
Qed.

Lemma box_range x : LuaValue_valid x = true -> in_u 64 (box x).
Proof.
  destruct x; simpl; intros H; zbool.
  - unfold CreateDouble, in_u. pow2. lia.
  - rewrite CreateInt32_split. pose proof (wrapu_range 32 i ltac:(lia)). unfold in_u in *. pow2. lia.
  - apply MIV_valid_cases in H as [->|[->|[->| ->]]]; by vm_compute.
  - apply wrapu_range. lia.
Qed.

(** Every word above the doubles is a NaN pattern: a non-double value viewed
    as a double is a NaN. *)
Lemma high_words_are_NaN v : 0xFFF0000000000001 <= v < 2 ^ 64 -> IsNaN v = true.
Proof.
  intros H. rewrite IsNaN_pattern. unfold nan_pattern, dbl_exp, dbl_frac. pow2.
  assert (v / 4503599627370496 = 4095) as ->.
  { symmetry. apply (Z.div_unique _ _ _ (v - 4095 * 4503599627370496)); lia. }
  assert (v mod 4503599627370496 = v - 4095 * 4503599627370496) as ->.
  { symmetry. apply (Z.mod_unique _ _ 4095); lia. }
  apply andb_true_iff. split; [done|]. apply negb_true_iff, Z.eqb_neq. lia.
Qed.

Lemma box_not_double_NaN x : LuaValue_valid x = true ->
  IsDouble (box x) = false -> IsNaN (box x) = true.
Proof.
  intros H Hd. apply high_words_are_NaN. apply Z.ltb_ge in Hd.
  pose proof (box_range x H) as [_ Hr]. unfold x_int32Tag in Hd. lia.
Qed.

Lemma IsNil_box x : LuaValue_valid x = true -> IsNil (box x) = true <-> x = LMIV MIV.x_nil.
Proof.
  intros H. unfold IsNil. rewrite Z.eqb_eq. split; [|by intros ->].
  intros E. rewrite <- (unbox_box_lemma x H), E. by vm_compute.
Qed.

(** The nil tests the array code performs are mutually exclusive with the
    number tests. *)
Lemma IsInt32_Nil : IsInt32 Nil = false. Proof. done. Qed.
Lemma IsDouble_Nil : IsDouble Nil = false. Proof. done. Qed.

(** The single float comparison of [IsDoubleNotNaN] on the raw word. *)
Lemma IsDoubleNotNaN_box x : LuaValue_valid x = true ->
  IsDoubleNotNaN (box x) = match x with LDouble d => negb (IsNaN d) | _ => false end.
Proof.
  intros H. unfold IsDoubleNotNaN. tests_of x H.
  destruct x; [done|..]; injection Etests as Hd _ _ _;
    by rewrite (box_not_double_NaN _ H Hd).
Qed.

(** ** Properties *)

(** C36: NaN boxing is a faithful representation.  For every Lua value in range
    (a double up to FFFA.., an int32, one of the immediates, a user-heap
    pointer) the dispatch on the tag tests recovers exactly the value that was
    boxed, and exactly one of IsDouble, IsInt32, IsMIV, IsPointer holds. *)
Theorem boxing_faithful x : LuaValue_valid x = true ->
  unbox (box x) = x /\ in_u 64 (box x) /\
  (Nat.b2n (IsDouble (box x)) + Nat.b2n (IsInt32 (box x))
   + Nat.b2n (IsMIV (box x)) + Nat.b2n (IsPointer (box x)) = 1)%nat.
Proof.
  intros H. split; [by apply unbox_box_lemma|]. split; [by apply box_range|].
  tests_of x H. destruct x; simpl box in *; injection Etests as E1 E2 E3 E4;
    by rewrite E1, E2, E3, E4.
Qed.

Lemma boxing_faithful_witness :
  let x := LPointer (-8589934592) in
  unbox (box x) = x /\ in_u 64 (box x) /\
  (Nat.b2n (IsDouble (box x)) + Nat.b2n (IsInt32 (box x))
   + Nat.b2n (IsMIV (box x)) + Nat.b2n (IsPointer (box x)) = 1)%nat.
Proof. exact (boxing_faithful (LPointer (-8589934592)) eq_refl). Defined.

(** The branch-free truthiness test [(v ^ mivTag) > 2] is the Lua
    definition of truth: every boxed value except nil and false is true. *)
Theorem IsTruthy_spec x : LuaValue_valid x = true ->
  IsTruthy (box x) = negb (bool_decide (x = LMIV MIV.x_nil \/ x = LMIV MIV.x_false)).
Proof.
  intros H. unfold IsTruthy.
  destruct (bool_decide_reflect (x = LMIV MIV.x_nil \/ x = LMIV MIV.x_false)) as [[->| ->]|Hne];
    [done..|]. simpl. apply Z.ltb_lt. set (y := Z.lxor (box x) x_mivTag).
  assert (box x = CreateMIV y) as E.
  { unfold CreateMIV, y. by rewrite Z.lxor_assoc, Z.lxor_nilpotent, Z.lxor_0_r. }
  assert (0 <= y) as Hy.
  { apply (in_u_lxor 64); [lia|by apply box_range|by vm_compute]. }
  destruct (Z.le_gt_cases y 2) as [Hle|]; [|lia]. exfalso.
  assert (y = 0 \/ y = 1 \/ y = 2) as [Ey|[Ey|Ey]] by lia; rewrite Ey in E.
  - apply Hne. left. rewrite <- (unbox_box_lemma x H), E. by vm_compute.
  - tests_of x H. rewrite E in Etests. vm_compute in Etests.
    destruct x as [|i|m|]; try done.
    rewrite <- (AsMIV_CreateMIV m) in H. simpl box in E. rewrite E in H. by vm_compute in H.
  - apply Hne. right. rewrite <- (unbox_box_lemma x H), E. by vm_compute.
Qed.

Lemma IsTruthy_spec_witness :
  IsTruthy (box (LInt32 0)) = true /\ IsTruthy (box (LMIV 2)) = false.
Proof.
  split; [exact (IsTruthy_spec (LInt32 0) eq_refl) | exact (IsTruthy_spec (LMIV 2) eq_refl)].
Defined.
