(* ===== verification/TypeMask.v ===== *)
(** * The type-speculation lattice ([drt/tvalue.h], second half)

    The list of type specialisations, the compile-time computation of the bit
    mask of each of them, the classification [GetTypeForBoxedValue] of a boxed
    value into a singleton mask, the per-type [check] functions, and the
    set operations of [struct TypeMask].  The main theorem ties the two views
    together: a run-time check succeeds exactly when the static mask contains
    the bit of the value. *)

From S2P Require Import Prelude Double TValue.

(** [HEAP_OBJECT_INFO_LIST] of [drt/heap_object_common.h], in order. *)
Inductive HeapEntityType :=
| String | Function_ | Userdata | Thread | Table
| ArraySparseMap | Upvalue | UnlinkedCodeBlock | ExecutableCode | Structure
| StructureAnchorHashTable | CacheableDictionary | UncacheableDictionary.

#[export] Instance HeapEntityType_eq_dec : EqDecision HeapEntityType.
Proof. solve_decision. Defined.

(** The entries of [LANGUAGE_EXPOSED_HEAP_OBJECT_INFO_LIST]; the enumerator of
    each of them is its position. *)
Definition exposed_heap_types : list HeapEntityType :=
  [String; Function_; Userdata; Thread; Table].

Definition HeapEntityType_ord (t : HeapEntityType) : nat :=
  match t with
  | String => 0 | Function_ => 1 | Userdata => 2 | Thread => 3 | Table => 4
  | ArraySparseMap => 5 | Upvalue => 6 | UnlinkedCodeBlock => 7 | ExecutableCode => 8
  | Structure => 9 | StructureAnchorHashTable => 10 | CacheableDictionary => 11
  | UncacheableDictionary => 12
  end%nat.

Inductive Spec :=
| tNil | tBool | tMIV | tDoubleNotNaN | tDoubleNaN | tInt32 | tDouble
| tHeap (hoi : HeapEntityType)
| tHeapEntity | tBottom | tGarbage | tOpaque | tBoxedValueTop | tFullTop.

#[export] Instance Spec_eq_dec : EqDecision Spec.
Proof. solve_decision. Defined.

(** [TypeSpecializationList] *)
Definition TypeSpecializationList : list Spec :=
  [tNil; tBool; tMIV; tDoubleNotNaN; tDoubleNaN; tInt32; tDouble]
  ++ map tHeap exposed_heap_types
  ++ [tHeapEntity; tBottom; tGarbage; tOpaque; tBoxedValueTop; tFullTop].

(** The argument of [TSMDef]: a leaf, or a [tsm_or] / [tsm_not] expression. *)
Inductive tsm :=
| TypeSpeculationLeaf
| tsm_spec (s : Spec)
| tsm_or (l : list tsm)
| tsm_not (a : tsm).

Definition TSMDef (s : Spec) : tsm :=
  match s with
  | tMIV => tsm_or [tsm_spec tNil; tsm_spec tBool]
  | tDouble => tsm_or [tsm_spec tDoubleNotNaN; tsm_spec tDoubleNaN]
  | tHeapEntity => tsm_or (tsm_or [] :: map (fun h => tsm_spec (tHeap h)) exposed_heap_types)
  | _ => TypeSpeculationLeaf
  end.

(** [is_type_speculation_leaf_impl] *)
Definition is_type_speculation_leaf (s : Spec) : bool :=
  match s with
  | tFullTop | tBoxedValueTop | tBottom => false
  | tGarbage | tOpaque => true
  | _ => match TSMDef s with TypeSpeculationLeaf => true | _ => false end
  end.

(** [num_leaves_in_type_speculation_list::count_leaves] *)
Fixpoint count_leaves (l : list Spec) : Z :=
  match l with
  | [] => 0
  | s :: l' => (if is_type_speculation_leaf s then 1 else 0) + count_leaves l'
  end.

Definition x_numLatticeLeavesOutsideBoxedValueLattice : Z := 2.
Definition x_numUsefulBitsInFullTypeMask : Z := count_leaves TypeSpecializationList.
Definition x_numUsefulBitsInBytecodeTypeMask : Z :=
  x_numUsefulBitsInFullTypeMask - x_numLatticeLeavesOutsideBoxedValueLattice.

(** [leaf_ordinal_in_type_speculation_list::get_impl] *)
Fixpoint leaf_ordinal (s : Spec) (l : list Spec) : Z :=
  match l with
  | [] => 0
  | x :: l' =>
      if bool_decide (s = x) then 0
      else (if is_type_speculation_leaf x then 1 else 0) + leaf_ordinal s l'
  end.

(** [ComputeTypeMaskForTop]: [static_cast<TypeMaskTy>(-1) >> (32 - numLeaves)] *)
Definition type_speculation_mask_for_boxed_value_top : Z :=
  Z.shiftr (u32 (-1)) (32 - x_numUsefulBitsInBytecodeTypeMask).

(** [compute_type_speculation_mask::compute] and [eval_operator]; the template
    recursion is bounded by the nesting of the [TSMDef]s. *)
Fixpoint compute (fuel : nat) (s : Spec) : Z :=
  match s with
  | tBottom => 0
  | tBoxedValueTop => type_speculation_mask_for_boxed_value_top
  | tGarbage => Z.shiftl 1 x_numUsefulBitsInBytecodeTypeMask
  | tOpaque => Z.shiftl 1 (x_numUsefulBitsInBytecodeTypeMask + 1)
  | tFullTop =>
      Z.lor (Z.lor type_speculation_mask_for_boxed_value_top
                   (Z.shiftl 1 x_numUsefulBitsInBytecodeTypeMask))
            (Z.shiftl 1 (x_numUsefulBitsInBytecodeTypeMask + 1))
  | _ =>
      if is_type_speculation_leaf s then Z.shiftl 1 (leaf_ordinal s TypeSpecializationList)
      else match fuel with
           | O => 0
           | S fuel' =>
               (fix eval (t : tsm) : Z :=
                  match t with
                  | TypeSpeculationLeaf => 0
                  | tsm_spec s' => compute fuel' s'
                  | tsm_or l => fold_right (fun a r => Z.lor (eval a) r) 0 l
                  | tsm_not a => Z.lxor type_speculation_mask_for_boxed_value_top (eval a)
                  end) (TSMDef s)
           end
  end.

Definition x_typeMaskFor (s : Spec) : Z := compute 2 s.

(** [x_heapEntityTypeMaskMap] *)
Definition x_heapEntityTypeMaskMap : list Z :=
  map (fun h => x_typeMaskFor (tHeap h)) exposed_heap_types.

(** ** [struct TypeMask] *)
Module TypeMask.
Definition Empty (m : Z) : bool := m =? 0.
Definition SubsetOf (m o : Z) : bool := Z.land m o =? m.
Definition StrictSubsetOf (m o : Z) : bool := SubsetOf m o && negb (m =? o).
Definition SupersetOf (m o : Z) : bool := Z.land m o =? o.
Definition StrictSupersetOf (m o : Z) : bool := SupersetOf m o && negb (m =? o).
Definition DisjointFrom (m o : Z) : bool := Z.land m o =? 0.
Definition OverlapsWith (m o : Z) : bool := negb (Z.land m o =? 0).
Definition Cap (m o : Z) : Z := Z.land m o.
Definition Cup (m o : Z) : Z := Z.lor m o.
Definition Subtract (m o : Z) : Z := Z.land m (Z.lxor o (2 ^ 32 - 1)).
End TypeMask.

(** ** Classification of a boxed value *)
Section classify.
(** The [m_type] byte of the object header a boxed pointer leads to
      ([DeegenImpl_TValueGetPointerType]). *)
Variable pointer_type : Z -> HeapEntityType.

Definition GetHeapEntityType (v : Z) : HeapEntityType := pointer_type (AsPointer v).

(** The [check] function of each specialisation; [None] is the
      [ReleaseAssert(false)] of [tGarbage] and [tOpaque]. *)
Definition check (s : Spec) (v : Z) : option bool :=
    match s with
    | tNil => Some (IsNil v)
    | tBool => Some (IsMIV v && negb (IsNil v))
    | tMIV => Some (IsMIV v)
    | tDoubleNotNaN => Some (IsDoubleNotNaN v)
    | tDoubleNaN => Some (IsDoubleNaN v)
    | tDouble => Some (IsDouble v)
    | tInt32 => Some (IsInt32 v)
    | tHeap h => Some (IsPointer v && bool_decide (GetHeapEntityType v = h))
    | tHeapEntity => Some (IsPointer v)
    | tBottom => Some false
    | tGarbage | tOpaque => None
    | tBoxedValueTop | tFullTop => Some true
    end.

(** [None]: the heap type is outside [x_heapEntityTypeMaskMap]. *)
Definition GetTypeForBoxedValue (v : Z) : option Z :=
    if IsDouble v then
      if IsDoubleNotNaN v then Some (x_typeMaskFor tDoubleNotNaN)
      else Some (x_typeMaskFor tDoubleNaN)
    else if IsPointer v then
      x_heapEntityTypeMaskMap !! HeapEntityType_ord (GetHeapEntityType v)
    else if IsMIV v then
      if IsNil v then Some (x_typeMaskFor tNil) else Some (x_typeMaskFor tBool)
    else Some (x_typeMaskFor tInt32).

(** The leaf of the lattice a Lua value belongs to. *)
Definition leaf_of (x : LuaValue) : Spec :=
    match x with
    | LDouble d => if IsNaN d then tDoubleNaN else tDoubleNotNaN
    | LInt32 _ => tInt32
    | LMIV m => if m =? MIV.x_nil then tNil else tBool
    | LPointer p => tHeap (pointer_type p)
    end.

(** A value the program can compute: in range, the header of a pointer names a
      language-exposed type. *)
Definition user_value (x : LuaValue) : Prop :=
    LuaValue_valid x = true /\
    match x with LPointer p => pointer_type p ∈ exposed_heap_types | _ => True end.

(** [x] is a double only if it is a number or the one NaN pattern
      [IsDoubleNaN] accepts. *)
Definition pure_nan (x : LuaValue) : bool :=
    match x with LDouble d => negb (IsNaN d) || (d =? quiet_NaN) | _ => true end.

Lemma exposed_lookup h : h ∈ exposed_heap_types ->
    x_heapEntityTypeMaskMap !! HeapEntityType_ord h = Some (x_typeMaskFor (tHeap h)).
Proof. rewrite list_elem_of_In. intros [<-|[<-|[<-|[<-|[<-|[]]]]]]; reflexivity. Qed.

Lemma GetType_leaf x : user_value x ->
    GetTypeForBoxedValue (box x) = Some (x_typeMaskFor (leaf_of x)).
Proof.
    intros [H Hp]. tests_of x H.
    unfold GetTypeForBoxedValue. rewrite IsDoubleNotNaN_box by done.
    destruct x as [d|i|m|p]; simpl box in *; injection Etests as -> E2 E3 E4;
      rewrite ?E3, ?E4; simpl.
    - by destruct (IsNaN d).
    - done.
    - destruct (IsNil (CreateMIV m)) eqn:En.
      + apply (IsNil_box (LMIV m)) in En as [= ->]; done.
      + destruct (Z.eqb_spec m MIV.x_nil) as [->|]; [done|reflexivity].
    - unfold GetHeapEntityType. rewrite AsPointer_CreatePointer by done. by apply exposed_lookup.
Qed.

(** Which leaves a specialisation stands for. *)
Definition leaf_in (s l : Spec) : bool :=
    match s with
    | tMIV => bool_decide (l = tNil) || bool_decide (l = tBool)
    | tDouble => bool_decide (l = tDoubleNotNaN) || bool_decide (l = tDoubleNaN)
    | tHeapEntity => match l with tHeap _ => true | _ => false end
    | tBottom => false
    | tBoxedValueTop | tFullTop => true
    | _ => bool_decide (s = l)
    end.

Definition boxed_leaves : list Spec :=
    [tNil; tBool; tDoubleNotNaN; tDoubleNaN; tInt32] ++ map tHeap exposed_heap_types.

Lemma masks_are_leaf_sets :
    forallb (fun s => forallb (fun l =>
      Bool.eqb (TypeMask.OverlapsWith (x_typeMaskFor s) (x_typeMaskFor l)) (leaf_in s l))
      boxed_leaves)
      (List.filter (fun s => negb (bool_decide (s = tGarbage)) && negb (bool_decide (s = tOpaque)))
         TypeSpecializationList) = true.
Proof. vm_compute. reflexivity. Qed.

Lemma mask_leaf s l :
    s ∈ TypeSpecializationList -> s <> tGarbage -> s <> tOpaque -> l ∈ boxed_leaves ->
    TypeMask.OverlapsWith (x_typeMaskFor s) (x_typeMaskFor l) = leaf_in s l.
Proof.
    rewrite !list_elem_of_In. intros Hs Hg Ho Hl.
    pose proof masks_are_leaf_sets as H. rewrite forallb_forall in H.
    specialize (H s). rewrite forallb_forall in H. apply Bool.eqb_prop, H; [|done].
    apply filter_In. split; [done|]. by rewrite !bool_decide_eq_false_2 by done.
Qed.

Lemma leaf_of_boxed x : user_value x -> leaf_of x ∈ boxed_leaves.
Proof.
    intros [H Hp]. apply list_elem_of_In. destruct x as [d|i|m|p]; simpl leaf_of.
    - destruct (IsNaN d); simpl; tauto.
    - simpl; tauto.
    - destruct (m =? MIV.x_nil); simpl; tauto.
    - apply list_elem_of_In in Hp. apply in_or_app. right. by apply in_map.
Qed.

Lemma check_leaf x s : user_value x -> pure_nan x = true ->
    s <> tGarbage -> s <> tOpaque -> check s (box x) = Some (leaf_in s (leaf_of x)).
Proof.
    intros [H Hp] Hn Hg Ho. tests_of x H.
    assert (forall d, x = LDouble d -> IsDoubleNaN (box x) = IsNaN d) as Hnan.
    { intros d ->. simpl in Hn |- *. unfold IsDoubleNaN, CreateDouble. fold quiet_NaN.
      apply orb_true_iff in Hn as [Hn|Hn]; zbool.
      - rewrite Hn. apply Z.eqb_neq. intros ->. by vm_compute in Hn.
      - by subst d. }
    assert (IsDouble (box x) = false -> IsDoubleNaN (box x) = false) as Hnd.
    { intros Hd. apply Z.ltb_ge in Hd. apply Z.eqb_neq. unfold x_int32Tag in Hd. lia. }
    assert (IsNil (box x) = bool_decide (x = LMIV MIV.x_nil)) as Hnil.
    { apply eq_true_iff_eq. rewrite bool_decide_eq_true. by apply IsNil_box. }
    unfold check. rewrite IsDoubleNotNaN_box, Hnil by done.
    destruct x as [d|i|m|p]; simpl box in *; injection Etests as E1 E2 E3 E4;
      rewrite E1, E2, E3, E4; [rewrite (Hnan d eq_refl)|rewrite (Hnd E1)..]; simpl leaf_of.
    - destruct s; try done; by destruct (IsNaN d).
    - by destruct s.
    - destruct (Z.eqb_spec m MIV.x_nil) as [->|Hm];
        [|assert (LMIV m <> LMIV MIV.x_nil) by congruence]; destruct s; try done;
        by rewrite bool_decide_eq_false_2.
    - simpl box. unfold GetHeapEntityType. rewrite AsPointer_CreatePointer by done.
      destruct s as [| | | | | | |h| | | | | |]; try done. simpl. f_equal.
      apply bool_decide_ext. naive_solver.
Qed.
End classify.

(** The bits of a difference of masks. *)
Lemma Subtract_bits m o i : in_u 32 m -> 0 <= i ->
  Z.testbit (TypeMask.Subtract m o) i = Z.testbit m i && negb (Z.testbit o i).
Proof.
  intros Hm Hi. unfold TypeMask.Subtract.
  change (2 ^ 32 - 1) with (Z.ones 32). autorewrite with testbit.
  destruct (Z.lt_ge_cases i 32).
  - rewrite (proj2 (Z.ltb_lt i 32)) by lia. by rewrite xorb_true_r.
  - by rewrite (in_u_testbit 32 m i) by (done || lia).
Qed.

(** ** Properties *)

(** C37: static type masks describe run-time checks.  For every value whose NaN, if
    it is one, is the pattern [0x7ff8000000000000], and every type specialisation of
    the boxed-value lattice, the run-time [check] succeeds exactly when the
    specialisation's mask overlaps the singleton mask [GetTypeForBoxedValue] assigns
    to the value.  The other NaNs are the subject of [impure_nan_escapes_leaves]. *)
Theorem typemask_check_sound (pointer_type : Z -> HeapEntityType) x s :
  user_value pointer_type x -> pure_nan x = true ->
  s ∈ TypeSpecializationList -> s <> tGarbage -> s <> tOpaque ->
  exists m, GetTypeForBoxedValue pointer_type (box x) = Some m /\
    check pointer_type s (box x) = Some (TypeMask.OverlapsWith (x_typeMaskFor s) m).
Proof.
  intros Hx Hn Hs Hg Ho. eexists. split; [by apply GetType_leaf|].
  rewrite mask_leaf by eauto using leaf_of_boxed. by apply check_leaf.
Qed.

Lemma typemask_check_sound_witness :
  exists m, GetTypeForBoxedValue (fun _ => Table) (box (LPointer (- 2 ^ 33))) = Some m /\
    check (fun _ => Table) tHeapEntity (box (LPointer (- 2 ^ 33)))
    = Some (TypeMask.OverlapsWith (x_typeMaskFor tHeapEntity) m).
Proof.
  apply (typemask_check_sound (fun _ => Table)); try done.
  - split; [done|]. apply list_elem_of_In. vm_compute. tauto.
  - apply list_elem_of_In. vm_compute. tauto.
Defined.

(** The masks form the lattice the code expects: the leaf masks are the
    distinct single bits, the ten boxed leaves (and nothing else) make up
    [tBoxedValueTop], the two special leaves lie outside it, and [tFullTop] is
    the union of everything, so all masks fit the 32-bit carrier. *)
Theorem typemask_lattice :
  map x_typeMaskFor (List.filter is_type_speculation_leaf TypeSpecializationList)
    = map (fun i => 2 ^ Z.of_nat i) (seq 0 12) /\
  fold_right Z.lor 0 (map x_typeMaskFor boxed_leaves) = x_typeMaskFor tBoxedValueTop /\
  TypeMask.DisjointFrom (x_typeMaskFor tGarbage) (x_typeMaskFor tBoxedValueTop) = true /\
  TypeMask.DisjointFrom (x_typeMaskFor tOpaque) (x_typeMaskFor tBoxedValueTop) = true /\
  forallb (fun s => TypeMask.SubsetOf (x_typeMaskFor s) (x_typeMaskFor tFullTop))
    TypeSpecializationList = true /\
  x_typeMaskFor tFullTop = 2 ^ x_numUsefulBitsInFullTypeMask - 1.
Proof. vm_compute. repeat split. Qed.

(** The mask operations are the set operations on the types a value may
    have.  Seen through the bits, [SubsetOf] is inclusion, [Cup], [Cap] and
    [Subtract] are union, intersection and difference, [DisjointFrom] and
    [OverlapsWith] are emptiness of the intersection. *)
Theorem typemask_set_algebra m o i : in_u 32 m -> in_u 32 o -> 0 <= i ->
  (TypeMask.SubsetOf m o = true <-> forall j, 0 <= j -> Z.testbit m j = true -> Z.testbit o j = true) /\
  (TypeMask.SupersetOf m o = TypeMask.SubsetOf o m) /\
  (TypeMask.DisjointFrom m o = true <-> forall j, 0 <= j -> Z.testbit m j && Z.testbit o j = false) /\
  (TypeMask.OverlapsWith m o = negb (TypeMask.DisjointFrom m o)) /\
  Z.testbit (TypeMask.Cup m o) i = Z.testbit m i || Z.testbit o i /\
  Z.testbit (TypeMask.Cap m o) i = Z.testbit m i && Z.testbit o i /\
  Z.testbit (TypeMask.Subtract m o) i = Z.testbit m i && negb (Z.testbit o i) /\
  (TypeMask.Empty (TypeMask.Subtract m o) = TypeMask.SubsetOf m o).
Proof.
  intros Hm Ho Hi. repeat split.
  - intros E j Hj Hb. apply Z.eqb_eq in E. rewrite <- E, Z.land_spec in Hb.
    apply andb_true_iff in Hb. tauto.
  - intros Hsub. apply Z.eqb_eq. bitwise j Hj.
    destruct (Z.testbit m j) eqn:E; [|done]. by rewrite Hsub.
  - unfold TypeMask.SupersetOf, TypeMask.SubsetOf. by rewrite Z.land_comm.
  - intros E j Hj. apply Z.eqb_eq in E. by rewrite <- Z.land_spec, E, Z.testbit_0_l.
  - intros Hd. apply Z.eqb_eq. bitwise j Hj. by apply Hd.
  - apply Z.lor_spec.
  - apply Z.land_spec.
  - by apply Subtract_bits.
  - unfold TypeMask.Empty, TypeMask.SubsetOf. apply eq_true_iff_eq. rewrite !Z.eqb_eq.
    rewrite <- !Z.bits_inj_iff'. split; intros E j Hj; specialize (E j Hj); revert E;
      rewrite Z.land_spec, Subtract_bits, Z.testbit_0_l by done;
      by destruct (Z.testbit m j), (Z.testbit o j).
Qed.

Lemma typemask_set_algebra_witness :
  let m := x_typeMaskFor tDouble in let o := x_typeMaskFor tDoubleNaN in
  TypeMask.Empty (TypeMask.Subtract m o) = TypeMask.SubsetOf m o.
Proof.
  apply (typemask_set_algebra (x_typeMaskFor tDouble) (x_typeMaskFor tDoubleNaN) 0);
    [vm_compute; split; done..|done].
Defined.

(** C40: the values that escape the two leaves of the doubles are exactly the NaNs
    other than [0x7ff8000000000000], among them the default NaN of x86-64
    arithmetic, [0xfff8000000000000].  Such a value is a boxed double, which
    [GetTypeForBoxedValue] classifies as [tDoubleNaN], yet the [check] functions of
    both [tDoubleNaN] and [tDoubleNotNaN] reject it: [IsDoubleNaN] recognises one
    pattern only, and [CreateDouble] does not make it the only one. *)
Theorem impure_nan_escapes_leaves (pointer_type : Z -> HeapEntityType) x : user_value pointer_type x ->
  pure_nan x = false <->
  GetTypeForBoxedValue pointer_type (box x) = Some (x_typeMaskFor tDoubleNaN) /\
  check pointer_type tDouble (box x) = Some true /\
  check pointer_type tDoubleNaN (box x) = Some false /\
  check pointer_type tDoubleNotNaN (box x) = Some false.
Proof.
  intros Hx. pose proof Hx as [Hv _]. split.
  - destruct x as [d| | |]; try done. cbn [pure_nan]. intros [Hn Hd]%orb_false_iff. apply negb_false_iff in Hn.
    split; [rewrite (GetType_leaf pointer_type _ Hx); cbn [leaf_of]; by rewrite Hn|].
    pose proof (tests_box _ Hv) as Ht. unfold tag_tests in Ht. injection Ht as Ht _ _ _. cbn [check box] in *. rewrite Ht.
    unfold IsDoubleNaN, IsDoubleNotNaN, CreateDouble, quiet_NaN in *. split_and!; [done|by rewrite Hd|by rewrite Hn].
  - intros (_ & Hd & Hnan & Hnn). destruct (pure_nan x) eqn:Hp; [|done]. exfalso.
    rewrite (check_leaf pointer_type x tDouble Hx Hp) in Hd by done. rewrite (check_leaf pointer_type x tDoubleNaN Hx Hp) in Hnan by done.
    rewrite (check_leaf pointer_type x tDoubleNotNaN Hx Hp) in Hnn by done. destruct x as [d| | |]; simpl in *; repeat case_match; done.
Qed.

Lemma impure_nan_escapes_leaves_witness :
  GetTypeForBoxedValue (fun _ => Table) 0xfff8000000000000 = Some (x_typeMaskFor tDoubleNaN) /\
  check (fun _ => Table) tDouble 0xfff8000000000000 = Some true /\
  check (fun _ => Table) tDoubleNaN 0xfff8000000000000 = Some false /\
  check (fun _ => Table) tDoubleNotNaN 0xfff8000000000000 = Some false.
Proof. apply (impure_nan_escapes_leaves (fun _ => Table) (LDouble 0xfff8000000000000)); [split; by vm_compute|by vm_compute]. Defined.
