(* ===== verification/BitField.v ===== *)
(** * Bit-field members ([BitFieldMember] of [common_utils/misc_math_helper.h])

    The helper replaces C bit fields by explicit masks.  A field is described
    by the width of its carrier, its first bit and its number of bits; [Get] and
    [Set] are the code's expressions.  The lemmas are the lens laws every user
    of the helper (here [ArrayType]) relies on. *)

From S2P Require Import Prelude.

Record BitField := mkBitField { carrier : Z; start : Z; width : Z }.

(** The class's static assertions. *)
Definition BitField_ok (f : BitField) : Prop :=
  0 <= start f < carrier f /\ start f + width f <= carrier f /\ 0 < width f < 64.

Definition x_maskForGet (f : BitField) : Z :=
  wrapu (carrier f) (Z.shiftl (Z.shiftl 1 (width f) - 1) (start f)).
Definition x_maskForSet (f : BitField) : Z :=
  wrapu (carrier f) (Z.lnot (x_maskForGet f)).

Definition Set_ (f : BitField) (c v : Z) : Z :=
  wrapu (carrier f) (Z.lor (Z.land c (x_maskForSet f)) (Z.shiftl v (start f))).
Definition Get (f : BitField) (c : Z) : Z :=
  Z.shiftr (Z.land c (x_maskForGet f)) (start f).
(** [Get] when [SelfType] is [bool]: the masked word converted to [bool]. *)
Definition Get_bool (f : BitField) (c : Z) : bool := negb (Z.land c (x_maskForGet f) =? 0).

(** Two fields of one carrier that share no bit. *)
Definition disjoint_fields (f g : BitField) : Prop :=
  carrier f = carrier g /\ (start f + width f <= start g \/ start g + width g <= start f).

Lemma wrapu_bits w z i : 0 <= i -> 0 <= w ->
  Z.testbit (wrapu w z) i = (i <? w) && Z.testbit z i.
Proof.
  intros Hi Hw. unfold wrapu. destruct (Z.ltb_spec i w).
  - by rewrite Z.mod_pow2_bits_low.
  - by rewrite Z.mod_pow2_bits_high by lia.
Qed.

Section laws.
Variables f : BitField.
Hypothesis f_ok : BitField_ok f.

Lemma maskForGet_bits i : 0 <= i ->
  Z.testbit (x_maskForGet f) i = (start f <=? i) && (i <? start f + width f).
Proof.
  intros Hi. destruct f_ok as (H1 & H2 & H3). unfold x_maskForGet.
  rewrite wrapu_bits, Z.shiftl_spec by lia.
  replace (Z.shiftl 1 (width f) - 1) with (Z.ones (width f)) by (unfold Z.ones; lia).
  destruct (Z.leb_spec (start f) i).
  - rewrite Z.testbit_ones_nonneg by lia.
    destruct (Z.ltb_spec i (carrier f)), (Z.ltb_spec (i - start f) (width f)),
      (Z.ltb_spec i (start f + width f)); try done; lia.
  - rewrite Z.testbit_neg_r by lia. by rewrite andb_false_r.
Qed.

Lemma maskForSet_bits i : 0 <= i ->
  Z.testbit (x_maskForSet f) i
  = (i <? carrier f) && negb ((start f <=? i) && (i <? start f + width f)).
Proof.
  intros Hi. unfold x_maskForSet. destruct f_ok as (H1 & H2 & H3).
  by rewrite wrapu_bits, Z.lnot_spec, maskForGet_bits by lia.
Qed.

(** The bits of an updated carrier: the field's from [v], the others kept. *)
Lemma Set_bits c v i : 0 <= i -> 0 <= v < 2 ^ width f ->
  Z.testbit (Set_ f c v) i =
    (i <? carrier f) &&
    (if (start f <=? i) && (i <? start f + width f)
     then Z.testbit v (i - start f) else Z.testbit c i).
Proof.
  intros Hi Hv. destruct f_ok as (H1 & H2 & H3). unfold Set_.
  rewrite wrapu_bits, Z.lor_spec, Z.land_spec, Z.shiftl_spec, maskForSet_bits by lia.
  destruct (Z.ltb_spec i (carrier f)); [|done].
  destruct (Z.leb_spec (start f) i), (Z.ltb_spec i (start f + width f)); simpl.
  - by rewrite andb_false_r.
  - rewrite (in_u_testbit (width f) v) by (unfold in_u; lia). by rewrite orb_false_r, andb_true_r.
  - by rewrite (Z.testbit_neg_r v), orb_false_r, andb_true_r by lia.
  - lia.
Qed.

Lemma Get_bits c i : 0 <= i ->
  Z.testbit (Get f c) i = (i <? width f) && Z.testbit c (i + start f).
Proof.
  intros Hi. destruct f_ok as (H1 & H2 & H3). unfold Get.
  rewrite Z.shiftr_spec, Z.land_spec, maskForGet_bits by lia.
  rewrite (proj2 (Z.leb_le _ _)) by lia. simpl.
  destruct (Z.ltb_spec (i + start f) (start f + width f)), (Z.ltb_spec i (width f)); try lia;
    by rewrite ?andb_true_r, ?andb_false_r.
Qed.

Lemma Get_Set_same c v : 0 <= v < 2 ^ width f -> Get f (Set_ f c v) = v.
Proof.
  intros Hv. destruct f_ok as (H1 & H2 & H3). apply Z.bits_inj'. intros i Hi.
  rewrite Get_bits, Set_bits by lia.
  destruct (Z.ltb_spec i (width f)); simpl.
  - rewrite (proj2 (Z.ltb_lt _ (carrier f))), (proj2 (Z.leb_le _ _)), (proj2 (Z.ltb_lt _ (_ + _))) by lia.
    simpl. f_equal. lia.
  - symmetry. apply (in_u_testbit (width f)); [done|lia].
Qed.

Lemma Get_range c : 0 <= Get f c < 2 ^ width f.
Proof.
  destruct f_ok as (H1 & H2 & H3). apply (in_u_bits (width f)); [lia| |].
  - unfold Get. apply Z.shiftr_nonneg, Z.land_nonneg. right. unfold x_maskForGet.
    apply wrapu_range. lia.
  - intros i Hi. rewrite Get_bits by lia. by rewrite (proj2 (Z.ltb_ge _ _)) by lia.
Qed.

(** A one-bit field read as a [bool]. *)
Lemma Get_bool_spec c : width f = 1 -> Get_bool f c = Z.testbit c (start f).
Proof.
  intros Hw. destruct f_ok as (H1 & H2 & H3). unfold Get_bool.
  apply eq_true_iff_eq. rewrite negb_true_iff, Z.eqb_neq. split.
  - intros Hne. destruct (Z.testbit c (start f)) eqn:E; [done|]. destruct Hne.
    apply Z.bits_inj'. intros i Hi. rewrite Z.land_spec, maskForGet_bits, Z.testbit_0_l by lia.
    destruct (Z.leb_spec (start f) i), (Z.ltb_spec i (start f + width f)); simpl;
      rewrite ?andb_false_r; try done.
    replace i with (start f) by lia. by rewrite E.
  - intros Hb Hz. assert (Z.testbit (Z.land c (x_maskForGet f)) (start f) = true) as Hc.
    { rewrite Z.land_spec, Hb, maskForGet_bits by lia.
      by rewrite (proj2 (Z.leb_le _ _)), (proj2 (Z.ltb_lt _ _)) by lia. }
    by rewrite Hz, Z.testbit_0_l in Hc.
Qed.

Lemma Set_range c v : 0 <= carrier f -> in_u (carrier f) (Set_ f c v).
Proof. intros H. by apply wrapu_range. Qed.
End laws.

Lemma Get_Set_other f g c v : BitField_ok f -> BitField_ok g -> disjoint_fields f g ->
  0 <= v < 2 ^ width f -> Get g (Set_ f c v) = Get g c.
Proof.
  intros Hf Hg [Hc Hd] Hv. apply Z.bits_inj'. intros i Hi.
  pose proof Hf as (F1 & F2 & F3). pose proof Hg as (G1 & G2 & G3).
  rewrite !Get_bits, Set_bits by (done || lia).
  destruct (Z.ltb_spec i (width g)); [|done]. simpl.
  rewrite (proj2 (Z.ltb_lt _ (carrier f))) by lia. simpl.
  destruct (Z.leb_spec (start f) (i + start g)), (Z.ltb_spec (i + start g) (start f + width f));
    try done; lia.
Qed.

Lemma Get_bool_Set_other f g c v : BitField_ok f -> BitField_ok g -> disjoint_fields f g ->
  width g = 1 -> 0 <= v < 2 ^ width f -> Get_bool g (Set_ f c v) = Get_bool g c.
Proof.
  intros Hf Hg [Hc Hd] Hw Hv. rewrite !Get_bool_spec by done.
  pose proof Hf as (F1 & F2 & F3). pose proof Hg as (G1 & G2 & G3).
  rewrite Set_bits by (done || lia). rewrite (proj2 (Z.ltb_lt _ (carrier f))) by lia. simpl.
  destruct (Z.leb_spec (start f) (start g)), (Z.ltb_spec (start g) (start f + width f));
    try done; lia.
Qed.

(** Bit-field members are independent lenses.  Writing a field and reading
    it back returns the value written, every other field of the same carrier
    reads as before, writing back the value read changes nothing, and the last
    of two writes wins, for every carrier width and field position the class's
    static assertions allow. *)
Theorem bitfield_lens f g c v v' :
  BitField_ok f -> BitField_ok g -> disjoint_fields f g ->
  in_u (carrier f) c -> 0 <= v < 2 ^ width f -> 0 <= v' < 2 ^ width f ->
  Get f (Set_ f c v) = v /\ Get g (Set_ f c v) = Get g c /\
  Set_ f c (Get f c) = c /\ Set_ f (Set_ f c v) v' = Set_ f c v' /\
  in_u (carrier f) (Set_ f c v).
Proof.
  intros Hf Hg Hd Hc Hv Hv'. pose proof Hf as (F1 & F2 & F3).
  split; [by apply Get_Set_same|]. split; [by apply Get_Set_other|].
  split; [|split; [|apply Set_range; lia]]; apply Z.bits_inj'; intros i Hi.
  - pose proof (Get_range f Hf c). rewrite Set_bits by done.
    destruct (Z.ltb_spec i (carrier f)); simpl.
    + destruct (Z.leb_spec (start f) i), (Z.ltb_spec i (start f + width f)); simpl; try done.
      rewrite Get_bits, (proj2 (Z.ltb_lt _ _)) by (done || lia). simpl. f_equal. lia.
    + symmetry. apply (in_u_testbit (carrier f)); [done|lia].
  - rewrite !Set_bits by done. destruct (i <? carrier f); [simpl|done].
    by destruct ((start f <=? i) && _).
Qed.

Lemma bitfield_lens_witness :
  let f := mkBitField 8 0 2 in let g := mkBitField 8 4 1 in
  Get f (Set_ f 16 3) = 3 /\ Get g (Set_ f 16 3) = Get g 16 /\
  Set_ f 16 (Get f 16) = 16 /\ Set_ f (Set_ f 16 3) 1 = Set_ f 16 1 /\
  in_u 8 (Set_ f 16 3).
Proof.
  apply (bitfield_lens (mkBitField 8 0 2) (mkBitField 8 4 1) 16 3 1);
    unfold BitField_ok, disjoint_fields, in_u; simpl; lia.
Defined.
