(* ===== verification/ArrayType.v ===== *)
(** * Array types, growth policy and butterfly header
      ([runtime/array_type.h], [runtime/butterfly.h], and the array-type part of
      [runtime/table_object.h])

    The one-byte [ArrayType] with its five bit fields, the constants of
    [ArrayGrowthPolicy], the range tests of [ButterflyHeader], and the
    computation of the inline-cache kind of an indexed read. *)

From S2P Require Import Prelude BitField.

Module ArrayGrowthPolicy.
Definition x_arrayBaseOrd : Z := 1.
Definition x_alwaysVectorCutoff : Z := 1000.
Definition x_sparseMapUnlessContinuousCutoff : Z := 100000.
Definition x_densityCutoff : Z := 8.
Definition x_unconditionallySparseMapCutoff : Z := 2 ^ 27.
Definition x_initialVectorPartCapacity : Z := 4.
Definition x_vectorGrowthFactor : Z := 2.
End ArrayGrowthPolicy.
Export ArrayGrowthPolicy.

(** ** [struct ArrayType] *)

Inductive Kind := NoButterflyArrayPart | Int32 | Double | Any.

#[export] Instance Kind_eq_dec : EqDecision Kind.
Proof. solve_decision. Defined.

Definition Kind_to_Z (k : Kind) : Z :=
  match k with NoButterflyArrayPart => 0 | Int32 => 1 | Double => 2 | Any => 3 end.
(** [static_cast<Kind>] of the two-bit field. *)
Definition Kind_of_Z (z : Z) : Kind :=
  if z =? 0 then NoButterflyArrayPart else if z =? 1 then Int32
  else if z =? 2 then Double else Any.

Definition BFM_arrayKind : BitField := mkBitField 8 0 2.
Definition BFM_hasSparseMap : BitField := mkBitField 8 2 1.
Definition BFM_sparseMapContainsVectorIndex : BitField := mkBitField 8 3 1.
Definition BFM_isContinuous : BitField := mkBitField 8 4 1.
Definition BFM_mayHaveMetatable : BitField := mkBitField 8 5 1.

Definition ArrayKind (t : Z) : Kind := Kind_of_Z (Get BFM_arrayKind t).
Definition HasSparseMap (t : Z) : bool := Get_bool BFM_hasSparseMap t.
Definition SparseMapContainsVectorIndex (t : Z) : bool :=
  Get_bool BFM_sparseMapContainsVectorIndex t.
Definition IsContinuous (t : Z) : bool := Get_bool BFM_isContinuous t.
Definition MayHaveMetatable (t : Z) : bool := Get_bool BFM_mayHaveMetatable t.

Definition SetArrayKind (t : Z) (v : Kind) : Z := Set_ BFM_arrayKind t (Kind_to_Z v).
Definition SetHasSparseMap (t : Z) (v : bool) : Z := Set_ BFM_hasSparseMap t (Z.b2z v).
Definition SetSparseMapContainsVectorIndex (t : Z) (v : bool) : Z :=
  Set_ BFM_sparseMapContainsVectorIndex t (Z.b2z v).
Definition SetIsContinuous (t : Z) (v : bool) : Z := Set_ BFM_isContinuous t (Z.b2z v).
Definition SetMayHaveMetatable (t : Z) (v : bool) : Z := Set_ BFM_mayHaveMetatable t (Z.b2z v).

Definition GetInitialArrayType : Z := 0.
Definition x_usefulBitsMask : Z := Z.shiftl 1 6 - 1.
Definition x_coroutineTypeTag : Z := 64.
Definition x_invalidArrayType : Z := 128.
Definition x_impossibleArrayType : Z := 128 + 64.

(** *** The fields are independent *)

Create Rewrite HintDb atype.

Lemma Kind_of_to k : Kind_of_Z (Kind_to_Z k) = k.
Proof. by destruct k. Qed.
Lemma Kind_to_Z_range k : 0 <= Kind_to_Z k < 2 ^ 2.
Proof. by destruct k. Qed.
Lemma b2z_range (b : bool) : 0 <= Z.b2z b < 2 ^ 1.
Proof. by destruct b. Qed.

Ltac bf_ok := unfold BitField_ok, disjoint_fields; simpl; lia.
(** A read after a write of another field, and of the same field. *)
Ltac field_other :=
  intros;
  unfold ArrayKind, HasSparseMap, SparseMapContainsVectorIndex, IsContinuous, MayHaveMetatable,
    SetArrayKind, SetHasSparseMap, SetSparseMapContainsVectorIndex, SetIsContinuous,
    SetMayHaveMetatable;
  first [ apply Get_bool_Set_other | f_equal; apply Get_Set_other ];
  first [ bf_ok | apply Kind_to_Z_range | apply b2z_range | reflexivity ].

Lemma Get_bool_Set_same f c (b : bool) : BitField_ok f -> width f = 1 ->
  Get_bool f (Set_ f c (Z.b2z b)) = b.
Proof.
  intros Hf Hw. rewrite Get_bool_spec by done. pose proof Hf as (H1 & H2 & H3).
  rewrite Set_bits; [|done|lia|rewrite Hw; apply b2z_range].
  rewrite (proj2 (Z.ltb_lt _ (carrier f))), (proj2 (Z.leb_le _ _)), (proj2 (Z.ltb_lt _ (_ + _))) by lia.
  simpl. rewrite Z.sub_diag. by destruct b.
Qed.

Section rewriting.
Variables (t : Z) (k : Kind) (b : bool).
Lemma kind_kind : ArrayKind (SetArrayKind t k) = k.
Proof.
  unfold ArrayKind, SetArrayKind. rewrite Get_Set_same by (bf_ok || apply Kind_to_Z_range).
  apply Kind_of_to.
Qed.
Lemma kind_sparse : ArrayKind (SetHasSparseMap t b) = ArrayKind t. Proof. field_other. Qed.
Lemma kind_vec : ArrayKind (SetSparseMapContainsVectorIndex t b) = ArrayKind t. Proof. field_other. Qed.
Lemma kind_cont : ArrayKind (SetIsContinuous t b) = ArrayKind t. Proof. field_other. Qed.
Lemma kind_meta : ArrayKind (SetMayHaveMetatable t b) = ArrayKind t. Proof. field_other. Qed.
Lemma sparse_kind : HasSparseMap (SetArrayKind t k) = HasSparseMap t. Proof. field_other. Qed.
Lemma sparse_sparse : HasSparseMap (SetHasSparseMap t b) = b.
Proof. apply Get_bool_Set_same; [bf_ok|done]. Qed.
Lemma sparse_vec : HasSparseMap (SetSparseMapContainsVectorIndex t b) = HasSparseMap t. Proof. field_other. Qed.
Lemma sparse_cont : HasSparseMap (SetIsContinuous t b) = HasSparseMap t. Proof. field_other. Qed.
Lemma sparse_meta : HasSparseMap (SetMayHaveMetatable t b) = HasSparseMap t. Proof. field_other. Qed.
Lemma vec_kind : SparseMapContainsVectorIndex (SetArrayKind t k) = SparseMapContainsVectorIndex t. Proof. field_other. Qed.
Lemma vec_sparse : SparseMapContainsVectorIndex (SetHasSparseMap t b) = SparseMapContainsVectorIndex t. Proof. field_other. Qed.
Lemma vec_vec : SparseMapContainsVectorIndex (SetSparseMapContainsVectorIndex t b) = b.
Proof. apply Get_bool_Set_same; [bf_ok|done]. Qed.
Lemma vec_cont : SparseMapContainsVectorIndex (SetIsContinuous t b) = SparseMapContainsVectorIndex t. Proof. field_other. Qed.
Lemma vec_meta : SparseMapContainsVectorIndex (SetMayHaveMetatable t b) = SparseMapContainsVectorIndex t. Proof. field_other. Qed.
Lemma cont_kind : IsContinuous (SetArrayKind t k) = IsContinuous t. Proof. field_other. Qed.
Lemma cont_sparse : IsContinuous (SetHasSparseMap t b) = IsContinuous t. Proof. field_other. Qed.
Lemma cont_vec : IsContinuous (SetSparseMapContainsVectorIndex t b) = IsContinuous t. Proof. field_other. Qed.
Lemma cont_cont : IsContinuous (SetIsContinuous t b) = b.
Proof. apply Get_bool_Set_same; [bf_ok|done]. Qed.
Lemma cont_meta : IsContinuous (SetMayHaveMetatable t b) = IsContinuous t. Proof. field_other. Qed.
Lemma meta_kind : MayHaveMetatable (SetArrayKind t k) = MayHaveMetatable t. Proof. field_other. Qed.
Lemma meta_sparse : MayHaveMetatable (SetHasSparseMap t b) = MayHaveMetatable t. Proof. field_other. Qed.
Lemma meta_vec : MayHaveMetatable (SetSparseMapContainsVectorIndex t b) = MayHaveMetatable t. Proof. field_other. Qed.
Lemma meta_cont : MayHaveMetatable (SetIsContinuous t b) = MayHaveMetatable t. Proof. field_other. Qed.
Lemma meta_meta : MayHaveMetatable (SetMayHaveMetatable t b) = b.
Proof. apply Get_bool_Set_same; [bf_ok|done]. Qed.
End rewriting.

#[export] Hint Rewrite kind_kind kind_sparse kind_vec kind_cont kind_meta
  sparse_kind sparse_sparse sparse_vec sparse_cont sparse_meta
  vec_kind vec_sparse vec_vec vec_cont vec_meta
  cont_kind cont_sparse cont_vec cont_cont cont_meta
  meta_kind meta_sparse meta_vec meta_cont meta_meta : atype.

(** ** [class ButterflyHeader] *)

Module ButterflyHeader.
(** [m_arrayLengthIfContinuous] is an [int32_t], [m_arrayStorageCapacity] a
    [uint32_t], [idx] an [int64_t]. *)
Definition IsContinuous (m_arrayLengthIfContinuous : Z) : bool := 0 <=? m_arrayLengthIfContinuous.

Definition CanUseFastPathGetForContinuousArray (m_arrayLengthIfContinuous idx : Z) : bool :=
  let lhs := u64 (u64 idx - x_arrayBaseOrd) in
  let rhs := u64 m_arrayLengthIfContinuous in
  lhs <? rhs.

Definition IndexFitsInVectorCapacity (m_arrayStorageCapacity idx : Z) : bool :=
  let lhs := u64 (u64 idx - x_arrayBaseOrd) in
  let rhs := u64 m_arrayStorageCapacity in
  lhs <? rhs.

Definition HasSparseMap (m_arrayLengthIfContinuous : Z) : bool := m_arrayLengthIfContinuous <? - 1.
End ButterflyHeader.

(** The unsigned trick shared by the two range tests. *)
Lemma u64_range_test idx bound : in_i 64 idx -> 0 <= bound < 2 ^ 63 ->
  (u64 (u64 idx - 1) <? u64 bound) = (1 <=? idx) && (idx <=? bound).
Proof.
  intros Hi Hb. unfold in_i in Hi. simpl in Hi. pow2. unfold wrapu.
  rewrite (Z.mod_small bound) by (pow2; lia).
  rewrite Zminus_mod_idemp_l. apply eq_true_iff_eq.
  rewrite andb_true_iff, Z.ltb_lt, !Z.leb_le.
  destruct (Z.le_gt_cases 1 idx).
  - rewrite Z.mod_small by (pow2; lia). lia.
  - assert ((idx - 1) mod 2 ^ 64 = idx - 1 + 2 ^ 64) as ->.
    { symmetry. apply (Z.mod_unique _ _ (-1)); pow2; lia. }
    pow2. lia.
Qed.

Lemma IndexFitsInVectorCapacity_spec cap idx : in_u 32 cap -> in_i 64 idx ->
  ButterflyHeader.IndexFitsInVectorCapacity cap idx = (1 <=? idx) && (idx <=? cap).
Proof. intros Hc Hi. apply u64_range_test; [done|]. unfold in_u in Hc. pow2. lia. Qed.

Lemma CanUseFastPath_spec len idx : in_i 32 len -> 0 <= len -> in_i 64 idx ->
  ButterflyHeader.CanUseFastPathGetForContinuousArray len idx = (1 <=? idx) && (idx <=? len).
Proof.
  intros Hc H0 Hi. apply u64_range_test; [done|]. unfold in_i in Hc. simpl in Hc. pow2. lia.
Qed.

(** ** Inline-cache kind of an indexed read ([GetByIntegerIndexICInfo]) *)

Module GetByIntegerIndexICInfo.
Inductive ICKind :=
| VectorStorage | NoArrayPart | VectorStorageXorSparseMap | VectorStorageOrSparseMap.

#[global] Instance ICKind_eq_dec : EqDecision ICKind.
Proof. solve_decision. Defined.

Definition ICKind_to_Z (k : ICKind) : Z :=
  match k with
  | VectorStorage => 0 | NoArrayPart => 1
  | VectorStorageXorSparseMap => 2 | VectorStorageOrSparseMap => 3
  end.
Definition ICKind_of_Z (z : Z) : ICKind :=
  if z =? 0 then VectorStorage else if z =? 1 then NoArrayPart
  else if z =? 2 then VectorStorageXorSparseMap else VectorStorageOrSparseMap.

Record t := mk { m_icKind : ICKind; m_mayHaveMetatable : bool; m_isContinuous : bool }.
End GetByIntegerIndexICInfo.
Import GetByIntegerIndexICInfo.

Definition NaiveComputeGetByIntegerIndexIcKindFromArrayType (arrType : Z) : ICKind :=
  if IsContinuous arrType then VectorStorage
  else if bool_decide (ArrayKind arrType = NoButterflyArrayPart) then NoArrayPart
  else if SparseMapContainsVectorIndex arrType then VectorStorageOrSparseMap
  else if HasSparseMap arrType then VectorStorageXorSparseMap
  else VectorStorage.

(** The loop [for (mask = 0; mask < 32; mask++) result |= k64 << (mask * 2)]. *)
Fixpoint icBitVector (n : nat) (mask : Z) (result : Z) : Z :=
  match n with
  | O => result
  | S n' =>
      let k64 := ICKind_to_Z (NaiveComputeGetByIntegerIndexIcKindFromArrayType mask) in
      icBitVector n' (mask + 1) (u64 (Z.lor result (Z.shiftl k64 (mask * 2))))
  end.
Definition ComputeGetByIntegerIndexIcBitVectorForNonContinuousArray : Z := icBitVector 32 0 0.

Definition ComputeGetByIntegerIndexIcKindFromArrayType (arrType : Z) : ICKind :=
  ICKind_of_Z (Z.land (Z.shiftr ComputeGetByIntegerIndexIcBitVectorForNonContinuousArray
                         (Z.land (arrType * 2) 63)) 3).

Definition PrepareGetByIntegerIndex (arrType : Z) : GetByIntegerIndexICInfo.t :=
  GetByIntegerIndexICInfo.mk
    (ComputeGetByIntegerIndexIcKindFromArrayType arrType)
    (MayHaveMetatable arrType) (IsContinuous arrType).

(** A property of all [2^n] array types, checked by evaluation. *)
Lemma forall_below (n : nat) (P : Z -> bool) :
  forallb P (map Z.of_nat (seq 0 n)) = true -> forall t, 0 <= t < Z.of_nat n -> P t = true.
Proof.
  intros H t Ht. rewrite forallb_forall in H. apply H. apply in_map_iff.
  exists (Z.to_nat t). split; [lia|]. apply in_seq. lia.
Qed.

(** The array types a structure may have. *)
Definition useful (t : Z) : Prop := 0 <= t <= x_usefulBitsMask.

Lemma useful_checked (P : Z -> bool) :
  forallb P (map Z.of_nat (seq 0 64)) = true -> forall t, useful t -> P t = true.
Proof. intros Hc t Ht. apply (forall_below 64 P Hc). unfold useful in Ht. change x_usefulBitsMask with 63 in Ht. lia. Qed.

Lemma useful_closed (f : Z -> Z) :
  forallb (fun t => (0 <=? f t) && (f t <=? x_usefulBitsMask)) (map Z.of_nat (seq 0 64)) = true ->
  forall t, useful t -> useful (f t).
Proof. intros Hc t Ht. pose proof (useful_checked _ Hc t Ht) as E. simpl in E. zbool. done. Qed.

(** The type without the metatable flag. *)
Lemma meta_twice a b : useful a -> SetMayHaveMetatable (SetMayHaveMetatable a b) false = SetMayHaveMetatable a false.
Proof.
  intros Ha. apply Z.eqb_eq.
  apply (useful_checked (fun a => SetMayHaveMetatable (SetMayHaveMetatable a b) false =? SetMayHaveMetatable a false)); [|done].
  by destruct b; vm_compute.
Qed.


Lemma useful_SetArrayKind t k : useful t -> useful (SetArrayKind t k).
Proof. apply (useful_closed (fun t => SetArrayKind t k)). by destruct k; vm_compute. Qed.
Lemma useful_SetHasSparseMap t b : useful t -> useful (SetHasSparseMap t b).
Proof. apply (useful_closed (fun t => SetHasSparseMap t b)). by destruct b; vm_compute. Qed.
Lemma useful_SetVec t b : useful t -> useful (SetSparseMapContainsVectorIndex t b).
Proof. apply (useful_closed (fun t => SetSparseMapContainsVectorIndex t b)). by destruct b; vm_compute. Qed.
Lemma useful_SetIsContinuous t b : useful t -> useful (SetIsContinuous t b).
Proof. apply (useful_closed (fun t => SetIsContinuous t b)). by destruct b; vm_compute. Qed.
Lemma useful_SetMayHaveMetatable t b : useful t -> useful (SetMayHaveMetatable t b).
Proof. apply (useful_closed (fun t => SetMayHaveMetatable t b)). by destruct b; vm_compute. Qed.

Lemma ic_table_lemma t : 0 <= t <= x_usefulBitsMask ->
  ComputeGetByIntegerIndexIcKindFromArrayType t
  = NaiveComputeGetByIntegerIndexIcKindFromArrayType t.
Proof.
  intros Ht.
  assert (bool_decide (ComputeGetByIntegerIndexIcKindFromArrayType t
                       = NaiveComputeGetByIntegerIndexIcKindFromArrayType t) = true) as H.
  { revert t Ht. intros t Ht.
    refine (forall_below 64 (fun t => bool_decide _) _ t _); [by vm_compute|].
    change x_usefulBitsMask with 63 in Ht. lia. }
  by apply bool_decide_eq_true in H.
Qed.

(** The branch-free table look-up of the inline-cache kind agrees with the
    decision tree for every valid array type (all 64 combinations of the six
    useful bits; the metatable bit falls out of the table index). *)
Theorem ic_kind_table t : 0 <= t <= x_usefulBitsMask ->
  ComputeGetByIntegerIndexIcKindFromArrayType t
  = NaiveComputeGetByIntegerIndexIcKindFromArrayType t /\
  m_icKind (PrepareGetByIntegerIndex t)
  = NaiveComputeGetByIntegerIndexIcKindFromArrayType (SetMayHaveMetatable t false).
Proof.
  intros Ht. split; [by apply ic_table_lemma|]. simpl. rewrite ic_table_lemma by done.
  unfold NaiveComputeGetByIntegerIndexIcKindFromArrayType. by autorewrite with atype.
Qed.

Lemma ic_kind_table_witness :
  ComputeGetByIntegerIndexIcKindFromArrayType 47 = VectorStorageOrSparseMap.
Proof.
  assert (0 <= 47 <= x_usefulBitsMask) as H by (vm_compute; split; discriminate).
  pose proof (ic_kind_table 47 H) as [-> _]. reflexivity.
Defined.

(** The two one-comparison range tests of the butterfly header decide the
    two-sided range, for every 64-bit index including the negative ones and the
    ones that make the subtraction wrap around. *)
Theorem butterfly_range_tests len cap idx :
  in_i 32 len -> 0 <= len -> in_u 32 cap -> in_i 64 idx ->
  (ButterflyHeader.CanUseFastPathGetForContinuousArray len idx = true
     <-> x_arrayBaseOrd <= idx < len + x_arrayBaseOrd) /\
  (ButterflyHeader.IndexFitsInVectorCapacity cap idx = true
     <-> x_arrayBaseOrd <= idx < cap + x_arrayBaseOrd).
Proof.
  intros Hl H0 Hc Hi. rewrite CanUseFastPath_spec, IndexFitsInVectorCapacity_spec by done.
  rewrite !andb_true_iff, !Z.leb_le. unfold x_arrayBaseOrd. lia.
Qed.

Lemma butterfly_range_tests_witness :
  ButterflyHeader.IndexFitsInVectorCapacity 4 (- 2 ^ 63) = true
  <-> x_arrayBaseOrd <= - 2 ^ 63 < 4 + x_arrayBaseOrd.
Proof. apply (butterfly_range_tests 2 4 (- 2 ^ 63)); by vm_compute. Defined.
