(* ===== verification/SparseMap.v ===== *)
(** * The array sparse map ([class ArraySparseMap] of [runtime/table_object.h])

    An open-addressing hash table with linear probing from doubles to values.
    An empty slot is a slot whose key is a NaN; nothing is ever deleted (a
    [nil] value is stored), and a resize drops the [nil]s.  The definitions
    follow the C++ loops, with a fuel of one round of the table; the theorems
    show that the fuel is never exhausted and that the table implements a map
    from numbers (up to [==]) to values. *)

From S2P Require Import Prelude Double TValue.

Record HashTableEntry := mkEntry { m_key : Z; m_value : Z }.
#[export] Instance HashTableEntry_inhabited : Inhabited HashTableEntry := populate (mkEntry 0 0).

Record ArraySparseMap := mkSparseMap {
  m_hashMask : Z;
  m_elementCount : Z;
  m_hashTable : list HashTableEntry
}.

(** A slot of a freshly allocated table: the key is set to NaN, the value is
    left uninitialised (it is never read while the key is a NaN). *)
Definition emptyEntry : HashTableEntry := mkEntry quiet_NaN 0.

Definition AllocateEmptyArraySparseMap : ArraySparseMap :=
  mkSparseMap 1 0 [emptyEntry; emptyEntry].

(** [Clone]: the fields and the table are copied. *)
Definition Clone (m : ArraySparseMap) : ArraySparseMap :=
  mkSparseMap (m_hashMask m) (m_elementCount m)
    (take (Z.to_nat (m_hashMask m + 1)) (m_hashTable m)).

Section hash.
(** [XXH3_64bits] on the eight bytes of a double (third-party code). *)
Variable XXH3_64bits : Z -> Z.

(** [HashPrimitiveTypes<double>] of [common_utils/hash_functions.h]: [-0.0] is
    turned into [0.0] before hashing. *)
Definition HashPrimitiveTypes (value : Z) : Z :=
  let value := if UnsafeFloatEqual value 0 then 0 else value in
  u64 (XXH3_64bits value).

(** The probe loop: stop at the first entry that is a hit ([true]) or empty
    ([false]), moving to [(slot + 1) & hashMask] otherwise. *)
Fixpoint probe (hit : HashTableEntry -> bool) (t : list HashTableEntry) (hashMask : Z)
    (fuel : nat) (slot : Z) : option (Z * bool) :=
  match fuel with
  | O => None
  | S fuel' =>
      match t !! Z.to_nat slot with
      | None => None
      | Some entry =>
          if hit entry then Some (slot, true)
          else if IsNaN (m_key entry) then Some (slot, false)
          else probe hit t hashMask fuel' (Z.land (slot + 1) hashMask)
      end
  end.

Definition probe_key (m : ArraySparseMap) (key : Z) : option (Z * bool) :=
  probe (fun entry => UnsafeFloatEqual (m_key entry) key) (m_hashTable m) (m_hashMask m)
    (length (m_hashTable m)) (Z.land (HashPrimitiveTypes key) (m_hashMask m)).

Definition GetByVal (m : ArraySparseMap) (key : Z) : option Z :=
  '(slot, found) ← probe_key m key;
  if (found : bool) then m_value <$> m_hashTable m !! Z.to_nat slot else Some Nil.

(** [static_cast<uint32_t>(-1)] when the key is absent. *)
Definition GetHashSlotOrdinal (m : ArraySparseMap) (key : Z) : option Z :=
  '(slot, found) ← probe_key m key;
  if (found : bool) then Some (u32 slot) else Some (u32 (-1)).

(** One iteration of the copying loop of [ResizeImpl]: non-NaN keys with a
    non-nil value are inserted in the new table. *)
Definition reinsert (newMask : Z) (acc : option (list HashTableEntry * Z)) (curEntry : HashTableEntry)
    : option (list HashTableEntry * Z) :=
  '(t, nonNilElement) ← acc;
  if IsNaN (m_key curEntry) then Some (t, nonNilElement)
  else if IsNil (m_value curEntry) then Some (t, nonNilElement)
  else
    '(slot, _) ← probe (fun _ => false) t newMask (length t)
                   (Z.land (HashPrimitiveTypes (m_key curEntry)) newMask);
    Some (<[Z.to_nat slot := curEntry]> t, u32 (nonNilElement + 1)).

(** [None]: the [ReleaseAssert] on the new mask fails. *)
Definition ResizeImpl (m : ArraySparseMap) : option ArraySparseMap :=
  let oldMask := m_hashMask m in
  let newMask := u32 (oldMask * 2 + 1) in
  if newMask <? 2 ^ 32 - 1 then
    '(t, nonNilElement) ← foldl (reinsert newMask)
      (Some (replicate (Z.to_nat (newMask + 1)) emptyEntry, 0)) (m_hashTable m);
    Some (mkSparseMap newMask nonNilElement t)
  else None.

Definition ResizeIfNeeded (m : ArraySparseMap) : option ArraySparseMap :=
  if u32 (m_elementCount m * 2) <=? u32 (m_hashMask m + 1) then Some m else ResizeImpl m.

Definition Insert (m : ArraySparseMap) (key value : Z) : option ArraySparseMap :=
  '(slot, found) ← probe_key m key;
  if (found : bool) then
    Some (mkSparseMap (m_hashMask m) (m_elementCount m)
            (alter (fun e => mkEntry (m_key e) value) (Z.to_nat slot) (m_hashTable m)))
  else
    ResizeIfNeeded (mkSparseMap (m_hashMask m) (u32 (m_elementCount m + 1))
      (<[Z.to_nat slot := mkEntry key value]> (m_hashTable m))).

(** ** Representation invariant and abstract content *)

Definition occupied (e : HashTableEntry) : bool := negb (IsNaN (m_key e)).
Definition occupancy (t : list HashTableEntry) : nat := length (List.filter occupied t).

(** The home slot of a key in a table of [2 ^ k] slots. *)
Definition home (k key : Z) : Z := HashPrimitiveTypes key mod 2 ^ k.

(** Slot number [d] of the probe sequence from [h]. *)
Definition nth_probe (k h d : Z) : nat := Z.to_nat ((h + d) mod 2 ^ k).

(** Every occupied slot is reachable from the home slot of its key through
    occupied slots. *)
Definition chained (k : Z) (t : list HashTableEntry) : Prop :=
  forall d e, 0 <= d < 2 ^ k -> IsNaN (m_key e) = false ->
    t !! nth_probe k (home k (m_key e)) d = Some e ->
    forall d', 0 <= d' < d ->
    exists e', t !! nth_probe k (home k (m_key e)) d' = Some e' /\ IsNaN (m_key e') = false.

Definition distinct (t : list HashTableEntry) : Prop :=
  forall i j e e', t !! i = Some e -> t !! j = Some e' -> feq (m_key e) (m_key e') -> i = j.

Definition table_ok (k : Z) (t : list HashTableEntry) : Prop :=
  0 < k <= 32 /\ length t = Z.to_nat (2 ^ k) /\ chained k t /\ distinct t.

Definition wf (m : ArraySparseMap) : Prop :=
  exists k, k <= 31 /\ m_hashMask m = 2 ^ k - 1 /\ table_ok k (m_hashTable m) /\
    m_elementCount m = Z.of_nat (occupancy (m_hashTable m)) /\
    m_elementCount m * 2 <= 2 ^ k.

(** The value the table associates with a number. *)
Definition content_of (t : list HashTableEntry) (key : Z) : Z :=
  match List.find (fun e => UnsafeFloatEqual (m_key e) key) t with
  | Some e => m_value e
  | None => Nil
  end.
Definition content (m : ArraySparseMap) (key : Z) : Z := content_of (m_hashTable m) key.

(** *** Hashing and probe arithmetic *)

Lemma HashPrimitiveTypes_feq a b : feq a b -> HashPrimitiveTypes a = HashPrimitiveTypes b.
Proof.
  intros H. unfold HashPrimitiveTypes. pose proof H as H'. apply feq_spec in H' as (Ha & Hb & [->|[Hza Hzb]]).
  - done.
  - assert (forall x, zero_pattern x = true -> UnsafeFloatEqual x 0 = true) as Hz.
    { intros x Hx. apply feq_spec. rewrite IsNaN_pattern, zero_pattern_not_nan by done. auto. }
    by rewrite !Hz.
Qed.

Lemma home_feq k a b : feq a b -> home k a = home k b.
Proof. intros H. unfold home. by rewrite (HashPrimitiveTypes_feq a b H). Qed.

Lemma nth_probe_lt k h d : 0 <= k -> (nth_probe k h d < Z.to_nat (2 ^ k))%nat.
Proof.
  intros Hk. unfold nth_probe. pose proof (Z.mod_pos_bound (h + d) (2 ^ k) ltac:(lia)). lia.
Qed.

(** Every slot is on the probe sequence, at a unique distance. *)
Lemma sparse_slot_distance k h i : 0 <= k -> (i < Z.to_nat (2 ^ k))%nat ->
  exists d, 0 <= d < 2 ^ k /\ nth_probe k h d = i.
Proof.
  intros Hk Hi. exists ((Z.of_nat i - h) mod 2 ^ k). split; [apply Z.mod_pos_bound; lia|].
  unfold nth_probe. rewrite Zplus_mod_idemp_r. replace (h + (Z.of_nat i - h)) with (Z.of_nat i) by lia.
  rewrite Z.mod_small by lia. lia.
Qed.

Lemma nth_probe_inj k h d d' : 0 <= k -> 0 <= d < 2 ^ k -> 0 <= d' < 2 ^ k ->
  nth_probe k h d = nth_probe k h d' -> d = d'.
Proof.
  intros Hk Hd Hd' E. unfold nth_probe in E.
  pose proof (Z.mod_pos_bound (h + d) (2 ^ k) ltac:(lia)).
  pose proof (Z.mod_pos_bound (h + d') (2 ^ k) ltac:(lia)).
  assert ((h + d) mod 2 ^ k = (h + d') mod 2 ^ k) as E' by lia.
  rewrite <- (Z.mod_small d (2 ^ k)), <- (Z.mod_small d' (2 ^ k)) by lia.
  replace d with (h + d - h) by lia. replace d' with (h + d' - h) by lia.
  by rewrite <- (Zminus_mod_idemp_l (h + d)), E', Zminus_mod_idemp_l.
Qed.

Lemma next_probe k h d : 0 <= k ->
  Z.land ((h + d) mod 2 ^ k + 1) (2 ^ k - 1) = (h + (d + 1)) mod 2 ^ k.
Proof. intros Hk. rewrite land_mask, Zplus_mod_idemp_l by done. f_equal. lia. Qed.

(** *** The probe loop *)

Section sparse_probe_run.
Variables (hit : HashTableEntry -> bool) (t : list HashTableEntry) (k h : Z).
Hypothesis k_pos : 0 < k.
Hypothesis t_len : length t = Z.to_nat (2 ^ k).

(** Slot [d] was inspected and passed over. *)
Definition passed (d : Z) : Prop :=
  exists e, t !! nth_probe k h d = Some e /\ hit e = false /\ IsNaN (m_key e) = false.

Lemma sparse_probe_run fuel d :
  (exists d0, d <= d0 < d + Z.of_nat fuel /\
     exists e, t !! nth_probe k h d0 = Some e /\ IsNaN (m_key e) = true) ->
  exists d' b e, d <= d' /\ d' < d + Z.of_nat fuel /\
    probe hit t (2 ^ k - 1) fuel ((h + d) mod 2 ^ k) = Some ((h + d') mod 2 ^ k, b) /\
    t !! nth_probe k h d' = Some e /\
    (if b : bool then hit e = true else hit e = false /\ IsNaN (m_key e) = true) /\
    (forall d'', d <= d'' < d' -> passed d'').
Proof.
  revert d. induction fuel as [|fuel IH]; intros d (d0 & Hd0 & e0 & He0 & Hn0); [lia|].
  simpl. fold (nth_probe k h d).
  assert (is_Some (t !! nth_probe k h d)) as [e He].
  { apply lookup_lt_is_Some. rewrite t_len. apply nth_probe_lt. lia. }
  rewrite He. destruct (hit e) eqn:Eh.
  { exists d, true, e. split_and!; try done; intros; lia. }
  destruct (IsNaN (m_key e)) eqn:En.
  { exists d, false, e. split_and!; try done; intros; lia. }
  rewrite next_probe by lia.
  destruct (IH (d + 1)) as (d' & b & e' & H1 & H2 & H3 & H4 & H5 & H6).
  { exists d0. split; [|eauto]. assert (d <> d0) by (intros ->; congruence). lia. }
  exists d', b, e'. split_and!; try done; try lia.
  intros d'' Hd''. destruct (Z.eq_dec d d'') as [<-|]; [exists e; auto|apply H6; lia].
Qed.
End sparse_probe_run.

(** A table that is not full has an empty slot. *)
Lemma occupancy_empty_slot t : (occupancy t < length t)%nat ->
  exists i e, t !! i = Some e /\ IsNaN (m_key e) = true.
Proof.
  unfold occupancy. induction t as [|e t IH]; simpl; [lia|].
  unfold occupied at 1. destruct (IsNaN (m_key e)) eqn:E; simpl.
  - intros _. by exists O, e.
  - intros H. destruct IH as (i & e' & ? & ?); [lia|]. by exists (S i), e'.
Qed.

Lemma sparse_occupancy_insert t i e e' : t !! i = Some e' -> IsNaN (m_key e') = true ->
  IsNaN (m_key e) = false -> occupancy (<[i := e]> t) = S (occupancy t).
Proof.
  unfold occupancy. revert i. induction t as [|x t IH]; intros i; [done|].
  destruct i as [|i]; simpl.
  - intros [= ->] H H'. unfold occupied. by rewrite H, H'.
  - intros Hi H H'. destruct (occupied x); simpl; by rewrite IH.
Qed.

Lemma occupancy_alter t i v :
  occupancy (alter (fun e => mkEntry (m_key e) v) i t) = occupancy t.
Proof.
  unfold occupancy. revert i. induction t as [|x t IH]; intros i; [done|].
  destruct i as [|i]; simpl; [by change (occupied (mkEntry _ v)) with (occupied x); destruct (occupied x)|].
  destruct (occupied x); simpl; [f_equal|]; apply IH.
Qed.
(** *** Content of a table *)

Lemma feq_dec_b a b : {feq a b} + {~ feq a b}.
Proof. unfold feq. destruct (UnsafeFloatEqual a b); [by left|by right]. Qed.

Lemma content_cases t key :
  (exists i e, t !! i = Some e /\ feq (m_key e) key /\ content_of t key = m_value e)
  \/ ((forall i e, t !! i = Some e -> ~ feq (m_key e) key) /\ content_of t key = Nil).
Proof.
  induction t as [|x t IH].
  - right. split; [|done]. intros i e. by rewrite lookup_nil.
  - unfold content_of. simpl. destruct (UnsafeFloatEqual (m_key x) key) eqn:E.
    + left. by exists O, x.
    + destruct IH as [(i & e & ? & ? & ?)|[Hn ?]].
      * left. by exists (S i), e.
      * right. split; [|done]. intros [|i] e Hi; simpl in Hi; [|by eapply Hn].
        injection Hi as <-. unfold feq. by rewrite E.
Qed.

Lemma content_hit t key i e : distinct t -> t !! i = Some e -> feq (m_key e) key ->
  content_of t key = m_value e.
Proof.
  intros Hd Hi He. destruct (content_cases t key) as [(j & e' & Hj & He' & ->)|[Hn _]].
  - assert (i = j) as <- by (eapply Hd; eauto; by rewrite He').
    rewrite Hi in Hj. by injection Hj as ->.
  - by destruct (Hn i e Hi).
Qed.

Lemma content_miss t key : (forall i e, t !! i = Some e -> ~ feq (m_key e) key) ->
  content_of t key = Nil.
Proof. intros Hn. by destruct (content_cases t key) as [(i & e & Hi & He & _)|[_ ->]]; [destruct (Hn i e)|]. Qed.

(** Writing a new entry in an empty slot. *)
Lemma put_lookup (t : list HashTableEntry) i e0 e j x : t !! i = Some e0 -> <[i := e]> t !! j = Some x ->
  (j = i /\ x = e) \/ (j <> i /\ t !! j = Some x).
Proof.
  intros Hi. destruct (decide (i = j)) as [<-|Hne].
  - rewrite list_lookup_insert_eq by (by eapply lookup_lt_Some). intros [= <-]. auto.
  - rewrite list_lookup_insert_ne by done. auto.
Qed.

Section put.
Variables (t : list HashTableEntry) (i : nat) (e0 e : HashTableEntry).
Hypothesis t_distinct : distinct t.
Hypothesis slot_i : t !! i = Some e0.
Hypothesis slot_empty : IsNaN (m_key e0) = true.
Hypothesis key_num : IsNaN (m_key e) = false.
Hypothesis absent : forall j x, t !! j = Some x -> ~ feq (m_key x) (m_key e).

Lemma put_distinct : distinct (<[i := e]> t).
Proof.
  intros j j' x x' Hj Hj' Hf.
  destruct (put_lookup t i e0 e j x slot_i Hj) as [[-> ->]|[Hne Hx]],
    (put_lookup t i e0 e j' x' slot_i Hj') as [[-> ->]|[Hne' Hx']]; try done.
  - destruct (absent _ _ Hx'). by symmetry.
  - destruct (absent _ _ Hx). done.
  - by eapply t_distinct.
Qed.

Lemma put_content key : content_of (<[i := e]> t) key =
  if UnsafeFloatEqual (m_key e) key then m_value e else content_of t key.
Proof.
  destruct (UnsafeFloatEqual (m_key e) key) eqn:E.
  - apply (content_hit _ _ i e put_distinct); [|done].
    apply list_lookup_insert_eq. by eapply lookup_lt_Some.
  - destruct (content_cases t key) as [(j & x & Hj & Hx & ->)|[Hn ->]].
    + apply (content_hit _ _ j x put_distinct); [|done].
      rewrite list_lookup_insert_ne; [done|]. intros ->.
      rewrite slot_i in Hj. injection Hj as ->. apply feq_nan_l in Hx. congruence.
    + apply content_miss. intros j x Hj Hx.
      destruct (put_lookup t i e0 e j x slot_i Hj) as [[-> ->]|[_ Hj']]; [by rewrite Hx in E|].
      by eapply Hn.
Qed.
End put.

(** *** Probing a well-formed table *)

Definition has_empty (t : list HashTableEntry) : Prop :=
  exists i e, t !! i = Some e /\ IsNaN (m_key e) = true.

(** The probe from the home slot of [key], run for one round of the table. *)
Lemma probe_home hit k t key : table_ok k t -> has_empty t ->
  exists d b e, 0 <= d < 2 ^ k /\
    probe hit t (2 ^ k - 1) (length t) (Z.land (HashPrimitiveTypes key) (2 ^ k - 1))
      = Some ((home k key + d) mod 2 ^ k, b) /\
    t !! nth_probe k (home k key) d = Some e /\
    (if b : bool then hit e = true else hit e = false /\ IsNaN (m_key e) = true) /\
    (forall d', 0 <= d' < d -> passed hit t k (home k key) d').
Proof.
  intros (Hk & Hlen & _ & _) (i & e0 & Hi & Hn). rewrite land_mask by lia.
  fold (home k key).
  pose proof (lookup_lt_Some _ _ _ Hi) as Hlt. rewrite Hlen in Hlt.
  destruct (sparse_slot_distance k (home k key) i ltac:(lia) Hlt) as (d0 & Hd0 & Hs).
  destruct (sparse_probe_run hit t k (home k key) ltac:(lia) Hlen (length t) 0)
    as (d & b & e & H1 & H2 & H3 & H4 & H5 & H6).
  { exists d0. split; [rewrite Hlen; lia|]. exists e0. by rewrite Hs. }
  exists d, b, e. rewrite Z.add_0_r in H3. rewrite Hlen in H2.
  unfold home in H3 at 1. rewrite Zmod_mod in H3. fold (home k key) in H3.
  split_and!; try done; try lia.
Qed.

(** When the probe stops at an empty slot the key is not in the table. *)
Lemma probe_absent k t key d e : table_ok k t -> 0 <= d < 2 ^ k ->
  t !! nth_probe k (home k key) d = Some e -> IsNaN (m_key e) = true ->
  (forall d', 0 <= d' < d ->
     passed (fun x => UnsafeFloatEqual (m_key x) key) t k (home k key) d') ->
  forall i x, t !! i = Some x -> ~ feq (m_key x) key.
Proof.
  intros (Hk & Hlen & Hch & _) Hd He Hn Hp i x Hi Hx.
  pose proof (lookup_lt_Some _ _ _ Hi) as Hlt. rewrite Hlen in Hlt.
  destruct (sparse_slot_distance k (home k key) i ltac:(lia) Hlt) as (dx & Hdx & Hs).
  pose proof (feq_nan_l _ _ Hx) as Hxn.
  destruct (Z.lt_trichotomy d dx) as [Hl|[->|Hg]].
  - destruct (Hch dx x Hdx Hxn) with (d' := d) as (e' & He' & Hn').
    + by rewrite (home_feq k _ _ Hx), Hs.
    + lia.
    + rewrite (home_feq k _ _ Hx), He in He'. injection He' as ->. congruence.
  - rewrite Hs, Hi in He. injection He as ->. congruence.
  - destruct (Hp dx ltac:(lia)) as (e' & He' & Hh & _). rewrite Hs, Hi in He'.
    injection He' as ->. unfold feq in Hx. congruence.
Qed.

(** Storing a new key in the first empty slot of its probe sequence. *)
Lemma put_table_ok k t d e0 e : table_ok k t -> 0 <= d < 2 ^ k ->
  t !! nth_probe k (home k (m_key e)) d = Some e0 -> IsNaN (m_key e0) = true ->
  IsNaN (m_key e) = false ->
  (forall d', 0 <= d' < d -> exists x, t !! nth_probe k (home k (m_key e)) d' = Some x
                              /\ IsNaN (m_key x) = false) ->
  (forall j x, t !! j = Some x -> ~ feq (m_key x) (m_key e)) ->
  table_ok k (<[nth_probe k (home k (m_key e)) d := e]> t).
Proof.
  intros (Hk & Hlen & Hch & Hdi) Hd Hs Hn He Hp Ha.
  set (i := nth_probe k (home k (m_key e)) d) in *.
  split; [done|]. split; [by rewrite length_insert|]. split; [|by eapply put_distinct].
  assert (forall j x, t !! j = Some x -> IsNaN (m_key x) = false ->
            exists x', <[i := e]> t !! j = Some x' /\ IsNaN (m_key x') = false) as Hkeep.
  { intros j x Hj Hx. destruct (decide (i = j)) as [<-|Hne].
    - rewrite Hs in Hj. injection Hj as ->. congruence.
    - exists x. by rewrite list_lookup_insert_ne. }
  intros dx x Hdx Hx Hl d' Hd'.
  destruct (put_lookup t i e0 e _ x Hs Hl) as [[Hi ->]|[_ Hl']].
  - apply nth_probe_inj in Hi; [|lia..]. subst dx.
    destruct (Hp d' Hd') as (y & Hy & Hyn). by eapply Hkeep.
  - destruct (Hch dx x Hdx Hx Hl' d' Hd') as (y & Hy & Hyn). by eapply Hkeep.
Qed.
(** *** The operations on a well-formed map *)

Lemma not_full_has_empty k t : length t = Z.to_nat (2 ^ k) ->
  Z.of_nat (occupancy t) < 2 ^ k -> has_empty t.
Proof. intros Hl Ho. apply occupancy_empty_slot. lia. Qed.

Lemma wf_has_empty m : wf m -> has_empty (m_hashTable m).
Proof.
  intros (k & Hk & Hm & Ht & Hc & Hl). pose proof Ht as (Hk' & Hlen & _).
  apply (not_full_has_empty k); [done|].
  assert (0 < 2 ^ k) by (apply Z.pow_pos_nonneg; lia). lia.
Qed.

(** The outcome of the probe for a key: the entry of the key, or the slot where
    it would be stored. *)
Lemma probe_key_spec m k key : m_hashMask m = 2 ^ k - 1 -> table_ok k (m_hashTable m) ->
  has_empty (m_hashTable m) ->
  exists slot b e d, probe_key m key = Some (slot, b) /\
    0 <= slot < 2 ^ k /\ 0 <= d < 2 ^ k /\ Z.to_nat slot = nth_probe k (home k key) d /\
    m_hashTable m !! Z.to_nat slot = Some e /\
    (if b : bool then feq (m_key e) key else
       IsNaN (m_key e) = true /\
       (forall j x, m_hashTable m !! j = Some x -> ~ feq (m_key x) key) /\
       (forall d', 0 <= d' < d -> exists x,
          m_hashTable m !! nth_probe k (home k key) d' = Some x /\ IsNaN (m_key x) = false)).
Proof.
  intros Hm Ht He. unfold probe_key. rewrite Hm.
  destruct (probe_home (fun e => UnsafeFloatEqual (m_key e) key) k _ key Ht He)
    as (d & b & e & Hd & Hp & Hs & Hb & Hpass).
  exists ((home k key + d) mod 2 ^ k), b, e, d. pose proof Ht as (Hk & _).
  split_and!; try done; try (apply Z.mod_pos_bound; lia); try lia.
  destruct b; [done|]. destruct Hb as [_ Hn]. split; [done|]. split.
  - by eapply probe_absent.
  - intros d' Hd'. destruct (Hpass d' Hd') as (x & ? & _ & ?). eauto.
Qed.

Lemma GetByVal_content m key : wf m -> GetByVal m key = Some (content m key).
Proof.
  intros Hwf. pose proof (wf_has_empty m Hwf) as He.
  destruct Hwf as (k & Hk & Hm & Ht & Hc & Hl). unfold GetByVal, content.
  destruct (probe_key_spec m k key Hm Ht He) as (slot & b & e & d & -> & _ & _ & _ & Hs & Hb).
  simpl. destruct b.
  - rewrite Hs. simpl. f_equal. symmetry. destruct Ht as (_ & _ & _ & Hdi). by eapply content_hit.
  - f_equal. symmetry. apply content_miss. tauto.
Qed.

(** *** Resizing *)

Lemma distinct_cons e l : distinct (e :: l) ->
  distinct l /\ (forall j x, l !! j = Some x -> ~ feq (m_key x) (m_key e)).
Proof.
  intros H. split.
  - intros i j x x' Hi Hj Hf. by injection (H (S i) (S j) x x' Hi Hj Hf).
  - intros j x Hj Hf. by specialize (H (S j) O x e Hj eq_refl Hf).
Qed.

Lemma content_cons e l key : content_of (e :: l) key =
  if UnsafeFloatEqual (m_key e) key then m_value e else content_of l key.
Proof. unfold content_of. simpl. by destruct (UnsafeFloatEqual (m_key e) key). Qed.

(** The new entry of a rehash, stored in the table under construction. *)
Lemma reinsert_step k t e : table_ok k t -> Z.of_nat (occupancy t) < 2 ^ k ->
  IsNaN (m_key e) = false -> IsNil (m_value e) = false ->
  (forall j x, t !! j = Some x -> ~ feq (m_key x) (m_key e)) ->
  exists t', reinsert (2 ^ k - 1) (Some (t, Z.of_nat (occupancy t))) e
      = Some (t', u32 (Z.of_nat (occupancy t) + 1)) /\
    table_ok k t' /\ occupancy t' = S (occupancy t) /\
    (forall j x, t' !! j = Some x -> x = e \/ t !! j = Some x) /\
    (forall key, content_of t' key
       = if UnsafeFloatEqual (m_key e) key then m_value e else content_of t key).
Proof.
  intros Ht Ho Hn Hv Ha. pose proof Ht as (Hk & Hlen & _ & Hdi). unfold reinsert. simpl.
  rewrite Hn, Hv.
  destruct (probe_home (fun _ => false) k t (m_key e) Ht (not_full_has_empty k t Hlen Ho))
    as (d & b & e0 & Hd & -> & Hs & Hb & Hpass).
  destruct b; [done|]. destruct Hb as [_ Hn0]. simpl.
  change (Z.to_nat ((home k (m_key e) + d) mod 2 ^ k)) with (nth_probe k (home k (m_key e)) d).
  eexists. split; [reflexivity|]. split.
  { eapply put_table_ok; eauto. intros d' Hd'. destruct (Hpass d' Hd') as (x & ? & _ & ?). eauto. }
  split; [by eapply sparse_occupancy_insert|]. split.
  - intros j x Hj. destruct (put_lookup t _ e0 e j x Hs Hj) as [[_ ->]|[_ ?]]; auto.
  - intros key. by eapply put_content.
Qed.

Lemma rehash_spec k l : forall t, table_ok k t -> k <= 31 -> distinct l ->
  Z.of_nat (occupancy t + occupancy l) < 2 ^ k ->
  (forall i e j x, l !! i = Some e -> t !! j = Some x -> ~ feq (m_key x) (m_key e)) ->
  exists t', foldl (reinsert (2 ^ k - 1)) (Some (t, Z.of_nat (occupancy t))) l
      = Some (t', Z.of_nat (occupancy t')) /\
    table_ok k t' /\ (occupancy t' <= occupancy t + occupancy l)%nat /\
    (forall key, content_of t' key
       = if IsNil (content_of l key) then content_of t key else content_of l key).
Proof.
  induction l as [|e l IH]; intros t Ht Hk Hdl Ho Hx.
  { exists t. simpl. split_and!; try done. lia. }
  destruct (distinct_cons e l Hdl) as [Hdl' Hne].
  assert (occupancy (e :: l) = if IsNaN (m_key e) then occupancy l else S (occupancy l)) as Hocc.
  { unfold occupancy. simpl. unfold occupied at 1. by destruct (IsNaN (m_key e)). }
  assert (forall i e' j x, l !! i = Some e' -> t !! j = Some x -> ~ feq (m_key x) (m_key e')) as Hx'.
  { intros i e' j x Hi. by apply (Hx (S i)). }
  cbn [foldl]. destruct (IsNaN (m_key e)) eqn:En; [|destruct (IsNil (m_value e)) eqn:Ev].
  - rewrite Hocc in Ho. destruct (IH t Ht Hk Hdl' Ho Hx') as (t' & Hf & Ht' & Ho' & Hc).
    exists t'. unfold reinsert at 2. simpl. rewrite En, Hf. split_and!; try done; [lia|].
    intros key. rewrite Hc, content_cons.
    destruct (UnsafeFloatEqual (m_key e) key) eqn:E; [|done].
    apply feq_nan_l in E. congruence.
  - destruct (IH t Ht Hk Hdl' ltac:(lia) Hx') as (t' & Hf & Ht' & Ho' & Hc).
    exists t'. unfold reinsert at 2. simpl. rewrite En, Ev, Hf. split_and!; try done; [lia|].
    intros key. rewrite Hc, content_cons.
    destruct (UnsafeFloatEqual (m_key e) key) eqn:E; [|done]. rewrite Ev.
    rewrite (content_miss l key); [done|]. intros i x Hi Hf'. apply (Hne i x Hi).
    by rewrite Hf'; symmetry.
  - destruct (reinsert_step k t e Ht ltac:(lia) En Ev) as (t1 & Hs & Ht1 & Ho1 & Hl1 & Hc1).
    { intros j x Hj. by apply (Hx O e j x). }
    rewrite Hs. assert (u32 (Z.of_nat (occupancy t) + 1) = Z.of_nat (occupancy t1)) as ->.
    { rewrite wrapu_small; [lia|]. pose proof (Z.pow_le_mono_r 2 k 31 ltac:(lia) Hk).
      unfold in_u. pow2. lia. }
    destruct (IH t1 Ht1 Hk Hdl' ltac:(lia)) as (t' & Hf & Ht' & Ho' & Hc).
    { intros i e' j x Hi Hj. destruct (Hl1 j x Hj) as [->|Hj']; [|by eapply Hx'].
      intros Hf. apply (Hne i e' Hi). by symmetry. }
    exists t'. split_and!; try done; [lia|].
    intros key. rewrite Hc, content_cons, Hc1.
    destruct (UnsafeFloatEqual (m_key e) key) eqn:E; [|done]. rewrite Ev.
    rewrite (content_miss l key); [done|]. intros i x Hi Hf'. apply (Hne i x Hi).
    by rewrite Hf'; symmetry.
Qed.

(** The freshly allocated table. *)
Lemma empty_table_ok k : 0 < k <= 32 -> table_ok k (replicate (Z.to_nat (2 ^ k)) emptyEntry).
Proof.
  intros Hk. split; [done|]. split; [by rewrite length_replicate|]. split.
  - intros d e _ Hn Hl. apply lookup_replicate in Hl as [-> _]. by vm_compute in Hn.
  - intros i j e e' Hi _ Hf. apply lookup_replicate in Hi as [-> _]. by apply feq_nan_l in Hf.
Qed.

Lemma occupancy_replicate n : occupancy (replicate n emptyEntry) = O.
Proof. unfold occupancy. by induction n. Qed.

Lemma content_replicate n key : content_of (replicate n emptyEntry) key = Nil.
Proof.
  apply content_miss. intros i e Hi Hf. apply lookup_replicate in Hi as [-> _].
  by apply feq_nan_l in Hf.
Qed.

(** [ResizeImpl] doubles the table, drops the nils and keeps the content. *)
Lemma ResizeImpl_spec m k : 0 < k <= 30 -> m_hashMask m = 2 ^ k - 1 ->
  table_ok k (m_hashTable m) -> Z.of_nat (occupancy (m_hashTable m)) * 2 <= 2 ^ k + 2 ->
  exists m', ResizeImpl m = Some m' /\ wf m' /\ m_hashMask m' = 2 ^ (k + 1) - 1 /\
    m_elementCount m' <= Z.of_nat (occupancy (m_hashTable m)) /\
    forall key, content m' key = content m key.
Proof.
  intros Hk Hm Ht Ho. unfold ResizeImpl. rewrite Hm.
  assert (2 ^ (k + 1) = 2 * 2 ^ k) as Hp by (rewrite <- Z.pow_succ_r by lia; f_equal; lia).
  assert (2 ^ 1 <= 2 ^ k <= 2 ^ 30) as Hb by (split; apply Z.pow_le_mono_r; lia).
  assert (u32 ((2 ^ k - 1) * 2 + 1) = 2 ^ (k + 1) - 1) as ->.
  { rewrite wrapu_small; [lia|]. unfold in_u. pow2. lia. }
  rewrite (proj2 (Z.ltb_lt _ _)) by (pow2; lia).
  replace (2 ^ (k + 1) - 1 + 1) with (2 ^ (k + 1)) by lia.
  pose proof Ht as (_ & _ & _ & Hdi).
  destruct (rehash_spec (k + 1) (m_hashTable m) (replicate (Z.to_nat (2 ^ (k + 1))) emptyEntry))
    as (t' & Hf & Ht' & Ho' & Hc); try done.
  { apply empty_table_ok; lia. } { lia. }
  { rewrite occupancy_replicate. simpl. pow2. lia. }
  { intros i e j x _ Hj Hx. apply lookup_replicate in Hj as [-> _]. by apply feq_nan_l in Hx. }
  rewrite occupancy_replicate in Hf, Ho'. change (Z.of_nat 0) with 0 in Hf. rewrite Hf. simpl.
  eexists. split; [reflexivity|]. split; [|split; [done|split]].
  - exists (k + 1). simpl. split_and!; try done; [lia|]. pow2. lia.
  - simpl. lia.
  - intros key. unfold content. simpl. rewrite Hc, content_replicate.
    destruct (IsNil _) eqn:En; [|done]. unfold IsNil in En. zbool. by rewrite En.
Qed.

(** *** Insertion *)

(** The table is below its maximal size: the next resize is still possible. *)
Definition growable (m : ArraySparseMap) : Prop := m_hashMask m < 2 ^ 31 - 1.

Lemma wf_mask m : wf m -> exists k, 0 < k <= 31 /\ m_hashMask m = 2 ^ k - 1.
Proof. intros (k & ? & ? & (? & _) & _). exists k. split; [lia|done]. Qed.

(** Overwriting the value of an existing entry. *)
Lemma alter_table_ok k t i v : table_ok k t ->
  table_ok k (alter (fun e => mkEntry (m_key e) v) i t).
Proof.
  intros (Hk & Hlen & Hch & Hd).
  set (f := fun e => mkEntry (m_key e) v).
  assert (forall j x, alter f i t !! j = Some x -> exists y, t !! j = Some y /\ m_key y = m_key x) as Hb.
  { intros j x Hj. destruct (decide (i = j)) as [<-|Hne].
    - rewrite list_lookup_alter_eq in Hj. destruct (t !! i) as [y|]; [|done]. simpl in Hj.
      injection Hj as <-. by exists y.
    - rewrite list_lookup_alter_ne in Hj by done. by exists x. }
  assert (forall j y, t !! j = Some y -> exists x, alter f i t !! j = Some x /\ m_key y = m_key x) as Hf.
  { intros j y Hj. destruct (decide (i = j)) as [<-|Hne].
    - exists (f y). by rewrite list_lookup_alter_eq, Hj.
    - exists y. by rewrite list_lookup_alter_ne by done. }
  split; [done|]. split; [by rewrite length_alter|]. split.
  - intros d e Hd' Hn Hl d' Hdd. destruct (Hb _ _ Hl) as (y & Hy & Hky). rewrite <- Hky in *.
    destruct (Hch d y Hd' Hn Hy d' Hdd) as (z & Hz & Hzn).
    destruct (Hf _ _ Hz) as (z' & Hz' & E). exists z'. by rewrite <- E.
  - intros a b e e' Ha Hb' Hfe. destruct (Hb _ _ Ha) as (y & Hy & E).
    destruct (Hb _ _ Hb') as (y' & Hy' & E'). rewrite <- E, <- E' in Hfe. by eapply Hd.
Qed.

Lemma alter_content k t i v e key key' : table_ok k t -> t !! i = Some e -> feq (m_key e) key ->
  content_of (alter (fun e => mkEntry (m_key e) v) i t) key'
  = if UnsafeFloatEqual key key' then v else content_of t key'.
Proof.
  intros Ht Hi He. pose proof (alter_table_ok k t i v Ht) as (_ & _ & _ & Hd').
  set (f := fun e => mkEntry (m_key e) v) in *.
  assert (alter f i t !! i = Some (f e)) as Hi' by (by rewrite list_lookup_alter_eq, Hi).
  destruct (UnsafeFloatEqual key key') eqn:E.
  - rewrite (content_hit _ key' i (f e) Hd' Hi'); [done|]. simpl. rewrite He. done.
  - destruct (content_cases t key') as [(j & x & Hj & Hx & ->)|[Hn ->]].
    + assert (i <> j) as Hne.
      { intros <-. rewrite Hi in Hj. injection Hj as ->.
        assert (feq key key') as Hk by (by rewrite <- He). unfold feq in Hk. congruence. }
      apply (content_hit _ key' j x Hd'); [|done]. by rewrite list_lookup_alter_ne.
    + apply content_miss. intros j x Hj Hx. destruct (decide (i = j)) as [<-|Hne].
      * rewrite Hi' in Hj. injection Hj as <-. simpl in Hx. by apply (Hn i e Hi).
      * rewrite list_lookup_alter_ne in Hj by done. by apply (Hn j x Hj).
Qed.

(** The map a table of maximal size would have to grow to is refused. *)
Lemma ResizeImpl_max m : m_hashMask m = 2 ^ 31 - 1 -> ResizeImpl m = None.
Proof. intros H. unfold ResizeImpl. by rewrite H. Qed.

Lemma ResizeIfNeeded_spec m k : 0 < k <= 31 -> m_hashMask m = 2 ^ k - 1 ->
  table_ok k (m_hashTable m) -> m_elementCount m = Z.of_nat (occupancy (m_hashTable m)) ->
  m_elementCount m * 2 <= 2 ^ k + 2 ->
  (ResizeIfNeeded m = None /\ m_hashMask m = 2 ^ 31 - 1) \/
  exists m', ResizeIfNeeded m = Some m' /\ wf m' /\
    m_elementCount m' <= m_elementCount m /\
    m_hashMask m' + 1 <= Z.max (m_hashMask m + 1) (4 * m_elementCount m) /\
    forall key, content m' key = content m key.
Proof.
  intros Hk Hm Ht Hc Ho. unfold ResizeIfNeeded. rewrite Hm.
  assert (2 ^ 1 <= 2 ^ k <= 2 ^ 31) as Hb by (split; apply Z.pow_le_mono_r; lia).
  rewrite !wrapu_small by (unfold in_u; pow2; lia).
  destruct (Z.leb_spec (m_elementCount m * 2) (2 ^ k - 1 + 1)).
  - right. exists m. split_and!; try done; [|lia]. exists k. split_and!; try done; lia.
  - destruct (Z.eq_dec k 31) as [->|]; [left; split; [by apply ResizeImpl_max|done]|right].
    assert (2 ^ (k + 1) = 2 * 2 ^ k) as Hp by (rewrite <- Z.pow_succ_r by lia; f_equal; lia).
    destruct (ResizeImpl_spec m k) as (m' & ? & ? & Hm' & ? & ?); try done; [lia..|].
    exists m'. split_and!; try done; lia.
Qed.

(** [Insert] succeeds, unless the table has the maximal size and is full. *)
Lemma Insert_cases m key v : wf m -> IsNaN key = false ->
  (Insert m key v = None /\ m_hashMask m = 2 ^ 31 - 1) \/
  exists m', Insert m key v = Some m' /\ wf m' /\
    (m_elementCount m' <= m_elementCount m + 1 /\
     m_hashMask m' + 1 <= Z.max (m_hashMask m + 1) (4 * (m_elementCount m + 1))) /\
    forall key', content m' key' = if UnsafeFloatEqual key key' then v else content m key'.
Proof.
  intros Hwf Hkey. pose proof (wf_has_empty m Hwf) as He.
  destruct Hwf as (k & Hk & Hm & Ht & Hc & Hl). unfold Insert.
  destruct (probe_key_spec m k key Hm Ht He) as (slot & b & e & d & -> & Hsl & Hd & Hsd & Hs & Hb).
  simpl. pose proof Ht as (Hk' & Hlen & _ & Hdi). destruct b.
  - right. eexists. split; [reflexivity|]. split; [|split; [simpl; lia|]].
    + exists k. simpl. rewrite occupancy_alter. split_and!; try done. by apply alter_table_ok.
    + intros key'. unfold content. simpl. by eapply alter_content.
  - destruct Hb as (Hn & Ha & Hp).
    assert (2 ^ 1 <= 2 ^ k <= 2 ^ 31) as Hb by (split; apply Z.pow_le_mono_r; lia).
    destruct (ResizeIfNeeded_spec (mkSparseMap (m_hashMask m) (u32 (m_elementCount m + 1))
      (<[Z.to_nat slot := mkEntry key v]> (m_hashTable m))) k)
      as [?|(m' & ? & Hwf' & Hcnt & Hmsk & Hcont)]; simpl; try done; [lia| | | |by left|].
    + rewrite Hsd in *. by eapply (put_table_ok k (m_hashTable m) d e (mkEntry key v)).
    + rewrite (sparse_occupancy_insert _ _ _ e) by done. rewrite wrapu_small by (unfold in_u; pow2; lia). lia.
    + rewrite wrapu_small by (unfold in_u; pow2; lia). lia.
    + right. simpl in Hcnt, Hmsk. rewrite wrapu_small in Hcnt, Hmsk by (unfold in_u; pow2; lia).
      exists m'. split_and!; try done. intros key'. rewrite Hcont. unfold content. simpl.
      by rewrite (put_content _ _ e) by done.
Qed.

Lemma Insert_spec m key v : wf m -> growable m -> IsNaN key = false ->
  exists m', Insert m key v = Some m' /\ wf m' /\
    (m_elementCount m' <= m_elementCount m + 1 /\
     m_hashMask m' + 1 <= Z.max (m_hashMask m + 1) (4 * (m_elementCount m + 1))) /\
    forall key', content m' key' = if UnsafeFloatEqual key key' then v else content m key'.
Proof.
  intros Hwf Hg Hk. destruct (Insert_cases m key v Hwf Hk) as [[_ Hm]|?]; [|done].
  unfold growable in Hg. lia.
Qed.

Lemma empty_wf : wf AllocateEmptyArraySparseMap.
Proof.
  exists 1. split_and!; try done.
  exact (empty_table_ok 1 ltac:(lia)).
Qed.

Lemma empty_content key : content AllocateEmptyArraySparseMap key = Nil.
Proof. exact (content_replicate 2 key). Qed.

Lemma empty_growable : growable AllocateEmptyArraySparseMap.
Proof. unfold growable. by vm_compute. Qed.

Lemma Clone_wf m : wf m -> Clone m = m.
Proof.
  intros (k & _ & Hm & (Hk & Hlen & _) & _). unfold Clone. rewrite take_ge.
  - by destruct m.
  - rewrite Hlen, Hm. replace (2 ^ k - 1 + 1) with (2 ^ k) by lia. lia.
Qed.

(** The contents of a well-formed map do not distinguish equal keys. *)
Lemma content_feq m a b : feq a b -> content m a = content m b.
Proof.
  intros H. unfold content. induction (m_hashTable m) as [|e l IH]; [done|].
  rewrite !content_cons, IH.
  by rewrite !(feq_sym (m_key e)), (feq_congr a b).
Qed.

Lemma content_nan m key : IsNaN key = true -> content m key = Nil.
Proof.
  intros H. apply content_miss. intros i e _ Hf. apply feq_nan_r in Hf. congruence.
Qed.

Lemma GetHashSlotOrdinal_spec m key : wf m ->
  exists slot, GetHashSlotOrdinal m key = Some slot /\
    (if slot =? 2 ^ 32 - 1 then forall i e, m_hashTable m !! i = Some e -> ~ feq (m_key e) key
     else 0 <= slot /\ exists e, m_hashTable m !! Z.to_nat slot = Some e /\ feq (m_key e) key).
Proof.
  intros Hwf. pose proof (wf_has_empty m Hwf) as He.
  destruct Hwf as (k & Hk & Hm & Ht & Hc & Hl). unfold GetHashSlotOrdinal.
  destruct (probe_key_spec m k key Hm Ht He) as (slot & b & e & d & -> & Hsl & _ & _ & Hs & Hb).
  pose proof Ht as ([Hk0 _] & _).
  assert (2 ^ 1 <= 2 ^ k <= 2 ^ 31) as Hp by (split; apply Z.pow_le_mono_r; lia).
  simpl. destruct b.
  - exists slot. split; [f_equal; apply wrapu_small; unfold in_u; pow2; lia|].
    rewrite (proj2 (Z.eqb_neq _ _)) by (pow2; lia). split; [lia|]. by exists e.
  - exists (u32 (-1)). split; [done|]. by destruct Hb as (_ & ? & _).
Qed.
End hash.

(** ** Histories of insertions *)

Section history.
Context (XXH3_64bits : Z -> Z).

(** A history of [Insert] calls, newest last. *)
Fixpoint insert_all (m : ArraySparseMap) (h : list (Z * Z)) : option ArraySparseMap :=
  match h with
  | [] => Some m
  | (key, v) :: h' => m' ← Insert XXH3_64bits m key v; insert_all m' h'
  end.

(** The specification: the last value written under a key [==] to [k]. *)
Fixpoint last_write (dflt : Z -> Z) (h : list (Z * Z)) (k : Z) : Z :=
  match h with
  | [] => dflt k
  | (key, v) :: h' => last_write (fun k' => if UnsafeFloatEqual key k' then v else dflt k') h' k
  end.

Lemma last_write_ext d d' h k : (forall x, d x = d' x) -> last_write d h k = last_write d' h k.
Proof.
  revert d d'. induction h as [|[key v] h IH]; intros d d' H; simpl; [done|].
  apply IH. intros x. by rewrite H.
Qed.

Lemma insert_all_spec h : forall m n, wf XXH3_64bits m ->
  m_elementCount m <= n -> m_hashMask m + 1 <= Z.max 2 (4 * n) ->
  4 * (n + Z.of_nat (length h)) < 2 ^ 31 ->
  Forall (fun p => IsNaN p.1 = false) h ->
  exists m', insert_all m h = Some m' /\ wf XXH3_64bits m' /\
    forall k, content m' k = last_write (content m) h k.
Proof.
  induction h as [|[key v] h IH]; intros m n Hwf Hc Hm Hn Hf; [by exists m|].
  apply Forall_cons in Hf as [Hk Hf]. simpl in *.
  destruct (Insert_spec XXH3_64bits m key v Hwf) as (m1 & -> & Hwf1 & [Hc1 Hm1] & Hcont); [|done|].
  { unfold growable. pow2. lia. }
  destruct (IH m1 (n + 1) Hwf1) as (m' & He & Hwf' & Hcont'); [lia..|done|].
  exists m'. split_and!; try done. intros k. rewrite Hcont'. by apply last_write_ext.
Qed.
End history.

(** C35: the open-addressing table implements a map from numbers to values: after
    any history of fewer than 2^29 insertions into a fresh sparse map, whatever
    the hash function, every look-up terminates within one round of the table
    and returns the last value inserted under a key equal ([==], so [0.0] and
    [-0.0] are one key) to the one asked for, and [nil] for all other numbers
    and for NaN. *)
Theorem sparse_map_history XXH3_64bits h :
  Z.of_nat (length h) < 2 ^ 29 -> Forall (fun p => IsNaN p.1 = false) h ->
  exists m, insert_all XXH3_64bits AllocateEmptyArraySparseMap h = Some m /\
    forall k, GetByVal XXH3_64bits m k = Some (last_write (fun _ => Nil) h k).
Proof.
  intros Hn Hf.
  destruct (insert_all_spec XXH3_64bits h AllocateEmptyArraySparseMap 0) as (m & He & Hwf & Hc);
    try done; [apply empty_wf|pow2; lia|].
  exists m. split; [done|]. intros k. rewrite GetByVal_content, Hc by done. f_equal.
Qed.

(** Three keys that collide under a constant hash, one of them a zero that is
    overwritten under its other sign. *)
Definition sample_history : list (Z * Z) :=
  [(0, 7); (double_of_int 5, 8); (double_of_int 6, 9); (2 ^ 63, 10)].

Lemma sparse_map_history_witness :
  exists m, insert_all (fun _ => 0) AllocateEmptyArraySparseMap sample_history = Some m /\
    GetByVal (fun _ => 0) m 0 = Some 10 /\ GetByVal (fun _ => 0) m (double_of_int 6) = Some 9 /\
    GetByVal (fun _ => 0) m (double_of_int 7) = Some Nil.
Proof.
  destruct (sparse_map_history (fun _ => 0) sample_history) as (m & Hm & Hg).
  { by vm_compute. }
  { repeat constructor. }
  exists m. split; [done|]. rewrite !Hg. by vm_compute.
Defined.

(** [Insert] on any well-formed sparse map that is not of maximal size
    succeeds, keeps the representation invariant (power-of-two mask, load at
    most one half, probe chains unbroken, no duplicate keys), and changes the
    value of exactly the keys equal to the inserted one, also when it makes the
    table grow and drop its [nil] entries. *)
Theorem sparse_map_insert XXH3_64bits m key v :
  wf XXH3_64bits m -> m_hashMask m < 2 ^ 31 - 1 -> IsNaN key = false ->
  exists m', Insert XXH3_64bits m key v = Some m' /\ wf XXH3_64bits m' /\
    m_elementCount m' * 2 <= m_hashMask m' + 1 /\
    forall k, GetByVal XXH3_64bits m' k
      = if UnsafeFloatEqual key k then Some v else GetByVal XXH3_64bits m k.
Proof.
  intros Hwf Hg Hk.
  destruct (Insert_spec XXH3_64bits m key v Hwf Hg Hk) as (m' & He & Hwf' & _ & Hc).
  exists m'. split_and!; try done.
  - destruct Hwf' as (k & _ & -> & _ & _ & ?). lia.
  - intros k. rewrite !GetByVal_content, Hc by done. by destruct (UnsafeFloatEqual key k).
Qed.

Lemma sparse_map_insert_witness :
  exists m', Insert (fun _ => 1) AllocateEmptyArraySparseMap (double_of_int 3) 5 = Some m' /\
    GetByVal (fun _ => 1) m' (double_of_int 3) = Some 5.
Proof.
  destruct (sparse_map_insert (fun _ => 1) AllocateEmptyArraySparseMap (double_of_int 3) 5)
    as (m' & He & _ & _ & Hg).
  - apply empty_wf.
  - by vm_compute.
  - by vm_compute.
  - exists m'. split; [done|]. rewrite Hg. by vm_compute.
Defined.
