(* ===== verification/Butterfly.v ===== *)
(** * The butterfly ([runtime/butterfly.h]) as raw memory

    A butterfly is one allocation of 64-bit words.  The [Butterfly] pointer
    points into its middle: at the header word, which packs the [int32_t]
    array length (low half) and the [uint32_t] vector capacity (high half).
    The named properties are at negative offsets, the vector part at offsets
    [1 .. capacity].  An access outside of the allocation is [None].

    [mk_bf named len cap vec] is the butterfly with the given parts; every
    access and every growth routine of [TableObject] is computed on it. *)

From S2P Require Import Prelude TValue ArrayType.

Record Butterfly := mkButterfly { bf_mem : list Z; bf_off : Z }.

(** ** Word access relative to the [Butterfly] pointer *)

Definition word_at (b : Butterfly) (i : Z) : option Z :=
  let a := bf_off b + i in if a <? 0 then None else bf_mem b !! Z.to_nat a.

Definition store_at (b : Butterfly) (i v : Z) : option Butterfly :=
  let a := bf_off b + i in
  if (0 <=? a) && (a <? Z.of_nat (length (bf_mem b)))
  then Some (mkButterfly (<[Z.to_nat a := v]> (bf_mem b)) (bf_off b)) else None.

(** ** The header: [GetHeader() = this - (1 - x_arrayBaseOrd)] words *)

Definition GetHeader : Z := - (1 - x_arrayBaseOrd).

Definition m_arrayLengthIfContinuous (b : Butterfly) : option Z :=
  w ← word_at b GetHeader; Some (i32 w).
Definition m_arrayStorageCapacity (b : Butterfly) : option Z :=
  w ← word_at b GetHeader; Some (w / 2 ^ 32 mod 2 ^ 32).
Definition set_arrayLengthIfContinuous (b : Butterfly) (v : Z) : option Butterfly :=
  w ← word_at b GetHeader; store_at b GetHeader (u32 v + w / 2 ^ 32 * 2 ^ 32).
Definition set_arrayStorageCapacity (b : Butterfly) (v : Z) : option Butterfly :=
  w ← word_at b GetHeader; store_at b GetHeader (w mod 2 ^ 32 + u32 v * 2 ^ 32).

(** ** Named properties *)

Definition x_maxNamedStorageCapacity : Z := 250000000.
Definition x_namedPropOrdinalRangeMin : Z := - (x_maxNamedStorageCapacity + 1 - x_arrayBaseOrd).
Definition x_namedPropOrdinalRangeMax : Z := x_arrayBaseOrd - 2.

Definition GetOutlineStorageIndex (slot inlineCapacity : Z) : Z :=
  i32 (i32 inlineCapacity - i32 slot - 1 - (1 - x_arrayBaseOrd)).
Definition GetNamedProperty (b : Butterfly) (ord : Z) : option Z := word_at b ord.
Definition SetNamedProperty (b : Butterfly) (ord v : Z) : option Butterfly := store_at b ord v.

(** ** Vector part: [*UnsafeGetInVectorIndexAddr(index)] *)

Definition GetInVector (b : Butterfly) (index : Z) : option Z := word_at b index.
Definition SetInVector (b : Butterfly) (index v : Z) : option Butterfly := store_at b index v.

(** ** Growing and cloning ([TableObject::GrowButterfly...], [CloneButterfly]) *)

(** The fill loop [while (begin < end) *begin++ = nil]. *)
Fixpoint nilFill (n : nat) (from : nat) (mem : list Z) : list Z :=
  match n with O => mem | S n' => nilFill n' (S from) (<[from := Nil]> mem) end.

(** [new uint64_t[n]]: the contents are unspecified; the model has zeroes. *)
Definition new_words (n : Z) : list Z := replicate (Z.to_nat n) 0.

Definition GrowButterflyFromNull (isGrowNamedStorage : bool) (newCapacity : Z) : option Butterfly :=
  let butterflyStart := new_words (u32 (newCapacity + 1)) in
  let offset := if isGrowNamedStorage then u32 (newCapacity + (1 - x_arrayBaseOrd))
                else u32 (1 - x_arrayBaseOrd) in
  let butterfly := mkButterfly butterflyStart offset in
  butterfly ← set_arrayStorageCapacity butterfly (if isGrowNamedStorage then 0 else newCapacity);
  butterfly ← set_arrayLengthIfContinuous butterfly 0;
  let from := if isGrowNamedStorage then 0%nat else 1%nat in
  Some (mkButterfly (nilFill (Z.to_nat newCapacity) from (bf_mem butterfly)) offset).

(** [memcpy] of [n] words between two allocations. *)
Definition memcpy (dst : list Z) (dst_off : nat) (src : list Z) (src_off n : nat) : list Z :=
  take dst_off dst ++ take n (drop src_off src) ++ drop (dst_off + n) dst.

Definition GrowButterflyKnowingNamedStorageCapacity (isGrowNamedStorage : bool)
    (m_butterfly : option Butterfly) (oldNamedStorageCapacity newCapacity : Z) : option Butterfly :=
  match m_butterfly with
  | None => GrowButterflyFromNull isGrowNamedStorage newCapacity
  | Some b =>
      oldArrayStorageCapacity ← m_arrayStorageCapacity b;
      let oldButterflySlots := u32 (oldArrayStorageCapacity + oldNamedStorageCapacity + 1) in
      let oldButterflyStart := bf_off b - u32 (oldNamedStorageCapacity + (1 - x_arrayBaseOrd)) in
      let newButterflySlots :=
        if isGrowNamedStorage then u32 (newCapacity + oldArrayStorageCapacity + 1)
        else u32 (oldNamedStorageCapacity + newCapacity + 1) in
      let newNamed := if isGrowNamedStorage then newCapacity else oldNamedStorageCapacity in
      if oldButterflyStart <? 0 then None else
      let old_n := Z.to_nat oldButterflySlots in
      let fill := Z.to_nat (u32 (newButterflySlots - oldButterflySlots)) in
      let newButterflyStart := new_words newButterflySlots in
      let mem :=
        if isGrowNamedStorage then
          memcpy (nilFill fill 0 newButterflyStart) fill (bf_mem b) (Z.to_nat oldButterflyStart) old_n
        else
          nilFill fill old_n
            (memcpy newButterflyStart 0 (bf_mem b) (Z.to_nat oldButterflyStart) old_n) in
      let butterfly := mkButterfly mem (u32 (newNamed + (1 - x_arrayBaseOrd))) in
      if isGrowNamedStorage then Some butterfly
      else set_arrayStorageCapacity butterfly newCapacity
  end.

(** The copy of the words made by [CloneButterfly] and
    [CloneButterflyForTableDup] (the latter for named capacity 0). *)
Definition CloneWords (b : Butterfly) (butterflyNamedStorageCapacity : Z) : option Butterfly :=
  arrayStorageCapacity ← m_arrayStorageCapacity b;
  let butterflySlots := u32 (arrayStorageCapacity + butterflyNamedStorageCapacity + 1) in
  let butterflyStartOffset := u32 (butterflyNamedStorageCapacity + (1 - x_arrayBaseOrd)) in
  let butterflyStart := bf_off b - butterflyStartOffset in
  if butterflyStart <? 0 then None else
  Some (mkButterfly
    (memcpy (new_words butterflySlots) 0 (bf_mem b) (Z.to_nat butterflyStart)
       (Z.to_nat butterflySlots)) butterflyStartOffset).

(** ** The parts of a butterfly *)

Definition pack (len cap : Z) : Z := u32 len + cap * 2 ^ 32.

Definition mk_bf (named : list Z) (len cap : Z) (vec : list Z) : Butterfly :=
  mkButterfly (named ++ pack len cap :: vec) (Z.of_nat (length named)).

(** Well-formed parts: the vector has the capacity of the header. *)
Record bf_ok (named : list Z) (len cap : Z) (vec : list Z) : Prop := {
  bf_len : in_i 32 len;
  bf_cap : 0 <= cap <= x_unconditionallySparseMapCutoff;
  bf_vec : length vec = Z.to_nat cap;
  bf_named : Z.of_nat (length named) <= x_maxNamedStorageCapacity
}.

Lemma pack_len len cap : in_i 32 len -> i32 (pack len cap) = len.
Proof.
  intros H. unfold pack. rewrite <- (wraps_wrapu 32 (u32 len + _)) by lia.
  unfold wrapu at 1. rewrite Z_mod_plus_full. fold (wrapu 32 (u32 len)).
  rewrite !wraps_wrapu by lia. by apply wraps_small.
Qed.

Lemma pack_div len cap : pack len cap / 2 ^ 32 = cap.
Proof.
  unfold pack. rewrite Z.div_add by (pow2; lia).
  rewrite Z.div_small; [lia|]. apply (wrapu_range 32). lia.
Qed.

Lemma pack_mod len cap : pack len cap mod 2 ^ 32 = u32 len.
Proof.
  unfold pack. rewrite Z_mod_plus_full. apply Z.mod_small. apply (wrapu_range 32). lia.
Qed.

Create Rewrite HintDb butterfly.

Section parts.
Variables (named : list Z) (len cap : Z) (vec : list Z).
Hypothesis ok : bf_ok named len cap vec.
Notation b := (mk_bf named len cap vec).

Lemma word_at_header : word_at b 0 = Some (pack len cap).
Proof.
  unfold word_at, mk_bf. simpl. rewrite Z.add_0_r.
  destruct (Z.ltb_spec (Z.of_nat (length named)) 0); [lia|].
  rewrite Nat2Z.id, lookup_app_r by lia. by rewrite Nat.sub_diag.
Qed.

Lemma store_at_header w : store_at b 0 w =
  Some (mkButterfly (named ++ w :: vec) (Z.of_nat (length named))).
Proof.
  unfold store_at, mk_bf. simpl. rewrite Z.add_0_r, length_app. simpl.
  rewrite (proj2 (Z.leb_le _ _)), (proj2 (Z.ltb_lt _ _)) by lia. simpl.
  rewrite Nat2Z.id, insert_app_r_alt by lia. by rewrite Nat.sub_diag.
Qed.

Lemma m_arrayLengthIfContinuous_mk : m_arrayLengthIfContinuous b = Some len.
Proof.
  unfold m_arrayLengthIfContinuous. change GetHeader with 0. rewrite word_at_header. simpl.
  f_equal. apply pack_len. by destruct ok.
Qed.

Lemma m_arrayStorageCapacity_mk : m_arrayStorageCapacity b = Some cap.
Proof.
  unfold m_arrayStorageCapacity. change GetHeader with 0. rewrite word_at_header. simpl.
  f_equal. rewrite pack_div. destruct ok as [_ Hc _ _].
  unfold x_unconditionallySparseMapCutoff in Hc. apply Z.mod_small. pow2. lia.
Qed.

Lemma set_arrayLengthIfContinuous_mk v :
  set_arrayLengthIfContinuous b v = Some (mk_bf named v cap vec).
Proof.
  unfold set_arrayLengthIfContinuous. change GetHeader with 0. rewrite word_at_header. simpl.
  rewrite store_at_header. by rewrite pack_div.
Qed.

Lemma GetInVector_mk i : 1 <= i <= cap ->
  GetInVector b i = vec !! Z.to_nat (i - 1).
Proof.
  intros Hi. unfold GetInVector, word_at, mk_bf. simpl.
  destruct (Z.ltb_spec (Z.of_nat (length named) + i) 0); [lia|].
  rewrite lookup_app_r by lia.
  replace (Z.to_nat (Z.of_nat (length named) + i) - length named)%nat
    with (S (Z.to_nat (i - 1))) by lia. done.
Qed.

Lemma SetInVector_mk i v : 1 <= i <= cap ->
  SetInVector b i v = Some (mk_bf named len cap (<[Z.to_nat (i - 1) := v]> vec)).
Proof.
  intros Hi. destruct ok as [_ Hc Hv _].
  unfold SetInVector, store_at, mk_bf. simpl. rewrite length_app. simpl.
  rewrite (proj2 (Z.leb_le _ _)), (proj2 (Z.ltb_lt _ _)) by lia. simpl.
  rewrite insert_app_r_alt by lia.
  replace (Z.to_nat (Z.of_nat (length named) + i) - length named)%nat
    with (S (Z.to_nat (i - 1))) by lia. done.
Qed.

(** A named property: outlined slot number [k] (counted from 0) is the word
    [k + 1] before the header. *)
Lemma GetNamedProperty_mk k : (k < length named)%nat ->
  GetNamedProperty b (- Z.of_nat k - 1) = named !! (length named - 1 - k)%nat.
Proof.
  intros Hk. unfold GetNamedProperty, word_at, mk_bf. simpl.
  destruct (Z.ltb_spec (Z.of_nat (length named) + (- Z.of_nat k - 1)) 0); [lia|].
  rewrite lookup_app_l by lia. f_equal. lia.
Qed.

Lemma SetNamedProperty_mk k v : (k < length named)%nat ->
  SetNamedProperty b (- Z.of_nat k - 1) v
  = Some (mk_bf (<[(length named - 1 - k)%nat := v]> named) len cap vec).
Proof.
  intros Hk. unfold SetNamedProperty, store_at, mk_bf. simpl. rewrite length_app. simpl.
  rewrite (proj2 (Z.leb_le _ _)), (proj2 (Z.ltb_lt _ _)) by lia. simpl.
  rewrite insert_app_l by lia. rewrite length_insert. do 2 f_equal. f_equal. f_equal. lia.
Qed.
End parts.

(** ** Filling and copying *)

Lemma nilFill_spec n : forall from mem, (from + n <= length mem)%nat ->
  nilFill n from mem = take from mem ++ replicate n Nil ++ drop (from + n) mem.
Proof.
  induction n as [|n IH]; intros from mem H; simpl.
  - by rewrite Nat.add_0_r, take_drop.
  - rewrite IH by (rewrite length_insert; lia).
    rewrite drop_insert_lt by lia. replace (S from + n)%nat with (from + S n)%nat by lia.
    rewrite (take_S_r _ _ Nil) by (apply list_lookup_insert_eq; lia).
    rewrite take_insert_ge by lia. by rewrite <- app_assoc.
Qed.

(** The header of a butterfly whose words are all unspecified. *)
Lemma header_init named w vec cap : 0 <= cap < 2 ^ 32 ->
  exists b, set_arrayStorageCapacity (mkButterfly (named ++ w :: vec) (Z.of_nat (length named))) cap
      = Some b /\ set_arrayLengthIfContinuous b 0 = Some (mk_bf named 0 cap vec).
Proof.
  intros Hc. unfold set_arrayStorageCapacity, set_arrayLengthIfContinuous. change GetHeader with 0.
  assert (forall w', word_at (mkButterfly (named ++ w' :: vec) (Z.of_nat (length named))) 0 = Some w') as Hw.
  { intros w'. unfold word_at. simpl. rewrite Z.add_0_r.
    destruct (Z.ltb_spec (Z.of_nat (length named)) 0); [lia|].
    rewrite Nat2Z.id, lookup_app_r by lia. by rewrite Nat.sub_diag. }
  assert (forall w' x, store_at (mkButterfly (named ++ w' :: vec) (Z.of_nat (length named))) 0 x
            = Some (mkButterfly (named ++ x :: vec) (Z.of_nat (length named)))) as Hs.
  { intros w' x. unfold store_at. simpl. rewrite Z.add_0_r, length_app. simpl.
    rewrite (proj2 (Z.leb_le _ _)), (proj2 (Z.ltb_lt _ _)) by lia. simpl.
    rewrite Nat2Z.id, insert_app_r_alt by lia. by rewrite Nat.sub_diag. }
  rewrite Hw. simpl. rewrite Hs. eexists. split; [done|]. rewrite Hw. simpl. rewrite Hs.
  unfold mk_bf, pack. do 3 f_equal. rewrite (wrapu_small 32 cap) by done.
  rewrite Z.div_add by (pow2; lia). rewrite Z.div_small; [done|].
  apply Z.mod_pos_bound. pow2. lia.
Qed.

Lemma bf_ok_cap_u32 named len cap vec : bf_ok named len cap vec -> 0 <= cap < 2 ^ 31.
Proof. intros [_ H _ _]. unfold x_unconditionallySparseMapCutoff in H. pow2. lia. Qed.

Lemma GrowFromNull_array cap : 0 <= cap <= x_unconditionallySparseMapCutoff ->
  GrowButterflyFromNull false cap = Some (mk_bf [] 0 cap (replicate (Z.to_nat cap) Nil)).
Proof.
  intros Hc. assert (0 <= cap < 2 ^ 31) by (unfold x_unconditionallySparseMapCutoff in Hc; pow2; lia).
  unfold GrowButterflyFromNull, new_words. change (u32 (1 - x_arrayBaseOrd)) with 0.
  rewrite wrapu_small by (unfold in_u; pow2; lia).
  replace (Z.to_nat (cap + 1)) with (S (Z.to_nat cap)) by lia. simpl replicate.
  destruct (header_init [] 0 (replicate (Z.to_nat cap) 0) cap ltac:(pow2; lia)) as (b & E1 & E2).
  change (Z.of_nat (length (@nil Z))) with 0 in E1; simpl in E1. rewrite E1. simpl. rewrite E2. simpl. rewrite nilFill_spec by (simpl; rewrite length_replicate; lia).
  simpl. rewrite drop_ge by (rewrite length_replicate; lia). by rewrite app_nil_r.
Qed.

Lemma GrowFromNull_named cap : 0 <= cap <= x_maxNamedStorageCapacity ->
  GrowButterflyFromNull true cap = Some (mk_bf (replicate (Z.to_nat cap) Nil) 0 0 []).
Proof.
  intros Hc. assert (0 <= cap < 2 ^ 31) by (unfold x_maxNamedStorageCapacity in Hc; pow2; lia).
  unfold GrowButterflyFromNull, new_words. replace (cap + (1 - x_arrayBaseOrd)) with cap
    by (unfold x_arrayBaseOrd; lia).
  rewrite !wrapu_small by (unfold in_u; pow2; lia).
  assert (replicate (Z.to_nat (cap + 1)) 0 = replicate (Z.to_nat cap) 0 ++ [0]) as ->.
  { replace (Z.to_nat (cap + 1)) with (Z.to_nat cap + 1)%nat by lia. by rewrite replicate_add. }
  destruct (header_init (replicate (Z.to_nat cap) 0) 0 [] 0 ltac:(pow2; lia)) as (b & E1 & E2).
  rewrite length_replicate, Z2Nat.id in E1 by lia. rewrite E1. simpl. rewrite E2. simpl.
  rewrite nilFill_spec by (rewrite length_app, length_replicate; simpl; lia). simpl.
  unfold mk_bf. rewrite drop_app_length' by (rewrite length_replicate; lia). simpl.
  do 2 f_equal. rewrite length_replicate. lia.
Qed.

Lemma named_lt named len cap vec : bf_ok named len cap vec -> Z.of_nat (length named) < 2 ^ 31.
Proof. intros [_ _ _ H]. unfold x_maxNamedStorageCapacity in H. pow2. lia. Qed.

(** Growing the vector part keeps the named part, the header's length and the
    elements, and fills the new elements with [nil]. *)
Lemma Grow_array named len cap vec newCapacity : bf_ok named len cap vec ->
  cap <= newCapacity <= x_unconditionallySparseMapCutoff ->
  GrowButterflyKnowingNamedStorageCapacity false (Some (mk_bf named len cap vec))
    (Z.of_nat (length named)) newCapacity
  = Some (mk_bf named len newCapacity (vec ++ replicate (Z.to_nat (newCapacity - cap)) Nil)).
Proof.
  intros Hok Hn. pose proof (bf_ok_cap_u32 _ _ _ _ Hok). pose proof (named_lt _ _ _ _ Hok).
  assert (newCapacity < 2 ^ 31) by (unfold x_unconditionallySparseMapCutoff in Hn; pow2; lia).
  unfold GrowButterflyKnowingNamedStorageCapacity.
  rewrite m_arrayStorageCapacity_mk by done. simpl.
  replace (Z.of_nat (length named) + (1 - x_arrayBaseOrd)) with (Z.of_nat (length named))
    by (unfold x_arrayBaseOrd; lia).
  rewrite (wrapu_small 32 (cap + Z.of_nat (length named) + 1)), (wrapu_small 32 (Z.of_nat (length named) + newCapacity + 1)), !(wrapu_small 32)
    by (unfold in_u; pow2; lia).
  rewrite Z.sub_diag. simpl. destruct Hok as [_ _ Hv _].
  set (L := (length named + S (length vec))%nat).
  assert (Z.to_nat (cap + Z.of_nat (length named) + 1) = L) as -> by (unfold L; lia).
  assert (Z.to_nat (Z.of_nat (length named) + newCapacity + 1 - (cap + Z.of_nat (length named) + 1))
    = Z.to_nat (newCapacity - cap)) as -> by lia.
  set (k := Z.to_nat (newCapacity - cap)).
  unfold new_words, memcpy. rewrite take_0. simpl. rewrite drop_0, drop_replicate, take_ge
    by (rewrite length_app; simpl; unfold L; lia).
  assert (Z.to_nat (Z.of_nat (length named) + newCapacity + 1) - L = k)%nat as -> by (unfold L, k; lia).
  rewrite nilFill_spec by (rewrite !length_app, length_replicate; simpl; unfold L; lia).
  assert (length (named ++ pack len cap :: vec) = L) as HL by (rewrite length_app; simpl; lia).
  rewrite take_app_length', drop_ge by (rewrite ?length_app, ?length_replicate; unfold L; simpl; lia).
  rewrite app_nil_r, <- app_assoc. simpl.
  unfold set_arrayStorageCapacity. change GetHeader with 0.
  change (mkButterfly (named ++ pack len cap :: (vec ++ replicate k Nil)) (Z.of_nat (length named)))
    with (mk_bf named len cap (vec ++ replicate k Nil)).
  rewrite word_at_header. simpl. rewrite store_at_header, pack_mod. unfold mk_bf, pack.
  by rewrite (wrapu_small 32 newCapacity) by (unfold in_u; pow2; lia).
Qed.

(** Growing the named part keeps the rest; the new slots, which are the
    lowest addresses, are [nil]. *)
Lemma Grow_named named len cap vec newCapacity : bf_ok named len cap vec ->
  Z.of_nat (length named) <= newCapacity <= x_maxNamedStorageCapacity ->
  GrowButterflyKnowingNamedStorageCapacity true (Some (mk_bf named len cap vec))
    (Z.of_nat (length named)) newCapacity
  = Some (mk_bf (replicate (Z.to_nat newCapacity - length named) Nil ++ named) len cap vec).
Proof.
  intros Hok Hn. pose proof (bf_ok_cap_u32 _ _ _ _ Hok). pose proof (named_lt _ _ _ _ Hok).
  assert (newCapacity < 2 ^ 31) by (unfold x_maxNamedStorageCapacity in Hn; pow2; lia).
  unfold GrowButterflyKnowingNamedStorageCapacity.
  rewrite m_arrayStorageCapacity_mk by done. simpl.
  replace (Z.of_nat (length named) + (1 - x_arrayBaseOrd)) with (Z.of_nat (length named))
    by (unfold x_arrayBaseOrd; lia).
  replace (newCapacity + (1 - x_arrayBaseOrd)) with newCapacity by (unfold x_arrayBaseOrd; lia).
  rewrite (wrapu_small 32 (cap + Z.of_nat (length named) + 1)), (wrapu_small 32 (newCapacity + cap + 1)), !(wrapu_small 32)
    by (unfold in_u; pow2; lia).
  rewrite Z.sub_diag. simpl. destruct Hok as [_ _ Hv _].
  set (L := (length named + S (length vec))%nat).
  assert (Z.to_nat (cap + Z.of_nat (length named) + 1) = L) as -> by (unfold L; lia).
  assert (Z.to_nat (newCapacity + cap + 1 - (cap + Z.of_nat (length named) + 1))
    = (Z.to_nat newCapacity - length named)%nat) as -> by lia.
  set (k := (Z.to_nat newCapacity - length named)%nat).
  assert (Z.to_nat (newCapacity + cap + 1) = k + L)%nat as HN by (unfold k, L; lia).
  unfold new_words, memcpy. rewrite HN.
  rewrite nilFill_spec by (rewrite length_replicate; lia). rewrite ?take_0, ?drop_0. simpl. rewrite ?drop_0.
  rewrite take_app_length' by (by rewrite length_replicate).
  rewrite (take_ge (named ++ _)) by (rewrite length_app; simpl; unfold L; lia).
  rewrite drop_ge by (rewrite length_app, length_drop, !length_replicate; lia).
  rewrite app_nil_r. unfold mk_bf. rewrite <- app_assoc. do 2 f_equal.
  rewrite length_app, length_replicate. unfold k. lia.
Qed.

(** The copied words are the original ones. *)
Lemma CloneWords_mk named len cap vec : bf_ok named len cap vec ->
  CloneWords (mk_bf named len cap vec) (Z.of_nat (length named)) = Some (mk_bf named len cap vec).
Proof.
  intros Hok. pose proof (bf_ok_cap_u32 _ _ _ _ Hok). pose proof (named_lt _ _ _ _ Hok).
  unfold CloneWords. rewrite m_arrayStorageCapacity_mk by done. simpl.
  replace (Z.of_nat (length named) + (1 - x_arrayBaseOrd)) with (Z.of_nat (length named))
    by (unfold x_arrayBaseOrd; lia).
  rewrite !wrapu_small by (unfold in_u; pow2; lia). rewrite Z.sub_diag. simpl.
  destruct Hok as [_ _ Hv _]. unfold memcpy, new_words. simpl. rewrite ?drop_0.
  rewrite take_ge by (rewrite length_app; simpl; lia).
  rewrite drop_ge by (rewrite length_replicate; lia). by rewrite app_nil_r.
Qed.


(** ** Property *)

(** Outlined slot [k] of a class with [inl] inline slots. *)
Lemma GetOutlineStorageIndex_spec inl k : 0 <= inl <= 255 -> 0 <= k <= x_maxNamedStorageCapacity ->
  GetOutlineStorageIndex (inl + k) inl = - k - 1.
Proof.
  unfold x_maxNamedStorageCapacity, GetOutlineStorageIndex, x_arrayBaseOrd. intros Hi Hk.
  rewrite (wraps_small 32 inl), (wraps_small 32 (inl + k)), (wraps_small 32) by (unfold in_i; pow2; lia). lia.
Qed.

(** Growing a butterfly moves the memory image correctly in both
    directions.  After [GrowButterflyKnowingNamedStorageCapacity] the header
    keeps the continuous length and has the new capacity, every old element and
    every old named property is read from the same index as before, and every
    new element and every new named slot reads [nil]. *)
Theorem butterfly_growth named len cap vec inl newCapacity (isGrowNamedStorage : bool) :
  bf_ok named len cap vec -> 0 <= inl <= 255 ->
  let b := mk_bf named len cap vec in
  let nn := Z.of_nat (length named) in
  (if isGrowNamedStorage then nn <= newCapacity <= x_maxNamedStorageCapacity
   else cap <= newCapacity <= x_unconditionallySparseMapCutoff) ->
  exists b', GrowButterflyKnowingNamedStorageCapacity isGrowNamedStorage (Some b) nn newCapacity = Some b' /\
    m_arrayLengthIfContinuous b' = Some len /\
    m_arrayStorageCapacity b' = Some (if isGrowNamedStorage then cap else newCapacity) /\
    (forall i, 1 <= i <= cap -> GetInVector b' i = GetInVector b i) /\
    (forall i, cap < i <= newCapacity -> isGrowNamedStorage = false -> GetInVector b' i = Some Nil) /\
    (forall k, 0 <= k < nn -> GetNamedProperty b' (GetOutlineStorageIndex (inl + k) inl)
                            = GetNamedProperty b (GetOutlineStorageIndex (inl + k) inl)) /\
    (forall k, nn <= k < newCapacity -> isGrowNamedStorage = true ->
       GetNamedProperty b' (GetOutlineStorageIndex (inl + k) inl) = Some Nil).
Proof.
  cbv zeta. set (nn := Z.of_nat (length named)). intros Hok Hi Hn. pose proof Hok as [Hl Hc Hv Hm].
  destruct isGrowNamedStorage.
  - exists (mk_bf (replicate (Z.to_nat newCapacity - length named) Nil ++ named) len cap vec).
    set (named' := replicate _ _ ++ named).
    assert (Z.of_nat (length named') = newCapacity) as HL
      by (unfold named'; rewrite length_app, length_replicate; lia).
    assert (bf_ok named' len cap vec) as Hok' by (split; [done..|lia]).
    split_and!; [by apply Grow_named|by apply m_arrayLengthIfContinuous_mk
      |by apply m_arrayStorageCapacity_mk|..].
    + intros i Hi'. by rewrite !GetInVector_mk by done.
    + done.
    + intros k Hk. rewrite GetOutlineStorageIndex_spec by lia.
      rewrite <- (Z2Nat.id k) by lia. rewrite !GetNamedProperty_mk by lia.
      unfold named'. rewrite lookup_app_r by (rewrite length_app, !length_replicate; lia).
      f_equal. rewrite length_app, !length_replicate. lia.
    + intros k Hk _. rewrite GetOutlineStorageIndex_spec by lia.
      rewrite <- (Z2Nat.id k) by lia. rewrite !GetNamedProperty_mk by lia.
      unfold named'. rewrite lookup_app_l by (rewrite length_app, !length_replicate; lia).
      apply lookup_replicate. split; [done|]. rewrite length_app, !length_replicate. lia.
  - exists (mk_bf named len newCapacity (vec ++ replicate (Z.to_nat (newCapacity - cap)) Nil)).
    assert (bf_ok named len newCapacity (vec ++ replicate (Z.to_nat (newCapacity - cap)) Nil)) as Hok'
      by (split; [done|lia|rewrite length_app, length_replicate; lia|done]).
    split_and!; [by apply Grow_array|by apply m_arrayLengthIfContinuous_mk
      |by apply m_arrayStorageCapacity_mk|..].
    + intros i Hi'. rewrite !GetInVector_mk, lookup_app_l by lia. done.
    + intros i Hi' _. rewrite !GetInVector_mk, lookup_app_r by lia.
      apply lookup_replicate. split; [done|lia].
    + intros k Hk. rewrite GetOutlineStorageIndex_spec by lia.
      rewrite <- (Z2Nat.id k) by lia. by rewrite !GetNamedProperty_mk by lia.
    + done.
Qed.

Lemma butterfly_growth_witness :
  exists b', GrowButterflyKnowingNamedStorageCapacity false
      (Some (mk_bf [Nil; Nil] 1 2 [CreateTrue; Nil])) 2 3 = Some b' /\
    m_arrayStorageCapacity b' = Some 3 /\ GetInVector b' 3 = Some Nil.
Proof.
  destruct (butterfly_growth [Nil; Nil] 1 2 [CreateTrue; Nil] 4 3 false)
    as (b' & E & _ & Hcap & _ & Hnew & _).
  - split; [split; by vm_compute|by vm_compute|done|by vm_compute].
  - lia.
  - split; by vm_compute.
  - exists b'. split_and!; [exact E|exact Hcap|]. apply Hnew; [lia|done].
Defined.
