(* ===== verification/Machine.v ===== *)
(** * Results, the state monad of the heap model, and the user heap

    [Res]: a computation of the runtime either returns, stops the process with
    the diagnostics of [VM_FAIL_IF] or [ReleaseAssert] ([VMFail]), or does
    something the C++ standard or the code's own contract leaves undefined, such
    as an access outside of an allocation or through a null pointer ([UB]).

    The user heap is the bump allocator of [VM::AllocFromUserHeap]; a
    [GeneralHeapPointer] is a heap address shifted right by three. *)

From S2P Require Import Prelude.

Inductive Res (A : Type) : Type :=
| Ok (a : A)
| VMFail
| UB.
Arguments Ok {A}.
Arguments VMFail {A}.
Arguments UB {A}.

Definition M (S A : Type) : Type := S -> Res (A * S).

#[export] Instance M_ret S : MRet (M S) := fun A a s => Ok (a, s).
#[export] Instance M_bind S : MBind (M S) := fun A B f m s =>
  match m s with Ok (a, s') => f a s' | VMFail => VMFail | UB => UB end.

Section monad.
Context {S : Type}.

Definition get_st : M S S := fun s => Ok (s, s).
Definition put_st (s : S) : M S unit := fun _ => Ok (tt, s).
Definition vm_fail {A} : M S A := fun _ => VMFail.
Definition ub {A} : M S A := fun _ => UB.
(** An access that is undefined behaviour when it has no result. *)
Definition access {A} (o : option A) : M S A :=
  fun s => match o with Some a => Ok (a, s) | None => UB end.

Lemma bind_ok {A B} (m : M S A) (f : A -> M S B) s a s' :
  m s = Ok (a, s') -> (m ≫= f) s = f a s'.
Proof. intros E. unfold mbind, M_bind. by rewrite E. Qed.

Lemma bind_fail {A B} (m : M S A) (f : A -> M S B) s : m s = VMFail -> (m ≫= f) s = VMFail.
Proof. intros E. unfold mbind, M_bind. by rewrite E. Qed.

Lemma get_bind {B} (f : S -> M S B) s : (get_st ≫= f) s = f s s.
Proof. done. Qed.

Lemma put_bind {B} s0 (f : unit -> M S B) s : (put_st s0 ≫= f) s = f tt s0.
Proof. done. Qed.

Lemma ret_bind {A B} (a : A) (f : A -> M S B) s : (mret a ≫= f) s = f a s.
Proof. done. Qed.

Lemma access_bind {A B} (o : option A) a (f : A -> M S B) s :
  o = Some a -> (access o ≫= f) s = f a s.
Proof. intros ->. done. Qed.

Lemma bind_assoc {A B C} (m : M S A) (f : A -> M S B) (g : B -> M S C) s :
  ((m ≫= f) ≫= g) s = (m ≫= (fun x => f x ≫= g)) s.
Proof. unfold mbind, M_bind. by destruct (m s) as [[a s']| |]. Qed.
End monad.

(** ** The user heap ([runtime/vm.h], [runtime/vm.cpp], [drt/memory_ptr.h]) *)

Definition x_vmBaseOffset : Z := Z.shiftl 16 30.
Definition x_vmUserHeapSize : Z := Z.shiftl 12 30.

Record UserHeap := mkUserHeap { m_userHeapPtrLimit : Z; m_userHeapCurPtr : Z }.

Definition initUserHeap : UserHeap :=
  mkUserHeap (- (x_vmBaseOffset - x_vmUserHeapSize)) (- (x_vmBaseOffset - x_vmUserHeapSize)).

(** [mmap] is taken to succeed. *)
Definition BumpUserHeap (h : UserHeap) : Res UserHeap :=
  if m_userHeapCurPtr h <? - x_vmBaseOffset then VMFail
  else Ok (mkUserHeap (Z.land (m_userHeapCurPtr h) (Z.lnot (65536 - 1))) (m_userHeapCurPtr h)).

Definition AllocFromUserHeap (length : Z) (h : UserHeap) : Res (Z * UserHeap) :=
  let h := mkUserHeap (m_userHeapPtrLimit h) (m_userHeapCurPtr h - length) in
  if m_userHeapCurPtr h <? m_userHeapPtrLimit h then
    match BumpUserHeap h with
    | Ok h' => Ok (m_userHeapCurPtr h', h')
    | VMFail => VMFail
    | UB => UB
    end
  else Ok (m_userHeapCurPtr h, h).

(** [GeneralHeapPointer(HeapPtr)] and [As()]. *)
Definition x_shiftFromRawOffset : Z := 3.
Definition GeneralHeapPointer (value : Z) : Z := i32 (Z.shiftr value x_shiftFromRawOffset).
Definition GeneralHeapPointer_As (m_value : Z) : Z := Z.shiftl (i64 m_value) x_shiftFromRawOffset.

(** The allocator has handed out addresses of the 12 GB user range only. *)
Definition heap_ok (h : UserHeap) : Prop :=
  - x_vmBaseOffset <= m_userHeapPtrLimit h <= m_userHeapCurPtr h /\
  m_userHeapCurPtr h <= - (x_vmBaseOffset - x_vmUserHeapSize) /\
  m_userHeapCurPtr h mod 8 = 0.

(** The allocation of [length] bytes would leave the user range. *)
Definition heap_exhausted (length : Z) (h : UserHeap) : Prop :=
  m_userHeapCurPtr h - length < - x_vmBaseOffset.

Lemma initUserHeap_ok : heap_ok initUserHeap.
Proof. unfold heap_ok. vm_compute. repeat split; discriminate. Qed.

Lemma page_floor p : - x_vmBaseOffset <= p ->
  - x_vmBaseOffset <= Z.land p (Z.lnot (65536 - 1)) <= p.
Proof.
  intros H. replace (Z.land p (Z.lnot (65536 - 1))) with (p / 65536 * 65536).
  - unfold x_vmBaseOffset in *. change (Z.shiftl 16 30) with (262144 * 65536) in *.
    pose proof (Z.mul_div_le p 65536 ltac:(lia)).
    assert (-262144 <= p / 65536) by (apply Z.div_le_lower_bound; lia). lia.
  - change (65536 - 1) with (Z.ones 16). rewrite <- Z.ldiff_land, Z.ldiff_ones_r by lia.
    rewrite Z.shiftr_div_pow2, Z.shiftl_mul_pow2 by lia. done.
Qed.

(** Allocation returns a fresh, aligned address below every earlier one, or
    fails because the range is exhausted. *)
Lemma AllocFromUserHeap_spec length h : heap_ok h -> 0 < length -> length mod 8 = 0 ->
  (exists p h', AllocFromUserHeap length h = Ok (p, h') /\ heap_ok h' /\
     p = m_userHeapCurPtr h - length /\ m_userHeapCurPtr h' = p) \/
  (AllocFromUserHeap length h = VMFail /\ heap_exhausted length h).
Proof.
  intros (Hl & Hu & Ha) H0 H8. unfold AllocFromUserHeap, BumpUserHeap, heap_exhausted. simpl.
  assert ((m_userHeapCurPtr h - length) mod 8 = 0) as Ha'.
  { rewrite Zminus_mod, Ha, H8. done. }
  destruct (Z.ltb_spec (m_userHeapCurPtr h - length) (m_userHeapPtrLimit h)).
  - destruct (Z.ltb_spec (m_userHeapCurPtr h - length) (- x_vmBaseOffset)); [by right|left].
    eexists _, _. split; [done|]. unfold heap_ok. simpl.
    pose proof (page_floor (m_userHeapCurPtr h - length) ltac:(lia)). split_and!; try done; lia.
  - left. eexists _, _. split; [done|]. unfold heap_ok. simpl. split_and!; try done; lia.
Qed.

(** The pointer of a user-heap object, as stored in an [int32_t], is below -1
    and decodes to the address. *)
Lemma GeneralHeapPointer_user p : - x_vmBaseOffset <= p < - (x_vmBaseOffset - x_vmUserHeapSize) ->
  p mod 8 = 0 ->
  in_i 32 (GeneralHeapPointer p) /\ GeneralHeapPointer p < -1 /\
  GeneralHeapPointer_As (GeneralHeapPointer p) = p.
Proof.
  unfold x_vmBaseOffset, x_vmUserHeapSize, GeneralHeapPointer, GeneralHeapPointer_As,
    x_shiftFromRawOffset.
  change (Z.shiftl 16 30) with 17179869184. change (Z.shiftl 12 30) with 12884901888. intros Hp Ha.
  rewrite !Z.shiftr_div_pow2, Z.shiftl_mul_pow2 by lia. change (2 ^ 3) with 8.
  pose proof (Z.div_mod p 8 ltac:(lia)).
  assert (in_i 32 (p / 8)) as Hr by (unfold in_i; pow2; lia).
  rewrite (wraps_small 32 (p / 8)) by (done || lia).
  rewrite wraps_small by (unfold in_i in *; pow2; lia).
  split_and!; [done|lia..].
Qed.

(** ** Weakest preconditions

    [wp m s Q F]: [m] run from [s] is never undefined, establishes [Q] when it
    returns, and stops the process only if [F]. *)
Definition wp {S A} (m : M S A) (s : S) (Q : A -> S -> Prop) (F : Prop) : Prop :=
  match m s with Ok (a, s') => Q a s' | VMFail => F | UB => False end.

Section wp.
Context {S : Type}.
Implicit Types (F : Prop) (s : S).

Lemma wp_bind {A B} (m : M S A) (f : A -> M S B) s Q F :
  wp m s (fun a s' => wp (f a) s' Q F) F -> wp (m ≫= f) s Q F.
Proof. unfold wp, mbind, M_bind. by destruct (m s) as [[a s']| |]. Qed.

Lemma wp_ret {A} (a : A) s (Q : A -> S -> Prop) F : Q a s -> wp (mret a) s Q F.
Proof. done. Qed.

Lemma wp_get s (Q : S -> S -> Prop) F : Q s s -> wp get_st s Q F.
Proof. done. Qed.

Lemma wp_put s s' (Q : unit -> S -> Prop) F : Q tt s' -> wp (put_st s') s Q F.
Proof. done. Qed.

Lemma wp_fail {A} s (Q : A -> S -> Prop) (F : Prop) : F -> wp vm_fail s Q F.
Proof. done. Qed.

Lemma wp_access {A} (o : option A) a s (Q : A -> S -> Prop) F :
  o = Some a -> Q a s -> wp (access o) s Q F.
Proof. by intros ->. Qed.

Lemma wp_mono {A} (m : M S A) s (Q Q' : A -> S -> Prop) (F F' : Prop) :
  wp m s Q F -> (forall a s', Q a s' -> Q' a s') -> (F -> F') -> wp m s Q' F'.
Proof. unfold wp. destruct (m s) as [[a s']| |]; auto. Qed.

Lemma wp_cases {A} (m : M S A) s Q F : wp m s Q F ->
  (exists a s', m s = Ok (a, s') /\ Q a s') \/ (m s = VMFail /\ F).
Proof. unfold wp. destruct (m s) as [[a s']| |]; [left; eauto|by right|done]. Qed.

(** A program that cannot stop the process returns. *)
Lemma wp_returns {A} (m : M S A) s Q : wp m s Q False -> exists a s', m s = Ok (a, s') /\ Q a s'.
Proof. unfold wp. destruct (m s) as [[a s']| |]; [eauto|done..]. Qed.
End wp.
