(* ===== verification/HiddenClass.v ===== *)
(** * What a table needs to know about hidden classes

    The interface between [TableObject] (the client) and [Structure] /
    [CacheableDictionary] (the implementations): the queries a table makes on
    its hidden class and the one transition of the array part,
    [Structure::UpdateArrayType].  [HiddenClassOps] are the operations,
    [HiddenClassLaws] what the client relies on. *)

From S2P Require Import Prelude Machine TValue ArrayType Butterfly.

(** The two kinds of hidden class the code implements. *)
Inductive HcKind := HcStructure | HcCacheableDictionary.

#[export] Instance HcKind_eq_dec : EqDecision HcKind.
Proof. solve_decision. Defined.

(** [Hc] is the system heap with all hidden classes; a hidden class is named by
    its system-heap pointer. *)
Class HiddenClassOps (Hc : Type) := {
  hc_kind : Hc -> Z -> HcKind;
  hc_arrayType : Hc -> Z -> Z;
  hc_butterflyNamedStorageCapacity : Hc -> Z -> Z;
  UpdateArrayType : Hc -> Z -> Z -> Res (Z * Hc)
}.

Class HiddenClassLaws (Hc : Type) `{HiddenClassOps Hc} := {
  (** [hc_live h s]: [s] is a hidden class of the heap [h]. *)
  hc_live : Hc -> Z -> Prop;
  hc_named_range h s : hc_live h s ->
    0 <= hc_butterflyNamedStorageCapacity h s <= x_maxNamedStorageCapacity;
  (** The transition to an array type with the same metatable bit makes or finds a
      structure with the new array type and the same property part, and disturbs
      no existing hidden class. *)
  UpdateArrayType_spec h s t : hc_live h s -> hc_kind h s = HcStructure ->
    t <> hc_arrayType h s -> 0 <= t <= 63 -> MayHaveMetatable t = MayHaveMetatable (hc_arrayType h s) ->
    UpdateArrayType h s t = VMFail \/
    exists s' h', UpdateArrayType h s t = Ok (s', h') /\
      hc_live h' s' /\ hc_kind h' s' = HcStructure /\ hc_arrayType h' s' = t /\
      hc_butterflyNamedStorageCapacity h' s' = hc_butterflyNamedStorageCapacity h s /\
      (forall s0, hc_live h s0 -> hc_live h' s0 /\ hc_kind h' s0 = hc_kind h s0 /\
         hc_arrayType h' s0 = hc_arrayType h s0 /\
         hc_butterflyNamedStorageCapacity h' s0 = hc_butterflyNamedStorageCapacity h s0)
}.
