(* ===== verification/TableObject.v ===== *)
(** * The array part of tables ([class TableObject], [runtime/table_object.h])

    The model of the operations: state, reads, the two fast paths and the slow
    path of an indexed write.  The state is the table together with the parts of
    the VM it touches (user heap, sparse maps, hidden classes); the operations
    are programs of the state monad of [Machine], written in the order of the
    C++ statements.  The theorems are in [TableArray]. *)

From S2P Require Import Prelude Double TValue BitField ArrayType Butterfly SparseMap Machine HiddenClass.

(** ** Inline-cache records ([GetByIntegerIndexICInfo] is in [ArrayType]) *)

Module PutByIntegerIndexICInfo.
Inductive IndexCheckKind := ForceSlowPath | NoArrayPart | InBound | Continuous.
Inductive ValueCheckKind := Int32 | Int32OrNil | Double | DoubleOrNil | NotNil | NoCheck.
Record t := mk {
  m_indexCheckKind : IndexCheckKind;
  m_valueCheckKind : ValueCheckKind;
  m_mayHaveMetatable : bool;
  m_hiddenClass : Z;
  m_newArrayType : Z;
  m_newHiddenClass : Z
}.
End PutByIntegerIndexICInfo.
Import PutByIntegerIndexICInfo (ForceSlowPath, NoArrayPart, InBound, Continuous).
Notation IndexCheckKind := PutByIntegerIndexICInfo.IndexCheckKind.
Notation ValueCheckKind := PutByIntegerIndexICInfo.ValueCheckKind.

(** ** State *)

Record TableObject := mkTable {
  m_hiddenClass : Z;
  m_arrayType : Z;
  m_butterfly : option Butterfly;   (* [None]: [nullptr] *)
  m_inlineStorage : list Z
}.

(** The state an operation on one table sees: the table, the user heap with the
    sparse maps by address, and the hidden classes. *)
Record St (Hc : Type) := mkSt {
  st_table : TableObject;
  st_hc : Hc;
  st_heap : UserHeap;
  st_sparse : gmap Z ArraySparseMap
}.
Arguments mkSt {Hc}.
Arguments st_table {Hc}.
Arguments st_hc {Hc}.
Arguments st_heap {Hc}.
Arguments st_sparse {Hc}.

Section table.
Context {Hc : Type} `{HiddenClassOps Hc} (XXH3_64bits : Z -> Z).
Notation St := (St Hc).
Notation M := (M St).

Definition get_table : M TableObject := s ← get_st; mret (st_table s).
Definition set_table (t : TableObject) : M unit :=
  s ← get_st; put_st (mkSt t (st_hc s) (st_heap s) (st_sparse s)).
Definition set_hc (h : Hc) : M unit :=
  s ← get_st; put_st (mkSt (st_table s) h (st_heap s) (st_sparse s)).

(** Reads and writes through [m_butterfly]; a null pointer is undefined. *)
Definition on_butterfly {A} (f : Butterfly -> option A) : M A :=
  t ← get_table; access (b ← m_butterfly t; f b).
Definition set_butterfly (b : Butterfly) : M unit :=
  t ← get_table;
  set_table (mkTable (m_hiddenClass t) (m_arrayType t) (Some b) (m_inlineStorage t)).
Definition update_butterfly (f : Butterfly -> option Butterfly) : M unit :=
  b ← on_butterfly f; set_butterfly b.

Definition set_arrayType (a : Z) : M unit :=
  t ← get_table; set_table (mkTable (m_hiddenClass t) a (m_butterfly t) (m_inlineStorage t)).
Definition set_hiddenClass (c : Z) : M unit :=
  t ← get_table; set_table (mkTable c (m_arrayType t) (m_butterfly t) (m_inlineStorage t)).

(** ** Reads *)

(** [QueryArraySparseMap]. *)
Definition QueryArraySparseMap (idx : Z) : M Z :=
  len ← on_butterfly m_arrayLengthIfContinuous;
  s ← get_st;
  sparseMap ← access (st_sparse s !! GeneralHeapPointer_As len);
  access (GetByVal XXH3_64bits sparseMap idx).

(** [TryAccessIndexInVectorStorage]: [None] is [isSuccess = false]. *)
Definition TryAccessIndexInVectorStorage (idx : Z) : M (option Z) :=
  cap ← on_butterfly m_arrayStorageCapacity;
  if ButterflyHeader.IndexFitsInVectorCapacity cap idx then
    res ← on_butterfly (fun b => GetInVector b idx);
    mret (Some res)
  else mret None.

(** [CheckIndexFitsInContinuousArray]. *)
Definition CheckIndexFitsInContinuousArray (idx : Z) : M bool :=
  len ← on_butterfly m_arrayLengthIfContinuous;
  mret (ButterflyHeader.CanUseFastPathGetForContinuousArray len idx).

Definition GetByIntegerIndex (idx : Z) (icInfo : GetByIntegerIndexICInfo.t) : M Z :=
  if bool_decide (GetByIntegerIndexICInfo.m_icKind icInfo = GetByIntegerIndexICInfo.NoArrayPart)
  then mret Nil
  else
    r ← TryAccessIndexInVectorStorage idx;
    match r with
    | Some res => mret res
    | None =>
        match GetByIntegerIndexICInfo.m_icKind icInfo with
        | GetByIntegerIndexICInfo.VectorStorage => mret Nil
        | GetByIntegerIndexICInfo.NoArrayPart => ub
        | GetByIntegerIndexICInfo.VectorStorageXorSparseMap =>
            if (idx <? x_arrayBaseOrd) || (x_unconditionallySparseMapCutoff <? idx)
            then QueryArraySparseMap (double_of_int idx)
            else mret Nil
        | GetByIntegerIndexICInfo.VectorStorageOrSparseMap =>
            QueryArraySparseMap (double_of_int idx)
        end
    end.

Definition GetByInt32Val (idx : Z) (icInfo : GetByIntegerIndexICInfo.t) : M Z :=
  GetByIntegerIndex idx icInfo.

Definition GetByDoubleVal (idx : Z) (icInfo : GetByIntegerIndexICInfo.t) : M Z :=
  match IsInt64Index idx with
  | Some idx64 => GetByIntegerIndex idx64 icInfo
  | None =>
      match GetByIntegerIndexICInfo.m_icKind icInfo with
      | GetByIntegerIndexICInfo.VectorStorageOrSparseMap
      | GetByIntegerIndexICInfo.VectorStorageXorSparseMap => QueryArraySparseMap idx
      | _ => mret Nil
      end
  end.

(** ** Growing the butterfly *)

Definition GrowButterfly (isGrowNamedStorage : bool) (newCapacity : Z) : M unit :=
  s ← get_st;
  let t := st_table s in
  let oldNamedStorageCapacity := hc_butterflyNamedStorageCapacity (st_hc s) (m_hiddenClass t) in
  b ← access (GrowButterflyKnowingNamedStorageCapacity isGrowNamedStorage (m_butterfly t)
                oldNamedStorageCapacity newCapacity);
  set_butterfly b.

(** ** Sparse map *)

(** [sizeof(ArraySparseMap)]. *)
Definition sizeof_ArraySparseMap : Z := 24.

(** Returns the address of the new map. *)
Definition AllocateNewArraySparseMap : M Z :=
  s ← get_st;
  match AllocFromUserHeap sizeof_ArraySparseMap (st_heap s) with
  | Ok (hp, heap) =>
      put_st (mkSt (st_table s) (st_hc s) heap (<[hp := AllocateEmptyArraySparseMap]> (st_sparse s)));;
      update_butterfly (fun b => set_arrayLengthIfContinuous b (GeneralHeapPointer hp));;
      mret hp
  | VMFail => vm_fail
  | UB => ub
  end.

Definition GetOrAllocateSparseMap : M Z :=
  t ← get_table;
  match m_butterfly t with
  | None =>
      b ← access (GrowButterflyFromNull false 0);
      set_butterfly b;;
      AllocateNewArraySparseMap
  | Some b =>
      len ← access (m_arrayLengthIfContinuous b);
      if ButterflyHeader.HasSparseMap len then mret (GeneralHeapPointer_As len)
      else AllocateNewArraySparseMap
  end.

(** The tail shared by [PutByIntegerIndexSlow] and [PutIndexIntoSparseMap]: the
    update of [m_arrayType] and, for a structure, of [m_hiddenClass]. *)
Definition update_array_type (newArrayType : Z) : M unit :=
  s ← get_st;
  let t := st_table s in
  if m_arrayType t =? newArrayType then mret tt
  else
    if bool_decide (hc_kind (st_hc s) (m_hiddenClass t) = HcStructure) then
      match UpdateArrayType (st_hc s) (m_hiddenClass t) newArrayType with
      | Ok (newStructure, h) =>
          set_hc h;; set_hiddenClass newStructure;; set_arrayType newArrayType
      | VMFail => vm_fail
      | UB => ub
      end
    else set_arrayType newArrayType.

Definition IsVectorQualifyingIndex (index : Z) : bool :=
  match IsInt64Index index with
  | Some idx64 => (x_arrayBaseOrd <=? idx64) && (idx64 <=? x_unconditionallySparseMapCutoff)
  | None => false
  end.

(** [sparseMap->Insert(index, value)] on the map at [ptr]; the [ReleaseAssert]
    of [ResizeImpl] stops the process. *)
Definition insert_sparse (ptr index value : Z) : M unit :=
  s ← get_st;
  sparseMap ← access (st_sparse s !! ptr);
  match Insert XXH3_64bits sparseMap index value with
  | Some m => put_st (mkSt (st_table s) (st_hc s) (st_heap s) (<[ptr := m]> (st_sparse s)))
  | None => vm_fail
  end.

(** The array type after a put into the sparse map. *)
Definition sparseArrayType (isVectorQualifyingIndex : bool) (arrType : Z) : Z :=
  let newArrayType := SetHasSparseMap arrType true in
  let newArrayType := if isVectorQualifyingIndex
    then SetSparseMapContainsVectorIndex newArrayType true else newArrayType in
  let newArrayType := SetIsContinuous newArrayType false in
  SetArrayKind newArrayType Any.

Definition PutIndexIntoSparseMap (isVectorQualifyingIndex : bool) (index value : Z) : M unit :=
  t ← get_table;
  let newArrayType := sparseArrayType isVectorQualifyingIndex (m_arrayType t) in
  sparseMap ← GetOrAllocateSparseMap;
  insert_sparse sparseMap index value;;
  update_array_type newArrayType.

(** ** The slow path of an indexed write *)

(** [std::max(newCapacity, (uint32_t)(index + 1 - x_arrayBaseOrd))]. *)
Definition at_least_index (newCapacity index : Z) : Z :=
  Z.max newCapacity (u32 (index + 1 - x_arrayBaseOrd)).

(** Array kind of a table that has no array part when [value] is put. *)
Definition initialKind (value : Z) : Kind :=
  if IsInt32 value then Int32 else if IsDouble value then Double else Any.

(** The branch [ArrayKind() == NoButterflyArrayPart].  Like the other branches it
    returns the new array type, or [None] when the put is already complete. *)
Definition PutSlow_NoArrayPart (index value arrType : Z) : M (option Z) :=
  if IsNil value then mret None
  else if x_alwaysVectorCutoff <? index then
    PutIndexIntoSparseMap true (double_of_int index) value;; mret None
  else
    t ← get_table;
    needToGrowOrCreateButterfly ←
      match m_butterfly t with
      | None => mret true
      | Some b =>
          currentCapacity ← access (m_arrayStorageCapacity b);
          mret (currentCapacity + x_arrayBaseOrd <=? index)
      end;
    (if (needToGrowOrCreateButterfly : bool)
     then GrowButterfly false (at_least_index x_initialVectorPartCapacity index) else mret tt);;
    (if index =? x_arrayBaseOrd
     then update_butterfly (fun b => set_arrayLengthIfContinuous b 1)
     else update_butterfly (fun b => set_arrayLengthIfContinuous b (-1)));;
    mret (Some (SetArrayKind (SetIsContinuous arrType (index =? x_arrayBaseOrd)) (initialKind value))).

(** The loop counting the non-nil elements of the vector. *)
Fixpoint countNonNil (b : Butterfly) (i : Z) (n : nat) (nonNilCount : Z) : option Z :=
  match n with
  | O => Some nonNilCount
  | S n' =>
      v ← GetInVector b i;
      countNonNil b (i + 1) n' (if IsNil v then nonNilCount else u64 (nonNilCount + 1))
  end.

(** Whether an out-of-bound put goes to the sparse map. *)
Definition shouldPutToSparseMap (b : Butterfly) (index currentCapacity newCapacity : Z)
    (isContinuous : bool) : option bool :=
  if x_sparseMapUnlessContinuousCutoff <? index then Some (negb isContinuous)
  else if x_alwaysVectorCutoff <? index then
    nonNilCount ← countNonNil b x_arrayBaseOrd (Z.to_nat currentCapacity) 1;
    Some (u64 (nonNilCount * x_densityCutoff) <? newCapacity)
  else Some false.

(** [index >= currentCapacity + x_arrayBaseOrd]: grow, or go to the sparse map. *)
Definition PutSlow_OutOfBound (index value arrType currentCapacity : Z) : M (option Z) :=
  if SparseMapContainsVectorIndex arrType then
    PutIndexIntoSparseMap true (double_of_int index) value;; mret None
  else if IsNil value then mret None
  else
    let newCapacity := u32 (currentCapacity * x_vectorGrowthFactor) in
    let newCapacity := Z.min newCapacity (u32 x_unconditionallySparseMapCutoff) in
    let newCapacity := at_least_index newCapacity index in
    len ← on_butterfly m_arrayLengthIfContinuous;
    let isContinuous := IsContinuous arrType && (index =? len + x_arrayBaseOrd) in
    toSparse ← on_butterfly (fun b =>
      shouldPutToSparseMap b index currentCapacity newCapacity isContinuous);
    if (toSparse : bool) then
      PutIndexIntoSparseMap true (double_of_int index) value;; mret None
    else
      GrowButterfly false newCapacity;;
      (if isContinuous then
         len ← on_butterfly m_arrayLengthIfContinuous;
         update_butterfly (fun b => set_arrayLengthIfContinuous b (i32 (len + 1)))
       else if IsContinuous arrType then
         update_butterfly (fun b => set_arrayLengthIfContinuous b (-1))
       else mret tt);;
      mret (Some (SetIsContinuous arrType isContinuous)).

(** The put is inside the vector's capacity. *)
Definition PutSlow_InBound (index value arrType : Z) : M (option Z) :=
  if IsContinuous arrType then
    len ← on_butterfly m_arrayLengthIfContinuous;
    let continuousLength := i32 (len + x_arrayBaseOrd) in
    if IsNil value then
      if continuousLength <=? index then mret None
      else if index =? continuousLength - 1 then
        update_butterfly (fun b =>
          set_arrayLengthIfContinuous b (continuousLength - 1 - x_arrayBaseOrd));;
        mret (Some (SetIsContinuous arrType true))
      else
        update_butterfly (fun b => set_arrayLengthIfContinuous b (-1));;
        mret (Some (SetIsContinuous arrType false))
    else
      if continuousLength <? index then
        update_butterfly (fun b => set_arrayLengthIfContinuous b (-1));;
        mret (Some (SetIsContinuous arrType false))
      else
        (if index =? continuousLength then
           update_butterfly (fun b =>
             set_arrayLengthIfContinuous b (continuousLength + 1 - x_arrayBaseOrd))
         else mret tt);;
        mret (Some (SetIsContinuous arrType true))
  else mret (Some (SetIsContinuous arrType false)).

(** The update of [ArrayKind] for a table that has an array part. *)
Definition widenKind (arrType newArrayType value : Z) : Z :=
  match ArrayKind arrType with
  | Int32 =>
      if negb (IsInt32 value) && negb (IsNil value) then SetArrayKind newArrayType Any else newArrayType
  | Double =>
      if negb (IsDouble value) && negb (IsNil value) then SetArrayKind newArrayType Any else newArrayType
  | _ => newArrayType
  end.

(** The decision part of the slow path (points 1 to 5 of its comment). *)
Definition PutSlow_decide (index value : Z) : M (option Z) :=
  t ← get_table;
  let arrType := m_arrayType t in
  if bool_decide (ArrayKind arrType = NoButterflyArrayPart) then
    PutSlow_NoArrayPart index value arrType
  else
    currentCapacity ← on_butterfly m_arrayStorageCapacity;
    r ← (if currentCapacity + x_arrayBaseOrd <=? index
         then PutSlow_OutOfBound index value arrType currentCapacity
         else PutSlow_InBound index value arrType);
    mret ((fun newArrayType => widenKind arrType newArrayType value) <$> r).

Definition PutByIntegerIndexSlow (index64 value : Z) : M unit :=
  if (index64 <? x_arrayBaseOrd) || (x_unconditionallySparseMapCutoff <? index64) then
    PutIndexIntoSparseMap false (double_of_int index64) value
  else
    let index := i32 index64 in
    r ← PutSlow_decide index value;
    match r with
    | None => mret tt
    | Some newArrayType =>
        update_butterfly (fun b => SetInVector b index value);;
        update_array_type newArrayType
    end.

(** ** The fast paths *)

Definition CheckValueMeetsPreconditionForPutByIntegerIndexFastPath
    (valueToPut : Z) (valueCheckKind : ValueCheckKind) : bool :=
  match valueCheckKind with
  | PutByIntegerIndexICInfo.Int32 => IsInt32 valueToPut
  | PutByIntegerIndexICInfo.Int32OrNil => IsInt32 valueToPut || IsNil valueToPut
  | PutByIntegerIndexICInfo.Double => IsDouble valueToPut
  | PutByIntegerIndexICInfo.DoubleOrNil => IsDouble valueToPut || IsNil valueToPut
  | PutByIntegerIndexICInfo.NotNil => negb (IsNil valueToPut)
  | PutByIntegerIndexICInfo.NoCheck => true
  end.

Definition TryPutByIntegerIndexFastPath_ContinuousArray (index value : Z) : M bool :=
  len ← on_butterfly m_arrayLengthIfContinuous;
  if ButterflyHeader.CanUseFastPathGetForContinuousArray len index then
    update_butterfly (fun b => SetInVector b index value);; mret true
  else if index =? len + x_arrayBaseOrd then
    cap ← on_butterfly m_arrayStorageCapacity;
    if index =? cap + x_arrayBaseOrd then mret false
    else
      update_butterfly (fun b => SetInVector b index value);;
      update_butterfly (fun b => set_arrayLengthIfContinuous b (i32 (index + 1 - x_arrayBaseOrd)));;
      mret true
  else mret false.

Definition TryPutByIntegerIndexFastPath_InBoundPut (index value : Z) : M bool :=
  cap ← on_butterfly m_arrayStorageCapacity;
  if ButterflyHeader.IndexFitsInVectorCapacity cap index then
    update_butterfly (fun b => SetInVector b index value);; mret true
  else mret false.

(** Value check of a continuous array and of a non-continuous one. *)
Definition continuousCheck (k : Kind) : ValueCheckKind :=
  match k with
  | Int32 => PutByIntegerIndexICInfo.Int32
  | Double => PutByIntegerIndexICInfo.Double
  | _ => PutByIntegerIndexICInfo.NotNil
  end.
Definition inBoundCheck (k : Kind) : ValueCheckKind :=
  match k with
  | Int32 => PutByIntegerIndexICInfo.Int32OrNil
  | Double => PutByIntegerIndexICInfo.DoubleOrNil
  | _ => PutByIntegerIndexICInfo.NoCheck
  end.

(** [setNewHiddenClassAndArrayType] of [PreparePutByIntegerIndex]. *)
Definition setNewHiddenClassAndArrayType (arrType : Z) (vck : ValueCheckKind) (newKind : Kind)
    : M PutByIntegerIndexICInfo.t :=
  s ← get_st;
  let newArrType := SetIsContinuous (SetArrayKind arrType newKind) true in
  let hc := m_hiddenClass (st_table s) in
  let info := PutByIntegerIndexICInfo.mk NoArrayPart vck (MayHaveMetatable arrType) hc newArrType in
  if bool_decide (hc_kind (st_hc s) hc = HcStructure) then
    match UpdateArrayType (st_hc s) hc newArrType with
    | Ok (newStructure, h) => set_hc h;; mret (info newStructure)
    | VMFail => vm_fail
    | UB => ub
    end
  else mret (info hc).

(** The fields [m_hiddenClass], [m_newArrayType] and [m_newHiddenClass] are only
    filled for [NoArrayPart]; the model has zeroes otherwise. *)
Definition PreparePutByIntegerIndex (index value : Z) : M PutByIntegerIndexICInfo.t :=
  t ← get_table;
  let arrType := m_arrayType t in
  let plain ick vck := PutByIntegerIndexICInfo.mk ick vck (MayHaveMetatable arrType) 0 0 0 in
  let forceSlowPath := plain ForceSlowPath PutByIntegerIndexICInfo.NoCheck in
  if index <? x_arrayBaseOrd then mret forceSlowPath
  else if bool_decide (ArrayKind arrType = NoButterflyArrayPart) then
    if negb (index =? x_arrayBaseOrd) then mret forceSlowPath
    else if IsInt32 value then setNewHiddenClassAndArrayType arrType PutByIntegerIndexICInfo.Int32 Int32
    else if IsDouble value then setNewHiddenClassAndArrayType arrType PutByIntegerIndexICInfo.Double Double
    else if negb (IsNil value) then setNewHiddenClassAndArrayType arrType PutByIntegerIndexICInfo.NotNil Any
    else mret forceSlowPath
  else if IsContinuous arrType then mret (plain Continuous (continuousCheck (ArrayKind arrType)))
  else mret (plain InBound (inBoundCheck (ArrayKind arrType))).

Definition TryPutByIntegerIndexFast (index value : Z) (icInfo : PutByIntegerIndexICInfo.t) : M bool :=
  if negb (CheckValueMeetsPreconditionForPutByIntegerIndexFastPath value
             (PutByIntegerIndexICInfo.m_valueCheckKind icInfo)) then mret false
  else
    match PutByIntegerIndexICInfo.m_indexCheckKind icInfo with
    | Continuous => TryPutByIntegerIndexFastPath_ContinuousArray index value
    | InBound => TryPutByIntegerIndexFastPath_InBoundPut index value
    | NoArrayPart =>
        t ← get_table;
        match m_butterfly t with
        | None => mret false
        | Some b =>
            if negb (index =? x_arrayBaseOrd) then mret false
            else
              cap ← access (m_arrayStorageCapacity b);
              if 0 <? cap then
                update_butterfly (fun b => SetInVector b x_arrayBaseOrd value);;
                update_butterfly (fun b => set_arrayLengthIfContinuous b 1);;
                set_arrayType (PutByIntegerIndexICInfo.m_newArrayType icInfo);;
                set_hiddenClass (PutByIntegerIndexICInfo.m_newHiddenClass icInfo);;
                mret true
              else mret false
        end
    | ForceSlowPath => mret false
    end.

(** [TryPutByValIntegerIndexFastNoIC]. *)
Definition TryPutByValIntegerIndexFastNoIC (index value : Z) : M bool :=
  t ← get_table;
  let arrType := m_arrayType t in
  if IsContinuous arrType then
    if CheckValueMeetsPreconditionForPutByIntegerIndexFastPath value (continuousCheck (ArrayKind arrType))
    then TryPutByIntegerIndexFastPath_ContinuousArray index value else mret false
  else if bool_decide (ArrayKind arrType = NoButterflyArrayPart) then mret false
  else
    if CheckValueMeetsPreconditionForPutByIntegerIndexFastPath value (inBoundCheck (ArrayKind arrType))
    then TryPutByIntegerIndexFastPath_InBoundPut index value else mret false.

Definition RawPutByValIntegerIndex (index value : Z) : M unit :=
  ok ← TryPutByValIntegerIndexFastNoIC index value;
  if (ok : bool) then mret tt else PutByIntegerIndexSlow index value.

Definition RawPutByValDoubleIndex (index value : Z) : M unit :=
  match IsInt64Index index with
  | Some idx64 => RawPutByValIntegerIndex idx64 value
  | None => PutIndexIntoSparseMap false index value
  end.

(** What an indexed write with an inline cache does: prepare, try the fast path,
    fall back to the slow path. *)
Definition PutByIntegerIndexWithIC (index value : Z) : M unit :=
  icInfo ← PreparePutByIntegerIndex index value;
  ok ← TryPutByIntegerIndexFast index value icInfo;
  if (ok : bool) then mret tt else PutByIntegerIndexSlow index value.

(** ** Cloning ([CloneButterfly]) *)

Definition CloneButterfly (butterflyNamedStorageCapacity : Z) : M Butterfly :=
  copy ← on_butterfly (fun b => CloneWords b butterflyNamedStorageCapacity);
  len ← access (m_arrayLengthIfContinuous copy);
  if ButterflyHeader.HasSparseMap len then
    s ← get_st;
    oldSparseMap ← access (st_sparse s !! GeneralHeapPointer_As len);
    match AllocFromUserHeap sizeof_ArraySparseMap (st_heap s) with
    | Ok (hp, heap) =>
        put_st (mkSt (st_table s) (st_hc s) heap (<[hp := Clone oldSparseMap]> (st_sparse s)));;
        access (set_arrayLengthIfContinuous copy (GeneralHeapPointer hp))
    | VMFail => vm_fail
    | UB => ub
    end
  else mret copy.

(** ** Creating a table ([CreateEmptyTableObjectImpl]) *)

(** [sizeof(TableObject)] and the inline slots. *)
Definition ComputeObjectAllocationSize (inlineCapacity : Z) : Z := u32 (16 + inlineCapacity * 8).

(** The new table is at the returned address; the state is focused on it. *)
Definition CreateEmptyTableObjectImpl (h : Hc) (heap : UserHeap) (sparse : gmap Z ArraySparseMap)
    (emptyStructure inlineCapacity initialButterflyArrayPartCapacity : Z) : Res (Z * St) :=
  match AllocFromUserHeap (ComputeObjectAllocationSize inlineCapacity) heap with
  | Ok (r, heap') =>
      let table b := mkTable emptyStructure GetInitialArrayType b
                       (replicate (Z.to_nat inlineCapacity) Nil) in
      if 0 <? initialButterflyArrayPartCapacity then
        match GrowButterflyFromNull false initialButterflyArrayPartCapacity with
        | Some b => Ok (r, mkSt (table (Some b)) h heap' sparse)
        | None => UB
        end
      else Ok (r, mkSt (table None) h heap' sparse)
  | VMFail => VMFail
  | UB => UB
  end.
End table.
