(* ===== verification/TableArray.v ===== *)
(** * Correctness of the array part of tables

    The abstract content of a table is a map from numbers (up to [==]) to
    values.  [inv] is the representation invariant that the code relies on
    (array type, header word, vector and sparse map agree).  The operations of
    [TableObject] are proved to read and update that map, on every path, from
    any state that satisfies the invariant and with any implementation of the
    hidden-class interface. *)

From S2P Require Import Prelude Double TValue BitField ArrayType Butterfly SparseMap Machine HiddenClass TableObject.
Import PutByIntegerIndexICInfo (ForceSlowPath, NoArrayPart, InBound, Continuous).

(** ** The array-type byte *)

#[export] Hint Resolve useful_SetArrayKind useful_SetHasSparseMap useful_SetVec
  useful_SetIsContinuous : words.

(** Writing back the value a field has. *)
Lemma SetIsContinuous_id t : useful t -> SetIsContinuous t (IsContinuous t) = t.
Proof.
  intros Ht. apply Z.eqb_eq.
  refine (useful_checked (fun t => SetIsContinuous t (IsContinuous t) =? t) _ t Ht). by vm_compute.
Qed.

(** ** Abstract content *)

(** What a vector of capacity [cap] and a sparse map with content [sc] say about
    a key: the vector decides the integers of its range. *)
Definition cont_of (cap : Z) (vec : list Z) (sc : Z -> Z) (key : Z) : Z :=
  match IsInt64Index key with
  | Some i => if (1 <=? i) && (i <=? cap) then default Nil (vec !! Z.to_nat (i - 1)) else sc key
  | None => sc key
  end.

(** A key that is an integer of the vector's range. *)
Definition in_vector (cap key : Z) : bool :=
  match IsInt64Index key with Some i => (1 <=? i) && (i <=? cap) | None => false end.

Definition no_sparse (key : Z) : Z := Nil.

Section content.
Implicit Types (sc : Z -> Z) (vec : list Z).

Lemma index_bound i : 1 <= i <= x_unconditionallySparseMapCutoff -> Z.abs i < 2 ^ 53 /\ in_i 64 i.
Proof. unfold x_unconditionallySparseMapCutoff, in_i. pow2. lia. Qed.

(** A key equal to the double of an index is that index. *)
Lemma feq_index i k : Z.abs i < 2 ^ 53 ->
  UnsafeFloatEqual (double_of_int i) k = true <-> IsInt64Index k = Some i.
Proof.
  intros Hi. split; intros E.
  - assert (feq (double_of_int i) k) as F by done.
    rewrite <- (IsInt64Index_int i Hi). by symmetry; apply IsInt64Index_proper.
  - apply IsInt64Index_Some in E as (_ & E & _). done.
Qed.

Lemma cont_of_sc_ext cap vec sc sc' k : (in_vector cap k = false -> sc k = sc' k) ->
  cont_of cap vec sc k = cont_of cap vec sc' k.
Proof.
  unfold cont_of, in_vector. intros E. destruct (IsInt64Index k) as [j|]; [|by apply E].
  destruct (_ && _); [done|by apply E].
Qed.

(** Growing by nils and writing one element. *)
Lemma cont_put_vec cap cap' vec sc i v k : length vec = Z.to_nat cap -> 0 <= cap <= cap' ->
  cap' <= x_unconditionallySparseMapCutoff -> 1 <= i <= cap' ->
  (forall key, in_vector cap' key = true -> in_vector cap key = false -> sc key = Nil) ->
  cont_of cap' (<[Z.to_nat (i - 1) := v]> (vec ++ replicate (Z.to_nat (cap' - cap)) Nil)) sc k
  = if UnsafeFloatEqual (double_of_int i) k then v else cont_of cap vec sc k.
Proof.
  intros Hl Hc Hm Hi Hs. destruct (index_bound i ltac:(lia)) as [Hi53 _].
  unfold cont_of, in_vector in *. destruct (UnsafeFloatEqual (double_of_int i) k) eqn:E.
  - apply (feq_index i k Hi53) in E. rewrite E.
    rewrite (proj2 (Z.leb_le 1 i)), (proj2 (Z.leb_le i cap')) by lia. simpl.
    rewrite list_lookup_insert_eq; [done|]. rewrite length_app, length_replicate. lia.
  - specialize (Hs k). destruct (IsInt64Index k) as [j|] eqn:Ej; [|done].
    assert (i <> j) as Hne by (intros ->; apply (feq_index j k Hi53) in Ej; congruence).
    destruct (Z.leb_spec 1 j), (Z.leb_spec j cap'), (Z.leb_spec j cap); simpl in *; try lia; try done.
    + rewrite list_lookup_insert_ne, lookup_app_l by lia. done.
    + rewrite list_lookup_insert_ne, lookup_app_r by lia.
      rewrite lookup_replicate_2 by lia. simpl. by rewrite Hs.
Qed.

Lemma cont_put_inbound cap vec sc i v k : length vec = Z.to_nat cap -> 1 <= i <= cap ->
  cap <= x_unconditionallySparseMapCutoff ->
  cont_of cap (<[Z.to_nat (i - 1) := v]> vec) sc k
  = if UnsafeFloatEqual (double_of_int i) k then v else cont_of cap vec sc k.
Proof.
  intros Hl Hi Hc. rewrite <- (cont_put_vec cap cap) by (done || lia || congruence).
  by rewrite Z.sub_diag, app_nil_r.
Qed.

Lemma cont_put_sparse cap vec sc sc' key v k : in_vector cap key = false ->
  (forall k, sc' k = if UnsafeFloatEqual key k then v else sc k) ->
  cont_of cap vec sc' k = if UnsafeFloatEqual key k then v else cont_of cap vec sc k.
Proof.
  intros Hv Hs. unfold cont_of, in_vector in *. rewrite Hs.
  destruct (UnsafeFloatEqual key k) eqn:E.
  - rewrite (IsInt64Index_proper key k E) in Hv. destruct (IsInt64Index k) as [j|]; [|done].
    by rewrite Hv.
  - by destruct (IsInt64Index k) as [j|].
Qed.

Lemma cont_of_nil vec k : Forall (fun x => x = Nil) vec -> forall cap, cont_of cap vec no_sparse k = Nil.
Proof.
  intros Hv cap. unfold cont_of. destruct (IsInt64Index k) as [j|]; [|done].
  destruct (_ && _); [|done]. destruct (vec !! _) as [x|] eqn:E; [|done].
  rewrite Forall_lookup in Hv. by apply Hv in E.
Qed.
End content.

(** ** Representation invariant *)

(** The elements agree with the array kind. *)
Definition kind_ok (k : Kind) (vec : list Z) : Prop :=
  match k with
  | Int32 => Forall (fun x => IsInt32 x || IsNil x = true) vec
  | Double => Forall (fun x => IsDouble x || IsNil x = true) vec
  | _ => True
  end.

(** The array type of a table that has no array part. *)
Definition no_array (at_ : Z) : Prop :=
  ArrayKind at_ = NoButterflyArrayPart /\ IsContinuous at_ = false /\ HasSparseMap at_ = false /\
  SparseMapContainsVectorIndex at_ = false.

(** How the array type, the header and the vector describe an array part with
    sparse content [sc].
    - [sh_none]: there is no array part (the vector may be preallocated);
    - [sh_continuous]: the elements [1 .. len] and no others are non-nil;
    - [sh_vector]: anything within the vector, the length word is [-1];
    - [sh_sparse]: the length word is the pointer of the sparse map. *)
Inductive shape (sp : gmap Z ArraySparseMap) (hash : Z -> Z) (at_ len cap : Z) (vec : list Z) :
    (Z -> Z) -> Prop :=
| sh_none :
    no_array at_ -> len = 0 ->
    Forall (fun x => x = Nil) vec -> cap <= x_alwaysVectorCutoff ->
    shape sp hash at_ len cap vec no_sparse
| sh_continuous :
    ArrayKind at_ <> NoButterflyArrayPart -> IsContinuous at_ = true -> HasSparseMap at_ = false ->
    SparseMapContainsVectorIndex at_ = false -> 0 <= len <= cap ->
    (forall i x, vec !! i = Some x -> IsNil x = false <-> Z.of_nat i < len) ->
    kind_ok (ArrayKind at_) vec ->
    shape sp hash at_ len cap vec no_sparse
| sh_vector :
    ArrayKind at_ <> NoButterflyArrayPart -> IsContinuous at_ = false -> HasSparseMap at_ = false ->
    SparseMapContainsVectorIndex at_ = false -> len = -1 ->
    kind_ok (ArrayKind at_) vec ->
    shape sp hash at_ len cap vec no_sparse
| sh_sparse m :
    ArrayKind at_ = Any -> IsContinuous at_ = false -> HasSparseMap at_ = true ->
    len < -1 -> sp !! GeneralHeapPointer_As len = Some m -> wf hash m ->
    (forall k, in_vector cap k = true -> content m k = Nil) ->
    (SparseMapContainsVectorIndex at_ = false ->
       forall k, in_vector x_unconditionallySparseMapCutoff k = true -> content m k = Nil) ->
    shape sp hash at_ len cap vec (content m).

Section inv.
Context {Hc : Type} `{HiddenClassLaws Hc} (XXH3_64bits : Z -> Z).
Notation St := (TableObject.St Hc).
Implicit Types (s : St) (t : TableObject).

(** What does not depend on the array part: the user heap and its sparse maps,
    and that the hidden class is live and in step with the array type. *)
Record ambient (s : St) : Prop := {
  am_heap : heap_ok (st_heap s);
  am_sparse : forall p m, st_sparse s !! p = Some m ->
    m_userHeapCurPtr (st_heap s) <= p < - (x_vmBaseOffset - x_vmUserHeapSize) /\ p mod 8 = 0;
  am_live : hc_live (st_hc s) (m_hiddenClass (st_table s));
  am_sync : hc_kind (st_hc s) (m_hiddenClass (st_table s)) = HcStructure ->
    hc_arrayType (st_hc s) (m_hiddenClass (st_table s)) = m_arrayType (st_table s);
  am_useful : useful (m_arrayType (st_table s))
}.

(** The butterfly of the table has these parts. *)
Definition parts (s : St) (named : list Z) (len cap : Z) (vec : list Z) (sc : Z -> Z) : Prop :=
  m_butterfly (st_table s) = Some (mk_bf named len cap vec) /\ bf_ok named len cap vec /\
  Z.of_nat (length named) = hc_butterflyNamedStorageCapacity (st_hc s) (m_hiddenClass (st_table s)) /\
  shape (st_sparse s) XXH3_64bits (m_arrayType (st_table s)) len cap vec sc.

(** A table without a butterfly has no array part and no outlined property. *)
Definition null_parts (s : St) : Prop :=
  m_butterfly (st_table s) = None /\
  hc_butterflyNamedStorageCapacity (st_hc s) (m_hiddenClass (st_table s)) = 0 /\
  no_array (m_arrayType (st_table s)).

Definition inv (s : St) : Prop :=
  ambient s /\ (null_parts s \/ exists named len cap vec sc, parts s named len cap vec sc).

(** *** Abstract content of a table *)

Definition sparse_content (s : St) (key : Z) : Z :=
  default Nil (
    b ← m_butterfly (st_table s);
    len ← m_arrayLengthIfContinuous b;
    if HasSparseMap (m_arrayType (st_table s)) then
      m ← st_sparse s !! GeneralHeapPointer_As len; Some (content m key)
    else None).

Definition array_content (s : St) (key : Z) : Z :=
  match b ← m_butterfly (st_table s);
        cap ← m_arrayStorageCapacity b;
        i ← IsInt64Index key;
        if (1 <=? i) && (i <=? cap) then GetInVector b i else None with
  | Some v => v
  | None => sparse_content s key
  end.

(** The address of the table's own sparse map. *)
Definition own_sparse (s : St) : option Z :=
  b ← m_butterfly (st_table s);
  len ← m_arrayLengthIfContinuous b;
  if HasSparseMap (m_arrayType (st_table s)) then Some (GeneralHeapPointer_As len) else None.

Lemma parts_sparse_content s named len cap vec sc k : parts s named len cap vec sc ->
  sparse_content s k = sc k.
Proof.
  intros (Hb & Hok & _ & Hsh). unfold sparse_content. rewrite Hb. simpl.
  rewrite m_arrayLengthIfContinuous_mk by done. simpl.
  destruct Hsh as [(_ & _ & Hsp & _)|? ? Hsp|? ? Hsp|m ? ? Hsp ? Hm]; rewrite Hsp; [done..|].
  by rewrite Hm.
Qed.

Lemma parts_content s named len cap vec sc k : parts s named len cap vec sc ->
  array_content s k = cont_of cap vec sc k.
Proof.
  intros Hp. pose proof Hp as (Hb & Hok & _). unfold array_content, cont_of.
  rewrite Hb. simpl. rewrite m_arrayStorageCapacity_mk by done. simpl.
  destruct (IsInt64Index k) as [i|]; simpl; [|by eapply parts_sparse_content].
  destruct (_ && _) eqn:E; [|by eapply parts_sparse_content]. zbool.
  rewrite GetInVector_mk by lia.
  destruct (vec !! _) as [v|] eqn:Ev; [done|]. exfalso.
  apply lookup_ge_None in Ev. destruct Hok. lia.
Qed.

Lemma null_content s k : null_parts s -> array_content s k = Nil.
Proof. intros (Hb & _). unfold array_content, sparse_content. by rewrite Hb. Qed.

Lemma cont_of_empty k : cont_of 0 [] no_sparse k = Nil.
Proof. by apply cont_of_nil. Qed.
End inv.

(** ** Executing the primitives *)

Section exec.
Context {Hc : Type} `{HiddenClassOps Hc}.
Notation St := (TableObject.St Hc).
Implicit Types (s : St) (F : Prop).

Definition with_table s (t : TableObject) : St := mkSt t (st_hc s) (st_heap s) (st_sparse s).
Definition with_butterfly s (b : Butterfly) : St :=
  with_table s (mkTable (m_hiddenClass (st_table s)) (m_arrayType (st_table s)) (Some b)
                  (m_inlineStorage (st_table s))).

Lemma wp_on_butterfly {A} (f : Butterfly -> option A) s b a (Q : A -> St -> Prop) F :
  m_butterfly (st_table s) = Some b -> f b = Some a -> Q a s -> wp (on_butterfly f) s Q F.
Proof. intros Hb Hf HQ. unfold wp, on_butterfly, get_table, mbind, M_bind. simpl. rewrite Hb. simpl. by rewrite Hf. Qed.

Lemma wp_set_butterfly s b (Q : unit -> St -> Prop) F :
  Q tt (with_butterfly s b) -> wp (set_butterfly b) s Q F.
Proof. done. Qed.

Lemma wp_update_butterfly f s b b' (Q : unit -> St -> Prop) F :
  m_butterfly (st_table s) = Some b -> f b = Some b' -> Q tt (with_butterfly s b') ->
  wp (update_butterfly f) s Q F.
Proof.
  intros Hb Hf HQ. unfold update_butterfly. apply wp_bind.
  eapply wp_on_butterfly; [done..|]. by apply wp_set_butterfly.
Qed.

Lemma wp_get_table s (Q : TableObject -> St -> Prop) F : Q (st_table s) s -> wp get_table s Q F.
Proof. done. Qed.
End exec.

(** One step of a program under [wp]. *)
Ltac wp1 :=
  match goal with
  | |- wp (mbind _ _) _ _ _ => apply wp_bind
  | |- wp (mret _) _ _ _ => apply wp_ret
  | |- wp get_table _ _ _ => apply wp_get_table
  | |- wp get_st _ _ _ => apply wp_get
  | |- wp (put_st _) _ _ _ => apply wp_put
  | |- wp (if ?b then _ else _) _ _ _ => let E := fresh "E" in destruct b eqn:E
  end.

(** ** Reading *)

Section reading.
Context {Hc : Type} `{HiddenClassLaws Hc} (XXH3_64bits : Z -> Z).
Notation St := (TableObject.St Hc).
Implicit Types (s : St) (F : Prop).

Lemma icKind_naive at_ : useful at_ ->
  GetByIntegerIndexICInfo.m_icKind (PrepareGetByIntegerIndex at_)
  = NaiveComputeGetByIntegerIndexIcKindFromArrayType at_.
Proof. intros Hu. by apply ic_table_lemma. Qed.

Lemma shape_icKind sp hash at_ len cap vec sc : shape sp hash at_ len cap vec sc ->
  match NaiveComputeGetByIntegerIndexIcKindFromArrayType at_ with
  | GetByIntegerIndexICInfo.NoArrayPart => sc = no_sparse /\ Forall (fun x => x = Nil) vec
  | GetByIntegerIndexICInfo.VectorStorage => sc = no_sparse
  | GetByIntegerIndexICInfo.VectorStorageXorSparseMap =>
      HasSparseMap at_ = true /\
      forall k, in_vector x_unconditionallySparseMapCutoff k = true -> sc k = Nil
  | GetByIntegerIndexICInfo.VectorStorageOrSparseMap => HasSparseMap at_ = true
  end.
Proof.
  intros Hsh. unfold NaiveComputeGetByIntegerIndexIcKindFromArrayType.
  destruct Hsh as [(Hk & Hi & Hs & Hv)|Hk Hi Hs Hv|Hk Hi Hs Hv|m Hk Hi Hs]; rewrite Hi, ?Hs, ?Hv.
  - by rewrite bool_decide_eq_true_2.
  - done.
  - by rewrite bool_decide_eq_false_2.
  - rewrite Hk. simpl. destruct (SparseMapContainsVectorIndex at_) eqn:E; auto.
Qed.

Lemma QueryArraySparseMap_spec s named len cap vec sc k F :
  parts XXH3_64bits s named len cap vec sc -> HasSparseMap (m_arrayType (st_table s)) = true ->
  wp (QueryArraySparseMap XXH3_64bits k) s (fun v s' => s' = s /\ v = sc k) F.
Proof.
  intros (Hb & Hok & _ & Hsh) Hs. unfold QueryArraySparseMap. wp1.
  eapply wp_on_butterfly; [done|by apply m_arrayLengthIfContinuous_mk|]. wp1. wp1. wp1.
  destruct Hsh as [(_ & _ & Hs' & _)|? ? Hs'|? ? Hs'|m ? ? _ ? Hm Hwf]; try congruence.
  eapply wp_access; [done|]. eapply wp_access; [by apply GetByVal_content|]. done.
Qed.

Lemma TryAccess_spec s named len cap vec sc i F :
  parts XXH3_64bits s named len cap vec sc -> in_i 64 i ->
  wp (TryAccessIndexInVectorStorage i) s
    (fun r s' => s' = s /\ r = if (1 <=? i) && (i <=? cap)
                             then Some (default Nil (vec !! Z.to_nat (i - 1))) else None) F.
Proof.
  intros (Hb & Hok & _ & Hsh) Hi. unfold TryAccessIndexInVectorStorage. wp1.
  eapply wp_on_butterfly; [done|by apply m_arrayStorageCapacity_mk|].
  rewrite IndexFitsInVectorCapacity_spec
    by (done || (pose proof (bf_ok_cap_u32 _ _ _ _ Hok); unfold in_u; pow2; lia)).
  destruct (_ && _) eqn:E; [|done]. zbool. wp1.
  destruct (vec !! Z.to_nat (i - 1)) as [v|] eqn:Ev.
  - eapply wp_on_butterfly; [done|rewrite GetInVector_mk by lia; done|]. done.
  - apply lookup_ge_None in Ev. destruct Hok. lia.
Qed.

Lemma GetByIntegerIndex_spec s key i : inv XXH3_64bits s -> IsInt64Index key = Some i ->
  wp (GetByIntegerIndex XXH3_64bits i (PrepareGetByIntegerIndex (m_arrayType (st_table s)))) s
    (fun v s' => s' = s /\ v = array_content s key) False.
Proof.
  intros [[_ _ _ _ Hu] Hp] Hk. unfold GetByIntegerIndex. rewrite icKind_naive by done.
  pose proof (IsInt64Index_Some key i Hk) as (Hi & Hf & _).
  destruct Hp as [Hn|(named & len & cap & vec & sc & Hp)].
  { pose proof Hn as (_ & _ & Hsh). rewrite (null_content s key Hn).
    destruct Hsh as (E1 & E2 & _).
    unfold NaiveComputeGetByIntegerIndexIcKindFromArrayType. rewrite E2, E1. simpl. done. }
  rewrite (parts_content XXH3_64bits s _ _ _ _ _ key Hp). pose proof Hp as (_ & _ & _ & Hsh).
  pose proof (shape_icKind _ _ _ _ _ _ _ Hsh) as Hic.
  destruct (bool_decide _) eqn:E.
  { apply bool_decide_eq_true in E. rewrite E in Hic. destruct Hic as [-> Hv].
    rewrite cont_of_nil by done. done. }
  wp1. eapply wp_mono; [by apply (TryAccess_spec s _ _ _ _ _ i False Hp Hi)| |done].
  intros r s' [-> ->]. unfold cont_of. rewrite Hk.
  destruct ((1 <=? i) && (i <=? cap)) eqn:Er; [done|].
  assert (sc (double_of_int i) = sc key) as Hsc.
  { destruct Hsh; try done. by apply content_feq. }
  destruct (NaiveComputeGetByIntegerIndexIcKindFromArrayType _) eqn:Ek.
  - subst sc. done.
  - by rewrite bool_decide_eq_true_2 in E.
  - destruct Hic as [Hs Hnil]. destruct (_ || _) eqn:Eo.
    + rewrite <- Hsc. by eapply QueryArraySparseMap_spec.
    + apply wp_ret. split; [done|]. symmetry. apply Hnil. unfold in_vector. rewrite Hk.
      zbool. unfold x_arrayBaseOrd in *. apply andb_true_iff. split; apply Z.leb_le; lia.
  - rewrite <- Hsc. by eapply QueryArraySparseMap_spec.
Qed.

Lemma GetByDoubleVal_spec s key : inv XXH3_64bits s ->
  wp (GetByDoubleVal XXH3_64bits key (PrepareGetByIntegerIndex (m_arrayType (st_table s)))) s
    (fun v s' => s' = s /\ v = array_content s key) False.
Proof.
  intros Hinv. unfold GetByDoubleVal. destruct (IsInt64Index key) as [i|] eqn:Hk.
  { by apply GetByIntegerIndex_spec. }
  pose proof Hinv as [[_ _ _ _ Hu] Hp]. rewrite icKind_naive by done.
  destruct Hp as [Hn|(named & len & cap & vec & sc & Hp)].
  { pose proof Hn as (_ & _ & Hsh). rewrite (null_content s key Hn).
    destruct Hsh as (E1 & E2 & _).
    unfold NaiveComputeGetByIntegerIndexIcKindFromArrayType. rewrite E2, E1. simpl. done. }
  rewrite (parts_content XXH3_64bits s _ _ _ _ _ key Hp). pose proof Hp as (_ & _ & _ & Hsh).
  pose proof (shape_icKind _ _ _ _ _ _ _ Hsh) as Hic. unfold cont_of. rewrite Hk.
  destruct (NaiveComputeGetByIntegerIndexIcKindFromArrayType _).
  - by subst sc.
  - destruct Hic as [-> _]. done.
  - destruct Hic as [Hs _]. by eapply QueryArraySparseMap_spec.
  - by eapply QueryArraySparseMap_spec.
Qed.
End reading.

(** ** Writing: what a put promises *)

Section writing.
Context {Hc : Type} `{HiddenClassLaws Hc} (XXH3_64bits : Z -> Z).
Notation St := (TableObject.St Hc).
Implicit Types (s : St) (F : Prop).
Notation parts := (parts XXH3_64bits).
Notation inv := (inv XXH3_64bits).

(** The hidden classes of [h] are unchanged in [h']. *)
Definition hc_ext (h h' : Hc) : Prop := forall c, hc_live h c ->
  hc_live h' c /\ hc_kind h' c = hc_kind h c /\ hc_arrayType h' c = hc_arrayType h c /\
  hc_butterflyNamedStorageCapacity h' c = hc_butterflyNamedStorageCapacity h c.

Lemma hc_ext_refl h : hc_ext h h.
Proof. intros c Hl. auto. Qed.

Lemma hc_ext_trans h1 h2 h3 : hc_ext h1 h2 -> hc_ext h2 h3 -> hc_ext h1 h3.
Proof.
  intros E1 E2 c Hl. destruct (E1 c Hl) as (Hl2 & -> & -> & ->) || destruct (E1 c Hl) as (Hl2 & A1 & A2 & A3).
  destruct (E2 c Hl2) as (Hl3 & B1 & B2 & B3). rewrite B1, B2, B3. auto.
Qed.

(** A word at a negative offset of the butterfly: an outlined property. *)
Definition named_word (s : St) (ord : Z) : option Z := b ← m_butterfly (st_table s); GetNamedProperty b ord.

(** Everything a put of [v] at [key] does and does not do: the content changes
    at [key] only; the properties, the metatable bit, the sparse maps of other
    tables and the existing hidden classes are untouched, and the table does not
    get hold of the sparse map of another table. *)
Record put_ok (s : St) (key v : Z) (s' : St) : Prop := {
  po_inv : inv s';
  po_content : forall k, array_content s' k
    = if UnsafeFloatEqual key k then v else array_content s k;
  po_inline : m_inlineStorage (st_table s') = m_inlineStorage (st_table s);
  po_named : forall ord, ord < 0 -> named_word s' ord = named_word s ord;
  po_metatable : MayHaveMetatable (m_arrayType (st_table s'))
    = MayHaveMetatable (m_arrayType (st_table s));
  po_frame : forall p m, st_sparse s !! p = Some m -> own_sparse s <> Some p ->
    st_sparse s' !! p = Some m;
  po_owner : forall p m, st_sparse s !! p = Some m -> own_sparse s' = Some p -> own_sparse s = Some p;
  po_cur : m_userHeapCurPtr (st_heap s') <= m_userHeapCurPtr (st_heap s);
  po_hc : hc_ext (st_hc s) (st_hc s')
}.

(** The resources whose exhaustion stops the process: the user heap, the
    maximal size of a sparse map, the system heap of the hidden classes. *)
Definition exhausted (s : St) : Prop :=
  heap_exhausted sizeof_ArraySparseMap (st_heap s) \/
  (exists p m, st_sparse s !! p = Some m /\ m_hashMask m = 2 ^ 31 - 1) \/
  (exists t, UpdateArrayType (st_hc s) (m_hiddenClass (st_table s)) t = VMFail).

(** The parts of a table, a missing butterfly counting as an empty one. *)
Definition view (s : St) (named : list Z) (len cap : Z) (vec : list Z) (sc : Z -> Z) : Prop :=
  parts s named len cap vec sc \/
  (null_parts s /\ named = [] /\ len = 0 /\ cap = 0 /\ vec = [] /\ sc = no_sparse).

Lemma inv_view s : inv s -> ambient s /\ exists named len cap vec sc, view s named len cap vec sc.
Proof.
  intros [Ha [Hn|(named & len & cap & vec & sc & Hp)]]; split; try done.
  - exists [], 0, 0, [], no_sparse. right. split_and!; done.
  - exists named, len, cap, vec, sc. by left.
Qed.

Lemma view_content s named len cap vec sc k : view s named len cap vec sc ->
  array_content s k = cont_of cap vec sc k.
Proof.
  intros [Hp|(Hn & -> & -> & -> & -> & ->)]; [by eapply parts_content|].
  by rewrite null_content, cont_of_empty.
Qed.

Lemma view_vec s named len cap vec sc : view s named len cap vec sc ->
  length vec = Z.to_nat cap /\ 0 <= cap <= x_unconditionallySparseMapCutoff.
Proof.
  intros [(_ & [] & _)|(Hn & -> & -> & -> & -> & ->)]; [done|].
  unfold x_unconditionallySparseMapCutoff. pow2. split; [done|lia].
Qed.

Lemma view_named s named len cap vec sc : view s named len cap vec sc ->
  Z.of_nat (length named) = hc_butterflyNamedStorageCapacity (st_hc s) (m_hiddenClass (st_table s)).
Proof. intros [(_ & _ & ? & _)|((_ & -> & _) & -> & _)]; done. Qed.

Lemma named_word_mk named len cap vec ord : ord < 0 ->
  GetNamedProperty (mk_bf named len cap vec) ord
  = if Z.of_nat (length named) + ord <? 0 then None else named !! Z.to_nat (Z.of_nat (length named) + ord).
Proof.
  intros Ho. unfold GetNamedProperty, word_at, mk_bf. simpl.
  destruct (Z.ltb_spec (Z.of_nat (length named) + ord) 0); [done|]. apply lookup_app_l. lia.
Qed.

Lemma view_named_word s named len cap vec sc ord : view s named len cap vec sc -> ord < 0 ->
  named_word s ord
  = if Z.of_nat (length named) + ord <? 0 then None else named !! Z.to_nat (Z.of_nat (length named) + ord).
Proof.
  intros [(Hb & _)|((Hb & _) & -> & _)] Ho; unfold named_word; rewrite Hb; simpl.
  - by apply named_word_mk.
  - by rewrite (proj2 (Z.ltb_lt _ _)) by lia.
Qed.

(** The common end of every put. *)
Lemma put_ok_intro s s' key v named len cap vec sc len' cap' vec' sc' :
  view s named len cap vec sc -> ambient s' -> parts s' named len' cap' vec' sc' ->
  (forall k, cont_of cap' vec' sc' k = if UnsafeFloatEqual key k then v else cont_of cap vec sc k) ->
  m_inlineStorage (st_table s') = m_inlineStorage (st_table s) ->
  MayHaveMetatable (m_arrayType (st_table s')) = MayHaveMetatable (m_arrayType (st_table s)) ->
  (forall p m, st_sparse s !! p = Some m -> own_sparse s <> Some p -> st_sparse s' !! p = Some m) ->
  (HasSparseMap (m_arrayType (st_table s')) = true -> forall m, st_sparse s !! GeneralHeapPointer_As len' = Some m ->
     own_sparse s = Some (GeneralHeapPointer_As len')) ->
  m_userHeapCurPtr (st_heap s') <= m_userHeapCurPtr (st_heap s) ->
  hc_ext (st_hc s) (st_hc s') -> put_ok s key v s'.
Proof.
  intros Hv Ha Hp Hcont Hi Hm Hf Hown Hcur Hx. split; try done.
  - split; [done|]. right. by exists named, len', cap', vec', sc'.
  - intros k. rewrite (view_content s named len cap vec sc), (parts_content XXH3_64bits s' named len' cap' vec' sc') by done.
    apply Hcont.
  - intros ord Ho. rewrite (view_named_word s named len cap vec sc) by done.
    apply (view_named_word s' named len' cap' vec' sc'); [by left|done].
  - intros p m Hpm. unfold own_sparse at 1. destruct Hp as (-> & Hok & _). simpl.
    rewrite m_arrayLengthIfContinuous_mk by done. simpl. destruct (HasSparseMap _); [|done]. intros [= <-]. by eapply Hown.
Qed.

Lemma own_of_parts s named len cap vec sc : parts s named len cap vec sc -> HasSparseMap (m_arrayType (st_table s)) = true ->
  own_sparse s = Some (GeneralHeapPointer_As len).
Proof.
  intros (Hb & Hok & _) Hs. unfold own_sparse. rewrite Hb. simpl. rewrite m_arrayLengthIfContinuous_mk by done. simpl. by rewrite Hs.
Qed.

(** Doing nothing is a put when the content is already right. *)
Lemma put_ok_noop s key v : inv s ->
  (forall k, UnsafeFloatEqual key k = true -> array_content s k = v) -> put_ok s key v s.
Proof.
  intros Hi Hcont. split; try done; try apply hc_ext_refl.
  intros k. destruct (UnsafeFloatEqual key k) eqn:E; [by apply Hcont|done].
Qed.

(** *** Changing the array type *)

Lemma update_array_type_spec s a F : ambient s -> useful a ->
  MayHaveMetatable a = MayHaveMetatable (m_arrayType (st_table s)) ->
  ((exists t, UpdateArrayType (st_hc s) (m_hiddenClass (st_table s)) t = VMFail) -> F) ->
  wp (update_array_type a) s (fun _ s' => exists c h,
    s' = mkSt (mkTable c a (m_butterfly (st_table s)) (m_inlineStorage (st_table s))) h
           (st_heap s) (st_sparse s) /\
    ambient s' /\ hc_ext (st_hc s) h /\
    hc_butterflyNamedStorageCapacity h c
    = hc_butterflyNamedStorageCapacity (st_hc s) (m_hiddenClass (st_table s))) F.
Proof.
  intros [Hh Hsp Hl Hsy Hu] Ha Hmeta HF. unfold update_array_type. wp1. wp1. wp1.
  { wp1. zbool. subst a. exists (m_hiddenClass (st_table s)), (st_hc s).
    destruct s as [[c at_ bf inl] h heap sp]. simpl in *. split_and!; try done; try apply hc_ext_refl. }
  zbool. destruct (bool_decide _) eqn:Ek; [apply bool_decide_eq_true in Ek|apply bool_decide_eq_false in Ek].
  - specialize (Hsy Ek).
    destruct (UpdateArrayType_spec (st_hc s) (m_hiddenClass (st_table s)) a Hl Ek)
      as [Ef|(c & h & Eu & Hl' & Hk' & Ha' & Hn' & Hx)]; [congruence|done|congruence| |].
    + rewrite Ef. apply wp_fail. apply HF. by exists a.
    + rewrite Eu. unfold wp. simpl. exists c, h. by split_and!; try done; split.
  - unfold wp. simpl. exists (m_hiddenClass (st_table s)), (st_hc s).
    split_and!; try done; try apply hc_ext_refl; by split.
Qed.

(** *** Going to the sparse map *)

(** [s1] is [s] with the sparse map of the table at hand: address [p], header
    [len'], map [m]. *)
Definition sparse_ready s named cap vec (sc : Z -> Z) (p : Z) s1 : Prop := exists len' m,
  st_table s1 = mkTable (m_hiddenClass (st_table s)) (m_arrayType (st_table s))
    (Some (mk_bf named len' cap vec)) (m_inlineStorage (st_table s)) /\
  st_hc s1 = st_hc s /\ ambient s1 /\ bf_ok named len' cap vec /\
  len' < -1 /\ p = GeneralHeapPointer_As len' /\
  st_sparse s1 !! p = Some m /\ wf XXH3_64bits m /\ (forall k, content m k = sc k) /\
  (forall q m', st_sparse s !! q = Some m' -> st_sparse s1 !! q = Some m') /\
  (forall q m', st_sparse s !! q = Some m' -> own_sparse s <> Some q -> q <> p) /\
  (m_hashMask m = 2 ^ 31 - 1 -> st_sparse s !! p = Some m) /\
  m_userHeapCurPtr (st_heap s1) <= m_userHeapCurPtr (st_heap s).

Lemma ambient_with_butterfly s b : ambient s -> ambient (with_butterfly s b).
Proof. by intros []. Qed.

Lemma AllocateNew_spec s named len cap vec F : ambient s ->
  m_butterfly (st_table s) = Some (mk_bf named len cap vec) -> bf_ok named len cap vec ->
  (heap_exhausted sizeof_ArraySparseMap (st_heap s) -> F) ->
  wp AllocateNewArraySparseMap s (fun p s1 => sparse_ready s named cap vec no_sparse p s1) F.
Proof.
  intros Ha Hb Hok HF. pose proof Ha as [Hh Hsp Hl Hsy Hu].
  unfold AllocateNewArraySparseMap. wp1. wp1.
  destruct (AllocFromUserHeap_spec sizeof_ArraySparseMap (st_heap s) Hh) as
    [(p & h' & -> & Hh' & Hp & Hcur)|[-> Hex]]; [done|done| |by apply wp_fail, HF].
  assert (forall q m', st_sparse s !! q = Some m' -> q <> p) as Hfresh.
  { intros q m' Hq ->. destruct (Hsp _ _ Hq) as [? _]. unfold sizeof_ArraySparseMap in Hp. lia. }
  assert (- x_vmBaseOffset <= p < - (x_vmBaseOffset - x_vmUserHeapSize) /\ p mod 8 = 0) as [Hpr Hpa].
  { destruct Hh' as (? & ? & ?), Hh as (? & ? & ?). rewrite Hcur in *.
    unfold sizeof_ArraySparseMap in Hp. split; [lia|done]. }
  destruct (GeneralHeapPointer_user p Hpr Hpa) as (Hg1 & Hg2 & Hg3).
  wp1. wp1. wp1. eapply wp_update_butterfly; [exact Hb|by apply set_arrayLengthIfContinuous_mk|].
  wp1. exists (GeneralHeapPointer p), AllocateEmptyArraySparseMap. simpl. rewrite Hg3.
  split_and!; try done.
  - split; simpl; try done. intros q m'. rewrite lookup_insert_Some.
    intros [[<- <-]|[_ Hq]]; [rewrite Hcur; lia|].
    destruct (Hsp _ _ Hq) as [? ?]. unfold sizeof_ArraySparseMap in Hp. rewrite Hcur. lia.
  - destruct Hok. by split.
  - by rewrite lookup_insert_eq.
  - apply empty_wf.
  - intros q m' Hq. rewrite lookup_insert_ne by (symmetry; by eapply Hfresh). done.
  - intros q m' Hq _. by eapply Hfresh.
  - unfold sizeof_ArraySparseMap in Hp. lia.
Qed.

Lemma GetOrAllocate_spec s named len cap vec sc F : ambient s -> view s named len cap vec sc ->
  (heap_exhausted sizeof_ArraySparseMap (st_heap s) -> F) ->
  wp GetOrAllocateSparseMap s (fun p s1 => sparse_ready s named cap vec sc p s1) F.
Proof.
  intros Ha Hv HF. unfold GetOrAllocateSparseMap. wp1. wp1.
  destruct Hv as [(Hb & Hok & Hn & Hsh)|((Hb & Hn & Hno) & -> & -> & -> & -> & ->)]; rewrite Hb.
  - wp1. eapply wp_access; [by apply m_arrayLengthIfContinuous_mk|].
    unfold ButterflyHeader.HasSparseMap. wp1; zbool.
    + wp1. destruct Hsh as [(_ & _ & Hs' & _)|? ? Hs' ? ?|? ? Hs'|m ? ? Hs' ? Hm Hwf]; try lia.
      exists len, m. destruct s as [[c at_ bf inl] h heap sp]; simpl in *. subst bf.
      split_and!; try done. intros q m' Hq Ho ->. apply Ho. unfold own_sparse. simpl.
      rewrite m_arrayLengthIfContinuous_mk by done. simpl. by rewrite Hs'.
    + eapply wp_mono; [by eapply AllocateNew_spec| |done]. intros p s1.
      destruct Hsh; try done. lia.
  - wp1. eapply wp_access; [apply GrowFromNull_array; unfold x_unconditionallySparseMapCutoff; pow2; lia|].
    wp1. apply wp_set_butterfly.
    eapply wp_mono; [eapply (AllocateNew_spec (with_butterfly s (mk_bf [] 0 0 [])) [] 0 0 [])| |done];
      try done; [by apply ambient_with_butterfly|].
    intros p s1 (len' & m & ? & ? & ? & ? & ? & ? & ? & ? & ? & ? & Hfr & ? & ?).
    exists len', m. split_and!; try done. intros q m' Hq Ho. apply (Hfr q m' Hq).
    unfold own_sparse. simpl. intros E. unfold m_arrayLengthIfContinuous in E. simpl in E.
    destruct Hno as (_ & _ & Hs & _). by rewrite Hs in E.
Qed.

Lemma sparseArrayType_fields vq a :
  ArrayKind (sparseArrayType vq a) = Any /\ IsContinuous (sparseArrayType vq a) = false /\
  HasSparseMap (sparseArrayType vq a) = true /\
  SparseMapContainsVectorIndex (sparseArrayType vq a) = vq || SparseMapContainsVectorIndex a /\
  MayHaveMetatable (sparseArrayType vq a) = MayHaveMetatable a.
Proof. unfold sparseArrayType. destruct vq; by autorewrite with atype. Qed.

Lemma sparseArrayType_useful vq a : useful a -> useful (sparseArrayType vq a).
Proof. intros Hu. unfold sparseArrayType. destruct vq; auto with words. Qed.

Lemma view_sparse_nil s named len cap vec sc k : view s named len cap vec sc ->
  in_vector cap k = true -> sc k = Nil.
Proof.
  intros [(_ & _ & _ & Hsh)|(_ & _ & _ & -> & _ & ->)] Hk; [|done].
  destruct Hsh; auto.
Qed.

Lemma view_sparse_vq s named len cap vec sc k : view s named len cap vec sc ->
  SparseMapContainsVectorIndex (m_arrayType (st_table s)) = false ->
  in_vector x_unconditionallySparseMapCutoff k = true -> sc k = Nil.
Proof.
  intros [(_ & _ & _ & Hsh)|(_ & _ & _ & -> & _ & ->)] Hs Hk; [|done].
  destruct Hsh; auto.
Qed.

Lemma IsVectorQualifyingIndex_in_vector k :
  IsVectorQualifyingIndex k = in_vector x_unconditionallySparseMapCutoff k.
Proof. done. Qed.

Lemma in_vector_feq cap a b : feq a b -> in_vector cap a = in_vector cap b.
Proof. intros E. unfold in_vector. by rewrite (IsInt64Index_proper a b E). Qed.

Lemma PutIndexIntoSparseMap_spec s named len cap vec sc key v : ambient s ->
  view s named len cap vec sc -> IsNaN key = false -> in_vector cap key = false ->
  wp (PutIndexIntoSparseMap XXH3_64bits (IsVectorQualifyingIndex key) key v) s
    (fun _ s' => put_ok s key v s') (exhausted s).
Proof.
  intros Ha Hv Hkey Hcap. unfold PutIndexIntoSparseMap. wp1. wp1.
  set (a := sparseArrayType _ _). wp1.
  eapply wp_mono; [eapply GetOrAllocate_spec; [done|done|]; exact (fun h => h)| |by left].
  intros p s1 (len' & m & Ht1 & Hh1 & Ha1 & Hok1 & Hlen' & Hp & Hm & Hwf & Hcm & Hsub & Hfr & Hmax & Hcur).
  wp1. unfold insert_sparse. wp1. wp1. wp1. eapply wp_access; [done|].
  destruct (Insert_cases XXH3_64bits m key v Hwf Hkey) as [[-> Hmask]|(m' & -> & Hwf' & _ & Hcm')].
  { apply wp_fail. right. left. exists p, m. auto. }
  wp1. destruct (sparseArrayType_fields (IsVectorQualifyingIndex key) (m_arrayType (st_table s)))
    as (F1 & F2 & F3 & F4 & F5). fold a in F1, F2, F3, F4, F5.
  set (s2 := mkSt _ _ _ _).
  assert (ambient s2) as Ha2.
  { destruct Ha1 as [? Hsp1 ? ? ?]. split; try done. intros q m1. simpl. rewrite lookup_insert_Some.
    intros [[<- _]|[_ Hq]]; by eapply Hsp1. }
  eapply wp_mono; [eapply (update_array_type_spec s2 a (exhausted s)); [done| | |]| |done].
  { apply sparseArrayType_useful. by destruct Ha. }
  { subst s2. simpl. by rewrite Ht1. }
  { subst s2. simpl. rewrite Ht1, Hh1. intros Hf. by right; right. }
  intros _ s' (c & h & -> & Ha' & Hx & Hn). subst s2. simpl in *. rewrite Hh1 in Hx.
  rewrite Ht1, Hh1 in Hn. simpl in Hn.
  eapply (put_ok_intro s _ key v named len cap vec sc len' cap vec (content m')); try done; simpl.
  - split_and!; simpl; try done; [by rewrite Ht1|rewrite Hn; by eapply view_named|].
    econstructor; try done.
    + by rewrite <- Hp, lookup_insert_eq.
    + intros k Hk. rewrite Hcm', Hcm. destruct (UnsafeFloatEqual key k) eqn:E.
      * rewrite (in_vector_feq cap key k E) in Hcap. congruence.
      * by eapply view_sparse_nil.
    + rewrite F4. intros [Hvq Hvi]%orb_false_iff k Hk. rewrite IsVectorQualifyingIndex_in_vector in Hvq.
      rewrite Hcm', Hcm. destruct (UnsafeFloatEqual key k) eqn:E.
      * rewrite (in_vector_feq _ key k E) in Hvq. congruence.
      * by eapply view_sparse_vq.
  - intros k. apply cont_put_sparse; [done|]. intros k'. by rewrite Hcm', Hcm.
  - by rewrite Ht1.
  - intros q m1 Hq Ho. rewrite lookup_insert_ne by (symmetry; by eapply Hfr). by apply Hsub.
  - intros _ m1 Hm1. destruct (decide (own_sparse s = Some (GeneralHeapPointer_As len'))) as [|Hne]; [done|].
    by destruct (Hfr _ m1 Hm1 Hne).
Qed.

(** *** Writing to the vector *)

(** [s1] is [s] with a prepared butterfly: writing [v] at [index] and setting the
    array type to [a] completes the put. *)
Definition ready s (index v a : Z) s1 : Prop := exists named len cap vec sc len1 cap1 vec1,
  view s named len cap vec sc /\ s1 = with_butterfly s (mk_bf named len1 cap1 vec1) /\
  bf_ok named len1 cap1 vec1 /\ 1 <= index <= cap1 /\ useful a /\
  MayHaveMetatable a = MayHaveMetatable (m_arrayType (st_table s)) /\
  shape (st_sparse s) XXH3_64bits a len1 cap1 (<[Z.to_nat (index - 1) := v]> vec1) sc /\
  (HasSparseMap a = true -> own_sparse s = Some (GeneralHeapPointer_As len1)) /\
  (forall k, cont_of cap1 (<[Z.to_nat (index - 1) := v]> vec1) sc k
     = if UnsafeFloatEqual (double_of_int index) k then v else cont_of cap vec sc k).

Lemma bf_ok_insert named len cap vec i v : bf_ok named len cap vec ->
  bf_ok named len cap (<[i := v]> vec).
Proof. intros []. split; try done. by rewrite length_insert. Qed.

Lemma write_finish s s1 index v a : ambient s -> ready s index v a s1 ->
  wp (update_butterfly (fun b => SetInVector b index v);; update_array_type a) s1
    (fun _ s' => put_ok s (double_of_int index) v s') (exhausted s).
Proof.
  intros Ha (named & len & cap & vec & sc & len1 & cap1 & vec1 & Hv & -> & Hok & Hi & Hu & Hm & Hsh & Hown & Hcont).
  wp1. eapply wp_update_butterfly; [done|by apply SetInVector_mk|].
  eapply wp_mono; [eapply (update_array_type_spec _ a (exhausted s))| |done].
  - by do 2 apply ambient_with_butterfly.
  - done.
  - done.
  - intros Hf. by right; right.
  - intros _ s' (c & h & -> & Ha' & Hx & Hn). simpl in *.
    eapply (put_ok_intro s _ _ v named len cap vec sc len1 cap1 _ sc); try done; simpl.
    + split_and!; simpl; try done; [by apply bf_ok_insert|]. rewrite Hn. by eapply view_named.
    + auto.
Qed.

Lemma with_butterfly_id s b : m_butterfly (st_table s) = Some b -> with_butterfly s b = s.
Proof. destruct s as [[c a bf inl] h heap sp]. simpl. by intros ->. Qed.

Lemma wp_Grow_array s named len cap vec nc Q F :
  m_butterfly (st_table s) = Some (mk_bf named len cap vec) -> bf_ok named len cap vec ->
  Z.of_nat (length named) = hc_butterflyNamedStorageCapacity (st_hc s) (m_hiddenClass (st_table s)) ->
  cap <= nc <= x_unconditionallySparseMapCutoff ->
  Q tt (with_butterfly s (mk_bf named len nc (vec ++ replicate (Z.to_nat (nc - cap)) Nil))) ->
  wp (GrowButterfly false nc) s Q F.
Proof.
  intros Hb Hok Hn Hnc HQ. unfold GrowButterfly. wp1. wp1. wp1.
  eapply wp_access; [rewrite Hb, <- Hn; by apply Grow_array|]. by apply wp_set_butterfly.
Qed.

Lemma wp_Grow_null s nc Q F : m_butterfly (st_table s) = None ->
  0 <= nc <= x_unconditionallySparseMapCutoff ->
  Q tt (with_butterfly s (mk_bf [] 0 nc (replicate (Z.to_nat nc) Nil))) ->
  wp (GrowButterfly false nc) s Q F.
Proof.
  intros Hb Hnc HQ. unfold GrowButterfly. wp1. wp1. wp1.
  eapply wp_access; [rewrite Hb; by apply GrowFromNull_array|]. by apply wp_set_butterfly.
Qed.

Lemma grown_ok named len cap vec nc len' : bf_ok named len cap vec -> in_i 32 len' ->
  cap <= nc <= x_unconditionallySparseMapCutoff ->
  bf_ok named len' nc (vec ++ replicate (Z.to_nat (nc - cap)) Nil).
Proof.
  intros [_ Hcap Hv Hn] Hl Hnc. split; try done; [lia|]. rewrite length_app, length_replicate. lia.
Qed.

(** A key that is an index. *)
Lemma in_vector_index cap i : Z.abs i < 2 ^ 53 -> in_vector cap (double_of_int i) = (1 <=? i) && (i <=? cap).
Proof. intros Hi. unfold in_vector. by rewrite IsInt64Index_int. Qed.

Lemma index_is_vq i : 1 <= i <= x_unconditionallySparseMapCutoff ->
  IsVectorQualifyingIndex (double_of_int i) = true.
Proof.
  intros Hi. destruct (index_bound i Hi) as [Hb _]. rewrite IsVectorQualifyingIndex_in_vector, in_vector_index by done.
  apply andb_true_iff. split; apply Z.leb_le; lia.
Qed.

Lemma index_not_nan i : in_i 64 i -> IsNaN (double_of_int i) = false.
Proof. intros Hi. by destruct (double_of_int_number i Hi) as (_ & ? & _). Qed.

(** An index beyond the capacity goes to the sparse map. *)
Lemma put_sparse_index s named len cap vec sc i v : ambient s ->
  view s named len cap vec sc -> 1 <= i <= x_unconditionallySparseMapCutoff -> cap < i ->
  wp (PutIndexIntoSparseMap XXH3_64bits true (double_of_int i) v) s
    (fun _ s' => put_ok s (double_of_int i) v s') (exhausted s).
Proof.
  intros Ha Hv Hi Hcap. destruct (index_bound i Hi) as [Hb Hb'].
  rewrite <- (index_is_vq i Hi). eapply PutIndexIntoSparseMap_spec; [done|done|by apply index_not_nan|].
  rewrite in_vector_index by done. apply andb_false_iff. right. apply Z.leb_gt. lia.
Qed.

(** *** Widening the array kind *)

Lemma widenKind_fields a a0 v : ArrayKind a0 = ArrayKind a ->
  IsContinuous (widenKind a a0 v) = IsContinuous a0 /\
  HasSparseMap (widenKind a a0 v) = HasSparseMap a0 /\
  SparseMapContainsVectorIndex (widenKind a a0 v) = SparseMapContainsVectorIndex a0 /\
  MayHaveMetatable (widenKind a a0 v) = MayHaveMetatable a0 /\
  (ArrayKind a <> NoButterflyArrayPart -> ArrayKind (widenKind a a0 v) <> NoButterflyArrayPart) /\
  (ArrayKind a = Any -> ArrayKind (widenKind a a0 v) = Any) /\
  (useful a0 -> useful (widenKind a a0 v)).
Proof.
  intros E. unfold widenKind. destruct (ArrayKind a) eqn:Ea; try destruct (_ && _);
    autorewrite with atype; rewrite ?E; split_and!; auto with words; congruence.
Qed.

Lemma Forall_insert_app {A} (P : A -> Prop) l n d i x : Forall P l -> P d -> P x ->
  Forall P (<[i := x]> (l ++ replicate n d)).
Proof. intros Hl Hd Hx. apply Forall_insert; [|done]. apply Forall_app. split; [done|by apply Forall_replicate]. Qed.

Lemma widenKind_ok a a0 v vec n i : ArrayKind a0 = ArrayKind a -> kind_ok (ArrayKind a) vec ->
  kind_ok (ArrayKind (widenKind a a0 v)) (<[i := v]> (vec ++ replicate n Nil)).
Proof.
  intros E Hk. unfold widenKind. destruct (ArrayKind a) eqn:Ea; simpl in Hk.
  - by rewrite E.
  - destruct (negb (IsInt32 v) && negb (IsNil v)) eqn:Ev; [by autorewrite with atype|].
    rewrite E. simpl. apply Forall_insert_app; try done.
    by destruct (IsInt32 v), (IsNil v).
  - destruct (negb (IsDouble v) && negb (IsNil v)) eqn:Ev; [by autorewrite with atype|].
    rewrite E. simpl. apply Forall_insert_app; try done.
    by destruct (IsDouble v), (IsNil v).
  - by rewrite E.
Qed.

Lemma widenKind_ok_inbound a a0 v vec i : ArrayKind a0 = ArrayKind a -> kind_ok (ArrayKind a) vec ->
  kind_ok (ArrayKind (widenKind a a0 v)) (<[i := v]> vec).
Proof. intros E Hk. rewrite <- (app_nil_r vec). by apply (widenKind_ok a a0 v vec 0). Qed.

(** *** The slow path, branch by branch *)

(** What each branch of the slow path promises. *)
Definition decided s index v (r : option Z) s1 : Prop :=
  match r with None => put_ok s (double_of_int index) v s1 | Some a => ready s index v a s1 end.

Lemma at_least_index_spec c i : 1 <= i <= x_unconditionallySparseMapCutoff ->
  0 <= c <= x_unconditionallySparseMapCutoff ->
  at_least_index c i = Z.max c i.
Proof.
  unfold x_unconditionallySparseMapCutoff, at_least_index, x_arrayBaseOrd. intros Hi Hcap.
  rewrite wrapu_small by (unfold in_u; pow2; lia). lia.
Qed.

Lemma in_vector_feq_index cap i k : Z.abs i < 2 ^ 53 ->
  UnsafeFloatEqual (double_of_int i) k = true -> in_vector cap k = (1 <=? i) && (i <=? cap).
Proof. intros Hi E. unfold in_vector. by rewrite (proj1 (feq_index i k Hi) E). Qed.

Lemma initialKind_ok v vec n i : Forall (fun x => x = Nil) vec ->
  initialKind v <> NoButterflyArrayPart /\
  kind_ok (initialKind v) (<[i := v]> (vec ++ replicate n Nil)).
Proof.
  intros Hn. unfold initialKind. destruct (IsInt32 v) eqn:E1; [|destruct (IsDouble v) eqn:E2]; split; try done; simpl.
  - apply Forall_insert_app; [|done|by rewrite E1]. eapply Forall_impl; [done|]. by intros x ->.
  - apply Forall_insert_app; [|done|by rewrite E2]. eapply Forall_impl; [done|]. by intros x ->.
Qed.

Lemma view_no_array s named len cap vec sc : view s named len cap vec sc ->
  ArrayKind (m_arrayType (st_table s)) = NoButterflyArrayPart ->
  no_array (m_arrayType (st_table s)) /\ len = 0 /\ cap <= x_alwaysVectorCutoff /\
  Forall (fun x => x = Nil) vec /\ sc = no_sparse.
Proof.
  intros [(_ & _ & _ & Hsh)|((_ & _ & Hno) & -> & -> & -> & -> & ->)] Hk; [|by split_and!].
  destruct Hsh; try done; congruence.
Qed.

(** The state after the optional growth of a table without array part. *)
Lemma NoArrayPart_grow s named len cap vec sc index Q F :
  view s named len cap vec sc -> len = 0 -> 1 <= index <= x_alwaysVectorCutoff ->
  (forall cap1, cap <= cap1 <= x_unconditionallySparseMapCutoff -> index <= cap1 ->
     let vec1 := vec ++ replicate (Z.to_nat (cap1 - cap)) Nil in
     bf_ok named 0 cap1 vec1 ->
     Q tt (with_butterfly s (mk_bf named 0 cap1 vec1))) ->
  wp (match m_butterfly (st_table s) with
      | None => mret true
      | Some b =>
          currentCapacity ← access (m_arrayStorageCapacity b);
          mret (currentCapacity + x_arrayBaseOrd <=? index)
      end) s
    (fun needToGrowOrCreateButterfly s1 =>
       wp (if (needToGrowOrCreateButterfly : bool)
           then GrowButterfly false (at_least_index x_initialVectorPartCapacity index) else mret tt)
         s1 Q F) F.
Proof.
  intros Hv -> Hi HQ. unfold x_alwaysVectorCutoff in Hi.
  assert (1 <= index <= x_unconditionallySparseMapCutoff) as Hi'
    by (unfold x_unconditionallySparseMapCutoff; pow2; lia).
  assert (0 <= x_initialVectorPartCapacity <= x_unconditionallySparseMapCutoff) as H4
    by (unfold x_unconditionallySparseMapCutoff, x_initialVectorPartCapacity; pow2; lia).
  destruct Hv as [(Hb & Hok & Hn & Hsh)|((Hb & Hn & Hno) & -> & _ & -> & -> & ->)]; rewrite Hb.
  - wp1. eapply wp_access; [by apply m_arrayStorageCapacity_mk|]. wp1. pose proof Hok as [_ Hcap _ _].
    unfold x_arrayBaseOrd. destruct (Z.leb_spec (cap + 1) index).
    + rewrite at_least_index_spec by done.
      eapply wp_Grow_array; try done; [unfold x_initialVectorPartCapacity in *; lia|].
      apply HQ; [unfold x_initialVectorPartCapacity in *; lia..|].
      eapply grown_ok; [done|unfold in_i; pow2; lia|unfold x_initialVectorPartCapacity in *; lia].
    + wp1. specialize (HQ cap ltac:(lia) ltac:(lia)). cbv zeta in HQ.
      rewrite Z.sub_diag, app_nil_r, with_butterfly_id in HQ by done. by apply HQ.
  - wp1. rewrite at_least_index_spec by done.
    eapply wp_Grow_null; [done|unfold x_initialVectorPartCapacity in *; lia|].
    specialize (HQ (Z.max x_initialVectorPartCapacity index)
      ltac:(unfold x_initialVectorPartCapacity in *; lia) ltac:(lia)).
    cbv zeta in HQ. rewrite Z.sub_0_r in HQ. apply HQ.
    split; simpl; rewrite ?length_replicate;
      unfold in_i, x_initialVectorPartCapacity, x_maxNamedStorageCapacity in *; pow2; lia.
Qed.

(** The first element put in a vector of nils. *)
Lemma first_element_shape sp a index v cap vec n :
  ArrayKind a = initialKind v -> IsContinuous a = (index =? x_arrayBaseOrd) ->
  HasSparseMap a = false -> SparseMapContainsVectorIndex a = false -> IsNil v = false -> Forall (fun x => x = Nil) vec -> 1 <= index <= cap ->
  length (vec ++ replicate n Nil) = Z.to_nat cap ->
  shape sp XXH3_64bits a (if index =? x_arrayBaseOrd then 1 else -1) cap
    (<[Z.to_nat (index - 1) := v]> (vec ++ replicate n Nil)) no_sparse.
Proof.
  intros Ek Ec Hs Hvi Hv Hn Hi Hl.
  destruct (initialKind_ok v vec n (Z.to_nat (index - 1)) Hn) as [Hk Hok].
  unfold x_arrayBaseOrd in *. destruct (Z.eqb_spec index 1) as [->|Hne].
  - apply sh_continuous; rewrite ?Ek; try done; [lia|].
    intros i x. change (Z.to_nat (1 - 1)) with 0%nat. intros Hx.
    destruct i as [|i].
    + rewrite list_lookup_insert_eq in Hx by lia. injection Hx as <-. rewrite Hv. lia.
    + rewrite list_lookup_insert_ne in Hx by lia.
      assert (x = Nil) as ->; [|split; [done|lia]].
      assert (Forall (fun x => x = Nil) (vec ++ replicate n Nil)) as Hall
        by (apply Forall_app; split; [done|by apply Forall_replicate]).
      rewrite Forall_lookup in Hall. by eapply Hall.
  - apply sh_vector; by rewrite ?Ek.
Qed.

Lemma PutSlow_NoArrayPart_spec s index v : inv s -> 1 <= index <= x_unconditionallySparseMapCutoff ->
  ArrayKind (m_arrayType (st_table s)) = NoButterflyArrayPart ->
  wp (PutSlow_NoArrayPart XXH3_64bits index v (m_arrayType (st_table s))) s
    (fun r s1 => decided s index v r s1) (exhausted s).
Proof.
  intros Hinv Hi Hk. destruct (inv_view s Hinv) as (Ha & named & len & cap & vec & sc & Hv).
  destruct (view_no_array s _ _ _ _ _ Hv Hk) as (Hno & -> & Hc1000 & Hnil & ->).
  unfold PutSlow_NoArrayPart. wp1.
  { wp1. apply put_ok_noop; [done|]. intros k _. rewrite (view_content s named 0 cap vec no_sparse) by done.
    rewrite cont_of_nil by done. unfold IsNil in E. by zbool. }
  wp1.
  { zbool. wp1. eapply wp_mono; [by eapply (put_sparse_index s named 0 cap vec no_sparse); try done; lia| |done].
    intros [] s1 Hs1. by wp1. }
  zbool. wp1. wp1. wp1.
  eapply wp_mono; [|intros b s' Hb; apply wp_bind; exact Hb|exact (fun h => h)].
  eapply NoArrayPart_grow; [exact Hv|done|lia|]. intros cap1 Hc1 Hi1 vec1 Hok1. wp1.
  set (s1 := with_butterfly s _).
  assert (forall len1, in_i 32 len1 -> len1 = (if index =? x_arrayBaseOrd then 1 else -1) ->
    wp (mret (Some (SetArrayKind (SetIsContinuous (m_arrayType (st_table s)) (index =? x_arrayBaseOrd))
        (initialKind v)))) (with_butterfly s1 (mk_bf named len1 cap1 vec1))
      (fun r s1 => decided s index v r s1) (exhausted s)) as Hend.
  { intros len1 Hl1 El1. wp1. exists named, 0, cap, vec, no_sparse, len1, cap1, vec1.
    destruct (view_vec _ _ _ _ _ _ Hv) as [Hlv Hcv].
    split_and!; try done; [by destruct Hok1|lia| | | | |].
    - destruct Ha as [? ? ? ? ?]. auto with words.
    - by autorewrite with atype.
    - subst len1. destruct Hno as (_ & _ & ? & ?).
      eapply first_element_shape; autorewrite with atype; try done; [lia|by destruct Hok1].
    - destruct Hno as (_ & _ & Hns & _). autorewrite with atype. congruence.
    - intros k. apply cont_put_vec; try done; lia. }
  destruct (index =? x_arrayBaseOrd) eqn:Ei.
  - eapply wp_update_butterfly; [done|by apply set_arrayLengthIfContinuous_mk|].
    apply Hend; [unfold in_i; pow2; lia|done].
  - eapply wp_update_butterfly; [done|by apply set_arrayLengthIfContinuous_mk|].
    apply Hend; [unfold in_i; pow2; lia|done].
Qed.

(** The density loop reads the whole vector and nothing else. *)
Lemma countNonNil_total named len cap vec : bf_ok named len cap vec ->
  forall n i acc, 1 <= i -> i + Z.of_nat n <= cap + 1 ->
  exists c, countNonNil (mk_bf named len cap vec) i n acc = Some c.
Proof.
  intros Hok n. induction n as [|n IH]; intros i acc Hi Hn; simpl; [by eexists|].
  rewrite GetInVector_mk by lia.
  destruct (lookup_lt_is_Some_2 vec (Z.to_nat (i - 1))) as [x ->]; [destruct Hok; lia|].
  simpl. apply IH; lia.
Qed.

Lemma shouldPut_total named len cap vec index nc c : bf_ok named len cap vec ->
  exists b, shouldPutToSparseMap (mk_bf named len cap vec) index cap nc c = Some b.
Proof.
  intros Hok. unfold shouldPutToSparseMap. destruct (_ <? _); [by eexists|].
  destruct (_ <? _); [|by eexists]. pose proof Hok as [_ Hcap _ _].
  destruct (countNonNil_total named len cap vec Hok (Z.to_nat cap) x_arrayBaseOrd 1) as [k ->];
    [unfold x_arrayBaseOrd; lia..|]. simpl. by eexists.
Qed.

(** The capacity an out-of-bound put grows to. *)
Definition grownCapacity (cap index : Z) : Z :=
  at_least_index (Z.min (u32 (cap * x_vectorGrowthFactor)) (u32 x_unconditionallySparseMapCutoff)) index.

Lemma grownCapacity_spec cap index : 0 <= cap <= x_unconditionallySparseMapCutoff ->
  1 <= index <= x_unconditionallySparseMapCutoff ->
  grownCapacity cap index = Z.max (Z.min (2 * cap) x_unconditionallySparseMapCutoff) index.
Proof.
  intros Hcap Hi. unfold grownCapacity.
  assert (0 <= cap < 2 ^ 28) by (unfold x_unconditionallySparseMapCutoff in *; pow2; lia).
  rewrite (wrapu_small 32 x_unconditionallySparseMapCutoff)
    by (unfold in_u, x_unconditionallySparseMapCutoff; pow2; lia).
  rewrite (wrapu_small 32 (cap * _)) by (unfold in_u, x_vectorGrowthFactor; pow2; lia).
  unfold x_vectorGrowthFactor. rewrite at_least_index_spec by lia. f_equal. f_equal. lia.
Qed.

(** The shapes after an out-of-bound put that grows the vector. *)
Lemma grow_shape sp a len cap vec sc nc index v :
  shape sp XXH3_64bits a len cap vec sc -> ArrayKind a <> NoButterflyArrayPart ->
  SparseMapContainsVectorIndex a = false -> IsNil v = false ->
  length vec = Z.to_nat cap -> 0 <= cap < index -> index <= nc <= x_unconditionallySparseMapCutoff ->
  let isC := IsContinuous a && (index =? len + 1) in
  shape sp XXH3_64bits (widenKind a (SetIsContinuous a isC) v)
    (if isC then len + 1 else if IsContinuous a then -1 else len) nc
    (<[Z.to_nat (index - 1) := v]> (vec ++ replicate (Z.to_nat (nc - cap)) Nil)) sc.
Proof.
  intros Hsh Hk Hvi Hv Hl Hcap Hnc isC.
  destruct (widenKind_fields a (SetIsContinuous a isC) v) as (F1 & F2 & F3 & F4 & F5 & F6 & F7);
    [by autorewrite with atype|]. autorewrite with atype in *.
  assert (ArrayKind (SetIsContinuous a isC) = ArrayKind a) as Hak by (by autorewrite with atype).
  destruct Hsh as [(? & _) ? ? ?|Hk' Hct Hs Hvi' Hlen Hel Hko|Hk' Hct Hs Hvi' Hlen Hko|m Hk' Hct Hs Hlen Hm Hwf Hin Hvq].
  - done.
  - subst isC. rewrite Hct in *. simpl in *. destruct (Z.eqb_spec index (len + 1)) as [Ei|Ei].
    + apply sh_continuous; rewrite ?F1, ?F2, ?F3; try done; [by apply F5|lia| |by apply widenKind_ok].
      intros i x Hx. destruct (decide (i = Z.to_nat (index - 1))) as [->|Hne].
      * rewrite list_lookup_insert_eq in Hx by (rewrite length_app, length_replicate; lia).
        injection Hx as <-. rewrite Hv. lia.
      * rewrite list_lookup_insert_ne in Hx by done. apply lookup_app_Some in Hx as [Hx|[Hge Hx]].
        -- rewrite (Hel i x Hx). lia.
        -- apply lookup_replicate in Hx as [-> Hlt]. split; [done|lia].
    + apply sh_vector; rewrite ?F1, ?F2, ?F3; try done; [by apply F5|by apply widenKind_ok].
  - subst isC. rewrite Hct in *. simpl in *.
    apply sh_vector; rewrite ?F1, ?F2, ?F3; try done; [by apply F5|by apply widenKind_ok].
  - subst isC. rewrite Hct in *. simpl in *.
    apply sh_sparse; rewrite ?F1, ?F2, ?F3; try done; [by apply F6|].
    intros k Hk2. apply Hvq; [done|]. unfold in_vector in *. destruct (IsInt64Index k); [|done].
    zbool. apply andb_true_iff. split; apply Z.leb_le; lia.
Qed.

Lemma OutOfBound_put_nil s named len cap vec sc index v :
  view s named len cap vec sc -> inv s -> IsNil v = true ->
  SparseMapContainsVectorIndex (m_arrayType (st_table s)) = false ->
  1 <= index <= x_unconditionallySparseMapCutoff -> cap < index ->
  put_ok s (double_of_int index) v s.
Proof.
  intros Hv Hinv Hn Hs Hi Hcap. destruct (index_bound index Hi) as [Hb _].
  apply put_ok_noop; [done|]. intros k Hk. rewrite (view_content s named len cap vec sc) by done.
  unfold cont_of. pose proof (proj1 (feq_index index k Hb) Hk) as Ek. rewrite Ek.
  rewrite (proj2 (Z.leb_gt index cap)), andb_false_r by lia.
  rewrite (view_sparse_vq s named len cap vec sc); [unfold IsNil in Hn; by zbool|done|done|].
  unfold in_vector. rewrite Ek. apply andb_true_iff. split; apply Z.leb_le; lia.
Qed.

Lemma PutSlow_OutOfBound_spec s named len cap vec sc index v : inv s ->
  parts s named len cap vec sc -> 1 <= index <= x_unconditionallySparseMapCutoff ->
  ArrayKind (m_arrayType (st_table s)) <> NoButterflyArrayPart -> cap < index ->
  wp (PutSlow_OutOfBound XXH3_64bits index v (m_arrayType (st_table s)) cap) s
    (fun r s1 => decided s index v
       ((fun a0 => widenKind (m_arrayType (st_table s)) a0 v) <$> r) s1) (exhausted s).
Proof.
  intros Hinv Hp Hi Hk Hcap. pose proof Hinv as [Ha _].
  assert (view s named len cap vec sc) as Hv by (by left). pose proof Hp as (Hb & Hok & Hn & Hsh).
  destruct (view_vec _ _ _ _ _ _ Hv) as [Hlv Hcv].
  assert (wp (PutIndexIntoSparseMap XXH3_64bits true (double_of_int index) v;; mret None) s
    (fun r s1 => decided s index v
       ((fun a0 => widenKind (m_arrayType (st_table s)) a0 v) <$> r) s1) (exhausted s)) as Hsparse.
  { wp1. eapply wp_mono; [by eapply (put_sparse_index s named len cap vec sc)| |done].
    intros [] s1 Hs1. by wp1. }
  unfold PutSlow_OutOfBound. wp1; [done|]. rename E into Hvi. wp1; [wp1; by eapply OutOfBound_put_nil|].
  fold (grownCapacity cap index). rewrite grownCapacity_spec by done.
  set (nc := Z.max _ index). set (a := m_arrayType (st_table s)) in *.
  wp1. eapply wp_on_butterfly; [done|by apply m_arrayLengthIfContinuous_mk|].
  unfold x_arrayBaseOrd. set (isC := IsContinuous a && (index =? len + 1)).
  destruct (shouldPut_total named len cap vec index nc isC Hok) as [toSparse Hts].
  wp1. eapply wp_on_butterfly; [done|exact Hts|]. wp1; [done|].
  wp1. assert (index <= nc <= x_unconditionallySparseMapCutoff) as Hnc by lia.
  eapply wp_Grow_array; try done; [lia|].
  set (vec1 := vec ++ replicate (Z.to_nat (nc - cap)) Nil). pose proof Hok as [Hl32 _ _ _].
  set (len1 := if isC then len + 1 else if IsContinuous a then -1 else len).
  assert (in_i 32 len1 /\ (isC = true -> i32 (len + 1) = len1)) as [Hlen1 Hi32].
  { subst len1. destruct isC eqn:Ec; [|split; [destruct (IsContinuous a); [unfold in_i; pow2; lia|done]|done]].
    subst isC. zbool. assert (in_i 32 (len + 1)) by
      (unfold in_i, x_unconditionallySparseMapCutoff in *; pow2; lia).
    split; [done|]. intros _. by apply wraps_small. }
  assert (bf_ok named len1 nc vec1) as Hok1 by (eapply grown_ok; try done; lia).
  assert (wp (mret (Some (SetIsContinuous a isC))) (with_butterfly s (mk_bf named len1 nc vec1))
    (fun r s1 => decided s index v ((fun a0 => widenKind a a0 v) <$> r) s1) (exhausted s)) as Hend.
  { destruct (widenKind_fields a (SetIsContinuous a isC) v) as (F1 & F2 & F3 & F4 & F5 & F6 & F7);
      [by autorewrite with atype|].
    wp1. exists named, len, cap, vec, sc, len1, nc, vec1. split_and!; try done; [lia|lia| | | | |].
    - apply F7. destruct Ha. auto with words.
    - rewrite F4. by autorewrite with atype.
    - apply grow_shape; try done; lia.
    - rewrite F2. autorewrite with atype. intros Hs. rewrite (own_of_parts s named len cap vec sc) by done.
      assert (IsContinuous a = false) as Hnc1 by (destruct Hsh as [(_ & ? & _)|? ? ?|? ?|? ? ?]; congruence).
      subst len1 isC. by rewrite Hnc1.
    - intros k. apply cont_put_vec; try done; try lia. intros key Hk1 Hk2.
      eapply view_sparse_vq; [done|done|]. unfold in_vector in *. destruct (IsInt64Index key); [|done].
      zbool. apply andb_true_iff. split; apply Z.leb_le; lia. }
  wp1. destruct isC eqn:Ec.
  - wp1. eapply wp_on_butterfly; [done|apply m_arrayLengthIfContinuous_mk; by eapply grown_ok; try done; lia|].
    eapply wp_update_butterfly; [done|by apply set_arrayLengthIfContinuous_mk|].
    rewrite Hi32 by done. exact Hend.
  - destruct (IsContinuous a) eqn:Eca.
    + eapply wp_update_butterfly; [done|by apply set_arrayLengthIfContinuous_mk|]. exact Hend.
    + apply wp_ret. exact Hend.
Qed.

(** An in-bound put prepares the header [len1] and the continuity bit [isC]. *)
Lemma ready_inbound s named len cap vec sc index v len1 isC : ambient s ->
  parts s named len cap vec sc -> 1 <= index <= cap -> in_i 32 len1 ->
  (HasSparseMap (m_arrayType (st_table s)) = true -> len1 = len) ->
  (let a := widenKind (m_arrayType (st_table s)) (SetIsContinuous (m_arrayType (st_table s)) isC) v in
   shape (st_sparse s) XXH3_64bits a len1 cap (<[Z.to_nat (index - 1) := v]> vec) sc) ->
  decided s index v
    ((fun a0 => widenKind (m_arrayType (st_table s)) a0 v)
       <$> Some (SetIsContinuous (m_arrayType (st_table s)) isC))
    (with_butterfly s (mk_bf named len1 cap vec)).
Proof.
  intros Ha Hp Hi Hl Hsame Hsh. pose proof (own_of_parts s named len cap vec sc Hp) as Hown. set (a := m_arrayType (st_table s)) in *.
  destruct (widenKind_fields a (SetIsContinuous a isC) v) as (_ & F2 & _ & F4 & _ & _ & F7);
    [by autorewrite with atype|].
  assert (view s named len cap vec sc) as Hv by (by left).
  destruct (view_vec _ _ _ _ _ _ Hv) as [Hlv Hcv]. destruct Hp as (_ & Hok & _).
  exists named, len, cap, vec, sc, len1, cap, vec.
  split_and!; try done; [by destruct Hok|lia|lia| | | |].
  - apply F7. destruct Ha. auto with words.
  - rewrite F4. by autorewrite with atype.
  - rewrite F2. autorewrite with atype. intros Hs. by rewrite Hown, Hsame.
  - intros k. apply cont_put_inbound; [done|lia|lia].
Qed.

Lemma ready_inbound_same s named len cap vec sc index v isC : ambient s ->
  parts s named len cap vec sc -> 1 <= index <= cap ->
  (let a := widenKind (m_arrayType (st_table s)) (SetIsContinuous (m_arrayType (st_table s)) isC) v in
   shape (st_sparse s) XXH3_64bits a len cap (<[Z.to_nat (index - 1) := v]> vec) sc) ->
  decided s index v
    ((fun a0 => widenKind (m_arrayType (st_table s)) a0 v)
       <$> Some (SetIsContinuous (m_arrayType (st_table s)) isC)) s.
Proof.
  intros Ha Hp Hi Hsh. pose proof Hp as (Hb & [] & _).
  pose proof (ready_inbound s named len cap vec sc index v len isC Ha Hp Hi ltac:(done) ltac:(done) Hsh) as X.
  by rewrite with_butterfly_id in X.
Qed.

(** A continuous array whose element [index] becomes [v], the new length being
    [len1]. *)
Lemma inbound_continuous sp a len cap vec index v len1 :
  shape sp XXH3_64bits a len cap vec no_sparse -> IsContinuous a = true ->
  length vec = Z.to_nat cap -> 1 <= index <= cap -> 0 <= len1 <= cap ->
  (IsNil v = false <-> index - 1 < len1) ->
  (forall i, i <> index - 1 -> i < len <-> i < len1) ->
  shape sp XXH3_64bits (widenKind a (SetIsContinuous a true) v) len1 cap
    (<[Z.to_nat (index - 1) := v]> vec) no_sparse.
Proof.
  intros Hsh Hct Hl Hi Hl1 Hv Hother.
  destruct (widenKind_fields a (SetIsContinuous a true) v) as (F1 & F2 & F3 & _ & F5 & _);
    [by autorewrite with atype|]. autorewrite with atype in *.
  inversion Hsh as [(_ & ? & _)|Hk _ Hs Hvi Hlen Hel Hko| |]; subst; try congruence.
  apply sh_continuous; rewrite ?F1, ?F2, ?F3; try done;
    [by apply F5| |apply widenKind_ok_inbound; by autorewrite with atype].
  intros i x Hx. destruct (decide (i = Z.to_nat (index - 1))) as [->|Hne].
  - rewrite list_lookup_insert_eq in Hx by lia. injection Hx as <-. rewrite Hv. lia.
  - rewrite list_lookup_insert_ne in Hx by done. rewrite (Hel i x Hx). apply Hother. lia.
Qed.

(** Any array with a vector stays or becomes non-continuous. *)
Lemma inbound_vector sp a len cap vec index v : shape sp XXH3_64bits a len cap vec no_sparse ->
  IsContinuous a = true ->
  shape sp XXH3_64bits (widenKind a (SetIsContinuous a false) v) (-1) cap
    (<[Z.to_nat (index - 1) := v]> vec) no_sparse.
Proof.
  intros Hsh Hct.
  destruct (widenKind_fields a (SetIsContinuous a false) v) as (F1 & F2 & F3 & _ & F5 & _);
    [by autorewrite with atype|]. autorewrite with atype in *.
  inversion Hsh as [(_ & ? & _)|Hk _ Hs Hvi Hlen Hel Hko| |]; subst; try congruence.
  apply sh_vector; rewrite ?F1, ?F2, ?F3; try done;
    [by apply F5|apply widenKind_ok_inbound; by autorewrite with atype].
Qed.

Lemma inbound_noncontinuous sp a len cap vec index v sc : shape sp XXH3_64bits a len cap vec sc ->
  ArrayKind a <> NoButterflyArrayPart -> IsContinuous a = false ->
  shape sp XXH3_64bits (widenKind a (SetIsContinuous a false) v) len cap
    (<[Z.to_nat (index - 1) := v]> vec) sc.
Proof.
  intros Hsh Hk Hct.
  destruct (widenKind_fields a (SetIsContinuous a false) v) as (F1 & F2 & F3 & _ & F5 & F6 & _);
    [by autorewrite with atype|]. autorewrite with atype in *.
  destruct Hsh as [(? & _)|? ?|? ? Hs Hvi Hlen Hko|m Hk' ? Hs Hlen Hm Hwf Hin Hvq]; try congruence.
  - apply sh_vector; rewrite ?F1, ?F2, ?F3; try done;
      [by apply F5|apply widenKind_ok_inbound; by autorewrite with atype].
  - apply sh_sparse; rewrite ?F1, ?F2, ?F3; try done. by apply F6.
Qed.

Lemma PutSlow_InBound_spec s named len cap vec sc index v : inv s ->
  parts s named len cap vec sc -> ArrayKind (m_arrayType (st_table s)) <> NoButterflyArrayPart ->
  1 <= index <= cap ->
  wp (PutSlow_InBound index v (m_arrayType (st_table s))) s
    (fun r s1 => decided s index v
       ((fun a0 => widenKind (m_arrayType (st_table s)) a0 v) <$> r) s1) (exhausted s).
Proof.
  intros Hinv Hp Hk Hi. pose proof Hinv as [Ha _]. pose proof Hp as (Hb & Hok & Hn & Hsh).
  assert (view s named len cap vec sc) as Hv by (by left).
  destruct (view_vec _ _ _ _ _ _ Hv) as [Hlv Hcv]. pose proof Hok as [Hl32 _ _ _].
  unfold PutSlow_InBound. wp1; rename E into Hct.
  2:{ wp1. eapply ready_inbound_same; try done. by apply inbound_noncontinuous. }
  inversion Hsh as [(_ & ? & _)|_ _ Hs Hvi Hlen Hel Hko| |]; subst sc; try congruence.
  wp1. eapply wp_on_butterfly; [done|by apply m_arrayLengthIfContinuous_mk|].
  assert (len <= 2 ^ 27) by (unfold x_unconditionallySparseMapCutoff in *; lia).
  unfold x_arrayBaseOrd. rewrite (wraps_small 32 (len + 1)) by (unfold in_i; pow2; lia).
  assert (forall len1 isC, in_i 32 len1 ->
    shape (st_sparse s) XXH3_64bits
      (widenKind (m_arrayType (st_table s)) (SetIsContinuous (m_arrayType (st_table s)) isC) v)
      len1 cap (<[Z.to_nat (index - 1) := v]> vec) no_sparse ->
    wp (update_butterfly (fun b => set_arrayLengthIfContinuous b len1);;
        mret (Some (SetIsContinuous (m_arrayType (st_table s)) isC))) s
      (fun r s1 => decided s index v
         ((fun a0 => widenKind (m_arrayType (st_table s)) a0 v) <$> r) s1) (exhausted s)) as Hset.
  { intros len1 isC Hl1 Hsh1. wp1.
    eapply wp_update_butterfly; [done|by apply set_arrayLengthIfContinuous_mk|]. wp1.
    eapply ready_inbound; try done. congruence. }
  wp1; rename E into Hnil; wp1; zbool.
  - wp1. apply put_ok_noop; [done|]. intros k Hk1.
    rewrite (view_content s named len cap vec no_sparse) by done. unfold cont_of.
    destruct (index_bound index ltac:(lia)) as [Hb53 _].
    rewrite (proj1 (feq_index index k Hb53) Hk1). unfold IsNil in Hnil. zbool. subst v.
    destruct (_ && _); [|done]. destruct (vec !! Z.to_nat (index - 1)) as [x|] eqn:Ex; [|done]. simpl.
    destruct (IsNil x) eqn:Enx; [unfold IsNil in Enx; by zbool|].
    apply (Hel _ _ Ex) in Enx. lia.
  - wp1; zbool.
    + apply Hset; [unfold in_i; pow2; lia|].
      eapply inbound_continuous; try done; [lia|rewrite Hnil; split; [done|lia]|lia].
    + apply Hset; [unfold in_i; pow2; lia|]. by eapply inbound_vector.
  - apply Hset; [unfold in_i; pow2; lia|]. by eapply inbound_vector.
  - destruct (Z.eqb_spec index (len + 1)) as [->|Hne].
    + apply Hset; [unfold in_i; pow2; lia|].
      eapply inbound_continuous; try done; [lia|rewrite Hnil; split; [lia|done]|lia].
    + wp1. wp1. wp1. eapply ready_inbound_same; try done.
      eapply inbound_continuous; try done. rewrite Hnil. split; [lia|done].
Qed.

(** *** The slow path *)

(** An index whose conversion to double is exact: every [int32_t], and every
    index [IsInt64Index] produces. *)
Definition exact (i : Z) : Prop := IsInt64Index (double_of_int i) = Some i.

Lemma exact_of_index key i : IsInt64Index key = Some i -> exact i /\ in_i 64 i.
Proof.
  intros Hk. destruct (IsInt64Index_Some key i Hk) as (Hi & Hf & _). split; [|done].
  unfold exact. by rewrite (IsInt64Index_proper _ _ Hf).
Qed.

Lemma in_vector_exact cap i : exact i -> in_vector cap (double_of_int i) = (1 <=? i) && (i <=? cap).
Proof. intros Hi. unfold in_vector. by rewrite Hi. Qed.

Lemma PutSlow_decide_spec s i v : inv s -> 1 <= i <= x_unconditionallySparseMapCutoff ->
  wp (PutSlow_decide XXH3_64bits i v) s (fun r s1 => decided s i v r s1) (exhausted s).
Proof.
  intros Hinv Hi. unfold PutSlow_decide. wp1. wp1. wp1.
  { apply bool_decide_eq_true in E. by apply PutSlow_NoArrayPart_spec. }
  apply bool_decide_eq_false in E.
  destruct (inv_view s Hinv) as (Ha & named & len & cap & vec & sc & [Hp|((_ & _ & Hno & _) & _)]); [|done].
  pose proof Hp as (Hb & Hok & _). wp1.
  eapply wp_on_butterfly; [done|by apply m_arrayStorageCapacity_mk|]. wp1.
  unfold x_arrayBaseOrd. wp1; zbool.
  - eapply wp_mono; [eapply PutSlow_OutOfBound_spec; try done; lia| |done]. intros r s1 Hr. by wp1.
  - eapply wp_mono; [eapply PutSlow_InBound_spec; try done; lia| |done]. intros r s1 Hr. by wp1.
Qed.

Lemma PutByIntegerIndexSlow_spec s i v : inv s -> in_i 64 i -> exact i ->
  wp (PutByIntegerIndexSlow XXH3_64bits i v) s
    (fun _ s' => put_ok s (double_of_int i) v s') (exhausted s).
Proof.
  intros Hinv Hi64 Hex. destruct (inv_view s Hinv) as (Ha & named & len & cap & vec & sc & Hv).
  destruct (view_vec _ _ _ _ _ _ Hv) as [_ Hcv].
  unfold PutByIntegerIndexSlow. unfold x_arrayBaseOrd. wp1.
  - assert (IsVectorQualifyingIndex (double_of_int i) = false) as Hvq.
    { rewrite IsVectorQualifyingIndex_in_vector, in_vector_exact by done.
      apply orb_true_iff in E as [E|E]; zbool; apply andb_false_iff; [left|right]; apply Z.leb_gt; lia. }
    rewrite <- Hvq. eapply PutIndexIntoSparseMap_spec; [done|done|by apply index_not_nan|].
    rewrite in_vector_exact by done.
    apply orb_true_iff in E as [E|E]; zbool; apply andb_false_iff; [left|right]; apply Z.leb_gt; lia.
  - zbool. assert (1 <= i <= x_unconditionallySparseMapCutoff) as Hi by lia.
    rewrite wraps_small by (try lia; unfold in_i, x_unconditionallySparseMapCutoff in *; pow2; lia).
    wp1. eapply wp_mono; [by apply PutSlow_decide_spec| |done]. intros [a|] s1 Hd; simpl in Hd.
    + by apply write_finish.
    + by wp1.
Qed.

(** *** The fast paths *)

(** A value that passes the check of its array needs no change of the array type. *)
Lemma widenKind_continuous a v :
  CheckValueMeetsPreconditionForPutByIntegerIndexFastPath v (continuousCheck (ArrayKind a)) = true ->
  widenKind a a v = a /\ IsNil v = false.
Proof.
  unfold widenKind. destruct (ArrayKind a) eqn:Ek; simpl; intros E.
  - by apply negb_true_iff in E.
  - rewrite E. simpl. split; [done|]. unfold IsNil. destruct (Z.eqb_spec v Nil) as [->|]; [|done].
    by rewrite IsInt32_Nil in E.
  - rewrite E. simpl. split; [done|]. unfold IsNil. destruct (Z.eqb_spec v Nil) as [->|]; [|done].
    by rewrite IsDouble_Nil in E.
  - by apply negb_true_iff in E.
Qed.

Lemma widenKind_inBound a v :
  CheckValueMeetsPreconditionForPutByIntegerIndexFastPath v (inBoundCheck (ArrayKind a)) = true ->
  widenKind a a v = a.
Proof.
  unfold widenKind. destruct (ArrayKind a) eqn:Ek; simpl; intros E; try done.
  - by destruct (IsInt32 v), (IsNil v).
  - by destruct (IsDouble v), (IsNil v).
Qed.

(** [s'] is the state the slow path ends in. *)
Definition slow_result s i v s' : Prop := PutByIntegerIndexSlow XXH3_64bits i v s = Ok (tt, s').

Lemma slow_result_wp s i v s' :
  wp (PutByIntegerIndexSlow XXH3_64bits i v) s (fun _ s2 => s2 = s') False -> slow_result s i v s'.
Proof. unfold slow_result. intros Hw. destruct (wp_returns _ _ _ Hw) as ([] & s2 & -> & ->). done. Qed.

Lemma wp_update_array_type_same s a Q F : m_arrayType (st_table s) = a -> Q tt s ->
  wp (update_array_type a) s Q F.
Proof. intros <- HQ. unfold update_array_type. wp1. wp1. by rewrite Z.eqb_refl. Qed.

(** The slow path on an in-bound put that keeps the array type. *)
Lemma slow_inbound_same s named len cap vec sc i v isC len1 :
  parts s named len cap vec sc -> ArrayKind (m_arrayType (st_table s)) <> NoButterflyArrayPart ->
  useful (m_arrayType (st_table s)) -> 1 <= i <= cap ->
  IsContinuous (m_arrayType (st_table s)) = isC ->
  widenKind (m_arrayType (st_table s)) (m_arrayType (st_table s)) v = m_arrayType (st_table s) ->
  (isC = true -> IsNil v = false /\ i <= len + 1 /\ 0 <= len <= cap /\ len1 = if i =? len + 1 then len + 1 else len) ->
  (isC = false -> len1 = len) ->
  slow_result s i v (with_butterfly s (mk_bf named len1 cap (<[Z.to_nat (i - 1) := v]> vec))).
Proof.
  intros (Hb & Hok & _ & _) Hk Hu Hi Hct Hw H1 H2. apply slow_result_wp.
  pose proof Hok as [Hl32 Hcv _ _].
  assert (i <= 2 ^ 27) by (unfold x_unconditionallySparseMapCutoff in Hcv; lia).
  unfold PutByIntegerIndexSlow. unfold x_arrayBaseOrd. wp1.
  { apply orb_true_iff in E as [E|E]; zbool; lia. }
  rewrite wraps_small by (try lia; unfold in_i; pow2; lia).
  wp1. unfold PutSlow_decide. wp1. wp1. rewrite bool_decide_eq_false_2 by done. wp1.
  eapply wp_on_butterfly; [done|by apply m_arrayStorageCapacity_mk|]. unfold x_arrayBaseOrd.
  rewrite (proj2 (Z.leb_gt _ _)) by lia. wp1. unfold PutSlow_InBound.
  assert (SetIsContinuous (m_arrayType (st_table s)) isC = m_arrayType (st_table s)) as Hid
    by (rewrite <- Hct; by apply SetIsContinuous_id).
  destruct (IsContinuous (m_arrayType (st_table s))) eqn:Ec; subst isC; rewrite ?Hid.
  - destruct (H1 eq_refl) as (Hnil & Hle & Hlc & ->).
    wp1. eapply wp_on_butterfly; [done|by apply m_arrayLengthIfContinuous_mk|].
    unfold x_arrayBaseOrd. assert (in_i 32 (len + 1)) by (unfold in_i, x_unconditionallySparseMapCutoff in *; pow2; lia).
    rewrite (wraps_small 32 (len + 1)) by (done || lia). rewrite Hnil.
    rewrite (proj2 (Z.ltb_ge _ _)) by lia. wp1. destruct (Z.eqb_spec i (len + 1)) as [Ei|Ei].
    + eapply wp_update_butterfly; [done|by apply set_arrayLengthIfContinuous_mk|].
      replace (len + 1 + 1 - 1) with (len + 1) by lia. wp1. wp1. simpl. rewrite Hw. wp1.
      eapply wp_update_butterfly; [done|apply SetInVector_mk; [|lia]; by destruct Hok|].
      by apply wp_update_array_type_same.
    + wp1. wp1. wp1. simpl. rewrite Hw. wp1.
      eapply wp_update_butterfly; [done|by apply SetInVector_mk|].
      by apply wp_update_array_type_same.
  - rewrite (H2 eq_refl). wp1. wp1. simpl. rewrite Hw.
    wp1. eapply wp_update_butterfly; [done|by apply SetInVector_mk|].
    by apply wp_update_array_type_same.
Qed.

(** The outcome of a fast path: done exactly as the slow path would, or not
    started. *)
Definition fast_outcome s i v (b : bool) s' : Prop := if b then slow_result s i v s' else s' = s.

Lemma inv_parts s : inv s -> ArrayKind (m_arrayType (st_table s)) <> NoButterflyArrayPart ->
  useful (m_arrayType (st_table s)) /\ exists named len cap vec sc, parts s named len cap vec sc.
Proof.
  intros [[] [(_ & _ & Hno & _)|Hp]] Hk; [done|]. by split.
Qed.

Lemma FastPath_ContinuousArray_spec s i v : inv s -> in_i 64 i ->
  ArrayKind (m_arrayType (st_table s)) <> NoButterflyArrayPart ->
  IsContinuous (m_arrayType (st_table s)) = true ->
  CheckValueMeetsPreconditionForPutByIntegerIndexFastPath v
    (continuousCheck (ArrayKind (m_arrayType (st_table s)))) = true ->
  wp (TryPutByIntegerIndexFastPath_ContinuousArray i v) s (fast_outcome s i v) False.
Proof.
  intros Hinv Hi64 Hk Hct Hck. destruct (widenKind_continuous _ _ Hck) as [Hw Hnil].
  destruct (inv_parts s Hinv Hk) as (Hu & named & len & cap & vec & sc & Hp).
  pose proof Hp as (Hb & Hok & _ & Hsh).
  inversion Hsh as [(_ & ? & _)|_ _ Hs Hvi Hlen Hel Hko| |]; subst; try congruence.
  pose proof Hok as [Hl32 Hcv _ _].
  unfold TryPutByIntegerIndexFastPath_ContinuousArray. wp1.
  eapply wp_on_butterfly; [done|by apply m_arrayLengthIfContinuous_mk|].
  rewrite CanUseFastPath_spec by (done || lia). unfold x_arrayBaseOrd. wp1; zbool.
  - wp1. eapply wp_update_butterfly; [done|apply SetInVector_mk; [done|lia]|]. wp1.
    eapply (slow_inbound_same s named len cap vec _ i v true); try done; [lia|].
    intros _. split_and!; [done|lia..|]. by rewrite (proj2 (Z.eqb_neq _ _)) by lia.
  - destruct (Z.eqb_spec i (len + 1)) as [Ei|Ei]; [|by wp1].
    wp1. eapply wp_on_butterfly; [done|by apply m_arrayStorageCapacity_mk|].
    destruct (Z.eqb_spec i (cap + 1)); [by wp1|].
    wp1. eapply wp_update_butterfly; [done|apply SetInVector_mk; [done|lia]|].
    wp1. eapply wp_update_butterfly; [done|by apply set_arrayLengthIfContinuous_mk|].
    wp1. replace (i + 1 - 1) with (len + 1) by lia.
    rewrite wraps_small by (unfold in_i, x_unconditionallySparseMapCutoff in *; pow2; lia).
    eapply (slow_inbound_same s named len cap vec _ i v true); try done; [lia|].
    intros _. split_and!; [done|lia..|]. by rewrite (proj2 (Z.eqb_eq _ _)) by lia.
Qed.

Lemma FastPath_InBoundPut_spec s i v : inv s -> in_i 64 i ->
  ArrayKind (m_arrayType (st_table s)) <> NoButterflyArrayPart ->
  IsContinuous (m_arrayType (st_table s)) = false ->
  CheckValueMeetsPreconditionForPutByIntegerIndexFastPath v
    (inBoundCheck (ArrayKind (m_arrayType (st_table s)))) = true ->
  wp (TryPutByIntegerIndexFastPath_InBoundPut i v) s (fast_outcome s i v) False.
Proof.
  intros Hinv Hi64 Hk Hct Hck. pose proof (widenKind_inBound _ _ Hck) as Hw.
  destruct (inv_parts s Hinv Hk) as (Hu & named & len & cap & vec & sc & Hp).
  pose proof Hp as (Hb & Hok & _ & _).
  unfold TryPutByIntegerIndexFastPath_InBoundPut. wp1.
  eapply wp_on_butterfly; [done|by apply m_arrayStorageCapacity_mk|].
  rewrite IndexFitsInVectorCapacity_spec
    by (done || (pose proof (bf_ok_cap_u32 _ _ _ _ Hok); unfold in_u; pow2; lia)).
  wp1; zbool; [|by wp1].
  wp1. eapply wp_update_butterfly; [done|apply SetInVector_mk; [done|lia]|]. wp1.
  eapply (slow_inbound_same s named len cap vec _ i v false); try done.
Qed.

Lemma TryPutNoIC_spec s i v : inv s -> in_i 64 i ->
  wp (TryPutByValIntegerIndexFastNoIC i v) s (fast_outcome s i v) False.
Proof.
  intros Hinv Hi. unfold TryPutByValIntegerIndexFastNoIC. wp1. wp1.
  assert (ArrayKind (m_arrayType (st_table s)) = NoButterflyArrayPart ->
          IsContinuous (m_arrayType (st_table s)) = false) as Hno.
  { intros Hk. destruct (inv_view s Hinv) as (_ & named & len & cap & vec & sc & Hv).
    by destruct (view_no_array s _ _ _ _ _ Hv Hk) as ((_ & ? & _) & _). }
  wp1; wp1; try (by wp1).
  - apply FastPath_ContinuousArray_spec; try done. intros Hk. apply Hno in Hk. congruence.
  - apply bool_decide_eq_false in E0. wp1; [|by wp1]. by apply FastPath_InBoundPut_spec.
Qed.

Lemma RawPutByValIntegerIndex_spec s i v : inv s -> in_i 64 i -> exact i ->
  wp (RawPutByValIntegerIndex XXH3_64bits i v) s
    (fun _ s' => put_ok s (double_of_int i) v s') (exhausted s).
Proof.
  intros Hinv Hi Hex. unfold RawPutByValIntegerIndex. wp1.
  eapply wp_mono; [by apply TryPutNoIC_spec| |done].
  pose proof (PutByIntegerIndexSlow_spec s i v Hinv Hi Hex) as Hslow.
  intros [] s1 Ho; simpl in Ho.
  - wp1. unfold slow_result in Ho. unfold wp in Hslow. by rewrite Ho in Hslow.
  - by subst s1.
Qed.

Lemma put_ok_feq s key key' v s' : feq key key' -> put_ok s key v s' -> put_ok s key' v s'.
Proof.
  intros E []. split; try done. intros k. rewrite po_content0.
  by rewrite (feq_congr key key' k).
Qed.

Lemma RawPutByValDoubleIndex_spec s key v : inv s -> IsNaN key = false ->
  wp (RawPutByValDoubleIndex XXH3_64bits key v) s (fun _ s' => put_ok s key v s') (exhausted s).
Proof.
  intros Hinv Hkey. unfold RawPutByValDoubleIndex. destruct (IsInt64Index key) as [i|] eqn:Ek.
  - destruct (exact_of_index key i Ek) as [Hex Hi64]. destruct (IsInt64Index_Some key i Ek) as (_ & Hf & _).
    eapply wp_mono; [by apply RawPutByValIntegerIndex_spec| |done].
    intros [] s'. by apply put_ok_feq.
  - destruct (inv_view s Hinv) as (Ha & named & len & cap & vec & sc & Hv).
    assert (IsVectorQualifyingIndex key = false) as <- by (unfold IsVectorQualifyingIndex; by rewrite Ek).
    eapply PutIndexIntoSparseMap_spec; try done. unfold in_vector. by rewrite Ek.
Qed.

(** *** The inline-cached path *)

Definition with_hc s (h : Hc) : St := mkSt (st_table s) h (st_heap s) (st_sparse s).

Lemma inv_with_hc s h : inv s -> hc_ext (st_hc s) h -> inv (with_hc s h).
Proof.
  intros [[Hh Hsp Hl Hsy Hu] Hp] Hx. destruct (Hx _ Hl) as (Hl' & Hk & Hat & Hn). split.
  - split; simpl; try done. rewrite Hk, Hat. done.
  - destruct Hp as [(Hb & Hn0 & Hno)|(named & len & cap & vec & sc & Hb & Hok & Hn0 & Hsh)].
    + left. split_and!; simpl; try done. by rewrite Hn.
    + right. exists named, len, cap, vec, sc. split_and!; simpl; try done. by rewrite Hn.
Qed.

Lemma put_ok_with_hc s h key v s' : hc_ext (st_hc s) h -> put_ok (with_hc s h) key v s' ->
  put_ok s key v s'.
Proof. intros Hx []. split; try done. by eapply hc_ext_trans. Qed.

(** The stop of an inline-cached put: resources run out before or after the
    transition made by [PreparePutByIntegerIndex]. *)
Definition exhausted_ic s : Prop := exhausted s \/ exists h, hc_ext (st_hc s) h /\ exhausted (with_hc s h).

(** What the inline cache of a put promises. *)
Definition ic_ok s v (ic : PutByIntegerIndexICInfo.t) s1 : Prop :=
  match PutByIntegerIndexICInfo.m_indexCheckKind ic with
  | ForceSlowPath => s1 = s
  | Continuous => s1 = s /\ ArrayKind (m_arrayType (st_table s)) <> NoButterflyArrayPart /\
      IsContinuous (m_arrayType (st_table s)) = true /\
      PutByIntegerIndexICInfo.m_valueCheckKind ic = continuousCheck (ArrayKind (m_arrayType (st_table s)))
  | InBound => s1 = s /\ ArrayKind (m_arrayType (st_table s)) <> NoButterflyArrayPart /\
      IsContinuous (m_arrayType (st_table s)) = false /\
      PutByIntegerIndexICInfo.m_valueCheckKind ic = inBoundCheck (ArrayKind (m_arrayType (st_table s)))
  | NoArrayPart => exists h c, s1 = with_hc s h /\ hc_ext (st_hc s) h /\ IsNil v = false /\
      ArrayKind (m_arrayType (st_table s)) = NoButterflyArrayPart /\
      PutByIntegerIndexICInfo.m_hiddenClass ic = m_hiddenClass (st_table s) /\
      PutByIntegerIndexICInfo.m_newHiddenClass ic = c /\
      PutByIntegerIndexICInfo.m_newArrayType ic
        = SetIsContinuous (SetArrayKind (m_arrayType (st_table s)) (initialKind v)) true /\
      hc_live h c /\
      (hc_kind h c = HcStructure -> hc_arrayType h c = PutByIntegerIndexICInfo.m_newArrayType ic) /\
      hc_butterflyNamedStorageCapacity h c
      = hc_butterflyNamedStorageCapacity (st_hc s) (m_hiddenClass (st_table s))
  end.

Lemma setNew_spec s v vck : inv s -> IsNil v = false ->
  ArrayKind (m_arrayType (st_table s)) = NoButterflyArrayPart ->
  wp (setNewHiddenClassAndArrayType (m_arrayType (st_table s)) vck (initialKind v)) s (ic_ok s v) (exhausted s).
Proof.
  intros [[Hh Hsp Hl Hsy Hu] _] Hv Hk. unfold setNewHiddenClassAndArrayType. wp1. wp1.
  set (a := SetIsContinuous _ _).
  assert (ArrayKind a <> NoButterflyArrayPart) as Ha.
  { subst a. autorewrite with atype. by apply (initialKind_ok v [] 0 0). }
  destruct (bool_decide _) eqn:Eb;
    [apply bool_decide_eq_true in Eb|apply bool_decide_eq_false in Eb].
  - specialize (Hsy Eb).
    destruct (UpdateArrayType_spec (st_hc s) (m_hiddenClass (st_table s)) a Hl Eb)
      as [Ef|(c & h & Eu & Hl' & Hk' & Ha' & Hn' & Hx)].
    + rewrite Hsy. intros E. by rewrite E, Hk in Ha.
    + assert (useful a) as Hua by (subst a; auto with words). exact Hua.
    + rewrite Hsy. subst a. by autorewrite with atype.
    + rewrite Ef. apply wp_fail. right. right. by exists a.
    + rewrite Eu. unfold wp. simpl. exists h, c. by split_and!.
  - wp1. exists (st_hc s), (m_hiddenClass (st_table s)). simpl.
    split_and!; try done; try apply hc_ext_refl; by destruct s.
Qed.

Lemma PreparePut_spec s i v : inv s ->
  wp (PreparePutByIntegerIndex i v) s (ic_ok s v) (exhausted s).
Proof.
  intros Hinv. unfold PreparePutByIntegerIndex. wp1. wp1. wp1; [by wp1|]. wp1.
  - apply bool_decide_eq_true in E0. wp1; [by wp1|].
    assert (forall k, initialKind v = k -> IsNil v = false -> forall vck,
      wp (setNewHiddenClassAndArrayType (m_arrayType (st_table s)) vck k) s (ic_ok s v) (exhausted s)) as Hn.
    { intros k <- Hnil vck. by apply setNew_spec. }
    unfold initialKind in Hn. wp1; [|wp1; [|wp1; [|by wp1]]].
    + apply Hn; [done|]. unfold IsNil.
      destruct (Z.eqb_spec v Nil) as [->|]; [by rewrite IsInt32_Nil in E2|done].
    + apply Hn; [done|]. unfold IsNil.
      destruct (Z.eqb_spec v Nil) as [->|]; [by rewrite IsDouble_Nil in E3|done].
    + apply Hn; [done|]. by apply negb_true_iff in E4.
  - apply bool_decide_eq_false in E0. wp1; wp1; by split_and!.
Qed.

(** The fast path that creates the array part. *)
Lemma Fast_NoArrayPart_spec s i v ic s1 : inv s -> ic_ok s v ic s1 ->
  PutByIntegerIndexICInfo.m_indexCheckKind ic = NoArrayPart ->
  wp (TryPutByIntegerIndexFast i v ic) s1
    (fun b s' => if (b : bool) then put_ok s (double_of_int i) v s' else s' = s1) False.
Proof.
  intros Hinv Hic Hick. unfold ic_ok in Hic. rewrite Hick in Hic.
  destruct Hic as (h & c & -> & Hx & Hnil & Hk & _ & Hc1 & Hat & Hlive & Hsync & Hcap).
  unfold TryPutByIntegerIndexFast. rewrite Hick. wp1; [by wp1|]. wp1. wp1. simpl.
  destruct (m_butterfly (st_table s)) as [b|] eqn:Eb; [|by wp1]. wp1; [by wp1|].
  apply negb_false_iff, Z.eqb_eq in E0. unfold x_arrayBaseOrd in E0. subst i.
  destruct (inv_view s Hinv) as (Ha & named & len & cap & vec & sc & Hv).
  destruct (view_no_array s _ _ _ _ _ Hv Hk) as ((_ & _ & Hsm & Hvi) & -> & Hc1000 & Hall & ->).
  destruct Hv as [Hp|((? & _) & _)]; [|congruence]. pose proof Hp as (Hb & Hok & Hn & Hsh).
  rewrite Eb in Hb. injection Hb as ->. pose proof Hok as [_ Hcv Hlv _].
  wp1. eapply wp_access; [by apply m_arrayStorageCapacity_mk|]. wp1; [|by wp1]. zbool.
  wp1. unfold x_arrayBaseOrd. eapply wp_update_butterfly; [exact Eb|apply SetInVector_mk; [done|lia]|].
  wp1. eapply wp_update_butterfly; [done|by apply set_arrayLengthIfContinuous_mk|].
  unfold wp. simpl. rewrite Hc1, Hat. change (Z.to_nat (1 - 1)) with 0%nat.
  pose proof Ha as [Hh Hsp Hl Hsy Hu].
  eapply (put_ok_intro s _ _ v named 0 cap vec no_sparse 1 cap (<[0%nat := v]> vec) no_sparse); try done.
  - by left.
  - split; simpl; try done; [intros Hks; by rewrite Hsync, Hat|auto with words].
  - split_and!; simpl; try done; [|by rewrite Hcap|].
    + destruct Hok. split; try done. by rewrite length_insert.
    + rewrite <- (app_nil_r vec). change (@nil Z) with (replicate 0 Nil).
      apply (first_element_shape _ _ 1 v cap vec 0); autorewrite with atype; try done; [lia|].
      by rewrite app_nil_r.
  - intros k. change 0%nat with (Z.to_nat (1 - 1)). apply cont_put_inbound; [done|lia|lia].
  - simpl. by autorewrite with atype.
  - simpl. autorewrite with atype. congruence.
Qed.

(** Between the preparation and the put. *)
Record ic_ready s i v (ic : PutByIntegerIndexICInfo.t) s1 : Prop := {
  ir_ok : ic_ok s v ic s1;
  ir_heap : exists h, s1 = with_hc s h /\ hc_ext (st_hc s) h;
  ir_metatable : PutByIntegerIndexICInfo.m_mayHaveMetatable ic = MayHaveMetatable (m_arrayType (st_table s));
  ir_first : PutByIntegerIndexICInfo.m_indexCheckKind ic = NoArrayPart -> i = x_arrayBaseOrd;
  ir_fast : wp (TryPutByIntegerIndexFast i v ic) s1
    (fun b s' => if (b : bool) then put_ok s (double_of_int i) v s' else s' = s1) False;
  ir_slow : wp (PutByIntegerIndexSlow XXH3_64bits i v) s1 (fun _ s' => put_ok s (double_of_int i) v s') (exhausted s1)
}.

Lemma PreparePut_fields s i v ic s1 : PreparePutByIntegerIndex i v s = Ok (ic, s1) ->
  PutByIntegerIndexICInfo.m_mayHaveMetatable ic = MayHaveMetatable (m_arrayType (st_table s)) /\
  (PutByIntegerIndexICInfo.m_indexCheckKind ic = NoArrayPart -> i = x_arrayBaseOrd).
Proof.
  assert (forall vck k, setNewHiddenClassAndArrayType (m_arrayType (st_table s)) vck k s = Ok (ic, s1) ->
    PutByIntegerIndexICInfo.m_mayHaveMetatable ic = MayHaveMetatable (m_arrayType (st_table s))) as Hset.
  { intros vck k. unfold setNewHiddenClassAndArrayType. rewrite (bind_ok _ _ s s s) by done.
    destruct (bool_decide _); [|by intros [= <- _]]. destruct (UpdateArrayType _ _ _) as [[c h]| |]; [|done..]. by intros [= <- _]. }
  unfold PreparePutByIntegerIndex. rewrite (bind_ok _ _ s (st_table s) s) by done. destruct (i <? _); [by intros [= <- _]|].
  destruct (bool_decide _).
  - destruct (Z.eqb_spec i x_arrayBaseOrd) as [->|]; [|by intros [= <- _]]. cbn [negb].
    destruct (IsInt32 v); [by intros ?%Hset|]. destruct (IsDouble v); [by intros ?%Hset|].
    destruct (negb (IsNil v)); [by intros ?%Hset|by intros [= <- _]].
  - destruct (IsContinuous _); by intros [= <- _].
Qed.

(** The heap is the old one, or has a new hidden class. *)
Lemma ic_ok_heap s v ic s1 : ic_ok s v ic s1 -> exists h, s1 = with_hc s h /\ hc_ext (st_hc s) h.
Proof.
  unfold ic_ok. assert (with_hc s (st_hc s) = s) as Hid by (by destruct s). intros Hic.
  destruct (PutByIntegerIndexICInfo.m_indexCheckKind ic);
    [exists (st_hc s)|destruct Hic as (h & _ & ? & ? & _); by exists h|exists (st_hc s); destruct Hic as [Hic _]..];
    (split; [congruence|apply hc_ext_refl]).
Qed.

Lemma PreparePut_ready s i v : inv s -> in_i 64 i -> exact i ->
  wp (PreparePutByIntegerIndex i v) s (ic_ready s i v) (exhausted s).
Proof.
  intros Hinv Hi Hex. destruct (wp_cases _ _ _ _ (PreparePut_spec s i v Hinv)) as [(ic & s1 & E & Hic)|[E Hf]];
    unfold wp; rewrite E; [|done].
  destruct (PreparePut_fields s i v ic s1 E) as [Hmt Hfirst]. destruct (ic_ok_heap s v ic s1 Hic) as (h & Hs1 & Hx).
  assert (inv s1) as Hinv1 by (subst s1; by apply inv_with_hc).
  assert (wp (PutByIntegerIndexSlow XXH3_64bits i v) s1 (fun _ s' => put_ok s (double_of_int i) v s') (exhausted s1)) as Hslow.
  { eapply wp_mono; [by apply (PutByIntegerIndexSlow_spec s1 i v)| |done]. intros [] s'. subst s1. by apply put_ok_with_hc. }
  split; try done; [by exists h|]. clear Hmt Hfirst E.
  destruct (PutByIntegerIndexICInfo.m_indexCheckKind ic) eqn:Ek.
  - unfold TryPutByIntegerIndexFast. rewrite Ek. wp1; by wp1.
  - by eapply Fast_NoArrayPart_spec.
  - unfold ic_ok in Hic. rewrite Ek in Hic. destruct Hic as (-> & Hk & Hct & Hck).
    unfold TryPutByIntegerIndexFast. rewrite Ek, Hck. wp1; [by wp1|]. apply negb_false_iff in E.
    eapply wp_mono; [by apply FastPath_InBoundPut_spec| |done]. intros [] s2 Ho; [|done].
    simpl in Ho. unfold wp, slow_result in *. by rewrite Ho in Hslow.
  - unfold ic_ok in Hic. rewrite Ek in Hic. destruct Hic as (-> & Hk & Hct & Hck).
    unfold TryPutByIntegerIndexFast. rewrite Ek, Hck. wp1; [by wp1|]. apply negb_false_iff in E.
    eapply wp_mono; [by apply FastPath_ContinuousArray_spec| |done]. intros [] s2 Ho; [|done].
    simpl in Ho. unfold wp, slow_result in *. by rewrite Ho in Hslow.
Qed.

Lemma PutWithIC_spec s i v : inv s -> in_i 64 i -> exact i ->
  wp (PutByIntegerIndexWithIC XXH3_64bits i v) s
    (fun _ s' => put_ok s (double_of_int i) v s') (exhausted_ic s).
Proof.
  intros Hinv Hi Hex. unfold PutByIntegerIndexWithIC. wp1.
  eapply wp_mono; [by apply (PreparePut_ready s i v)| |by left]. intros ic s1 [_ (h & -> & Hx) _ _ Hfast Hslow].
  wp1. eapply wp_mono; [exact Hfast| |done]. intros [] s2 Ho; [by wp1|]. subst s2.
  eapply wp_mono; [exact Hslow|done|]. intros He. right. by exists h.
Qed.

(** The preparation alone is a put at no key: nothing equals a NaN. *)
Lemma prepared_same s h nan v : inv s -> hc_ext (st_hc s) h -> IsNaN nan = true -> put_ok s nan v (with_hc s h).
Proof.
  intros Hinv Hx Hn. split; try done; [by apply inv_with_hc|]. intros k. destruct (UnsafeFloatEqual nan k) eqn:E; [|done]. apply feq_nan_l in E. congruence.
Qed.
End writing.
