(* ===== verification/TableLength.v ===== *)
(** * The length operator ([GetTableLengthWithLuaSemantics], [runtime/table_object.h])

    A border of a table is an [n] with [t[n]] non-nil (or [n = 0]) and [t[n+1]]
    nil.  The code finds one by the length word of a continuous array, a binary
    search in the vector, or a galloping search in the sparse map with a linear
    fallback.  The theorem: every path returns a border, and all loops stop.

    Loop bound: 2^32 for every loop; each iteration moves a [uint32_t] in one
    direction. *)

From S2P Require Import Prelude Double TValue ArrayType Butterfly SparseMap Machine HiddenClass TableObject TableArray.

Definition UINT32_MAX : Z := 2 ^ 32 - 1.

Section definitions.
Context {Hc : Type} `{HiddenClassOps Hc} (XXH3_64bits : Z -> Z).
Notation St := (TableObject.St Hc).
Notation M := (M St).

(** [sparseMap->GetByVal(i).IsNil()] for a [uint32_t i]. *)
Definition sparseIsNil (sparseMap : ArraySparseMap) (i : Z) : option bool :=
  v ← GetByVal XXH3_64bits sparseMap (double_of_int i); Some (IsNil v).

(** One iteration of the linear fallback: [while (cur < max && !nil(cur + 1)) cur++]. *)
Definition linear_step (m : ArraySparseMap) (cur : Z) : Z + option Z :=
  if cur <? UINT32_MAX then
    match sparseIsNil m (u32 (cur + 1)) with
    | None => inr None
    | Some true => inr (Some cur)
    | Some false => inl (u32 (cur + 1))
    end
  else inr (Some cur).

(** One iteration of the galloping loop: [Some None] is the jump to the fallback. *)
Definition gallop_step (m : ArraySparseMap) (ub : Z) : Z + option (option Z) :=
  if UINT32_MAX / 2 <=? ub then inr (Some None)
  else
    let ub := u32 (u32 (ub + 1) / 2 * 3) in
    match sparseIsNil m ub with
    | None => inr None
    | Some true => inr (Some (Some ub))
    | Some false => inl ub
    end.

(** One iteration of a binary search for which [isNil] tests a slot. *)
Definition search_step (isNil : Z -> option bool) (r : Z * Z) : (Z * Z) + option Z :=
  let '(lb, ub) := r in
  if lb + 1 <? ub then
    let mid := (lb + ub) / 2 in
    match isNil mid with
    | None => inr None
    | Some true => inl (lb, mid)
    | Some false => inl (mid, ub)
    end
  else inr (Some lb).

(** The result of a bounded loop; running out of the bound is [None] as well. *)
Definition finish {S R} (x : S + option R) : option R := match x with inl _ => None | inr r => r end.

Definition GetTableLengthWithLuaSemanticsSlowPathSlowPath (sparseMap : ArraySparseMap)
    (existentLb : Z) : option Z :=
  match finish (loop (gallop_step sparseMap) (2 ^ 32) existentLb) with
  | None => None
  | Some None => finish (loop (linear_step sparseMap) (2 ^ 32) existentLb)
  | Some (Some ub) =>
      finish (loop (search_step (sparseIsNil sparseMap)) (2 ^ 32) (existentLb, ub))
  end.

Definition vectorIsNil (b : Butterfly) (i : Z) : option bool := v ← word_at b i; Some (IsNil v).

Definition getSparseMap (b : Butterfly) : M ArraySparseMap :=
  len ← access (m_arrayLengthIfContinuous b);
  s ← get_st;
  access (st_sparse s !! GeneralHeapPointer_As len).

Definition GetTableLengthWithLuaSemanticsSlowPath : M Z :=
  t ← get_table;
  let arrType := m_arrayType t in
  butterfly ← access (m_butterfly t);
  arrayStorageCap ← access (m_arrayStorageCapacity butterfly);
  if 0 <? arrayStorageCap then
    nil1 ← access (vectorIsNil butterfly 1);
    if (nil1 : bool) then mret 0
    else
      nilCap ← access (vectorIsNil butterfly arrayStorageCap);
      if (nilCap : bool) then
        access (finish (loop (search_step (vectorIsNil butterfly)) (2 ^ 32) (1, arrayStorageCap)))
      else if HasSparseMap arrType then
        m ← getSparseMap butterfly;
        access (GetTableLengthWithLuaSemanticsSlowPathSlowPath m arrayStorageCap)
      else mret arrayStorageCap
  else if negb (HasSparseMap arrType) then mret 0
  else
    m ← getSparseMap butterfly;
    nil1 ← access (sparseIsNil m 1);
    if (nil1 : bool) then mret 0
    else access (GetTableLengthWithLuaSemanticsSlowPathSlowPath m 1).

Definition TryGetTableLengthWithLuaSemanticsFastPath : M (option Z) :=
  t ← get_table;
  let arrType := m_arrayType t in
  if IsContinuous arrType then
    val ← on_butterfly m_arrayLengthIfContinuous;
    mret (Some (u32 (val - 1 + x_arrayBaseOrd)))
  else if bool_decide (ArrayKind arrType = NoButterflyArrayPart) then mret (Some 0)
  else mret None.

Definition GetTableLengthWithLuaSemantics : M Z :=
  r ← TryGetTableLengthWithLuaSemanticsFastPath;
  match r with Some len => mret len | None => GetTableLengthWithLuaSemanticsSlowPath end.
End definitions.

(** ** Borders *)

(** [n] is a border of the map [f] from integers to values. *)
Definition border (f : Z -> Z) (n : Z) : Prop :=
  0 <= n /\ (n = 0 \/ IsNil (f n) = false) /\ IsNil (f (n + 1)) = true.

Lemma border_intro f n : 0 <= n -> n = 0 \/ IsNil (f n) = false -> IsNil (f (n + 1)) = true ->
  border f n.
Proof. unfold border. auto. Qed.

Lemma search_spec (isNil : Z -> option bool) (f : Z -> bool) lb ub :
  (forall i, lb < i < ub -> isNil i = Some (f i)) -> f lb = false -> f ub = true ->
  0 <= lb < ub -> ub < 2 ^ 32 ->
  exists n, finish (loop (search_step isNil) (2 ^ 32) (lb, ub)) = Some n /\
    lb <= n < ub /\ f n = false /\ f (n + 1) = true.
Proof.
  intros Hn Hl Hu Hlu Hub.
  destruct (loop_measure32 (search_step isNil)
    (fun r => lb <= r.1 /\ r.1 < r.2 /\ r.2 <= ub /\ f r.1 = false /\ f r.2 = true)
    (fun r => exists n, r = Some n /\ lb <= n < ub /\ f n = false /\ f (n + 1) = true)
    (fun r => r.2 - r.1) (lb, ub)) as (r & -> & n & -> & Hq); [|simpl; split_and!; (done || lia)|simpl; lia|by exists n].
  intros [l u] (H1 & H2 & H3 & H4 & H5). simpl in *. unfold search_step.
  destruct (Z.ltb_spec (l + 1) u).
  - assert (l < (l + u) / 2 < u) as Hm.
    { pose proof (Z.div_mod (l + u) 2 ltac:(lia)). pose proof (Z.mod_pos_bound (l + u) 2 ltac:(lia)). lia. }
    rewrite Hn by lia. destruct (f ((l + u) / 2)) eqn:E; simpl; split_and!; (done || lia).
  - exists l. split_and!; try done; [lia|]. by replace (l + 1) with u by lia.
Qed.

Section sparse.
Context (XXH3_64bits : Z -> Z) (m : ArraySparseMap).
Hypothesis m_wf : wf XXH3_64bits m.

Definition spnil (i : Z) : bool := IsNil (content m (double_of_int i)).

Lemma sparseIsNil_spec i : sparseIsNil XXH3_64bits m i = Some (spnil i).
Proof. unfold sparseIsNil. by rewrite GetByVal_content. Qed.

(** A sparse map has fewer than 2^31 keys: no run of non-nil integers is longer. *)
Lemma run_bound a n : 0 <= a -> 0 <= n -> a + n < 2 ^ 53 ->
  (forall i, a < i <= a + n -> spnil i = false) -> n <= 2 ^ 31.
Proof.
  intros Ha Hn Hb Hr. destruct m_wf as (k & Hk & _ & (Hk0 & Hlen & _) & _).
  set (L := map (fun e => IsInt64Index (m_key e)) (m_hashTable m)).
  assert (length (map Some (seqZ (a + 1) n)) <= length L)%nat as Hle.
  { apply NoDup_incl_length.
    - apply NoDup_ListNoDup, NoDup_fmap; [congruence|apply NoDup_seqZ].
    - intros x Hx. apply in_map_iff in Hx as (i & <- & Hi).
      apply list_elem_of_In, elem_of_seqZ in Hi. specialize (Hr i ltac:(lia)). unfold spnil, content in Hr.
      destruct (content_cases (m_hashTable m) (double_of_int i)) as [(j & e & Hj & He & _)|[_ Hc]].
      + apply in_map_iff. exists e. split.
        * rewrite (IsInt64Index_proper _ _ He). apply IsInt64Index_int. lia.
        * apply list_elem_of_In. by eapply list_elem_of_lookup_2.
      + by rewrite Hc in Hr. }
  unfold L in Hle. rewrite !length_map, length_seqZ, Hlen in Hle.
  pose proof (Z.pow_le_mono_r 2 k 31 ltac:(lia) Hk).
  assert (0 < 2 ^ k) by (apply Z.pow_pos_nonneg; lia). lia.
Qed.

Lemma linear_spec lb : 1 <= lb <= x_unconditionallySparseMapCutoff ->
  exists n, finish (loop (linear_step XXH3_64bits m) (2 ^ 32) lb) = Some n /\
    lb <= n < UINT32_MAX /\ (n = lb \/ spnil n = false) /\ spnil (n + 1) = true.
Proof.
  intros Hlb. assert (lb < 2 ^ 28) by (unfold x_unconditionallySparseMapCutoff in *; pow2; lia).
  destruct (loop_measure32 (linear_step XXH3_64bits m)
    (fun cur => lb <= cur <= UINT32_MAX /\ forall i, lb < i <= cur -> spnil i = false)
    (fun r => exists n, r = Some n /\ lb <= n < UINT32_MAX /\ (n = lb \/ spnil n = false) /\ spnil (n + 1) = true)
    (fun cur => UINT32_MAX - cur) lb) as (r & -> & n & -> & Hq); [| | |by exists n].
  - intros cur [Hc Hall]. unfold linear_step. destruct (Z.ltb_spec cur UINT32_MAX).
    + rewrite wrapu_small by (unfold in_u, UINT32_MAX in *; lia). rewrite sparseIsNil_spec.
      destruct (spnil (cur + 1)) eqn:E.
      * exists cur. split_and!; try done; [lia|]. destruct (Z.eq_dec cur lb); [by left|right].
        apply Hall. lia.
      * split; [split; [lia|]|lia]. intros i Hi. destruct (Z.eq_dec i (cur + 1)) as [->|]; [done|].
        apply Hall. lia.
    + exfalso. assert (cur = UINT32_MAX) as -> by lia.
      pose proof (run_bound lb (UINT32_MAX - lb)) as Hb. unfold UINT32_MAX in *.
      assert (2 ^ 32 - 1 - lb <= 2 ^ 31); [|pow2; lia].
      apply Hb; [pow2; lia..|]. intros i Hi. apply Hall. lia.
  - unfold UINT32_MAX. split; [lia|]. intros i Hi. lia.
  - unfold UINT32_MAX. lia.
Qed.

Lemma gallop_spec lb : 1 <= lb <= x_unconditionallySparseMapCutoff ->
  finish (loop (gallop_step XXH3_64bits m) (2 ^ 32) lb) = Some None \/
  exists ub, finish (loop (gallop_step XXH3_64bits m) (2 ^ 32) lb) = Some (Some ub) /\
    lb < ub < 2 ^ 32 /\ spnil ub = true.
Proof.
  intros Hlb. assert (lb < 2 ^ 28) by (unfold x_unconditionallySparseMapCutoff in *; pow2; lia).
  destruct (loop_measure32 (gallop_step XXH3_64bits m)
    (fun ub => lb <= ub < 2 ^ 32)
    (fun r => r = Some None \/ exists ub, r = Some (Some ub) /\ lb < ub < 2 ^ 32 /\ spnil ub = true)
    (fun ub => UINT32_MAX - ub) lb) as (r & -> & [->|(ub & -> & Hq)]); [|lia|unfold UINT32_MAX; lia|by left|right; by exists ub].
  intros ub Hub. unfold gallop_step. change (UINT32_MAX / 2) with (2 ^ 31 - 1).
  destruct (Z.leb_spec (2 ^ 31 - 1) ub); [by left|].
  rewrite (wrapu_small 32 (ub + 1)) by (unfold in_u; lia).
  assert (ub < (ub + 1) / 2 * 3 < 2 ^ 32) as Hg.
  { pose proof (Z.div_mod (ub + 1) 2 ltac:(lia)). pose proof (Z.mod_pos_bound (ub + 1) 2 ltac:(lia)).
    pow2. lia. }
  rewrite wrapu_small by (unfold in_u; lia). rewrite sparseIsNil_spec.
  destruct (spnil _) eqn:E.
  - right. eexists. split_and!; [done|lia|lia|done].
  - unfold UINT32_MAX. lia.
Qed.

Lemma SlowPathSlowPath_spec lb : 1 <= lb <= x_unconditionallySparseMapCutoff ->
  exists n, GetTableLengthWithLuaSemanticsSlowPathSlowPath XXH3_64bits m lb = Some n /\
    lb <= n < UINT32_MAX /\ (n = lb \/ spnil n = false) /\ spnil (n + 1) = true.
Proof.
  intros Hlb. unfold GetTableLengthWithLuaSemanticsSlowPathSlowPath.
  destruct (gallop_spec lb Hlb) as [->|(ub & -> & Hub & Hnil)]; [by apply linear_spec|].
  set (f i := if i =? lb then false else spnil i).
  destruct (search_spec (sparseIsNil XXH3_64bits m) f lb ub) as (n & -> & Hn & Hf & Hf1); unfold f in *.
  - intros i Hi. rewrite (proj2 (Z.eqb_neq i lb)) by lia. apply sparseIsNil_spec.
  - by rewrite Z.eqb_refl.
  - by rewrite (proj2 (Z.eqb_neq ub lb)) by lia.
  - lia.
  - lia.
  - exists n. rewrite (proj2 (Z.eqb_neq (n + 1) lb)) in Hf1 by lia.
    split_and!; try done; try (unfold UINT32_MAX; lia).
    destruct (Z.eqb_spec n lb); [by left|by right].
Qed.
End sparse.

(** ** The length of a table *)

Section table.
Context {Hc : Type} `{HiddenClassLaws Hc} (XXH3_64bits : Z -> Z).
Notation St := (TableObject.St Hc).
Implicit Types (s : St).

(** [t[i]]. *)
Definition elem (s : St) (i : Z) : Z := array_content s (double_of_int i).

Lemma elem_parts s named len cap vec sc i : parts XXH3_64bits s named len cap vec sc ->
  Z.abs i < 2 ^ 53 ->
  elem s i = if (1 <=? i) && (i <=? cap) then default Nil (vec !! Z.to_nat (i - 1)) else sc (double_of_int i).
Proof.
  intros Hp Hi. unfold elem. rewrite (parts_content _ _ _ _ _ _ _ _ Hp). unfold cont_of.
  by rewrite IsInt64Index_int by done.
Qed.

Lemma elem_vec s named len cap vec sc i : parts XXH3_64bits s named len cap vec sc ->
  1 <= i <= cap -> vectorIsNil (mk_bf named len cap vec) i = Some (IsNil (elem s i)).
Proof.
  intros Hp Hi. pose proof Hp as (_ & Hok & _). pose proof Hok as [_ Hcap Hl _].
  destruct (index_bound i ltac:(lia)) as [Hb _].
  rewrite (elem_parts _ _ _ _ _ _ i Hp Hb). rewrite (proj2 (Z.leb_le _ _)), (proj2 (Z.leb_le i cap)) by lia.
  unfold vectorIsNil. change (word_at (mk_bf named len cap vec) i) with (GetInVector (mk_bf named len cap vec) i).
  rewrite GetInVector_mk by done.
  destruct (lookup_lt_is_Some_2 vec (Z.to_nat (i - 1)) ltac:(lia)) as [x ->]. done.
Qed.

Lemma no_array_length s : inv XXH3_64bits s ->
  ArrayKind (m_arrayType (st_table s)) = NoButterflyArrayPart -> border (elem s) 0.
Proof.
  intros Hinv Hk. destruct (inv_view _ s Hinv) as (_ & named & len & cap & vec & sc & Hv).
  destruct (view_no_array _ s _ _ _ _ _ Hv Hk) as (_ & -> & _ & Hall & ->).
  split_and!; [lia|by left|]. unfold elem. rewrite (view_content _ s _ _ _ _ _ _ Hv).
  by rewrite cont_of_nil.
Qed.

Lemma FastPath_spec s : inv XXH3_64bits s ->
  wp TryGetTableLengthWithLuaSemanticsFastPath s (fun r s' => s' = s /\
    match r with
    | Some n => border (elem s) n
    | None => IsContinuous (m_arrayType (st_table s)) = false /\
              ArrayKind (m_arrayType (st_table s)) <> NoButterflyArrayPart
    end) False.
Proof.
  intros Hinv. unfold TryGetTableLengthWithLuaSemanticsFastPath. wp1. wp1. wp1.
  - assert (ArrayKind (m_arrayType (st_table s)) <> NoButterflyArrayPart) as Hk.
    { intros Hk. destruct (inv_view _ s Hinv) as (_ & named & len & cap & vec & sc & Hv).
      destruct (view_no_array _ s _ _ _ _ _ Hv Hk) as ((_ & ? & _) & _). congruence. }
    destruct (inv_parts _ s Hinv Hk) as (_ & named & len & cap & vec & sc & Hp).
    pose proof Hp as (Hb & Hok & _ & Hsh). pose proof Hok as [_ Hcap Hl _].
    inversion Hsh as [(_ & ? & _)|_ _ _ _ Hlen Hel _| |]; subst; try congruence.
    assert (0 <= cap < 2 ^ 28) by (unfold x_unconditionallySparseMapCutoff in *; pow2; lia).
    wp1. eapply wp_on_butterfly; [done|by apply m_arrayLengthIfContinuous_mk|]. wp1. split; [done|].
    unfold x_arrayBaseOrd. replace (len - 1 + 1) with len by lia.
    rewrite wrapu_small by (unfold in_u; pow2; lia).
    assert (forall i, 1 <= i <= cap -> IsNil (elem s i) = false <-> i <= len) as Hi.
    { intros i Hi. rewrite (elem_parts _ _ _ _ _ _ i Hp) by (pow2; lia).
      rewrite (proj2 (Z.leb_le _ _)), (proj2 (Z.leb_le i cap)) by lia. simpl.
      destruct (lookup_lt_is_Some_2 vec (Z.to_nat (i - 1)) ltac:(lia)) as [x Hx]. rewrite Hx. simpl.
      rewrite (Hel _ _ Hx). lia. }
    split_and!; [lia| |].
    + destruct (Z.eq_dec len 0); [by left|right]. apply Hi; lia.
    + destruct (Z.eq_dec len cap) as [->|].
      * rewrite (elem_parts _ _ _ _ _ _ _ Hp) by (pow2; lia).
        by rewrite (proj2 (Z.leb_gt (cap + 1) cap)), andb_false_r by lia.
      * apply not_false_iff_true. rewrite Hi by lia. lia.
  - wp1.
    + apply bool_decide_eq_true in E0. wp1. split; [done|by apply no_array_length].
    + apply bool_decide_eq_false in E0. by wp1.
Qed.

Lemma getSparseMap_spec s named len cap vec sc F : parts XXH3_64bits s named len cap vec sc ->
  HasSparseMap (m_arrayType (st_table s)) = true ->
  wp (getSparseMap (mk_bf named len cap vec)) s
    (fun m s' => s' = s /\ wf XXH3_64bits m /\ forall k, content m k = sc k) F.
Proof.
  intros (Hb & Hok & _ & Hsh) Hs. unfold getSparseMap. wp1.
  eapply wp_access; [by apply m_arrayLengthIfContinuous_mk|]. wp1. wp1.
  destruct Hsh as [(_ & _ & ? & _)|? ? ? ?|? ? ? ?|m ? ? _ ? Hm Hwf]; try congruence.
  by eapply wp_access.
Qed.

Lemma length_slow_spec s named len cap vec sc : parts XXH3_64bits s named len cap vec sc ->
  wp (GetTableLengthWithLuaSemanticsSlowPath XXH3_64bits) s
    (fun n s' => s' = s /\ border (elem s) n) False.
Proof.
  intros Hp. pose proof Hp as (Hb & Hok & _ & Hsh). pose proof Hok as [_ Hcap Hl _].
  assert (0 <= cap < 2 ^ 28) by (unfold x_unconditionallySparseMapCutoff in *; pow2; lia).
  assert (forall i, cap < i < 2 ^ 53 -> elem s i = sc (double_of_int i)) as Hout.
  { intros i Hi. rewrite (elem_parts _ _ _ _ _ _ i Hp) by lia.
    by rewrite (proj2 (Z.leb_gt i cap)), andb_false_r by lia. }
  unfold GetTableLengthWithLuaSemanticsSlowPath. wp1. wp1. wp1. eapply wp_access; [done|].
  wp1. eapply wp_access; [by apply m_arrayStorageCapacity_mk|]. wp1; zbool.
  - wp1. eapply wp_access; [eapply elem_vec; [done|lia]|]. wp1.
    { wp1. split; [done|]; apply border_intro; try done; by left. }
    wp1. eapply wp_access; [eapply elem_vec; [done|lia]|]. wp1.
    + destruct (search_spec (vectorIsNil (mk_bf named len cap vec)) (fun i => IsNil (elem s i)) 1 cap)
        as (n & Hs & Hn & Hf & Hf1); try done; try lia.
      * intros i Hi. eapply elem_vec; [done|lia].
      * destruct (Z.eq_dec cap 1); [subst; congruence|lia].
      * eapply wp_access; [exact Hs|]. split; [done|]; apply border_intro; try done; [lia|by right].
    + wp1.
      * wp1. eapply wp_mono; [by eapply getSparseMap_spec| |done].
        intros m s' (-> & Hwf & Hm).
        destruct (SlowPathSlowPath_spec XXH3_64bits m Hwf cap ltac:(lia)) as (n & Hs & Hn & Hf & Hf1).
        eapply wp_access; [exact Hs|]. unfold spnil, UINT32_MAX in *. rewrite Hm in Hf, Hf1.
        split; [done|]; apply border_intro; try done; [lia| |].
        -- right. destruct (Z.eq_dec n cap) as [->|]; [done|]. destruct Hf as [|Hf]; [done|].
           rewrite Hout by (pow2; lia). done.
        -- by rewrite Hout by (pow2; lia).
      * wp1. split; [done|]; apply border_intro; try done; [lia|by right|]. rewrite Hout by (pow2; lia).
        destruct Hsh; try done. congruence.
  - assert (cap = 0) as -> by lia. wp1.
    + apply negb_true_iff in E0. wp1. split; [done|]; apply border_intro; try done; [by left|]. rewrite Hout by (pow2; lia).
      destruct Hsh; try done. congruence.
    + apply negb_false_iff in E0. wp1. eapply wp_mono; [by eapply getSparseMap_spec| |done].
      intros m s' (-> & Hwf & Hm). wp1. eapply wp_access; [by apply sparseIsNil_spec|].
      unfold spnil. rewrite Hm, <- Hout by (pow2; lia). wp1.
      * wp1. split; [done|]; apply border_intro; try done; by left.
      * destruct (SlowPathSlowPath_spec XXH3_64bits m Hwf 1) as (n & Hs & Hn & Hf & Hf1);
          [unfold x_unconditionallySparseMapCutoff; pow2; lia|].
        eapply wp_access; [exact Hs|]. unfold spnil, UINT32_MAX in *. rewrite Hm in Hf, Hf1.
        split; [done|]; apply border_intro; try done; [lia| |].
        -- right. destruct Hf as [->|Hf]; [done|]. by rewrite Hout by (pow2; lia).
        -- by rewrite Hout by (pow2; lia).
Qed.

Lemma table_length_spec s : inv XXH3_64bits s ->
  wp (GetTableLengthWithLuaSemantics XXH3_64bits) s (fun n s' => s' = s /\ border (elem s) n) False.
Proof.
  intros Hinv. unfold GetTableLengthWithLuaSemantics. wp1.
  eapply wp_mono; [by apply FastPath_spec| |done]. intros [n|] s' [-> Hr]; [by wp1|].
  destruct (inv_parts _ s Hinv (proj2 Hr)) as (_ & named & len & cap & vec & sc & Hp).
  by eapply length_slow_spec.
Qed.
End table.
