(* ===== verification/TableTheorems.v ===== *)
(** * Theorems on the array part of tables

    The properties of the array part, stated with the results of the operations
    themselves, from the lemmas of [TableArray] and [TableLength]; creation and
    cloning of tables; and the one reachable state outside of the invariant. *)

From S2P Require Import Prelude Double TValue ArrayType Butterfly SparseMap Machine HiddenClass TableObject TableArray TableLength.

(** ** A small implementation of the hidden-class interface

    A hidden class is the pair of a named-storage capacity and an array type,
    as one number; it is used by the witnesses. *)

Definition flat_class (namedCapacity arrayType : Z) : Z := namedCapacity * 64 + arrayType.

#[export] Instance flat_ops : HiddenClassOps unit := {
  hc_kind _ _ := HcStructure;
  hc_arrayType _ s := s mod 64;
  hc_butterflyNamedStorageCapacity _ s := s / 64;
  UpdateArrayType _ s t := Ok (s / 64 * 64 + t, tt)
}.

#[export] Instance flat_laws : HiddenClassLaws unit.
Proof.
  refine {| hc_live _ s := 0 <= s / 64 <= x_maxNamedStorageCapacity |}.
  - done.
  - intros [] s t Hs _ _ Ht _. right. simpl.
    exists (s / 64 * 64 + t), tt. rewrite Z.div_add_l, (Z.div_small t) by lia.
    rewrite Z.add_0_r. split_and!; try done; [lia..|]. rewrite Z.add_comm, Z_mod_plus_full.
    apply Z.mod_small. lia.
Defined.

(** ** Creation and cloning *)

Section theorems.
Context {Hc : Type} `{HiddenClassLaws Hc} (XXH3_64bits : Z -> Z).
Notation St := (TableObject.St Hc).
Implicit Types (s : St).

(** The part of the state a table does not own is in order. *)
Definition world_ok (h : Hc) (heap : UserHeap) (sparse : gmap Z ArraySparseMap) : Prop :=
  heap_ok heap /\
  forall p m, sparse !! p = Some m ->
    m_userHeapCurPtr heap <= p < - (x_vmBaseOffset - x_vmUserHeapSize) /\ p mod 8 = 0.

(** A hidden class for empty tables. *)
Definition empty_class (h : Hc) (c : Z) : Prop :=
  hc_live h c /\ hc_arrayType h c = 0 /\ hc_butterflyNamedStorageCapacity h c = 0.

Lemma initial_no_array : no_array GetInitialArrayType.
Proof. by vm_compute. Qed.

Lemma create_spec h heap sparse c inl cap : world_ok h heap sparse -> empty_class h c ->
  0 <= inl <= 255 -> 0 <= cap <= x_alwaysVectorCutoff ->
  (exists r s, CreateEmptyTableObjectImpl h heap sparse c inl cap = Ok (r, s) /\
     inv XXH3_64bits s /\ (forall k, array_content s k = Nil)) \/
  (CreateEmptyTableObjectImpl h heap sparse c inl cap = VMFail /\
   heap_exhausted (ComputeObjectAllocationSize inl) heap).
Proof.
  intros [Hh Hsp] (Hl & Hat & Hn) Hi Hcap. unfold CreateEmptyTableObjectImpl.
  assert (ComputeObjectAllocationSize inl = 16 + inl * 8) as Esz.
  { unfold ComputeObjectAllocationSize. apply wrapu_small. unfold in_u. pow2. lia. }
  rewrite Esz.
  destruct (AllocFromUserHeap_spec (16 + inl * 8) heap Hh) as
    [(r & h' & -> & Hh' & Hr & Hcur)|[-> Hex]]; [lia| | |by right].
  { rewrite Z.add_mod, Z_mod_mult by lia. done. }
  left. assert (cap <= x_unconditionallySparseMapCutoff) as Hcut
    by (unfold x_alwaysVectorCutoff, x_unconditionallySparseMapCutoff in *; pow2; lia).
  assert (forall b, ambient (mkSt (mkTable c GetInitialArrayType b (replicate (Z.to_nat inl) Nil)) h h' sparse)) as Ham.
  { intros b. split; simpl; try done.
    intros p m Hp. destruct (Hsp p m Hp). rewrite Hcur, Hr. lia. }
  destruct (Z.ltb_spec 0 cap).
  - rewrite GrowFromNull_array by lia. eexists _, _. split; [done|].
    assert (parts XXH3_64bits (mkSt (mkTable c GetInitialArrayType
        (Some (mk_bf [] 0 cap (replicate (Z.to_nat cap) Nil))) (replicate (Z.to_nat inl) Nil)) h h' sparse)
      [] 0 cap (replicate (Z.to_nat cap) Nil) no_sparse) as Hp.
    { split_and!; simpl; try done.
      - split; [unfold in_i; pow2; lia|lia|by rewrite length_replicate|unfold x_maxNamedStorageCapacity; simpl; lia].
      - apply sh_none; [apply initial_no_array|done|by apply Forall_replicate|lia]. }
    split; [|intros k; by rewrite (parts_content _ _ _ _ _ _ _ k Hp), cont_of_nil by (by apply Forall_replicate)].
    split; [done|]. right. by eexists _, _, _, _, _.
  - eexists _, _. split; [done|]. split; [|done]. split; [done|]. left.
    split_and!; simpl; done || apply initial_no_array.
Qed.

(** The content of a table only depends on its own sparse map. *)
Lemma content_frame s1 s2 k : st_table s1 = st_table s2 ->
  (forall p m, own_sparse s1 = Some p -> st_sparse s1 !! p = Some m -> st_sparse s2 !! p = Some m) ->
  inv XXH3_64bits s1 -> array_content s1 k = array_content s2 k.
Proof.
  intros Ht Hp [_ [(Hb & _)|(named & len & cap & vec & sc & Hb & Hok & _ & Hsh)]].
  - unfold array_content, sparse_content. by rewrite <- Ht, Hb.
  - unfold array_content. rewrite <- Ht, Hb. simpl. rewrite m_arrayStorageCapacity_mk by done. simpl.
    assert (sparse_content s1 k = sparse_content s2 k) as ->; [|done].
    unfold sparse_content, own_sparse in *. rewrite <- Ht, Hb in *. simpl in *.
    rewrite m_arrayLengthIfContinuous_mk in * by done. simpl in *.
    destruct (HasSparseMap _) eqn:Es; [|done].
    destruct Hsh as [(_ & _ & ? & _)|? ? ? ?|? ? ? ?|m ? ? _ ? Hm Hwf]; try congruence.
    by rewrite Hm, (Hp _ m eq_refl Hm).
Qed.

(** [CloneButterfly]: the copy holds the same content and shares no sparse map. *)
Definition cloned s (b : Butterfly) s' : Prop :=
  let s1 := with_table s' (mkTable (m_hiddenClass (st_table s)) (m_arrayType (st_table s)) (Some b)
                             (m_inlineStorage (st_table s))) in
  st_table s' = st_table s /\ inv XXH3_64bits s1 /\
  (forall k, array_content s1 k = array_content s k) /\
  (forall k, array_content s' k = array_content s k) /\
  (forall p m, own_sparse s = Some p -> st_sparse s !! p = Some m ->
     st_sparse s' !! p = Some m /\ own_sparse s1 <> Some p).

(** The copy [b] of a butterfly with these parts: the sparse map, if there is one,
    is a new one; everything else is the same. *)
Record copied s named len cap vec (sc : Z -> Z) (b : Butterfly) s' : Prop := {
  cp_table : st_table s' = st_table s;
  cp_hc : st_hc s' = st_hc s;
  cp_world : world_ok (st_hc s') (st_heap s') (st_sparse s');
  cp_parts : exists len', b = mk_bf named len' cap vec /\ bf_ok named len' cap vec /\
    shape (st_sparse s') XXH3_64bits (m_arrayType (st_table s)) len' cap vec sc /\
    (HasSparseMap (m_arrayType (st_table s)) = true -> st_sparse s !! GeneralHeapPointer_As len' = None) /\
    (HasSparseMap (m_arrayType (st_table s)) = false -> len' = len);
  cp_sparse : forall p m, st_sparse s !! p = Some m -> st_sparse s' !! p = Some m;
  cp_cur : m_userHeapCurPtr (st_heap s') <= m_userHeapCurPtr (st_heap s)
}.

Lemma CloneButterfly_copies s named len cap vec sc : world_ok (st_hc s) (st_heap s) (st_sparse s) ->
  m_butterfly (st_table s) = Some (mk_bf named len cap vec) -> bf_ok named len cap vec ->
  shape (st_sparse s) XXH3_64bits (m_arrayType (st_table s)) len cap vec sc ->
  wp (CloneButterfly (Z.of_nat (length named))) s (fun b s' => copied s named len cap vec sc b s')
    (heap_exhausted sizeof_ArraySparseMap (st_heap s)).
Proof.
  intros [Hh Hsp] Hb Hok Hsh. unfold CloneButterfly. wp1.
  eapply wp_on_butterfly; [done|by apply CloneWords_mk|]. wp1.
  eapply wp_access; [by apply m_arrayLengthIfContinuous_mk|].
  unfold ButterflyHeader.HasSparseMap. wp1; zbool.
  - destruct Hsh as [(_ & _ & Hs' & _)|? ? Hs' ? ?|? ? Hs'|m Hk Hct Hs' Hlen Hm Hwf Hin Hvq]; try lia.
    wp1. wp1. wp1. eapply wp_access; [done|].
    destruct (AllocFromUserHeap_spec sizeof_ArraySparseMap (st_heap s) Hh) as
      [(p & h' & -> & Hh' & Hpc & Hcur)|[-> Hex]]; [done|done| |by apply wp_fail].
    assert (st_sparse s !! p = None) as Hfresh.
    { destruct (st_sparse s !! p) as [m'|] eqn:Hq; [|done]. destruct (Hsp _ _ Hq) as [? _]. unfold sizeof_ArraySparseMap in Hpc. lia. }
    assert (- x_vmBaseOffset <= p < - (x_vmBaseOffset - x_vmUserHeapSize) /\ p mod 8 = 0) as [Hpr Hpa].
    { destruct Hh' as (? & ? & ?), Hh as (? & ? & ?). rewrite Hcur in *.
      unfold sizeof_ArraySparseMap in Hpc. split; [lia|done]. }
    destruct (GeneralHeapPointer_user p Hpr Hpa) as (Hg1 & Hg2 & Hg3).
    wp1. wp1. rewrite (Clone_wf XXH3_64bits) by done.
    eapply wp_access; [by apply set_arrayLengthIfContinuous_mk|]. split; simpl; try done.
    + split; [done|]. intros q m'. rewrite lookup_insert_Some.
      intros [[<- <-]|[_ Hq]]; [rewrite Hcur; lia|].
      destruct (Hsp _ _ Hq) as [? ?]. unfold sizeof_ArraySparseMap in Hpc. rewrite Hcur. lia.
    + exists (GeneralHeapPointer p). split_and!; [done|by destruct Hok| |by rewrite Hg3|congruence].
      apply sh_sparse; try done. rewrite Hg3. apply lookup_insert_eq.
    + intros q m' Hq. rewrite lookup_insert_ne; [done|congruence].
    + unfold sizeof_ArraySparseMap in Hpc. lia.
  - wp1. split; try done. exists len. split_and!; try done. intros Hs.
    destruct Hsh as [(_ & _ & Hs' & _)|? ? Hs' ? ?|? ? Hs'|m']; congruence || lia.
Qed.

Lemma CloneButterfly_spec s : inv XXH3_64bits s -> m_butterfly (st_table s) <> None ->
  wp (CloneButterfly (hc_butterflyNamedStorageCapacity (st_hc s) (m_hiddenClass (st_table s)))) s
    (fun b s' => cloned s b s') (heap_exhausted sizeof_ArraySparseMap (st_heap s)).
Proof.
  intros Hinv Hnn. pose proof Hinv as [Ha [(Hb & _)|(named & len & cap & vec & sc & Hp)]]; [done|].
  pose proof Hp as (Hb & Hok & Hn & Hsh). pose proof Ha as [Hh Hsp Hl Hsy Hu]. rewrite <- Hn.
  eapply wp_mono; [by apply (CloneButterfly_copies s named len cap vec sc)| |done].
  intros b s' [Ht Eh [Hh' Hsp'] (len' & -> & Hok' & Hsh' & Hnew & _) Hkeep _]. unfold cloned. set (s1 := with_table _ _).
  assert (parts XXH3_64bits s1 named len' cap vec sc) as Hp1 by (split_and!; simpl; rewrite ?Eh; done).
  split_and!; [done| | | |].
  - split; [split; simpl; rewrite ?Eh; done|]. right. by eexists _, _, _, _, _.
  - intros k. by rewrite (parts_content _ _ _ _ _ _ _ k Hp1), (parts_content _ _ _ _ _ _ _ k Hp).
  - intros k. symmetry. by apply content_frame; [done|intros q m' _; apply Hkeep|].
  - intros q m' Ho Hq. split; [by apply Hkeep|]. unfold own_sparse. simpl. rewrite m_arrayLengthIfContinuous_mk by done. simpl.
    destruct (HasSparseMap _); [|done]. intros [= <-]. rewrite Hnew in Hq; done.
Qed.

(** *** Histories of puts *)

Fixpoint puts (h : list (Z * Z)) : M St unit :=
  match h with
  | [] => mret tt
  | (key, v) :: h' => RawPutByValDoubleIndex XXH3_64bits key v;; puts h'
  end.

Lemma puts_spec h : Forall (fun p => IsNaN p.1 = false) h -> forall s, inv XXH3_64bits s ->
  wp (puts h) s (fun _ s' => inv XXH3_64bits s' /\
    forall k, array_content s' k = last_write (array_content s) h k) True.
Proof.
  induction h as [|[key v] h IH]; intros Hf s Hinv; simpl; [by wp1|].
  apply Forall_cons in Hf as [Hk Hf]. wp1.
  eapply wp_mono; [by apply (RawPutByValDoubleIndex_spec XXH3_64bits s key v)| |done].
  intros [] s1 Hput. pose proof Hput as [Hinv1 Hc1 _ _ _ _ _ _].
  eapply wp_mono; [by apply IH| |done].
  intros [] s2 [Hinv2 Hc2]. split; [done|]. intros k. rewrite Hc2. by apply last_write_ext.
Qed.
End theorems.

(** ** A concrete table for the witnesses *)

(** An empty table with room for four elements in an otherwise empty heap. *)
Definition sample_table (cap : Z) : TableObject.St unit :=
  match CreateEmptyTableObjectImpl tt initUserHeap ∅ (flat_class 0 0) 2 cap with
  | Ok (_, s) => s
  | _ => mkSt (mkTable 0 0 None []) tt initUserHeap ∅
  end.

Lemma sample_inv hash cap : 0 <= cap <= x_alwaysVectorCutoff ->
  inv hash (sample_table cap) /\ forall k, array_content (sample_table cap) k = Nil.
Proof.
  intros Hc. unfold sample_table.
  destruct (create_spec hash tt initUserHeap ∅ (flat_class 0 0) 2 cap) as [(r & s & -> & ? & ?)|[_ Hex]];
    try done.
Qed.

Lemma sample_inv4 : inv (fun _ => 0) (sample_table 4).
Proof. apply (sample_inv (fun _ => 0) 4). unfold x_alwaysVectorCutoff. lia. Qed.

(** ** Properties *)

(** Indexed reads are look-ups in the abstract content.  From every state
    that satisfies the invariant, [GetByDoubleVal] with the inline-cache record
    of the table's array type returns the content at the key, whether the value
    is in the vector, in the sparse map or absent, without changing the state
    and without undefined behaviour; [GetByInt32Val] does so for every [int32_t]. *)
Theorem array_get {Hc : Type} `{HiddenClassLaws Hc} hash (s : TableObject.St Hc) key i :
  inv hash s -> in_i 32 i ->
  let icInfo := PrepareGetByIntegerIndex (m_arrayType (st_table s)) in
  GetByDoubleVal hash key icInfo s = Ok (array_content s key, s) /\
  GetByInt32Val hash i icInfo s = Ok (array_content s (double_of_int i), s).
Proof.
  intros Hinv Hi icInfo. split.
  - destruct (wp_returns _ _ _ (GetByDoubleVal_spec hash s key Hinv)) as (v & s' & E & -> & ->). exact E.
  - assert (IsInt64Index (double_of_int i) = Some i) as Hx
      by (apply IsInt64Index_int; unfold in_i in Hi; pow2; lia).
    destruct (wp_returns _ _ _ (GetByIntegerIndex_spec hash s _ i Hinv Hx)) as (v & s' & E & -> & ->). exact E.
Qed.

Lemma array_get_witness :
  GetByInt32Val (fun _ => 0) 3 (PrepareGetByIntegerIndex 0) (sample_table 4) = Ok (Nil, sample_table 4).
Proof.
  destruct (array_get (fun _ => 0) (sample_table 4) 0 3) as [_ E].
  - apply sample_inv4.
  - split; by vm_compute.
  - exact E.
Defined.

(** C25: an indexed write implements the update of the abstract content.  From
    every state that satisfies the invariant, for every number as the key and
    every value ([nil] included), [RawPutByValDoubleIndex] either stops the
    process because a resource is exhausted, or returns a state that satisfies
    the invariant, whose content differs at the numbers equal to the key only,
    and that leaves the named properties, the metatable bit, the sparse maps of
    other tables and all hidden classes as they were.  There is no undefined
    behaviour on any path (creation and growth of the butterfly, density check,
    transition to the sparse map, loss of continuity, change of array kind). *)
Theorem array_put {Hc : Type} `{HiddenClassLaws Hc} hash (s : TableObject.St Hc) key v :
  inv hash s -> IsNaN key = false ->
  (exists s', RawPutByValDoubleIndex hash key v s = Ok (tt, s') /\ put_ok hash s key v s') \/
  (RawPutByValDoubleIndex hash key v s = VMFail /\ exhausted s).
Proof.
  intros Hinv Hk.
  destruct (wp_cases _ _ _ _ (RawPutByValDoubleIndex_spec hash s key v Hinv Hk)) as [([] & s' & ?)|?];
    [left; eauto|by right].
Qed.

Lemma array_put_witness :
  exists s', RawPutByValDoubleIndex (fun _ => 0) (double_of_int 7) CreateTrue (sample_table 4) = Ok (tt, s') /\
    array_content s' (double_of_int 7) = CreateTrue.
Proof.
  destruct (array_put (fun _ => 0) (sample_table 4) (double_of_int 7) CreateTrue) as [(s' & E & Hput)|[E _]].
  - apply sample_inv4.
  - by vm_compute.
  - exists s'. split; [exact E|]. rewrite (po_content _ _ _ _ _ Hput). by vm_compute.
  - exfalso. by vm_compute in E.
Defined.

(** The inline-cached write ([PreparePutByIntegerIndex], then
    [TryPutByIntegerIndexFast], then the slow path) meets the same contract, also
    on the path that creates the array part with a precomputed structure
    transition. *)
Theorem array_put_inline_cached {Hc : Type} `{HiddenClassLaws Hc} hash (s : TableObject.St Hc) i v :
  inv hash s -> in_i 64 i -> exact i ->
  (exists s', PutByIntegerIndexWithIC hash i v s = Ok (tt, s') /\ put_ok hash s (double_of_int i) v s') \/
  (PutByIntegerIndexWithIC hash i v s = VMFail /\ exhausted_ic s).
Proof.
  intros Hinv Hi Hex.
  destruct (wp_cases _ _ _ _ (PutWithIC_spec hash s i v Hinv Hi Hex)) as [([] & s' & ?)|?];
    [left; eauto|by right].
Qed.

Lemma array_put_inline_cached_witness :
  exists s', PutByIntegerIndexWithIC (fun _ => 0) 1 (CreateInt32 5) (sample_table 4) = Ok (tt, s') /\
    array_content s' (double_of_int 1) = CreateInt32 5.
Proof.
  destruct (array_put_inline_cached (fun _ => 0) (sample_table 4) 1 (CreateInt32 5)) as [(s' & E & Hput)|[E _]].
  - apply sample_inv4.
  - split; by vm_compute.
  - by vm_compute.
  - exists s'. split; [exact E|]. rewrite (po_content _ _ _ _ _ Hput). by vm_compute.
  - exfalso. by vm_compute in E.
Defined.

(** The fast path is an optimisation of the slow path.  When
    [TryPutByValIntegerIndexFastNoIC] succeeds, the resulting state is exactly
    the one [PutByIntegerIndexSlow] would have produced; when it declines, it
    has not touched the state. *)
Theorem fast_path_agrees {Hc : Type} `{HiddenClassLaws Hc} hash (s : TableObject.St Hc) i v :
  inv hash s -> in_i 64 i ->
  exists b s', TryPutByValIntegerIndexFastNoIC i v s = Ok (b, s') /\
    (if (b : bool) then PutByIntegerIndexSlow hash i v s = Ok (tt, s') else s' = s).
Proof.
  intros Hinv Hi.
  destruct (wp_returns _ _ _ (TryPutNoIC_spec hash s i v Hinv Hi)) as (b & s' & E & Ho). eauto.
Qed.

Lemma fast_path_agrees_witness :
  exists b s', TryPutByValIntegerIndexFastNoIC 2 Nil (sample_table 4) = Ok (b, s') /\ b = false.
Proof.
  destruct (fast_path_agrees (fun _ => 0) (sample_table 4) 2 Nil) as (b & s' & E & _).
  - apply sample_inv4.
  - split; by vm_compute.
  - exists b, s'. split; [exact E|]. vm_compute in E. by injection E as <- _.
Defined.

(** Any history of writes is a map.  After a sequence of writes at numbers
    that ran to its end, a read of any key returns the last value written under
    an equal key, and the initial content where there is none; a sequence is
    never undefined. *)
Theorem put_history {Hc : Type} `{HiddenClassLaws Hc} hash (s : TableObject.St Hc) h key :
  inv hash s -> Forall (fun p => IsNaN p.1 = false) h ->
  match puts hash h s with
  | Ok (_, s') =>
      GetByDoubleVal hash key (PrepareGetByIntegerIndex (m_arrayType (st_table s'))) s'
      = Ok (last_write (array_content s) h key, s')
  | VMFail => True
  | UB => False
  end.
Proof.
  intros Hinv Hf. pose proof (puts_spec hash h Hf s Hinv) as Hw. unfold wp in Hw.
  destruct (puts hash h s) as [[u s']| |]; [|done..]. destruct Hw as [Hinv' Hc'].
  destruct (wp_returns _ _ _ (GetByDoubleVal_spec hash s' key Hinv')) as (v & s2 & E & -> & ->).
  by rewrite E, Hc'.
Qed.

(** Continuous growth, a hole, an index beyond every vector, a fraction, and two
    overwrites (one of them of a zero by its other sign). *)
Definition sample_puts : list (Z * Z) :=
  [(double_of_int 1, CreateInt32 10); (double_of_int 2, CreateInt32 20); (double_of_int 9, CreateTrue);
   (double_of_int 200000000, CreateInt32 30); (0x3fe0000000000000, CreateInt32 40);
   (0, CreateInt32 50); (2 ^ 63, CreateInt32 60); (double_of_int 2, Nil)].

Lemma put_history_witness :
  exists s', puts (fun _ => 0) sample_puts (sample_table 4) = Ok (tt, s') /\
    GetByDoubleVal (fun _ => 0) 0 (PrepareGetByIntegerIndex (m_arrayType (st_table s'))) s'
    = Ok (CreateInt32 60, s').
Proof.
  pose proof (put_history (fun _ => 0) (sample_table 4) sample_puts 0) as Hh.
  destruct (puts (fun _ => 0) sample_puts (sample_table 4)) as [[[] s']| |] eqn:E.
  - exists s'. split; [done|]. rewrite Hh.
    + by vm_compute.
    + apply sample_inv4.
    + repeat constructor.
  - exfalso. by vm_compute in E.
  - exfalso. by vm_compute in E.
Defined.

(** The length operator returns a border of the table, on every path
    (continuous array, binary search in the vector, galloping and binary or
    linear search in the sparse map), and all of its loops stop. *)
Theorem length_is_border {Hc : Type} `{HiddenClassLaws Hc} hash (s : TableObject.St Hc) :
  inv hash s ->
  exists n, GetTableLengthWithLuaSemantics hash s = Ok (n, s) /\ border (elem s) n.
Proof.
  intros Hinv.
  destruct (wp_returns _ _ _ (table_length_spec hash s Hinv)) as (n & s' & E & -> & Hb). eauto.
Qed.

Lemma length_is_border_witness :
  exists n, GetTableLengthWithLuaSemantics (fun _ => 0) (sample_table 4) = Ok (n, sample_table 4) /\
    border (elem (sample_table 4)) n.
Proof. apply (length_is_border (fun _ => 0) (sample_table 4)). apply sample_inv4. Defined.

(** A new table is empty.  [CreateEmptyTableObjectImpl] with a preallocated
    capacity of at most [x_alwaysVectorCutoff] establishes the invariant and
    gives a table without elements, unless the user heap is exhausted. *)
Theorem create_empty {Hc : Type} `{HiddenClassLaws Hc} hash (h : Hc) heap sparse c inl cap :
  world_ok h heap sparse -> empty_class h c -> 0 <= inl <= 255 -> 0 <= cap <= x_alwaysVectorCutoff ->
  (exists r s, CreateEmptyTableObjectImpl h heap sparse c inl cap = Ok (r, s) /\
     inv hash s /\ (forall k, array_content s k = Nil)) \/
  (CreateEmptyTableObjectImpl h heap sparse c inl cap = VMFail /\
   heap_exhausted (ComputeObjectAllocationSize inl) heap).
Proof. apply create_spec. Qed.

Lemma create_empty_witness :
  exists r s, CreateEmptyTableObjectImpl tt initUserHeap ∅ (flat_class 0 0) 3 1000 = Ok (r, s) /\
    inv (fun _ => 0) s.
Proof.
  destruct (create_empty (fun _ => 0) tt initUserHeap ∅ (flat_class 0 0) 3 1000)
    as [(r & s & E & Hinv & _)|[_ Hex]].
  - split; [apply initUserHeap_ok|done].
  - split_and!; by vm_compute.
  - lia.
  - unfold x_alwaysVectorCutoff. lia.
  - by exists r, s.
  - exfalso. by vm_compute in Hex.
Defined.

(** A cloned butterfly is a snapshot.  [CloneButterfly] of a table that has
    a butterfly is defined on every path (it stops the process only when the
    user heap is exhausted).  The table built from its result satisfies the
    invariant and has the same content, and no later write to the clone changes
    the content of the original: the sparse map is not shared. *)
Theorem clone_is_independent {Hc : Type} `{HiddenClassLaws Hc} hash (s : TableObject.St Hc) key v :
  inv hash s -> m_butterfly (st_table s) <> None -> IsNaN key = false ->
  match CloneButterfly (hc_butterflyNamedStorageCapacity (st_hc s) (m_hiddenClass (st_table s))) s with
  | Ok (b, s') =>
      let clone := with_table s' (mkTable (m_hiddenClass (st_table s)) (m_arrayType (st_table s)) (Some b)
                                    (m_inlineStorage (st_table s))) in
      inv hash clone /\ (forall k, array_content clone k = array_content s k) /\
      match RawPutByValDoubleIndex hash key v clone with
      | Ok (_, s'') => forall k, array_content (with_table s'' (st_table s)) k = array_content s k
      | VMFail => True
      | UB => False
      end
  | VMFail => heap_exhausted sizeof_ArraySparseMap (st_heap s)
  | UB => False
  end.
Proof.
  intros Hinv Hnn Hk. pose proof (CloneButterfly_spec hash s Hinv Hnn) as Hw. unfold wp in Hw.
  destruct (CloneButterfly _ s) as [[b s']| |]; [|done..].
  destruct Hw as (Ht & Hinv1 & Hc1 & _ & Hown). intros clone. fold clone in Hinv1, Hc1, Hown.
  split_and!; [done..|].
  pose proof (RawPutByValDoubleIndex_spec hash clone key v Hinv1 Hk) as Hw. unfold wp in Hw.
  destruct (RawPutByValDoubleIndex hash key v clone) as [[[] s'']| |]; [|done..].
  intros k. symmetry. apply (content_frame hash); [done| |done].
  intros p m Ho Hm. destruct (Hown p m Ho Hm) as [Hm' Hne]. simpl.
  by apply (po_frame _ _ _ _ _ Hw).
Qed.

Lemma clone_is_independent_witness :
  exists b s', CloneButterfly 0 (sample_table 4) = Ok (b, s') /\
    forall k, array_content (with_table s' (mkTable (m_hiddenClass (st_table (sample_table 4)))
      (m_arrayType (st_table (sample_table 4))) (Some b) (m_inlineStorage (st_table (sample_table 4))))) k
    = array_content (sample_table 4) k.
Proof.
  pose proof (clone_is_independent (fun _ => 0) (sample_table 4) 0 Nil) as Hcl.
  change (hc_butterflyNamedStorageCapacity _ _) with 0 in Hcl.
  destruct (CloneButterfly 0 (sample_table 4)) as [[b s']| |] eqn:E.
  - exists b, s'. split; [reflexivity|].
    assert (m_butterfly (st_table (sample_table 4)) <> None) as Hnn by (vm_compute; discriminate).
    assert (IsNaN 0 = false) as Hk by reflexivity.
    specialize (Hcl sample_inv4 Hnn Hk). destruct Hcl as (_ & Hcl & _). exact Hcl.
  - exfalso. by vm_compute in E.
  - exfalso. by vm_compute in E.
Defined.

(** ** A preallocated vector *)

Section preallocated.
Context {Hc : Type} `{HiddenClassLaws Hc} (XXH3_64bits : Z -> Z).
Notation St := (TableObject.St Hc).
Implicit Types (s : St).

Lemma on_butterfly_ok {A} (f : Butterfly -> option A) s b a : m_butterfly (st_table s) = Some b -> f b = Some a ->
  on_butterfly f s = Ok (a, s).
Proof. intros Hb Hf. unfold on_butterfly, get_table, mbind, M_bind. simpl. rewrite Hb. simpl. by rewrite Hf. Qed.

Lemma sparse_content_map s b len m key : m_butterfly (st_table s) = Some b -> m_arrayLengthIfContinuous b = Some len ->
  HasSparseMap (m_arrayType (st_table s)) = true -> st_sparse s !! GeneralHeapPointer_As len = Some m ->
  sparse_content s key = content m key.
Proof. intros Hb Hlen Hs Hm. unfold sparse_content. rewrite Hb. simpl. rewrite Hlen. simpl. by rewrite Hs, Hm. Qed.

(** A new table with a preallocated vector of any size, also of one above the
    cutoff, where the invariant does not hold. *)
Definition preallocated s (cap : Z) : Prop :=
  ambient s /\ m_arrayType (st_table s) = GetInitialArrayType /\
  m_butterfly (st_table s) = Some (mk_bf [] 0 cap (replicate (Z.to_nat cap) Nil)) /\
  bf_ok [] 0 cap (replicate (Z.to_nat cap) Nil).

Lemma create_preallocated h heap sparse c inl cap r s : world_ok h heap sparse -> empty_class h c -> 0 <= inl <= 255 ->
  0 < cap <= x_unconditionallySparseMapCutoff -> CreateEmptyTableObjectImpl h heap sparse c inl cap = Ok (r, s) -> preallocated s cap.
Proof.
  intros [Hh Hsp] (Hl & Hat & Hn) Hi Hcap. unfold CreateEmptyTableObjectImpl.
  assert (ComputeObjectAllocationSize inl = 16 + inl * 8) as ->.
  { unfold ComputeObjectAllocationSize. apply wrapu_small. unfold in_u. pow2. lia. }
  destruct (AllocFromUserHeap_spec (16 + inl * 8) heap Hh) as [(q & h' & -> & Hh' & Hr & Hcur)|[-> _]]; [lia| | |done].
  { rewrite Z.add_mod, Z_mod_mult by lia. done. }
  rewrite (proj2 (Z.ltb_lt 0 cap)), GrowFromNull_array by lia. intros [= <- <-]. split_and!; try done.
  - split; simpl; try done. intros p m Hp. destruct (Hsp p m Hp). rewrite Hcur, Hr. lia.
  - split; [unfold in_i; pow2; lia|lia|by rewrite length_replicate|unfold x_maxNamedStorageCapacity; simpl; lia].
Qed.

(** The sparse map of such a table takes the value, and leaves the vector alone. *)
Lemma preallocated_sparse s cap key v : preallocated s cap -> IsNaN key = false ->
  wp (PutIndexIntoSparseMap XXH3_64bits true key v) s (fun _ s' => sparse_content s' key = v /\
    (exists len, m_butterfly (st_table s') = Some (mk_bf [] len cap (replicate (Z.to_nat cap) Nil)) /\
       bf_ok [] len cap (replicate (Z.to_nat cap) Nil)) /\
    m_arrayType (st_table s') = sparseArrayType true GetInitialArrayType) (exhausted s).
Proof.
  intros (Ha & Hat & Hb & Hok) Hkey. unfold PutIndexIntoSparseMap, GetOrAllocateSparseMap. wp1. wp1. wp1. wp1. wp1. rewrite Hb. wp1.
  eapply wp_access; [by apply m_arrayLengthIfContinuous_mk|]. change (ButterflyHeader.HasSparseMap 0) with false. cbv iota.
  eapply wp_mono; [eapply AllocateNew_spec with (F := exhausted s); [done|exact Hb|done|by left]| |done].
  intros p s1 (len' & m & Ht1 & Hh1 & Ha1 & Hok1 & Hlen' & Hp & Hm & Hwf & Hcm & _ & _ & Hmax & _).
  wp1. unfold insert_sparse. wp1. wp1. wp1. eapply wp_access; [done|].
  destruct (Insert_cases XXH3_64bits m key v Hwf Hkey) as [[-> Hmask]|(m' & -> & Hwf' & _ & Hcm')].
  { apply wp_fail. right. left. exists p, m. auto. }
  wp1. set (s2 := mkSt _ _ _ _).
  assert (ambient s2) as Ha2.
  { destruct Ha1 as [? Hsp1 ? ? ?]. split; try done. intros q m1. simpl. rewrite lookup_insert_Some.
    intros [[<- _]|[_ Hq]]; by eapply Hsp1. }
  destruct (sparseArrayType_fields true (m_arrayType (st_table s))) as (_ & _ & F3 & _ & F5).
  eapply wp_mono; [eapply (update_array_type_spec s2 _ (exhausted s)); [done|apply sparseArrayType_useful; by destruct Ha|..]| |done].
  { rewrite F5. subst s2. simpl. by rewrite Ht1. }
  { subst s2. simpl. rewrite Ht1, Hh1. intros Hf. by right; right. }
  intros _ s' (c & h & -> & _). subst s2. simpl. rewrite Ht1. simpl. split_and!; [|by exists len'|by rewrite Hat].
  erewrite sparse_content_map; [|reflexivity|by apply m_arrayLengthIfContinuous_mk|..].
  - by rewrite Hcm', feq_refl.
  - done.
  - cbn [st_sparse]. by rewrite <- Hp, lookup_insert_eq.
Qed.
End preallocated.

(** C39: a preallocated vector above the cutoff loses a write.  A table that is
    created with a vector of more than [x_alwaysVectorCutoff] elements, as
    [TableNew] does for a size hint of up to 2047 ([0x7ff]), and whose first write
    is at an index above that cutoff and within the vector: the value, which is not
    nil, goes to the sparse map, and a read of the same index finds the nil of the
    vector.  The process stops only when the resources are exhausted. *)
Theorem preallocated_put_is_lost {Hc : Type} `{HiddenClassLaws Hc} hash h heap sparse c inl cap i v r s :
  world_ok h heap sparse -> empty_class h c -> 0 <= inl <= 255 ->
  x_alwaysVectorCutoff < i <= cap -> cap <= x_unconditionallySparseMapCutoff -> v <> Nil ->
  CreateEmptyTableObjectImpl h heap sparse c inl cap = Ok (r, s) ->
  wp (RawPutByValIntegerIndex hash i v) s (fun _ s' => sparse_content s' (double_of_int i) = v /\
    GetByIntegerIndex hash i (PrepareGetByIntegerIndex (m_arrayType (st_table s'))) s' = Ok (Nil, s')) (exhausted s).
Proof.
  intros Hw Hc1 Hinl Hi Hcap Hv E. assert (1000 < i <= 2 ^ 31 - 1) as Hr
    by (unfold x_alwaysVectorCutoff, x_unconditionallySparseMapCutoff in *; pow2; lia).
  destruct (create_preallocated h heap sparse c inl cap r s Hw Hc1 Hinl) as (Ha & Hat & Hb & Hok);
    [unfold x_alwaysVectorCutoff in *; lia|done|].
  unfold RawPutByValIntegerIndex, TryPutByValIntegerIndexFastNoIC. wp1. wp1. wp1. rewrite Hat.
  change (IsContinuous GetInitialArrayType) with false. change (ArrayKind GetInitialArrayType) with NoButterflyArrayPart. cbv iota.
  rewrite bool_decide_true by done. wp1. unfold PutByIntegerIndexSlow.
  replace (_ || _) with false by (symmetry; apply orb_false_iff; unfold x_arrayBaseOrd; split; zbool; lia). cbv iota. cbv zeta.
  assert (i32 i = i) as -> by (apply wraps_small; unfold in_i; pow2; lia). wp1. unfold PutSlow_decide. wp1. wp1.
  rewrite Hat. change (ArrayKind GetInitialArrayType) with NoButterflyArrayPart. rewrite bool_decide_true by done. unfold PutSlow_NoArrayPart.
  assert (IsNil v = false) as -> by (by apply Z.eqb_neq). rewrite (proj2 (Z.ltb_lt _ _)) by lia. wp1.
  eapply wp_mono; [apply (preallocated_sparse hash s cap); [by split_and!|apply double_of_int_number; unfold in_i; pow2; lia]| |done].
  intros _ s' (Hs & (len & Hb' & Hok') & Hat'). wp1. wp1. split; [done|].
  rewrite Hat'. unfold GetByIntegerIndex. rewrite bool_decide_false by (by vm_compute).
  rewrite (bind_ok _ _ s' (Some Nil) s'); [done|]. unfold TryAccessIndexInVectorStorage.
  rewrite (bind_ok _ _ s' cap s') by (by apply (on_butterfly_ok _ _ _ _ Hb'), m_arrayStorageCapacity_mk).
  unfold ButterflyHeader.IndexFitsInVectorCapacity, x_arrayBaseOrd. rewrite (wrapu_small 64 i), (wrapu_small 64 cap), (wrapu_small 64 (i - 1)) by (unfold in_u, x_unconditionallySparseMapCutoff in *; pow2; lia).
  rewrite (proj2 (Z.ltb_lt _ _)) by lia.
  rewrite (bind_ok _ _ s' Nil s'); [done|]. apply (on_butterfly_ok _ _ _ _ Hb').
  rewrite GetInVector_mk by (done || lia). apply lookup_replicate. lia.
Qed.

Lemma preallocated_put_is_lost_witness : exists r s s',
  CreateEmptyTableObjectImpl tt initUserHeap ∅ (flat_class 0 0) 0 2047 = Ok (r, s) /\
  RawPutByValIntegerIndex (fun _ => 0) 1001 (CreatePointer (- 2 ^ 33)) s = Ok (tt, s') /\
  sparse_content s' (double_of_int 1001) = CreatePointer (- 2 ^ 33) /\
  GetByIntegerIndex (fun _ => 0) 1001 (PrepareGetByIntegerIndex (m_arrayType (st_table s'))) s' = Ok (Nil, s').
Proof.
  destruct (CreateEmptyTableObjectImpl tt initUserHeap ∅ (flat_class 0 0) 0 2047) as [[r s]| |] eqn:E; [|exfalso; by vm_compute in E..].
  pose proof (preallocated_put_is_lost (fun _ => 0) tt initUserHeap ∅ (flat_class 0 0) 0 2047 1001 (CreatePointer (- 2 ^ 33)) r s) as Hp.
  unfold wp in Hp. exists r, s. destruct (RawPutByValIntegerIndex (fun _ => 0) 1001 (CreatePointer (- 2 ^ 33)) s) as [[[] s']| |] eqn:E'.
  - exists s'. split; [reflexivity|]. split; [reflexivity|]. apply Hp; [split; [apply initUserHeap_ok|done]|split_and!; by vm_compute|lia|by vm_compute|by vm_compute|by vm_compute|exact E].
  - exfalso. vm_compute in E. injection E as <- <-. by vm_compute in E'.
  - exfalso. vm_compute in E. injection E as <- <-. by vm_compute in E'.
Defined.
