(* ===== verification/MiscMath.v ===== *)
(** * Integer helpers ([common_utils/misc_math_helper.h])

    Range checks and casts between integer types, overflow-checked arithmetic,
    rounding to multiples and powers of two, and the bit-counting helpers. *)

From S2P Require Import Prelude.

(** ** Integer types *)

(** An integral type: signedness and width. *)
Record IntTy := mkIntTy { is_signed : bool; width : Z }.

Definition ty_min (T : IntTy) : Z := if is_signed T then - 2 ^ (width T - 1) else 0.
Definition ty_max (T : IntTy) : Z := if is_signed T then 2 ^ (width T - 1) - 1 else 2 ^ width T - 1.
Definition in_ty (T : IntTy) (v : Z) : Prop := ty_min T <= v <= ty_max T.

(** [static_cast<T>] of an integer. *)
Definition static_cast (T : IntTy) (v : Z) : Z :=
  if is_signed T then wraps (width T) v else wrapu (width T) v.

(** [std::make_unsigned_t] and [std::make_signed_t]. *)
Definition make_unsigned (T : IntTy) : IntTy := mkIntTy false (width T).
Definition make_signed (T : IntTy) : IntTy := mkIntTy true (width T).

Definition IntegerCanBeRepresentedIn (Dst Src : IntTy) (src : Z) : bool :=
  if Bool.eqb (is_signed Dst) (is_signed Src) then
    if width Dst <? width Src then
      (static_cast Src (ty_min Dst) <=? src) && (src <=? static_cast Src (ty_max Dst))
    else true
  else if is_signed Src then
    if src <? 0 then false
    else if width Dst <? width Src then src <=? static_cast Src (ty_max Dst) else true
  else
    if width Dst <=? width Src then src <=? static_cast Src (ty_max Dst) else true.

(** [None]: the assertion that the operand fits. *)
Definition SafeIntegerCast (Dst Src : IntTy) (src : Z) : option Z :=
  if IntegerCanBeRepresentedIn Dst Src src then Some (static_cast Dst src) else None.

Definition SignExtendTo (Dst Src : IntTy) (src : Z) : Z :=
  static_cast Dst (static_cast (make_signed Dst) (static_cast (make_signed Src) src)).
Definition ZeroExtendTo (Dst Src : IntTy) (src : Z) : Z :=
  static_cast Dst (static_cast (make_unsigned Dst) (static_cast (make_unsigned Src) src)).
Definition BitwiseTruncateTo (Dst Src : IntTy) (src : Z) : Z :=
  static_cast Dst (static_cast (make_unsigned Dst) (static_cast (make_unsigned Src) src)).

(** ** Overflow-checked arithmetic: the wrapped result and whether it overflowed *)

Definition with_overflow (T : IntTy) (exact : Z) : Z * bool :=
  (static_cast T exact, negb ((ty_min T <=? exact) && (exact <=? ty_max T))).
Definition AddWithOverflowCheck (T : IntTy) (a b : Z) : Z * bool := with_overflow T (a + b).
Definition SubWithOverflowCheck (T : IntTy) (a b : Z) : Z * bool := with_overflow T (a - b).
Definition MulWithOverflowCheck (T : IntTy) (a b : Z) : Z * bool := with_overflow T (a * b).

(** ** Rounding *)

(** [RoundUpToMultipleOf<mult>] on a [w]-bit unsigned type. *)
Definition RoundUpToMultipleOf (w mult val : Z) : Z :=
  wrapu w (wrapu w (wrapu w (val + mult) - 1) / mult * mult).

Definition RoundUpToPowerOfTwoMultipleOf (w value multMustBePowerOf2 : Z) : Z :=
  let value := wrapu w (value + wrapu w (multMustBePowerOf2 - 1)) in
  let mask := wrapu w (Z.lnot (wrapu w (multMustBePowerOf2 - 1))) in
  Z.land value mask.

Definition RoundUpToPowerOfTwo (v : Z) : Z :=
  let v := u32 (v - 1) in
  let v := Z.lor v (Z.shiftr v 1) in
  let v := Z.lor v (Z.shiftr v 2) in
  let v := Z.lor v (Z.shiftr v 4) in
  let v := Z.lor v (Z.shiftr v 8) in
  let v := Z.lor v (Z.shiftr v 16) in
  u32 (v + 1).

(** ** Bits *)

(** [__builtin_popcount] on [w] bits. *)
Fixpoint popcount (w : nat) (value : Z) : Z :=
  match w with O => 0 | S w' => Z.b2z (Z.odd value) + popcount w' (Z.div2 value) end.
Definition CountNumberOfOnes (w : nat) (value : Z) : Z := popcount w value.

(** [__builtin_ctz]: the number of low zero bits, for a non-zero value. *)
Fixpoint ctz (w : nat) (value : Z) : Z :=
  match w with O => 0 | S w' => if Z.odd value then 0 else 1 + ctz w' (Z.div2 value) end.
Definition CountTrailingZeros (w : nat) (value : Z) : Z := ctz w value.

(** [__builtin_clz]: the number of high zero bits among [w]. *)
Fixpoint clz (w : nat) (value : Z) : Z :=
  match w with
  | O => 0
  | S w' => if Z.testbit value (Z.of_nat w') then 0 else 1 + clz w' value
  end.
Definition FindHighestOneBit (w : nat) (value : Z) : Z := Z.of_nat w - 1 - clz w value.

(** The loop of [GetMaskBitIsOneIfOrdinalBitKIsOne], for [i] up to [n]. *)
Fixpoint maskBitLoop (k : Z) (n : nat) : Z :=
  match n with
  | O => 0
  | S n' =>
      let i := Z.of_nat n' in
      let result := maskBitLoop k n' in
      if negb (Z.land i (Z.shiftl 1 k) =? 0) then Z.lor result (Z.shiftl 1 i) else result
  end.
Definition x_maskBitIsOneIfOrdinalBitKIsOne (w : nat) (k : Z) : Z := maskBitLoop k w.

(** One entry of the nibble table: the first [k] ones of the nibble [x], by the
    loop over [i] from 0 to 3. *)
Fixpoint firstKOnesOfNibble (k x : Z) (n : nat) (i v cnt : Z) : Z :=
  match n with
  | O => v
  | S n' =>
      if (cnt <? k) && (0 <? Z.land x (Z.shiftl 1 i))
      then firstKOnesOfNibble k x n' (i + 1) (Z.lor v (Z.shiftl 1 i)) (cnt + 1)
      else firstKOnesOfNibble k x n' (i + 1) v cnt
  end.
Fixpoint nibbleTableLoop (k : Z) (n : nat) (x res : Z) : Z :=
  match n with
  | O => res
  | S n' => nibbleTableLoop k n' (x + 1) (Z.lor res (Z.shiftl (firstKOnesOfNibble k x 4 0 0 0) (x * 4)))
  end.
Definition x_nibbleLookupMaskForFirstKOneBits (k : Z) : Z := nibbleTableLoop k 16 0 0.

Definition GetFirstKOnesInUint8Val (val k : Z) : Z :=
  let lowNibble := Z.land val 15 in
  let onesInLowNibble := CountNumberOfOnes 32 lowNibble in
  if onesInLowNibble <? k then
    let desiredOnesInHighNibble := k - onesInLowNibble in
    let lookupMask := x_nibbleLookupMaskForFirstKOneBits desiredOnesInHighNibble in
    let highNibble := Z.shiftr val 4 in
    let resultHigh := Z.land (Z.shiftr lookupMask (highNibble * 4)) 15 in
    wrapu 8 (Z.shiftl resultHigh 4 + lowNibble)
  else
    let lookupMask := x_nibbleLookupMaskForFirstKOneBits k in
    Z.land (Z.shiftr lookupMask (lowNibble * 4)) 15.

(** ** Lemmas *)

Lemma ty_range T : 0 < width T -> ty_min T <= 0 <= ty_max T.
Proof.
  intros Hw. unfold ty_min, ty_max. destruct (is_signed T).
  - pose proof (Z.pow_pos_nonneg 2 (width T - 1)). lia.
  - pose proof (Z.pow_pos_nonneg 2 (width T)). lia.
Qed.

Lemma static_cast_id T v : 0 < width T -> in_ty T v -> static_cast T v = v.
Proof.
  unfold in_ty, static_cast, ty_min, ty_max. intros Hw Hv. destruct (is_signed T).
  - apply wraps_small; [lia|]. unfold in_i. lia.
  - apply wrapu_small. unfold in_u. lia.
Qed.

Lemma static_cast_range T v : 0 < width T -> in_ty T (static_cast T v).
Proof.
  unfold in_ty, static_cast, ty_min, ty_max. intros Hw. destruct (is_signed T).
  - pose proof (wraps_range (width T) v ltac:(lia)) as Hr. unfold in_i in Hr. lia.
  - pose proof (wrapu_range (width T) v ltac:(lia)) as Hr. unfold in_u in Hr. lia.
Qed.

(** The representability test decides the range of the target type. *)
Lemma representable_spec Dst Src src : 0 < width Dst -> 0 < width Src -> in_ty Src src ->
  IntegerCanBeRepresentedIn Dst Src src = true <-> in_ty Dst src.
Proof.
  intros Hd Hs Hin. pose proof (ty_range Dst Hd) as Hr. pose proof (ty_range Src Hs) as Hr'.
  assert (forall a b, 0 <= a <= b -> 2 ^ a <= 2 ^ b) as Hmono by (intros; apply Z.pow_le_mono_r; lia).
  unfold IntegerCanBeRepresentedIn.
  destruct Dst as [[] wd], Src as [[] ws]; simpl in *;
    unfold in_ty, ty_min, ty_max in *; simpl in *.
  - destruct (Z.ltb_spec wd ws).
    + pose proof (Hmono (wd - 1) (ws - 1) ltac:(lia)).
      rewrite !(static_cast_id (mkIntTy true ws)) by (unfold in_ty, ty_min, ty_max; simpl; lia).
      rewrite andb_true_iff, !Z.leb_le. lia.
    + pose proof (Hmono (ws - 1) (wd - 1) ltac:(lia)). split; [lia|done].
  - destruct (Z.leb_spec wd ws).
    + pose proof (Hmono (wd - 1) ws ltac:(lia)).
      rewrite (static_cast_id (mkIntTy false ws)) by (unfold in_ty, ty_min, ty_max; simpl; lia).
      rewrite Z.leb_le. lia.
    + pose proof (Hmono ws (wd - 1) ltac:(lia)). split; [lia|done].
  - destruct (Z.ltb_spec src 0); [split; [done|lia]|]. destruct (Z.ltb_spec wd ws).
    + pose proof (Hmono wd (ws - 1) ltac:(lia)).
      rewrite (static_cast_id (mkIntTy true ws)) by (unfold in_ty, ty_min, ty_max; simpl; lia).
      rewrite Z.leb_le. lia.
    + pose proof (Hmono (ws - 1) wd ltac:(lia)). split; [lia|done].
  - destruct (Z.ltb_spec wd ws).
    + pose proof (Hmono wd ws ltac:(lia)).
      rewrite !(static_cast_id (mkIntTy false ws)) by (unfold in_ty, ty_min, ty_max; simpl; lia).
      rewrite andb_true_iff, !Z.leb_le. lia.
    + pose proof (Hmono ws wd ltac:(lia)). split; [lia|done].
Qed.

(** Smearing the highest bit downwards. *)
Definition smeared (L n y : Z) : Prop :=
  (forall i, L - n < i <= L -> 0 <= i -> Z.testbit y i = true) /\ (forall i, L < i -> Z.testbit y i = false).

Lemma smear_step L n y : 0 <= L -> 0 <= n -> smeared L n y -> smeared L (2 * n) (Z.lor y (Z.shiftr y n)).
Proof.
  intros HL Hn [Hl Hh]. split; intros i Hi; [intros H0|];
    rewrite Z.lor_spec, Z.shiftr_spec by lia.
  - destruct (Z.lt_ge_cases (L - n) i).
    + by rewrite Hl by lia.
    + rewrite (Hl (i + n)) by lia. apply orb_true_r.
  - by rewrite !Hh by lia.
Qed.

Lemma RoundUpToPowerOfTwo_eq v : 1 < v <= 2 ^ 31 -> RoundUpToPowerOfTwo v = 2 ^ Z.log2_up v.
Proof.
  intros Hv. unfold RoundUpToPowerOfTwo. rewrite (wrapu_small 32 (v - 1)) by (unfold in_u; pow2; lia).
  assert (Z.log2_up v = Z.log2 (v - 1) + 1) as ->.
  { unfold Z.log2_up. destruct (Z.compare_spec 1 v); [lia| |lia]. rewrite <- Z.sub_1_r. lia. }
  set (x := v - 1). set (L := Z.log2 x).
  assert (0 <= L < 31) as HL.
  { split; [apply Z.log2_nonneg|]. apply Z.log2_lt_pow2; [lia|]. unfold x. pow2. lia. }
  assert (smeared L 1 x) as Hx.
  { split; intros i Hi.
    - intros _. replace i with L by lia. apply Z.bit_log2. lia.
    - apply Z.bits_above_log2; [lia|done]. }
  do 5 (apply smear_step in Hx; [|lia..]). simpl in Hx.
  set (y := Z.lor _ _) in Hx |- *.
  assert (y = Z.ones (L + 1)) as ->.
  { destruct Hx as [Hl Hh]. apply Z.bits_inj'. intros i Hi. destruct (Z.lt_ge_cases L i).
    - rewrite Hh by done. symmetry. apply Z.ones_spec_high. lia.
    - rewrite Hl by lia. symmetry. apply Z.ones_spec_low. lia. }
  rewrite Z.ones_equiv. replace (Z.pred (2 ^ (L + 1)) + 1) with (2 ^ (L + 1)) by lia.
  apply wrapu_small. split; [lia|]. apply Z.pow_lt_mono_r; lia.
Qed.

Lemma RoundUpToPowerOfTwo_0 : RoundUpToPowerOfTwo 0 = 0.
Proof. reflexivity. Qed.
Lemma RoundUpToPowerOfTwo_1 : RoundUpToPowerOfTwo 1 = 1.
Proof. reflexivity. Qed.

Lemma RoundUpToPowerOfTwo_pow v : 0 < v <= 2 ^ 31 ->
  exists k, 0 <= k <= 31 /\ RoundUpToPowerOfTwo v = 2 ^ k /\ v <= 2 ^ k < 2 * v.
Proof.
  intros Hv. destruct (Z.eq_dec v 1) as [->|].
  - exists 0. split_and!; by vm_compute.
  - exists (Z.log2_up v). rewrite RoundUpToPowerOfTwo_eq by lia.
    pose proof (Z.log2_up_spec v ltac:(lia)) as [Hlo Hhi].
    pose proof (Z.log2_up_nonneg v).
    assert (Z.log2_up v <= 31) by (apply Z.log2_up_le_pow2; lia).
    split_and!; try lia. replace (Z.log2_up v) with (Z.succ (Z.pred (Z.log2_up v))) by lia.
    rewrite Z.pow_succ_r; [lia|]. assert (0 < Z.log2_up v) by (apply Z.log2_up_pos; lia). lia.
Qed.

Lemma pow2_mask w j : 0 <= j <= w -> wrapu w (Z.lnot (2 ^ j - 1)) = 2 ^ w - 2 ^ j.
Proof.
  intros Hj. unfold wrapu, Z.lnot. assert (2 ^ j <= 2 ^ w) by (apply Z.pow_le_mono_r; lia).
  symmetry. apply (Z.mod_unique _ _ (-1)); [left|]; lia.
Qed.

Lemma land_high_mask w j v : 0 <= j <= w -> in_u w v -> Z.land v (2 ^ w - 2 ^ j) = v / 2 ^ j * 2 ^ j.
Proof.
  intros Hj Hv. replace (2 ^ w - 2 ^ j) with (Z.shiftl (Z.ones (w - j)) j).
  - rewrite <- Z.shiftl_mul_pow2, <- Z.shiftr_div_pow2 by lia. bitwise i Hi.
    destruct (Z.lt_ge_cases i j).
    + by rewrite !(Z.testbit_neg_r _ (i - j)), andb_false_r by lia.
    + rewrite Z.testbit_ones_nonneg, Z.shiftr_spec by lia. replace (i - j + j) with i by lia.
      destruct (Z.ltb_spec (i - j) (w - j)); [apply andb_true_r|].
      by rewrite (in_u_testbit w v i) by (done || lia).
  - rewrite Z.shiftl_mul_pow2, Z.ones_equiv by lia.
    replace (Z.pred (2 ^ (w - j)) * 2 ^ j) with (2 ^ (w - j) * 2 ^ j - 2 ^ j) by lia.
    rewrite <- Z.pow_add_r by lia. f_equal. f_equal. lia.
Qed.

Lemma RoundUp_eq w mult val : 0 < mult -> 0 <= val -> val + mult < 2 ^ w ->
  RoundUpToMultipleOf w mult val = (val + mult - 1) / mult * mult.
Proof.
  intros Hm Hv Hb. unfold RoundUpToMultipleOf.
  rewrite (wrapu_small w (val + mult)), (wrapu_small w (val + mult - 1)) by (unfold in_u; lia).
  pose proof (Z.mul_div_le (val + mult - 1) mult Hm).
  assert (0 <= (val + mult - 1) / mult) by (apply Z.div_pos; lia).
  apply wrapu_small. split; [nia|lia].
Qed.

(** *** Properties *)

(** The range check of [SafeIntegerCast] is exact and the casts preserve
    what they promise: for any two integral types of any widths,
    [IntegerCanBeRepresentedIn] accepts exactly the values of the target type,
    the cast then keeps the value, and the three overflow-checked operations
    flag exactly the inexact results. *)
Theorem integer_casts Dst Src src a b :
  0 < width Dst -> 0 < width Src -> in_ty Src src ->
  (IntegerCanBeRepresentedIn Dst Src src = true <-> in_ty Dst src) /\
  (in_ty Dst src -> SafeIntegerCast Dst Src src = Some src) /\
  (forall op check, (op, check) ∈ [(Z.add, AddWithOverflowCheck); (Z.sub, SubWithOverflowCheck);
                                   (Z.mul, MulWithOverflowCheck)] ->
     in_ty Dst (check Dst a b).1 /\
     ((check Dst a b).2 = false <-> (check Dst a b).1 = op a b)).
Proof.
  intros Hd Hs Hin. pose proof (representable_spec Dst Src src Hd Hs Hin) as Hrep. split_and!; [done|..].
  - intros Hr. unfold SafeIntegerCast. rewrite (proj2 Hrep Hr). by rewrite static_cast_id.
  - assert (forall x, in_ty Dst (with_overflow Dst x).1 /\
      ((with_overflow Dst x).2 = false <-> (with_overflow Dst x).1 = x)) as Hov.
    { intros x. simpl. split; [by apply static_cast_range|]. rewrite negb_false_iff, andb_true_iff, !Z.leb_le.
      split; [apply static_cast_id; done|]. intros <-. by apply static_cast_range. }
    intros op check Hc. rewrite !elem_of_cons, elem_of_nil in Hc.
    destruct Hc as [[= -> ->]|[[= -> ->]|[[= -> ->]|[]]]]; apply Hov.
Qed.

Lemma integer_casts_witness :
  IntegerCanBeRepresentedIn (mkIntTy true 32) (mkIntTy false 64) (2 ^ 31) = true <->
  in_ty (mkIntTy true 32) (2 ^ 31).
Proof.
  apply (integer_casts (mkIntTy true 32) (mkIntTy false 64) (2 ^ 31) 0 0);
    [done|done|split; by vm_compute].
Defined.

(** The rounding helpers round up.  [RoundUpToPowerOfTwo] gives the least
    power of two that is not smaller (and 0 for 0, by the wrap-around);
    [RoundUpToMultipleOf] gives the least multiple that is not smaller, and the
    masking variant for powers of two is the same function. *)
Theorem rounding v w mult j :
  0 < v <= 2 ^ 31 -> 0 <= w -> 0 < mult -> v + mult < 2 ^ w -> mult = 2 ^ j -> 0 <= j ->
  (exists k, 0 <= k /\ RoundUpToPowerOfTwo v = 2 ^ k /\ v <= 2 ^ k /\ forall k', 0 <= k' -> v <= 2 ^ k' -> k <= k') /\
  RoundUpToPowerOfTwo 0 = 0 /\
  (exists q, RoundUpToMultipleOf w mult v = q * mult /\ v <= q * mult < v + mult) /\
  RoundUpToPowerOfTwoMultipleOf w v mult = RoundUpToMultipleOf w mult v.
Proof.
  intros Hv Hw Hm Hb Hj Hj0. split_and!; [|done|..].
  - destruct (RoundUpToPowerOfTwo_pow v Hv) as (k & Hk & -> & H1 & H2). exists k. split_and!; try lia.
    intros k' Hk' Hvk. destruct (Z.lt_ge_cases k' k); [|lia].
    pose proof (Z.pow_le_mono_r 2 k' (k - 1) ltac:(lia) ltac:(lia)).
    assert (2 ^ k = 2 * 2 ^ (k - 1)) by (rewrite <- Z.pow_succ_r by lia; f_equal; lia). lia.
  - rewrite RoundUp_eq by lia. eexists. split; [done|].
    pose proof (Z.mul_div_le (v + mult - 1) mult Hm).
    pose proof (Z.mod_pos_bound (v + mult - 1) mult Hm). pose proof (Z.div_mod (v + mult - 1) mult ltac:(lia)). lia.
  - rewrite RoundUp_eq by lia. unfold RoundUpToPowerOfTwoMultipleOf.
    rewrite !(wrapu_small w (mult - 1)) by (unfold in_u; lia). subst mult.
    assert (j <= w) by (destruct (Z.le_gt_cases j w); [done|pose proof (Z.pow_lt_mono_r 2 w j); lia]).
    rewrite pow2_mask by lia. replace (v + (2 ^ j - 1)) with (v + 2 ^ j - 1) by lia.
    rewrite wrapu_small by (unfold in_u; lia). apply land_high_mask; [lia|unfold in_u; lia].
Qed.

Lemma rounding_witness : exists q, RoundUpToMultipleOf 32 8 13 = q * 8 /\ 13 <= q * 8 < 13 + 8.
Proof. apply (rounding 13 32 8 3); lia. Defined.

(** [GetFirstKOnesInUint8Val] selects the lowest [k] ones: for every byte and
    every [k] up to its number of ones, the result is contained in the byte, has
    [k] ones, and every one of the byte it leaves out is above all it has. *)
Theorem first_k_ones val k : 0 <= val < 256 -> 0 <= k <= CountNumberOfOnes 8 val ->
  let r := GetFirstKOnesInUint8Val val k in
  Z.land r val = r /\ CountNumberOfOnes 8 r = k /\
  forall i, 0 <= i < 8 -> Z.testbit val i = true -> Z.testbit r i = false -> r < 2 ^ i.
Proof.
  intros Hv Hk.
  set (ok v c := let r := GetFirstKOnesInUint8Val v c in
    implb ((0 <=? c) && (c <=? CountNumberOfOnes 8 v))
      ((Z.land r v =? r) && (CountNumberOfOnes 8 r =? c) &&
       forallb (fun i => implb (Z.testbit v i && negb (Z.testbit r i)) (r <? 2 ^ i))
         (map Z.of_nat (seq 0 8)))).
  assert (forallb (fun v => forallb (ok v) (map Z.of_nat (seq 0 9))) (map Z.of_nat (seq 0 256)) = true) as Hall
    by (vm_compute; reflexivity).
  assert (CountNumberOfOnes 8 val <= 8) as Hle.
  { unfold CountNumberOfOnes, popcount.
    repeat match goal with |- context [Z.odd ?x] => destruct (Z.odd x) end; simpl; lia. }
  rewrite forallb_forall in Hall. specialize (Hall val).
  rewrite forallb_forall in Hall. specialize (fun H => Hall H k).
  assert (ok val k = true) as Hok.
  { apply Hall; apply in_map_iff; [exists (Z.to_nat val)|exists (Z.to_nat k)];
      (split; [lia|apply in_seq; lia]). }
  unfold ok in Hok. rewrite (proj2 (Z.leb_le 0 k)), (proj2 (Z.leb_le k _)) in Hok by lia. cbn [implb andb] in Hok.
  apply andb_true_iff in Hok as [[H1 H2]%andb_true_iff H3].
  apply Z.eqb_eq in H1, H2. split_and!; [done..|]. intros i Hi Ht Hf.
  rewrite forallb_forall in H3. specialize (H3 i).
  rewrite Ht, Hf in H3. simpl in H3. apply Z.ltb_lt, H3. lia.
Qed.

Lemma first_k_ones_witness : CountNumberOfOnes 8 (GetFirstKOnesInUint8Val 0xd6 3) = 3.
Proof. apply (first_k_ones 0xd6 3); split; by vm_compute. Defined.
