(* ===== verification/Probing.v ===== *)
(** * Linear probing

    The hash tables of hidden classes (transition table, anchor table, inline
    table, dictionary) are open-addressing tables whose loops differ in what
    they store, in the direction in which they move and in where index 0 is.
    [probe] is the loop they share; the section below it has the invariant of a
    probed table and the lemmas of look-up and insertion, for a table whose
    probe sequence moves by [sigma] = 1 or -1 modulo its size. *)

From S2P Require Import Prelude.

(** Element [i] of an array; out of its bounds there is none. *)
Definition at_slot {E} (t : list E) (i : Z) : option E :=
  if 0 <=? i then t !! Z.to_nat i else None.

(** Store to element [i] of an array. *)
Definition set_slot {E} (t : list E) (i : Z) (e : E) : option (list E) :=
  if (0 <=? i) && (i <? Z.of_nat (length t)) then Some (<[Z.to_nat i := e]> t) else None.

(** [while (true) { ...; slot = next(slot); }] over the entries [t\[base + slot\]];
    [visit] says at which entry, and with which result, the loop stops. *)
Section loop.
Context {E R : Type} (visit : E -> option R) (next : Z -> Z) (base : Z) (t : list E).

Fixpoint probe (fuel : nat) (slot : Z) : option (Z * R) :=
  match fuel with
  | O => None
  | S fuel' =>
      e ← at_slot t (base + slot);
      match visit e with
      | Some r => Some (slot, r)
      | None => probe fuel' (next slot)
      end
  end.

Lemma probe_run (slotf : Z -> Z) d0 fuel e r :
  (forall d, 0 <= d -> next (slotf d) = slotf (d + 1)) ->
  (forall d, 0 <= d < d0 -> exists e', at_slot t (base + slotf d) = Some e' /\ visit e' = None) ->
  at_slot t (base + slotf d0) = Some e -> visit e = Some r ->
  0 <= d0 < Z.of_nat fuel -> probe fuel (slotf 0) = Some (slotf d0, r).
Proof.
  intros Hnext Hskip He Hv Hd.
  assert (forall d fuel, 0 <= d <= d0 -> d0 - d < Z.of_nat fuel ->
    probe fuel (slotf d) = Some (slotf d0, r)) as H; [|apply H; lia].
  clear fuel Hd. intros d fuel. revert d.
  induction fuel as [|fuel IH]; intros d Hd Hf; [lia|]. simpl.
  destruct (Z.eq_dec d d0) as [->|].
  - rewrite He. simpl. by rewrite Hv.
  - destruct (Hskip d ltac:(lia)) as (e' & -> & Hn). simpl. rewrite Hn, Hnext by lia. apply IH; lia.
Qed.
End loop.

(** Where the two directions go. *)
Lemma lor_mask k x : 0 <= k -> Z.lor x (- 2 ^ k) = x mod 2 ^ k - 2 ^ k.
Proof.
  intros Hk. replace (- 2 ^ k) with (Z.lnot (Z.ones k)).
  - rewrite <- (Z.lnot_involutive x) at 1. rewrite <- Z.lnot_land, Z.land_ones by done.
    unfold Z.lnot. replace (Z.pred (- x)) with ((-1) * x + (-1)) by lia.
    pose proof (Z.div_mod x (2 ^ k) ltac:(lia)). pose proof (Z.mod_pos_bound x (2 ^ k) ltac:(lia)).
    rewrite <- (Z.mod_unique (-1 * x + -1) (2 ^ k) (- (x / 2 ^ k) - 1) (2 ^ k - 1 - x mod 2 ^ k)); lia.
  - rewrite Z.ones_equiv. unfold Z.lnot. lia.
Qed.

Lemma up_next k h d : 0 <= k ->
  Z.land ((h + 1 * d) mod 2 ^ k + 1) (2 ^ k - 1) = (h + 1 * (d + 1)) mod 2 ^ k.
Proof. intros Hk. rewrite land_mask, Zplus_mod_idemp_l by done. f_equal. lia. Qed.

Lemma down_next k h d : 0 <= k ->
  Z.lor ((h + -1 * d) mod 2 ^ k - 2 ^ k - 1) (- 2 ^ k) = (h + -1 * (d + 1)) mod 2 ^ k - 2 ^ k.
Proof.
  intros Hk. rewrite lor_mask by done. f_equal.
  replace ((h + -1 * d) mod 2 ^ k - 2 ^ k - 1) with ((h + -1 * d) mod 2 ^ k + -1 + (-1) * 2 ^ k) by lia.
  rewrite Z_mod_plus_full, Zplus_mod_idemp_l. f_equal. lia.
Qed.

(** ** Probed tables *)
Section table.
Context {E K : Type} `{EqDecision K} (key_of : E -> option K) (home : K -> Z) (sigma n : Z).
Hypothesis sigma_ok : sigma = 1 \/ sigma = -1.
Hypothesis n_pos : 0 < n.

(** The slot at distance [d] on the probe sequence of [k]. *)
Definition pos (k : K) (d : Z) : Z := (home k + sigma * d) mod n.
Definition slot (k : K) (d : Z) : nat := Z.to_nat (pos k d).

(** Slot [d] of the sequence of [k] is occupied. *)
Definition taken (t : list E) (k : K) (d : Z) : Prop :=
  exists e k', t !! slot k d = Some e /\ key_of e = Some k'.

Record probing_ok (t : list E) : Prop := {
  po_length : length t = Z.to_nat n;
  po_chain : forall d e k, 0 <= d < n -> t !! slot k d = Some e -> key_of e = Some k ->
    forall d', 0 <= d' < d -> taken t k d';
  po_distinct : forall i j e e' k, t !! i = Some e -> t !! j = Some e' ->
    key_of e = Some k -> key_of e' = Some k -> i = j
}.

Definition occupied (e : E) : bool := match key_of e with Some _ => true | None => false end.
Definition occupancy (t : list E) : nat := length (List.filter occupied t).

(** The keys of a table. *)
Definition has_key (t : list E) (k : K) : Prop := exists e, e ∈ t /\ key_of e = Some k.

#[export] Instance has_key_dec t k : Decision (has_key t k).
Proof.
  destruct (decide (Exists (fun e => key_of e = Some k) t)) as [Hx|Hx].
  - left. by apply Exists_exists in Hx.
  - right. intros Hk. by apply Hx, Exists_exists.
Defined.

Lemma pos_range k d : 0 <= pos k d < n.
Proof. apply Z.mod_pos_bound. lia. Qed.

Lemma slot_lt k d : (slot k d < Z.to_nat n)%nat.
Proof. pose proof (pos_range k d). unfold slot. lia. Qed.

Lemma slot_distance k i : (i < Z.to_nat n)%nat -> exists d, 0 <= d < n /\ slot k d = i.
Proof.
  intros Hi. exists ((sigma * (Z.of_nat i - home k)) mod n). split; [apply Z.mod_pos_bound; lia|].
  unfold slot, pos. rewrite <- Zplus_mod_idemp_r, Zmult_mod_idemp_r, Zplus_mod_idemp_r.
  replace (home k + sigma * (sigma * (Z.of_nat i - home k))) with (Z.of_nat i)
    by (destruct sigma_ok as [-> | ->]; lia).
  rewrite Z.mod_small by lia. lia.
Qed.

Lemma slot_inj k d d' : 0 <= d < n -> 0 <= d' < n -> slot k d = slot k d' -> d = d'.
Proof.
  intros Hd Hd' E'. pose proof (pos_range k d). pose proof (pos_range k d').
  assert (pos k d = pos k d') as E2 by (unfold slot in E'; lia). unfold pos in E2.
  assert ((sigma * (home k + sigma * d - home k)) mod n = (sigma * (home k + sigma * d' - home k)) mod n) as E3.
  { rewrite <- (Zmult_mod_idemp_r (home k + sigma * d - home k)), <- (Zminus_mod_idemp_l (home k + sigma * d)).
    by rewrite E2, Zminus_mod_idemp_l, Zmult_mod_idemp_r. }
  replace (sigma * (home k + sigma * d - home k)) with d in E3 by (destruct sigma_ok as [-> | ->]; lia).
  replace (sigma * (home k + sigma * d' - home k)) with d' in E3 by (destruct sigma_ok as [-> | ->]; lia).
  by rewrite !Z.mod_small in E3.
Qed.

Lemma at_pos (t : list E) k d : at_slot t (pos k d) = t !! slot k d.
Proof. unfold at_slot. pose proof (pos_range k d). destruct (Z.leb_spec 0 (pos k d)); [done|lia]. Qed.

Lemma set_slot_pos (t : list E) k d e : length t = Z.to_nat n -> set_slot t (pos k d) e = Some (<[slot k d := e]> t).
Proof.
  intros Hl. pose proof (pos_range k d). unfold set_slot, slot. rewrite Hl, Z2Nat.id by lia.
  by destruct (Z.leb_spec 0 (pos k d)), (Z.ltb_spec (pos k d) n); [|lia..].
Qed.

(** *** Look-up *)

Lemma find_hit t k e : probing_ok t -> e ∈ t -> key_of e = Some k ->
  exists d, 0 <= d < n /\ t !! slot k d = Some e /\
    forall d', 0 <= d' < d -> exists e' k', t !! slot k d' = Some e' /\ key_of e' = Some k' /\ k' <> k.
Proof.
  intros [Hl Hc Hd] He Hk. apply list_elem_of_lookup_1 in He as [i Hi].
  destruct (slot_distance k i) as (d & Hdn & Hs); [rewrite <- Hl; by eapply lookup_lt_Some|].
  exists d. rewrite Hs. split_and!; [lia..|done|]. intros d' Hd'.
  destruct (Hc d e k Hdn ltac:(by rewrite Hs) Hk d' Hd') as (e' & k' & He' & Hk').
  exists e', k'. split_and!; [done..|]. intros ->.
  pose proof (Hd _ _ _ _ _ He' Hi Hk' Hk) as Heq. rewrite <- Hs in Heq.
  apply slot_inj in Heq; lia.
Qed.

Lemma first_empty_below t k m : probing_ok t -> 0 <= m <= n ->
  (forall d, 0 <= d < m -> taken t k d) \/
  exists d e, 0 <= d < m /\ t !! slot k d = Some e /\ key_of e = None /\
    forall d', 0 <= d' < d -> taken t k d'.
Proof.
  intros Hok Hm. rewrite <- (Z2Nat.id m) in Hm |- * by lia.
  induction (Z.to_nat m) as [|j IH]; [left; intros; lia|].
  destruct IH as [Hall|(d & e & Hd & H)]; [lia| |right; exists d, e; split; [lia|done]].
  assert (is_Some (t !! slot k (Z.of_nat j))) as [e He].
  { apply lookup_lt_is_Some. rewrite (po_length t Hok). apply slot_lt. }
  destruct (key_of e) as [k'|] eqn:Hk.
  - left. intros d Hd. destruct (Z.eq_dec d (Z.of_nat j)) as [->|]; [by exists e, k'|apply Hall; lia].
  - right. exists (Z.of_nat j), e. split_and!; try done; lia.
Qed.

(** The first empty slot on the probe sequence of [k]. *)
Definition first_empty (t : list E) (k : K) (d : Z) (e : E) : Prop :=
  0 <= d < n /\ t !! slot k d = Some e /\ key_of e = None /\ forall d', 0 <= d' < d -> taken t k d'.

Lemma find_empty t k : probing_ok t -> (exists e, e ∈ t /\ key_of e = None) ->
  exists d e, first_empty t k d e.
Proof.
  intros Hok (e & He & Hk). destruct (first_empty_below t k n Hok ltac:(lia)) as [Hall|H]; [|exact H].
  apply list_elem_of_lookup_1 in He as [i Hi].
  destruct (slot_distance k i) as (d & Hd & Hs).
  { rewrite <- (po_length t Hok). by eapply lookup_lt_Some. }
  destruct (Hall d Hd) as (e' & k' & He' & Hk'). rewrite Hs in He'. congruence.
Qed.

(** A loop that skips the other keys, stops at [k] with [hit] and at an empty
    entry with [miss], finds the entry of [k] if there is one, and otherwise the
    first empty entry. *)
Lemma probe_find {R} (visit : E -> option R) next base slotf (hit miss : E -> R) fuel t k :
  probing_ok t -> (exists e, e ∈ t /\ key_of e = None) ->
  (forall e k', e ∈ t -> key_of e = Some k' -> k' <> k -> visit e = None) ->
  (forall e, e ∈ t -> key_of e = Some k -> visit e = Some (hit e)) ->
  (forall e, e ∈ t -> key_of e = None -> visit e = Some (miss e)) ->
  (forall d, 0 <= d -> next (slotf d) = slotf (d + 1)) ->
  (forall d, base + slotf d = pos k d) -> n <= Z.of_nat fuel ->
  (exists e d, 0 <= d < n /\ key_of e = Some k /\ t !! slot k d = Some e /\
     probe visit next base t fuel (slotf 0) = Some (slotf d, hit e)) \/
  (~ has_key t k /\
   exists e d, first_empty t k d e /\ probe visit next base t fuel (slotf 0) = Some (slotf d, miss e)).
Proof.
  intros Hok Hempty Hother Hhit Hmiss Hnext Hbase Hf.
  destruct (find_empty t k Hok Hempty) as (d & e & Hd & He & Hk & Hfirst).
  destruct (has_key_dec t k) as [(e1 & He1 & Hk1)|Hno].
  - left. destruct (find_hit t k e1 Hok He1 Hk1) as (d1 & Hd1 & Hs1 & Hb).
    exists e1, d1. split_and!; [lia..|done|done|].
    apply probe_run with (e := e1); [done| | |by apply Hhit|lia].
    + intros d' Hd'. destruct (Hb d' Hd') as (e' & k' & He' & Hk' & Hne). exists e'.
      rewrite Hbase, at_pos. split; [done|]. by eapply Hother; [eapply list_elem_of_lookup_2|..].
    + by rewrite Hbase, at_pos.
  - right. split; [done|]. exists e, d. split; [done|].
    apply probe_run with (e := e); [done| | |apply Hmiss; [by eapply list_elem_of_lookup_2|done]|lia].
    + intros d' Hd'. destruct (Hfirst d' Hd') as (e' & k' & He' & Hk'). exists e'.
      rewrite Hbase, at_pos. split; [done|].
      apply (Hother e' k'); [by eapply list_elem_of_lookup_2|done|].
      intros ->. apply Hno. exists e'. split; [by eapply list_elem_of_lookup_2|done].
    + by rewrite Hbase, at_pos.
Qed.

(** *** Insertion *)

Section insert.
Variables (t : list E) (k : K) (d : Z) (e0 e : E).
Hypothesis t_ok : probing_ok t.
Hypothesis empty_slot : first_empty t k d e0.
Hypothesis absent : ~ has_key t k.
Hypothesis e_key : key_of e = Some k.

Lemma insert_lookup i x : <[slot k d := e]> t !! i = Some x ->
  (i = slot k d /\ x = e) \/ (i <> slot k d /\ t !! i = Some x).
Proof.
  destruct empty_slot as (_ & Hs & _). destruct (decide (slot k d = i)) as [<-|Hne].
  - rewrite list_lookup_insert_eq by (by eapply lookup_lt_Some). intros [= <-]. auto.
  - rewrite list_lookup_insert_ne by done. auto.
Qed.

Lemma insert_taken k' d' : taken t k' d' -> taken (<[slot k d := e]> t) k' d'.
Proof.
  intros (x & kx & Hx & Hkx). destruct empty_slot as (_ & Hs & Hn & _).
  exists x, kx. split; [|done]. rewrite list_lookup_insert_ne; [done|]. intros Heq. congruence.
Qed.

Lemma insert_ok : probing_ok (<[slot k d := e]> t).
Proof.
  destruct t_ok as [Hl Hc Hd]. pose proof empty_slot as (Hdn & Hs & Hn & Hf). split.
  - by rewrite length_insert.
  - intros d1 x k1 Hd1 Hx Hk1 d' Hd'. apply insert_taken.
    destruct (insert_lookup _ _ Hx) as [[Heq ->]|[Hne Hx']].
    + assert (k1 = k) as -> by congruence. apply slot_inj in Heq as ->; [|done..]. by apply Hf.
    + by eapply Hc.
  - intros i j x y k1 Hx Hy Hkx Hky.
    destruct (insert_lookup _ _ Hx) as [[-> ->]|[? Hx']], (insert_lookup _ _ Hy) as [[-> ->]|[? Hy']]; [done|..].
    + destruct absent. exists y. split; [by eapply list_elem_of_lookup_2|congruence].
    + destruct absent. exists x. split; [by eapply list_elem_of_lookup_2|congruence].
    + by eapply Hd.
Qed.

(** The occupied entries are the old ones and the new one. *)
Lemma insert_elem x kx : key_of x = Some kx ->
  x ∈ <[slot k d := e]> t <-> x = e \/ x ∈ t.
Proof.
  intros Hkx. pose proof empty_slot as (_ & Hs & Hn & _). split.
  - intros (i & Hi)%list_elem_of_lookup_1. destruct (insert_lookup _ _ Hi) as [[_ ->]|[_ Hx]]; [by left|].
    right. by eapply list_elem_of_lookup_2.
  - intros [->|(i & Hi)%list_elem_of_lookup_1].
    + eapply list_elem_of_lookup_2, list_lookup_insert_eq. by eapply lookup_lt_Some.
    + apply (list_elem_of_lookup_2 _ i). rewrite list_lookup_insert_ne; [done|]. intros <-. congruence.
Qed.

Lemma insert_has_key k' : has_key (<[slot k d := e]> t) k' <-> k' = k \/ has_key t k'.
Proof.
  split.
  - intros (x & Hx & Hk). apply (insert_elem x k' Hk) in Hx as [->|Hx]; [left; congruence|right; by exists x].
  - intros [->|(x & Hx & Hk)].
    + exists e. split; [by apply (insert_elem e k); auto|done].
    + exists x. split; [by apply (insert_elem x k'); auto|done].
Qed.
End insert.

Lemma occupancy_insert t i e e' : t !! i = Some e' -> key_of e' = None -> key_of e <> None ->
  occupancy (<[i := e]> t) = S (occupancy t).
Proof.
  unfold occupancy. intros Hi Hn He. revert i Hi. induction t as [|x t IH]; intros i Hi; [done|].
  destruct i as [|i]; simpl in *.
  - injection Hi as ->. unfold occupied. rewrite Hn. by destruct (key_of e).
  - destruct (occupied x); simpl; by rewrite IH.
Qed.

(** A table that is not full has an empty slot. *)
Lemma not_full t : (occupancy t < length t)%nat -> exists e, e ∈ t /\ key_of e = None.
Proof.
  unfold occupancy. induction t as [|e t IH]; simpl; [lia|].
  unfold occupied at 1. destruct (key_of e) eqn:Hk; simpl.
  - intros H. destruct IH as (e' & ? & ?); [lia|]. exists e'. split; [by right|done].
  - intros _. exists e. split; [by left|done].
Qed.

(** *** Inserting the entries of a list, one after the other *)

Section rehash.
Variables (ins : list E -> E -> option (list E)) (good : E -> Prop).
Hypothesis ins_skip : forall t e, key_of e = None -> ins t e = Some t.
Hypothesis ins_new : forall t e k d e0, probing_ok t -> Forall good t -> good e -> key_of e = Some k -> ~ has_key t k ->
  first_empty t k d e0 -> ins t e = Some (<[slot k d := e]> t).

Definition ins_step (acc : option (list E)) (e : E) : option (list E) := t ← acc; ins t e.

Lemma rehash_fold l acc : probing_ok acc -> Forall good acc -> Forall good l ->
  (forall i j e e' k, l !! i = Some e -> l !! j = Some e' -> key_of e = Some k -> key_of e' = Some k -> i = j) ->
  (forall e k, e ∈ l -> key_of e = Some k -> ~ has_key acc k) ->
  Z.of_nat (occupancy acc + occupancy l) < n ->
  exists t', foldl ins_step (Some acc) l = Some t' /\ probing_ok t' /\
    occupancy t' = (occupancy acc + occupancy l)%nat /\
    (forall e k, key_of e = Some k -> e ∈ t' <-> e ∈ acc \/ e ∈ l).
Proof.
  revert acc. induction l as [|x l IH]; intros acc Hp Hga Hgood Hdis Hfresh Hocc.
  { exists acc. simpl. split_and!; [done..|unfold occupancy; simpl; lia|]. intros e k _. rewrite elem_of_nil. tauto. }
  assert (forall i j e e' k, l !! i = Some e -> l !! j = Some e' -> key_of e = Some k ->
    key_of e' = Some k -> i = j) as Hdis'.
  { intros i j e e' k H1 H2 H3 H4. specialize (Hdis (S i) (S j) e e' k H1 H2 H3 H4). lia. }
  apply Forall_cons in Hgood as [Hgx Hgood].
  cbn [foldl ins_step mbind option_bind]. destruct (key_of x) as [kx|] eqn:Ex.
  - assert (~ has_key acc kx) as Hno by (eapply Hfresh; [by left|done]).
    assert (occupancy (x :: l) = S (occupancy l)) as Hox by (unfold occupancy; simpl; unfold occupied at 1; by rewrite Ex).
    destruct (find_empty acc kx Hp) as (d & e0 & Hf); [apply not_full; rewrite (po_length _ Hp); lia|].
    rewrite (ins_new acc x kx d e0) by done.
    assert (probing_ok (<[slot kx d := x]> acc)) as Hp' by (by eapply insert_ok).
    assert (occupancy (<[slot kx d := x]> acc) = S (occupancy acc)) as Hoa
      by (apply (occupancy_insert _ _ _ e0); [apply Hf|apply Hf|congruence]).
    destruct (IH _ Hp' (Forall_insert _ _ _ _ Hga Hgx) Hgood Hdis') as (t' & Ht' & Hpt & Hot & Hel).
    + intros e k He Hk Hin. apply (insert_has_key acc kx d e0 x Hf Ex) in Hin as [->|Hin].
      * apply list_elem_of_lookup_1 in He as [j Hj]. specialize (Hdis O (S j) x e kx eq_refl Hj Ex Hk). lia.
      * eapply (Hfresh e k); [by right|done|done].
    + lia.
    + exists t'. split_and!; [done|done|lia|]. intros e k He.
      rewrite (Hel e k He), (insert_elem acc kx d e0 x Hf e k He), elem_of_cons. tauto.
  - assert (occupancy (x :: l) = occupancy l) as Hox by (unfold occupancy; simpl; unfold occupied at 1; by rewrite Ex).
    rewrite ins_skip by done. destruct (IH acc Hp Hga Hgood Hdis') as (t' & Ht' & Hpt & Hot & Hel).
    + intros e k He. apply Hfresh. by right.
    + lia.
    + exists t'. split_and!; [done|done|lia|]. intros e k He. rewrite (Hel e k He), elem_of_cons.
      split; [tauto|]. intros [?|[->|?]]; [tauto|congruence|tauto].
Qed.
End rehash.

(** *** Replacing the entry of a key *)
Lemma replace_ok t i e e' : probing_ok t -> t !! i = Some e -> key_of e' = key_of e -> key_of e <> None ->
  probing_ok (<[i := e']> t).
Proof.
  intros [Hl Hc Hd] Hi Hk Hn.
  assert (forall j x, <[i := e']> t !! j = Some x -> exists y, t !! j = Some y /\ key_of y = key_of x) as Hlk.
  { intros j x. destruct (decide (i = j)) as [<-|Hne].
    - rewrite list_lookup_insert_eq by (by eapply lookup_lt_Some). intros [= <-]. eauto.
    - rewrite list_lookup_insert_ne by done. eauto. }
  split.
  - by rewrite length_insert.
  - intros d x k Hdn Hx Hkx d' Hd'. destruct (Hlk _ _ Hx) as (y & Hy & Hky).
    destruct (Hc d y k Hdn Hy ltac:(congruence) d' Hd') as (z & kz & Hz & Hkz).
    destruct (decide (slot k d' = i)) as [Heq|Hne].
    + exists e', kz. rewrite Heq, list_lookup_insert_eq by (by eapply lookup_lt_Some). split; congruence.
    + exists z, kz. by rewrite list_lookup_insert_ne.
  - intros i1 j x y k Hx Hy Hkx Hky. destruct (Hlk _ _ Hx) as (x1 & ? & ?), (Hlk _ _ Hy) as (y1 & ? & ?).
    eapply (Hd _ _ x1 y1 k); congruence.
Qed.

Lemma replicate_ok e : key_of e = None -> probing_ok (replicate (Z.to_nat n) e).
Proof.
  intros Hk. split; [by rewrite length_replicate| |].
  - intros d x k _ Hx Hkx. apply lookup_replicate_1 in Hx as [-> _]. congruence.
  - intros i j x y k Hx _ Hkx. apply lookup_replicate_1 in Hx as [-> _]. congruence.
Qed.

Lemma replicate_occupancy e m : key_of e = None -> occupancy (replicate m e) = O.
Proof.
  intros Hk. unfold occupancy. induction m as [|m IH]; [done|]. simpl. unfold occupied at 1.
  by rewrite Hk.
Qed.

Lemma replicate_no_key e m k : key_of e = None -> ~ has_key (replicate m e) k.
Proof. intros Hk (x & Hx & Hkx). apply elem_of_replicate in Hx as [-> _]. congruence. Qed.
End table.

(** The invariant only looks at the keys of the entries. *)
Lemma probing_ok_ext {E K} (key_of key_of' : E -> option K) home sigma n t :
  (forall e, e ∈ t -> key_of e = key_of' e) ->
  probing_ok key_of home sigma n t -> probing_ok key_of' home sigma n t.
Proof.
  intros Hext [Hl Hc Hd]. split; [done| |].
  - intros d e k Hdn He Hk d' Hd'.
    destruct (Hc d e k Hdn He ltac:(rewrite Hext; [done|by eapply list_elem_of_lookup_2]) d' Hd')
      as (x & kx & Hx & Hkx).
    exists x, kx. split; [done|]. rewrite <- Hext; [done|by eapply list_elem_of_lookup_2].
  - intros i j x y k Hx Hy Hkx Hky.
    eapply (Hd i j x y k); [done|done|rewrite Hext..]; try done; by eapply list_elem_of_lookup_2.
Qed.

Lemma occupancy_ext {E K} (key_of key_of' : E -> option K) t :
  (forall e, e ∈ t -> key_of e = key_of' e) -> occupancy key_of t = occupancy key_of' t.
Proof.
  intros Hext. unfold occupancy. f_equal. induction t as [|e t IH]; [done|]. simpl.
  assert (occupied key_of e = occupied key_of' e) as -> by (unfold occupied; by rewrite Hext by (by left)).
  rewrite IH; [done|]. intros e' He'. apply Hext. by right.
Qed.
