(* ===== verification/CheckedTable.v ===== *)
(** * Hash tables of ordinals with a check hash

    The anchor table and the inline table of a structure store, for every key,
    its ordinal and eight bits of its hash; the keys themselves are elsewhere,
    under their ordinal.  Both are probed downwards from the end of the table.
    The lemmas here are about any such table. *)

From S2P Require Import Prelude Probing.

Section checked.
Context {E : Type} (ordinal checkHash : E -> Z) (emptyOrdinal : Z).
(** The hash of a key. *)
Context (hash : Z -> Z).

(** The key an entry stands for, [name] being the key at an ordinal. *)
Definition entry_key (name : Z -> option Z) (e : E) : option Z :=
  if ordinal e =? emptyOrdinal then None else name (ordinal e).

Definition home_slot (g : Z) : Z := Z.shiftr (hash g) 8.

(** A table of [2 ^ k] entries that holds exactly [keys]. *)
Record ctable_ok (k : Z) (name : Z -> option Z) (keys : list Z) (t : list E) : Prop := {
  ct_size : 0 <= k;
  ct_probing : probing_ok (entry_key name) home_slot (-1) (2 ^ k) t;
  ct_entries : forall e, e ∈ t -> ordinal e <> emptyOrdinal ->
    exists g, name (ordinal e) = Some g /\ checkHash e = wrapu 8 (hash g);
  ct_keys : forall g, has_key (entry_key name) t g <-> g ∈ keys;
  ct_nodup : NoDup keys;
  ct_count : occupancy (entry_key name) t = length keys
}.

(** The start of a loop and the slots it visits, relative to the end of the table. *)
Definition end_slot (k g d : Z) : Z := pos home_slot (-1) (2 ^ k) g d - 2 ^ k.

Lemma end_slot_0 k g : 0 <= k -> end_slot k g 0 = Z.lor (Z.shiftr (hash g) 8) (- 2 ^ k).
Proof.
  intros Hk. rewrite lor_mask by done. unfold end_slot, pos, home_slot. do 2 f_equal. lia.
Qed.

Lemma end_slot_next k g d : 0 <= k -> Z.lor (end_slot k g d - 1) (- 2 ^ k) = end_slot k g (d + 1).
Proof. intros Hk. unfold end_slot, pos. by rewrite down_next. Qed.

Section table.
Variables (k : Z) (name : Z -> option Z) (keys : list Z) (t : list E).
Hypothesis ok : ctable_ok k name keys t.

Lemma ct_length : Z.of_nat (length t) = 2 ^ k.
Proof. destruct ok as [Hk Hp _ _ _ _]. rewrite (po_length _ _ _ _ _ Hp), Z2Nat.id; lia. Qed.

Lemma ct_pow_pos : 0 < 2 ^ k.
Proof. destruct ok. apply Z.pow_pos_nonneg; lia. Qed.

Lemma ct_has_empty : Z.of_nat (length keys) < 2 ^ k -> exists e, e ∈ t /\ entry_key name e = None.
Proof. intros Hl. apply not_full. rewrite (ct_count _ _ _ _ ok). pose proof ct_length. lia. Qed.

Lemma entry_key_empty e : e ∈ t -> entry_key name e = None -> ordinal e = emptyOrdinal.
Proof.
  unfold entry_key. intros He Hn. destruct (Z.eqb_spec (ordinal e) emptyOrdinal) as [|Hne]; [done|].
  destruct (ct_entries _ _ _ _ ok e He Hne) as (g & Hg & _). congruence.
Qed.

(** *** Look-up *)

(** What the look-up loop of [g] does at an entry; [f] makes the result from the
    ordinal. *)
Definition cvisit (f : Z -> Z) (g : Z) (e : E) : option (option (option Z)) :=
  if ordinal e =? emptyOrdinal then Some (Some None)
  else if checkHash e =? wrapu 8 (hash g) then
    match name (ordinal e) with
    | None => Some None
    | Some p => if p =? g then Some (Some (Some (f (ordinal e)))) else None
    end
  else None.

Lemma ctable_lookup visit f g : Z.of_nat (length keys) < 2 ^ k ->
  (forall e, e ∈ t -> visit e = cvisit f g e) ->
  exists s r,
    probe visit (fun hashSlot => Z.lor (hashSlot - 1) (- 2 ^ k)) (Z.of_nat (length t)) t (length t)
      (Z.lor (Z.shiftr (hash g) 8) (- 2 ^ k)) = Some (s, Some r) /\
    match r with
    | Some v => exists o, name o = Some g /\ v = f o /\ g ∈ keys
    | None => g ∉ keys
    end.
Proof.
  intros Hl Hv. pose proof ok as [Hk Hp He Hks _ _]. pose proof ct_length as Hlen.
  rewrite <- end_slot_0 by done. rewrite Hlen.
  destruct (probe_find (entry_key name) home_slot (-1) (2 ^ k) ltac:(auto) ct_pow_pos
    visit (fun hashSlot => Z.lor (hashSlot - 1) (- 2 ^ k)) (2 ^ k) (end_slot k g)
    (fun e => Some (Some (f (ordinal e)))) (fun _ => Some None) (length t) t g)
    as [(e & d & Hd & Hek & Hs & ->)|(Hno & e & d & _ & ->)].
  - done.
  - by apply ct_has_empty.
  - intros e g' Hin Hek Hne. rewrite Hv by done. unfold cvisit, entry_key in *.
    destruct (ordinal e =? emptyOrdinal); [done|]. rewrite Hek.
    destruct (Z.eqb_spec g' g); [done|]. by destruct (checkHash e =? _).
  - intros e Hin Hek. rewrite Hv by done. unfold cvisit, entry_key in *.
    destruct (Z.eqb_spec (ordinal e) emptyOrdinal) as [|Hne]; [done|]. rewrite Hek.
    destruct (He e Hin Hne) as (g' & Hg' & ->). assert (g' = g) as -> by congruence.
    by rewrite !Z.eqb_refl.
  - intros e Hin Hek. rewrite Hv by done. unfold cvisit.
    by rewrite (entry_key_empty e Hin Hek), Z.eqb_refl.
  - intros d _. by apply end_slot_next.
  - intros d. unfold end_slot. lia.
  - lia.
  - eexists _, (Some _). split; [done|]. exists (ordinal e). unfold entry_key in Hek.
    destruct (ordinal e =? emptyOrdinal) eqn:Eo; [done|]. split_and!; [done..|].
    apply Hks. exists e. split; [by eapply list_elem_of_lookup_2|]. unfold entry_key. by rewrite Eo.
  - eexists _, None. split; [done|]. by rewrite <- Hks.
Qed.

(** *** Insertion *)

Lemma ctable_insert visit g o e : Z.of_nat (length keys) < 2 ^ k -> g ∉ keys ->
  (forall e, e ∈ t -> visit e = if ordinal e =? emptyOrdinal then Some tt else None) ->
  ordinal e = o -> checkHash e = wrapu 8 (hash g) -> o <> emptyOrdinal -> name o = Some g ->
  exists s t',
    probe visit (fun hashSlot => Z.lor (hashSlot - 1) (- 2 ^ k)) (Z.of_nat (length t)) t (length t)
      (Z.lor (Z.shiftr (hash g) 8) (- 2 ^ k)) = Some (s, tt) /\
    set_slot t (Z.of_nat (length t) + s) e = Some t' /\ ctable_ok k name (keys ++ [g]) t'.
Proof.
  intros Hl Hg Hv Ho Hc Hne Hname. pose proof ok as [Hk Hp He Hks Hnd Hcnt].
  pose proof ct_length as Hlen. rewrite <- end_slot_0 by done. rewrite Hlen.
  assert (entry_key name e = Some g) as Hek.
  { unfold entry_key. rewrite Ho. by destruct (Z.eqb_spec o emptyOrdinal). }
  assert (~ has_key (entry_key name) t g) as Hno by (by rewrite Hks).
  destruct (find_empty (entry_key name) home_slot (-1) (2 ^ k) ltac:(auto) ct_pow_pos t g Hp (ct_has_empty Hl))
    as (d & e0 & Hf).
  pose proof Hf as (Hd & Hs & Hk0 & Hfirst).
  exists (end_slot k g d), (<[slot home_slot (-1) (2 ^ k) g d := e]> t).
  pose proof (pos_range home_slot (-1) (2 ^ k) ct_pow_pos g d) as Hr.
  split_and!.
  - apply probe_run with (e := e0).
    + intros d' _. by apply end_slot_next.
    + intros d' Hd'. destruct (Hfirst d' Hd') as (e' & g' & Hs' & Hk'). exists e'.
      replace (2 ^ k + end_slot k g d') with (pos home_slot (-1) (2 ^ k) g d') by (unfold end_slot; lia).
      rewrite at_pos by apply ct_pow_pos. split; [done|].
      rewrite Hv by (by eapply list_elem_of_lookup_2). unfold entry_key in Hk'.
      by destruct (ordinal e' =? emptyOrdinal).
    + replace (2 ^ k + end_slot k g d) with (pos home_slot (-1) (2 ^ k) g d) by (unfold end_slot; lia).
      by rewrite at_pos by apply ct_pow_pos.
    + assert (e0 ∈ t) as Hin by (by eapply list_elem_of_lookup_2). rewrite Hv by done.
      by rewrite (entry_key_empty e0 Hin Hk0), Z.eqb_refl.
    + lia.
  - unfold set_slot, slot, end_slot. rewrite Hlen.
    replace (2 ^ k + (pos home_slot (-1) (2 ^ k) g d - 2 ^ k)) with (pos home_slot (-1) (2 ^ k) g d) by lia.
    destruct (Z.leb_spec 0 (pos home_slot (-1) (2 ^ k) g d)), (Z.ltb_spec (pos home_slot (-1) (2 ^ k) g d) (2 ^ k));
      simpl; [done|lia..].
  - split.
    + done.
    + by eapply insert_ok with (e0 := e0); [auto|apply ct_pow_pos|..].
    + intros e' He' Hne'. destruct (entry_key name e') as [g'|] eqn:Eg'.
      * apply (insert_elem _ _ _ _ t g d e0 e Hf _ _ Eg') in He' as [->|He']; [|by apply He].
        exists g. by rewrite Ho, Hc.
      * apply list_elem_of_lookup_1 in He' as [i Hi].
        destruct (insert_lookup _ _ _ _ t g d e0 e Hf _ _ Hi) as [[_ ->]|[_ Hi']]; [congruence|].
        apply He; [by eapply list_elem_of_lookup_2|done].
    + intros g'. rewrite (insert_has_key _ _ _ _ t g d e0 e Hf Hek), Hks, elem_of_app, list_elem_of_singleton.
      tauto.
    + apply NoDup_app. split_and!; [done| |by apply NoDup_singleton].
      intros x Hx ->%list_elem_of_singleton. done.
    + rewrite (occupancy_insert _ t _ e e0), Hcnt, length_app by (done || by rewrite Hek). simpl. lia.
Qed.
End table.

Lemma ctable_empty k name e : 0 <= k -> ordinal e = emptyOrdinal ->
  ctable_ok k name [] (replicate (Z.to_nat (2 ^ k)) e).
Proof.
  intros Hk He. assert (entry_key name e = None) as Hn by (unfold entry_key; by rewrite He, Z.eqb_refl).
  split; [done|by apply replicate_ok| | |by apply NoDup_nil|by apply replicate_occupancy].
  - intros e' He' Hne. apply elem_of_replicate in He' as [-> _]. done.
  - intros g. split; [|by intros ?%not_elem_of_nil]. intros Hg. by apply replicate_no_key in Hg.
Qed.

(** Ordinals may mean more, and be given other names for the same keys. *)
Lemma ctable_ext k name name' keys t :
  (forall o g, name o = Some g -> g ∈ keys -> name' o = Some g) ->
  ctable_ok k name keys t -> ctable_ok k name' keys t.
Proof.
  intros Hext [Hk Hp He Hks Hnd Hcnt].
  assert (forall e, e ∈ t -> entry_key name e = entry_key name' e) as Heq.
  { intros e Hin. unfold entry_key. destruct (Z.eqb_spec (ordinal e) emptyOrdinal) as [|Hne]; [done|].
    destruct (He e Hin Hne) as (g & Hg & _). rewrite Hg. symmetry. apply Hext; [done|].
    apply Hks. exists e. split; [done|]. unfold entry_key. by destruct (Z.eqb_spec (ordinal e) emptyOrdinal). }
  split; try done.
  - by eapply probing_ok_ext.
  - intros e Hin Hne. destruct (He e Hin Hne) as (g & Hg & Hc). exists g. split; [|done].
    specialize (Heq e Hin). unfold entry_key in Heq.
    destruct (Z.eqb_spec (ordinal e) emptyOrdinal); [done|]. congruence.
  - intros g. rewrite <- Hks. split; intros (e & Hin & Hkey); exists e; (split; [done|]).
    + by rewrite Heq.
    + by rewrite <- Heq.
  - rewrite <- Hcnt. symmetry. by apply occupancy_ext.
Qed.

(** A loop of insertions. *)
Lemma fold_ctable_insert {X} (step : option (list E) -> X -> option (list E)) k name xs gs keys t :
  ctable_ok k name keys t -> NoDup (keys ++ gs) -> Z.of_nat (length (keys ++ gs)) <= 2 ^ k ->
  Forall2 (fun x g => forall keys t, ctable_ok k name keys t -> g ∉ keys -> Z.of_nat (length keys) < 2 ^ k ->
    exists t', step (Some t) x = Some t' /\ ctable_ok k name (keys ++ [g]) t') xs gs ->
  exists t', foldl step (Some t) xs = Some t' /\ ctable_ok k name (keys ++ gs) t'.
Proof.
  intros Hok Hnd Hl Hall. revert keys t Hok Hnd Hl. induction Hall as [|x g xs gs Hx Hall IH]; intros keys t Hok Hnd Hl.
  - exists t. by rewrite app_nil_r.
  - rewrite length_app in Hl. simpl in Hl. destruct (Hx keys t Hok) as (t' & Ht' & Hok').
    + apply NoDup_app in Hnd as (_ & Hd & _). intros Hg. apply (Hd g Hg). by left.
    + lia.
    + simpl. rewrite Ht'. destruct (IH (keys ++ [g]) t' Hok') as (t'' & Hf & Hok'').
      * by rewrite <- app_assoc.
      * rewrite <- app_assoc, length_app. simpl. lia.
      * exists t''. by rewrite <- app_assoc in Hok''.
Qed.
End checked.

(** Pairing a list with its indexes. *)
Lemma Forall2_seq {A} (P : nat -> A -> Prop) gs from :
  (forall m g, gs !! m = Some g -> P (from + m)%nat g) -> Forall2 P (seq from (length gs)) gs.
Proof.
  revert from. induction gs as [|g gs IH]; intros from H; simpl; constructor.
  - specialize (H O g eq_refl). by rewrite Nat.add_0_r in H.
  - apply IH. intros m x Hx. rewrite Nat.add_succ_l, <- Nat.add_succ_r. by apply H.
Qed.
