(* ===== verification/ClassHeap.v ===== *)
(** * The system heap with the objects of hidden classes

    Data of [runtime/structure.h]: [StructureTransitionTable],
    [StructureAnchorHashTable], [Structure], [CacheableDictionary], the bump
    allocator [VM::AllocFromSystemHeap], and the loads and stores the operations
    of [Structure] and [CacheableDictionary] use.

    An object is named by its system-heap address (the [m_value] of its
    [SystemHeapPointer]).  A block pointer into the [m_values] of a structure is
    the byte address the code computes; loads through it go back to the
    structure the same way as [GetHiddenClassOfFullBlockPointer]. *)

From S2P Require Import Prelude MiscMath Machine TypeMask Probing.

Definition x_log2_hiddenClassBlockSize : Z := 4.
Definition x_hiddenClassBlockSize : Z := Z.shiftl 1 x_log2_hiddenClassBlockSize.

(** ** What the operations read outside of the system heap *)

(** The header and the stored hash of a user-heap object, the two instances of
    the vendored hash function used here, and the constants of the VM object:
    the reserved key of a poly-metatable slot and the table of metamethod names
    (-1 for any other string). *)
Record Env := mkEnv {
  m_type : Z -> HeapEntityType;
  m_hashLow : Z -> Z;
  XXH3_64bits_int32 : Z -> Z;
  XXH3_64bits_int64 : Z -> Z;
  GetSpecialKeyForMetadataSlot : Z;
  GetMetamethodOrdinalFromStringName : Z -> Z
}.

(** ** Transition tables *)

Record TransitionEntry := mkTransitionEntry { te_key : Z; te_value : Z }.

Record StructureTransitionTable := mkTransitionTable {
  m_hashTableMask : Z;
  m_numElementsInHashTable : Z;
  m_hashTable : list TransitionEntry
}.

(** ** Anchor tables *)

Record AnchorEntry := mkAnchorEntry { ae_ordinal : Z; ae_checkHash : Z }.

(** [a_hashTableMask] is the negative mask; the hash table precedes the object. *)
Record StructureAnchorHashTable := mkAnchor {
  a_numBlocks : Z;
  a_numTotalSlots : Z;
  a_hashTableMask : Z;
  a_hashTable : list AnchorEntry;
  a_blockPointers : list Z
}.

(** ** Structures *)

Inductive TransitionKind :=
| BadTransitionKind
| AddProperty
| AddPropertyAndGrowPropertyStorageCapacity
| AddMetaTable
| TransitToPolyMetaTable
| TransitToPolyMetaTableAndGrowPropertyStorageCapacity
| RemoveMetaTable
| UpdateArrayTypeKind.

#[export] Instance TransitionKind_eq_dec : EqDecision TransitionKind.
Proof. solve_decision. Defined.

Record InlineEntry := mkInlineEntry { ie_checkHash : Z; ie_ordinal : Z }.

(** The fields of [Structure], with the prefix [s_]; [s_inlineHashTable] is the
    hash table in front of the object, [s_values] the non-full block, and
    [s_finalFullBlock] the pointer that follows it when
    [HasFinalFullBlockPointer] (0 otherwise). *)
Record Structure := mkStructure {
  s_numSlots : Z;
  s_nonFullBlockLen : Z;
  s_anchorHashTable : Z;
  s_arrayType : Z;
  s_knownNonexistentMetamethods : Z;
  s_inlineHashTableMask : Z;
  s_inlineNamedStorageCapacity : Z;
  s_butterflyNamedStorageCapacity : Z;
  s_parentEdgeTransitionKind : TransitionKind;
  s_parent : Z;
  s_metatable : Z;
  s_transitionTable : Z;
  s_inlineHashTable : list InlineEntry;
  s_values : list Z;
  s_finalFullBlock : Z
}.

(** The offset of [m_values]; [sizeof(Structure)] is 32, because of its alignment. *)
Definition OffsetOfTrailingVarLengthArray : Z := 28.
(** [sizeof(StructureAnchorHashTable)] and [sizeof(StructureTransitionTable)]. *)
Definition sizeof_AnchorHeader : Z := 8.
Definition x_trailingArrayOffset : Z := 8.

(** ** Dictionaries *)

Record DictEntry := mkDictEntry { de_key : Z; de_slot : Z }.

Record CacheableDictionary := mkDictionary {
  d_shouldNeverTransitToUncacheableDictionary : bool;
  d_inlineNamedStorageCapacity : Z;
  d_butterflyNamedStorageCapacity : Z;
  d_hashTableMask : Z;
  d_slotCount : Z;
  d_hashTable : option (list DictEntry);   (* [None]: [nullptr] *)
  d_metatable : Z
}.

(** ** The heap *)

Record SysHeap := mkSysHeap {
  m_systemHeapCurPtr : Z;
  m_systemHeapPtrLimit : Z;
  structures : gmap Z Structure;
  transitionTables : gmap Z StructureTransitionTable;
  anchors : gmap Z StructureAnchorHashTable;
  dictionaries : gmap Z CacheableDictionary
}.

Definition with_structures (h : SysHeap) (m : gmap Z Structure) : SysHeap :=
  mkSysHeap (m_systemHeapCurPtr h) (m_systemHeapPtrLimit h) m (transitionTables h) (anchors h) (dictionaries h).
Definition with_transitionTables (h : SysHeap) (m : gmap Z StructureTransitionTable) : SysHeap :=
  mkSysHeap (m_systemHeapCurPtr h) (m_systemHeapPtrLimit h) (structures h) m (anchors h) (dictionaries h).
Definition with_anchors (h : SysHeap) (m : gmap Z StructureAnchorHashTable) : SysHeap :=
  mkSysHeap (m_systemHeapCurPtr h) (m_systemHeapPtrLimit h) (structures h) (transitionTables h) m (dictionaries h).
Definition with_dictionaries (h : SysHeap) (m : gmap Z CacheableDictionary) : SysHeap :=
  mkSysHeap (m_systemHeapCurPtr h) (m_systemHeapPtrLimit h) (structures h) (transitionTables h) (anchors h) m.

Notation MH := (M SysHeap).

(** [mmap] is taken to succeed. *)
Definition BumpSystemHeap (cur : Z) : Res Z :=
  if (2 ^ 31 - 1) - 65536 <? cur then VMFail
  else Ok (RoundUpToMultipleOf 32 65536 cur).

Definition AllocFromSystemHeap (length : Z) : MH Z := fun h =>
  let result := m_systemHeapCurPtr h in
  let '(cur, overflow) := AddWithOverflowCheck (mkIntTy false 32) (m_systemHeapCurPtr h) length in
  if overflow then VMFail
  else
    let upd limit :=
      mkSysHeap cur limit (structures h) (transitionTables h) (anchors h) (dictionaries h) in
    if m_systemHeapPtrLimit h <? cur then
      match BumpSystemHeap cur with
      | Ok limit => Ok (result, upd limit)
      | VMFail => VMFail
      | UB => UB
      end
    else Ok (result, upd (m_systemHeapPtrLimit h)).

(** ** Loads and stores *)

Definition load_structure (p : Z) : MH Structure := h ← get_st; access (structures h !! p).
Definition load_transitionTable (p : Z) : MH StructureTransitionTable :=
  h ← get_st; access (transitionTables h !! p).
Definition load_anchor (p : Z) : MH StructureAnchorHashTable := h ← get_st; access (anchors h !! p).
Definition load_dictionary (p : Z) : MH CacheableDictionary := h ← get_st; access (dictionaries h !! p).

Definition store_structure (p : Z) (s : Structure) : MH unit :=
  h ← get_st; put_st (with_structures h (<[p := s]> (structures h))).
Definition store_transitionTable (p : Z) (t : StructureTransitionTable) : MH unit :=
  h ← get_st; put_st (with_transitionTables h (<[p := t]> (transitionTables h))).
Definition store_anchor (p : Z) (a : StructureAnchorHashTable) : MH unit :=
  h ← get_st; put_st (with_anchors h (<[p := a]> (anchors h))).
Definition store_dictionary (p : Z) (d : CacheableDictionary) : MH unit :=
  h ← get_st; put_st (with_dictionaries h (<[p := d]> (dictionaries h))).

(** A pure query of the heap; no result is an access out of bounds. *)
Definition query {A} (f : SysHeap -> option A) : MH A := h ← get_st; access (f h).

(** [p.As()\[offset\]] for a pointer to the beginning of the block of a structure
    ([StructureAnchorHashTable::m_blockPointers]). *)
Definition load_block_begin (h : SysHeap) (p offset : Z) : option Z :=
  s ← structures h !! (p - OffsetOfTrailingVarLengthArray);
  at_slot (s_values s) offset.

(** [GetHiddenClassOfFullBlockPointer]: a full block pointer is one past the end
    of the block; [sizeof(GeneralHeapPointer)] is 4. *)
Definition HiddenClassOfFullBlockPointer (u : Z) : Z :=
  u - 4 * x_hiddenClassBlockSize - OffsetOfTrailingVarLengthArray.

(** [u.As()\[ord\]] for a negative [ord]. *)
Definition load_block_end (h : SysHeap) (u ord : Z) : option Z :=
  s ← structures h !! HiddenClassOfFullBlockPointer u;
  at_slot (s_values s) (x_hiddenClassBlockSize + ord).
