(* ===== verification/Structure.v ===== *)
(** * Hidden classes ([class Structure] of [runtime/structure.h])

    The operations of [StructureTransitionTable], [StructureAnchorHashTable],
    [ButterflyNamedStorageGrowthPolicy] and [Structure] on the heap of
    [ClassHeap].  Unsigned 8- and 16-bit arithmetic wraps where the
    C++ does; a hash-table loop runs at most as often as the table has entries,
    which is enough as the proofs show (running out of it is undefined behaviour
    like any other access that has no result). *)

From S2P Require Import Prelude MiscMath Machine TypeMask ArrayType Butterfly Probing ClassHeap.

Abbreviation u16 := (wrapu 16).
Abbreviation i8 := (wraps 8).

Section definitions.
Variable env : Env.

(** ** [StructureTransitionTable] *)

Definition x_key_invalid : Z := 0.
Definition x_key_deleted : Z := 1.
Definition x_key_add_or_to_poly_metatable : Z := 2.
Definition x_key_remove_metatable : Z := 3.
Definition x_key_change_array_type_tag : Z := 256.
Definition x_initialHashTableSize : Z := 4.

(** [sizeof(HashTableEntry)] is 8. *)
Definition TransitionTable_ComputeAllocationSize (hashTableSize : Z) : Z :=
  u32 (x_trailingArrayOffset + hashTableSize * 8).

Definition HashPrimitiveTypes_int32 (key : Z) : Z := u64 (XXH3_64bits_int32 env key).

(** [Find]: the slot and [found]. *)
Definition Find (self : StructureTransitionTable) (key : Z) : option (Z * bool) :=
  let hashMask := m_hashTableMask self in
  let slot := Z.land (u32 (HashPrimitiveTypes_int32 key)) hashMask in
  probe (fun e =>
      if te_key e =? key then Some true
      else if (te_key e =? x_key_invalid) || (te_key e =? x_key_deleted) then Some false
      else None)
    (fun slot => Z.land (slot + 1) hashMask) 0 (m_hashTable self) (length (m_hashTable self)) slot.

(** An entry filled with zero bytes. *)
Definition zeroTransitionEntry : TransitionEntry := mkTransitionEntry 0 0.

(** [AllocateInitialTable]: the address of the new table. *)
Definition AllocateInitialTable (key value : Z) : MH Z :=
  r ← AllocFromSystemHeap (TransitionTable_ComputeAllocationSize x_initialHashTableSize);
  let t := mkTransitionTable (x_initialHashTableSize - 1) 1
             (replicate (Z.to_nat x_initialHashTableSize) zeroTransitionEntry) in
  '(slot, _) ← access (Find t key);
  table ← access (set_slot (m_hashTable t) slot (mkTransitionEntry key value));
  store_transitionTable r (mkTransitionTable (m_hashTableMask t) (m_numElementsInHashTable t) table);;
  mret r.

Definition ShouldResizeForThisInsertion (t : StructureTransitionTable) : bool :=
  m_hashTableMask t / 2 + 1 <=? m_numElementsInHashTable t.

(** One iteration of the re-insertion loop of [Expand]. *)
Definition expand_insert (newHashMask : Z) (acc : option (list TransitionEntry)) (entry : TransitionEntry)
    : option (list TransitionEntry) :=
  t ← acc;
  if negb (te_key entry =? x_key_invalid) && negb (te_key entry =? x_key_deleted) then
    '(slot, _) ← probe (fun e => if te_key e =? x_key_invalid then Some tt else None)
      (fun slot => Z.land (slot + 1) newHashMask) 0 t (length t)
      (Z.land (u32 (HashPrimitiveTypes_int32 (te_key entry))) newHashMask);
    set_slot t slot entry
  else Some t.

Definition Expand (t : StructureTransitionTable) : MH Z :=
  let newHashMask := u32 (m_hashTableMask t * 2 + 1) in
  newTable ← AllocFromSystemHeap (TransitionTable_ComputeAllocationSize (u32 (newHashMask + 1)));
  entries ← access (foldl (expand_insert newHashMask)
    (Some (replicate (Z.to_nat (u32 (newHashMask + 1))) zeroTransitionEntry)) (m_hashTable t));
  store_transitionTable newTable (mkTransitionTable newHashMask (m_numElementsInHashTable t) entries);;
  mret newTable.

(** ** [StructureKeyHashHelper] *)

Definition GetHashValueForStringKey (stringKey : Z) : Z := m_hashLow env stringKey.

Definition GetHashValueForMaybeNonStringKey (key : Z) : Z :=
  if bool_decide (m_type env key = String) then GetHashValueForStringKey key
  else u32 (u64 (XXH3_64bits_int64 env key)).

(** ** [StructureAnchorHashTable]: look-up *)

Definition x_hashTableEmptyValue : Z := 0xff.

Definition GetPropertyNameAtSlot (h : SysHeap) (a : StructureAnchorHashTable) (ordinal : Z) : option Z :=
  let blockOrd := Z.shiftr ordinal x_log2_hiddenClassBlockSize in
  let offset := Z.land ordinal (u8 (x_hiddenClassBlockSize - 1)) in
  p ← at_slot (a_blockPointers a) blockOrd;
  load_block_begin h p offset.

(** What a look-up loop does at an entry: [Some (Some o)] stops with the result
    [o], [None] moves on; an access that fails stops the loop as well. *)
Definition anchor_visit (h : SysHeap) (a : StructureAnchorHashTable) (key checkHash : Z) (e : AnchorEntry)
    : option (option (option Z)) :=
  if ae_ordinal e =? x_hashTableEmptyValue then Some (Some None)
  else if ae_checkHash e =? checkHash then
    match GetPropertyNameAtSlot h a (ae_ordinal e) with
    | None => Some None
    | Some p => if p =? key then Some (Some (Some (ae_ordinal e))) else None
    end
  else None.

(** [GetSlotOrdinalFromPropertyNameAndHash]: [Some (Some slot)] when the key is
    found, [Some None] when it is not. *)
Definition Anchor_GetSlotOrdinalFromPropertyNameAndHash (h : SysHeap) (a : StructureAnchorHashTable)
    (key hashValue : Z) : option (option Z) :=
  let hashTableMask := a_hashTableMask a in
  let checkHash := u8 hashValue in
  let hashSlot := Z.lor (Z.shiftr hashValue 8) hashTableMask in
  '(_, r) ← probe (anchor_visit h a key checkHash)
    (fun hashSlot => Z.lor (hashSlot - 1) hashTableMask)
    (Z.of_nat (length (a_hashTable a))) (a_hashTable a) (length (a_hashTable a)) hashSlot;
  r.

Definition GetHashTableSizeFromHashTableMask (mask : Z) : Z := u32 (Z.lnot mask + 1).

(** ** [ButterflyNamedStorageGrowthPolicy] *)

Definition x_initialMinimumButterflyCapacity : Z := 4.
Definition x_butterflyCapacityFromInlineCapacityFactor : Z := 2.
Definition x_butterflyNamedStorageCapacityGrowthFactor : Z := 2.

Definition ComputeInitialButterflyCapacityForDictionary (inlineNamedStorageCapacity : Z) : Z :=
  Z.max (inlineNamedStorageCapacity / x_butterflyCapacityFromInlineCapacityFactor)
    x_initialMinimumButterflyCapacity.

Definition ComputeNextButterflyCapacityImpl (curButterflyCapacity : Z) : Z :=
  u32 (curButterflyCapacity * x_butterflyNamedStorageCapacityGrowthFactor).

Definition ComputeNextButterflyCapacityForDictionaryOrFail (curButterflyCapacity : Z) : Res Z :=
  let capacity := ComputeNextButterflyCapacityImpl curButterflyCapacity in
  if x_maxNamedStorageCapacity <? capacity then
    if x_maxNamedStorageCapacity <=? curButterflyCapacity then VMFail
    else Ok x_maxNamedStorageCapacity
  else Ok capacity.

Definition ClampCapacityForStructure (capacity inlineNamedStorageCapacity maxPropertySlots : Z) : Z :=
  let capacityLimit := u8 (maxPropertySlots + 1 - inlineNamedStorageCapacity) in
  if capacityLimit <? capacity then capacityLimit else u8 capacity.

Definition ComputeInitialButterflyCapacityForStructure (inlineNamedStorageCapacity maxPropertySlots : Z) : Z :=
  ClampCapacityForStructure (ComputeInitialButterflyCapacityForDictionary inlineNamedStorageCapacity)
    inlineNamedStorageCapacity maxPropertySlots.

Definition ComputeNextButterflyCapacityForStructure
    (inlineNamedStorageCapacity curButterflyCapacity maxPropertySlots : Z) : Z :=
  ClampCapacityForStructure (ComputeNextButterflyCapacityImpl curButterflyCapacity)
    inlineNamedStorageCapacity maxPropertySlots.

(** ** [Structure]: layout and look-up *)

Definition x_maxNumSlots : Z := 253.
Definition x_inlineHashTableEmptyValue : Z := 0x7f.

Definition ComputeNonFullBlockLength (numSlots : Z) : Z :=
  if numSlots =? 0 then 0
  else u8 (Z.land (u32 (numSlots - 1)) (x_hiddenClassBlockSize - 1) + 1).

Definition ComputeHashTableSizeFromHashTableMask (mask : Z) : Z := u32 (mask + 1).

Definition HasFinalFullBlockPointer (numSlots : Z) : bool :=
  (x_hiddenClassBlockSize <=? numSlots) && negb (numSlots mod x_hiddenClassBlockSize =? 0).

Definition ComputeTrailingVarLengthArrayLengthBytes (numSlots : Z) : Z :=
  let result := ComputeNonFullBlockLength numSlots * 4 in
  if HasFinalFullBlockPointer numSlots then result + 4 else result.

Definition GetLastAddedKey (s : Structure) : option Z :=
  at_slot (s_values s) (ComputeNonFullBlockLength (s_numSlots s) - 1).

Definition GetPropertyNameFromInlineHashTableOrdinal (h : SysHeap) (s : Structure) (ordinal : Z) : option Z :=
  if 0 <=? ordinal then at_slot (s_values s) ordinal
  else load_block_end h (s_finalFullBlock s) ordinal.

Definition GetPropertySlotFromInlineHashTableOrdinal (s : Structure) (ordinal : Z) : Z :=
  u32 (s_numSlots s - s_nonFullBlockLen s + ordinal).

Definition inline_visit (h : SysHeap) (s : Structure) (key checkHash : Z) (e : InlineEntry)
    : option (option (option Z)) :=
  if ie_ordinal e =? x_inlineHashTableEmptyValue then Some (Some None)
  else if ie_checkHash e =? checkHash then
    match GetPropertyNameFromInlineHashTableOrdinal h s (ie_ordinal e) with
    | None => Some None
    | Some prop =>
        if prop =? key
        then Some (Some (Some (GetPropertySlotFromInlineHashTableOrdinal s (ie_ordinal e))))
        else None
    end
  else None.

Definition QueryInlineHashTable (h : SysHeap) (s : Structure) (key hashvalue : Z) : option (option Z) :=
  let hashMask := Z.lnot (s_inlineHashTableMask s) in
  let hashSlot := Z.lor (Z.shiftr hashvalue 8) hashMask in
  let checkHash := u8 hashvalue in
  '(_, r) ← probe (inline_visit h s key checkHash)
    (fun hashSlot => Z.lor (hashSlot - 1) hashMask)
    (Z.of_nat (length (s_inlineHashTable s))) (s_inlineHashTable s) (length (s_inlineHashTable s)) hashSlot;
  r.

Definition GetSlotOrdinalFromPropertyNameAndHash (h : SysHeap) (s : Structure) (key hashvalue : Z)
    : option (option Z) :=
  let keyG := GeneralHeapPointer key in
  r ← QueryInlineHashTable h s keyG (u16 hashvalue);
  match r with
  | Some slot => Some (Some slot)
  | None =>
      if s_anchorHashTable s =? 0 then Some None
      else
        a ← anchors h !! s_anchorHashTable s;
        Anchor_GetSlotOrdinalFromPropertyNameAndHash h a keyG hashvalue
  end.

Definition GetSlotOrdinalFromStringProperty (h : SysHeap) (s : Structure) (stringKey : Z) : option (option Z) :=
  GetSlotOrdinalFromPropertyNameAndHash h s stringKey (GetHashValueForStringKey stringKey).
Definition GetSlotOrdinalFromMaybeNonStringProperty (h : SysHeap) (s : Structure) (key : Z) : option (option Z) :=
  GetSlotOrdinalFromPropertyNameAndHash h s key (GetHashValueForMaybeNonStringKey key).

Definition IsAnchorTableContainsFinalBlock (h : SysHeap) (s : Structure) : option bool :=
  if s_anchorHashTable s =? 0 then Some false
  else
    p ← anchors h !! s_anchorHashTable s;
    let lim := Z.land (s_numSlots s) (u8 (Z.lnot (u8 (x_hiddenClassBlockSize - 1)))) in
    Some (a_numTotalSlots p =? lim).

Definition GetKeyForSlotOrdinal (h : SysHeap) (s : Structure) (slotOrdinal : Z) : option Z :=
  inAnchor ← (if s_anchorHashTable s =? 0 then Some None
              else p ← anchors h !! s_anchorHashTable s;
                   Some (if slotOrdinal <? a_numTotalSlots p then Some p else None));
  match (inAnchor : option StructureAnchorHashTable) with
  | Some p => GeneralHeapPointer_As <$> GetPropertyNameAtSlot h p slotOrdinal
  | None =>
      let lim := u8 (s_numSlots s - s_nonFullBlockLen s) in
      GeneralHeapPointer_As <$>
        (if lim <=? slotOrdinal then at_slot (s_values s) (slotOrdinal - lim)
         else load_block_end h (s_finalFullBlock s) (slotOrdinal - lim))
  end.

(** [m_metatable]: negative for a monomorphic metatable, 0 for none, otherwise
    the slot of the metatable plus one. *)
Definition IsPolyMetatable (s : Structure) : bool := 0 <? s_metatable s.
Definition HasNoMetatable (s : Structure) : bool := s_metatable s =? 0.
Definition HasMonomorphicMetatable (s : Structure) : bool := s_metatable s <? 0.
Definition GetPolyMetatableSlot (s : Structure) : Z := u32 (s_metatable s - 1).
Definition GetMonomorphicMetatable (s : Structure) : Z := GeneralHeapPointer_As (s_metatable s).
Definition IsSlotUsedByPolyMetatable (s : Structure) (slot : Z) : bool :=
  s_metatable s =? i32 (i32 slot + 1).

(** ** Building an anchor *)

(** The store at the first empty entry on the way down from [hashSlot]; an
    anchor entry. *)
Definition anchor_insert (hashTableMask : Z) (key ordinal : Z) (t : list AnchorEntry)
    : option (list AnchorEntry) :=
  let hashValue := GetHashValueForMaybeNonStringKey (GeneralHeapPointer_As key) in
  let checkHash := u8 hashValue in
  let base := Z.of_nat (length t) in
  '(hashSlot, _) ← probe (fun e => if ae_ordinal e =? x_hashTableEmptyValue then Some tt else None)
    (fun hashSlot => Z.lor (hashSlot - 1) hashTableMask) base t (length t)
    (Z.lor (Z.shiftr hashValue 8) hashTableMask);
  set_slot t (base + hashSlot) (mkAnchorEntry (u8 ordinal) checkHash).

(** [memset(ht, x_hashTableEmptyValue, ...)]: every byte. *)
Definition emptyAnchorTable (size : Z) : list AnchorEntry :=
  replicate (Z.to_nat size) (mkAnchorEntry x_hashTableEmptyValue x_hashTableEmptyValue).

(** The two nested loops over the blocks and the offsets, as a list of slots. *)
Definition clone_anchor_step (h : SysHeap) (a : StructureAnchorHashTable) (htMask : Z)
    (acc : option (list AnchorEntry)) (ij : Z * Z) : option (list AnchorEntry) :=
  let '(blockOrd, offset) := ij in
  t ← acc;
  p ← at_slot (a_blockPointers a) blockOrd;
  e ← load_block_begin h p offset;
  anchor_insert htMask e (Z.lor (Z.shiftl blockOrd x_log2_hiddenClassBlockSize) offset) t.

Definition block_offsets (numBlocks : Z) : list (Z * Z) :=
  blockOrd ← (Z.of_nat <$> seq 0 (Z.to_nat numBlocks));
  offset ← (Z.of_nat <$> seq 0 (Z.to_nat x_hiddenClassBlockSize));
  [(blockOrd, offset)].

(** [CloneHashTableTo]: the table for [htSize] entries. *)
Definition CloneHashTableTo (h : SysHeap) (a : StructureAnchorHashTable) (htSize : Z)
    : option (list AnchorEntry) :=
  let selfHtSize := GetHashTableSizeFromHashTableMask (a_hashTableMask a) in
  if htSize =? selfHtSize then Some (a_hashTable a)
  else
    let htMask := Z.lnot (htSize - 1) in
    foldl (clone_anchor_step h a htMask) (Some (emptyAnchorTable htSize)) (block_offsets (a_numBlocks a)).

(** The insertion of the new full block, for [i] from 0 to 15. *)
Definition insert_block_step (shc : Structure) (hashTableMask numElements : Z)
    (acc : option (list AnchorEntry)) (i : Z) : option (list AnchorEntry) :=
  t ← acc;
  e ← at_slot (s_values shc) i;
  anchor_insert hashTableMask e (numElements - x_hiddenClassBlockSize + i) t.

(** [StructureAnchorHashTable::Create] for the structure at [p]. *)
Definition Anchor_Create (p : Z) : MH Z :=
  shc ← load_structure p;
  let numElements := s_numSlots shc in
  let numBlocks := Z.shiftr numElements x_log2_hiddenClassBlockSize in
  let hashTableSize := u32 (RoundUpToPowerOfTwo numElements * 2) in
  let hashTableMask := Z.lnot (hashTableSize - 1) in
  let hashTableLengthBytes := hashTableSize * 2 in
  let trailingArrayLengthBytes := numBlocks * 4 in
  let allocationSize := RoundUpToMultipleOf 32 8
    (hashTableLengthBytes + sizeof_AnchorHeader + trailingArrayLengthBytes) in
  objectAddressStart ← AllocFromSystemHeap allocationSize;
  let r := objectAddressStart + hashTableLengthBytes in
  h ← get_st;
  '(table, pointers) ←
    (if s_anchorHashTable shc =? 0 then mret (emptyAnchorTable hashTableSize, [])
     else
       oldAnchorTable ← load_anchor (s_anchorHashTable shc);
       t ← access (CloneHashTableTo h oldAnchorTable hashTableSize);
       mret (t, take (Z.to_nat (a_numBlocks oldAnchorTable)) (a_blockPointers oldAnchorTable)));
  table ← access (foldl (insert_block_step shc hashTableMask numElements) (Some table)
                    (Z.of_nat <$> seq 0 (Z.to_nat x_hiddenClassBlockSize)));
  store_anchor r (mkAnchor numBlocks numElements hashTableMask table
                    (pointers ++ [p + OffsetOfTrailingVarLengthArray]));;
  mret r.

Definition emptyInlineTable (size : Z) : list InlineEntry :=
  replicate (Z.to_nat size) (mkInlineEntry x_inlineHashTableEmptyValue x_inlineHashTableEmptyValue).

Definition with_anchor_and_table (s : Structure) (anchor : Z) (table : list InlineEntry) : Structure :=
  mkStructure (s_numSlots s) (s_nonFullBlockLen s) anchor (s_arrayType s) (s_knownNonexistentMetamethods s)
    (s_inlineHashTableMask s) (s_inlineNamedStorageCapacity s) (s_butterflyNamedStorageCapacity s)
    (s_parentEdgeTransitionKind s) (s_parent s) (s_metatable s) (s_transitionTable s)
    table (s_values s) (s_finalFullBlock s).

(** [BuildNewAnchorTableIfNecessary] for the structure at [p]; the inline hash
    table of a structure that becomes an anchor is emptied in place. *)
Definition BuildNewAnchorTableIfNecessary (p : Z) : MH Z :=
  self ← load_structure p;
  contains ← query (fun h => IsAnchorTableContainsFinalBlock h self);
  if (contains : bool) then mret (s_anchorHashTable self)
  else
    newAnchorTable ← Anchor_Create p;
    selfRaw ← load_structure p;
    let size := ComputeHashTableSizeFromHashTableMask (s_inlineHashTableMask selfRaw) in
    store_structure p (with_anchor_and_table selfRaw newAnchorTable (emptyInlineTable size));;
    mret newAnchorTable.
End definitions.
