(* ===== verification/Transition.v ===== *)
(** * Transitions between hidden classes ([runtime/structure.h])

    [Structure::CreateStructureForTransitionImpl] in the stages of its body, the
    initial structure, the look-up in the transition table with insertion and
    replacement, and the four transitions: [AddNonExistentProperty],
    [SetMetatable], [RemoveMetatable], [UpdateArrayType]. *)

From S2P Require Import Prelude MiscMath Machine TypeMask ArrayType Butterfly Probing ClassHeap Structure.

Inductive SlotAdditionKind := AddSlotForProperty | AddSlotForPolyMetatable | NoSlotAdded.

#[export] Instance SlotAdditionKind_eq_dec : EqDecision SlotAdditionKind.
Proof. solve_decision. Defined.

(** The variables [CreateStructureForTransitionImpl] works out first. *)
Record TransitionSetup := mkSetup {
  anchorTableForNewNode : Z;
  nonFullBlockCopyLengthForNewNode : Z;
  hasFinalBlockPointer : bool;
  mayMemcpyOldInlineHashTable : bool;
  inlineHashTableMustContainFinalBlock : bool;
  finalBlockPointerValue : Z
}.

Record AddNewPropertyResult := mkAddNewProperty {
  np_shouldGrowButterfly : bool;
  np_slotOrdinal : Z;
  np_newStructure : Z
}.

(** The slot is only meaningful when [m_shouldInsertMetatable]. *)
Record AddMetatableResult := mkAddMetatable {
  am_shouldInsertMetatable : bool;
  am_shouldGrowButterfly : bool;
  am_slotOrdinal : Z;
  am_newStructure : Z
}.

Record RemoveMetatableResult := mkRemoveMetatable {
  rm_shouldInsertMetatable : bool;
  rm_slotOrdinal : Z;
  rm_newStructure : Z
}.

(** ** Field updates *)

Definition with_transitionTable (s : Structure) (v : Z) : Structure :=
  mkStructure (s_numSlots s) (s_nonFullBlockLen s) (s_anchorHashTable s) (s_arrayType s)
    (s_knownNonexistentMetamethods s) (s_inlineHashTableMask s) (s_inlineNamedStorageCapacity s)
    (s_butterflyNamedStorageCapacity s) (s_parentEdgeTransitionKind s) (s_parent s) (s_metatable s) v
    (s_inlineHashTable s) (s_values s) (s_finalFullBlock s).

(** The assignments a clone receives: edge kind, metatable and array type. *)
Definition with_edge (s : Structure) (kind : TransitionKind) (metatable arrayType : Z) : Structure :=
  mkStructure (s_numSlots s) (s_nonFullBlockLen s) (s_anchorHashTable s) arrayType
    (s_knownNonexistentMetamethods s) (s_inlineHashTableMask s) (s_inlineNamedStorageCapacity s)
    (s_butterflyNamedStorageCapacity s) kind (s_parent s) metatable (s_transitionTable s)
    (s_inlineHashTable s) (s_values s) (s_finalFullBlock s).

Section definitions.
Variable env : Env.

(** ** [CreateStructureForTransitionImpl] *)

(** About to fill the non-full block: the previous full block becomes an anchor. *)
Definition setup_filling (p : Z) (this : Structure) : MH TransitionSetup :=
  anchor ←
    (if x_hiddenClassBlockSize <=? s_numSlots this
     then BuildNewAnchorTableIfNecessary env (HiddenClassOfFullBlockPointer (s_finalFullBlock this))
     else mret 0);
  contains ← query (fun h => IsAnchorTableContainsFinalBlock h this);
  mret (mkSetup anchor (x_hiddenClassBlockSize - 1) false (negb contains) false 0).

(** The non-full block is full: the new node starts a block and points to ours. *)
Definition setup_full (p : Z) (this : Structure) : MH TransitionSetup :=
  contains ← query (fun h => IsAnchorTableContainsFinalBlock h this);
  mret (mkSetup (s_anchorHashTable this) 0 true false (negb contains)
          (p + OffsetOfTrailingVarLengthArray + x_hiddenClassBlockSize * 4)).

(** The general case: the block layout of the new node is ours. *)
Definition setup_general (this : Structure) : MH TransitionSetup :=
  let hasFinal := HasFinalFullBlockPointer (s_numSlots this) in
  let finalPtr := if hasFinal then s_finalFullBlock this else 0 in
  contains ← query (fun h => IsAnchorTableContainsFinalBlock h this);
  if (contains : bool) then
    mret (mkSetup (s_anchorHashTable this) (s_nonFullBlockLen this) hasFinal true false finalPtr)
  else
    updated ←
      (if hasFinal then
         anchorClass ← load_structure (HiddenClassOfFullBlockPointer (s_finalFullBlock this));
         c ← query (fun h => IsAnchorTableContainsFinalBlock h anchorClass);
         mret (if (c : bool) then Some (s_anchorHashTable anchorClass) else None)
       else mret None);
    match (updated : option Z) with
    | None => mret (mkSetup (s_anchorHashTable this) (s_nonFullBlockLen this) hasFinal true hasFinal finalPtr)
    | Some updatedAnchor =>
        mret (mkSetup updatedAnchor (s_nonFullBlockLen this) hasFinal false false finalPtr)
    end.

Definition transition_setup (p : Z) (this : Structure) (shouldAddKey : bool) : MH TransitionSetup :=
  if shouldAddKey && (s_nonFullBlockLen this =? x_hiddenClassBlockSize - 1) then setup_filling p this
  else if shouldAddKey && (s_nonFullBlockLen this =? x_hiddenClassBlockSize) then setup_full p this
  else setup_general this.

(** [needButterflyExpansion] with [expandedButterflyCapacity]. *)
Definition butterfly_expansion (this : Structure) (shouldAddKey : bool) : option Z :=
  if shouldAddKey then
    if s_butterflyNamedStorageCapacity this =? 0 then
      if s_numSlots this =? s_inlineNamedStorageCapacity this
      then Some (ComputeInitialButterflyCapacityForStructure (s_inlineNamedStorageCapacity this) x_maxNumSlots)
      else None
    else
      let usedLen := u8 (s_numSlots this - s_inlineNamedStorageCapacity this) in
      if usedLen =? s_butterflyNamedStorageCapacity this
      then Some (ComputeNextButterflyCapacityForStructure (s_inlineNamedStorageCapacity this)
                   (s_butterflyNamedStorageCapacity this) x_maxNumSlots)
      else None
  else None.

(** [numElementsInInlineHashTable]; [contains] is
    [IsAnchorTableContainsFinalBlock(this)]. *)
Definition inline_element_count (setup : TransitionSetup) (shouldAddKey contains : bool) : Z :=
  if negb (nonFullBlockCopyLengthForNewNode setup =? x_hiddenClassBlockSize) then
    let n := nonFullBlockCopyLengthForNewNode setup + Z.b2z shouldAddKey in
    if hasFinalBlockPointer setup && inlineHashTableMustContainFinalBlock setup
    then n + x_hiddenClassBlockSize else n
  else if negb contains then x_hiddenClassBlockSize else 0.

Definition inline_table_size (numElements : Z) : Z :=
  Z.max (u32 (RoundUpToPowerOfTwo numElements * 2)) 8.

(** The metamethod bit the new property clears. *)
Definition known_nonexistent (this : Structure) (kind : SlotAdditionKind) (key : Z) : Z :=
  let m := s_knownNonexistentMetamethods this in
  if bool_decide (kind = AddSlotForProperty) && bool_decide (m_type env key = String) then
    let metamethodOrd := GetMetamethodOrdinalFromStringName env key in
    if metamethodOrd =? -1 then m
    else Z.land m (u16 (Z.lnot (u16 (Z.shiftl 1 metamethodOrd))))
  else m.

Definition edge_kind (expansion : option Z) (kind : SlotAdditionKind) : TransitionKind :=
  match expansion, kind with
  | Some _, AddSlotForProperty => AddPropertyAndGrowPropertyStorageCapacity
  | Some _, _ => TransitToPolyMetaTableAndGrowPropertyStorageCapacity
  | None, NoSlotAdded => BadTransitionKind
  | None, AddSlotForProperty => AddProperty
  | None, AddSlotForPolyMetatable => TransitToPolyMetaTable
  end.

(** [insertNonExistentElementIntoInlineHashTable]. *)
Definition inline_insert (htMask : Z) (element ordinal : Z) (t : list InlineEntry) : option (list InlineEntry) :=
  let hashOfElement := u16 (GetHashValueForMaybeNonStringKey env element) in
  let checkHash := u8 hashOfElement in
  let base := Z.of_nat (length t) in
  '(hashSlot, _) ← probe (fun e => if ie_ordinal e =? x_inlineHashTableEmptyValue then Some tt else None)
    (fun hashSlot => Z.lor (hashSlot - 1) htMask) base t (length t)
    (Z.lor (Z.shiftr hashOfElement 8) htMask);
  set_slot t (base + hashSlot) (mkInlineEntry checkHash (i8 ordinal)).

(** The loops that insert every element: [read] gives the key at an ordinal. *)
Definition inline_insert_step (htMask : Z) (read : Z -> option Z) (acc : option (list InlineEntry)) (ordinal : Z)
    : option (list InlineEntry) :=
  t ← acc;
  e ← read ordinal;
  inline_insert htMask (GeneralHeapPointer_As e) ordinal t.

(** [from, ..., from + n - 1]. *)
Definition ordinals (from : Z) (n : nat) : list Z := (fun i => from + Z.of_nat i) <$> seq 0 n.

(** The inline hash table of the new node, whose other fields are in [r]. *)
Definition populate_inline_table (h : SysHeap) (this r : Structure) (setup : TransitionSetup)
    (shouldAddKey contains : bool) (key htSize : Z) : option (list InlineEntry) :=
  let htMaskToStore := u8 (htSize - 1) in
  let htMask := Z.lnot htMaskToStore in
  if mayMemcpyOldInlineHashTable setup && (htMaskToStore =? s_inlineHashTableMask this) then
    let copy := s_inlineHashTable this in
    if shouldAddKey then inline_insert htMask key (nonFullBlockCopyLengthForNewNode setup) copy
    else Some copy
  else
    let empty := emptyInlineTable htSize in
    let withFinal :=
      if inlineHashTableMustContainFinalBlock setup then
        foldl (inline_insert_step htMask (load_block_end h (s_finalFullBlock r))) (Some empty)
          (ordinals (- x_hiddenClassBlockSize) (Z.to_nat x_hiddenClassBlockSize))
      else Some empty in
    if (nonFullBlockCopyLengthForNewNode setup =? x_hiddenClassBlockSize) && contains then withFinal
    else
      foldl (inline_insert_step htMask (at_slot (s_values r))) withFinal
        (ordinals 0 (Z.to_nat (s_nonFullBlockLen r))).

(** The fields of the new node, without its inline hash table. *)
Definition new_node (p : Z) (this : Structure) (setup : TransitionSetup) (kind : SlotAdditionKind)
    (key htSize : Z) : Structure :=
  let shouldAddKey := negb (bool_decide (kind = NoSlotAdded)) in
  let expansion := butterfly_expansion this shouldAddKey in
  let newNumSlots := u8 (s_numSlots this + Z.b2z shouldAddKey) in
  let copied := take (Z.to_nat (nonFullBlockCopyLengthForNewNode setup)) (s_values this) in
  mkStructure newNumSlots
    (u8 (nonFullBlockCopyLengthForNewNode setup + Z.b2z shouldAddKey))
    (anchorTableForNewNode setup)
    (if bool_decide (kind = AddSlotForPolyMetatable)
     then SetMayHaveMetatable (s_arrayType this) true else s_arrayType this)
    (known_nonexistent this kind key)
    (u8 (htSize - 1))
    (s_inlineNamedStorageCapacity this)
    (match expansion with Some c => c | None => s_butterflyNamedStorageCapacity this end)
    (edge_kind expansion kind)
    p
    (if bool_decide (kind = AddSlotForPolyMetatable) then newNumSlots else s_metatable this)
    0
    []
    (if shouldAddKey then copied ++ [GeneralHeapPointer key] else copied)
    (if hasFinalBlockPointer setup then finalBlockPointerValue setup else 0).

Definition with_inlineTable (s : Structure) (t : list InlineEntry) : Structure :=
  with_anchor_and_table s (s_anchorHashTable s) t.

Definition CreateStructureForTransitionImpl (p : Z) (kind : SlotAdditionKind) (key : Z) : MH Z :=
  this ← load_structure p;
  let shouldAddKey := negb (bool_decide (kind = NoSlotAdded)) in
  setup ← transition_setup p this shouldAddKey;
  this ← load_structure p;
  contains ← query (fun h => IsAnchorTableContainsFinalBlock h this);
  let htSize := inline_table_size (inline_element_count setup shouldAddKey contains) in
  let newNumSlots := u8 (s_numSlots this + Z.b2z shouldAddKey) in
  let hashTableLengthBytes := 2 * htSize in
  let totalObjectLengthBytes := RoundUpToMultipleOf 32 8
    (hashTableLengthBytes + OffsetOfTrailingVarLengthArray + ComputeTrailingVarLengthArrayLengthBytes newNumSlots) in
  objectAddressStart ← AllocFromSystemHeap totalObjectLengthBytes;
  let r := objectAddressStart + hashTableLengthBytes in
  let node := new_node p this setup kind key htSize in
  table ← query (fun h => populate_inline_table h this node setup shouldAddKey contains key htSize);
  store_structure r (with_inlineTable node table);;
  mret r.

Definition CreateStructureForAddPropertyTransition (p key : Z) : MH Z :=
  CreateStructureForTransitionImpl p AddSlotForProperty key.
Definition CreateStructureForPolyMetatableTransition (p : Z) : MH Z :=
  CreateStructureForTransitionImpl p AddSlotForPolyMetatable (GetSpecialKeyForMetadataSlot env).
Definition CloneStructure (p : Z) : MH Z := CreateStructureForTransitionImpl p NoSlotAdded 0.

Definition CreateStructureForMonomorphicMetatableTransition (p metatable : Z) : MH Z :=
  newStructure ← CloneStructure p;
  s ← load_structure newStructure;
  store_structure newStructure
    (with_edge s AddMetaTable metatable (SetMayHaveMetatable (s_arrayType s) true));;
  mret newStructure.

Definition CreateStructureForRemoveMetatableTransition (p : Z) : MH Z :=
  newStructure ← CloneStructure p;
  s ← load_structure newStructure;
  store_structure newStructure
    (with_edge s RemoveMetaTable 0 (SetMayHaveMetatable (s_arrayType s) false));;
  mret newStructure.

(** [x_luaMetamethodBitVectorFullMask]: 16 metamethod names. *)
Definition x_totalLuaMetamethodKind : Z := 16.
Definition x_luaMetamethodBitVectorFullMask : Z := u16 (Z.shiftr (u64 (-1)) (64 - x_totalLuaMetamethodKind)).

Definition CreateInitialStructure (inlineCapacity : Z) : MH Z :=
  let htSize := 8 in
  let hashTableLengthBytes := 2 * htSize in
  let totalObjectLengthBytes := RoundUpToMultipleOf 32 8
    (hashTableLengthBytes + OffsetOfTrailingVarLengthArray + ComputeTrailingVarLengthArrayLengthBytes 0) in
  objectAddressStart ← AllocFromSystemHeap totalObjectLengthBytes;
  let r := objectAddressStart + hashTableLengthBytes in
  store_structure r
    (mkStructure 0 0 0 GetInitialArrayType x_luaMetamethodBitVectorFullMask (u8 (htSize - 1)) inlineCapacity 0
       BadTransitionKind 0 0 0 (emptyInlineTable htSize) [] 0);;
  mret r.

(** ** The transition table of a structure *)

(** [SystemHeapPointerTaggedUnion<Structure, StructureTransitionTable>]: the tag
    is the low bit. *)
Definition TT_IsNullPtr (v : Z) : bool := v =? 0.
Definition TT_IsTypeStructure (v : Z) : bool := Z.land v 1 =? 0.
Definition TT_AsStructure (v : Z) : Z := Z.lxor v 0.
Definition TT_AsTable (v : Z) : Z := Z.lxor v 1.
Definition TT_StoreStructure (p : Z) : Z := Z.lor p 0.
Definition TT_StoreTable (p : Z) : Z := Z.lor p 1.

(** [m_transitionTable.Store(...)] of the structure at [p]. *)
Definition store_tt (p v : Z) : MH unit :=
  this ← load_structure p;
  store_structure p (with_transitionTable this v).

Definition GetParentEdgeTransitionKey (s : Structure) : option Z :=
  match s_parentEdgeTransitionKind s with
  | AddProperty | AddPropertyAndGrowPropertyStorageCapacity => GetLastAddedKey s
  | AddMetaTable | TransitToPolyMetaTable | TransitToPolyMetaTableAndGrowPropertyStorageCapacity =>
      Some x_key_add_or_to_poly_metatable
  | RemoveMetaTable => Some x_key_remove_metatable
  | UpdateArrayTypeKind => Some (Z.lor x_key_change_array_type_tag (s_arrayType s))
  | BadTransitionKind => None
  end.

Definition InitializeOutlinedTransitionTable (p keyForOnlyChild onlyChild : Z) : MH Z :=
  newTable ← AllocateInitialTable env keyForOnlyChild onlyChild;
  store_tt p (TT_StoreTable newTable);;
  mret newTable.

(** [e->m_key = transitionKey; e->m_value = newStructure;] and, for a new entry,
    [m_numElementsInHashTable++]. *)
Definition write_transition (table slot key value : Z) (isNew : bool) : MH unit :=
  t ← load_transitionTable table;
  entries ← access (set_slot (m_hashTable t) slot (mkTransitionEntry key value));
  store_transitionTable table
    (mkTransitionTable (m_hashTableMask t)
       (if isNew then u32 (m_numElementsInHashTable t + 1) else m_numElementsInHashTable t) entries).

(** [QueryTransitionTableAndInsertOrUpsertImpl<isInsert>]; [func] is called with
    the current structure, [None] for [nullptr] (an insert function is only
    called with [None]). *)
Definition QueryTransitionTableAndInsertOrUpsertImpl (isInsert : bool) (p transitionKey : Z)
    (func : option Z -> MH Z) : MH Z :=
  this ← load_structure p;
  let tt := s_transitionTable this in
  if TT_IsNullPtr tt then
    newStructure ← func None;
    store_tt p (TT_StoreStructure newStructure);;
    mret newStructure
  else if TT_IsTypeStructure tt then
    let onlyChild := TT_AsStructure tt in
    child ← load_structure onlyChild;
    keyForOnlyChild ← access (GetParentEdgeTransitionKey child);
    if keyForOnlyChild =? transitionKey then
      if isInsert then mret onlyChild
      else
        newStructure ← func (Some onlyChild);
        store_tt p (TT_StoreStructure newStructure);;
        mret newStructure
    else
      newTable ← InitializeOutlinedTransitionTable p keyForOnlyChild onlyChild;
      t ← load_transitionTable newTable;
      '(slot, _) ← access (Find env t transitionKey);
      newStructure ← func None;
      write_transition newTable slot transitionKey newStructure true;;
      mret newStructure
  else
    let table := TT_AsTable tt in
    t ← load_transitionTable table;
    '(slot, found) ← access (Find env t transitionKey);
    if negb (found : bool) then
      newStructure ← func None;
      write_transition table slot transitionKey newStructure true;;
      t ← load_transitionTable table;
      (if ShouldResizeForThisInsertion t then
         newTable ← Expand env t;
         store_tt p (TT_StoreTable newTable)
       else mret ());;
      mret newStructure
    else
      e ← access (at_slot (m_hashTable t) slot);
      if isInsert then mret (te_value e)
      else
        newStructure ← func (Some (te_value e));
        write_transition table slot transitionKey newStructure false;;
        mret newStructure.

Definition QueryTransitionTableAndInsert (p transitionKey : Z) (insertStructureFunc : MH Z) : MH Z :=
  QueryTransitionTableAndInsertOrUpsertImpl true p transitionKey (fun _ => insertStructureFunc).
Definition QueryTransitionTableAndUpsert (p transitionKey : Z) (upsertStructureFunc : option Z -> MH Z) : MH Z :=
  QueryTransitionTableAndInsertOrUpsertImpl false p transitionKey upsertStructureFunc.

(** ** The transitions *)

(** [None]: [m_shouldTransitionToDictionaryMode]. *)
Definition AddNonExistentProperty (p key : Z) : MH (option AddNewPropertyResult) :=
  this ← load_structure p;
  if x_maxNumSlots <=? s_numSlots this then mret None
  else
    let transitionKey := GeneralHeapPointer key in
    transitionStructure ← QueryTransitionTableAndInsert p transitionKey
      (CreateStructureForAddPropertyTransition p key);
    t ← load_structure transitionStructure;
    let tkind := s_parentEdgeTransitionKind t in
    mret (Some (mkAddNewProperty
      (bool_decide (tkind = AddPropertyAndGrowPropertyStorageCapacity)) (s_numSlots this) transitionStructure)).

(** The replacement function of [SetMetatable] on a structure without metatable. *)
Definition upsert_metatable (p metatable : Z) (oldStructure : option Z) : MH Z :=
  match oldStructure with
  | None => CreateStructureForMonomorphicMetatableTransition p metatable
  | Some old =>
      o ← load_structure old;
      if HasMonomorphicMetatable o then
        if s_metatable o =? metatable then mret old
        else CreateStructureForPolyMetatableTransition p
      else mret old
  end.

(** The replacement function on the parent [base] of the structure [this]. *)
Definition upsert_parent (base this : Z) (oldStructure : option Z) : MH Z :=
  match oldStructure with
  | None => ub
  | Some old => if old =? this then CreateStructureForPolyMetatableTransition base else mret old
  end.

Definition SetMetatable (p key : Z) : MH AddMetatableResult :=
  let metatable := GeneralHeapPointer key in
  let transitionKey := x_key_add_or_to_poly_metatable in
  this ← load_structure p;
  let finish (transitionStructure : Z) :=
    t ← load_structure transitionStructure;
    let transitionKind := s_parentEdgeTransitionKind t in
    if bool_decide (transitionKind = AddMetaTable) then
      mret (mkAddMetatable false false 0 transitionStructure)
    else
      mret (mkAddMetatable true
        (bool_decide (transitionKind = TransitToPolyMetaTableAndGrowPropertyStorageCapacity))
        (GetPolyMetatableSlot t) transitionStructure) in
  if s_metatable this =? 0 then
    transitionStructure ← QueryTransitionTableAndUpsert p transitionKey (upsert_metatable p metatable);
    finish transitionStructure
  else if IsPolyMetatable this then
    mret (mkAddMetatable true false (GetPolyMetatableSlot this) p)
  else if metatable =? s_metatable this then mret (mkAddMetatable false false 0 p)
  else if bool_decide (s_parentEdgeTransitionKind this = AddMetaTable) then
    let base := s_parent this in
    transitionStructure ← QueryTransitionTableAndUpsert base transitionKey (upsert_parent base p);
    finish transitionStructure
  else
    transitionStructure ← QueryTransitionTableAndInsert p transitionKey
      (CreateStructureForPolyMetatableTransition p);
    finish transitionStructure.

Definition RemoveMetatable_ (p : Z) : MH RemoveMetatableResult :=
  this ← load_structure p;
  if s_metatable this =? 0 then mret (mkRemoveMetatable false 0 p)
  else if bool_decide (s_parentEdgeTransitionKind this = AddMetaTable) then
    mret (mkRemoveMetatable false 0 (s_parent this))
  else if IsPolyMetatable this then mret (mkRemoveMetatable true (GetPolyMetatableSlot this) p)
  else
    transitionStructure ← QueryTransitionTableAndInsert p x_key_remove_metatable
      (CreateStructureForRemoveMetatableTransition p);
    mret (mkRemoveMetatable false 0 transitionStructure).

Definition create_for_array_type (p newArrayType : Z) : MH Z :=
  newStructure ← CloneStructure p;
  s ← load_structure newStructure;
  store_structure newStructure (with_edge s UpdateArrayTypeKind (s_metatable s) newArrayType);;
  mret newStructure.

Definition Structure_UpdateArrayType (p newArrayType : Z) : MH Z :=
  QueryTransitionTableAndInsert p (Z.lor x_key_change_array_type_tag newArrayType)
    (create_for_array_type p newArrayType).
End definitions.
