(* ===== verification/ClassInv.v ===== *)
(** * The invariant of the hidden-class heap

    [Info] is what a structure means: its keys in slot order and the fields that
    never change.  The invariant [heap_inv h K] relates a heap to a ghost map
    from structures to their [Info]; [K] only grows.  Everything a structure
    stores besides (hash tables, block pointers, anchors, transition tables) is
    determined by it up to layout. *)

From S2P Require Import Prelude MiscMath Machine TypeMask ArrayType Butterfly Probing CheckedTable ClassHeap Structure Transition.

(** ** Meaning of a structure *)

Record Info := mkInfo {
  i_keys : list Z;
  i_inline : Z;
  i_butterfly : Z;
  i_arrayType : Z;
  i_metatable : Z;
  i_nonexistent : Z;
  i_kind : TransitionKind;
  i_parent : Z
}.

Abbreviation Classes := (gmap Z Info).

(** ** Blocks *)

Definition B : nat := 16.
(** Length of the non-full block, start of it, and end of the last full block. *)
Definition nonfull (n : nat) : nat := match n with O => O | S m => S (m mod B) end.
Definition lim (n : nat) : nat := n - nonfull n.
Definition full (n : nat) : nat := n / B * B.

Lemma nonfull_le n : (nonfull n <= n)%nat /\ (nonfull n <= B)%nat /\ (n <> 0 -> 0 < nonfull n)%nat.
Proof.
  unfold nonfull, B. destruct n as [|m]; [lia|]. pose proof (Nat.mod_upper_bound m 16 ltac:(lia)).
  pose proof (Nat.Div0.mod_le m 16). lia.
Qed.

(** The two cases of a block boundary. *)
Lemma blocks n : (n = lim n + nonfull n /\ exists q,
  lim n = q * B /\ ((nonfull n < B /\ full n = lim n) \/ (nonfull n = B /\ full n = n)))%nat.
Proof.
  pose proof (nonfull_le n) as (H1 & H2 & _). split; [unfold lim; lia|].
  unfold lim, full, nonfull in *. unfold B in *. destruct n as [|m]; [exists O; split; [done|left; split; [lia|done]]|].
  exists (m / 16)%nat. pose proof (Nat.div_mod m 16 ltac:(lia)). pose proof (Nat.mod_upper_bound m 16 ltac:(lia)).
  split; [lia|]. destruct (decide (m mod 16 = 15)%nat) as [E|E].
  - right. split; [lia|]. replace (S m) with ((m / 16 + 1) * 16)%nat by lia. rewrite Nat.div_mul by lia. lia.
  - left. split; [lia|]. rewrite <- (Nat.div_unique (S m) 16 (m / 16) (m mod 16 + 1)); lia.
Qed.

Lemma ComputeNonFullBlockLength_spec n : (n <= 254)%nat ->
  ComputeNonFullBlockLength (Z.of_nat n) = Z.of_nat (nonfull n).
Proof.
  intros Hn. unfold ComputeNonFullBlockLength, nonfull, B. destruct n as [|m]; [done|].
  destruct (Z.eqb_spec (Z.of_nat (S m)) 0); [lia|].
  change (x_hiddenClassBlockSize - 1) with (Z.ones 4). rewrite Z.land_ones by lia.
  rewrite (wrapu_small 32) by (unfold in_u; pow2; lia). replace (Z.of_nat (S m) - 1) with (Z.of_nat m) by lia.
  change (2 ^ 4) with (Z.of_nat 16). rewrite <- Nat2Z.inj_mod.
  pose proof (Nat.mod_upper_bound m 16 ltac:(lia)). rewrite wrapu_small by (unfold in_u; pow2; lia). lia.
Qed.

Lemma HasFinalFullBlockPointer_spec n :
  HasFinalFullBlockPointer (Z.of_nat n) = bool_decide (B <= n /\ nonfull n < B)%nat.
Proof.
  unfold HasFinalFullBlockPointer. change x_hiddenClassBlockSize with (Z.of_nat B).
  destruct (blocks n) as (Hn & q & Hq & Hc).
  destruct (Z.leb_spec (Z.of_nat B) (Z.of_nat n)); simpl.
  - rewrite <- Nat2Z.inj_mod. destruct Hc as [[Hlt _]|[Heq _]].
    + rewrite bool_decide_true by lia. destruct n as [|m]; [unfold B in *; lia|].
      assert (S m mod B <> 0)%nat; [|destruct (Z.eqb_spec (Z.of_nat (S m mod B)) 0); [lia|done]].
      rewrite Hn, Hq, Nat.add_comm, Nat.Div0.mod_add, Nat.mod_small by lia.
      pose proof (nonfull_le (S m)). lia.
    + rewrite bool_decide_false by lia. rewrite Hn, Hq, Heq.
      replace (q * B + B)%nat with ((q + 1) * B)%nat by lia. by rewrite Nat.Div0.mod_mul.
  - rewrite bool_decide_false by lia. done.
Qed.

(** ** Keys *)

(** A stored key: the [GeneralHeapPointer] of an address of the user heap. *)
Definition valid_key (g : Z) : Prop := - 2 ^ 31 <= g < - 2 ^ 29.
(** A key as the operations receive it: the address. *)
Definition user_key (key : Z) : Prop :=
  - x_vmBaseOffset <= key < - (x_vmBaseOffset - x_vmUserHeapSize) /\ key mod 8 = 0.

Lemma user_key_spec key : user_key key ->
  valid_key (GeneralHeapPointer key) /\ GeneralHeapPointer_As (GeneralHeapPointer key) = key.
Proof.
  intros [Hr Ha]. destruct (GeneralHeapPointer_user key Hr Ha) as (Hi & _ & Has). split; [|done].
  unfold valid_key, GeneralHeapPointer in *. unfold x_vmBaseOffset, x_vmUserHeapSize, x_shiftFromRawOffset in *.
  change (Z.shiftl 16 30) with 17179869184 in *. change (Z.shiftl 12 30) with 12884901888 in *.
  rewrite Z.shiftr_div_pow2 by lia. change (2 ^ 3) with 8. pose proof (Z.div_mod key 8 ltac:(lia)).
  rewrite wraps_small by (unfold in_i; pow2; lia). pow2. lia.
Qed.

Lemma valid_key_As g : valid_key g -> user_key (GeneralHeapPointer_As g) /\ GeneralHeapPointer (GeneralHeapPointer_As g) = g.
Proof.
  unfold valid_key, user_key, GeneralHeapPointer, GeneralHeapPointer_As, x_vmBaseOffset, x_vmUserHeapSize, x_shiftFromRawOffset.
  change (Z.shiftl 16 30) with 17179869184. change (Z.shiftl 12 30) with 12884901888. intros Hg.
  rewrite (wraps_small 64) by (unfold in_i; pow2; lia).
  rewrite Z.shiftl_mul_pow2, Z.shiftr_div_pow2, Z.div_mul by lia. change (2 ^ 3) with 8.
  rewrite Z.mod_mul by lia. rewrite wraps_small by (unfold in_i; pow2; lia). pow2. lia.
Qed.

(** ** The invariant *)

(** [butterfly_expansion] on numbers. *)
Definition expansion_of (numSlots inline butterfly : Z) : option Z :=
  if butterfly =? 0 then
    if numSlots =? inline then Some (ComputeInitialButterflyCapacityForStructure inline x_maxNumSlots) else None
  else if u8 (numSlots - inline) =? butterfly
  then Some (ComputeNextButterflyCapacityForStructure inline butterfly x_maxNumSlots) else None.

Section invariant.
Variable env : Env.

(** The hash of a stored key, and its low 16 bits. *)
Definition hkey (g : Z) : Z := GetHashValueForMaybeNonStringKey env (GeneralHeapPointer_As g).
Definition hkey16 (g : Z) : Z := u16 (hkey g).

Definition i_count (i : Info) : Z := Z.of_nat (length (i_keys i)).
Definition special : Z := GeneralHeapPointer (GetSpecialKeyForMetadataSlot env).

(** An anchor table for the keys [ks], which are [nb] full blocks. *)
Record anchor_ok (K : Classes) (a : StructureAnchorHashTable) (ks : list Z) (nb : nat) (k : Z) : Prop := {
  an_len : length ks = (nb * B)%nat;
  an_nb : (1 <= nb <= 15)%nat;
  an_numBlocks : a_numBlocks a = Z.of_nat nb;
  an_numTotalSlots : a_numTotalSlots a = Z.of_nat (nb * B);
  an_pointers : length (a_blockPointers a) = nb;
  an_blocks : forall j, (j < nb)%nat -> exists q iq,
    a_blockPointers a !! j = Some (q + OffsetOfTrailingVarLengthArray) /\
    K !! q = Some iq /\ i_keys iq = take ((j + 1) * B) ks;
  an_size : 2 ^ k = u32 (RoundUpToPowerOfTwo (Z.of_nat (nb * B)) * 2);
  an_mask : a_hashTableMask a = - 2 ^ k;
  an_table : ctable_ok ae_ordinal ae_checkHash x_hashTableEmptyValue hkey k (at_slot ks) ks (a_hashTable a)
}.

(** [total] keys are in the anchor of [s]. *)
Definition anchored (A : gmap Z StructureAnchorHashTable) (K : Classes) (s : Structure) (ks : list Z)
    (total : nat) : Prop :=
  (s_anchorHashTable s = 0 /\ total = O) \/
  (s_anchorHashTable s <> 0 /\ exists a nb k, A !! s_anchorHashTable s = Some a /\
     anchor_ok K a (take total ks) nb k /\ total = (nb * B)%nat).

(** The key at an inline ordinal. *)
Definition inline_name (ks : list Z) (o : Z) : option Z := at_slot ks (Z.of_nat (lim (length ks)) + o).

Record class_ok (A : gmap Z StructureAnchorHashTable) (K : Classes) (s : Structure) (i : Info) : Prop := {
  cl_numSlots : s_numSlots s = i_count i;
  cl_count : (length (i_keys i) <= 254)%nat;
  cl_nodup : NoDup (i_keys i);
  cl_valid : Forall valid_key (i_keys i);
  cl_nonfull : s_nonFullBlockLen s = Z.of_nat (nonfull (length (i_keys i)));
  cl_values : s_values s = drop (lim (length (i_keys i))) (i_keys i);
  cl_final : HasFinalFullBlockPointer (i_count i) = true -> exists q iq,
    HiddenClassOfFullBlockPointer (s_finalFullBlock s) = q /\ K !! q = Some iq /\
    i_keys iq = take (lim (length (i_keys i))) (i_keys i);
  cl_tables : exists total k,
    anchored A K s (i_keys i) total /\
    (total = full (length (i_keys i)) \/ total + B = full (length (i_keys i)))%nat /\
    3 <= k <= 6 /\ s_inlineHashTableMask s = 2 ^ k - 1 /\ 2 * Z.of_nat (length (i_keys i) - total) <= 2 ^ k /\
    ctable_ok ie_ordinal ie_checkHash x_inlineHashTableEmptyValue hkey16 k (inline_name (i_keys i))
      (drop total (i_keys i)) (s_inlineHashTable s);
  cl_inline : s_inlineNamedStorageCapacity s = i_inline i;
  cl_inline_range : 0 <= i_inline i <= x_maxNumSlots;
  cl_butterfly : s_butterflyNamedStorageCapacity s = i_butterfly i;
  cl_capacity : (i_butterfly i = 0 /\ i_count i <= i_inline i) \/
    (0 < i_butterfly i /\ i_inline i < i_count i <= i_inline i + i_butterfly i /\
     i_inline i + i_butterfly i <= x_maxNumSlots + 1);
  cl_arrayType : s_arrayType s = i_arrayType i;
  cl_useful : 0 <= i_arrayType i <= x_usefulBitsMask;
  cl_metatable : s_metatable s = i_metatable i;
  cl_poly : (i_metatable i <= 0 /\ special ∉ i_keys i /\ i_count i <= x_maxNumSlots) \/
    (0 < i_metatable i /\ at_slot (i_keys i) (i_metatable i - 1) = Some special);
  cl_nonexistent : s_knownNonexistentMetamethods s = i_nonexistent i;
  cl_kind : s_parentEdgeTransitionKind s = i_kind i;
  cl_parent : s_parent s = i_parent i
}.

(** ** The parent edge *)

(** What a new slot makes of a structure at [p]. *)
Definition add_info (p : Z) (i : Info) (kind : SlotAdditionKind) (g : Z) : Info :=
  let poly := bool_decide (kind = AddSlotForPolyMetatable) in
  let e := expansion_of (i_count i) (i_inline i) (i_butterfly i) in
  mkInfo (i_keys i ++ [g]) (i_inline i) (default (i_butterfly i) e)
    (if poly then SetMayHaveMetatable (i_arrayType i) true else i_arrayType i)
    (if poly then i_count i + 1 else i_metatable i)
    (if poly then i_nonexistent i else
       if bool_decide (m_type env (GeneralHeapPointer_As g) = String) then
         let ord := GetMetamethodOrdinalFromStringName env (GeneralHeapPointer_As g) in
         if ord =? -1 then i_nonexistent i
         else Z.land (i_nonexistent i) (u16 (Z.lnot (u16 (Z.shiftl 1 ord))))
       else i_nonexistent i)
    (edge_kind e kind) p.

(** What a transition without a new slot makes of it. *)
Definition clone_info (p : Z) (i : Info) (kind : TransitionKind) (metatable arrayType : Z) : Info :=
  mkInfo (i_keys i) (i_inline i) (i_butterfly i) arrayType metatable (i_nonexistent i) kind p.

Inductive edge (p : Z) (i : Info) : Info -> Prop :=
| edge_property g : valid_key g -> g <> special -> g ∉ i_keys i -> i_count i < x_maxNumSlots ->
    edge p i (add_info p i AddSlotForProperty g)
| edge_poly : i_metatable i <= 0 -> edge p i (add_info p i AddSlotForPolyMetatable special)
| edge_mono m : i_metatable i = 0 -> m < 0 ->
    edge p i (clone_info p i AddMetaTable m (SetMayHaveMetatable (i_arrayType i) true))
| edge_remove : i_metatable i < 0 ->
    edge p i (clone_info p i RemoveMetaTable 0 (SetMayHaveMetatable (i_arrayType i) false))
| edge_array t : 0 <= t <= x_usefulBitsMask -> t <> i_arrayType i ->
    MayHaveMetatable t = MayHaveMetatable (i_arrayType i) ->
    edge p i (clone_info p i UpdateArrayTypeKind (i_metatable i) t).

Definition rooted (K : Classes) (i : Info) : Prop :=
  (i_kind i = BadTransitionKind /\ i_keys i = [] /\ i_metatable i = 0 /\ i_butterfly i = 0 /\
   i_arrayType i = GetInitialArrayType /\ i_nonexistent i = x_luaMetamethodBitVectorFullMask) \/
  exists ip, K !! i_parent i = Some ip /\ edge (i_parent i) ip i.

(** The key of the edge from the parent ([GetParentEdgeTransitionKey]). *)
Definition edge_key (i : Info) : option Z :=
  match i_kind i with
  | AddProperty | AddPropertyAndGrowPropertyStorageCapacity => last (i_keys i)
  | AddMetaTable | TransitToPolyMetaTable | TransitToPolyMetaTableAndGrowPropertyStorageCapacity =>
      Some x_key_add_or_to_poly_metatable
  | RemoveMetaTable => Some x_key_remove_metatable
  | UpdateArrayTypeKind => Some (Z.lor x_key_change_array_type_tag (i_arrayType i))
  | BadTransitionKind => None
  end.

(** [c] is a structure that [p] reaches by the transition [key]. *)
Definition child (K : Classes) (p key c : Z) : Prop :=
  exists i, K !! c = Some i /\ i_parent i = p /\ edge_key i = Some key.

(** ** Transition tables *)

Definition te_key_of (e : TransitionEntry) : option Z :=
  if (te_key e =? x_key_invalid) || (te_key e =? x_key_deleted) then None else Some (te_key e).
Definition te_home (key : Z) : Z := u32 (HashPrimitiveTypes_int32 env key).

Record ttable_ok (K : Classes) (p : Z) (t : StructureTransitionTable) (k : Z) : Prop := {
  tt_size : 2 <= k <= 27;
  tt_mask : m_hashTableMask t = 2 ^ k - 1;
  tt_probing : probing_ok te_key_of te_home 1 (2 ^ k) (m_hashTable t);
  tt_count : m_numElementsInHashTable t = Z.of_nat (occupancy te_key_of (m_hashTable t));
  tt_nonempty : 0 < m_numElementsInHashTable t < 2 ^ k;
  tt_entries : forall e key, e ∈ m_hashTable t -> te_key_of e = Some key -> child K p key (te_value e);
  tt_nodeleted : forall e, e ∈ m_hashTable t -> te_key e <> x_key_deleted
}.

Definition transitions_ok (T : gmap Z StructureTransitionTable) (K : Classes) (p v : Z) : Prop :=
  v = 0 \/
  (exists key, v <> 0 /\ v mod 8 = 0 /\ child K p key v) \/
  (exists q t k, v = q + 1 /\ q mod 8 = 0 /\ q <> 0 /\ T !! q = Some t /\ ttable_ok K p t k /\
     m_numElementsInHashTable t <= 2 ^ (k - 1)).

(** ** Heaps *)

Record sys_ok (h : SysHeap) : Prop := {
  so_range : 64 <= m_systemHeapCurPtr h <= m_systemHeapPtrLimit h;
  so_limit : m_systemHeapPtrLimit h <= 2 ^ 31;
  so_align : m_systemHeapCurPtr h mod 8 = 0
}.

(** An allocated address. *)
Definition allocated (h : SysHeap) (p : Z) : Prop := 64 <= p < m_systemHeapCurPtr h /\ p mod 8 = 0.

Record heap_inv (h : SysHeap) (K : Classes) : Prop := {
  hi_sys : sys_ok h;
  hi_dom : forall p, is_Some (structures h !! p) <-> is_Some (K !! p);
  hi_addr : forall p, is_Some (K !! p) -> allocated h p;
  hi_addr_t : forall p, is_Some (transitionTables h !! p) -> allocated h p;
  hi_addr_a : forall p, is_Some (anchors h !! p) -> allocated h p;
  hi_addr_d : forall p, is_Some (dictionaries h !! p) -> allocated h p;
  hi_disjoint : forall p, is_Some (dictionaries h !! p) -> K !! p = None;
  hi_class : forall p s i, structures h !! p = Some s -> K !! p = Some i -> class_ok (anchors h) K s i;
  hi_rooted : forall p i, K !! p = Some i -> rooted K i;
  hi_trans : forall p s, structures h !! p = Some s ->
    transitions_ok (transitionTables h) K p (s_transitionTable s)
}.
End invariant.
