(* ===== verification/ClassLookup.v ===== *)
(** * Property look-up in hidden classes

    In a heap that satisfies the invariant, the look-up of [structure.h] through
    the inline hash table and the anchor table finds exactly the index of the key
    in the key list of the structure, and [GetKeyForSlotOrdinal] is its inverse. *)

From S2P Require Import Prelude MiscMath Machine TypeMask ArrayType Butterfly Probing CheckedTable ClassHeap Structure Transition ClassInv.

(** ** Reading arrays *)

Lemma at_slot_nat {E} (l : list E) n : at_slot l (Z.of_nat n) = l !! n.
Proof. unfold at_slot. destruct (Z.leb_spec 0 (Z.of_nat n)); [|lia]. by rewrite Nat2Z.id. Qed.

Lemma at_slot_Some {E} (l : list E) i x : at_slot l i = Some x ->
  0 <= i < Z.of_nat (length l) /\ l !! Z.to_nat i = Some x.
Proof.
  unfold at_slot. destruct (Z.leb_spec 0 i) as [Hi|]; [|done]. intros Hx.
  pose proof (lookup_lt_Some _ _ _ Hx). split; [lia|done].
Qed.

Lemma at_slot_drop {E} (l : list E) m o : 0 <= o -> at_slot (drop m l) o = at_slot l (Z.of_nat m + o).
Proof.
  intros Ho. rewrite <- (Z2Nat.id o) by done. rewrite <- Nat2Z.inj_add, !at_slot_nat. apply lookup_drop.
Qed.

Lemma at_slot_take {E} (l : list E) m o : o < Z.of_nat m -> at_slot (take m l) o = at_slot l o.
Proof.
  intros Ho. unfold at_slot. destruct (Z.leb_spec 0 o); [|done]. apply lookup_take_lt. lia.
Qed.

Lemma at_slot_elem {E} (l : list E) i x : at_slot l i = Some x -> x ∈ l.
Proof. intros [_ Hx]%at_slot_Some. by eapply list_elem_of_lookup_2. Qed.

Lemma at_slot_app_l {E} (l l' : list E) o x : at_slot l o = Some x -> at_slot (l ++ l') o = Some x.
Proof.
  intros [Hr Hx]%at_slot_Some. unfold at_slot. destruct (Z.leb_spec 0 o); [|lia]. by apply lookup_app_l_Some.
Qed.

Lemma NoDup_at_slot {E} (l : list E) i j x : NoDup l -> at_slot l i = Some x -> at_slot l j = Some x -> i = j.
Proof.
  intros Hnd [Hi Hxi]%at_slot_Some [Hj Hxj]%at_slot_Some.
  pose proof (NoDup_lookup _ _ _ _ Hnd Hxi Hxj). lia.
Qed.

Lemma NoDup_take {E} (l : list E) n : NoDup l -> NoDup (take n l).
Proof. rewrite <- (take_drop n l) at 1. rewrite NoDup_app. tauto. Qed.

Lemma NoDup_drop {E} (l : list E) n : NoDup l -> NoDup (drop n l).
Proof. rewrite <- (take_drop n l) at 1. rewrite NoDup_app. tauto. Qed.

(** The slot of an element that is not among the first [m]. *)
Lemma at_slot_after {E} (l : list E) m i x : NoDup l -> at_slot l i = Some x -> x ∈ drop m l -> Z.of_nat m <= i.
Proof.
  intros Hnd Hx [j Hj]%list_elem_of_lookup_1. rewrite lookup_drop in Hj. rewrite <- at_slot_nat in Hj.
  rewrite (NoDup_at_slot _ _ _ _ Hnd Hx Hj). lia.
Qed.

(** ** Monotonicity of the invariant *)

Section mono.
Variable env : Env.
Implicit Types (K : Classes) (A : gmap Z StructureAnchorHashTable).

Lemma anchor_ok_mono K K' a ks nb k : K ⊆ K' -> anchor_ok env K a ks nb k -> anchor_ok env K' a ks nb k.
Proof.
  intros HK [Hl Hn H1 H2 H3 Hb H4 H5 H6]. split; try done. intros j Hj.
  destruct (Hb j Hj) as (q & iq & Hq & Hk & Hi). exists q, iq. split_and!; [done| |done].
  by eapply lookup_weaken.
Qed.

Lemma anchored_mono A A' K K' s ks total : A ⊆ A' -> K ⊆ K' ->
  anchored env A K s ks total -> anchored env A' K' s ks total.
Proof.
  intros HA HK [H|(Hn & a & nb & k & Ha & Hok & Ht)]; [by left|right]. split; [done|].
  exists a, nb, k. split_and!; [by eapply lookup_weaken|by eapply anchor_ok_mono|done].
Qed.

Lemma class_ok_mono A A' K K' s i : A ⊆ A' -> K ⊆ K' -> class_ok env A K s i -> class_ok env A' K' s i.
Proof.
  intros HA HK []. split; try done.
  - intros Hf. destruct (cl_final Hf) as (q & iq & Hq & Hk & Hi). exists q, iq. split_and!; [done| |done].
    by eapply lookup_weaken.
  - destruct cl_tables as (total & k & Ha & H). exists total, k. split; [by eapply anchored_mono|done].
Qed.

Lemma edge_child K K' p key c : K ⊆ K' -> child K p key c -> child K' p key c.
Proof. intros HK (i & Hi & H). exists i. split; [by eapply lookup_weaken|done]. Qed.

Lemma ttable_ok_mono K K' p t k : K ⊆ K' -> ttable_ok env K p t k -> ttable_ok env K' p t k.
Proof.
  intros HK []. split; try done. intros e key He Hk. eapply edge_child; [done|by eapply tt_entries].
Qed.

Lemma rooted_mono K K' i : K ⊆ K' -> rooted env K i -> rooted env K' i.
Proof.
  intros HK [H|(ip & Hp & He)]; [by left|right]. exists ip. split; [by eapply lookup_weaken|done].
Qed.
End mono.

(** ** Reading blocks *)

Section reads.
Variable env : Env.
Variables (h : SysHeap) (K : Classes).
Hypothesis inv : heap_inv env h K.

Lemma inv_structure p i : K !! p = Some i ->
  exists s, structures h !! p = Some s /\ class_ok env (anchors h) K s i.
Proof.
  intros Hi. destruct (proj2 (hi_dom _ _ _ inv p) (mk_is_Some _ _ Hi)) as [s Hs].
  exists s. split; [done|]. by eapply hi_class.
Qed.

Lemma inv_info p s : structures h !! p = Some s ->
  exists i, K !! p = Some i /\ class_ok env (anchors h) K s i.
Proof.
  intros Hs. destruct (proj1 (hi_dom _ _ _ inv p) (mk_is_Some _ _ Hs)) as [i Hi].
  exists i. split; [done|]. by eapply hi_class.
Qed.

Lemma values_spec s i o : class_ok env (anchors h) K s i -> 0 <= o ->
  at_slot (s_values s) o = at_slot (i_keys i) (Z.of_nat (lim (length (i_keys i))) + o).
Proof. intros Hc Ho. rewrite (cl_values _ _ _ _ _ Hc). by apply at_slot_drop. Qed.

Lemma lim_full j : lim ((j + 1) * B) = (j * B)%nat /\ nonfull ((j + 1) * B) = B.
Proof.
  unfold lim, nonfull, B. destruct ((j + 1) * 16)%nat as [|m] eqn:E; [lia|].
  assert (m mod 16 = 15)%nat; [|lia].
  replace m with (15 + j * 16)%nat by lia. by rewrite Nat.Div0.mod_add, Nat.mod_small by lia.
Qed.

(** A block of an anchor table. *)
Lemma load_block_begin_spec a ks nb k j o : anchor_ok env K a ks nb k -> (j < nb)%nat -> 0 <= o < Z.of_nat B ->
  exists p, a_blockPointers a !! j = Some p /\
    load_block_begin h p o = at_slot ks (Z.of_nat (j * B) + o).
Proof.
  intros Ha Hj Ho. destruct (an_blocks _ _ _ _ _ _ Ha j Hj) as (q & iq & Hq & Hk & Hi).
  eexists. split; [done|]. unfold load_block_begin.
  replace (q + _ - _) with q by lia. destruct (inv_structure q iq Hk) as (s & -> & Hc). simpl.
  rewrite (values_spec s iq o Hc) by lia. rewrite Hi, length_take, (an_len _ _ _ _ _ _ Ha).
  rewrite Nat.min_l by (unfold B; lia).
  rewrite (proj1 (lim_full j)). apply at_slot_take. unfold B in *. lia.
Qed.

Lemma GetPropertyNameAtSlot_spec a ks nb k ord : anchor_ok env K a ks nb k -> 0 <= ord < Z.of_nat (nb * B) ->
  GetPropertyNameAtSlot h a ord = at_slot ks ord.
Proof.
  intros Ha Hord. unfold GetPropertyNameAtSlot. change x_log2_hiddenClassBlockSize with 4.
  change (u8 (x_hiddenClassBlockSize - 1)) with (Z.ones 4). rewrite Z.shiftr_div_pow2, Z.land_ones by lia.
  change (2 ^ 4) with 16. pose proof (Z.div_mod ord 16 ltac:(lia)). pose proof (Z.mod_pos_bound ord 16 ltac:(lia)).
  unfold B in *. destruct (load_block_begin_spec a ks nb k (Z.to_nat (ord / 16)) (ord mod 16) Ha) as (p & Hp & Hl).
  - lia.
  - unfold B. lia.
  - rewrite <- (Z2Nat.id (ord / 16)), at_slot_nat, Hp by lia. simpl. rewrite Hl. f_equal. unfold B. lia.
Qed.

(** The last full block of a structure. *)
Lemma load_block_end_spec s i o : class_ok env (anchors h) K s i -> HasFinalFullBlockPointer (i_count i) = true ->
  - Z.of_nat B <= o < 0 ->
  load_block_end h (s_finalFullBlock s) o = at_slot (i_keys i) (Z.of_nat (lim (length (i_keys i))) + o).
Proof.
  intros Hc Hf Ho. destruct (cl_final _ _ _ _ _ Hc Hf) as (q & iq & Hq & Hk & Hi).
  unfold load_block_end. rewrite Hq. destruct (inv_structure q iq Hk) as (s' & -> & Hc'). simpl.
  change x_hiddenClassBlockSize with (Z.of_nat B). rewrite (values_spec s' iq _ Hc') by lia.
  unfold i_count in Hf. rewrite HasFinalFullBlockPointer_spec in Hf. apply bool_decide_eq_true in Hf as [Hn Hlt].
  destruct (blocks (length (i_keys i))) as (Hb & m & Hm & _).
  rewrite Hi, length_take. destruct m as [|m]; [unfold B in *; lia|].
  rewrite Nat.min_l, Hm by lia. replace (S m * B)%nat with ((m + 1) * B)%nat by lia.
  rewrite (proj1 (lim_full m)), at_slot_take by (unfold B in *; lia). f_equal. unfold B in *. lia.
Qed.

(** ** Look-up *)

Lemma inline_ordinal_range s i total o g : class_ok env (anchors h) K s i ->
  (total = full (length (i_keys i)) \/ total + B = full (length (i_keys i)))%nat ->
  inline_name (i_keys i) o = Some g -> g ∈ drop total (i_keys i) ->
  - Z.of_nat B <= o < Z.of_nat B /\ (o < 0 -> HasFinalFullBlockPointer (i_count i) = true).
Proof.
  intros Hc Ht Hn Hg. unfold inline_name in Hn. pose proof (at_slot_Some _ _ _ Hn) as [Hr _].
  pose proof (at_slot_after _ _ _ _ (cl_nodup _ _ _ _ _ Hc) Hn Hg) as Ha.
  destruct (blocks (length (i_keys i))) as (Hb & m & Hm & Hcase). pose proof (nonfull_le (length (i_keys i))).
  split; [unfold B in *; lia|]. intros Ho. unfold i_count. rewrite HasFinalFullBlockPointer_spec.
  apply bool_decide_eq_true. unfold B in *. lia.
Qed.

Lemma QueryInlineHashTable_spec s i total k g : class_ok env (anchors h) K s i ->
  (total = full (length (i_keys i)) \/ total + B = full (length (i_keys i)))%nat ->
  s_inlineHashTableMask s = 2 ^ k - 1 -> 2 * Z.of_nat (length (i_keys i) - total) <= 2 ^ k ->
  ctable_ok ie_ordinal ie_checkHash x_inlineHashTableEmptyValue (hkey16 env) k (inline_name (i_keys i))
    (drop total (i_keys i)) (s_inlineHashTable s) ->
  exists r, QueryInlineHashTable h s g (hkey16 env g) = Some r /\
    match r with
    | Some v => at_slot (i_keys i) v = Some g
    | None => g ∉ drop total (i_keys i)
    end.
Proof.
  intros Hc Ht Hm Hl Hok. pose proof (ct_pow_pos _ _ _ _ _ _ _ _ Hok) as H2. unfold QueryInlineHashTable.
  replace (Z.lnot (s_inlineHashTableMask s)) with (- 2 ^ k) by (rewrite Hm; unfold Z.lnot; lia).
  destruct (ctable_lookup _ _ _ (hkey16 env) k (inline_name (i_keys i)) _ _ Hok
    (inline_visit h s g (u8 (hkey16 env g))) (GetPropertySlotFromInlineHashTableOrdinal s) g) as (sl & r & Hp & Hr).
  - rewrite length_drop. lia.
  - intros e He. unfold inline_visit, cvisit.
    destruct (Z.eqb_spec (ie_ordinal e) x_inlineHashTableEmptyValue) as [|Hne]; [done|].
    destruct (_ =? _); [|done].
    destruct (ct_entries _ _ _ _ _ _ _ _ Hok e He Hne) as (g' & Hg' & _).
    assert (g' ∈ drop total (i_keys i)) as Hin.
    { apply (ct_keys _ _ _ _ _ _ _ _ Hok). exists e. split; [done|]. unfold entry_key.
      by destruct (Z.eqb_spec (ie_ordinal e) x_inlineHashTableEmptyValue). }
    destruct (inline_ordinal_range s i total _ g' Hc Ht Hg' Hin) as [Hr Hf].
    assert (GetPropertyNameFromInlineHashTableOrdinal h s (ie_ordinal e) = inline_name (i_keys i) (ie_ordinal e)) as ->.
    { unfold GetPropertyNameFromInlineHashTableOrdinal, inline_name. destruct (Z.leb_spec 0 (ie_ordinal e)).
      - by apply values_spec.
      - apply load_block_end_spec; [done|auto|lia]. }
    done.
  - rewrite Hp. simpl. exists r. split; [done|]. destruct r as [v|]; [|done].
    destruct Hr as (o & Ho & -> & _). unfold GetPropertySlotFromInlineHashTableOrdinal.
    rewrite (cl_numSlots _ _ _ _ _ Hc), (cl_nonfull _ _ _ _ _ Hc). unfold i_count.
    pose proof (nonfull_le (length (i_keys i))). unfold inline_name in Ho.
    pose proof (at_slot_Some _ _ _ Ho) as [Hrange _]. pose proof (cl_count _ _ _ _ _ Hc).
    destruct (blocks (length (i_keys i))) as (Hb & _).
    rewrite wrapu_small; [|unfold in_u; pow2; lia]. rewrite <- Ho. f_equal. lia.
Qed.

Lemma Anchor_lookup_spec a ks nb k g : anchor_ok env K a ks nb k ->
  exists r, Anchor_GetSlotOrdinalFromPropertyNameAndHash h a g (hkey env g) = Some r /\
    match r with
    | Some v => at_slot ks v = Some g
    | None => g ∉ ks
    end.
Proof.
  intros Ha. pose proof (an_table _ _ _ _ _ _ Ha) as Hok. pose proof (ct_pow_pos _ _ _ _ _ _ _ _ Hok) as H2.
  unfold Anchor_GetSlotOrdinalFromPropertyNameAndHash. rewrite (an_mask _ _ _ _ _ _ Ha).
  destruct (ctable_lookup _ _ _ (hkey env) k (at_slot ks) _ _ Hok
    (anchor_visit h a g (u8 (hkey env g))) id g) as (sl & r & Hp & Hr).
  - pose proof (an_nb _ _ _ _ _ _ Ha). rewrite (an_len _ _ _ _ _ _ Ha), (an_size _ _ _ _ _ _ Ha).
    unfold B. assert (nb ∈ seq 1 15) as Hin by (apply elem_of_seq; lia).
    vm_compute in Hin. set_unfold in Hin. repeat destruct Hin as [->|Hin]; try done; vm_compute; done.
  - intros e He. unfold anchor_visit, cvisit.
    destruct (Z.eqb_spec (ae_ordinal e) x_hashTableEmptyValue) as [|Hne]; [done|].
    destruct (_ =? _); [|done].
    destruct (ct_entries _ _ _ _ _ _ _ _ Hok e He Hne) as (g' & Hg' & _).
    pose proof (at_slot_Some _ _ _ Hg') as [Hr _]. rewrite (an_len _ _ _ _ _ _ Ha) in Hr.
    by rewrite (GetPropertyNameAtSlot_spec a ks nb k) by done.
  - rewrite Hp. simpl. exists r. split; [done|]. destruct r as [v|]; [|done]. by destruct Hr as (o & Ho & -> & _).
Qed.

(** The look-up in terms of the stored key. *)
Lemma lookup_key s i g hash : class_ok env (anchors h) K s i -> hash = hkey env g ->
  GeneralHeapPointer (GeneralHeapPointer_As g) = g ->
  exists r, GetSlotOrdinalFromPropertyNameAndHash h s (GeneralHeapPointer_As g) hash = Some r /\
    match r with Some v => at_slot (i_keys i) v = Some g | None => g ∉ i_keys i end.
Proof.
  intros Hc -> Hg. destruct (cl_tables _ _ _ _ _ Hc) as (total & k & Ha & Ht & _ & Hm & Hl & Hok).
  unfold GetSlotOrdinalFromPropertyNameAndHash. rewrite Hg.
  destruct (QueryInlineHashTable_spec s i total k g Hc Ht Hm Hl Hok) as (r & Hq & Hr).
  fold (hkey16 env g). rewrite Hq. simpl. destruct r as [v|]; [by exists (Some v)|].
  destruct Ha as [[-> ->]|(Hne & a & nb & ka & Hlk & Haok & Htot)].
  - exists None. simpl. by rewrite drop_0 in Hr.
  - destruct (Z.eqb_spec (s_anchorHashTable s) 0); [done|]. rewrite Hlk. simpl.
    destruct (Anchor_lookup_spec a (take total (i_keys i)) nb ka g Haok) as (r & Hra & Hrr).
    exists r. split; [done|]. destruct r as [v|].
    + rewrite <- Hrr. symmetry. apply at_slot_take. apply at_slot_Some in Hrr as [Hv _].
      rewrite length_take in Hv. lia.
    + rewrite <- (take_drop total (i_keys i)), elem_of_app. tauto.
Qed.

Lemma lookup_user_key s i key : class_ok env (anchors h) K s i -> user_key key ->
  exists r, GetSlotOrdinalFromMaybeNonStringProperty env h s key = Some r /\
    match r with Some v => at_slot (i_keys i) v = Some (GeneralHeapPointer key)
                | None => GeneralHeapPointer key ∉ i_keys i end.
Proof.
  intros Hc Hk. destruct (user_key_spec key Hk) as [_ Has]. unfold GetSlotOrdinalFromMaybeNonStringProperty.
  pose proof (lookup_key s i (GeneralHeapPointer key) (GetHashValueForMaybeNonStringKey env key) Hc) as Hl.
  unfold hkey in Hl. rewrite Has in Hl. by apply Hl.
Qed.

(** ** The inverse *)

Lemma IsAnchorTableContainsFinalBlock_spec s i total : class_ok env (anchors h) K s i ->
  anchored env (anchors h) K s (i_keys i) total ->
  (total = full (length (i_keys i)) \/ total + B = full (length (i_keys i)))%nat ->
  IsAnchorTableContainsFinalBlock h s = Some (bool_decide (total = full (length (i_keys i)) /\ total <> O)).
Proof.
  intros Hc Ha Ht. unfold IsAnchorTableContainsFinalBlock.
  destruct Ha as [[-> ->]|(Hne & a & nb & ka & Hlk & Haok & Htot)].
  - rewrite bool_decide_false by tauto. done.
  - destruct (Z.eqb_spec (s_anchorHashTable s) 0); [done|]. rewrite Hlk. simpl. f_equal.
    rewrite (an_numTotalSlots _ _ _ _ _ _ Haok), (cl_numSlots _ _ _ _ _ Hc). unfold i_count.
    change (u8 (Z.lnot (u8 (x_hiddenClassBlockSize - 1)))) with 240.
    pose proof (an_nb _ _ _ _ _ _ Haok). pose proof (cl_count _ _ _ _ _ Hc).
    assert (Z.land (Z.of_nat (length (i_keys i))) 240 = Z.of_nat (full (length (i_keys i)))) as ->.
    { unfold full, B. change 240 with (15 * 2 ^ 4).
      rewrite (Z.div_mod (Z.of_nat (length (i_keys i))) 16) at 1 by lia.
      rewrite (Z.mul_comm 16). pose proof (Z.mod_pos_bound (Z.of_nat (length (i_keys i))) 16 ltac:(lia)).
      rewrite (land_high 4) by lia. change 15 with (Z.ones 4). rewrite Z.land_ones by lia.
      rewrite Z.mod_small; [|pow2; split; [apply Z.div_pos; lia|apply Z.div_lt_upper_bound; lia]].
      rewrite Nat2Z.inj_mul, Nat2Z.inj_div. done. }
    rewrite <- Htot. destruct (Z.eqb_spec (Z.of_nat total) (Z.of_nat (full (length (i_keys i))))).
    + rewrite bool_decide_true; [done|]. unfold B in *. lia.
    + rewrite bool_decide_false; [done|]. lia.
Qed.

Lemma GetKeyForSlotOrdinal_lookup s i v g : class_ok env (anchors h) K s i ->
  at_slot (i_keys i) v = Some g -> GetKeyForSlotOrdinal h s v = Some (GeneralHeapPointer_As g).
Proof.
  intros Hc Hv. destruct (cl_tables _ _ _ _ _ Hc) as (total & k & Ha & Ht & _ & Hm & Hl & Hok).
  pose proof (at_slot_Some _ _ _ Hv) as [Hr _]. pose proof (cl_count _ _ _ _ _ Hc) as Hcnt.
  destruct (blocks (length (i_keys i))) as (Hb & m & Hmm & Hcase). pose proof (nonfull_le (length (i_keys i))) as Hnf.
  unfold GetKeyForSlotOrdinal. rewrite (cl_numSlots _ _ _ _ _ Hc), (cl_nonfull _ _ _ _ _ Hc). unfold i_count.
  rewrite (wrapu_small 8 (_ - _)) by (unfold in_u; pow2; lia).
  replace (Z.of_nat (length (i_keys i)) - Z.of_nat (nonfull (length (i_keys i))))
    with (Z.of_nat (lim (length (i_keys i)))) by lia.
  assert (forall total', (total' = full (length (i_keys i)) \/ total' + B = full (length (i_keys i)))%nat ->
    Z.of_nat total' <= v ->
    (if Z.of_nat (lim (length (i_keys i))) <=? v then at_slot (s_values s) (v - Z.of_nat (lim (length (i_keys i))))
     else load_block_end h (s_finalFullBlock s) (v - Z.of_nat (lim (length (i_keys i))))) = Some g) as Hrest.
  { intros total' Ht' Hge. rewrite <- Hv. destruct (Z.leb_spec (Z.of_nat (lim (length (i_keys i)))) v).
    - rewrite (values_spec s i) by (done || lia). f_equal. lia.
    - rewrite (load_block_end_spec s i); [f_equal; lia|done| |unfold B in *; lia].
      unfold i_count. rewrite HasFinalFullBlockPointer_spec. apply bool_decide_eq_true. unfold B in *. lia. }
  destruct Ha as [[-> Hz]|(Hne & a & nb & ka & Hlk & Haok & Htot)]; simpl.
  - by rewrite (Hrest total) by (done || lia).
  - destruct (Z.eqb_spec (s_anchorHashTable s) 0); [done|]. rewrite Hlk. simpl.
    rewrite (an_numTotalSlots _ _ _ _ _ _ Haok). destruct (Z.ltb_spec v (Z.of_nat (nb * B))).
    + rewrite (GetPropertyNameAtSlot_spec a _ nb ka v Haok), at_slot_take, Hv by lia. done.
    + by rewrite (Hrest total) by (done || lia).
Qed.
End reads.
