(* ===== verification/ClassFrame.v ===== *)
(** * Framing of the hidden-class invariant

    What allocations and stores on the system heap keep of [heap_inv]: the
    lemmas that the proofs of the operations of [structure.h] are built from. *)

From S2P Require Import Prelude MiscMath Machine TypeMask ArrayType Butterfly Probing CheckedTable ClassHeap Structure Transition ClassInv ClassLookup.

(** The system heap is about to run out: another [n] bytes do not fit. *)
Definition low (h : SysHeap) (n : Z) : Prop := 2 ^ 31 - 65537 < m_systemHeapCurPtr h + n.

Lemma low_mono h h' n n' : m_systemHeapCurPtr h' + n' <= m_systemHeapCurPtr h + n -> low h' n' -> low h n.
Proof. unfold low. lia. Qed.

(** ** Weakest preconditions of loads, stores and queries *)

Lemma wp_fail_mono {S A} (m : M S A) s (Q : A -> S -> Prop) (F F' : Prop) :
  (F -> F') -> wp m s Q F -> wp m s Q F'.
Proof. intros HF H. eapply wp_mono; eauto. Qed.

Lemma wp_post_mono {S A} (m : M S A) s (Q Q' : A -> S -> Prop) (F : Prop) :
  (forall a s', Q a s' -> Q' a s') -> wp m s Q F -> wp m s Q' F.
Proof. intros HQ H. eapply wp_mono; eauto. Qed.

Section wp.
Implicit Types (h : SysHeap) (F : Prop).

Lemma wp_load_structure p s h (Q : Structure -> SysHeap -> Prop) F :
  structures h !! p = Some s -> Q s h -> wp (load_structure p) h Q F.
Proof. intros Hs HQ. unfold load_structure. apply wp_bind, wp_get. by eapply wp_access. Qed.

Lemma wp_load_anchor p a h (Q : StructureAnchorHashTable -> SysHeap -> Prop) F :
  anchors h !! p = Some a -> Q a h -> wp (load_anchor p) h Q F.
Proof. intros Hs HQ. unfold load_anchor. apply wp_bind, wp_get. by eapply wp_access. Qed.

Lemma wp_load_transitionTable p t h (Q : StructureTransitionTable -> SysHeap -> Prop) F :
  transitionTables h !! p = Some t -> Q t h -> wp (load_transitionTable p) h Q F.
Proof. intros Hs HQ. unfold load_transitionTable. apply wp_bind, wp_get. by eapply wp_access. Qed.

Lemma wp_query {A} (f : SysHeap -> option A) a h (Q : A -> SysHeap -> Prop) F :
  f h = Some a -> Q a h -> wp (query f) h Q F.
Proof. intros Hs HQ. unfold query. apply wp_bind, wp_get. by eapply wp_access. Qed.

Lemma wp_store_structure p s h (Q : unit -> SysHeap -> Prop) F :
  Q tt (with_structures h (<[p := s]> (structures h))) -> wp (store_structure p s) h Q F.
Proof. intros HQ. unfold store_structure. by apply wp_bind, wp_get, wp_put. Qed.

Lemma wp_store_anchor p a h (Q : unit -> SysHeap -> Prop) F :
  Q tt (with_anchors h (<[p := a]> (anchors h))) -> wp (store_anchor p a) h Q F.
Proof. intros HQ. unfold store_anchor. by apply wp_bind, wp_get, wp_put. Qed.

Lemma wp_store_transitionTable p t h (Q : unit -> SysHeap -> Prop) F :
  Q tt (with_transitionTables h (<[p := t]> (transitionTables h))) -> wp (store_transitionTable p t) h Q F.
Proof. intros HQ. unfold store_transitionTable. by apply wp_bind, wp_get, wp_put. Qed.
End wp.

(** ** Allocation *)

Definition alloc_heap (h : SysHeap) (limit n : Z) : SysHeap :=
  mkSysHeap (m_systemHeapCurPtr h + n) limit (structures h) (transitionTables h) (anchors h) (dictionaries h).

Lemma AllocFromSystemHeap_spec n h (Q : Z -> SysHeap -> Prop) : sys_ok h -> 0 < n < 2 ^ 32 -> n mod 8 = 0 ->
  (forall limit, sys_ok (alloc_heap h limit n) -> Q (m_systemHeapCurPtr h) (alloc_heap h limit n)) ->
  wp (AllocFromSystemHeap n) h Q (low h n).
Proof.
  intros [Hr Hl Ha] Hn H8 HQ. unfold AllocFromSystemHeap, AddWithOverflowCheck, with_overflow, wp, low.
  set (c := m_systemHeapCurPtr h) in *. pow2.
  assert (negb ((ty_min (mkIntTy false 32) <=? c + n) && (c + n <=? ty_max (mkIntTy false 32))) = (4294967295 <? c + n)) as ->.
  { unfold ty_min, ty_max. simpl. pow2.
    destruct (Z.leb_spec 0 (c + n)), (Z.leb_spec (c + n) (4294967296 - 1)), (Z.ltb_spec 4294967295 (c + n)); simpl; lia. }
  destruct (Z.ltb_spec 4294967295 (c + n)); [lia|].
  assert (static_cast (mkIntTy false 32) (c + n) = c + n) as Hc.
  { apply static_cast_id; [done|]. unfold in_ty, ty_min, ty_max. simpl. pow2. lia. }
  rewrite Hc. assert ((c + n) mod 8 = 0) as H8' by (rewrite Zplus_mod, Ha, H8; done).
  destruct (Z.ltb_spec (m_systemHeapPtrLimit h) (c + n)).
  - unfold BumpSystemHeap. pow2. destruct (Z.ltb_spec (2147483648 - 1 - 65536) (c + n)); [lia|].
    pose proof (RoundUp_eq 32 65536 (c + n) ltac:(lia) ltac:(lia) ltac:(pow2; lia)) as Heq.
    pose proof (Z.div_mod (c + n + 65536 - 1) 65536 ltac:(lia)).
    pose proof (Z.mod_pos_bound (c + n + 65536 - 1) 65536 ltac:(lia)).
    apply HQ. split; simpl; fold c; [|pow2|done]; rewrite Heq; lia.
  - apply HQ. split; simpl; fold c; [lia|pow2; lia|done].
Qed.

(** ** Frames: what every operation keeps *)

Record frame (h h' : SysHeap) : Prop := {
  fr_cur : m_systemHeapCurPtr h <= m_systemHeapCurPtr h';
  fr_anchors : anchors h ⊆ anchors h';
  fr_tables : transitionTables h' = transitionTables h;
  fr_dicts : dictionaries h' = dictionaries h;
  fr_structures : forall p s, structures h !! p = Some s ->
    exists s', structures h' !! p = Some s' /\ s_transitionTable s' = s_transitionTable s
}.

Lemma frame_refl h : frame h h.
Proof. split; eauto; lia. Qed.

Lemma frame_trans h1 h2 h3 : frame h1 h2 -> frame h2 h3 -> frame h1 h3.
Proof.
  intros [] []. split; [lia|by etrans|congruence..|].
  intros p s Hs. destruct (fr_structures0 p s Hs) as (s' & Hs' & He).
  destruct (fr_structures1 p s' Hs') as (s'' & Hs'' & He'). exists s''. split; [done|congruence].
Qed.

Lemma frame_alloc h limit n : 0 <= n -> frame h (alloc_heap h limit n).
Proof. intros Hn. split; simpl; eauto; lia. Qed.

Lemma frame_add_anchor h r a : anchors h !! r = None -> frame h (with_anchors h (<[r := a]> (anchors h))).
Proof. intros Hr. split; simpl; eauto; [lia|by apply insert_subseteq]. Qed.

Lemma frame_set_structure h p s s' : structures h !! p = Some s -> s_transitionTable s' = s_transitionTable s ->
  frame h (with_structures h (<[p := s']> (structures h))).
Proof.
  intros Hs Ht. split; simpl; eauto; [lia|]. intros q sq Hq. destruct (decide (p = q)) as [<-|].
  - exists s'. rewrite lookup_insert_eq. split; [done|congruence].
  - exists sq. by rewrite lookup_insert_ne.
Qed.

Lemma frame_add_structure h r s : structures h !! r = None ->
  frame h (with_structures h (<[r := s]> (structures h))).
Proof.
  intros Hr. split; simpl; eauto; [lia|]. intros q sq Hq. exists sq. rewrite lookup_insert_ne; [done|congruence].
Qed.
#[export] Hint Resolve frame_refl : core.

(** ** Steps that keep the invariant *)

Section steps.
Variable env : Env.
Implicit Types (h : SysHeap) (K : Classes).

Lemma transitions_ok_mono T T' K K' p v : T ⊆ T' -> K ⊆ K' ->
  transitions_ok env T K p v -> transitions_ok env T' K' p v.
Proof.
  intros HT HK [H|[(key & Hv & Ha & Hc)|(q & t & k & Hv & Ha & Hq & Ht & Hok & Hld)]].
  - by left.
  - right; left. exists key. split_and!; [done..|by eapply edge_child].
  - right; right. exists q, t, k. split_and!; [done..|by eapply lookup_weaken|by eapply ttable_ok_mono|done].
Qed.

Lemma sys_ok_with_structures h m : sys_ok h -> sys_ok (with_structures h m).
Proof. by intros []. Qed.
Lemma sys_ok_with_anchors h m : sys_ok h -> sys_ok (with_anchors h m).
Proof. by intros []. Qed.
Lemma sys_ok_with_transitionTables h m : sys_ok h -> sys_ok (with_transitionTables h m).
Proof. by intros []. Qed.
#[local] Hint Resolve sys_ok_with_structures sys_ok_with_anchors sys_ok_with_transitionTables : core.

Lemma inv_alloc h K limit n : heap_inv env h K -> 0 <= n -> sys_ok (alloc_heap h limit n) ->
  heap_inv env (alloc_heap h limit n) K.
Proof.
  intros [] Hn Hs.
  assert (forall p, allocated h p -> allocated (alloc_heap h limit n) p) as Hall.
  { intros p [Hp Ha]. split; [simpl; lia|done]. }
  split; simpl; auto.
Qed.

Lemma inv_add_anchor h K r a : heap_inv env h K -> allocated h r -> anchors h !! r = None ->
  heap_inv env (with_anchors h (<[r := a]> (anchors h))) K.
Proof.
  intros [] Hal Hr. split; simpl; auto.
  - intros p [x Hx]. destruct (decide (r = p)) as [<-|]; [done|]. rewrite lookup_insert_ne in Hx by done. eauto.
  - intros p s i Hs Hi. eapply class_ok_mono; [by apply insert_subseteq|done|by eapply hi_class].
Qed.

Lemma inv_set_structure h K p s s' i : heap_inv env h K -> structures h !! p = Some s -> K !! p = Some i ->
  class_ok env (anchors h) K s' i -> transitions_ok env (transitionTables h) K p (s_transitionTable s') ->
  heap_inv env (with_structures h (<[p := s']> (structures h))) K.
Proof.
  intros [] Hs Hi Hc Ht. split; simpl; auto.
  - intros q. destruct (decide (p = q)) as [<-|]; [rewrite lookup_insert_eq, Hi; split; eauto|].
    by rewrite lookup_insert_ne.
  - intros q sq iq. destruct (decide (p = q)) as [<-|].
    + rewrite lookup_insert_eq. intros [= <-]. congruence.
    + rewrite lookup_insert_ne by done. apply hi_class.
  - intros q sq. destruct (decide (p = q)) as [<-|].
    + rewrite lookup_insert_eq. by intros [= <-].
    + rewrite lookup_insert_ne by done. apply hi_trans.
Qed.

Lemma inv_add_class h K r s i : heap_inv env h K -> K !! r = None -> dictionaries h !! r = None -> allocated h r ->
  class_ok env (anchors h) K s i -> rooted env K i -> s_transitionTable s = 0 ->
  heap_inv env (with_structures h (<[r := s]> (structures h))) (<[r := i]> K).
Proof.
  intros [] Hr Hd Hal Hc Hroot Ht.
  assert (K ⊆ <[r := i]> K) as HK by (by apply insert_subseteq).
  assert (structures h !! r = None) as Hrs.
  { apply eq_None_not_Some. rewrite hi_dom, Hr. by intros [? ?]. }
  split; simpl; auto.
  - intros q. destruct (decide (r = q)) as [<-|]; [rewrite !lookup_insert_eq; split; eauto|].
    by rewrite !lookup_insert_ne.
  - intros q. destruct (decide (r = q)) as [<-|]; [done|]. rewrite lookup_insert_ne by done. apply hi_addr.
  - intros q [x Hx]. rewrite lookup_insert_ne by congruence. eauto.
  - intros q sq iq. destruct (decide (r = q)) as [<-|].
    + rewrite !lookup_insert_eq. intros [= <-] [= <-]. by eapply class_ok_mono.
    + rewrite !lookup_insert_ne by done. intros Hs Hi. eapply class_ok_mono; [done..|by eapply hi_class].
  - intros q iq. destruct (decide (r = q)) as [<-|].
    + rewrite lookup_insert_eq. intros [= <-]. by eapply rooted_mono.
    + rewrite lookup_insert_ne by done. intros Hi. eapply rooted_mono; [done|by eapply hi_rooted].
  - intros q sq. destruct (decide (r = q)) as [<-|].
    + rewrite lookup_insert_eq. intros [= <-]. by left.
    + rewrite lookup_insert_ne by done. intros Hs. eapply transitions_ok_mono; [done..|by eapply hi_trans].
Qed.

Lemma inv_add_table h K r t : heap_inv env h K -> transitionTables h !! r = None -> allocated h r ->
  heap_inv env (with_transitionTables h (<[r := t]> (transitionTables h))) K.
Proof.
  intros [] Hr Hal. split; simpl; auto.
  - intros p [x Hx]. destruct (decide (r = p)) as [<-|]; [done|]. rewrite lookup_insert_ne in Hx by done. eauto.
  - intros p s Hs. eapply transitions_ok_mono; [by apply insert_subseteq|done|by eapply hi_trans].
Qed.

(** A table belongs to one structure, the parent of its children. *)
Lemma table_has_entry K p t k : ttable_ok env K p t k ->
  exists e key, e ∈ m_hashTable t /\ te_key_of e = Some key.
Proof.
  intros []. destruct tt_nonempty as [Hpos _]. rewrite tt_count in Hpos. unfold occupancy in Hpos.
  destruct (List.filter (occupied te_key_of) (m_hashTable t)) as [|e l] eqn:E; [simpl in Hpos; lia|].
  assert (In e (List.filter (occupied te_key_of) (m_hashTable t))) as Hin by (rewrite E; by left).
  apply filter_In in Hin as [Hin Ho]. unfold occupied in Ho. destruct (te_key_of e) as [key|] eqn:Ek; [|done].
  exists e, key. split; [by apply list_elem_of_In|done].
Qed.

Lemma table_owner K p p' t k k' : ttable_ok env K p t k -> ttable_ok env K p' t k' -> p = p'.
Proof.
  intros H H'. destruct (table_has_entry _ _ _ _ H) as (e & key & He & Hk).
  destruct (tt_entries _ _ _ _ _ H e key He Hk) as (i & Hi & Hp & _).
  destruct (tt_entries _ _ _ _ _ H' e key He Hk) as (i' & Hi' & Hp' & _). congruence.
Qed.

Lemma inv_set_table h K p q t t' k k' : heap_inv env h K -> transitionTables h !! q = Some t ->
  ttable_ok env K p t k -> ttable_ok env K p t' k' -> m_numElementsInHashTable t' <= 2 ^ (k' - 1) ->
  heap_inv env (with_transitionTables h (<[q := t']> (transitionTables h))) K.
Proof.
  intros [] Hq Hok Hok' Hload. split; simpl; auto.
  - intros r [x Hx]. destruct (decide (q = r)) as [<-|]; [eauto|]. rewrite lookup_insert_ne in Hx by done. eauto.
  - intros p' s Hs. destruct (hi_trans p' s Hs) as [H|[H|(q' & t1 & k1 & Hv & Ha & Hn & Hl & H1 & Hl1)]].
    + by left.
    + by right; left.
    + right; right. destruct (decide (q = q')) as [<-|].
      * assert (t1 = t) as -> by congruence. exists q, t', k'. rewrite lookup_insert_eq.
        split_and!; [done..| |done]. by rewrite (table_owner _ _ _ _ _ _ H1 Hok).
      * exists q', t1, k1. rewrite lookup_insert_ne by done. done.
Qed.

(** A table no structure points to may hold anything. *)
Lemma inv_garbage_table h K q t : heap_inv env h K -> is_Some (transitionTables h !! q) ->
  (forall p s, structures h !! p = Some s -> s_transitionTable s <> q + 1) ->
  heap_inv env (with_transitionTables h (<[q := t]> (transitionTables h))) K.
Proof.
  intros [] Hq Hno. split; simpl; auto.
  - intros r [x Hx]. destruct (decide (q = r)) as [<-|]; [eauto|]. rewrite lookup_insert_ne in Hx by done. eauto.
  - intros p s Hs. destruct (hi_trans p s Hs) as [H|[H|(q' & t1 & k1 & Hv & H)]].
    + by left.
    + by right; left.
    + right; right. exists q', t1, k1. rewrite lookup_insert_ne; [done|]. intros <-. by apply (Hno p s).
Qed.

(** Fresh addresses. *)
Lemma fresh_structure h K r : heap_inv env h K -> m_systemHeapCurPtr h <= r -> K !! r = None.
Proof.
  intros H Hr. apply eq_None_not_Some. intros Hs. destruct (hi_addr _ _ _ H r Hs) as [Hb _]. lia.
Qed.
Lemma fresh_anchor h K r : heap_inv env h K -> m_systemHeapCurPtr h <= r -> anchors h !! r = None.
Proof.
  intros H Hr. apply eq_None_not_Some. intros Hs. destruct (hi_addr_a _ _ _ H r Hs) as [Hb _]. lia.
Qed.
Lemma fresh_table h K r : heap_inv env h K -> m_systemHeapCurPtr h <= r -> transitionTables h !! r = None.
Proof.
  intros H Hr. apply eq_None_not_Some. intros Hs. destruct (hi_addr_t _ _ _ H r Hs) as [Hb _]. lia.
Qed.
Lemma fresh_dictionary h K r : heap_inv env h K -> m_systemHeapCurPtr h <= r -> dictionaries h !! r = None.
Proof.
  intros H Hr. apply eq_None_not_Some. intros Hs. destruct (hi_addr_d _ _ _ H r Hs) as [Hb _]. lia.
Qed.
End steps.
