(* ===== verification/ClassAnchor.v ===== *)
(** * Building anchor tables

    [StructureAnchorHashTable::Create] builds, for a structure whose last block
    is full, a table that holds all its keys, and
    [Structure::BuildNewAnchorTableIfNecessary] installs it without changing what
    any structure means. *)

From S2P Require Import Prelude MiscMath Machine TypeMask ArrayType Butterfly Probing CheckedTable ClassHeap Structure Transition ClassInv ClassLookup ClassFrame.

Section anchor.
Variable env : Env.
Implicit Types (h : SysHeap) (K : Classes).

Abbreviation anchor_table := (ctable_ok ae_ordinal ae_checkHash x_hashTableEmptyValue (hkey env)).

Lemma anchor_insert_spec k name keys t g o : anchor_table k name keys t -> g ∉ keys ->
  Z.of_nat (length keys) < 2 ^ k -> name o = Some g -> 0 <= o < 240 ->
  exists t', anchor_insert env (- 2 ^ k) g o t = Some t' /\ anchor_table k name (keys ++ [g]) t'.
Proof.
  intros Hok Hg Hl Hn Ho. unfold anchor_insert. fold (hkey env g).
  assert (u8 o = o) as Hu by (apply wrapu_small; unfold in_u; pow2; lia).
  destruct (ctable_insert _ _ _ _ _ _ _ _ Hok
    (fun e => if ae_ordinal e =? x_hashTableEmptyValue then Some tt else None) g o
    (mkAnchorEntry (u8 o) (u8 (hkey env g))) Hl Hg) as (s & t' & Hp & Hs & Hok').
  - done.
  - done.
  - done.
  - unfold x_hashTableEmptyValue. lia.
  - done.
  - rewrite Hp. simpl. by exists t'.
Qed.

(** The size of the table for [nb] blocks. *)
Lemma anchor_size nb : (1 <= nb <= 15)%nat -> exists k, 5 <= k <= 9 /\
  2 ^ k = u32 (RoundUpToPowerOfTwo (Z.of_nat (nb * B)) * 2) /\ 2 * Z.of_nat (nb * B) <= 2 ^ k.
Proof.
  intros Hn. assert (exists j, (j <= 4)%nat /\ let k := 5 + Z.of_nat j in
    (2 ^ k =? u32 (RoundUpToPowerOfTwo (Z.of_nat (nb * B)) * 2)) && (2 * Z.of_nat (nb * B) <=? 2 ^ k) = true)
    as (j & Hj & Hb).
  { assert (nb ∈ [1;2;3;4;5;6;7;8;9;10;11;12;13;14;15]%nat) as Hin by (set_unfold; lia).
    exists (Nat.log2_up nb). set_unfold in Hin. repeat destruct Hin as [->|Hin]; try done; (split; [vm_compute; lia|done]). }
  exists (5 + Z.of_nat j). apply andb_true_iff in Hb as [?%Z.eqb_eq ?%Z.leb_le]. split_and!; [lia..|done|done].
Qed.

Lemma block_offsets_spec nb : (nb <= 15)%nat -> block_offsets (Z.of_nat nb) =
  (fun m => (Z.of_nat (m / 16), Z.of_nat (m mod 16))) <$> seq 0 (nb * B).
Proof. intros Hn. do 16 (destruct nb as [|nb]; [vm_compute; reflexivity|]). lia. Qed.

(** [CloneHashTableTo]: the keys of the old table, in a table of the new size. *)
Lemma CloneHashTableTo_spec h K a ks nb k0 k : heap_inv env h K -> anchor_ok env K a ks nb k0 ->
  5 <= k <= 9 -> Z.of_nat (length ks) <= 2 ^ k -> NoDup ks ->
  exists t, CloneHashTableTo env h a (2 ^ k) = Some t /\ anchor_table k (at_slot ks) ks t.
Proof.
  intros Hinv Ha Hk Hl Hnd. unfold CloneHashTableTo, GetHashTableSizeFromHashTableMask.
  rewrite (an_mask _ _ _ _ _ _ Ha). pose proof (an_table _ _ _ _ _ _ Ha) as Hok.
  pose proof (an_size _ _ _ _ _ _ Ha) as Hsz.
  assert (u32 (Z.lnot (- 2 ^ k0) + 1) = 2 ^ k0) as ->.
  { replace (Z.lnot (- 2 ^ k0) + 1) with (2 ^ k0) by (unfold Z.lnot; lia). rewrite Hsz.
    apply wrapu_small, wrapu_range. lia. }
  destruct (Z.eqb_spec (2 ^ k) (2 ^ k0)) as [E|Hne].
  - apply Z.pow_inj_r in E; [|lia|lia|apply (ct_size _ _ _ _ _ _ _ _ Hok)]. subst k0. by exists (a_hashTable a).
  - replace (Z.lnot (2 ^ k - 1)) with (- 2 ^ k) by (unfold Z.lnot; lia).
    pose proof (an_nb _ _ _ _ _ _ Ha). rewrite (an_numBlocks _ _ _ _ _ _ Ha), block_offsets_spec by lia.
    unfold emptyAnchorTable.
    destruct (fold_ctable_insert ae_ordinal ae_checkHash x_hashTableEmptyValue (hkey env) (clone_anchor_step env h a (- 2 ^ k)) k (at_slot ks)
      ((fun m => (Z.of_nat (m / 16), Z.of_nat (m mod 16))) <$> seq 0 (nb * B)) ks []
      (replicate (Z.to_nat (2 ^ k)) (mkAnchorEntry x_hashTableEmptyValue x_hashTableEmptyValue)))
      as (t & Ht & Htok).
    + by apply ctable_empty; [lia|].
    + done.
    + done.
    + apply Forall2_fmap_l. rewrite <- (an_len _ _ _ _ _ _ Ha). apply Forall2_seq. intros m g Hg keys t Ht Hgk Hlen.
      unfold clone_anchor_step. rewrite Nat.add_0_l. cbn [mbind option_bind]. pose proof (lookup_lt_Some _ _ _ Hg) as Hm. rewrite (an_len _ _ _ _ _ _ Ha) in Hm.
      pose proof (Nat.div_mod m 16 ltac:(lia)). pose proof (Nat.mod_upper_bound m 16 ltac:(lia)).
      rewrite <- at_slot_nat in Hg.
      destruct (load_block_begin_spec env h K Hinv a ks nb k0 (m / 16) (Z.of_nat (m mod 16)) Ha) as (p & Hp & Hlb).
      { unfold B in Hm. lia. }
      { unfold B. lia. }
      rewrite at_slot_nat, Hp. cbn [mbind option_bind]. rewrite Hlb.
      replace (Z.of_nat (m / 16 * B) + Z.of_nat (m mod 16)) with (Z.of_nat m) by (unfold B; lia).
      rewrite Hg. cbn [mbind option_bind].
      assert (Z.lor (Z.shiftl (Z.of_nat (m / 16)) x_log2_hiddenClassBlockSize) (Z.of_nat (m mod 16)) = Z.of_nat m) as ->.
      { rewrite Z.shiftl_mul_pow2 by (vm_compute; discriminate). change x_log2_hiddenClassBlockSize with 4.
        rewrite lor_high by (pow2; lia). pow2. lia. }
      apply anchor_insert_spec; try done. unfold B in Hm. lia.
    + exists t. done.
Qed.

(** ** [StructureAnchorHashTable::Create] *)

Definition anchor_cost : Z := 1200.

Lemma Anchor_Create_spec h K q iq s nb (Q : Z -> SysHeap -> Prop) : heap_inv env h K -> K !! q = Some iq ->
  structures h !! q = Some s -> (1 <= nb <= 15)%nat -> length (i_keys iq) = (nb * B)%nat ->
  IsAnchorTableContainsFinalBlock h s = Some false ->
  (forall r h1 a k, frame h h1 -> heap_inv env h1 K -> structures h1 = structures h ->
     anchors h1 !! r = Some a -> anchor_ok env K a (i_keys iq) nb k -> r <> 0 ->
     m_systemHeapCurPtr h1 <= m_systemHeapCurPtr h + anchor_cost -> Q r h1) ->
  wp (Anchor_Create env q) h Q (low h anchor_cost).
Proof.
  intros Hinv Hq Hs Hnb Hlen Hcon HQ. pose proof (hi_class _ _ _ Hinv q s iq Hs Hq) as Hc.
  unfold Anchor_Create. apply wp_bind. eapply wp_load_structure; [done|].
  rewrite (cl_numSlots _ _ _ _ _ Hc). unfold i_count. rewrite Hlen.
  destruct (anchor_size nb Hnb) as (k & Hk & Hksz & Hk2). rewrite <- Hksz.
  replace (Z.lnot (2 ^ k - 1)) with (- 2 ^ k) by (unfold Z.lnot; lia).
  assert (Z.shiftr (Z.of_nat (nb * B)) x_log2_hiddenClassBlockSize = Z.of_nat nb) as ->.
  { rewrite Z.shiftr_div_pow2 by (vm_compute; discriminate). change (2 ^ x_log2_hiddenClassBlockSize) with (Z.of_nat B).
    rewrite Nat2Z.inj_mul, Z.div_mul; [done|unfold B; lia]. }
  assert (32 <= 2 ^ k <= 512 /\ 2 ^ k mod 32 = 0) as [H2k H32].
  { assert (k ∈ [5;6;7;8;9]) as Hin by (set_unfold; lia). set_unfold in Hin.
    repeat destruct Hin as [->|Hin]; try done; vm_compute; repeat split; discriminate. }
  change sizeof_AnchorHeader with 8.
  set (len := RoundUpToMultipleOf 32 8 (2 ^ k * 2 + 8 + Z.of_nat nb * 4)).
  assert (0 < len <= anchor_cost /\ len mod 8 = 0 /\ 2 ^ k * 2 < len) as (Hlb & Hl8 & Hlk).
  { unfold len, anchor_cost. rewrite RoundUp_eq by (pow2; lia). rewrite Z.mod_mul by lia.
    pose proof (Z.div_mod (2 ^ k * 2 + 8 + Z.of_nat nb * 4 + 8 - 1) 8 ltac:(lia)).
    pose proof (Z.mod_pos_bound (2 ^ k * 2 + 8 + Z.of_nat nb * 4 + 8 - 1) 8 ltac:(lia)). lia. }
  apply wp_bind. eapply wp_mono; [apply AllocFromSystemHeap_spec with (Q := fun p h1 =>
      p = m_systemHeapCurPtr h /\ exists limit, h1 = alloc_heap h limit len /\ sys_ok h1)|..].
  { apply Hinv. }
  { unfold anchor_cost in Hlb. pow2. lia. }
  { done. }
  { intros limit Hsys. eauto. }
  2:{ apply low_mono. lia. }
  intros p h1 (-> & limit & -> & Hsys). set (c := m_systemHeapCurPtr h) in *.
  pose proof (so_range _ (hi_sys _ _ _ Hinv)) as Hrange. fold c in Hrange.
  pose proof (so_align _ (hi_sys _ _ _ Hinv)) as Halign. fold c in Halign.
  apply wp_bind, wp_get.
  set (h1 := alloc_heap h limit len) in *.
  assert (heap_inv env h1 K) as Hinv1 by (apply inv_alloc; [done|lia|done]).
  destruct (cl_tables _ _ _ _ _ Hc) as (total & ki & Hanch & Ht & _).
  rewrite (IsAnchorTableContainsFinalBlock_spec env h K s iq total Hc Hanch Ht) in Hcon.
  injection Hcon as Hcon%bool_decide_eq_false.
  assert (full (nb * B) = (nb * B)%nat) as Hfull by (unfold full, B; rewrite Nat.div_mul by lia; done).
  rewrite Hlen, Hfull in Ht, Hcon.
  assert (total + B = nb * B)%nat as Htot by (unfold B in *; lia). clear Ht Hcon.
  pose proof (cl_nodup _ _ _ _ _ Hc) as Hnd.
  (* the copied part *)
  apply wp_bind. eapply (wp_mono _ _ (fun tp h2 => h2 = h1 /\ anchor_table k (at_slot (i_keys iq)) (take total (i_keys iq)) tp.1 /\
    length tp.2 = (nb - 1)%nat /\ forall j, (j < nb - 1)%nat -> exists q iq0,
    tp.2 !! j = Some (q + OffsetOfTrailingVarLengthArray) /\
    K !! q = Some iq0 /\ i_keys iq0 = take ((j + 1) * B) (i_keys iq))).
  { destruct Hanch as [[-> Hz]|(Hne & a & nb0 & k0 & Ha & Haok & Hnb0)].
    - apply wp_ret. assert (nb = 1%nat) as -> by (unfold B in Htot; lia). rewrite Hz. split_and!; [done| |done|lia].
      by apply ctable_empty; [lia|].
    - destruct (Z.eqb_spec (s_anchorHashTable s) 0); [done|].
      apply wp_bind. eapply wp_load_anchor; [done|]. apply wp_bind.
      assert (nb0 = nb - 1)%nat as -> by (unfold B in *; lia).
      destruct (CloneHashTableTo_spec h1 K a _ _ k0 k Hinv1 Haok Hk) as (t & Ht & Htok).
      { rewrite length_take. lia. }
      { rewrite <- (take_drop total (i_keys iq)) in Hnd. by apply NoDup_app in Hnd as (? & _). }
      eapply wp_access; [done|]. apply wp_ret. simpl. pose proof (an_pointers _ _ _ _ _ _ Haok) as Hpl.
      rewrite (an_numBlocks _ _ _ _ _ _ Haok), Nat2Z.id, (take_ge (a_blockPointers a)) by lia. split_and!; [done| |done|].
      + eapply ctable_ext; [|done]. intros o g Ho _. rewrite <- Ho. symmetry. apply at_slot_take.
        apply at_slot_Some in Ho as [Ho _]. rewrite length_take in Ho. lia.
      + intros j Hj. destruct (an_blocks _ _ _ _ _ _ Haok j Hj) as (q0 & iq0 & H1 & H2 & H3).
        exists q0, iq0. split_and!; [done..|]. rewrite H3, take_take, Nat.min_l; [done|].
        clear - Hj Htot. unfold B in *. lia. }
  2: done.
  intros [t ptrs] h2 (-> & Htok & Hpl & Hptr). cbn [fst snd] in Htok, Hpl, Hptr.
  (* the new block *)
  assert (exists t', foldl (insert_block_step env s (- 2 ^ k) (Z.of_nat (nb * B))) (Some t)
      (Z.of_nat <$> seq 0 (Z.to_nat x_hiddenClassBlockSize)) = Some t' /\
      anchor_table k (at_slot (i_keys iq)) (i_keys iq) t') as (t' & Ht' & Htok').
  { rewrite <- (take_drop total (i_keys iq)). eapply (fold_ctable_insert ae_ordinal ae_checkHash x_hashTableEmptyValue (hkey env)); [by rewrite take_drop|..].
    - by rewrite take_drop.
    - rewrite take_drop. lia.
    - apply Forall2_fmap_l. change (Z.to_nat x_hiddenClassBlockSize) with B.
      replace (seq 0 B) with (seq 0 (length (drop total (i_keys iq)))) by (rewrite length_drop; f_equal; lia).
      apply Forall2_seq. intros m g Hg keys t0 Ht0 Hgk Hl0. rewrite take_drop in *.
      pose proof (lookup_lt_Some _ _ _ Hg) as Hm. rewrite length_drop in Hm.
      simpl. assert (s_values s = drop total (i_keys iq)) as ->.
      { rewrite (cl_values _ _ _ _ _ Hc), Hlen. f_equal.
        replace nb with (nb - 1 + 1)%nat by lia. rewrite (proj1 (lim_full (nb - 1))). unfold B in *. lia. }
      rewrite at_slot_nat, Hg. simpl. apply anchor_insert_spec; try done.
      + rewrite lookup_drop in Hg. rewrite <- Hg, <- at_slot_nat. f_equal.
        change x_hiddenClassBlockSize with (Z.of_nat B). lia.
      + change x_hiddenClassBlockSize with (Z.of_nat B). unfold B in *. lia. }
  apply wp_bind. eapply wp_access; [done|]. apply wp_bind, wp_store_anchor, wp_ret.
  assert (allocated h1 (c + 2 ^ k * 2)) as Hal.
  { split; [simpl; fold c; lia|]. rewrite Zplus_mod, Halign, Z.add_0_l, Zmod_mod.
    pose proof (Z.div_mod (2 ^ k) 32 ltac:(lia)). replace (2 ^ k * 2) with (2 ^ k / 32 * 8 * 8) by lia.
    by apply Z.mod_mul. }
  assert (anchors h1 !! (c + 2 ^ k * 2) = None) as Hfresh.
  { change (anchors h1) with (anchors h). eapply fresh_anchor; [done|]. fold c. lia. }
  eapply (HQ _ _ _ k).
  - apply (frame_trans _ h1); [apply frame_alloc; lia|]. by apply frame_add_anchor.
  - by apply inv_add_anchor.
  - done.
  - simpl. apply lookup_insert_eq.
  - split; simpl; try done.
    + rewrite length_app, Hpl. simpl. lia.
    + intros j Hj. destruct (decide (j = nb - 1)%nat) as [->|].
      * exists q, iq. rewrite lookup_app_r, Hpl, Nat.sub_diag by lia. split_and!; [done..|].
        rewrite take_ge; [done|]. rewrite Hlen. unfold B. lia.
      * destruct (Hptr j ltac:(lia)) as (q0 & iq0 & H1 & H2 & H3). exists q0, iq0. split_and!; [|done..].
        rewrite lookup_app_l by lia. done.
  - lia.
  - simpl. fold c. lia.
Qed.

(** ** [Structure::BuildNewAnchorTableIfNecessary] *)

(** A structure that becomes an anchor: all its keys are in the new table. *)
Lemma class_ok_anchor A K s i r a nb ka : class_ok env A K s i -> A !! r = Some a ->
  anchor_ok env K a (i_keys i) nb ka -> r <> 0 ->
  class_ok env A K (with_anchor_and_table s r
    (emptyInlineTable (ComputeHashTableSizeFromHashTableMask (s_inlineHashTableMask s)))) i.
Proof.
  intros Hc Hr Ha Hne. pose proof (an_len _ _ _ _ _ _ Ha) as Hlen.
  destruct (cl_tables _ _ _ _ _ Hc) as (total & k & _ & _ & Hk & Hm & _ & _).
  assert (full (length (i_keys i)) = length (i_keys i)) as Hfull.
  { rewrite Hlen. unfold full. rewrite Nat.div_mul by (unfold B; lia). done. }
  assert (ComputeHashTableSizeFromHashTableMask (s_inlineHashTableMask s) = 2 ^ k) as ->.
  { unfold ComputeHashTableSizeFromHashTableMask. rewrite Hm.
    assert (2 ^ 3 <= 2 ^ k <= 2 ^ 6) by (split; apply Z.pow_le_mono_r; lia).
    rewrite wrapu_small; [lia|]. unfold in_u. pow2. lia. }
  destruct Hc. split; simpl; try done. exists (length (i_keys i)), k. split_and!.
  - right. split; [done|]. exists a, nb, ka. split_and!; [done|by rewrite take_ge|done].
  - left. by rewrite Hfull.
  - lia.
  - lia.
  - done.
  - rewrite Nat.sub_diag. lia.
  - rewrite drop_ge by lia. apply ctable_empty; [lia|done].
Qed.

Lemma BuildNewAnchorTableIfNecessary_spec h K q iq nb (Q : Z -> SysHeap -> Prop) : heap_inv env h K ->
  K !! q = Some iq -> (1 <= nb <= 15)%nat -> length (i_keys iq) = (nb * B)%nat ->
  (forall r h1 a k, frame h h1 -> heap_inv env h1 K ->
     (forall p, p <> q -> structures h1 !! p = structures h !! p) ->
     anchors h1 !! r = Some a -> anchor_ok env K a (i_keys iq) nb k -> r <> 0 ->
     m_systemHeapCurPtr h1 <= m_systemHeapCurPtr h + anchor_cost -> Q r h1) ->
  wp (BuildNewAnchorTableIfNecessary env q) h Q (low h anchor_cost).
Proof.
  intros Hinv Hq Hnb Hlen HQ. destruct (inv_structure env h K Hinv q iq Hq) as (s & Hs & Hc).
  unfold BuildNewAnchorTableIfNecessary. apply wp_bind. eapply wp_load_structure; [done|].
  destruct (cl_tables _ _ _ _ _ Hc) as (total & ki & Hanch & Ht & _).
  pose proof (IsAnchorTableContainsFinalBlock_spec env h K s iq total Hc Hanch Ht) as Hcon.
  apply wp_bind. eapply wp_query; [done|].
  assert (full (nb * B) = (nb * B)%nat) as Hfull by (unfold full; rewrite Nat.div_mul by (unfold B; lia); done).
  rewrite Hlen, Hfull in Ht, Hcon |- *. case_bool_decide as Hcase.
  - apply wp_ret. destruct Hanch as [[_ ->]|(Hne & a & nb0 & k0 & Ha & Haok & Htot)]; [tauto|].
    rewrite take_ge in Haok by lia. assert (nb0 = nb) as -> by (unfold B in *; lia).
    eapply HQ; try done. unfold anchor_cost. lia.
  - apply wp_bind. eapply Anchor_Create_spec; try done.
    intros r h1 a k Hfr Hinv1 Hst Ha Haok Hne Hcur.
    apply wp_bind. eapply wp_load_structure; [by rewrite Hst|].
    apply wp_bind, wp_store_structure, wp_ret.
    pose proof (hi_class _ _ _ Hinv1 q s iq ltac:(by rewrite Hst) Hq) as Hc1.
    apply (HQ r _ a k); try done.
    + eapply frame_trans; [done|]. by apply frame_set_structure with (s := s); [rewrite Hst|].
    + eapply inv_set_structure with (s := s); [done|by rewrite Hst|done|by eapply class_ok_anchor|].
      apply (hi_trans _ _ _ Hinv1 q s). by rewrite Hst.
    + intros p Hp. simpl. rewrite lookup_insert_ne, Hst by done. done.
Qed.
End anchor.
