(* ===== verification/ClassCreate.v ===== *)
(** * Creating a structure for a transition

    [Structure::CreateStructureForTransitionImpl]: the layout it computes is the
    block layout of the new key list, the inline hash table it fills holds exactly
    the keys the anchor table does not, and the new node means what the transition
    says. *)

From S2P Require Import Prelude MiscMath Machine TypeMask ArrayType Butterfly Probing CheckedTable ClassHeap Structure Transition ClassInv ClassLookup ClassFrame ClassAnchor.

(** ** Block arithmetic *)

Lemma blocks_S n :
  ((nonfull n = B /\ nonfull (S n) = 1 /\ lim (S n) = n /\ full (S n) = n /\ full n = n /\ lim n + B = n) \/
   (nonfull n = 15 /\ nonfull (S n) = B /\ lim (S n) = lim n /\ full (S n) = S n /\ full n = lim n) \/
   (nonfull n < 15 /\ nonfull (S n) = S (nonfull n) /\ lim (S n) = lim n /\ full (S n) = lim n /\ full n = lim n))%nat.
Proof.
  unfold lim, full, nonfull, B. destruct n as [|m]; [right; right; vm_compute; lia|].
  pose proof (Nat.div_mod m 16 ltac:(lia)). pose proof (Nat.mod_upper_bound m 16 ltac:(lia)).
  pose proof (Nat.div_mod (S m) 16 ltac:(lia)). pose proof (Nat.mod_upper_bound (S m) 16 ltac:(lia)).
  pose proof (Nat.div_mod (S (S m)) 16 ltac:(lia)). pose proof (Nat.mod_upper_bound (S (S m)) 16 ltac:(lia)).
  lia.
Qed.

(** The size of an inline table for [m] elements. *)
Lemma inline_table_size_spec m : (m <= 32)%nat -> exists k, 3 <= k <= 6 /\
  inline_table_size (Z.of_nat m) = 2 ^ k /\ 2 * Z.of_nat m <= 2 ^ k /\ ((m <= 16)%nat -> k <= 5).
Proof.
  intros Hm. assert (exists j, (j <= 3)%nat /\ let k := 3 + Z.of_nat j in
    (inline_table_size (Z.of_nat m) =? 2 ^ k) && (2 * Z.of_nat m <=? 2 ^ k) && ((16 <? m)%nat || (k <=? 5)) = true)
    as (j & Hj & Hb).
  { exists (Nat.log2_up m - 2)%nat. assert (m ∈ seq 0 33) as Hin by (apply elem_of_seq; lia).
    vm_compute in Hin. set_unfold in Hin.
    repeat destruct Hin as [->|Hin]; try done; (split; [vm_compute; lia|done]). }
  exists (3 + Z.of_nat j). apply andb_true_iff in Hb as [[?%Z.eqb_eq ?%Z.leb_le]%andb_true_iff Hk].
  split_and!; [lia..|done|done|]. intros H16. apply orb_true_iff in Hk as [?%Nat.ltb_lt|?%Z.leb_le]; lia.
Qed.

Lemma mask_of_size k : 3 <= k <= 6 -> u8 (2 ^ k - 1) = 2 ^ k - 1.
Proof.
  intros Hk. assert (2 ^ 3 <= 2 ^ k <= 2 ^ 6) by (split; apply Z.pow_le_mono_r; lia).
  apply wrapu_small. unfold in_u. pow2. lia.
Qed.

(** The new capacity has room for one more slot. *)
Lemma expansion_capacity n inline butterfly : 0 <= inline <= x_maxNumSlots -> n <= x_maxNumSlots ->
  (butterfly = 0 /\ n <= inline) \/ (0 < butterfly /\ inline < n <= inline + butterfly /\ inline + butterfly <= x_maxNumSlots + 1) ->
  let butterfly' := default butterfly (expansion_of n inline butterfly) in
  (butterfly' = 0 /\ n + 1 <= inline) \/
  (0 < butterfly' /\ inline < n + 1 <= inline + butterfly' /\ inline + butterfly' <= x_maxNumSlots + 1).
Proof.
  intros Hi Hn Hc. unfold x_maxNumSlots in *. simpl. unfold expansion_of, ComputeInitialButterflyCapacityForStructure,
    ComputeNextButterflyCapacityForStructure, ClampCapacityForStructure, ComputeNextButterflyCapacityImpl,
    ComputeInitialButterflyCapacityForDictionary, x_butterflyCapacityFromInlineCapacityFactor,
    x_butterflyNamedStorageCapacityGrowthFactor, x_initialMinimumButterflyCapacity, x_maxNumSlots.
  assert (u8 (253 + 1 - inline) = 254 - inline) as -> by (rewrite wrapu_small; [lia|unfold in_u; pow2; lia]).
  destruct (Z.eqb_spec butterfly 0) as [->|Hne].
  - destruct (Z.eqb_spec n inline) as [->|]; simpl; [|lia].
    set (c := Z.max (inline / 2) 4). assert (4 <= c < 128) as Hc4.
    { unfold c. pose proof (Z.div_le_mono inline 253 2 ltac:(lia) ltac:(lia)). change (253 / 2) with 126 in *. lia. }
    destruct (Z.ltb_spec (254 - inline) c); [lia|]. rewrite wrapu_small; [lia|unfold in_u; pow2; lia].
  - assert (u8 (n - inline) = n - inline) as -> by (apply wrapu_small; unfold in_u; pow2; lia).
    destruct (Z.eqb_spec (n - inline) butterfly) as [<-|]; simpl; [|lia].
    rewrite (wrapu_small 32) by (unfold in_u; pow2; lia).
    destruct (Z.ltb_spec (254 - inline) ((n - inline) * 2)); [lia|]. rewrite wrapu_small; [lia|unfold in_u; pow2; lia].
Qed.

(** ** The setup *)

Definition new_keys (ks : list Z) (b : bool) (g : Z) : list Z := if b then ks ++ [g] else ks.

Lemma new_keys_length ks b g : length (new_keys ks b g) = (length ks + if b then 1 else 0)%nat.
Proof. destruct b; simpl; [by rewrite length_app|lia]. Qed.

(** [total] keys of the new node, whose keys are [ks'], are in its anchor. *)
Record setup_ok (env : Env) (A : gmap Z StructureAnchorHashTable) (K : Classes) (this : Structure)
    (ks ks' : list Z) (b contains : bool) (total : nat) (su : TransitionSetup) : Prop := {
  su_total : (total = full (length ks') \/ total + B = full (length ks'))%nat;
  su_total_le : (total <= length ks)%nat;
  su_anchor : forall s', s_anchorHashTable s' = anchorTableForNewNode su -> anchored env A K s' ks' total;
  su_copy : nonFullBlockCopyLengthForNewNode su = Z.of_nat (nonfull (length ks')) - Z.b2z b;
  su_final : hasFinalBlockPointer su = HasFinalFullBlockPointer (Z.of_nat (length ks'));
  su_ptr : hasFinalBlockPointer su = true -> exists q iq,
    HiddenClassOfFullBlockPointer (finalBlockPointerValue su) = q /\ K !! q = Some iq /\
    i_keys iq = take (lim (length ks')) ks';
  su_must : nonFullBlockCopyLengthForNewNode su <> x_hiddenClassBlockSize ->
    if inlineHashTableMustContainFinalBlock su
    then hasFinalBlockPointer su = true /\ (total + B = lim (length ks'))%nat
    else total = lim (length ks');
  su_clone : nonFullBlockCopyLengthForNewNode su = x_hiddenClassBlockSize ->
    inlineHashTableMustContainFinalBlock su = false /\
    (if contains then total = length ks' else (total = lim (length ks') /\ nonfull (length ks') = B)%nat);
  su_memcpy : mayMemcpyOldInlineHashTable su = true ->
    inline_table_size (Z.of_nat (length ks' - total)) - 1 = s_inlineHashTableMask this ->
    exists k, 3 <= k <= 6 /\ s_inlineHashTableMask this = 2 ^ k - 1 /\ lim (length ks') = lim (length ks) /\
      ctable_ok ie_ordinal ie_checkHash x_inlineHashTableEmptyValue (hkey16 env) k (inline_name ks)
        (drop total ks) (s_inlineHashTable this)
}.

Ltac setup_fields := cbn [anchorTableForNewNode nonFullBlockCopyLengthForNewNode hasFinalBlockPointer
  mayMemcpyOldInlineHashTable inlineHashTableMustContainFinalBlock finalBlockPointerValue Z.b2z].

Section create.
Variable env : Env.
Implicit Types (h : SysHeap) (K : Classes).

Lemma anchored_keys A K s s' ks ks' total : s_anchorHashTable s' = s_anchorHashTable s ->
  take total ks' = take total ks -> anchored env A K s ks total -> anchored env A K s' ks' total.
Proof. unfold anchored. intros -> ->. done. Qed.

Lemma take_new_keys ks b g total : (total <= length ks)%nat -> take total (new_keys ks b g) = take total ks.
Proof. intros Hl. destruct b; [by apply take_app_le|done]. Qed.

(** The facts about [this] every case starts from. *)
Record this_ok h K (p : Z) (this : Structure) (i : Info) (total : nat) (k : Z) (contains : bool) : Prop := {
  th_inv : heap_inv env h K;
  th_structure : structures h !! p = Some this;
  th_info : K !! p = Some i;
  th_class : class_ok env (anchors h) K this i;
  th_anchored : anchored env (anchors h) K this (i_keys i) total;
  th_total : (total = full (length (i_keys i)) \/ total + B = full (length (i_keys i)))%nat;
  th_k : 3 <= k <= 6;
  th_mask : s_inlineHashTableMask this = 2 ^ k - 1;
  th_load : 2 * Z.of_nat (length (i_keys i) - total) <= 2 ^ k;
  th_table : ctable_ok ie_ordinal ie_checkHash x_inlineHashTableEmptyValue (hkey16 env) k
    (inline_name (i_keys i)) (drop total (i_keys i)) (s_inlineHashTable this);
  th_contains : IsAnchorTableContainsFinalBlock h this = Some contains;
  th_contains_total : contains = bool_decide (total = full (length (i_keys i)) /\ total <> O)
}.

Lemma this_intro h K p i : heap_inv env h K -> K !! p = Some i ->
  exists this total k contains, this_ok h K p this i total k contains.
Proof.
  intros Hinv Hi. destruct (inv_structure env h K Hinv p i Hi) as (s & Hs & Hc).
  destruct (cl_tables _ _ _ _ _ Hc) as (total & k & Ha & Ht & Hk & Hm & Hl & Hok).
  exists s, total, k, (bool_decide (total = full (length (i_keys i)) /\ total <> O)).
  split; try done. by eapply IsAnchorTableContainsFinalBlock_spec.
Qed.

Lemma th_contains_true h K p this i total k : this_ok h K p this i total k true ->
  total = full (length (i_keys i)) /\ total <> O.
Proof. intros []. symmetry in th_contains_total0. by apply bool_decide_eq_true in th_contains_total0. Qed.

Lemma th_contains_false h K p this i total k : this_ok h K p this i total k false ->
  total = O /\ full (length (i_keys i)) = O \/ (total + B = full (length (i_keys i)))%nat.
Proof.
  intros []. symmetry in th_contains_total0. apply bool_decide_eq_false in th_contains_total0. unfold B in *. lia.
Qed.

(** *** The non-full block is full *)
Lemma setup_full_spec h K p this i total k contains g (Q : TransitionSetup -> SysHeap -> Prop) F :
  this_ok h K p this i total k contains -> nonfull (length (i_keys i)) = B ->
  (forall su, setup_ok env (anchors h) K this (i_keys i) (new_keys (i_keys i) true g) true contains total su -> Q su h) ->
  wp (setup_full p this) h Q F.
Proof.
  intros Hth Hnf HQ. pose proof Hth as []. unfold setup_full. apply wp_bind. eapply wp_query; [done|]. apply wp_ret, HQ.
  destruct (blocks_S (length (i_keys i))) as [(_ & H1 & H2 & H3 & H4 & H5)|Hb]; [|unfold B in *; lia].
  assert (length (new_keys (i_keys i) true g) = S (length (i_keys i))) as Hlen by (rewrite new_keys_length; lia).
  assert (total <= length (i_keys i))%nat as Hle by lia.
  split; rewrite ?Hlen; setup_fields; try done.
  - lia.
  - intros s' Hs'. eapply anchored_keys; [done| |done]. by apply take_new_keys.
  - by rewrite H1.
  - rewrite HasFinalFullBlockPointer_spec, H1. symmetry. apply bool_decide_eq_true. unfold B in *. lia.
  - intros _. exists p, i. split_and!; [unfold HiddenClassOfFullBlockPointer; lia|done|].
    rewrite H2, take_new_keys, take_ge; done.
  - intros _. destruct contains; simpl.
    + destruct (th_contains_true _ _ _ _ _ _ _ Hth). lia.
    + split; [done|]. destruct (th_contains_false _ _ _ _ _ _ _ Hth); unfold B in *; lia.
Qed.

(** *** About to fill the non-full block *)
Lemma setup_filling_spec h K p this i total k contains g (Q : TransitionSetup -> SysHeap -> Prop) :
  this_ok h K p this i total k contains -> nonfull (length (i_keys i)) = 15%nat ->
  (forall su h1 total', frame h h1 -> this_ok h1 K p this i total k contains ->
     m_systemHeapCurPtr h1 <= m_systemHeapCurPtr h + anchor_cost ->
     setup_ok env (anchors h1) K this (i_keys i) (new_keys (i_keys i) true g) true contains total' su -> Q su h1) ->
  wp (setup_filling env p this) h Q (low h anchor_cost).
Proof.
  intros Hth Hnf HQ. pose proof Hth as [].
  destruct (blocks_S (length (i_keys i))) as [Hb|[(_ & H1 & H2 & H3 & H4)|Hb]]; [unfold B in *; lia| |lia].
  assert (length (new_keys (i_keys i) true g) = S (length (i_keys i))) as Hlen by (rewrite new_keys_length; lia).
  pose proof (cl_count _ _ _ _ _ th_class0) as Hcnt. destruct (blocks (length (i_keys i))) as (Hb & m & Hm & _).
  assert (forall A' K' anchor, (forall s', s_anchorHashTable s' = anchor ->
      anchored env A' K' s' (new_keys (i_keys i) true g) (lim (length (i_keys i)))) ->
    setup_ok env A' K' this (i_keys i) (new_keys (i_keys i) true g) true contains (lim (length (i_keys i)))
      (mkSetup anchor (x_hiddenClassBlockSize - 1) false (negb contains) false 0)) as Hsu.
  { intros A' K' anchor Ha. split; rewrite ?Hlen; setup_fields; try done.
    - unfold B in *. lia.
    - lia.
    - by rewrite H1.
    - rewrite HasFinalFullBlockPointer_spec, H1. symmetry. apply bool_decide_eq_false. unfold B in *. lia.
    - rewrite H2. intros Hneg Hsz. exists k. split_and!; [lia..|done|done|].
      destruct contains; [done|]. destruct (th_contains_false _ _ _ _ _ _ _ Hth) as [[-> Hz]|Ht].
      + by rewrite <- H4, Hz.
      + exfalso. rewrite H4 in Ht. destruct (inline_table_size_spec (S (length (i_keys i)) - lim (length (i_keys i))))
          as (k' & Hk' & Hk2 & _ & H16); [lia|].
        rewrite Hk2, th_mask0 in Hsz. assert (2 ^ k' = 2 ^ k) as Heq by lia.
        apply Z.pow_inj_r in Heq; [|lia..]. subst k'. specialize (H16 ltac:(lia)).
        assert (2 ^ k <= 2 ^ 5) by (apply Z.pow_le_mono_r; lia). unfold B in *. pow2. lia. }
  unfold setup_filling. rewrite (cl_numSlots _ _ _ _ _ th_class0). unfold i_count.
  change x_hiddenClassBlockSize with (Z.of_nat B). apply wp_bind.
  destruct (Z.leb_spec (Z.of_nat B) (Z.of_nat (length (i_keys i)))) as [Hge|Hlt].
  - assert (HasFinalFullBlockPointer (i_count i) = true) as Hf.
    { unfold i_count. rewrite HasFinalFullBlockPointer_spec. apply bool_decide_eq_true. unfold B in *. lia. }
    destruct (cl_final _ _ _ _ _ th_class0 Hf) as (q & iq & -> & Hq & Hiq).
    assert (length (i_keys iq) = (m * B)%nat) as Hlq by (rewrite Hiq, length_take; lia).
    assert (1 <= m <= 15)%nat as Hmr by (unfold B in *; lia).
    eapply BuildNewAnchorTableIfNecessary_spec; try done.
    intros r h1 a ka Hfr Hinv1 Hst Ha Haok Hne Hcur.
    assert (p <> q) as Hpq.
    { intros ->. assert (iq = i) as -> by congruence. unfold B in *. lia. }
    assert (structures h1 !! p = Some this) as Hs1 by (by rewrite Hst).
    assert (class_ok env (anchors h1) K this i) as Hc1 by (by eapply hi_class).
    assert (anchored env (anchors h1) K this (i_keys i) total) as Ha1.
    { eapply anchored_mono; [by apply Hfr|done|done]. }
    assert (IsAnchorTableContainsFinalBlock h1 this = Some contains) as Hc1'.
    { rewrite th_contains_total0. by eapply IsAnchorTableContainsFinalBlock_spec. }
    apply wp_bind. eapply wp_query; [done|]. apply wp_ret. eapply HQ; [done| |done|].
    + by split.
    + apply Hsu. intros s' Hs'. right. rewrite Hs'. split; [done|]. exists a, m, ka. split_and!; [done| |done].
      rewrite take_new_keys, <- Hiq by lia. done.
  - apply wp_ret. apply wp_bind. eapply wp_query; [done|]. apply wp_ret. eapply HQ; [done|done|unfold anchor_cost; lia|].
    apply Hsu. intros s' Hs'. left. split; [done|]. unfold B in *. lia.
Qed.

(** *** The general case *)
Lemma setup_general_spec h K p this i total k contains b g (Q : TransitionSetup -> SysHeap -> Prop) F :
  this_ok h K p this i total k contains -> (b = true -> nonfull (length (i_keys i)) < 15)%nat ->
  (forall su total', setup_ok env (anchors h) K this (i_keys i) (new_keys (i_keys i) b g) b contains total' su -> Q su h) ->
  wp (setup_general this) h Q F.
Proof.
  intros Hth Hnf HQ. pose proof Hth as []. set (n := length (i_keys i)) in *.
  set (n' := length (new_keys (i_keys i) b g)).
  assert (nonfull n' = nonfull n + (if b then 1 else 0) /\ lim n' = lim n /\ full n' = full n /\
    (b = true -> full n = lim n))%nat as (H1 & H2 & H3 & H4).
  { unfold n'. rewrite new_keys_length. fold n. destruct b; [|rewrite Nat.add_0_r; split_and!; [lia|done..]].
    rewrite Nat.add_1_r. specialize (Hnf eq_refl). destruct (blocks_S n) as [Hb|[Hb|Hb]]; unfold B in *; lia. }
  assert (n <= n' /\ n' = n + (if b then 1 else 0))%nat as [Hnn Hnn'] by (unfold n'; rewrite new_keys_length; fold n; lia).
  assert (HasFinalFullBlockPointer (Z.of_nat n') = HasFinalFullBlockPointer (Z.of_nat n)) as Hfin.
  { rewrite !HasFinalFullBlockPointer_spec, H1. apply bool_decide_ext. pose proof (nonfull_le n).
    destruct (blocks n) as (Hb & m & Hm & Hcase).
    destruct b; [specialize (Hnf eq_refl); specialize (H4 eq_refl)|]; unfold B in *; lia. }
  pose proof (blocks n) as (Hb & m & Hm & Hcase). pose proof (nonfull_le n) as Hnle.
  unfold setup_general. rewrite (cl_numSlots _ _ _ _ _ th_class0), (cl_nonfull _ _ _ _ _ th_class0).
  change (i_count i) with (Z.of_nat n). fold n.
  assert (HasFinalFullBlockPointer (Z.of_nat n) = true -> exists q iq,
    HiddenClassOfFullBlockPointer (s_finalFullBlock this) = q /\ K !! q = Some iq /\
    i_keys iq = take (lim n') (new_keys (i_keys i) b g)) as Hptr.
  { intros Hf. destruct (cl_final _ _ _ _ _ th_class0 Hf) as (q & iq & H). exists q, iq.
    rewrite H2, take_new_keys by (fold n; lia). done. }
  pose proof HasFinalFullBlockPointer_spec n as Hfs.
  assert (forall (anchor : Z) (must may : bool) (total' : nat), (total' = full n' \/ total' + B = full n')%nat -> (total' <= n)%nat ->
    (forall s', s_anchorHashTable s' = anchor -> anchored env (anchors h) K s' (new_keys (i_keys i) b g) total') ->
    (if must then HasFinalFullBlockPointer (Z.of_nat n) = true /\ total' + B = lim n
     else (total' = lim n /\ (nonfull n = B -> contains = false)) \/ (nonfull n = B /\ contains = true /\ total' = n))%nat ->
    (may = true -> total' = total) ->
    setup_ok env (anchors h) K this (i_keys i) (new_keys (i_keys i) b g) b contains total'
      (mkSetup anchor (Z.of_nat (nonfull n)) (HasFinalFullBlockPointer (Z.of_nat n)) may must
         (if HasFinalFullBlockPointer (Z.of_nat n) then s_finalFullBlock this else 0))) as Hsu.
  { intros anchor must may total' Ht Hle Ha Hmust Hmay. split; fold n'; fold n; setup_fields; try done.
    - rewrite H1. destruct b; simpl; lia.
    - intros Hf. rewrite Hf in *. by apply Hptr.
    - change x_hiddenClassBlockSize with (Z.of_nat B). intros Hc. rewrite H2. destruct must; [done|].
      destruct Hmust as [[? _]|[? _]]; [done|lia].
    - change x_hiddenClassBlockSize with (Z.of_nat B). intros Hc. assert (nonfull n = B) as Hc' by lia.
      destruct must; [destruct Hmust as [Hf _]; rewrite Hfs in Hf; apply bool_decide_eq_true in Hf; lia|].
      split; [done|]. destruct contains.
      + destruct (th_contains_true _ _ _ _ _ _ _ Hth) as [Htt _].
        destruct b; [specialize (Hnf eq_refl); unfold B in *; lia|].
        destruct Hmust as [[_ Hl]|[_ [_ ->]]]; [by specialize (Hl Hc')|lia].
      + split; [|destruct b; [specialize (Hnf eq_refl); unfold B in *; lia|lia]].
        rewrite H2. destruct Hmust as [[? _]|[_ [? _]]]; done.
    - intros Hm' _. rewrite (Hmay Hm'). exists k. split_and!; try done; lia. }
  apply wp_bind. eapply wp_query; [done|]. destruct contains.
  - destruct (th_contains_true _ _ _ _ _ _ _ Hth) as [Htt _]. fold n in Htt.
    apply wp_ret. apply (HQ _ total), Hsu; [lia|lia| | |done].
    + intros s' Hs'. eapply anchored_keys; [done| |done]. apply take_new_keys. fold n. lia.
    + destruct Hcase as [[? ?]|[? ?]]; [left; split; lia|right; split_and!; [done..|lia]].
  - pose proof (th_contains_false _ _ _ _ _ _ _ Hth) as Htt. fold n in Htt.
    assert (total <= n)%nat as Hle by lia.
    apply wp_bind. destruct (HasFinalFullBlockPointer (Z.of_nat n)) eqn:Hf.
    + symmetry in Hfs. apply bool_decide_eq_true in Hfs. destruct (Hptr eq_refl) as (q & iq & -> & Hq & Hiq).
      destruct (inv_structure env h K th_inv0 q iq Hq) as (sq & Hsq & Hcq).
      apply wp_bind. eapply wp_load_structure; [done|].
      destruct (cl_tables _ _ _ _ _ Hcq) as (tq & kq & Haq & Htq & _).
      pose proof (IsAnchorTableContainsFinalBlock_spec env h K sq iq tq Hcq Haq Htq) as Hconq.
      apply wp_bind. eapply wp_query; [done|]. apply wp_ret.
      assert (length (i_keys iq) = lim n) as Hlq.
      { rewrite Hiq, length_take. fold n'. rewrite H2. lia. }
      assert (full (length (i_keys iq)) = lim n) as Hfq.
      { rewrite Hlq, Hm. unfold full. rewrite Nat.div_mul by (unfold B; lia). done. }
      case_bool_decide as Hcb.
      * apply wp_ret. apply (HQ _ (lim n)), Hsu; [|lia| |by left|done].
        { left. rewrite H3. lia. }
        intros s' Hs'. eapply anchored_keys; [done| |exact Haq || (replace (lim n) with tq by lia; exact Haq)].
        rewrite Hiq, H2, take_take. f_equal. lia.
      * apply wp_ret. apply (HQ _ total), Hsu; [lia|done| | |done].
        { intros s' Hs'. eapply anchored_keys; [done| |done]. by apply take_new_keys. }
        split; [done|]. destruct Htt as [[-> Hz]|?]; unfold B in *; lia.
    + apply wp_ret. apply wp_ret. apply (HQ _ total), Hsu; [lia|done| | |done].
      { intros s' Hs'. eapply anchored_keys; [done| |done]. by apply take_new_keys. }
      symmetry in Hfs. apply bool_decide_eq_false in Hfs. unfold B in *. lia.
Qed.

Lemma transition_setup_spec h K p this i total k contains b g (Q : TransitionSetup -> SysHeap -> Prop) :
  this_ok h K p this i total k contains ->
  (forall su h1 total', frame h h1 -> this_ok h1 K p this i total k contains ->
     m_systemHeapCurPtr h1 <= m_systemHeapCurPtr h + anchor_cost ->
     setup_ok env (anchors h1) K this (i_keys i) (new_keys (i_keys i) b g) b contains total' su -> Q su h1) ->
  wp (transition_setup env p this b) h Q (low h anchor_cost).
Proof.
  intros Hth HQ. pose proof Hth as []. unfold transition_setup. rewrite (cl_nonfull _ _ _ _ _ th_class0).
  change x_hiddenClassBlockSize with (Z.of_nat B).
  assert (m_systemHeapCurPtr h <= m_systemHeapCurPtr h + anchor_cost) as Hle by (unfold anchor_cost; lia).
  pose proof (nonfull_le (length (i_keys i))) as Hn. unfold B in *.
  destruct b; simpl.
  - destruct (Z.eqb_spec (Z.of_nat (nonfull (length (i_keys i)))) (Z.of_nat 16 - 1)).
    { eapply setup_filling_spec; [done|lia|done]. }
    destruct (Z.eqb_spec (Z.of_nat (nonfull (length (i_keys i)))) (Z.of_nat 16)).
    { eapply (setup_full_spec _ _ _ _ _ _ _ _ g); [done|unfold B; lia|eauto]. }
    eapply (setup_general_spec _ _ _ _ _ _ _ _ true g); [done|lia|eauto].
  - eapply (setup_general_spec _ _ _ _ _ _ _ _ false g); [done|done|eauto].
Qed.

(** ** The inline hash table *)

Abbreviation inline_table := (ctable_ok ie_ordinal ie_checkHash x_inlineHashTableEmptyValue (hkey16 env)).

Lemma inline_insert_spec k name keys t g o : inline_table k name keys t -> g ∉ keys ->
  Z.of_nat (length keys) < 2 ^ k -> name o = Some g -> - Z.of_nat B <= o < Z.of_nat B ->
  exists t', inline_insert env (- 2 ^ k) (GeneralHeapPointer_As g) o t = Some t' /\ inline_table k name (keys ++ [g]) t'.
Proof.
  intros Hok Hg Hl Hn Ho. unfold inline_insert. fold (hkey env g). fold (hkey16 env g).
  assert (i8 o = o) as Hu by (apply wraps_small; [lia|unfold in_i, B in *; pow2; lia]).
  destruct (ctable_insert _ _ _ _ _ _ _ _ Hok
    (fun e => if ie_ordinal e =? x_inlineHashTableEmptyValue then Some tt else None) g o
    (mkInlineEntry (u8 (hkey16 env g)) (i8 o)) Hl Hg) as (s & t' & Hp & Hs & Hok').
  - done.
  - done.
  - done.
  - unfold x_inlineHashTableEmptyValue, B in *. lia.
  - done.
  - rewrite Hp. simpl. by exists t'.
Qed.

(** One of the two loops: the keys at the ordinals from [from] on. *)
Lemma inline_fold_spec read k ks keys gs t (from : Z) : inline_table k (inline_name ks) keys t ->
  NoDup (keys ++ gs) -> Z.of_nat (length (keys ++ gs)) <= 2 ^ k ->
  - Z.of_nat B <= from -> from + Z.of_nat (length gs) <= Z.of_nat B ->
  (forall m g, gs !! m = Some g -> read (from + Z.of_nat m) = Some g /\ inline_name ks (from + Z.of_nat m) = Some g) ->
  exists t', foldl (inline_insert_step env (- 2 ^ k) read) (Some t) (ordinals from (length gs)) = Some t' /\
    inline_table k (inline_name ks) (keys ++ gs) t'.
Proof.
  intros Hok Hnd Hl Hf1 Hf2 Hread. eapply fold_ctable_insert; [done..|]. apply Forall2_fmap_l, Forall2_seq.
  intros m g Hg keys' t' Ht' Hgk Hlen. rewrite Nat.add_0_l. destruct (Hread m g Hg) as [H1 H2].
  pose proof (lookup_lt_Some _ _ _ Hg). unfold inline_insert_step. cbn [mbind option_bind]. rewrite H1.
  cbn [mbind option_bind]. by apply inline_insert_spec; [..|lia].
Qed.

(** The two loops on the empty table. *)
Lemma inline_rebuild_spec h K r ks' total k (must : bool) : heap_inv env h K -> NoDup ks' ->
  s_values r = drop (lim (length ks')) ks' ->
  s_nonFullBlockLen r = Z.of_nat (nonfull (length ks')) ->
  (must = true -> exists q iq, HiddenClassOfFullBlockPointer (s_finalFullBlock r) = q /\ K !! q = Some iq /\
    i_keys iq = take (lim (length ks')) ks') ->
  (if must then total + B = lim (length ks') else total = lim (length ks'))%nat ->
  2 * Z.of_nat (length ks' - total) <= 2 ^ k -> 0 <= k ->
  exists t, foldl (inline_insert_step env (- 2 ^ k) (at_slot (s_values r)))
    (if must then
       foldl (inline_insert_step env (- 2 ^ k) (load_block_end h (s_finalFullBlock r)))
         (Some (emptyInlineTable (2 ^ k))) (ordinals (- x_hiddenClassBlockSize) (Z.to_nat x_hiddenClassBlockSize))
     else Some (emptyInlineTable (2 ^ k)))
    (ordinals 0 (Z.to_nat (s_nonFullBlockLen r))) = Some t /\
    inline_table k (inline_name ks') (drop total ks') t.
Proof.
  intros Hinv Hnd Hval Hnf Hptr Ht Hl Hk. rewrite Hnf, Nat2Z.id.
  pose proof (nonfull_le (length ks')) as Hle. destruct (blocks (length ks')) as (Hb & m & Hm & _).
  assert (forall o, 0 <= o -> at_slot (s_values r) o = inline_name ks' o) as Hread.
  { intros o Ho. rewrite Hval. by apply at_slot_drop. }
  assert (inline_table k (inline_name ks') [] (emptyInlineTable (2 ^ k))) as H0 by (by apply ctable_empty).
  assert (exists t0, (if must then
       foldl (inline_insert_step env (- 2 ^ k) (load_block_end h (s_finalFullBlock r)))
         (Some (emptyInlineTable (2 ^ k))) (ordinals (- x_hiddenClassBlockSize) (Z.to_nat x_hiddenClassBlockSize))
     else Some (emptyInlineTable (2 ^ k))) = Some t0 /\
     inline_table k (inline_name ks') (take (lim (length ks') - total) (drop total ks')) t0) as (t0 & -> & Hok0).
  { destruct must.
    - destruct (Hptr eq_refl) as (q & iq & Hq & HKq & Hiq).
      change (Z.to_nat x_hiddenClassBlockSize) with B. change x_hiddenClassBlockSize with (Z.of_nat B).
      replace (lim (length ks') - total)%nat with B by lia.
      assert (length (take B (drop total ks')) = B) as HlB by (rewrite length_take, length_drop; lia).
      replace (ordinals (- Z.of_nat B) B) with (ordinals (- Z.of_nat B) (length (take B (drop total ks')))) by (by rewrite HlB).
      rewrite <- (app_nil_l (take B _)).
      apply inline_fold_spec; [done| | |lia|rewrite HlB; lia|].
      + rewrite app_nil_l. apply NoDup_take, NoDup_drop, Hnd.
      + rewrite app_nil_l, HlB. lia.
      + intros j g Hg. rewrite lookup_take_Some, lookup_drop in Hg. destruct Hg as [Hg Hj].
        assert (inline_name ks' (- Z.of_nat B + Z.of_nat j) = Some g) as Hn.
        { unfold inline_name. rewrite <- Hg, <- at_slot_nat. f_equal. lia. }
        split; [|done]. unfold load_block_end. rewrite Hq.
        destruct (inv_structure env h K Hinv q iq HKq) as (sq & -> & Hcq). simpl.
        change x_hiddenClassBlockSize with (Z.of_nat B). rewrite (values_spec env h K sq iq _ Hcq) by lia.
        rewrite Hiq, length_take, Nat.min_l, Hm by lia. destruct m as [|m]; [unfold B in *; lia|].
        replace (S m * B)%nat with ((m + 1) * B)%nat by lia. rewrite (proj1 (lim_full m)).
        rewrite at_slot_take by (unfold B in *; lia). rewrite <- Hg, <- at_slot_nat. f_equal. unfold B in *. lia.
    - exists (emptyInlineTable (2 ^ k)). split; [done|]. by rewrite Ht, Nat.sub_diag, take_0. }
  replace (ordinals 0 (nonfull (length ks'))) with (ordinals 0 (length (drop (lim (length ks')) ks')))
    by (rewrite length_drop; f_equal; lia).
  assert (drop total ks' = take (lim (length ks') - total) (drop total ks') ++ drop (lim (length ks')) ks') as Hsplit.
  { rewrite <- (take_drop (lim (length ks') - total) (drop total ks')) at 1. f_equal. rewrite drop_drop.
    f_equal. destruct must; lia. }
  rewrite Hsplit. apply inline_fold_spec; [done| | |unfold B; lia|rewrite length_drop; unfold B in *; lia|].
  - rewrite <- Hsplit. by apply NoDup_drop.
  - rewrite <- Hsplit, length_drop. lia.
  - intros j g Hg. rewrite lookup_drop in Hg. rewrite Hread by lia.
    assert (inline_name ks' (0 + Z.of_nat j) = Some g) as ->; [|done].
    unfold inline_name. rewrite <- Hg, <- at_slot_nat. f_equal. lia.
Qed.

(** ** The new node *)

Definition adds_slot (kind : SlotAdditionKind) : bool := negb (bool_decide (kind = NoSlotAdded)).

(** What the new node means. *)
Definition created (p : Z) (i : Info) (kind : SlotAdditionKind) (g : Z) : Info :=
  if adds_slot kind then add_info env p i kind g
  else clone_info p i BadTransitionKind (i_metatable i) (i_arrayType i).

(** When the transition is allowed (the assertions at the top of the function). *)
Definition may_create (i : Info) (kind : SlotAdditionKind) (key : Z) : Prop :=
  match kind with
  | AddSlotForProperty => user_key key /\ GeneralHeapPointer key <> special env /\
      GeneralHeapPointer key ∉ i_keys i /\ i_count i < x_maxNumSlots
  | AddSlotForPolyMetatable => key = GetSpecialKeyForMetadataSlot env /\ user_key key /\ i_metatable i <= 0
  | NoSlotAdded => True
  end.

Lemma created_keys p i kind g : i_keys (created p i kind g) = new_keys (i_keys i) (adds_slot kind) g.
Proof. unfold created, new_keys. by destruct (adds_slot kind). Qed.

(** The key list of the new node is one of a structure. *)
Lemma created_keys_ok A K s i kind key : class_ok env A K s i -> may_create i kind key ->
  let ks' := new_keys (i_keys i) (adds_slot kind) (GeneralHeapPointer key) in
  NoDup ks' /\ (length ks' <= 254)%nat /\ Forall valid_key ks' /\
  (adds_slot kind = true -> GeneralHeapPointer_As (GeneralHeapPointer key) = key /\
     GeneralHeapPointer key ∉ i_keys i).
Proof.
  intros [] Hm. unfold may_create in Hm. unfold i_count, x_maxNumSlots in *.
  assert (adds_slot kind = true -> user_key key /\ GeneralHeapPointer key ∉ i_keys i /\ (length (i_keys i) <= 253)%nat) as Hadd.
  { destruct kind; intros Ha; [| |done].
    - destruct Hm as (? & _ & ? & ?). split_and!; [done..|lia].
    - destruct Hm as (-> & ? & Hmt). destruct cl_poly as [(_ & Hs & Hc)|[? _]]; [|lia]. split_and!; [done..|lia]. }
  destruct (adds_slot kind); simpl.
  - destruct (Hadd eq_refl) as (Hu & Hn & Hc). destruct (user_key_spec key Hu) as [Hv Has]. split_and!.
    + apply NoDup_app. split_and!; [done| |by apply NoDup_singleton]. by intros x Hx ->%list_elem_of_singleton.
    + rewrite length_app. simpl. lia.
    + apply Forall_app. split; [done|]. by apply Forall_singleton.
    + done.
  - split_and!; done.
Qed.

Lemma inline_element_count_spec A K this ks ks' b contains total su : setup_ok env A K this ks ks' b contains total su ->
  inline_element_count su b contains = Z.of_nat (length ks' - total) /\ (length ks' - total <= 32)%nat /\ (total <= length ks')%nat.
Proof.
  intros []. pose proof (nonfull_le (length ks')) as Hle. destruct (blocks (length ks')) as (Hb & m & Hm & Hcase).
  unfold inline_element_count. rewrite su_copy0 in *. change x_hiddenClassBlockSize with (Z.of_nat B) in *.
  assert (total <= length ks' /\ length ks' - total <= 32)%nat as [? ?] by (unfold B in *; lia).
  destruct (Z.eqb_spec (Z.of_nat (nonfull (length ks')) - Z.b2z b) (Z.of_nat B)) as [E|E]; simpl.
  - destruct (su_clone0 E) as [_ Hc]. destruct contains; simpl; split_and!; try done; lia.
  - specialize (su_must0 E). destruct (inlineHashTableMustContainFinalBlock su).
    + destruct su_must0 as [-> Ht]. simpl. split_and!; try done. lia.
    + rewrite andb_false_r. split_and!; try done; lia.
Qed.

Section node.
Variables (h : SysHeap) (K : Classes) (p : Z) (this : Structure) (i : Info) (total : nat) (k : Z) (contains : bool).
Variables (kind : SlotAdditionKind) (key : Z) (su : TransitionSetup) (total' : nat) (kt : Z).
Let g := GeneralHeapPointer key.
Let b := adds_slot kind.
Let ks' := new_keys (i_keys i) b g.
Hypothesis this_is : this_ok h K p this i total k contains.
Hypothesis su_is : setup_ok env (anchors h) K this (i_keys i) ks' b contains total' su.
Hypothesis may : may_create i kind key.
Hypothesis kt_range : 3 <= kt <= 6.
Hypothesis kt_size : inline_table_size (Z.of_nat (length ks' - total')) = 2 ^ kt.
Hypothesis kt_load : 2 * Z.of_nat (length ks' - total') <= 2 ^ kt.
Let node := new_node env p this su kind key (2 ^ kt).

Lemma node_keys_ok : NoDup ks' /\ (length ks' <= 254)%nat /\ Forall valid_key ks' /\
  (b = true -> GeneralHeapPointer_As g = key /\ g ∉ i_keys i).
Proof. eapply created_keys_ok; [apply (th_class _ _ _ _ _ _ _ _ this_is)|done]. Qed.

Lemma node_nonfull : s_nonFullBlockLen node = Z.of_nat (nonfull (length ks')).
Proof.
  unfold node, new_node. cbn [s_nonFullBlockLen]. fold (adds_slot kind). fold b. rewrite (su_copy _ _ _ _ _ _ _ _ _ _ su_is).
  pose proof (nonfull_le (length ks')). rewrite wrapu_small; [lia|]. unfold in_u, B in *. pow2. lia.
Qed.

Lemma node_values : s_values node = drop (lim (length ks')) ks'.
Proof.
  unfold node, new_node. cbn [s_values]. fold (adds_slot kind). fold b g. rewrite (su_copy _ _ _ _ _ _ _ _ _ _ su_is).
  rewrite (cl_values _ _ _ _ _ (th_class _ _ _ _ _ _ _ _ this_is)).
  destruct (blocks (length (i_keys i))) as (Hb & _). unfold ks'. rewrite new_keys_length. unfold new_keys.
  destruct b; simpl.
  - rewrite Nat.add_1_r. destruct (blocks_S (length (i_keys i))) as [(H1 & H2 & H3 & _)|Hc].
    + rewrite H2, H3. simpl. rewrite drop_app_length. done.
    + assert (lim (S (length (i_keys i))) = lim (length (i_keys i)) /\
        nonfull (S (length (i_keys i))) = S (nonfull (length (i_keys i)))) as [-> ->] by (unfold B in *; lia).
      rewrite take_ge by (rewrite length_drop; lia). rewrite drop_app_le by lia. done.
  - rewrite Nat.add_0_r, take_ge; [done|]. rewrite length_drop. lia.
Qed.

Lemma node_final : hasFinalBlockPointer su = true -> exists q iq,
  HiddenClassOfFullBlockPointer (s_finalFullBlock node) = q /\ K !! q = Some iq /\ i_keys iq = take (lim (length ks')) ks'.
Proof.
  intros Hf. unfold node, new_node. cbn [s_finalFullBlock]. rewrite Hf. by apply (su_ptr _ _ _ _ _ _ _ _ _ _ su_is).
Qed.

Lemma populate_inline_table_spec : exists t,
  populate_inline_table env h this node su b contains key (2 ^ kt) = Some t /\
  inline_table kt (inline_name ks') (drop total' ks') t.
Proof.
  destruct node_keys_ok as (Hnd & Hcnt & _ & Hg). pose proof su_is as [].
  unfold populate_inline_table. rewrite mask_of_size by done.
  replace (Z.lnot (2 ^ kt - 1)) with (- 2 ^ kt) by (unfold Z.lnot; lia).
  destruct (mayMemcpyOldInlineHashTable su && (2 ^ kt - 1 =? s_inlineHashTableMask this)) eqn:Emem.
  - apply andb_true_iff in Emem as [Hm Hsz%Z.eqb_eq].
    destruct (su_memcpy0 Hm) as (k1 & Hk1 & Hmask & Hlim & Hok); [by rewrite kt_size|].
    assert (k1 = kt) as -> by (assert (2 ^ k1 = 2 ^ kt) as E by lia; apply Z.pow_inj_r in E; lia).
    assert (inline_table kt (inline_name ks') (drop total' (i_keys i)) (s_inlineHashTable this)) as Hok'.
    { eapply ctable_ext; [|done]. intros o x Ho _. unfold inline_name in *. rewrite Hlim.
      unfold ks', new_keys. destruct b; [by apply at_slot_app_l|done]. }
    destruct b eqn:Eb; [|by eexists].
    destruct (Hg eq_refl) as [Has Hgn]. rewrite <- Has.
    assert (drop total' ks' = drop total' (i_keys i) ++ [g]) as ->.
    { unfold ks'. simpl. by rewrite drop_app_le. }
    assert (length ks' = S (length (i_keys i))) as Hlen by (unfold ks'; rewrite new_keys_length; lia).
    assert (0 < nonfull (length ks') <= B /\ length ks' = lim (length ks') + nonfull (length ks'))%nat as [Hn Hb].
    { pose proof (nonfull_le (length ks')). destruct (blocks (length ks')) as (Hb & _). lia. }
    rewrite su_copy0. apply inline_insert_spec; [done| | | |unfold B in *; simpl; lia].
    + intros Hx. apply Hgn. rewrite <- (take_drop total' (i_keys i)). apply elem_of_app. by right.
    + rewrite length_drop. lia.
    + unfold inline_name. replace (_ + _) with (Z.of_nat (length (i_keys i))) by (simpl; lia).
      rewrite at_slot_nat. unfold ks', new_keys. by rewrite lookup_app_r, Nat.sub_diag.
  - destruct ((nonFullBlockCopyLengthForNewNode su =? x_hiddenClassBlockSize) && contains) eqn:Eskip.
    + apply andb_true_iff in Eskip as [Hc%Z.eqb_eq ->]. destruct (su_clone0 Hc) as [-> ->].
      exists (emptyInlineTable (2 ^ kt)). split; [done|]. rewrite drop_ge by done. by apply ctable_empty; [lia|].
    + apply inline_rebuild_spec with (K := K); [apply this_is|done|apply node_values|apply node_nonfull| | |done|lia].
      * intros Hmust. apply node_final. destruct (decide (nonFullBlockCopyLengthForNewNode su = x_hiddenClassBlockSize)) as [E|E].
        -- destruct (su_clone0 E). congruence.
        -- specialize (su_must0 E). rewrite Hmust in su_must0. apply su_must0.
      * destruct (decide (nonFullBlockCopyLengthForNewNode su = x_hiddenClassBlockSize)) as [E|E].
        -- rewrite E, Z.eqb_refl in Eskip. destruct (su_clone0 E) as [-> Hc]. simpl in Eskip. rewrite Eskip in Hc. apply Hc.
        -- specialize (su_must0 E). destruct (inlineHashTableMustContainFinalBlock su); [apply su_must0|done].
Qed.

(** *** The new node satisfies the invariant *)

Let i' := created p i kind g.

Lemma node_capacity :
  (i_butterfly i' = 0 /\ i_count i' <= i_inline i') \/
  (0 < i_butterfly i' /\ i_inline i' < i_count i' <= i_inline i' + i_butterfly i' /\
   i_inline i' + i_butterfly i' <= x_maxNumSlots + 1).
Proof.
  pose proof (th_class _ _ _ _ _ _ _ _ this_is) as [].
  assert (i_count i' <= 254) as Hc.
  { destruct node_keys_ok as (_ & Hc & _). unfold i_count, i'. rewrite created_keys. fold b ks'. lia. }
  assert (i_count i' = i_count i + Z.b2z b) as Hn.
  { unfold i_count, i'. rewrite created_keys, new_keys_length. fold b. destruct b; simpl; lia. }
  rewrite Hn in *. unfold i', created in *. fold b in Hn |- *. destruct b; simpl in *; [|by rewrite Z.add_0_r].
  unfold x_maxNumSlots in *. pose proof (expansion_capacity (i_count i) (i_inline i) (i_butterfly i)) as He.
  unfold x_maxNumSlots in He. unfold i_count in *. lia.
Qed.

Lemma node_poly :
  (i_metatable i' <= 0 /\ special env ∉ i_keys i' /\ i_count i' <= x_maxNumSlots) \/
  (0 < i_metatable i' /\ at_slot (i_keys i') (i_metatable i' - 1) = Some (special env)).
Proof.
  pose proof (th_class _ _ _ _ _ _ _ _ this_is) as [].
  assert (i_keys i' = new_keys (i_keys i) b g) as Hk by apply created_keys.
  unfold i_count. rewrite Hk, new_keys_length. unfold i', created, adds_slot, b, g in *.
  unfold may_create in may. unfold i_count in *. destruct kind; simpl in *.
  - destruct may as (_ & Hs & _ & Hlt). destruct cl_poly as [(? & ? & ?)|[? ?]]; [left|right].
    + split_and!; [done| |lia]. rewrite elem_of_app, list_elem_of_singleton. naive_solver.
    + split; [done|]. by apply at_slot_app_l.
  - destruct may as (-> & _ & Hm). right. unfold i_count. split; [lia|].
    replace (_ + 1 - 1) with (Z.of_nat (length (i_keys i))) by lia.
    rewrite at_slot_nat, lookup_app_r, Nat.sub_diag by lia. done.
  - rewrite Nat.add_0_r. destruct cl_poly as [(? & ? & ?)|?]; [by left|by right].
Qed.

Lemma node_ok t : inline_table kt (inline_name ks') (drop total' ks') t ->
  class_ok env (anchors h) K (with_inlineTable node t) i'.
Proof.
  intros Ht. pose proof (th_class _ _ _ _ _ _ _ _ this_is) as Hthis. pose proof Hthis as [].
  destruct node_keys_ok as (Hnd & Hcnt & Hval & Hg).
  assert (i_keys i' = ks') as Hk by apply created_keys.
  assert (length ks' = length (i_keys i) + (if b then 1 else 0))%nat as Hlen by apply new_keys_length.
  split; unfold i_count; rewrite ?Hk; try done.
  - unfold with_inlineTable, with_anchor_and_table, node, new_node. cbn [s_numSlots]. fold (adds_slot kind). fold b.
    rewrite cl_numSlots. unfold i_count. rewrite wrapu_small; [destruct b; simpl; lia|].
    unfold in_u. pow2. destruct b; simpl; lia.
  - apply node_nonfull.
  - apply node_values.
  - intros Hf. apply node_final. by rewrite (su_final _ _ _ _ _ _ _ _ _ _ su_is).
  - exists total', kt. split_and!; try done; try lia.
    + by apply (su_anchor _ _ _ _ _ _ _ _ _ _ su_is).
    + by apply (su_total _ _ _ _ _ _ _ _ _ _ su_is).
    + unfold with_inlineTable, node, new_node. simpl. by rewrite mask_of_size.
  - simpl. rewrite cl_inline. unfold i', created. by destruct (adds_slot kind).
  - unfold i', created. by destruct (adds_slot kind).
  - unfold with_inlineTable, node, new_node. simpl. fold (adds_slot kind). unfold i', created. fold b.
    unfold butterfly_expansion. rewrite cl_numSlots, cl_butterfly, cl_inline. by destruct b.
  - pose proof node_capacity as H. unfold i_count in H. by rewrite Hk in H.
  - simpl. rewrite cl_arrayType. unfold i', created, b, adds_slot. by destruct kind.
  - unfold i', created, adds_slot. destruct kind; simpl; [done| |done]. by apply useful_SetMayHaveMetatable.
  - simpl. rewrite cl_metatable, cl_numSlots. unfold i', created, b, adds_slot. destruct kind; simpl; [done| |done].
    rewrite wrapu_small; [done|]. unfold i_count, in_u, b, adds_slot in *. simpl in *. pow2. lia.
  - pose proof node_poly as H. unfold i_count in H. by rewrite Hk in H.
  - simpl. unfold known_nonexistent. rewrite cl_nonexistent. unfold i', created, b, adds_slot in *.
    destruct kind; simpl in *; [|done|done]. destruct (Hg eq_refl) as [-> _]. done.
  - simpl. fold (adds_slot kind). unfold i', created. fold b. unfold butterfly_expansion.
    rewrite cl_numSlots, cl_butterfly, cl_inline. unfold b, adds_slot. destruct kind; simpl; try done.
  - simpl. unfold i', created. by destruct (adds_slot kind).
Qed.
End node.

(** *** [CreateStructureForTransitionImpl] *)

Definition create_cost : Z := 1500.

(** What the function has done when it returns [r]: everything but the store of
    the new node happened in a heap that still satisfies the invariant. *)
Record created_post h K (p : Z) (i : Info) (kind : SlotAdditionKind) (key r : Z) (h2 : SysHeap)
    (h1 : SysHeap) (node : Structure) : Prop := {
  cp_frame : frame h h1;
  cp_inv : heap_inv env h1 K;
  cp_fresh : K !! r = None;
  cp_fresh_d : dictionaries h1 !! r = None;
  cp_alloc : allocated h1 r;
  cp_class : class_ok env (anchors h1) K node (created p i kind (GeneralHeapPointer key));
  cp_tt : s_transitionTable node = 0;
  cp_heap : h2 = with_structures h1 (<[r := node]> (structures h1));
  cp_cur : m_systemHeapCurPtr h1 <= m_systemHeapCurPtr h + create_cost
}.

Lemma CreateStructureForTransitionImpl_spec h K p i kind key (Q : Z -> SysHeap -> Prop) :
  heap_inv env h K -> K !! p = Some i -> may_create i kind key ->
  (forall r h2 h1 node, created_post h K p i kind key r h2 h1 node -> Q r h2) ->
  wp (CreateStructureForTransitionImpl env p kind key) h Q (low h create_cost).
Proof.
  intros Hinv Hi Hmay HQ. destruct (this_intro h K p i Hinv Hi) as (this & total & k & contains & Hth).
  unfold CreateStructureForTransitionImpl. fold (adds_slot kind).
  apply wp_bind. eapply wp_load_structure; [apply Hth|]. apply wp_bind.
  eapply wp_mono; [eapply (transition_setup_spec _ _ _ _ _ _ _ _ _ (GeneralHeapPointer key)
    (fun su h1 => exists total', frame h h1 /\ this_ok h1 K p this i total k contains /\
       m_systemHeapCurPtr h1 <= m_systemHeapCurPtr h + anchor_cost /\
       setup_ok env (anchors h1) K this (i_keys i) (new_keys (i_keys i) (adds_slot kind) (GeneralHeapPointer key))
         (adds_slot kind) contains total' su)); [done|]|..].
  { intros su h1 total' H1 H2 H3 H4. eauto. }
  2: { apply low_mono. unfold anchor_cost, create_cost. lia. }
  intros su h1 (total' & Hfr & Hth1 & Hcur & Hsu).
  apply wp_bind. eapply wp_load_structure; [apply Hth1|].
  apply wp_bind. eapply wp_query; [apply Hth1|].
  destruct (inline_element_count_spec _ _ _ _ _ _ _ _ _ Hsu) as (-> & Hle & _).
  destruct (inline_table_size_spec _ Hle) as (kt & Hkt & Hsz & Hload & _). rewrite Hsz.
  assert (8 <= 2 ^ kt <= 64 /\ 2 ^ kt mod 8 = 0) as [H2k H8].
  { assert (kt ∈ [3;4;5;6]) as Hin by (set_unfold; lia). set_unfold in Hin.
    repeat destruct Hin as [->|Hin]; try done; vm_compute; repeat split; discriminate. }
  set (ks' := new_keys (i_keys i) (adds_slot kind) (GeneralHeapPointer key)) in *.
  pose proof (th_class _ _ _ _ _ _ _ _ Hth1) as Hc1.
  destruct (created_keys_ok _ _ _ _ _ _ Hc1 Hmay) as (_ & Hcnt & _). fold ks' in Hcnt.
  assert (u8 (s_numSlots this + Z.b2z (adds_slot kind)) = Z.of_nat (length ks')) as ->.
  { rewrite (cl_numSlots _ _ _ _ _ Hc1). unfold ks', i_count. unfold ks' in Hcnt.
    rewrite new_keys_length in Hcnt |- *. rewrite wrapu_small; [destruct (adds_slot kind); simpl; lia|].
    unfold in_u. pow2. destruct (adds_slot kind); simpl; lia. }
  set (tr := ComputeTrailingVarLengthArrayLengthBytes (Z.of_nat (length ks'))).
  assert (0 <= tr <= 68) as Htr.
  { unfold tr, ComputeTrailingVarLengthArrayLengthBytes. rewrite ComputeNonFullBlockLength_spec by done.
    pose proof (nonfull_le (length ks')). unfold B in *. destruct (HasFinalFullBlockPointer _); lia. }
  change OffsetOfTrailingVarLengthArray with 28.
  set (len := RoundUpToMultipleOf 32 8 (2 * 2 ^ kt + 28 + tr)).
  assert (0 < len <= 300 /\ len mod 8 = 0 /\ 2 * 2 ^ kt < len) as (Hlb & Hl8 & Hlk).
  { unfold len. rewrite RoundUp_eq by (pow2; lia). rewrite Z.mod_mul by lia.
    pose proof (Z.div_mod (2 * 2 ^ kt + 28 + tr + 8 - 1) 8 ltac:(lia)).
    pose proof (Z.mod_pos_bound (2 * 2 ^ kt + 28 + tr + 8 - 1) 8 ltac:(lia)). lia. }
  apply wp_bind. eapply wp_mono; [apply AllocFromSystemHeap_spec with (Q := fun r h2 =>
      r = m_systemHeapCurPtr h1 /\ exists limit, h2 = alloc_heap h1 limit len /\ sys_ok h2)|..].
  { apply Hth1. }
  { pow2. lia. }
  { done. }
  { intros limit Hsys. eauto. }
  2: { apply low_mono. unfold anchor_cost, create_cost in *. lia. }
  intros r h2 (-> & limit & -> & Hsys). set (c := m_systemHeapCurPtr h1) in *.
  pose proof (so_range _ (hi_sys _ _ _ (th_inv _ _ _ _ _ _ _ _ Hth1))) as Hrange. fold c in Hrange.
  pose proof (so_align _ (hi_sys _ _ _ (th_inv _ _ _ _ _ _ _ _ Hth1))) as Halign. fold c in Halign.
  set (h2 := alloc_heap h1 limit len) in *.
  assert (heap_inv env h2 K) as Hinv2 by (apply inv_alloc; [apply Hth1|lia|done]).
  assert (this_ok h2 K p this i total k contains) as Hth2 by (destruct Hth1; split; done).
  destruct (populate_inline_table_spec h2 K p this i total k contains kind key su total' kt) as (t & Ht & Htok);
    [done..|].
  apply wp_bind. eapply wp_query; [exact Ht|]. apply wp_bind, wp_store_structure, wp_ret.
  eapply (HQ _ _ h2). split; [..|reflexivity|].
  - apply (frame_trans _ h1); [done|]. apply frame_alloc. lia.
  - done.
  - eapply fresh_structure; [apply Hth1|]. fold c. lia.
  - apply (fresh_dictionary env h1 K); [apply Hth1|]. fold c. lia.
  - split; [simpl; fold c; lia|]. rewrite Zplus_mod, Halign, Z.add_0_l, Zmod_mod.
    rewrite Zmult_mod, H8, Z.mul_0_r. done.
  - by eapply node_ok.
  - done.
  - simpl. fold c. unfold anchor_cost, create_cost in *. lia.
Qed.
End create.
