(* ===== verification/ClassTable.v ===== *)
(** * Transition tables

    [StructureTransitionTable]: look-up, insertion and growth keep the table a
    map from transition keys to children, at most half full between operations. *)

From S2P Require Import Prelude MiscMath Machine TypeMask ArrayType Butterfly Probing CheckedTable ClassHeap Structure Transition ClassInv ClassLookup ClassFrame ClassAnchor ClassCreate.

(** A key that may be stored. *)
Definition transition_key (key : Z) : Prop := key <> x_key_invalid /\ key <> x_key_deleted.

(** The content of a table. *)
Definition table_lookup (entries : list TransitionEntry) (key : Z) : option Z :=
  te_value <$> List.find (fun e => te_key e =? key) entries.

Lemma te_key_of_Some e key : te_key_of e = Some key <-> te_key e = key /\ transition_key key.
Proof.
  unfold te_key_of, transition_key. destruct (Z.eqb_spec (te_key e) x_key_invalid) as [E|E]; simpl.
  { split; [done|]. intros (<- & ? & _). done. }
  destruct (Z.eqb_spec (te_key e) x_key_deleted) as [E'|E'].
  { split; [done|]. intros (<- & _ & ?). done. }
  split; [by intros [= <-]|by intros [-> _]].
Qed.

Lemma te_key_of_None e : te_key_of e = None -> te_key e = x_key_invalid \/ te_key e = x_key_deleted.
Proof.
  unfold te_key_of. destruct (Z.eqb_spec (te_key e) x_key_invalid) as [E|E]; [auto|].
  destruct (Z.eqb_spec (te_key e) x_key_deleted) as [E'|E']; [auto|done].
Qed.

Section table.
Variable env : Env.

Abbreviation tprobing := (probing_ok te_key_of (te_home env) 1).

Lemma table_lookup_spec n l key v : tprobing n l -> transition_key key ->
  table_lookup l key = Some v <-> exists e, e ∈ l /\ te_key e = key /\ te_value e = v.
Proof.
  intros Hp Hk. unfold table_lookup. rewrite fmap_Some. split.
  - intros (e & He & ->). apply List.find_some in He as [Hin Hkey%Z.eqb_eq]. exists e.
    split_and!; [by apply list_elem_of_In|done|done].
  - intros (e & Hin & Hkey & Hv). destruct (List.find (fun e => te_key e =? key) l) as [e'|] eqn:Ef.
    + exists e'. split; [done|]. apply List.find_some in Ef as [Hin' Hkey'%Z.eqb_eq].
      apply list_elem_of_In in Hin'. apply list_elem_of_lookup_1 in Hin as [x Hx], Hin' as [y Hy].
      assert (x = y) as ->; [|congruence].
      eapply (po_distinct _ _ _ _ _ Hp x y e e' key); [done|done|by apply te_key_of_Some..].
    + apply list_elem_of_In in Hin. pose proof (List.find_none _ _ Ef e Hin) as Hn. simpl in Hn.
      apply Z.eqb_neq in Hn. done.
Qed.

Lemma table_lookup_None l key : transition_key key ->
  table_lookup l key = None <-> ~ has_key te_key_of l key.
Proof.
  intros Hk. unfold table_lookup. rewrite fmap_None. split.
  - intros Hn (e & Hin & He). apply te_key_of_Some in He as [He _]. apply list_elem_of_In in Hin.
    pose proof (List.find_none _ _ Hn e Hin) as Hne. simpl in Hne. apply Z.eqb_neq in Hne. done.
  - intros Hn. destruct (List.find (fun e => te_key e =? key) l) as [e|] eqn:Ef; [|done].
    apply List.find_some in Ef as [Hin Hkey%Z.eqb_eq]. destruct Hn. exists e.
    split; [by apply list_elem_of_In|by apply te_key_of_Some].
Qed.

(** ** Look-up *)

Definition nodeleted (l : list TransitionEntry) : Prop := forall e, e ∈ l -> te_key e <> x_key_deleted.

Lemma Find_spec t k key : 0 <= k -> tprobing (2 ^ k) (m_hashTable t) -> m_hashTableMask t = 2 ^ k - 1 ->
  Z.of_nat (occupancy te_key_of (m_hashTable t)) < 2 ^ k -> transition_key key ->
  exists slot found, Find env t key = Some (slot, found) /\
    if (found : bool)
    then exists e, at_slot (m_hashTable t) slot = Some e /\ te_key e = key
    else ~ has_key te_key_of (m_hashTable t) key /\ exists d e,
      slot = pos (te_home env) 1 (2 ^ k) key d /\ first_empty te_key_of (te_home env) 1 (2 ^ k) (m_hashTable t) key d e.
Proof.
  intros Hk Hp Hm Hocc Hkey. unfold Find. rewrite Hm. rewrite land_mask by done. fold (te_home env key).
  assert (0 < 2 ^ k) as H2 by (apply Z.pow_pos_nonneg; lia).
  assert (Z.of_nat (length (m_hashTable t)) = 2 ^ k) as Hlen by (rewrite (po_length _ _ _ _ _ Hp); lia).
  replace (te_home env key mod 2 ^ k) with (pos (te_home env) 1 (2 ^ k) key 0) by (unfold pos; f_equal; lia).
  destruct (probe_find te_key_of (te_home env) 1 (2 ^ k) ltac:(auto) H2
    (fun e => if te_key e =? key then Some true
      else if (te_key e =? x_key_invalid) || (te_key e =? x_key_deleted) then Some false else None)
    (fun slot => Z.land (slot + 1) (2 ^ k - 1)) 0 (pos (te_home env) 1 (2 ^ k) key)
    (fun _ => true) (fun _ => false) (length (m_hashTable t)) (m_hashTable t) key)
    as [(e & d & Hd & Hek & Hs & ->)|(Hno & e & d & Hf & ->)].
  - done.
  - apply not_full. lia.
  - intros e k' _ [<- [H1 H2']]%te_key_of_Some Hne. destruct (Z.eqb_spec (te_key e) key); [done|].
    destruct (Z.eqb_spec (te_key e) x_key_invalid), (Z.eqb_spec (te_key e) x_key_deleted); done.
  - intros e _ [-> _]%te_key_of_Some. by rewrite Z.eqb_refl.
  - intros e _ He. destruct Hkey as [Hk1 Hk2]. apply te_key_of_None in He as [-> | ->].
    + destruct (Z.eqb_spec x_key_invalid key); [congruence|done].
    + destruct (Z.eqb_spec x_key_deleted key); [congruence|done].
  - intros d Hd. unfold pos. by apply up_next.
  - intros d. lia.
  - lia.
  - eexists _, true. split; [done|]. exists e. rewrite at_pos by done. split; [done|]. by apply te_key_of_Some in Hek as [? _].
  - eexists _, false. split; [done|]. split; [done|]. by exists d, e.
Qed.

(** ** Storing an entry *)

Lemma set_slot_at {E} (l : list E) i e : 0 <= i < Z.of_nat (length l) -> set_slot l i e = Some (<[Z.to_nat i := e]> l).
Proof.
  intros Hi. unfold set_slot. destruct (Z.leb_spec 0 i), (Z.ltb_spec i (Z.of_nat (length l))); simpl; [done|lia..].
Qed.

(** A new key in the empty slot that [Find] returned. *)
Lemma set_new l k key v d e0 : 0 <= k -> tprobing (2 ^ k) l -> nodeleted l -> transition_key key ->
  ~ has_key te_key_of l key -> first_empty te_key_of (te_home env) 1 (2 ^ k) l key d e0 ->
  exists l', set_slot l (pos (te_home env) 1 (2 ^ k) key d) (mkTransitionEntry key v) = Some l' /\
    tprobing (2 ^ k) l' /\ nodeleted l' /\ occupancy te_key_of l' = S (occupancy te_key_of l) /\
    (forall e k', te_key_of e = Some k' -> e ∈ l' <-> e = mkTransitionEntry key v \/ e ∈ l) /\
    (forall key', transition_key key' -> table_lookup l' key' = if key' =? key then Some v else table_lookup l key').
Proof.
  intros Hk Hp Hnd Hkey Hno Hf. assert (0 < 2 ^ k) as H2 by (apply Z.pow_pos_nonneg; lia).
  pose proof (pos_range (te_home env) 1 (2 ^ k) H2 key d) as Hr.
  assert (Z.of_nat (length l) = 2 ^ k) as Hlen by (rewrite (po_length _ _ _ _ _ Hp); lia).
  rewrite set_slot_at by lia. eexists. split; [done|]. fold (slot (te_home env) 1 (2 ^ k) key d).
  set (e := mkTransitionEntry key v).
  assert (te_key_of e = Some key) as Hek by (by apply te_key_of_Some).
  assert (tprobing (2 ^ k) (<[slot (te_home env) 1 (2 ^ k) key d:=e]> l)) as Hp'.
  { by eapply insert_ok; [auto|..]. }
  assert (forall e' k', te_key_of e' = Some k' ->
    e' ∈ <[slot (te_home env) 1 (2 ^ k) key d:=e]> l <-> e' = e \/ e' ∈ l) as Hel.
  { intros e' k' He'. by eapply insert_elem. }
  split_and!; [done| | |done|].
  - intros e' He'. destruct (te_key_of e') as [k'|] eqn:E'.
    + apply te_key_of_Some in E' as [-> [_ ?]]. done.
    + apply list_elem_of_lookup_1 in He' as [j Hj].
      destruct (insert_lookup te_key_of (te_home env) 1 (2 ^ k) l key d e0 e Hf _ _ Hj) as [[_ ->]|[_ Hj']].
      * congruence.
      * apply Hnd. by eapply list_elem_of_lookup_2.
  - apply (occupancy_insert te_key_of l _ e e0); [apply Hf|apply Hf|congruence].
  - intros key' Hkey'. apply option_eq. intros x. rewrite (table_lookup_spec (2 ^ k)) by done.
    destruct (Z.eqb_spec key' key) as [->|Hne].
    + split.
      * intros (e' & He' & Hke' & <-). apply (Hel e' key) in He'; [|by apply te_key_of_Some].
        destruct He' as [->|He']; [done|]. destruct Hno. exists e'. split; [done|by apply te_key_of_Some].
      * intros [= <-]. exists e. split_and!; [apply (Hel e key Hek); by left|done|done].
    + rewrite (table_lookup_spec (2 ^ k)) by done. split.
      * intros (e' & He' & Hke' & <-). apply (Hel e' key') in He'; [|by apply te_key_of_Some].
        destruct He' as [->|He']; [done|]. by exists e'.
      * intros (e' & He' & Hke' & <-). exists e'. split_and!; [|done|done].
        apply (Hel e' key'); [by apply te_key_of_Some|by right].
Qed.

(** The value of a key that is there. *)
Lemma set_found l k key v i e0 : 0 <= k -> tprobing (2 ^ k) l -> nodeleted l -> transition_key key ->
  at_slot l i = Some e0 -> te_key e0 = key ->
  exists l', set_slot l i (mkTransitionEntry key v) = Some l' /\
    tprobing (2 ^ k) l' /\ nodeleted l' /\ occupancy te_key_of l' = occupancy te_key_of l /\
    (forall e k', te_key_of e = Some k' -> e ∈ l' -> e = mkTransitionEntry key v \/ e ∈ l) /\
    (forall key', transition_key key' -> table_lookup l' key' = if key' =? key then Some v else table_lookup l key').
Proof.
  intros Hk Hp Hnd Hkey [Hi Hl]%at_slot_Some He0. assert (0 < 2 ^ k) as H2 by (apply Z.pow_pos_nonneg; lia).
  rewrite set_slot_at by lia. set (e := mkTransitionEntry key v). eexists. split; [done|].
  assert (te_key_of e0 = Some key) as Hk0 by (by apply te_key_of_Some).
  assert (te_key_of e = Some key) as Hek by (by apply te_key_of_Some).
  assert (tprobing (2 ^ k) (<[Z.to_nat i:=e]> l)) as Hp'.
  { eapply replace_ok; [done|done|congruence|congruence]. }
  assert (forall j x, <[Z.to_nat i:=e]> l !! j = Some x -> (j = Z.to_nat i /\ x = e) \/ (j <> Z.to_nat i /\ l !! j = Some x)) as Hlk.
  { intros j x. destruct (decide (Z.to_nat i = j)) as [<-|].
    - rewrite list_lookup_insert_eq by lia. intros [= <-]. auto.
    - rewrite list_lookup_insert_ne by done. auto. }
  assert (forall x, x ∈ <[Z.to_nat i:=e]> l -> x = e \/ x ∈ l) as Hel.
  { intros x (j & Hj)%list_elem_of_lookup_1. destruct (Hlk _ _ Hj) as [[_ ->]|[_ Hx]]; [by left|right].
    by eapply list_elem_of_lookup_2. }
  split_and!; [done| | | |].
  - intros x Hx. destruct (Hel x Hx) as [->|Hx']; [apply Hkey|by apply Hnd].
  - clear -Hl Hk0 Hek. revert Hl. generalize (Z.to_nat i) as j. unfold occupancy.
    induction l as [|y l IH]; intros [|j] Hj; simpl in *; try done.
    + injection Hj as ->. unfold occupied. by rewrite Hk0, Hek.
    + destruct (occupied te_key_of y); simpl; by rewrite IH.
  - intros x kx _ Hx. by apply Hel.
  - intros key' Hkey'. apply option_eq. intros x. rewrite (table_lookup_spec (2 ^ k)) by done.
    destruct (Z.eqb_spec key' key) as [->|Hne].
    + split; [|intros [= <-]; exists e; split_and!; [|done|done]].
      * intros (e' & (j & Hj)%list_elem_of_lookup_1 & Hke' & <-). destruct (Hlk _ _ Hj) as [[_ ->]|[Hne Hx]]; [done|].
        destruct Hne. eapply (po_distinct _ _ _ _ _ Hp j (Z.to_nat i) e' e0 key); [done|done|by apply te_key_of_Some|done].
      * eapply list_elem_of_lookup_2, list_lookup_insert_eq. lia.
    + rewrite (table_lookup_spec (2 ^ k)) by done. split.
      * intros (e' & He' & Hke' & <-). destruct (Hel e' He') as [->|He'']; [done|by exists e'].
      * intros (e' & (j & Hj)%list_elem_of_lookup_1 & Hke' & <-). exists e'. split_and!; [|done|done].
        apply (list_elem_of_lookup_2 _ j). rewrite list_lookup_insert_ne; [done|]. intros <-. congruence.
Qed.

(** ** Growth *)

(** Re-inserting the entries [l] into a larger table. *)
Lemma expand_fold_spec k l acc : 0 <= k -> tprobing (2 ^ k) acc -> nodeleted acc -> nodeleted l ->
  (forall i j e e' key, l !! i = Some e -> l !! j = Some e' -> te_key_of e = Some key -> te_key_of e' = Some key -> i = j) ->
  (forall e key, e ∈ l -> te_key_of e = Some key -> ~ has_key te_key_of acc key) ->
  Z.of_nat (occupancy te_key_of acc + occupancy te_key_of l) < 2 ^ k ->
  exists t', foldl (expand_insert env (2 ^ k - 1)) (Some acc) l = Some t' /\
    tprobing (2 ^ k) t' /\ nodeleted t' /\
    occupancy te_key_of t' = (occupancy te_key_of acc + occupancy te_key_of l)%nat /\
    (forall e key, te_key_of e = Some key -> e ∈ t' <-> e ∈ acc \/ e ∈ l).
Proof.
  intros Hk. assert (0 < 2 ^ k) as H2 by (apply Z.pow_pos_nonneg; lia).
  revert acc. induction l as [|x l IH]; intros acc Hp Hnd Hndl Hdis Hfresh Hocc.
  { exists acc. simpl. split_and!; [done..|unfold occupancy; simpl; lia|]. intros e key _. rewrite elem_of_nil. tauto. }
  cbn [foldl]. assert (forall i j e e' key, l !! i = Some e -> l !! j = Some e' -> te_key_of e = Some key ->
    te_key_of e' = Some key -> i = j) as Hdis'.
  { intros i j e e' key H1 H3 H4 H5. specialize (Hdis (S i) (S j) e e' key H1 H3 H4 H5). lia. }
  assert (nodeleted l) as Hndl' by (intros e He; apply Hndl; by right).
  destruct (te_key_of x) as [kx|] eqn:Ex.
  - pose proof Ex as [<- Hkx]%te_key_of_Some. destruct Hkx as [Hk1 Hk2].
    assert (~ has_key te_key_of acc (te_key x)) as Hno by (eapply Hfresh; [by left|done]).
    assert (occupancy te_key_of (x :: l) = S (occupancy te_key_of l)) as Hox.
    { unfold occupancy. simpl. unfold occupied at 1. by rewrite Ex. }
    destruct (find_empty te_key_of (te_home env) 1 (2 ^ k) ltac:(auto) H2 acc (te_key x) Hp) as (d & e0 & Hf).
    { apply not_full. rewrite (po_length _ _ _ _ _ Hp). lia. }
    destruct (set_new acc k (te_key x) (te_value x) d e0 Hk Hp Hnd (conj Hk1 Hk2) Hno Hf)
      as (acc' & Hset & Hp' & Hnd' & Hocc' & Hel' & _).
    assert (mkTransitionEntry (te_key x) (te_value x) = x) as Hx by (by destruct x). rewrite Hx in *.
    assert (expand_insert env (2 ^ k - 1) (Some acc) x = Some acc') as ->.
    { unfold expand_insert. cbn [mbind option_bind].
      destruct (Z.eqb_spec (te_key x) x_key_invalid) as [|_]; [done|].
      destruct (Z.eqb_spec (te_key x) x_key_deleted) as [|_]; [done|]. cbn [negb andb].
      rewrite land_mask by done. fold (te_home env (te_key x)).
      replace (te_home env (te_key x) mod 2 ^ k) with (pos (te_home env) 1 (2 ^ k) (te_key x) 0) by (unfold pos; f_equal; lia).
      pose proof Hf as (Hd & Hs & Hn & Htk).
      erewrite (probe_run _ _ _ _ (pos (te_home env) 1 (2 ^ k) (te_key x)) d _ e0 tt).
      + cbn [mbind option_bind]. done.
      + intros d' _. unfold pos. by apply up_next.
      + intros d' Hd'. destruct (Htk d' Hd') as (e' & k' & Hs' & Hk'). exists e'.
        rewrite Z.add_0_l, at_pos by done. split; [done|].
        apply te_key_of_Some in Hk' as [-> [? _]]. by destruct (Z.eqb_spec k' x_key_invalid).
      + by rewrite Z.add_0_l, at_pos.
      + apply te_key_of_None in Hn as [Hi|Hi]; [by rewrite Hi|].
        destruct (Hnd e0); [by eapply list_elem_of_lookup_2|done].
      + rewrite (po_length _ _ _ _ _ Hp). lia. }
    destruct (IH acc' Hp' Hnd' Hndl' Hdis') as (t' & Ht' & Hp'' & Hnd'' & Hocc'' & Hel'').
    + intros e key He Hke (e' & He' & Hke'). apply (Hel' e' key Hke') in He' as [->|He'].
      * apply te_key_of_Some in Hke' as [<- _]. apply list_elem_of_lookup_1 in He as [j Hj].
        specialize (Hdis O (S j) x e (te_key x) eq_refl Hj Ex Hke). lia.
      * eapply (Hfresh e key); [by right|done|]. by exists e'.
    + lia.
    + exists t'. split_and!; [done..|lia|]. intros e key He. rewrite (Hel'' e key He), (Hel' e key He), elem_of_cons. tauto.
  - assert (expand_insert env (2 ^ k - 1) (Some acc) x = Some acc) as ->.
    { unfold expand_insert. cbn [mbind option_bind]. apply te_key_of_None in Ex as [-> | ->]; done. }
    assert (occupancy te_key_of (x :: l) = occupancy te_key_of l) as Hox.
    { unfold occupancy. simpl. unfold occupied at 1. by rewrite Ex. }
    destruct (IH acc Hp Hnd Hndl' Hdis') as (t' & Ht' & Hp'' & Hnd'' & Hocc'' & Hel'').
    + intros e key He. apply Hfresh. by right.
    + lia.
    + exists t'. split_and!; [done..|lia|]. intros e key He. rewrite (Hel'' e key He), elem_of_cons.
      split; [tauto|]. intros [?|[->|?]]; [tauto|congruence|tauto].
Qed.
End table.
