(* ===== verification/ClassTransition.v ===== *)
(** * Querying the transitions of a structure

    [transition h p key] is the child that the structure at [p] goes to by [key].
    [Structure::QueryTransitionTableAndInsertOrUpsertImpl] returns it, or makes it
    by the function it is given, and leaves every other transition as it is,
    whichever of the three representations the table of [p] has. *)

From S2P Require Import Prelude MiscMath Machine TypeMask ArrayType Butterfly Probing CheckedTable ClassHeap Structure Transition ClassInv ClassLookup ClassFrame ClassAnchor ClassCreate ClassTable.

(** The child of [p] by the transition [key]. *)
Definition transition (h : SysHeap) (p key : Z) : option Z :=
  s ← structures h !! p;
  let v := s_transitionTable s in
  if TT_IsNullPtr v then None
  else if TT_IsTypeStructure v then
    c ← structures h !! TT_AsStructure v;
    k ← GetParentEdgeTransitionKey c;
    if k =? key then Some (TT_AsStructure v) else None
  else
    t ← transitionTables h !! TT_AsTable v;
    table_lookup (m_hashTable t) key.

(** ** Tags *)

Lemma tag_structure v : v mod 8 = 0 -> v <> 0 ->
  TT_IsNullPtr v = false /\ TT_IsTypeStructure v = true /\ TT_AsStructure v = v /\ TT_StoreStructure v = v.
Proof.
  intros H8 H0. unfold TT_IsNullPtr, TT_IsTypeStructure, TT_AsStructure, TT_StoreStructure.
  split_and!; [by apply Z.eqb_neq| |apply Z.lxor_0_r|apply Z.lor_0_r].
  change 1 with (Z.ones 1). rewrite Z.land_ones by lia. change (2 ^ 1) with 2. apply Z.eqb_eq.
  pose proof (Z.div_mod v 8 ltac:(lia)). replace v with (v / 8 * 4 * 2) by lia. by apply Z.mod_mul.
Qed.

Lemma tag_table q : q mod 8 = 0 ->
  TT_IsNullPtr (q + 1) = false /\ TT_IsTypeStructure (q + 1) = false /\ TT_AsTable (q + 1) = q /\ TT_StoreTable q = q + 1.
Proof.
  intros H8. unfold TT_IsNullPtr, TT_IsTypeStructure, TT_AsTable, TT_StoreTable.
  pose proof (Z.div_mod q 8 ltac:(lia)). assert (q = q / 8 * 4 * 2 ^ 1) as Hq by (change (2 ^ 1) with 2; lia).
  assert (Z.lor q 1 = q + 1) as Hor by (rewrite Hq; apply lor_high; lia).
  assert (Z.land q 1 = 0) as Hand.
  { change 1 with (Z.ones 1). rewrite Z.land_ones by lia. rewrite Hq. apply Z.mod_mul. lia. }
  split_and!; [apply Z.eqb_neq; lia| | |done].
  - change 1 with (Z.ones 1) at 2. rewrite Z.land_ones by lia. rewrite Hq, Z.add_comm, Z.mod_add by lia. done.
  - rewrite (Z.add_nocarry_lxor q 1 Hand), Z.lxor_assoc, Z.lxor_nilpotent. apply Z.lxor_0_r.
Qed.

Section transition.
Variable env : Env.
Implicit Types (h : SysHeap) (K : Classes).

(** ** Edges *)

Lemma GetParentEdgeTransitionKey_spec A K s i : class_ok env A K s i -> GetParentEdgeTransitionKey s = edge_key i.
Proof.
  intros []. unfold GetParentEdgeTransitionKey, edge_key. rewrite cl_kind, cl_arrayType.
  assert (GetLastAddedKey s = last (i_keys i)) as Hlast; [|by destruct (i_kind i)].
  unfold GetLastAddedKey. rewrite cl_numSlots. unfold i_count. rewrite ComputeNonFullBlockLength_spec by done.
  rewrite last_lookup. pose proof (nonfull_le (length (i_keys i))) as Hn. destruct (blocks (length (i_keys i))) as (Hb & _).
  destruct (decide (length (i_keys i) = O)) as [Hz|Hz].
  - rewrite Hz. simpl. apply nil_length_inv in Hz as ->. by rewrite cl_values.
  - rewrite cl_values, at_slot_drop by lia. rewrite <- at_slot_nat. f_equal. lia.
Qed.

Lemma edge_key_valid K i key : rooted env K i -> Forall valid_key (i_keys i) -> edge_key i = Some key -> transition_key key.
Proof.
  assert (forall g, valid_key g -> transition_key g) as Hg.
  { unfold valid_key, transition_key, x_key_invalid, x_key_deleted. pow2. lia. }
  intros [(Hk & _)|(ip & Hp & He)] Hv.
  { unfold edge_key. by rewrite Hk. }
  assert (last (i_keys i) = Some key -> transition_key key) as Hlast.
  { intros Hl. apply Hg. rewrite Forall_forall in Hv. apply Hv. by apply last_Some_elem_of. }
  assert (forall t, 0 <= t <= x_usefulBitsMask -> transition_key (Z.lor x_key_change_array_type_tag t)) as Hat.
  { intros t Ht. change x_usefulBitsMask with 63 in Ht. change x_key_change_array_type_tag with (1 * 2 ^ 8).
    rewrite lor_high by (pow2; lia). unfold transition_key, x_key_invalid, x_key_deleted. pow2. lia. }
  unfold edge_key. clear Hp. revert He. generalize (i_parent i) as p. intros p He.
  destruct He; simpl in *; intros Hkey.
  - destruct (expansion_of _ _ _); simpl in Hkey; by apply Hlast.
  - destruct (expansion_of _ _ _); simpl in Hkey; injection Hkey as <-; by split.
  - injection Hkey as <-. by split.
  - injection Hkey as <-. by split.
  - injection Hkey as <-. by apply Hat.
Qed.

Lemma child_key h K p key c : heap_inv env h K -> child K p key c ->
  transition_key key /\ allocated h c /\ exists s, structures h !! c = Some s /\ GetParentEdgeTransitionKey s = Some key.
Proof.
  intros Hinv (i & Hi & Hp & He). destruct (inv_structure env h K Hinv c i Hi) as (s & Hs & Hc). split_and!.
  - eapply edge_key_valid; [by eapply hi_rooted|apply Hc|done].
  - by eapply hi_addr.
  - exists s. split; [done|]. rewrite <- He. by eapply GetParentEdgeTransitionKey_spec.
Qed.

Lemma allocated_tag h c : allocated h c -> c mod 8 = 0 /\ c <> 0.
Proof. intros [Hr Ha]. split; [done|lia]. Qed.

(** ** The three representations *)

Inductive rep h K (p : Z) (s : Structure) : Prop :=
| rep_none : s_transitionTable s = 0 -> (forall key, transition h p key = None) -> rep h K p s
| rep_single key c : s_transitionTable s = c -> c mod 8 = 0 -> c <> 0 -> child K p key c ->
    (forall key', transition h p key' = if key =? key' then Some c else None) -> rep h K p s
| rep_table q t k : s_transitionTable s = q + 1 -> q mod 8 = 0 -> q <> 0 -> transitionTables h !! q = Some t ->
    ttable_ok env K p t k -> m_numElementsInHashTable t <= 2 ^ (k - 1) ->
    (forall key, transition h p key = table_lookup (m_hashTable t) key) -> rep h K p s.

Lemma rep_intro h K p s : heap_inv env h K -> structures h !! p = Some s -> rep h K p s.
Proof.
  intros Hinv Hs. destruct (hi_trans _ _ _ Hinv p s Hs) as [H0|[(key & H0 & H8 & Hc)|H]].
  - apply rep_none; [done|]. intros key. unfold transition. rewrite Hs. cbn [mbind option_bind]. by rewrite H0.
  - destruct (tag_structure _ H8 H0) as (T1 & T2 & T3 & _). apply (rep_single h K p s key (s_transitionTable s)); [done..|].
    intros key'. unfold transition. rewrite Hs. cbn [mbind option_bind]. rewrite T1, T2, T3.
    destruct (child_key h K p key _ Hinv Hc) as (_ & _ & sc & -> & Hk). cbn [mbind option_bind]. by rewrite Hk.
  - destruct H as (q & t & k & Hv & H8 & Hq & Ht & Hok & Hl). destruct (tag_table q H8) as (T1 & T2 & T3 & _).
    apply (rep_table h K p s q t k); [done..|]. intros key. unfold transition. rewrite Hs. cbn [mbind option_bind].
    by rewrite Hv, T1, T2, T3, Ht.
Qed.

Lemma transition_child h K p key c : heap_inv env h K -> transition_key key -> transition h p key = Some c -> child K p key c.
Proof.
  intros Hinv Hkey Ht. destruct (structures h !! p) as [s|] eqn:Hs; [|unfold transition in Ht; by rewrite Hs in Ht].
  destruct (rep_intro h K p s Hinv Hs) as [_ H|key' c' _ _ _ Hc H|q t k _ _ _ _ Hok _ H]; rewrite H in Ht.
  - done.
  - destruct (Z.eqb_spec key' key) as [->|]; [|done]. by injection Ht as <-.
  - apply (table_lookup_spec env (2 ^ k)) in Ht as (e & He & <- & <-); [|apply Hok|done].
    apply (tt_entries _ _ _ _ _ Hok e); [done|by apply te_key_of_Some].
Qed.

(** What does not change the representation does not change the transitions. *)
Lemma transition_same h1 K1 h2 K2 p s1 s2 key : heap_inv env h1 K1 -> heap_inv env h2 K2 -> K1 ⊆ K2 ->
  structures h1 !! p = Some s1 -> structures h2 !! p = Some s2 -> s_transitionTable s2 = s_transitionTable s1 ->
  (forall q, q mod 8 = 0 -> s_transitionTable s1 = q + 1 -> transitionTables h2 !! q = transitionTables h1 !! q) ->
  transition h2 p key = transition h1 p key.
Proof.
  intros H1 H2 HK Hs1 Hs2 Ht Hq.
  destruct (rep_intro h1 K1 p s1 H1 Hs1) as [Hv H|key' c Hv H8 Hc0 Hc H|q t k Hv H8 Hq0 Htq Hok _ H]; rewrite H.
  - unfold transition. rewrite Hs2. cbn [mbind option_bind]. by rewrite Ht, Hv.
  - destruct (child_key h2 K2 p key' c H2 (edge_child _ _ _ _ _ HK Hc)) as (_ & _ & sc & Hsc & Hk).
    destruct (tag_structure c H8 Hc0) as (T1 & T2 & T3 & _). unfold transition. rewrite Hs2. cbn [mbind option_bind].
    rewrite Ht, Hv, T1, T2, T3, Hsc. cbn [mbind option_bind]. by rewrite Hk.
  - destruct (tag_table q H8) as (T1 & T2 & T3 & _). unfold transition. rewrite Hs2. cbn [mbind option_bind].
    by rewrite Ht, Hv, T1, T2, T3, (Hq q H8 Hv), Htq.
Qed.

Lemma transition_frame h1 K1 h2 K2 p key : heap_inv env h1 K1 -> heap_inv env h2 K2 -> K1 ⊆ K2 -> frame h1 h2 ->
  is_Some (K1 !! p) -> transition h2 p key = transition h1 p key.
Proof.
  intros H1 H2 HK Hf [i Hi]. destruct (inv_structure env h1 K1 H1 p i Hi) as (s1 & Hs1 & _).
  destruct (fr_structures _ _ Hf p s1 Hs1) as (s2 & Hs2 & Ht).
  eapply transition_same; [done..|]. intros q _ _. by rewrite (fr_tables _ _ Hf).
Qed.

(** Different structures have different tables. *)
Lemma table_unique h K p p' s s' q : heap_inv env h K -> structures h !! p = Some s -> structures h !! p' = Some s' ->
  q mod 8 = 0 -> s_transitionTable s = q + 1 -> s_transitionTable s' = q + 1 -> p = p'.
Proof.
  intros Hinv Hs Hs' H8 Hq Hq'.
  assert (forall c, c mod 8 = 0 -> c = q + 1 -> False) as Hno.
  { intros c Hc ->. rewrite Zplus_mod, H8 in Hc. done. }
  destruct (rep_intro h K p s Hinv Hs) as [Hv _|k1 c Hv Hc8 _ _ _|q1 t1 k1 Hv _ _ Ht1 Hok1 _ _].
  { exfalso. apply (Hno 0); [done|lia]. }
  { exfalso. apply (Hno c); [done|lia]. }
  destruct (rep_intro h K p' s' Hinv Hs') as [Hv' _|k2 c Hv' Hc8 _ _ _|q2 t2 k2 Hv' _ _ Ht2 Hok2 _ _].
  { exfalso. apply (Hno 0); [done|lia]. }
  { exfalso. apply (Hno c); [done|lia]. }
  assert (q1 = q) as -> by lia. assert (q2 = q) as -> by lia. assert (t2 = t1) as -> by congruence.
  by eapply table_owner.
Qed.

(** ** Storing a transition table pointer *)

Lemma class_ok_tt A K s i v : class_ok env A K s i -> class_ok env A K (with_transitionTable s v) i.
Proof. intros []. by split. Qed.

Lemma inv_store_tt h K p s v : heap_inv env h K -> structures h !! p = Some s ->
  transitions_ok env (transitionTables h) K p v ->
  heap_inv env (with_structures h (<[p := with_transitionTable s v]> (structures h))) K.
Proof.
  intros Hinv Hs Hv. destruct (inv_info env h K Hinv p s Hs) as (i & Hi & Hc).
  eapply inv_set_structure; [done..|by apply class_ok_tt|done].
Qed.

Lemma wp_store_tt p v s h (Q : unit -> SysHeap -> Prop) F : structures h !! p = Some s ->
  Q tt (with_structures h (<[p := with_transitionTable s v]> (structures h))) -> wp (store_tt p v) h Q F.
Proof.
  intros Hs HQ. unfold store_tt. apply wp_bind. eapply wp_load_structure; [done|]. by apply wp_store_structure.
Qed.

(** ** New tables *)

Definition table_heap (h : SysHeap) (limit n r : Z) (t : StructureTransitionTable) : SysHeap :=
  with_transitionTables (alloc_heap h limit n) (<[r := t]> (transitionTables h)).

Lemma cur_allocated h limit n : sys_ok h -> 0 < n -> allocated (alloc_heap h limit n) (m_systemHeapCurPtr h).
Proof. intros [] Hn. split; [simpl; lia|done]. Qed.

Lemma inv_table_heap h K limit n t : heap_inv env h K -> sys_ok (alloc_heap h limit n) -> 0 < n ->
  heap_inv env (table_heap h limit n (m_systemHeapCurPtr h) t) K.
Proof.
  intros Hinv Hsys Hn. apply (inv_add_table env (alloc_heap h limit n)).
  - apply inv_alloc; [done|lia|done].
  - apply (fresh_table env h K); [done|lia].
  - by apply cur_allocated; [apply Hinv|].
Qed.

Definition initial_table_cost : Z := 40.

(** [AllocateInitialTable] makes a table with the one entry. *)
Lemma AllocateInitialTable_spec h K p key v (Q : Z -> SysHeap -> Prop) : heap_inv env h K -> child K p key v ->
  (forall limit t, sys_ok (alloc_heap h limit initial_table_cost) ->
     ttable_ok env K p t 2 -> m_numElementsInHashTable t = 1 ->
     (forall key', transition_key key' -> table_lookup (m_hashTable t) key' = if key =? key' then Some v else None) ->
     Q (m_systemHeapCurPtr h) (table_heap h limit initial_table_cost (m_systemHeapCurPtr h) t)) ->
  wp (AllocateInitialTable env key v) h Q (low h initial_table_cost).
Proof.
  intros Hinv Hc HQ. destruct (child_key h K p key v Hinv Hc) as (Hkey & _).
  assert (te_key_of zeroTransitionEntry = None) as Hz by done.
  pose proof (replicate_ok te_key_of (te_home env) 1 (2 ^ 2) zeroTransitionEntry Hz) as Hp.
  unfold AllocateInitialTable. apply wp_bind.
  apply AllocFromSystemHeap_spec; [apply Hinv|vm_compute; split; congruence|done|]. intros limit Hsys.
  change (Z.to_nat x_initialHashTableSize) with (Z.to_nat (2 ^ 2)). change (x_initialHashTableSize - 1) with (2 ^ 2 - 1).
  set (t0 := mkTransitionTable (2 ^ 2 - 1) 1 (replicate (Z.to_nat (2 ^ 2)) zeroTransitionEntry)).
  assert (occupancy te_key_of (m_hashTable t0) = O) as Hocc0 by done.
  destruct (Find_spec env t0 2 key) as (slot & found & Hf & Hslot); [lia|done|done|by rewrite Hocc0|done|].
  apply wp_bind. eapply wp_access; [exact Hf|]. destruct found.
  { destruct Hslot as (e & He & Hke). exfalso. apply at_slot_elem in He. apply elem_of_replicate in He as [-> _].
    destruct Hkey. by rewrite <- Hke in *. }
  destruct Hslot as (Hno & d & e & -> & Hfe).
  destruct (set_new env (m_hashTable t0) 2 key v d e) as (l' & Hset & Hp' & Hnd & Hocc & Hel & Hlk); [lia|done| |done..|].
  { intros e' He'. apply elem_of_replicate in He' as [-> _]. done. }
  apply wp_bind. eapply wp_access; [exact Hset|]. apply wp_bind, wp_store_transitionTable, wp_ret.
  apply HQ; [done| |done|].
  - assert (occupancy te_key_of l' = 1%nat) as Ho1 by (by rewrite Hocc, Hocc0).
    split; simpl m_hashTable; simpl m_hashTableMask; simpl m_numElementsInHashTable; try done; [by rewrite Ho1|].
    intros e' k' He' Hk'. apply (Hel e' k' Hk') in He' as [->|He'].
    + apply te_key_of_Some in Hk' as [<- _]. done.
    + apply elem_of_replicate in He' as [-> _]. done.
  - intros key' Hkey'. simpl m_hashTable. rewrite Hlk, Z.eqb_sym by done. destruct (key =? key'); [done|].
    apply table_lookup_None; [done|]. by apply replicate_no_key.
Qed.

(** [Expand] makes a table of twice the size with the same entries. *)
Definition expand_cost (k : Z) : Z := 8 + 16 * 2 ^ k.

Lemma Expand_spec h t k (Q : Z -> SysHeap -> Prop) : sys_ok h -> 2 <= k <= 27 ->
  m_hashTableMask t = 2 ^ k - 1 -> probing_ok te_key_of (te_home env) 1 (2 ^ k) (m_hashTable t) ->
  nodeleted (m_hashTable t) ->
  (forall limit t', sys_ok (alloc_heap h limit (expand_cost k)) -> k < 27 ->
     m_hashTableMask t' = 2 ^ (k + 1) - 1 -> m_numElementsInHashTable t' = m_numElementsInHashTable t ->
     probing_ok te_key_of (te_home env) 1 (2 ^ (k + 1)) (m_hashTable t') -> nodeleted (m_hashTable t') ->
     occupancy te_key_of (m_hashTable t') = occupancy te_key_of (m_hashTable t) ->
     (forall e key, te_key_of e = Some key -> e ∈ m_hashTable t' <-> e ∈ m_hashTable t) ->
     Q (m_systemHeapCurPtr h) (table_heap h limit (expand_cost k) (m_systemHeapCurPtr h) t')) ->
  wp (Expand env t) h Q (low h (expand_cost k)).
Proof.
  intros Hsys Hk Hm Hp Hnd HQ. assert (0 < 2 ^ k <= 2 ^ 27) as H2 by (split; [apply Z.pow_pos_nonneg; lia|apply Z.pow_le_mono_r; lia]).
  assert (2 ^ (k + 1) = 2 * 2 ^ k) as Hk1 by (rewrite Z.pow_add_r by lia; change (2 ^ 1) with 2; lia).
  change (2 ^ 27) with 134217728 in H2.
  unfold Expand. rewrite Hm.
  assert (u32 ((2 ^ k - 1) * 2 + 1) = 2 ^ (k + 1) - 1) as -> by (rewrite wrapu_small; [lia|unfold in_u; change (2 ^ 32) with 4294967296; lia]).
  assert (u32 (2 ^ (k + 1) - 1 + 1) = 2 ^ (k + 1)) as -> by (rewrite wrapu_small; [lia|unfold in_u; change (2 ^ 32) with 4294967296; lia]).
  assert (TransitionTable_ComputeAllocationSize (2 ^ (k + 1)) = expand_cost k) as ->.
  { unfold TransitionTable_ComputeAllocationSize, expand_cost, x_trailingArrayOffset.
    rewrite wrapu_small; [lia|unfold in_u; change (2 ^ 32) with 4294967296; lia]. }
  assert (te_key_of zeroTransitionEntry = None) as Hz by done.
  assert (Z.of_nat (occupancy te_key_of (m_hashTable t)) <= 2 ^ k) as Hocc.
  { pose proof (po_length _ _ _ _ _ Hp) as Hl. unfold occupancy. pose proof (filter_length_le (occupied te_key_of) (m_hashTable t)). lia. }
  destruct (expand_fold_spec env (k + 1) (m_hashTable t) (replicate (Z.to_nat (2 ^ (k + 1))) zeroTransitionEntry))
    as (l' & Hl' & Hp' & Hnd' & Hocc' & Hel').
  - lia.
  - by apply replicate_ok.
  - intros e [-> _]%elem_of_replicate. done.
  - done.
  - intros i j e e' key. by apply (po_distinct _ _ _ _ _ Hp).
  - intros e key _ _. by apply replicate_no_key.
  - rewrite (replicate_occupancy te_key_of) by done. lia.
  - apply wp_bind. apply AllocFromSystemHeap_spec; [done|unfold expand_cost; change (2 ^ 32) with 4294967296; lia| |].
    { unfold expand_cost. replace (8 + 16 * 2 ^ k) with ((1 + 2 * 2 ^ k) * 8) by lia. by apply Z.mod_mul. }
    intros limit Hsys'. apply wp_bind. eapply wp_access; [exact Hl'|].
    apply wp_bind, wp_store_transitionTable, wp_ret. rewrite (replicate_occupancy te_key_of) in Hocc' by done.
    apply HQ; try done.
    + pose proof (so_range _ Hsys). pose proof (so_range _ Hsys') as Hr. pose proof (so_limit _ Hsys') as Hlim. simpl in Hr, Hlim.
      destruct (Z.eq_dec k 27) as [->|]; [|lia]. exfalso. unfold expand_cost in Hr. change (2 ^ 27) with 134217728 in Hr.
      change (2 ^ 31) with 2147483648 in Hlim. lia.
    + intros e key He. simpl m_hashTable. rewrite (Hel' e key He). split; [|tauto]. intros [He'|?]; [|done].
      apply elem_of_replicate in He' as [-> _]. done.
Qed.
End transition.
