(* ===== verification/ClassQuery.v ===== *)
(** * [QueryTransitionTableAndInsertOrUpsertImpl]

    Whatever the representation of the transition table, the query returns the
    child for the key, or the structure its function makes for a missing key
    (for an upsert: also for a present one), records it, and leaves every other
    transition of every structure as it was. *)

From S2P Require Import Prelude MiscMath Machine TypeMask ArrayType Butterfly Probing CheckedTable ClassHeap Structure Transition ClassInv ClassLookup ClassFrame ClassAnchor ClassCreate ClassTable ClassTransition.

Section query.
Variable env : Env.
Implicit Types (h : SysHeap) (K : Classes).

(** [c] is the only structure that may be new. *)
Definition only_new K K' (c : Z) : Prop := forall x ix, K' !! x = Some ix -> K !! x = Some ix \/ x = c.

Lemma only_new_refl K c : only_new K K c.
Proof. intros x ix Hx. by left. Qed.

(** What the function called by the query promises: a child of [p] by [key] in a
    grown heap. *)
Definition made h K (p key : Z) (R : Z -> Classes -> Prop) (cost c : Z) h2 : Prop :=
  exists K', K ⊆ K' /\ heap_inv env h2 K' /\ frame h h2 /\ child K' p key c /\ R c K' /\
    m_systemHeapCurPtr h2 <= m_systemHeapCurPtr h + cost /\ only_new K K' c.

(** What the query promises. *)
Record queried h K (p key : Z) (R : Z -> Classes -> Prop) (cost c : Z) h2 K' : Prop := {
  q_grow : K ⊆ K';
  q_inv : heap_inv env h2 K';
  q_child : child K' p key c;
  q_result : R c K';
  q_new : transition h2 p key = Some c;
  q_old : forall p' key', is_Some (K !! p') -> transition_key key' -> ~ (p' = p /\ key' = key) ->
    transition h2 p' key' = transition h p' key';
  q_dicts : dictionaries h2 = dictionaries h;
  q_cur : m_systemHeapCurPtr h <= m_systemHeapCurPtr h2 <= m_systemHeapCurPtr h + cost;
  q_only : only_new K K' c
}.

(** Storing a pointer to the only child. *)
Lemma install_single h K p s key R cost c h2 (Q : Z -> SysHeap -> Prop) F : heap_inv env h K ->
  structures h !! p = Some s -> (forall key', key' <> key -> transition h p key' = None) ->
  made h K p key R cost c h2 ->
  (forall h3 K', queried h K p key R cost c h3 K' -> Q c h3) ->
  wp (store_tt p (TT_StoreStructure c) ≫= fun _ => mret c) h2 Q F.
Proof.
  intros Hinv Hs Hno (K' & HK & Hinv2 & Hf & Hc & HR & Hcur & Honly) HQ.
  destruct (child_key env h2 K' p key c Hinv2 Hc) as (Hkey & Hal & sc & Hsc & Hsk).
  destruct (allocated_tag _ _ Hal) as [H8 H0]. destruct (tag_structure c H8 H0) as (T1 & T2 & T3 & T4).
  destruct (fr_structures _ _ Hf p s Hs) as (s2 & Hs2 & Ht2).
  assert (is_Some (K !! p)) as Hp by (apply (hi_dom _ _ _ Hinv); eauto).
  apply wp_bind. eapply wp_store_tt; [exact Hs2|]. apply wp_ret. rewrite T4.
  set (h3 := with_structures h2 _).
  assert (heap_inv env h3 K') as Hinv3.
  { apply inv_store_tt; [done..|]. right; left. by exists key. }
  assert (forall key', transition h3 p key' = if key =? key' then Some c else None) as Htr.
  { assert (structures h3 !! p = Some (with_transitionTable s2 c)) as Hs3 by apply lookup_insert_eq.
    destruct (child_key env h3 K' p key c Hinv3 Hc) as (_ & _ & sc3 & Hsc3 & Hsk3).
    intros key'. unfold transition. rewrite Hs3. cbn [mbind option_bind s_transitionTable with_transitionTable].
    rewrite T1, T2, T3, Hsc3. cbn [mbind option_bind]. by rewrite Hsk3. }
  apply (HQ h3 K'). split; try done.
  - by rewrite Htr, Z.eqb_refl.
  - intros p' key' Hp' Hkey' Hne. destruct (decide (p' = p)) as [->|Hpp].
    + rewrite Htr. destruct (Z.eqb_spec key key') as [->|]; [tauto|]. symmetry. by apply Hno.
    + destruct (proj2 (hi_dom _ _ _ Hinv p') Hp') as [s' Hs'].
      destruct (fr_structures _ _ Hf p' s' Hs') as (s2' & Hs2' & Ht2').
      rewrite <- (transition_frame env h K h2 K' p' key') by done.
      eapply (transition_same env h2 K' h3 K'); [done..|simpl; by rewrite lookup_insert_ne|done|done].
  - simpl. by rewrite (fr_dicts _ _ Hf).
  - simpl. pose proof (fr_cur _ _ Hf). lia.
Qed.

(** Storing into the table of [p]. *)
Lemma install_table h K p s q key R cost c h2 K' t t' k : heap_inv env h K ->
  structures h !! p = Some s -> q mod 8 = 0 -> s_transitionTable s = q + 1 -> transitionTables h !! q = Some t ->
  ttable_ok env K p t k ->
  K ⊆ K' -> heap_inv env h2 K' -> frame h h2 -> child K' p key c -> R c K' ->
  m_systemHeapCurPtr h2 <= m_systemHeapCurPtr h + cost -> only_new K K' c -> transition_key key ->
  ttable_ok env K' p t' k -> m_numElementsInHashTable t' <= 2 ^ (k - 1) ->
  (forall key', transition_key key' ->
     table_lookup (m_hashTable t') key' = if key' =? key then Some c else table_lookup (m_hashTable t) key') ->
  queried h K p key R cost c (with_transitionTables h2 (<[q := t']> (transitionTables h2))) K'.
Proof.
  intros Hinv Hs H8 Hq Htq Hok HK Hinv2 Hf Hc HR Hcur Honly Hkey Hok' Hload Hlk.
  set (h3 := with_transitionTables h2 _).
  assert (transitionTables h2 !! q = Some t) as Htq2 by (by rewrite (fr_tables _ _ Hf)).
  assert (heap_inv env h3 K') as Hinv3.
  { eapply inv_set_table; [done..|by eapply ttable_ok_mono|done|done]. }
  destruct (fr_structures _ _ Hf p s Hs) as (s2 & Hs2 & Ht2).
  destruct (tag_table q H8) as (T1 & T2 & T3 & _).
  assert (forall key', transition_key key' ->
    transition h3 p key' = if key' =? key then Some c else transition h p key') as Htr.
  { intros key' Hkey'. unfold transition at 1. change (structures h3) with (structures h2). rewrite Hs2.
    cbn [mbind option_bind]. rewrite Ht2, Hq, T1, T2, T3. change (transitionTables h3) with (<[q := t']> (transitionTables h2)).
    rewrite lookup_insert_eq. cbn [mbind option_bind]. rewrite Hlk by done. destruct (key' =? key); [done|].
    unfold transition. rewrite Hs. cbn [mbind option_bind]. by rewrite Hq, T1, T2, T3, Htq. }
  split; try done.
  - by rewrite Htr, Z.eqb_refl.
  - intros p' key' Hp' Hkey' Hne. destruct (decide (p' = p)) as [->|Hpp].
    + rewrite Htr by done. destruct (Z.eqb_spec key' key) as [->|]; [tauto|done].
    + destruct (proj2 (hi_dom _ _ _ Hinv p') Hp') as [s' Hs'].
      destruct (fr_structures _ _ Hf p' s' Hs') as (s2' & Hs2' & Ht2').
      eapply (transition_same env h K h3 K'); [done..|].
      intros q' Hq8 Hq'. simpl. rewrite lookup_insert_ne, (fr_tables _ _ Hf); [done|]. intros <-.
      apply Hpp. by apply (table_unique env h K p' p s' s q).
  - simpl. by rewrite (fr_dicts _ _ Hf).
  - simpl. pose proof (fr_cur _ _ Hf). lia.
Qed.

(** A step that changes representations only, before a query. *)
Lemma queried_before h h1 K p key R cost cost1 c h2 K' :
  (forall p' key', is_Some (K !! p') -> transition_key key' -> transition h1 p' key' = transition h p' key') ->
  dictionaries h1 = dictionaries h ->
  m_systemHeapCurPtr h <= m_systemHeapCurPtr h1 <= m_systemHeapCurPtr h + cost1 ->
  queried h1 K p key R cost c h2 K' -> queried h K p key R (cost1 + cost) c h2 K'.
Proof.
  intros Ht Hd Hcur []. split; try done.
  - intros p' key' Hp' Hkey' Hne. rewrite q_old0 by done. by apply Ht.
  - congruence.
  - lia.
Qed.

Lemma queried_mono h K p key R cost cost' c h2 K' : cost <= cost' ->
  queried h K p key R cost c h2 K' -> queried h K p key R cost' c h2 K'.
Proof. intros Hle []. split; try done. lia. Qed.

(** The table after a store of a new key. *)
Lemma ttable_ok_new K K' p t k key c l' : ttable_ok env K p t k -> K ⊆ K' -> child K' p key c ->
  m_numElementsInHashTable t + 1 < 2 ^ k ->
  probing_ok te_key_of (te_home env) 1 (2 ^ k) l' -> nodeleted l' -> transition_key key ->
  occupancy te_key_of l' = S (occupancy te_key_of (m_hashTable t)) ->
  (forall e k', te_key_of e = Some k' -> e ∈ l' <-> e = mkTransitionEntry key c \/ e ∈ m_hashTable t) ->
  ttable_ok env K' p (mkTransitionTable (m_hashTableMask t) (u32 (m_numElementsInHashTable t + 1)) l') k.
Proof.
  intros [] HK Hc Hn Hp Hnd Hkey Hocc Hel.
  assert (2 ^ k <= 2 ^ 27) as H2 by (apply Z.pow_le_mono_r; lia). change (2 ^ 27) with 134217728 in H2.
  assert (u32 (m_numElementsInHashTable t + 1) = m_numElementsInHashTable t + 1) as ->.
  { apply wrapu_small. unfold in_u. change (2 ^ 32) with 4294967296. lia. }
  split; simpl m_hashTable; simpl m_numElementsInHashTable; try done; [lia|lia|].
  intros e key' He Hke. apply (Hel e key' Hke) in He as [->|He].
  - by apply te_key_of_Some in Hke as [<- _].
  - eapply edge_child; [done|by apply tt_entries].
Qed.

Lemma sys_ok_eq h h' : m_systemHeapCurPtr h' = m_systemHeapCurPtr h ->
  m_systemHeapPtrLimit h' = m_systemHeapPtrLimit h -> sys_ok h -> sys_ok h'.
Proof. intros Hc Hl []. split; congruence. Qed.

(** Two tables with the same entries. *)
Lemma table_lookup_same n n' l l' key : probing_ok te_key_of (te_home env) 1 n l ->
  probing_ok te_key_of (te_home env) 1 n' l' -> transition_key key ->
  (forall e key, te_key_of e = Some key -> e ∈ l' <-> e ∈ l) -> table_lookup l' key = table_lookup l key.
Proof.
  intros Hp Hp' Hkey Hel. apply option_eq. intros v.
  rewrite (table_lookup_spec env n' l' key v), (table_lookup_spec env n l key v) by done.
  split; intros (e & He & Hk & Hv); exists e; (split_and!; [|done|done]); apply (Hel e key); auto; by apply te_key_of_Some.
Qed.

(** The store of a new key with the growth of the table; [t'] is the table after
    the store, [tn] the grown one at the fresh address. *)
Lemma install_expanded h K p s s2 q key R cost cost' c h2 K' t t' tn k limit : heap_inv env h K ->
  structures h !! p = Some s -> q mod 8 = 0 -> s_transitionTable s = q + 1 -> transitionTables h !! q = Some t ->
  ttable_ok env K p t k ->
  K ⊆ K' -> heap_inv env h2 K' -> frame h h2 -> child K' p key c -> R c K' -> structures h2 !! p = Some s2 ->
  m_systemHeapCurPtr h2 <= m_systemHeapCurPtr h + cost -> only_new K K' c -> transition_key key -> 0 < cost' ->
  sys_ok (alloc_heap h2 limit cost') -> ttable_ok env K' p t' k ->
  ttable_ok env K' p tn (k + 1) -> m_numElementsInHashTable tn <= 2 ^ (k + 1 - 1) ->
  (forall e key, te_key_of e = Some key -> e ∈ m_hashTable tn <-> e ∈ m_hashTable t') ->
  (forall key', transition_key key' ->
     table_lookup (m_hashTable t') key' = if key' =? key then Some c else table_lookup (m_hashTable t) key') ->
  let r := m_systemHeapCurPtr h2 in
  let h4 := with_transitionTables h2 (<[q := t']> (transitionTables h2)) in
  let h5 := table_heap h4 limit cost' r tn in
  queried h K p key R (cost + cost') c
    (with_structures h5 (<[p := with_transitionTable s2 (r + 1)]> (structures h5))) K'.
Proof.
  intros Hinv Hs H8 Hq Htq Hok HK Hinv2 Hf Hc HR Hs2 Hcur Honly Hkey Hpos Hsys Hok' Hokn Hload Hel Hlk r h4 h5.
  assert (transitionTables h2 !! q = Some t) as Htq2 by (by rewrite (fr_tables _ _ Hf)).
  assert (transitionTables h2 !! r = None) as Hr by (by eapply fresh_table; [done|unfold r; lia]).
  assert (r <> q) as Hrq by (intros ->; congruence).
  assert (r mod 8 = 0 /\ 0 < r) as [Hr8 Hrpos].
  { destruct (hi_sys _ _ _ Hinv2). unfold r. split; [done|lia]. }
  assert (r <> 0) as Hr0 by lia.
  set (hA := table_heap h2 limit cost' r tn).
  assert (heap_inv env hA K') as HinvA by (by apply inv_table_heap).
  set (hC := with_structures hA (<[p := with_transitionTable s2 (r + 1)]> (structures hA))).
  assert (heap_inv env hC K') as HinvC.
  { apply inv_store_tt; [done..|]. right; right. exists r, tn, (k + 1). split_and!; try done.
    simpl. apply lookup_insert_eq. }
  assert (s_transitionTable s2 = q + 1) as Hq2.
  { destruct (fr_structures _ _ Hf p s Hs) as (s2' & Hs2' & Hts). congruence. }
  set (h6 := with_structures h5 (<[p := with_transitionTable s2 (r + 1)]> (structures h5))).
  assert (h6 = with_transitionTables hC (<[q := t']> (transitionTables hC))) as Heq.
  { unfold h6, h5, hC, hA, h4, table_heap, with_structures, with_transitionTables, alloc_heap. simpl.
    by rewrite insert_insert_ne. }
  assert (heap_inv env h6 K') as Hinv6.
  { rewrite Heq. apply inv_garbage_table; [done| |].
    - simpl. rewrite lookup_insert_ne by done. eauto.
    - intros p' s'. simpl. destruct (decide (p = p')) as [<-|Hpp].
      + rewrite lookup_insert_eq. intros [= <-]. simpl. lia.
      + rewrite lookup_insert_ne by done. intros Hs' Hq'. apply Hpp. by apply (table_unique env h2 K' p p' s2 s' q). }
  destruct (tag_table r Hr8) as (T1 & T2 & T3 & _). destruct (tag_table q H8) as (U1 & U2 & U3 & _).
  assert (forall key', transition_key key' ->
    transition h6 p key' = if key' =? key then Some c else transition h p key') as Htr.
  { intros key' Hkey'. unfold transition at 1.
    assert (structures h6 !! p = Some (with_transitionTable s2 (r + 1))) as -> by apply lookup_insert_eq.
    cbn [mbind option_bind]. cbn [s_transitionTable with_transitionTable]. rewrite T1, T2, T3.
    assert (transitionTables h6 !! r = Some tn) as -> by apply lookup_insert_eq. cbn [mbind option_bind].
    rewrite (table_lookup_same _ _ _ _ _ (tt_probing _ _ _ _ _ Hok') (tt_probing _ _ _ _ _ Hokn)) by done.
    rewrite Hlk by done. destruct (key' =? key); [done|].
    unfold transition. rewrite Hs. cbn [mbind option_bind]. by rewrite Hq, U1, U2, U3, Htq. }
  split; try done.
  - by rewrite Htr, Z.eqb_refl.
  - intros p' key' Hp' Hkey' Hne. destruct (decide (p' = p)) as [->|Hpp].
    + rewrite Htr by done. destruct (Z.eqb_spec key' key) as [->|]; [tauto|done].
    + destruct (proj2 (hi_dom _ _ _ Hinv p') Hp') as [s' Hs'].
      destruct (fr_structures _ _ Hf p' s' Hs') as (s2' & Hs2' & Ht2').
      apply (transition_same env h K h6 K' p' s' s2'); [done..|simpl; by rewrite lookup_insert_ne|done|].
      intros q' Hq8 Hq'. assert (q' <> q) as Hqq.
      { intros ->. apply Hpp. by apply (table_unique env h K p' p s' s q). }
      assert (q' <> r) as Hqr.
      { intros ->. destruct (rep_intro env h2 K' p' s2' Hinv2 Hs2') as [Hv|k0 c0 Hv Hc8|q0 t0 k0 Hv _ _ Ht0].
        - lia.
        - rewrite Ht2', Hq' in Hv. subst c0. rewrite Zplus_mod, Hr8 in Hc8. done.
        - assert (q0 = r) as -> by lia. congruence. }
      simpl. rewrite !lookup_insert_ne, (fr_tables _ _ Hf) by done. done.
  - simpl. by rewrite (fr_dicts _ _ Hf).
  - simpl. pose proof (fr_cur _ _ Hf). lia.
Qed.

Lemma wp_write_transition (q slot key v : Z) (isNew : bool) t l' h (Q : unit -> SysHeap -> Prop) F :
  transitionTables h !! q = Some t -> set_slot (m_hashTable t) slot (mkTransitionEntry key v) = Some l' ->
  Q tt (with_transitionTables h (<[q := mkTransitionTable (m_hashTableMask t)
     (if isNew then u32 (m_numElementsInHashTable t + 1) else m_numElementsInHashTable t) l']> (transitionTables h))) ->
  wp (write_transition q slot key v isNew) h Q F.
Proof.
  intros Ht Hl HQ. unfold write_transition. apply wp_bind. eapply wp_load_transitionTable; [done|].
  apply wp_bind. eapply wp_access; [done|]. by apply wp_store_transitionTable.
Qed.

(** ** The query *)

Definition table_entries h (p : Z) : Z :=
  match s ← structures h !! p; transitionTables h !! TT_AsTable (s_transitionTable s) with
  | Some t => Z.of_nat (length (m_hashTable t))
  | None => 0
  end.
(** The most a query allocates, when its function allocates [cost]. *)
Definition query_cost h (p cost : Z) : Z := cost + 48 + 16 * table_entries h p.

Section spec.
Variables (isInsert : bool) (h : SysHeap) (K : Classes) (p key : Z) (func : option Z -> MH Z).
Variables (R : Z -> Classes -> Prop) (cost : Z).
Hypothesis inv : heap_inv env h K.
Hypothesis p_live : is_Some (K !! p).
Hypothesis key_ok : transition_key key.
Hypothesis cost_pos : 0 <= cost.
(** The function called when there is no transition for the key ... *)
Hypothesis func_new : transition h p key = None ->
  forall h1, heap_inv env h1 K -> wp (func None) h1 (made h1 K p key R cost) (low h1 cost).
(** ... and when there is one. *)
Hypothesis func_found : forall c, transition h p key = Some c ->
  if isInsert then R c K else wp (func (Some c)) h (made h K p key R cost) (low h cost).

Lemma entries_nonneg : 0 <= table_entries h p.
Proof. unfold table_entries. destruct (_ ≫= _); lia. Qed.

Lemma low_cost h1 n : m_systemHeapCurPtr h1 + n <= m_systemHeapCurPtr h + query_cost h p cost -> low h1 n -> low h (query_cost h p cost).
Proof. apply low_mono. Qed.

Lemma found_insert c : isInsert = true -> transition h p key = Some c -> exists K', queried h K p key R (query_cost h p cost) c h K'.
Proof.
  intros Hi Hc. exists K. specialize (func_found c Hc). rewrite Hi in func_found.
  split; try done; [by eapply transition_child| |apply only_new_refl].
  unfold query_cost. pose proof entries_nonneg. lia.
Qed.

(** No transitions yet. *)
Lemma query_none s (Q : Z -> SysHeap -> Prop) : structures h !! p = Some s ->
  (forall key', key' <> key -> transition h p key' = None) -> forall func',
  wp func' h (made h K p key R cost) (low h cost) ->
  (forall c h2 K', queried h K p key R (query_cost h p cost) c h2 K' -> Q c h2) ->
  wp (newStructure ← func'; store_tt p (TT_StoreStructure newStructure);; mret newStructure) h Q
     (low h (query_cost h p cost)).
Proof.
  intros Hs Hno func' Hf HQ. pose proof entries_nonneg. apply wp_bind. eapply wp_mono; [exact Hf|..].
  2: { apply low_cost. unfold query_cost. lia. }
  intros c h2 Hm. eapply install_single; [exact inv|exact Hs|exact Hno|exact Hm|].
  intros h3 K' Hq. eapply HQ. eapply queried_mono; [|exact Hq]. unfold query_cost. lia.
Qed.

(** The second child: an outlined table. *)
Lemma query_outline s key0 c0 (Q : Z -> SysHeap -> Prop) : structures h !! p = Some s ->
  s_transitionTable s = c0 -> c0 mod 8 = 0 -> c0 <> 0 -> child K p key0 c0 -> key0 <> key ->
  (forall key', transition h p key' = if key0 =? key' then Some c0 else None) ->
  (forall c h2 K', queried h K p key R (query_cost h p cost) c h2 K' -> Q c h2) ->
  wp (newTable ← InitializeOutlinedTransitionTable env p key0 c0;
      t ← load_transitionTable newTable;
      '(slot, _) ← access (Find env t key);
      newStructure ← func None;
      write_transition newTable slot key newStructure true;;
      mret newStructure) h Q (low h (query_cost h p cost)).
Proof.
  intros Hs Hv H8 H0 Hc0 Hne Htr HQ. pose proof entries_nonneg as Hen.
  unfold InitializeOutlinedTransitionTable. apply wp_bind, wp_bind.
  apply (wp_fail_mono _ _ _ (low h initial_table_cost)).
  { apply low_cost. unfold query_cost, initial_table_cost. lia. }
  eapply AllocateInitialTable_spec; [exact inv|exact Hc0|]. intros limit t Hsys Hok Hcnt Hlk.
  set (r := m_systemHeapCurPtr h). set (hA := table_heap h limit initial_table_cost r t).
  pose proof (inv_table_heap env h K limit initial_table_cost t inv Hsys ltac:(done)) as HinvA. fold r hA in HinvA.
  assert (structures hA !! p = Some s) as HsA by done.
  assert (r mod 8 = 0 /\ 0 < r) as [Hr8 Hrp] by (destruct (hi_sys _ _ _ inv); unfold r; split; [done|lia]).
  destruct (tag_table r Hr8) as (T1 & T2 & T3 & T4).
  apply wp_bind. eapply wp_store_tt; [exact HsA|]. rewrite T4. apply wp_ret.
  set (h1 := with_structures hA (<[p := with_transitionTable s (r + 1)]> (structures hA))).
  assert (transitionTables h1 !! r = Some t) as Htr1 by apply lookup_insert_eq.
  assert (heap_inv env h1 K) as Hinv1.
  { apply inv_store_tt; [done..|]. right; right. exists r, t, 2. rewrite Hcnt. split_and!; try done; lia. }
  assert (structures h1 !! p = Some (with_transitionTable s (r + 1))) as Hs1 by apply lookup_insert_eq.
  assert (transitionTables h !! r = None) as Hfresh by (by eapply fresh_table; [exact inv|unfold r; lia]).
  apply wp_bind. eapply wp_load_transitionTable; [exact Htr1|].
  destruct (Find_spec env t 2 key) as (slot & found & Hf & Hslot); [lia|apply Hok|apply Hok| |done|].
  { rewrite <- (tt_count _ _ _ _ _ Hok), Hcnt. done. }
  apply wp_bind. eapply wp_access; [exact Hf|].
  assert (table_lookup (m_hashTable t) key = None) as Hlkn.
  { rewrite Hlk by done. by destruct (Z.eqb_spec key0 key). }
  destruct found.
  { exfalso. destruct Hslot as (e & He & Hke). apply table_lookup_None in Hlkn; [|done]. apply Hlkn. exists e.
    split; [by eapply at_slot_elem|by apply te_key_of_Some]. }
  destruct Hslot as (Hno & d & e0 & -> & Hfe).
  apply wp_bind. eapply wp_mono; [apply func_new; [|exact Hinv1]|..].
  { rewrite Htr. by destruct (Z.eqb_spec key0 key). }
  2: { apply low_cost. unfold query_cost. simpl. unfold initial_table_cost. lia. }
  intros c h2 (K' & HK & Hinv2 & Hfr & Hc & HR & Hcur & Honly).
  destruct (set_new env (m_hashTable t) 2 key c d e0) as (l' & Hset & Hpr' & Hnd' & Hocc' & Hel' & Hlk');
    [lia|apply Hok|exact (tt_nodeleted _ _ _ _ _ Hok)|done..|].
  apply wp_bind. eapply wp_write_transition; [by rewrite (fr_tables _ _ Hfr)|exact Hset|]. apply wp_ret.
  eapply (HQ _ _ K'). apply (queried_mono h K p key R (initial_table_cost + cost)).
  { unfold query_cost, initial_table_cost. lia. }
  apply (queried_before h h1); [|done|simpl; unfold initial_table_cost; lia|].
  - intros p' key' Hp' Hkey'. destruct (decide (p' = p)) as [->|Hpp].
    + unfold transition at 1. rewrite Hs1. cbn [mbind option_bind]. cbn [s_transitionTable with_transitionTable].
      rewrite T1, T2, T3, Htr1. cbn [mbind option_bind]. by rewrite Hlk, Htr.
    + destruct (proj2 (hi_dom _ _ _ inv p') Hp') as [s' Hs'].
      apply (transition_same env h K h1 K p' s' s'); [done..|simpl; by rewrite lookup_insert_ne|done|].
      intros q' Hq8 Hq'. simpl. rewrite lookup_insert_ne; [done|]. intros <-.
      destruct (rep_intro env h K p' s' inv Hs') as [Hv'|k1 c1 Hv' Hc8|q1 t1 k1 Hv' _ _ Ht1].
      * lia.
      * rewrite Hq' in Hv'. subst c1. rewrite Zplus_mod, Hr8 in Hc8. done.
      * assert (q1 = r) as -> by lia. congruence.
  - eapply (install_table h1 K p (with_transitionTable s (r + 1)) r key R cost c h2 K' t _ 2); try done.
    + apply (ttable_ok_new K K' p t 2 key c); try done. rewrite Hcnt. done.
    + simpl m_numElementsInHashTable. rewrite Hcnt. done.
Qed.

(** A table that does not have the key: the store, and growth when it is due. *)
Lemma query_table_new s q t k slot0 (Q : Z -> SysHeap -> Prop) : structures h !! p = Some s ->
  s_transitionTable s = q + 1 -> q mod 8 = 0 -> transitionTables h !! q = Some t -> ttable_ok env K p t k ->
  m_numElementsInHashTable t <= 2 ^ (k - 1) -> ~ has_key te_key_of (m_hashTable t) key -> transition h p key = None ->
  (exists d e, slot0 = pos (te_home env) 1 (2 ^ k) key d /\
     first_empty te_key_of (te_home env) 1 (2 ^ k) (m_hashTable t) key d e) ->
  (forall c h2 K', queried h K p key R (query_cost h p cost) c h2 K' -> Q c h2) ->
  wp (newStructure ← func None;
      write_transition q slot0 key newStructure true;;
      t ← load_transitionTable q;
      (if ShouldResizeForThisInsertion t then
         newTable ← Expand env t;
         store_tt p (TT_StoreTable newTable)
       else mret ());;
      mret newStructure) h Q (low h (query_cost h p cost)).
Proof.
  intros Hs Hq H8 Htq Hok Hload Hno Hnone (d & e0 & -> & Hfe) HQ. pose proof entries_nonneg as Hen.
  pose proof Hok as [].
  assert (2 ^ k = 2 * 2 ^ (k - 1)) as H2k by (rewrite <- Z.pow_succ_r by lia; f_equal; lia).
  assert (2 ^ 1 <= 2 ^ (k - 1) /\ 2 ^ k <= 2 ^ 27) as [H2l H2u] by (split; apply Z.pow_le_mono_r; lia).
  change (2 ^ 1) with 2 in H2l. change (2 ^ 27) with 134217728 in H2u.
  assert (table_entries h p = 2 ^ k) as Hentries.
  { unfold table_entries. rewrite Hs. cbn [mbind option_bind]. destruct (tag_table q H8) as (_ & _ & T3 & _).
    rewrite Hq, T3, Htq, (po_length _ _ _ _ _ tt_probing). lia. }
  apply wp_bind. eapply wp_mono; [by apply func_new|..].
  2: { apply low_cost. unfold query_cost. lia. }
  intros c h2 (K' & HK & Hinv2 & Hfr & Hc & HR & Hcur & Honly).
  assert (transitionTables h2 !! q = Some t) as Htq2 by (by rewrite (fr_tables _ _ Hfr)).
  destruct (set_new env (m_hashTable t) k key c d e0) as (l' & Hset & Hpr' & Hnd' & Hocc' & Hel' & Hlk');
    [lia|done|exact tt_nodeleted|done..|].
  apply wp_bind. eapply wp_write_transition; [exact Htq2|exact Hset|].
  set (t' := mkTransitionTable _ _ l').
  assert (ttable_ok env K' p t' k) as Hok'.
  { apply (ttable_ok_new K K' p t k key c); try done. lia. }
  assert (m_numElementsInHashTable t' = m_numElementsInHashTable t + 1) as Hcnt'.
  { simpl m_numElementsInHashTable. apply wrapu_small. unfold in_u. change (2 ^ 32) with 4294967296. lia. }
  set (h4 := with_transitionTables h2 (<[q := t']> (transitionTables h2))).
  apply wp_bind. eapply wp_load_transitionTable; [apply lookup_insert_eq|].
  assert (m_hashTableMask t' / 2 + 1 = 2 ^ (k - 1)) as Hhalf.
  { simpl. rewrite tt_mask, H2k. pose proof (Z.div_mod (2 * 2 ^ (k - 1) - 1) 2 ltac:(lia)).
    pose proof (Z.mod_pos_bound (2 * 2 ^ (k - 1) - 1) 2 ltac:(lia)). lia. }
  unfold ShouldResizeForThisInsertion. rewrite Hhalf, Hcnt'. apply wp_bind.
  destruct (Z.leb_spec (2 ^ (k - 1)) (m_numElementsInHashTable t + 1)) as [Hge|Hlt].
  - apply wp_bind. apply (wp_fail_mono _ _ _ (low h4 (expand_cost k))).
    { apply low_cost. simpl. unfold query_cost, expand_cost. rewrite Hentries. lia. }
    apply Expand_spec; [by apply (sys_ok_eq h2); [..|apply Hinv2]|lia|done|done|exact Hnd'|].
    intros limit tn Hsys Hk27 Hmn Hcn Hpn Hndn Hoccn Heln.
    destruct (fr_structures _ _ Hfr p s Hs) as (s2 & Hs2 & Hts2).
    pose proof (hi_sys _ _ _ Hinv2) as Hsys2.
    destruct (tag_table (m_systemHeapCurPtr h4)) as (_ & _ & _ & T4); [apply Hsys2|].
    eapply wp_store_tt; [exact Hs2|]. rewrite T4. apply wp_ret.
    eapply (HQ _ _ K'). apply (queried_mono _ _ _ _ _ (cost + expand_cost k)).
    { unfold query_cost, expand_cost. rewrite Hentries. lia. }
    apply (install_expanded h K p s s2 q key R cost (expand_cost k) c h2 K' t t' tn k limit); try done.
    + unfold expand_cost. lia.
    + by apply (sys_ok_eq (alloc_heap h4 limit (expand_cost k))).
    + split; [lia|done|done| | | |exact Hndn].
      * rewrite Hcn, Hoccn. simpl m_hashTable. rewrite Hcnt', Hocc', tt_count. lia.
      * rewrite Hcn, Hcnt', Z.pow_add_r by lia. change (2 ^ 1) with 2. lia.
      * intros e key' He Hke. apply (ClassInv.tt_entries _ _ _ _ _ Hok' e); [|done]. by apply (Heln e key').
    + rewrite Hcn, Hcnt'. replace (k + 1 - 1) with k by lia. lia.
  - apply wp_ret, wp_ret. eapply (HQ _ _ K'). apply (queried_mono _ _ _ _ _ cost); [unfold query_cost; lia|].
    apply (install_table h K p s q key R cost c h2 K' t t' k); try done. lia.
Qed.

(** A table that has the key. *)
Lemma query_table_found s q t k slot0 e (Q : Z -> SysHeap -> Prop) : structures h !! p = Some s ->
  s_transitionTable s = q + 1 -> q mod 8 = 0 -> transitionTables h !! q = Some t -> ttable_ok env K p t k ->
  m_numElementsInHashTable t <= 2 ^ (k - 1) -> (forall key', transition h p key' = table_lookup (m_hashTable t) key') ->
  at_slot (m_hashTable t) slot0 = Some e -> te_key e = key ->
  (forall c h2 K', queried h K p key R (query_cost h p cost) c h2 K' -> Q c h2) ->
  wp (e ← access (at_slot (m_hashTable t) slot0);
      if isInsert then mret (te_value e)
      else
        newStructure ← func (Some (te_value e));
        write_transition q slot0 key newStructure false;;
        mret newStructure) h Q (low h (query_cost h p cost)).
Proof.
  intros Hs Hq H8 Htq Hok Hload Htr He Hke HQ. pose proof entries_nonneg as Hen. pose proof Hok as [].
  apply wp_bind. eapply wp_access; [exact He|].
  assert (transition h p key = Some (te_value e)) as Hcur.
  { rewrite Htr. apply (table_lookup_spec env (2 ^ k)); [done..|]. exists e. split_and!; [by eapply at_slot_elem|done|done]. }
  pose proof (found_insert (te_value e)) as Hfi. pose proof (func_found _ Hcur) as Hff. destruct isInsert.
  { apply wp_ret. destruct (Hfi eq_refl Hcur) as [K' Hqd]. by eapply HQ. }
  apply wp_bind. eapply wp_mono; [exact Hff|..].
  2: { apply low_cost. unfold query_cost. lia. }
  intros c h2 (K' & HK & Hinv2 & Hfr & Hc & HR & Hcur2 & Honly).
  assert (transitionTables h2 !! q = Some t) as Htq2 by (by rewrite (fr_tables _ _ Hfr)).
  destruct (set_found env (m_hashTable t) k key c slot0 e) as (l' & Hset & Hpr' & Hnd' & Hocc' & Hel' & Hlk');
    [lia|done|exact tt_nodeleted|done..|].
  apply wp_bind. eapply wp_write_transition; [exact Htq2|exact Hset|]. apply wp_ret.
  eapply (HQ _ _ K'). apply (queried_mono _ _ _ _ _ cost); [unfold query_cost; lia|].
  apply (install_table h K p s q key R cost c h2 K' t _ k); try done.
  split; simpl m_hashTable; simpl m_numElementsInHashTable; try done.
  - by rewrite Hocc'.
  - intros x key' Hx Hkx. destruct (Hel' x key' Hkx Hx) as [->|Hx'].
    + by apply te_key_of_Some in Hkx as [<- _].
    + eapply edge_child; [done|by apply tt_entries].
Qed.

(** The query, for every representation of the transition table. *)
Lemma QueryTransitionTableAndInsertOrUpsertImpl_spec (Q : Z -> SysHeap -> Prop) :
  (forall c h2 K', queried h K p key R (query_cost h p cost) c h2 K' -> Q c h2) ->
  wp (QueryTransitionTableAndInsertOrUpsertImpl env isInsert p key func) h Q (low h (query_cost h p cost)).
Proof.
  intros HQ. destruct (proj2 (hi_dom _ _ _ inv p) p_live) as [s Hs].
  unfold QueryTransitionTableAndInsertOrUpsertImpl. apply wp_bind. eapply wp_load_structure; [exact Hs|].
  destruct (rep_intro env h K p s inv Hs) as [Hv Htr|key0 c0 Hv H8 H0 Hc0 Htr|q t k Hv H8 H0 Htq Hok Hload Htr].
  - rewrite Hv. change (TT_IsNullPtr 0) with true. cbn [s_transitionTable].
    eapply query_none; [exact Hs|by intros; rewrite Htr|apply func_new; [by rewrite Htr|done]|exact HQ].
  - destruct (tag_structure c0 H8 H0) as (T1 & T2 & T3 & _). rewrite Hv, T1, T2, T3.
    destruct (child_key env h K p key0 c0 inv Hc0) as (_ & _ & sc & Hsc & Hk0).
    apply wp_bind. eapply wp_load_structure; [exact Hsc|]. apply wp_bind. eapply wp_access; [exact Hk0|].
    destruct (Z.eqb_spec key0 key) as [->|Hne].
    + assert (transition h p key = Some c0) as Hcur by (by rewrite Htr, Z.eqb_refl).
      pose proof (found_insert c0) as Hfi. pose proof (func_found _ Hcur) as Hff. destruct isInsert.
      { apply wp_ret. destruct (Hfi eq_refl Hcur) as [K' Hqd]. by eapply HQ. }
      eapply query_none; [exact Hs| |exact Hff|exact HQ].
      intros key' Hne. rewrite Htr. by destruct (Z.eqb_spec key key').
    + eapply query_outline; [exact Hs|exact Hv|done..].
  - destruct (tag_table q H8) as (T1 & T2 & T3 & _). rewrite Hv, T1, T2, T3. pose proof Hok as [].
    apply wp_bind. eapply wp_load_transitionTable; [exact Htq|].
    destruct (Find_spec env t k key) as (slot0 & found & Hf & Hslot); [lia|done|done|lia|done|].
    apply wp_bind. eapply wp_access; [exact Hf|]. destruct found; cbn [negb].
    + destruct Hslot as (e & He & Hke). eapply query_table_found; done.
    + destruct Hslot as (Hno & Hex). eapply query_table_new; try done. rewrite Htr. by apply table_lookup_None.
Qed.
End spec.

(** An insertion returns the child that is there, if there is one. *)
Lemma QueryTransitionTableAndInsert_spec h K p key func (R : Z -> Classes -> Prop) cost (Q : Z -> SysHeap -> Prop) :
  heap_inv env h K -> is_Some (K !! p) -> transition_key key -> 0 <= cost ->
  (forall h1, heap_inv env h1 K -> wp func h1 (made h1 K p key R cost) (low h1 cost)) ->
  (forall c, transition h p key = Some c -> R c K) ->
  (forall c h2 K', queried h K p key R (query_cost h p cost) c h2 K' ->
     (forall c', transition h p key = Some c' -> c' = c) -> Q c h2) ->
  wp (QueryTransitionTableAndInsert env p key func) h Q (low h (query_cost h p cost)).
Proof.
  intros Hinv Hp Hkey Hcost Hnew Hfound HQ.
  apply (QueryTransitionTableAndInsertOrUpsertImpl_spec true h K p key _
    (fun c K' => R c K' /\ forall c', transition h p key = Some c' -> c' = c)); try done.
  - intros Hn h1 Hinv1. eapply wp_post_mono; [|by apply Hnew].
    intros c h2 (K' & H1 & H2 & H3 & H4 & H5 & H6). exists K'. split_and!; try done; [|apply H6..].
    intros c'. by rewrite Hn.
  - intros c Hc. split; [by apply Hfound|]. intros c'. congruence.
  - intros c h2 K' []. destruct q_result0 as [HR Hsame]. eapply HQ; [|exact Hsame]. by split.
Qed.

(** ... and then does nothing else. *)
Lemma QueryTransitionTableAndInsert_known h K p key func c : heap_inv env h K -> transition_key key ->
  transition h p key = Some c -> QueryTransitionTableAndInsert env p key func h = Ok (c, h).
Proof.
  intros Hinv Hkey Ht. destruct (structures h !! p) as [s|] eqn:Hs; [|unfold transition in Ht; by rewrite Hs in Ht].
  unfold QueryTransitionTableAndInsert, QueryTransitionTableAndInsertOrUpsertImpl, load_structure, load_transitionTable.
  rewrite bind_assoc, get_bind, Hs, (access_bind _ s) by done.
  destruct (rep_intro env h K p s Hinv Hs) as [Hv Htr|key0 c0 Hv H8 H0 Hc0 Htr|q t k Hv H8 H0 Htq Hok Hload Htr]; rewrite Htr in Ht.
  - done.
  - destruct (tag_structure c0 H8 H0) as (T1 & T2 & T3 & _). rewrite Hv, T1, T2, T3.
    destruct (child_key env h K p key0 c0 Hinv Hc0) as (_ & _ & sc & Hsc & Hk0).
    rewrite bind_assoc, get_bind, Hsc, (access_bind _ sc), Hk0, (access_bind _ key0) by done.
    destruct (Z.eqb_spec key0 key); [|done]. by injection Ht as ->.
  - destruct (tag_table q H8) as (T1 & T2 & T3 & _). rewrite Hv, T1, T2, T3. pose proof Hok as [].
    rewrite bind_assoc, get_bind, Htq, (access_bind _ t) by done.
    destruct (Find_spec env t k key) as (slot0 & found & Hf & Hslot); [lia|done|done|lia|done|].
    rewrite Hf, (access_bind _ (slot0, found)) by done. destruct found; cbn [negb].
    + destruct Hslot as (e & He & Hke). rewrite He, (access_bind _ e) by done.
      apply (table_lookup_spec env (2 ^ k)) in Ht as (e' & He' & Hke' & <-); [|done|done].
      apply at_slot_Some in He as [_ He]. apply list_elem_of_lookup_1 in He' as [j Hj].
      assert (Z.to_nat slot0 = j) as <-; [|by replace e' with e by congruence].
      eapply (po_distinct _ _ _ _ _ tt_probing _ _ e e' key); [done|done|by apply te_key_of_Some..].
    + destruct Hslot as [Hno _]. apply table_lookup_None in Hno; [congruence|done].
Qed.
End query.
