(* ===== verification/ClassOps.v ===== *)
(** * The transitions of hidden classes

    Specifications of [CreateInitialStructure], [AddNonExistentProperty],
    [SetMetatable], [RemoveMetatable] and [UpdateArrayType]: what the structure
    they return means, which transitions they record, and that they keep the
    invariant of the heap. *)

From S2P Require Import Prelude MiscMath Machine TypeMask ArrayType Butterfly Probing CheckedTable ClassHeap Structure Transition ClassInv ClassLookup ClassFrame ClassAnchor ClassCreate ClassTable ClassTransition ClassQuery.

Section ops.
Variable env : Env.
(** The reserved key of the metatable slot is a heap object like every key. *)
Hypothesis special_user : user_key (GetSpecialKeyForMetadataSlot env).
Implicit Types (h : SysHeap) (K : Classes).

(** ** What a child by a key is *)

Lemma child_info h K p i key c : heap_inv env h K -> K !! p = Some i -> child K p key c ->
  exists i', K !! c = Some i' /\ edge env p i i' /\ edge_key i' = Some key.
Proof.
  intros Hinv Hi (i' & Hi' & Hp & He). exists i'. split_and!; [done| |done].
  destruct (hi_rooted _ _ _ Hinv c i' Hi') as [(Hk & _)|(ip & Hip & Hedge)].
  - unfold edge_key in He. by rewrite Hk in He.
  - rewrite Hp in Hip, Hedge. by replace i with ip by congruence.
Qed.

Lemma edge_key_property p i g : edge_key (add_info env p i AddSlotForProperty g) = Some g.
Proof. unfold edge_key, add_info. simpl. destruct (expansion_of _ _ _); simpl; apply last_snoc. Qed.

Lemma edge_key_poly p i g : edge_key (add_info env p i AddSlotForPolyMetatable g) = Some x_key_add_or_to_poly_metatable.
Proof. unfold edge_key, add_info. simpl. by destruct (expansion_of _ _ _). Qed.

Lemma valid_key_neg g : valid_key g -> g < 0.
Proof. unfold valid_key. pow2. lia. Qed.

Lemma valid_transition_key g : valid_key g -> transition_key g.
Proof. intros Hg%valid_key_neg. unfold transition_key, x_key_invalid, x_key_deleted. lia. Qed.

Lemma array_type_key t : 0 <= t <= x_usefulBitsMask -> Z.lor x_key_change_array_type_tag t = 256 + t.
Proof.
  intros Ht. change x_usefulBitsMask with 63 in Ht. change x_key_change_array_type_tag with (1 * 2 ^ 8).
  rewrite lor_high by (pow2; lia). pow2. lia.
Qed.

(** The child by a key of each kind. *)
Lemma edge_by_property p i i' g : edge env p i i' -> edge_key i' = Some g -> valid_key g ->
  i' = add_info env p i AddSlotForProperty g.
Proof.
  intros He Hk Hg%valid_key_neg. destruct He.
  - rewrite edge_key_property in Hk. by injection Hk as ->.
  - rewrite edge_key_poly in Hk. injection Hk as <-. done.
  - injection Hk as <-. done.
  - injection Hk as <-. done.
  - injection Hk as <-. rewrite array_type_key in Hg by done. change x_usefulBitsMask with 63 in *. lia.
Qed.

Lemma edge_by_metatable p i i' : edge env p i i' -> edge_key i' = Some x_key_add_or_to_poly_metatable ->
  (i' = add_info env p i AddSlotForPolyMetatable (special env) /\ i_metatable i <= 0) \/
  exists m, i' = clone_info p i AddMetaTable m (SetMayHaveMetatable (i_arrayType i) true) /\ i_metatable i = 0 /\ m < 0.
Proof.
  intros He Hk. destruct He as [g Hg| | | |t Ht].
  - rewrite edge_key_property in Hk. injection Hk as ->. apply valid_key_neg in Hg. done.
  - left. done.
  - right. by exists m.
  - done.
  - injection Hk as Hk. rewrite array_type_key in Hk by done. change x_usefulBitsMask with 63 in *.
    unfold x_key_add_or_to_poly_metatable in Hk. lia.
Qed.

Lemma edge_by_remove p i i' : edge env p i i' -> edge_key i' = Some x_key_remove_metatable ->
  i' = clone_info p i RemoveMetaTable 0 (SetMayHaveMetatable (i_arrayType i) false).
Proof.
  intros He Hk. destruct He as [g Hg| | | |t Ht].
  - rewrite edge_key_property in Hk. injection Hk as ->. apply valid_key_neg in Hg. done.
  - rewrite edge_key_poly in Hk. done.
  - done.
  - done.
  - injection Hk as Hk. rewrite array_type_key in Hk by done. change x_usefulBitsMask with 63 in *.
    unfold x_key_remove_metatable in Hk. lia.
Qed.

Lemma edge_by_array_type p i i' t : edge env p i i' -> 0 <= t <= x_usefulBitsMask ->
  edge_key i' = Some (Z.lor x_key_change_array_type_tag t) ->
  i' = clone_info p i UpdateArrayTypeKind (i_metatable i) t.
Proof.
  intros He Ht Hk. rewrite array_type_key in Hk by done. change x_usefulBitsMask with 63 in *. destruct He as [g Hg| | | |t' Ht'].
  - rewrite edge_key_property in Hk. injection Hk as ->. apply valid_key_neg in Hg. lia.
  - rewrite edge_key_poly in Hk. injection Hk as Hk. unfold x_key_add_or_to_poly_metatable in Hk. lia.
  - injection Hk as Hk. unfold x_key_add_or_to_poly_metatable in Hk. lia.
  - injection Hk as Hk. unfold x_key_remove_metatable in Hk. lia.
  - injection Hk as Hk. rewrite array_type_key in Hk by done. by assert (t' = t) as -> by lia.
Qed.

(** ** The functions the queries are given *)

(** A created node that is an edge of [p] becomes a class. *)
Lemma made_of_created h K p i kind key r h2 h1 node node' i' tkey cost : K !! p = Some i ->
  created_post env h K p i kind key r h2 h1 node ->
  class_ok env (anchors h1) K node' i' -> s_transitionTable node' = 0 -> edge env p i i' -> i_parent i' = p ->
  edge_key i' = Some tkey -> create_cost <= cost ->
  made env h K p tkey (fun c K' => K' !! c = Some i') cost r (with_structures h1 (<[r := node']> (structures h1))).
Proof.
  intros Hi [] Hc Htt He Hp Hk Hcost. exists (<[r := i']> K).
  assert (K ⊆ <[r := i']> K) as HK by (by apply insert_subseteq).
  assert (structures h1 !! r = None) as Hr.
  { apply eq_None_not_Some. rewrite (hi_dom _ _ _ cp_inv), cp_fresh. by intros [? ?]. }
  split_and!; [done| | | | | |].
  - apply inv_add_class; try done. right. exists i. by rewrite Hp.
  - eapply frame_trans; [done|]. by apply frame_add_structure.
  - exists i'. split_and!; [apply lookup_insert_eq|done|done].
  - apply lookup_insert_eq.
  - simpl. lia.
  - intros x ix. destruct (decide (r = x)) as [->|]; [by right|]. rewrite lookup_insert_ne by done. by left.
Qed.

Lemma create_property_spec h K p i key : heap_inv env h K -> K !! p = Some i ->
  may_create env i AddSlotForProperty key ->
  wp (CreateStructureForAddPropertyTransition env p key) h
    (made env h K p (GeneralHeapPointer key)
       (fun c K' => K' !! c = Some (add_info env p i AddSlotForProperty (GeneralHeapPointer key))) create_cost)
    (low h create_cost).
Proof.
  intros Hinv Hi Hmay. eapply CreateStructureForTransitionImpl_spec; [done..|].
  intros r h2 h1 node Hp. pose proof Hp as []. rewrite cp_heap. destruct Hmay as (Hu & Hs & Hn & Hc).
  destruct (user_key_spec key Hu) as [Hv _].
  eapply made_of_created; [done..| |done|apply edge_key_property|done]. by apply edge_property.
Qed.

Lemma create_poly_spec h K p i : heap_inv env h K -> K !! p = Some i -> i_metatable i <= 0 ->
  wp (CreateStructureForPolyMetatableTransition env p) h
    (made env h K p x_key_add_or_to_poly_metatable
       (fun c K' => K' !! c = Some (add_info env p i AddSlotForPolyMetatable (special env))) create_cost)
    (low h create_cost).
Proof.
  intros Hinv Hi Hmay. eapply CreateStructureForTransitionImpl_spec; [done..|done|].
  intros r h2 h1 node Hp. pose proof Hp as []. rewrite cp_heap.
  eapply made_of_created; [done..| |done|apply edge_key_poly|done]. by apply edge_poly.
Qed.

(** A clone with another edge. *)
Lemma class_ok_edge A K s p i kind m t : class_ok env A K s (clone_info p i BadTransitionKind (i_metatable i) (i_arrayType i)) ->
  (m <= 0 -> i_metatable i <= 0) -> (0 < m -> m = i_metatable i) -> 0 <= t <= x_usefulBitsMask ->
  class_ok env A K (with_edge s kind m t) (clone_info p i kind m t).
Proof.
  intros [] Hm Hm' Ht. split; simpl; try done. unfold i_count in *. simpl in *.
  destruct cl_poly as [?|[? ?]]; [left|right].
  - destruct (Z.le_gt_cases m 0); [tauto|]. specialize (Hm' ltac:(lia)). lia.
  - destruct (Z.le_gt_cases m 0); [lia|]. specialize (Hm' ltac:(lia)). subst m. done.
Qed.

Lemma create_clone_spec h K p i kind m t tkey (f : Structure -> Structure) : heap_inv env h K -> K !! p = Some i ->
  (forall s, s_metatable s = i_metatable i -> s_arrayType s = i_arrayType i -> f s = with_edge s kind m t) ->
  (m <= 0 -> i_metatable i <= 0) -> (0 < m -> m = i_metatable i) -> 0 <= t <= x_usefulBitsMask ->
  edge env p i (clone_info p i kind m t) -> edge_key (clone_info p i kind m t) = Some tkey ->
  wp (newStructure ← CloneStructure env p;
      s ← load_structure newStructure;
      store_structure newStructure (f s);;
      mret newStructure) h
    (made env h K p tkey (fun c K' => K' !! c = Some (clone_info p i kind m t)) create_cost)
    (low h create_cost).
Proof.
  intros Hinv Hi Hf Hm Hm' Ht He Hk. apply wp_bind. eapply CreateStructureForTransitionImpl_spec; [done..|done|].
  intros r h2 h1 node Hp. pose proof Hp as [].
  apply wp_bind. eapply wp_load_structure; [rewrite cp_heap; apply lookup_insert_eq|].
  apply wp_bind, wp_store_structure, wp_ret.
  rewrite Hf; [|apply cp_class|apply cp_class].
  assert (with_structures h2 (<[r := with_edge node kind m t]> (structures h2)) =
    with_structures h1 (<[r := with_edge node kind m t]> (structures h1))) as ->.
  { rewrite cp_heap. unfold with_structures. simpl. by rewrite insert_insert_eq. }
  eapply made_of_created; try done. by apply class_ok_edge.
Qed.

(** ** [AddNonExistentProperty] *)

Lemma AddNonExistentProperty_spec h K p i key (Q : option AddNewPropertyResult -> SysHeap -> Prop) :
  let g := GeneralHeapPointer key in
  let i' := add_info env p i AddSlotForProperty g in
  heap_inv env h K -> K !! p = Some i -> user_key key -> g <> special env -> g ∉ i_keys i ->
  (x_maxNumSlots <= i_count i -> Q None h) ->
  (forall c h2 K', i_count i < x_maxNumSlots ->
     queried env h K p g (fun c K' => K' !! c = Some i') (query_cost h p create_cost) c h2 K' ->
     (forall c', transition h p g = Some c' -> c' = c) ->
     Q (Some (mkAddNewProperty (bool_decide (i_kind i' = AddPropertyAndGrowPropertyStorageCapacity)) (i_count i) c)) h2) ->
  wp (AddNonExistentProperty env p key) h Q (low h (query_cost h p create_cost)).
Proof.
  intros g i' Hinv Hi Hu Hs Hn HQn HQ. destruct (inv_structure env h K Hinv p i Hi) as (s & Hst & Hc).
  destruct (user_key_spec key Hu) as [Hv _].
  unfold AddNonExistentProperty. apply wp_bind. eapply wp_load_structure; [done|].
  rewrite (cl_numSlots _ _ _ _ _ Hc). destruct (Z.leb_spec x_maxNumSlots (i_count i)) as [Hge|Hlt].
  { by apply wp_ret, HQn. }
  apply wp_bind. eapply QueryTransitionTableAndInsert_spec; [done|eauto|by apply valid_transition_key|done|..].
  - intros h1 Hinv1. by apply create_property_spec.
  - intros c Ht. apply (transition_child env h K) in Ht; [|done|by apply valid_transition_key].
    destruct (child_info h K p i g c Hinv Hi Ht) as (ic & Hic & He & Hk).
    rewrite Hic. f_equal. by apply edge_by_property.
  - intros c h2 K' Hq Hsame. pose proof Hq as []. destruct (inv_structure env h2 K' q_inv c i' q_result) as (sc & Hsc & Hcc).
    apply wp_bind. eapply wp_load_structure; [done|]. apply wp_ret.
    rewrite (cl_kind _ _ _ _ _ Hcc). by eapply HQ.
Qed.

(** ** [UpdateArrayType] *)

Lemma Structure_UpdateArrayType_spec h K p i t (Q : Z -> SysHeap -> Prop) :
  heap_inv env h K -> K !! p = Some i -> 0 <= t <= x_usefulBitsMask -> t <> i_arrayType i ->
  MayHaveMetatable t = MayHaveMetatable (i_arrayType i) ->
  (forall c h2 K', queried env h K p (Z.lor x_key_change_array_type_tag t)
     (fun c K' => K' !! c = Some (clone_info p i UpdateArrayTypeKind (i_metatable i) t)) (query_cost h p create_cost) c h2 K' ->
     (forall c', transition h p (Z.lor x_key_change_array_type_tag t) = Some c' -> c' = c) -> Q c h2) ->
  wp (Structure_UpdateArrayType env p t) h Q (low h (query_cost h p create_cost)).
Proof.
  intros Hinv Hi Ht Hne Hmeta HQ. assert (transition_key (Z.lor x_key_change_array_type_tag t)) as Hkey.
  { rewrite array_type_key by done. unfold transition_key, x_key_invalid, x_key_deleted. change x_usefulBitsMask with 63 in Ht. lia. }
  eapply QueryTransitionTableAndInsert_spec; [done|eauto|done|done|..|exact HQ].
  - intros h1 Hinv1. unfold create_for_array_type.
    eapply (create_clone_spec h1 K p i UpdateArrayTypeKind (i_metatable i) t _
      (fun s => with_edge s UpdateArrayTypeKind (s_metatable s) t)); try done.
    + by intros s ->.
    + by apply edge_array.
  - intros c Htr. apply (transition_child env h K) in Htr; [|done|done].
    destruct (child_info h K p i _ c Hinv Hi Htr) as (ic & Hic & He & Hk). rewrite Hic. f_equal. by apply edge_by_array_type.
Qed.

(** ** The transition to a metatable *)

(** The transition by [x_key_add_or_to_poly_metatable] leads to the last
    structure made for it: once there are two metatables, to the poly structure. *)
Definition metatable_inv h K : Prop := forall x ix, K !! x = Some ix -> i_kind ix = AddMetaTable ->
  exists c, transition h (i_parent ix) x_key_add_or_to_poly_metatable = Some c /\
    (c = x \/ exists ic, K !! c = Some ic /\ 0 < i_metatable ic).

(** New structures are roots or made from earlier ones. *)
Inductive grown : Classes -> Classes -> Prop :=
| grown_refl K : grown K K
| grown_new K K1 c i : grown K K1 -> K1 !! c = None -> rooted env K1 i -> grown K (<[c := i]> K1).

Lemma grown_trans K1 K2 K3 : grown K1 K2 -> grown K2 K3 -> grown K1 K3.
Proof. intros H12 H23. induction H23; [done|]. constructor; auto. Qed.

Lemma queried_grown h K p key R cost c h2 K' : is_Some (K !! p) -> queried env h K p key R cost c h2 K' -> grown K K'.
Proof.
  intros [ip Hp] []. destruct q_child as (ic & Hic & Hpar & Hek).
  destruct (K !! c) as [i0|] eqn:Hc.
  - replace K' with K; [constructor|]. apply map_eq. intros x. apply option_eq. intros ix. split; intros Hx.
    + by eapply lookup_weaken.
    + destruct (q_only x ix Hx) as [?| ->]; [done|]. rewrite <- Hx. symmetry. rewrite Hc. by eapply lookup_weaken.
  - replace K' with (<[c := ic]> K).
    + apply grown_new; [constructor|done|]. destruct (hi_rooted _ _ _ q_inv c ic Hic) as [(Hk & _)|(iq & Hq & He)].
      * unfold edge_key in Hek. by rewrite Hk in Hek.
      * right. exists iq. split; [|done]. rewrite Hpar in *. rewrite <- Hq, Hp. symmetry. by eapply lookup_weaken.
    + apply map_eq. intros x. destruct (decide (c = x)) as [<-|Hne]; [by rewrite lookup_insert_eq|].
      rewrite lookup_insert_ne by done. apply option_eq. intros ix. split; intros Hx; [by eapply lookup_weaken|].
      by destruct (q_only x ix Hx) as [?| ->].
Qed.

(** The two invariants together, for structures that grew from none. *)
Record classes_inv h K : Prop := { ci_heap : heap_inv env h K; ci_metatable : metatable_inv h K; ci_grown : grown ∅ K }.

Lemma metatable_key : transition_key x_key_add_or_to_poly_metatable.
Proof. by split. Qed.

Lemma rooted_parent K i : rooted env K i -> i_kind i <> BadTransitionKind -> is_Some (K !! i_parent i).
Proof. intros [(Hk & _)|(ip & Hp & _)]; [done|eauto]. Qed.

(** A query for another key keeps it ... *)
Lemma metatable_inv_other h K p key R cost c h2 K' : classes_inv h K -> is_Some (K !! p) ->
  queried env h K p key R cost c h2 K' -> key <> x_key_add_or_to_poly_metatable -> classes_inv h2 K'.
Proof.
  intros [Hinv Hm Hg] Hp Hq Hne. pose proof Hq as []. split; [done| |by eapply grown_trans, queried_grown]. intros x ix Hx Hk.
  destruct (q_only x ix Hx) as [Hx0| ->].
  - destruct (Hm x ix Hx0 Hk) as (c' & Hc' & Hor). exists c'. split.
    + rewrite q_old; [done| |apply metatable_key|naive_solver].
      eapply rooted_parent; [by eapply hi_rooted|congruence].
    + destruct Hor as [|(ic & Hic & Hpos)]; [by left|right]. exists ic. split; [by eapply lookup_weaken|done].
  - destruct q_child as (ic & Hic & _ & He). assert (ic = ix) as -> by congruence.
    unfold edge_key in He. rewrite Hk in He. congruence.
Qed.

(** ... and so does one for this key, which only replaces a structure by the poly
    structure. *)
Lemma metatable_inv_same h K p R cost c h2 K' : classes_inv h K -> is_Some (K !! p) ->
  queried env h K p x_key_add_or_to_poly_metatable R cost c h2 K' ->
  ((exists ic, K' !! c = Some ic /\ 0 < i_metatable ic) \/
   transition h p x_key_add_or_to_poly_metatable = None \/
   transition h p x_key_add_or_to_poly_metatable = Some c) -> classes_inv h2 K'.
Proof.
  intros [Hinv Hm Hg] Hsome Hq Hc. pose proof Hq as []. split; [done| |by eapply grown_trans, queried_grown]. intros x ix Hx Hk.
  destruct q_child as (ic & Hic & Hpc & He).
  destruct (decide (i_parent ix = p)) as [Hp|Hp].
  - exists c. rewrite Hp. split; [done|]. destruct (q_only x ix Hx) as [Hx0| ->]; [|by left].
    destruct (Hm x ix Hx0 Hk) as (c' & Hc' & Hor). rewrite Hp in Hc'.
    destruct Hc as [?|[Hn|Hs]]; [by right|congruence|].
    assert (c' = c) as -> by congruence. destruct Hor as [|(ic' & Hic' & Hpos)]; [by left|right].
    exists ic'. split; [by eapply lookup_weaken|done].
  - destruct (q_only x ix Hx) as [Hx0| ->]; [|congruence].
    destruct (Hm x ix Hx0 Hk) as (c' & Hc' & Hor). exists c'. split.
    + rewrite q_old; [done| |apply metatable_key|naive_solver].
      eapply rooted_parent; [by eapply hi_rooted|congruence].
    + destruct Hor as [|(ic' & Hic' & Hpos)]; [by left|right]. exists ic'. split; [by eapply lookup_weaken|done].
Qed.

(** A capacity only grows. *)
Lemma expansion_grows A K s i : class_ok env A K s i -> i_count i <= x_maxNumSlots ->
  forall c, expansion_of (i_count i) (i_inline i) (i_butterfly i) = Some c -> i_butterfly i < c.
Proof.
  intros [] Hc c He. pose proof (expansion_capacity (i_count i) (i_inline i) (i_butterfly i) cl_inline_range Hc) as Hx.
  rewrite He in Hx. specialize (Hx ltac:(lia)). simpl in Hx.
  unfold expansion_of in He. destruct (Z.eqb_spec (i_butterfly i) 0) as [Hz|Hz].
  - destruct (Z.eqb_spec (i_count i) (i_inline i)); [|done]. lia.
  - destruct (Z.eqb_spec (u8 (i_count i - i_inline i)) (i_butterfly i)) as [Hu|]; [|done].
    rewrite wrapu_small in Hu; [lia|]. unfold in_u. pow2. unfold x_maxNumSlots in *. lia.
Qed.

(** ** [SetMetatable] *)

(** The array parts have the same type. *)
Definition same_array (i' i : Info) : Prop :=
  SetMayHaveMetatable (i_arrayType i') false = SetMayHaveMetatable (i_arrayType i) false.

(** What the caller may rely on, for a structure [i] that is to get the metatable [m]. *)
Definition set_metatable_post (p : Z) (i : Info) (m : Z) (res : AddMetatableResult) (i' : Info) : Prop :=
  i_inline i' = i_inline i /\ i_nonexistent i' = i_nonexistent i /\ same_array i' i /\
  if am_shouldInsertMetatable res then
    i_metatable i' = am_slotOrdinal res + 1 /\ at_slot (i_keys i') (am_slotOrdinal res) = Some (special env) /\
    ((i' = i /\ am_shouldGrowButterfly res = false) \/
     (i_metatable i <= 0 /\ i_keys i' = i_keys i ++ [special env] /\ i_butterfly i <= i_butterfly i' /\
      am_shouldGrowButterfly res = bool_decide (i_butterfly i < i_butterfly i')))
  else
    i_metatable i' = m /\ i_keys i' = i_keys i /\ i_butterfly i' = i_butterfly i /\
    am_shouldGrowButterfly res = false /\ (i_metatable i = 0 -> i_kind i' = AddMetaTable /\ i_parent i' = p).

(** The end of the function. *)
Definition set_metatable_finish (transitionStructure : Z) : MH AddMetatableResult :=
  t ← load_structure transitionStructure;
  if bool_decide (s_parentEdgeTransitionKind t = AddMetaTable) then
    mret (mkAddMetatable false false 0 transitionStructure)
  else
    mret (mkAddMetatable true
      (bool_decide (s_parentEdgeTransitionKind t = TransitToPolyMetaTableAndGrowPropertyStorageCapacity))
      (GetPolyMetatableSlot t) transitionStructure).

(** The poly structure made from a structure with the slots of [i]. *)
Lemma finish_poly h K c b p ib i m (Q : AddMetatableResult -> SysHeap -> Prop) F : heap_inv env h K ->
  K !! b = Some ib -> i_metatable ib <= 0 -> i_metatable i <= 0 ->
  i_keys ib = i_keys i -> i_inline ib = i_inline i -> i_butterfly ib = i_butterfly i -> i_nonexistent ib = i_nonexistent i -> same_array ib i ->
  K !! c = Some (add_info env b ib AddSlotForPolyMetatable (special env)) ->
  (forall res, am_newStructure res = c ->
     set_metatable_post p i m res (add_info env b ib AddSlotForPolyMetatable (special env)) -> Q res h) ->
  wp (set_metatable_finish c) h Q F.
Proof.
  intros Hinv Hb Hmb Hmi Hks Hin Hbf Hne Hsa Hc HQ. destruct (inv_structure env h K Hinv c _ Hc) as (s & Hs & Hcl).
  destruct (inv_structure env h K Hinv b ib Hb) as (sb & Hsb & Hclb).
  unfold set_metatable_finish. apply wp_bind. eapply wp_load_structure; [done|].
  unfold GetPolyMetatableSlot. rewrite (cl_kind _ _ _ _ _ Hcl), (cl_metatable _ _ _ _ _ Hcl).
  assert (i_count ib <= x_maxNumSlots) as Hcount.
  { destruct (cl_poly _ _ _ _ _ Hclb) as [(_ & _ & ?)|[? _]]; [done|lia]. }
  pose proof (expansion_grows _ _ _ _ Hclb Hcount) as Hgrow.
  rewrite bool_decide_false by (simpl; by destruct (expansion_of _ _ _)). apply wp_ret, HQ; [done|].
  unfold set_metatable_post. cbn [am_shouldInsertMetatable am_slotOrdinal am_shouldGrowButterfly].
  simpl i_metatable. replace (i_count ib + 1 - 1) with (i_count ib) by lia.
  rewrite wrapu_small by (unfold in_u, i_count, x_maxNumSlots in *; pow2; lia).
  split_and!; [done|done|unfold same_array; rewrite <- Hsa; by apply meta_twice, Hclb|done| |].
  - simpl. unfold i_count. by rewrite at_slot_nat, lookup_app_r, Nat.sub_diag.
  - right. split_and!; [done|simpl; by rewrite Hks|..]; simpl; rewrite <- Hbf.
    { destruct (expansion_of _ _ _) as [c'|]; simpl; [specialize (Hgrow c' eq_refl)|]; lia. }
    apply bool_decide_ext. destruct (expansion_of _ _ _) as [c'|]; simpl; [|split; [done|lia]].
    specialize (Hgrow c' eq_refl). split; [lia|done].
Qed.

Lemma finish_mono h K c p i m t (Q : AddMetatableResult -> SysHeap -> Prop) F : heap_inv env h K ->
  SetMayHaveMetatable t false = SetMayHaveMetatable (i_arrayType i) false ->
  K !! c = Some (clone_info p i AddMetaTable m t) ->
  (forall res, am_newStructure res = c -> set_metatable_post p i m res (clone_info p i AddMetaTable m t) -> Q res h) ->
  wp (set_metatable_finish c) h Q F.
Proof.
  intros Hinv Ht Hc HQ. destruct (inv_structure env h K Hinv c _ Hc) as (s & Hs & Hcl).
  unfold set_metatable_finish. apply wp_bind. eapply wp_load_structure; [done|].
  rewrite (cl_kind _ _ _ _ _ Hcl), bool_decide_true by done. apply wp_ret, HQ; [done|].
  unfold set_metatable_post. simpl. done.
Qed.

(** A property of the meaning of structures that roots have and edges keep. *)
Lemma grown_invariant (P : Info -> Prop) K K' :
  (forall i, i_keys i = [] -> i_metatable i = 0 -> i_butterfly i = 0 -> i_arrayType i = GetInitialArrayType ->
     i_nonexistent i = x_luaMetamethodBitVectorFullMask -> P i) ->
  (forall p i i', P i -> edge env p i i' -> P i') ->
  grown K K' -> (forall x i, K !! x = Some i -> P i) -> forall x i, K' !! x = Some i -> P i.
Proof.
  intros Hroot Hedge Hg HK. induction Hg as [|K K1 c i Hg IH Hc Hr]; [done|]. specialize (IH HK).
  intros x ix. rewrite lookup_insert_Some. intros [[<- <-]|[_ Hx]]; [|by eapply IH].
  destruct Hr as [(_ & ? & ? & ? & ? & ?)|(ip & Hip & He)]; [by apply Hroot|]. eapply Hedge; [by eapply IH|done].
Qed.

(** What every operation keeps: structures keep their meaning, and every recorded
    transition stays, except that the metatable transition may be replaced. *)
Record stepped h K h' K' : Prop := {
  st_grow : K ⊆ K';
  st_grown : grown K K';
  st_inv : classes_inv h' K';
  st_transitions : forall p key c, is_Some (K !! p) -> transition_key key -> key <> x_key_add_or_to_poly_metatable ->
    transition h p key = Some c -> transition h' p key = Some c;
  st_dicts : dictionaries h' = dictionaries h
}.

Lemma stepped_refl h K : classes_inv h K -> stepped h K h K.
Proof. intros. split; try done. constructor. Qed.

Lemma stepped_trans h1 K1 h2 K2 h3 K3 : stepped h1 K1 h2 K2 -> stepped h2 K2 h3 K3 -> stepped h1 K1 h3 K3.
Proof.
  intros [] []. split; [by etrans|by eapply grown_trans|done| |congruence]. intros p key c [i Hi] Hkey Hne Ht.
  apply st_transitions1; [exists i; by eapply lookup_weaken|done|done|]. apply st_transitions0; [eauto|done..].
Qed.

Lemma stepped_other h K p key R cost c h2 K' : classes_inv h K -> is_Some (K !! p) -> queried env h K p key R cost c h2 K' ->
  key <> x_key_add_or_to_poly_metatable -> (forall c', transition h p key = Some c' -> c' = c) -> stepped h K h2 K'.
Proof.
  intros Hci Hp Hq Hne Hsame. pose proof Hq as [].
  split; try done; [by eapply queried_grown|by eapply metatable_inv_other|].
  intros p' key' c' Hp' Hkey' Hne' Ht. destruct (decide (p' = p /\ key' = key)) as [[-> ->]|Hd].
  - by rewrite (Hsame c' Ht).
  - by rewrite q_old.
Qed.

Lemma stepped_same h K p R cost c h2 K' : classes_inv h K -> is_Some (K !! p) ->
  queried env h K p x_key_add_or_to_poly_metatable R cost c h2 K' ->
  ((exists ic, K' !! c = Some ic /\ 0 < i_metatable ic) \/
   transition h p x_key_add_or_to_poly_metatable = None \/
   transition h p x_key_add_or_to_poly_metatable = Some c) -> stepped h K h2 K'.
Proof.
  intros Hci Hp Hq Hor. pose proof Hq as [].
  split; try done; [by eapply queried_grown|by eapply metatable_inv_same|].
  intros p' key' c' Hp' Hkey' Hne' Ht. rewrite q_old; [done|done|done|naive_solver].
Qed.

Lemma made_weaken h K p key (R R' : Z -> Classes -> Prop) cost c h2 : (forall K', K ⊆ K' -> R c K' -> R' c K') ->
  made env h K p key R cost c h2 -> made env h K p key R' cost c h2.
Proof. intros HR (K' & HK & H1 & H2 & H3 & H4 & H5 & H6). exists K'. split_and!; auto. Qed.

Lemma made_old h K p key (R : Z -> Classes -> Prop) cost c : heap_inv env h K -> child K p key c -> R c K -> 0 <= cost ->
  made env h K p key R cost c h.
Proof. intros. exists K. split_and!; try done; [lia|apply only_new_refl]. Qed.

Definition metatable_child h K (p : Z) (i : Info) (m c : Z) K' : Prop := exists i', K' !! c = Some i' /\
  (i' = add_info env p i AddSlotForPolyMetatable (special env) \/
   (i' = clone_info p i AddMetaTable m (SetMayHaveMetatable (i_arrayType i) true) /\
    (transition h p x_key_add_or_to_poly_metatable = None \/ transition h p x_key_add_or_to_poly_metatable = Some c))).

Lemma count_nonneg i : 0 <= i_count i.
Proof. unfold i_count. lia. Qed.

(** The function given to the query of a structure without metatable. *)
Lemma upsert_metatable_new h K p i m h1 : heap_inv env h1 K -> K !! p = Some i -> i_metatable i = 0 -> m < 0 ->
  transition h p x_key_add_or_to_poly_metatable = None ->
  wp (upsert_metatable env p m None) h1
    (made env h1 K p x_key_add_or_to_poly_metatable (metatable_child h K p i m) create_cost) (low h1 create_cost).
Proof.
  intros Hinv Hi Hmt Hm Hn. destruct (inv_structure env h1 K Hinv p i Hi) as (s & Hs & Hc).
  unfold upsert_metatable, CreateStructureForMonomorphicMetatableTransition.
  apply (wp_post_mono _ _ (made env h1 K p x_key_add_or_to_poly_metatable
    (fun c K' => K' !! c = Some (clone_info p i AddMetaTable m (SetMayHaveMetatable (i_arrayType i) true))) create_cost)).
  - intros c h2. apply made_weaken. intros K' _ Hc'. eexists. split; [done|]. right. auto.
  - apply (create_clone_spec h1 K p i AddMetaTable m _ _
      (fun s => with_edge s AddMetaTable m (SetMayHaveMetatable (s_arrayType s) true))); try done; try lia.
    + by intros s' _ ->.
    + apply useful_SetMayHaveMetatable, Hc.
    + by apply edge_mono.
Qed.

Lemma upsert_metatable_found h K p i m c : heap_inv env h K -> K !! p = Some i -> i_metatable i = 0 -> m < 0 ->
  transition h p x_key_add_or_to_poly_metatable = Some c ->
  wp (upsert_metatable env p m (Some c)) h
    (made env h K p x_key_add_or_to_poly_metatable (metatable_child h K p i m) create_cost) (low h create_cost).
Proof.
  intros Hinv Hi Hmt Hm Ht. pose proof (transition_child env h K p _ c Hinv metatable_key Ht) as Hch.
  destruct (child_info h K p i _ c Hinv Hi Hch) as (ic & Hic & He & Hk).
  destruct (inv_structure env h K Hinv c ic Hic) as (sc & Hsc & Hcc).
  simpl. apply wp_bind. eapply wp_load_structure; [done|].
  unfold HasMonomorphicMetatable. rewrite (cl_metatable _ _ _ _ _ Hcc).
  destruct (edge_by_metatable p i ic He Hk) as [[-> _]|(m' & -> & _ & Hm')]; simpl i_metatable.
  - pose proof (count_nonneg i). destruct (Z.ltb_spec (i_count i + 1) 0); [lia|].
    apply wp_ret, made_old; [done|done| |unfold create_cost; lia]. eexists. split; [done|]. by left.
  - destruct (Z.ltb_spec m' 0); [|lia]. destruct (Z.eqb_spec m' m) as [->|Hne].
    + apply wp_ret, made_old; [done|done| |unfold create_cost; lia]. eexists. split; [done|]. right. auto.
    + eapply wp_post_mono; [|apply (create_poly_spec h K p i); [done|done|lia]].
      intros c' h2. apply made_weaken. intros K' _ Hc'. eexists. split; [done|]. by left.
Qed.

(** The one for a structure whose parent has its metatable transition to it. *)
Lemma upsert_parent_found h K b ib p c : classes_inv h K -> K !! b = Some ib -> i_metatable ib <= 0 ->
  transition h b x_key_add_or_to_poly_metatable = Some c ->
  (c = p \/ exists ic, K !! c = Some ic /\ 0 < i_metatable ic) ->
  wp (upsert_parent env b p (Some c)) h
    (made env h K b x_key_add_or_to_poly_metatable
       (fun c K' => K' !! c = Some (add_info env b ib AddSlotForPolyMetatable (special env))) create_cost) (low h create_cost).
Proof.
  intros [Hinv _] Hb Hmb Ht Hor. pose proof (transition_child env h K b _ c Hinv metatable_key Ht) as Hch. simpl.
  destruct (Z.eqb_spec c p) as [->|Hne]; [by apply create_poly_spec|].
  destruct Hor as [|(ic & Hic & Hpos)]; [done|].
  destruct (child_info h K b ib _ c Hinv Hb Hch) as (ic' & Hic' & He & Hk). assert (ic' = ic) as -> by congruence.
  destruct (edge_by_metatable b ib ic He Hk) as [[-> _]|(m' & -> & _ & Hm')]; [|simpl in Hpos; lia].
  apply wp_ret, made_old; [done|done|done|unfold create_cost; lia].
Qed.

Definition metatable_cost_low h (p : Z) (i : Info) : Prop :=
  low h (query_cost h p create_cost) \/ low h (query_cost h (i_parent i) create_cost).

Lemma SetMetatable_spec h K p i key (Q : AddMetatableResult -> SysHeap -> Prop) :
  classes_inv h K -> K !! p = Some i -> user_key key ->
  (forall res h2 K' i', stepped h K h2 K' -> K' !! am_newStructure res = Some i' ->
     set_metatable_post p i (GeneralHeapPointer key) res i' -> Q res h2) ->
  wp (SetMetatable env p key) h Q (metatable_cost_low h p i).
Proof.
  intros Hci Hi Hu HQ. pose proof Hci as [Hinv Hmi]. destruct (inv_structure env h K Hinv p i Hi) as (s & Hs & Hc).
  set (m := GeneralHeapPointer key) in *. assert (m < 0) as Hm by (apply valid_key_neg; by apply user_key_spec).
  unfold SetMetatable. fold m. apply wp_bind. eapply wp_load_structure; [done|].
  change (wp (if s_metatable s =? 0 then
      t ← QueryTransitionTableAndUpsert env p x_key_add_or_to_poly_metatable (upsert_metatable env p m);
      set_metatable_finish t
    else if IsPolyMetatable s then mret (mkAddMetatable true false (GetPolyMetatableSlot s) p)
    else if m =? s_metatable s then mret (mkAddMetatable false false 0 p)
    else if bool_decide (s_parentEdgeTransitionKind s = AddMetaTable) then
      t ← QueryTransitionTableAndUpsert env (s_parent s) x_key_add_or_to_poly_metatable (upsert_parent env (s_parent s) p);
      set_metatable_finish t
    else
      t ← QueryTransitionTableAndInsert env p x_key_add_or_to_poly_metatable (CreateStructureForPolyMetatableTransition env p);
      set_metatable_finish t) h Q (metatable_cost_low h p i)).
  unfold IsPolyMetatable, GetPolyMetatableSlot.
  rewrite (cl_metatable _ _ _ _ _ Hc), (cl_kind _ _ _ _ _ Hc), (cl_parent _ _ _ _ _ Hc).
  destruct (Z.eqb_spec (i_metatable i) 0) as [Hmt|Hmt].
  { apply wp_bind. apply (wp_fail_mono _ _ _ (low h (query_cost h p create_cost))); [by left|].
    eapply (QueryTransitionTableAndInsertOrUpsertImpl_spec env false h K p _ _ (metatable_child h K p i m));
      [done|eauto|apply metatable_key|done|..].
    - intros Hn h1 Hinv1. by apply upsert_metatable_new.
    - intros c Ht. by apply upsert_metatable_found.
    - intros c h2 K' Hq. pose proof Hq as []. destruct q_result as (i' & Hi' & [->|(-> & Hor)]).
      + apply (finish_poly h2 K' c p p i i m); try done; [by eapply lookup_weaken|lia|lia|].
        intros res <- Hpost. eapply HQ; [|done|done]. eapply stepped_same; [done|eauto|done|]. left. eexists. split; [done|].
        simpl. pose proof (count_nonneg i). lia.
      + eapply finish_mono; [done|apply meta_twice, Hc|done|]. intros res <- Hpost. eapply HQ; [|done|done].
        eapply stepped_same; [done|eauto|done|]. by right. }
  destruct (Z.ltb_spec 0 (i_metatable i)) as [Hpos|Hneg].
  { apply wp_ret. eapply HQ; [by apply stepped_refl|done|]. unfold set_metatable_post.
    cbn [am_shouldInsertMetatable am_slotOrdinal am_shouldGrowButterfly].
    destruct (cl_poly _ _ _ _ _ Hc) as [(? & _)|[_ Hsp]]; [lia|].
    pose proof (at_slot_Some _ _ _ Hsp) as [Hr _]. pose proof (cl_count _ _ _ _ _ Hc).
    rewrite wrapu_small by (unfold in_u; pow2; lia). split_and!; [done|done|done|lia|done|by left]. }
  destruct (Z.eqb_spec m (i_metatable i)) as [Heq|Hne].
  { apply wp_ret. eapply HQ; [by apply stepped_refl|done|]. by unfold set_metatable_post. }
  case_bool_decide as Hkind.
  - destruct (hi_rooted _ _ _ Hinv p i Hi) as [(Hk & _)|(ib & Hb & He)]; [congruence|].
    assert (i_metatable ib = 0 /\ i_keys ib = i_keys i /\ i_inline ib = i_inline i /\ i_butterfly ib = i_butterfly i /\
      i_nonexistent ib = i_nonexistent i /\ same_array ib i) as (Hmb & Hks & Hin & Hbf & Hnx & Hsa).
    { destruct (inv_structure env h K Hinv _ ib Hb) as (sb & _ & Hcb).
      clear -He Hkind Hcb. revert Hkind. unfold same_array. destruct He; simpl; try done; try (destruct (expansion_of _ _ _); done).
      intros _. rewrite meta_twice by apply Hcb. done. }
    destruct (Hmi p i Hi Hkind) as (c0 & Hc0 & Hor).
    apply wp_bind. apply (wp_fail_mono _ _ _ (low h (query_cost h (i_parent i) create_cost))); [by right|].
    eapply (QueryTransitionTableAndInsertOrUpsertImpl_spec env false h K (i_parent i) _ _
      (fun c K' => K' !! c = Some (add_info env (i_parent i) ib AddSlotForPolyMetatable (special env))));
      [done|eauto|apply metatable_key|done|..].
    + intros Hn. congruence.
    + intros c Ht. assert (c = c0) as -> by congruence. by apply upsert_parent_found; [..|lia| |].
    + intros c h2 K' Hq. pose proof Hq as [].
      apply (finish_poly h2 K' c (i_parent i) p ib i m); try done; [by eapply lookup_weaken|lia|].
      intros res <- Hpost. eapply HQ; [|done|done]. eapply stepped_same; [done|eauto|done|]. left. eexists. split; [done|].
      simpl. pose proof (count_nonneg ib). lia.
  - apply wp_bind. apply (wp_fail_mono _ _ _ (low h (query_cost h p create_cost))); [by left|].
    eapply (QueryTransitionTableAndInsertOrUpsertImpl_spec env true h K p _ _
      (fun c K' => K' !! c = Some (add_info env p i AddSlotForPolyMetatable (special env))));
      [done|eauto|apply metatable_key|done|..].
    + intros _ h1 Hinv1. by apply create_poly_spec.
    + intros c Ht. apply (transition_child env h K) in Ht; [|done|apply metatable_key].
      destruct (child_info h K p i _ c Hinv Hi Ht) as (ic & Hic & He & Hk).
      destruct (edge_by_metatable p i ic He Hk) as [[-> _]|(m' & _ & ? & _)]; [done|lia].
    + intros c h2 K' Hq. pose proof Hq as [].
      apply (finish_poly h2 K' c p p i i m); try done; [by eapply lookup_weaken|].
      intros res <- Hpost. eapply HQ; [|done|done]. eapply stepped_same; [done|eauto|done|]. left. eexists. split; [done|].
      simpl. pose proof (count_nonneg i). lia.
Qed.

(** ** [RemoveMetatable] *)

Definition remove_metatable_post (p : Z) (i : Info) (res : RemoveMetatableResult) (i' : Info) : Prop :=
  same_array i' i /\
  if rm_shouldInsertMetatable res then
    rm_newStructure res = p /\ i' = i /\ i_metatable i = rm_slotOrdinal res + 1 /\
    at_slot (i_keys i) (rm_slotOrdinal res) = Some (special env)
  else
    i_metatable i' = 0 /\ i_keys i' = i_keys i /\ i_inline i' = i_inline i /\ i_butterfly i' = i_butterfly i /\
    i_nonexistent i' = i_nonexistent i.

Lemma RemoveMetatable_spec h K p i (Q : RemoveMetatableResult -> SysHeap -> Prop) :
  classes_inv h K -> K !! p = Some i ->
  (forall res h2 K' i', stepped h K h2 K' -> K' !! rm_newStructure res = Some i' ->
     remove_metatable_post p i res i' -> Q res h2) ->
  wp (RemoveMetatable_ env p) h Q (low h (query_cost h p create_cost)).
Proof.
  intros Hci Hi HQ. pose proof Hci as [Hinv Hmi]. destruct (inv_structure env h K Hinv p i Hi) as (s & Hs & Hc).
  unfold RemoveMetatable_. apply wp_bind. eapply wp_load_structure; [done|].
  unfold IsPolyMetatable, GetPolyMetatableSlot.
  rewrite (cl_metatable _ _ _ _ _ Hc), (cl_kind _ _ _ _ _ Hc), (cl_parent _ _ _ _ _ Hc).
  destruct (Z.eqb_spec (i_metatable i) 0) as [Hmt|Hmt].
  { apply wp_ret. by eapply HQ; [apply stepped_refl|..]. }
  case_bool_decide as Hkind.
  { destruct (hi_rooted _ _ _ Hinv p i Hi) as [(Hk & _)|(ib & Hb & He)]; [congruence|].
    destruct (inv_structure env h K Hinv _ ib Hb) as (sb & _ & Hcb).
    apply wp_ret. eapply HQ; [by apply stepped_refl|done|]. unfold remove_metatable_post, same_array. simpl.
    clear -He Hkind Hcb. revert Hkind. destruct He; simpl; try done; try (destruct (expansion_of _ _ _); done).
    intros _. by rewrite meta_twice by apply Hcb. }
  destruct (Z.ltb_spec 0 (i_metatable i)) as [Hpos|Hneg].
  { apply wp_ret. eapply HQ; [by apply stepped_refl|done|]. unfold remove_metatable_post.
    cbn [rm_shouldInsertMetatable rm_slotOrdinal rm_newStructure].
    destruct (cl_poly _ _ _ _ _ Hc) as [(? & _)|[_ Hsp]]; [lia|].
    pose proof (at_slot_Some _ _ _ Hsp) as [Hr _]. pose proof (cl_count _ _ _ _ _ Hc).
    rewrite wrapu_small by (unfold in_u; pow2; lia). split_and!; [done|done|done|lia|done]. }
  set (i' := clone_info p i RemoveMetaTable 0 (SetMayHaveMetatable (i_arrayType i) false)).
  assert (transition_key x_key_remove_metatable) as Hkey by done.
  apply wp_bind. eapply (QueryTransitionTableAndInsert_spec env h K p _ _ (fun c K' => K' !! c = Some i'));
    [done|eauto|done|done|..].
  - intros h1 Hinv1. apply (create_clone_spec h1 K p i RemoveMetaTable 0 _ _
      (fun s => with_edge s RemoveMetaTable 0 (SetMayHaveMetatable (s_arrayType s) false))); try done; try lia.
    + by intros s' _ ->.
    + apply useful_SetMayHaveMetatable, Hc.
    + apply edge_remove. lia.
  - intros c Ht. apply (transition_child env h K) in Ht; [|done|done].
    destruct (child_info h K p i _ c Hinv Hi Ht) as (ic & Hic & He & Hk). rewrite Hic. f_equal. by apply edge_by_remove.
  - intros c h2 K' Hq Hsame. pose proof Hq as []. apply wp_ret.
    eapply HQ; [by eapply stepped_other; eauto|done|]. split; [apply meta_twice, Hc|done].
Qed.

(** ** [CreateInitialStructure] *)

Definition root_info (inlineCapacity : Z) : Info :=
  mkInfo [] inlineCapacity 0 GetInitialArrayType 0 x_luaMetamethodBitVectorFullMask BadTransitionKind 0.

Definition initial_cost : Z := 48.

Lemma CreateInitialStructure_spec h K inlineCapacity (Q : Z -> SysHeap -> Prop) : classes_inv h K ->
  0 <= inlineCapacity <= x_maxNumSlots ->
  (forall r h2 K', stepped h K h2 K' -> K !! r = None -> K' !! r = Some (root_info inlineCapacity) -> Q r h2) ->
  wp (CreateInitialStructure inlineCapacity) h Q (low h initial_cost).
Proof.
  intros Hci Hcap HQ. pose proof Hci as [Hinv Hmi Hg]. unfold CreateInitialStructure.
  change (RoundUpToMultipleOf 32 8 (2 * 8 + OffsetOfTrailingVarLengthArray + ComputeTrailingVarLengthArrayLengthBytes 0)) with initial_cost.
  apply wp_bind, AllocFromSystemHeap_spec; [apply Hinv|done|done|]. intros limit Hsys.
  apply wp_bind, wp_store_structure, wp_ret.
  pose proof (hi_sys _ _ _ Hinv) as [Hr Hl Ha]. set (c := m_systemHeapCurPtr h) in *.
  set (h1 := alloc_heap h limit initial_cost). change (2 * 8) with 16. set (r := c + 16).
  assert (heap_inv env h1 K) as Hinv1 by (by apply inv_alloc).
  assert (K !! r = None) as Hfresh by (eapply fresh_structure; [exact Hinv|unfold r; fold c; lia]).
  assert (dictionaries h1 !! r = None) as Hfreshd
    by (apply (fresh_dictionary env h K); [exact Hinv|unfold r; fold c; lia]).
  assert (allocated h1 r) as Hal.
  { split; [simpl; fold c; unfold r, initial_cost; lia|]. unfold r. rewrite Zplus_mod, Ha. done. }
  assert (K ⊆ <[r := root_info inlineCapacity]> K) as HK by (by apply insert_subseteq).
  set (s := mkStructure 0 0 0 GetInitialArrayType x_luaMetamethodBitVectorFullMask (u8 (8 - 1)) inlineCapacity 0
       BadTransitionKind 0 0 0 (emptyInlineTable 8) [] 0).
  assert (class_ok env (anchors h1) K s (root_info inlineCapacity)) as Hc.
  { split; simpl; try done; try lia.
    - by apply NoDup_nil.
    - exists O, 3. split_and!; [by left|by left|lia|lia|done|done|]. by apply ctable_empty.
    - left. unfold i_count. simpl. lia.
    - left. unfold i_count. simpl. split_and!; [lia|apply not_elem_of_nil|unfold x_maxNumSlots; lia]. }
  set (h2 := with_structures h1 (<[r := s]> (structures h1))).
  assert (heap_inv env h2 (<[r := root_info inlineCapacity]> K)) as Hinv2 by (apply inv_add_class; try done; by left).
  assert (frame h h2) as Hf.
  { apply (frame_trans _ h1); [by apply frame_alloc|]. apply frame_add_structure. apply eq_None_not_Some.
    rewrite (hi_dom _ _ _ Hinv1), Hfresh. by intros [? ?]. }
  apply (HQ r h2 (<[r := root_info inlineCapacity]> K)); [|done|apply lookup_insert_eq].
  assert (forall p key, is_Some (K !! p) -> transition h2 p key = transition h p key) as Htr.
  { intros p key Hp. by apply (transition_frame env h K h2 (<[r := root_info inlineCapacity]> K) p key). }
  split; [done| | |by intros; rewrite Htr|done].
  { apply grown_new; [constructor|done|by left]. }
  split; [done| |apply grown_new; [done|done|by left]]. intros x ix Hx Hk.
  destruct (decide (r = x)) as [<-|].
  { rewrite lookup_insert_eq in Hx. by injection Hx as <-. }
  rewrite lookup_insert_ne in Hx by done. destruct (Hmi x ix Hx Hk) as (c' & Hc' & Hor). exists c'. split.
  - rewrite Htr; [done|]. eapply rooted_parent; [by eapply hi_rooted|congruence].
  - destruct Hor as [|(ic & Hic & Hpos)]; [by left|right]. exists ic. split; [by eapply lookup_weaken|done].
Qed.
End ops.
