(* ===== verification/ClassView.v ===== *)
(** * Reachable hidden-class heaps and what their structures mean

    The abstract view of a structure, computed with the code's own accessors; the
    public operations of [Structure] as labelled steps of a transition system
    over heaps; and the lemmas that relate both to the invariant of [ClassInv]. *)

From S2P Require Import Prelude MiscMath Machine TypeMask ArrayType Butterfly Probing CheckedTable ClassHeap Structure Transition ClassInv ClassLookup ClassFrame ClassAnchor ClassCreate ClassTable ClassTransition ClassQuery ClassOps.

(** ** The abstract view *)

(** [v_keys]: the keys (heap addresses) in the order of their slots. *)
Record ClassView := mkView {
  v_keys : list Z;
  v_inline : Z;
  v_butterfly : Z;
  v_arrayType : Z;
  v_metatable : Z;
  v_nonexistent : Z
}.

(** The keys of a structure as [GetKeyForSlotOrdinal] reports them. *)
Definition keys_of (h : SysHeap) (s : Structure) : option (list Z) :=
  mapM (GetKeyForSlotOrdinal h s) (ordinals 0 (Z.to_nat (s_numSlots s))).

Definition describe (h : SysHeap) (p : Z) : option ClassView :=
  s ← structures h !! p;
  keys ← keys_of h s;
  Some (mkView keys (s_inlineNamedStorageCapacity s) (s_butterflyNamedStorageCapacity s) (s_arrayType s)
          (s_metatable s) (s_knownNonexistentMetamethods s)).

(** Reference for the property look-up: a linear search. *)
Definition position (key : Z) (keys : list Z) : option Z :=
  (fun found => Z.of_nat found.1) <$> list_find (fun k => k = key) keys.

(** ** The operations as steps *)

Inductive ClassOp :=
| OpCreateInitial (inlineCapacity : Z)
| OpAddProperty (p key : Z)
| OpSetMetatable (p metatable : Z)
| OpRemoveMetatable (p : Z)
| OpUpdateArrayType (p arrayType : Z)
| OpAllocate (length : Z).   (* another user of the system heap *)

Section system.
Variable env : Env.

(** The structure that results; for an allocation its address. *)
Definition run (op : ClassOp) : MH Z :=
  match op with
  | OpCreateInitial inlineCapacity => CreateInitialStructure inlineCapacity
  | OpAddProperty p key =>
      r ← AddNonExistentProperty env p key;
      mret (match r with Some res => np_newStructure res | None => p end)
  | OpSetMetatable p metatable => r ← SetMetatable env p metatable; mret (am_newStructure r)
  | OpRemoveMetatable p => r ← RemoveMetatable_ env p; mret (rm_newStructure r)
  | OpUpdateArrayType p arrayType => Structure_UpdateArrayType env p arrayType
  | OpAllocate length => AllocFromSystemHeap length
  end.

(** The preconditions: what the comments and assertions of the operations ask
    for.  A property is added once; the array type changes, and its metatable bit
    only changes with the metatable. *)
Definition legal (h : SysHeap) (op : ClassOp) : Prop :=
  match op with
  | OpCreateInitial inlineCapacity => 0 <= inlineCapacity <= x_maxNumSlots
  | OpAddProperty p key => user_key key /\ key <> GetSpecialKeyForMetadataSlot env /\
      exists v, describe h p = Some v /\ key ∉ v_keys v
  | OpSetMetatable p metatable => user_key metatable /\ is_Some (describe h p)
  | OpRemoveMetatable p => is_Some (describe h p)
  | OpUpdateArrayType p arrayType => 0 <= arrayType <= x_usefulBitsMask /\
      exists v, describe h p = Some v /\ arrayType <> v_arrayType v /\
        MayHaveMetatable arrayType = MayHaveMetatable (v_arrayType v)
  | OpAllocate length => 0 < length < 2 ^ 32 /\ length mod 8 = 0
  end.

(** The parent of a structure, 0 where there is none. *)
Definition parent_of (h : SysHeap) (p : Z) : Z := from_option s_parent 0 (structures h !! p).

(** The system heap cannot hold what the operation may allocate. *)
Definition out_of_memory (h : SysHeap) (op : ClassOp) : Prop :=
  match op with
  | OpCreateInitial _ => low h initial_cost
  | OpAddProperty p _ | OpRemoveMetatable p | OpUpdateArrayType p _ => low h (query_cost h p create_cost)
  | OpSetMetatable p _ =>
      low h (query_cost h p create_cost) \/ low h (query_cost h (parent_of h p) create_cost)
  | OpAllocate length => low h length
  end.

Definition step (h h' : SysHeap) : Prop := exists op r, legal h op /\ run op h = Ok (r, h').

(** A system heap before the first hidden class. *)
Definition initial_heap (h : SysHeap) : Prop :=
  sys_ok h /\ structures h = ∅ /\ transitionTables h = ∅ /\ anchors h = ∅ /\ dictionaries h = ∅.

Definition reachable (h : SysHeap) : Prop := exists h0, initial_heap h0 /\ rtc step h0 h.

(** ** The view of a class *)

Definition view_of (i : Info) : ClassView :=
  mkView (GeneralHeapPointer_As <$> i_keys i) (i_inline i) (i_butterfly i) (i_arrayType i) (i_metatable i)
    (i_nonexistent i).

Lemma mapM_seq {A} (f : Z -> option A) (l : list A) from :
  (forall j a, l !! j = Some a -> f (from + Z.of_nat j) = Some a) ->
  mapM f (ordinals from (length l)) = Some l.
Proof.
  intros Hf. apply mapM_Some_2, Forall2_same_length_lookup_2.
  - unfold ordinals. by rewrite length_fmap, length_seq.
  - intros j x a Hx Ha. unfold ordinals in Hx. rewrite list_lookup_fmap in Hx.
    apply fmap_Some in Hx as (n & Hn & ->). apply lookup_seq in Hn as [-> _]. by apply Hf.
Qed.

Lemma describe_info h K p i : heap_inv env h K -> K !! p = Some i -> describe h p = Some (view_of i).
Proof.
  intros Hinv Hi. destruct (inv_structure env h K Hinv p i Hi) as (s & Hs & Hc).
  unfold describe, keys_of. rewrite Hs. cbn [mbind option_bind].
  rewrite (cl_numSlots _ _ _ _ _ Hc). unfold i_count. rewrite Nat2Z.id.
  rewrite <- (length_fmap GeneralHeapPointer_As (i_keys i)).
  rewrite (mapM_seq _ (GeneralHeapPointer_As <$> i_keys i)).
  - cbn [mbind option_bind]. by rewrite (cl_inline _ _ _ _ _ Hc), (cl_butterfly _ _ _ _ _ Hc),
      (cl_arrayType _ _ _ _ _ Hc), (cl_metatable _ _ _ _ _ Hc), (cl_nonexistent _ _ _ _ _ Hc).
  - intros j a Ha. rewrite list_lookup_fmap in Ha. apply fmap_Some in Ha as (g & Hg & ->).
    eapply GetKeyForSlotOrdinal_lookup; [done|done|]. unfold at_slot.
    destruct (Z.leb_spec 0 (0 + Z.of_nat j)); [|lia]. by rewrite Z.add_0_l, Nat2Z.id.
Qed.

Lemma info_describe h K p v : heap_inv env h K -> describe h p = Some v ->
  exists i, K !! p = Some i /\ v = view_of i.
Proof.
  intros Hinv Hd. destruct (structures h !! p) as [s|] eqn:Hs; [|unfold describe in Hd; by rewrite Hs in Hd].
  destruct (inv_info env h K Hinv p s Hs) as (i & Hi & _). exists i. split; [done|].
  rewrite (describe_info h K p i) in Hd by done. by injection Hd.
Qed.

Lemma view_keys_key i key : Forall valid_key (i_keys i) -> user_key key ->
  key ∈ v_keys (view_of i) <-> GeneralHeapPointer key ∈ i_keys i.
Proof.
  intros Hv Hk. destruct (user_key_spec key Hk) as [_ Has]. simpl. rewrite list_elem_of_fmap. split.
  - intros (g & -> & Hg). rewrite Forall_forall in Hv. by rewrite (proj2 (valid_key_As g (Hv g Hg))).
  - intros Hg. eexists. split; [symmetry; exact Has|done].
Qed.

Lemma position_Some key keys n : position key keys = Some n -> at_slot keys n = Some key.
Proof.
  unfold position. intros Hp. apply fmap_Some in Hp as ((j & k) & Hf & ->).
  apply list_find_Some in Hf as (Hj & -> & _). simpl. unfold at_slot.
  destruct (Z.leb_spec 0 (Z.of_nat j)); [|lia]. by rewrite Nat2Z.id.
Qed.

Lemma position_None key keys : position key keys = None -> key ∉ keys.
Proof.
  unfold position. intros Hf%fmap_None Hin. apply list_find_None in Hf. rewrite Forall_forall in Hf. by eapply Hf.
Qed.

Lemma position_at key keys n : NoDup keys -> at_slot keys n = Some key -> position key keys = Some n.
Proof.
  intros Hnd Hn. unfold at_slot in Hn. destruct (Z.leb_spec 0 n); [|done].
  unfold position. replace (list_find (fun k => k = key) keys) with (Some (Z.to_nat n, key)); simpl.
  - f_equal. lia.
  - symmetry. apply list_find_Some. split_and!; [done|done|]. intros j k Hj Hlt ->.
    pose proof (NoDup_lookup _ _ _ _ Hnd Hj Hn). lia.
Qed.

Lemma position_absent key keys : key ∉ keys -> position key keys = None.
Proof.
  intros Hn. unfold position. apply fmap_None, list_find_None, Forall_forall. by intros k Hk ->.
Qed.

(** The look-up agrees with the linear search. *)
Lemma lookup_position h K p s i key : heap_inv env h K -> structures h !! p = Some s -> K !! p = Some i ->
  user_key key -> GetSlotOrdinalFromMaybeNonStringProperty env h s key = Some (position key (v_keys (view_of i))).
Proof.
  intros Hinv Hs Hi Hk. assert (class_ok env (anchors h) K s i) as Hc by (by eapply hi_class).
  destruct (lookup_user_key env h K Hinv s i key Hc Hk) as ([n|] & -> & Hr).
  - f_equal. symmetry. apply position_at.
    + simpl. apply NoDup_fmap_2_strong; [|apply Hc]. intros x y Hx Hy E.
      pose proof (cl_valid _ _ _ _ _ Hc) as Hv. rewrite Forall_forall in Hv.
      rewrite <- (proj2 (valid_key_As x (Hv x Hx))), <- (proj2 (valid_key_As y (Hv y Hy))). congruence.
    + simpl. unfold at_slot in *. destruct (0 <=? n); [|done]. rewrite list_lookup_fmap, Hr. simpl.
      by rewrite (proj2 (user_key_spec key Hk)).
  - f_equal. symmetry. apply position_absent. rewrite (view_keys_key i key); [done|apply Hc|done].
Qed.

(** ** Every step keeps the invariant *)

Hypothesis special_user : user_key (GetSpecialKeyForMetadataSlot env).

Lemma stepped_alloc h K limit n : classes_inv env h K -> 0 <= n -> sys_ok (alloc_heap h limit n) ->
  stepped env h K (alloc_heap h limit n) K.
Proof.
  intros [Hinv Hm Hg] Hn Hs. split; try done; [constructor|]. split; [by apply inv_alloc|exact Hm|exact Hg].
Qed.

Lemma special_key_neq key : user_key key -> key <> GetSpecialKeyForMetadataSlot env ->
  GeneralHeapPointer key <> special env.
Proof.
  intros Hk Hne E. apply Hne. rewrite <- (proj2 (user_key_spec key Hk)), E.
  by apply user_key_spec.
Qed.

Lemma parent_of_info h K p i : heap_inv env h K -> K !! p = Some i -> parent_of h p = i_parent i.
Proof.
  intros Hinv Hi. destruct (inv_structure env h K Hinv p i Hi) as (s & Hs & Hc). unfold parent_of.
  rewrite Hs. apply Hc.
Qed.

(** What [AddNonExistentProperty] gives for a legal addition. *)
Lemma add_property_legal h K p key (Q : option AddNewPropertyResult -> SysHeap -> Prop) :
  classes_inv env h K -> legal h (OpAddProperty p key) ->
  (forall i, K !! p = Some i -> x_maxNumSlots <= i_count i -> Q None h) ->
  (forall i c h2 K', K !! p = Some i -> i_count i < x_maxNumSlots -> stepped env h K h2 K' ->
     K' !! c = Some (add_info env p i AddSlotForProperty (GeneralHeapPointer key)) ->
     transition h2 p (GeneralHeapPointer key) = Some c ->
     Q (Some (mkAddNewProperty (bool_decide (i_kind (add_info env p i AddSlotForProperty (GeneralHeapPointer key))
          = AddPropertyAndGrowPropertyStorageCapacity)) (i_count i) c)) h2) ->
  wp (AddNonExistentProperty env p key) h Q (out_of_memory h (OpAddProperty p key)).
Proof.
  intros Hci (Hu & Hs & v & Hd & Hn) HN HS. pose proof Hci as [Hinv _].
  destruct (info_describe h K p v Hinv Hd) as (i & Hi & ->).
  destruct (inv_structure env h K Hinv p i Hi) as (s & Hst & Hc).
  rewrite (view_keys_key i key) in Hn by (done || apply Hc).
  eapply AddNonExistentProperty_spec; [done|done|done|by apply special_key_neq|done|eauto|].
  intros c h2 K' Hlt Hq Hsame. pose proof Hq as [].
  eapply HS; [done|done| |done|done]. eapply stepped_other; [done|eauto|done| |done].
  pose proof (proj1 (user_key_spec key Hu)) as Hv%valid_key_neg. unfold x_key_add_or_to_poly_metatable. lia.
Qed.

Lemma run_spec h K op : classes_inv env h K -> legal h op ->
  wp (run op) h (fun r h' => exists K', stepped env h K h' K' /\
    match op with OpAllocate _ => True | _ => is_Some (K' !! r) end) (out_of_memory h op).
Proof.
  intros Hci Hl. pose proof Hci as [Hinv _]. destruct op as [cap|p key|p mt|p|p t|n]; simpl run.
  - eapply CreateInitialStructure_spec; [done|done|]. eauto.
  - apply wp_bind, (add_property_legal h K p key); [done|done|..].
    + intros i Hi _. apply wp_ret. exists K. split; [by apply stepped_refl|eauto].
    + intros. apply wp_ret. eauto.
  - destruct Hl as [Hu [v Hd]]. destruct (info_describe h K p v Hinv Hd) as (i & Hi & ->).
    apply wp_bind. eapply wp_fail_mono; [|eapply SetMetatable_spec; [done|done|done|done|]].
    + unfold metatable_cost_low. simpl. by erewrite parent_of_info.
    + intros res h2 K' i' Hs Hi' _. apply wp_ret. eauto.
  - destruct Hl as [v Hd]. destruct (info_describe h K p v Hinv Hd) as (i & Hi & ->).
    apply wp_bind. eapply RemoveMetatable_spec; [done|done|]. intros res h2 K' i' Hs Hi' _. apply wp_ret. eauto.
  - destruct Hl as (Ht & v & Hd & Hne & Hmeta). destruct (info_describe h K p v Hinv Hd) as (i & Hi & ->).
    eapply Structure_UpdateArrayType_spec; [done|done|done|done|done|].
    intros c h2 K' Hq Hsame. pose proof Hq as []. exists K'. split; [|eauto].
    eapply stepped_other; [done|eauto|done| |done]. rewrite array_type_key by done.
    unfold x_key_add_or_to_poly_metatable. change x_usefulBitsMask with 63 in Ht. lia.
  - destruct Hl as [Hn H8]. apply AllocFromSystemHeap_spec; [apply Hinv|done|done|]. intros limit Hs.
    exists K. split; [|done]. apply stepped_alloc; [done|lia|done].
Qed.

Lemma steps_spec h h' K : rtc step h h' -> classes_inv env h K -> exists K', stepped env h K h' K'.
Proof.
  intros Hs. revert K. induction Hs as [h|h1 h2 h3 (op & r & Hl & Hr) _ IH]; intros K Hci.
  - exists K. by apply stepped_refl.
  - pose proof (run_spec h1 K op Hci Hl) as Hw. unfold wp in Hw. rewrite Hr in Hw.
    destruct Hw as (K2 & Hs & _). destruct (IH K2 (st_inv _ _ _ _ _ Hs)) as (K3 & Hs3).
    exists K3. by eapply stepped_trans.
Qed.

Lemma initial_inv h : initial_heap h -> classes_inv env h ∅.
Proof.
  intros (Hs & H1 & H2 & H3 & H4). split.
  - split; rewrite ?H1, ?H2, ?H3, ?H4; try done; intros *; rewrite ?lookup_empty; try done; by intros [? ?].
  - intros x ix Hx. by rewrite lookup_empty in Hx.
  - constructor.
Qed.

(** A reachable heap satisfies the invariant, for classes that grew from none. *)
Lemma reachable_inv h : reachable h -> exists K, classes_inv env h K /\ grown env ∅ K.
Proof.
  intros (h0 & H0 & Hs). destruct (steps_spec h0 h ∅ Hs (initial_inv h0 H0)) as (K & HK).
  exists K. split; apply HK.
Qed.

Lemma reachable_steps h h' : reachable h -> rtc step h h' -> reachable h'.
Proof. intros (h0 & H0 & Hs) Hs'. exists h0. split; [done|by etrans]. Qed.

Lemma stepped_describe h K h' K' p v : classes_inv env h K -> stepped env h K h' K' ->
  describe h p = Some v -> describe h' p = Some v.
Proof.
  intros [Hinv _] [] Hd. destruct (info_describe h K p v Hinv Hd) as (i & Hi & ->).
  eapply describe_info; [apply st_inv|by eapply lookup_weaken].
Qed.

Lemma reachable_info h p v : reachable h -> describe h p = Some v ->
  exists K i, classes_inv env h K /\ grown env ∅ K /\ K !! p = Some i /\ v = view_of i.
Proof.
  intros Hr Hd. destruct (reachable_inv h Hr) as (K & Hci & Hg).
  destruct (info_describe h K p v (ci_heap _ _ _ Hci) Hd) as (i & Hi & ->). by exists K, i.
Qed.

(** A property of all structures of reachable heaps, by induction on their history. *)
Lemma reachable_invariant (P : Info -> Prop) K :
  (forall i, i_keys i = [] -> i_metatable i = 0 -> i_butterfly i = 0 -> i_arrayType i = GetInitialArrayType ->
     i_nonexistent i = x_luaMetamethodBitVectorFullMask -> P i) ->
  (forall p i i', P i -> edge env p i i' -> P i') ->
  grown env ∅ K -> forall p i, K !! p = Some i -> P i.
Proof.
  intros Hroot Hedge Hg. eapply grown_invariant; [done..|]. intros x i. by rewrite lookup_empty.
Qed.
End system.

(** ** Executable histories *)

#[export] Instance user_key_dec key : Decision (user_key key).
Proof. unfold user_key. apply _. Defined.

#[export] Instance legal_dec env h op : Decision (legal env h op).
Proof.
  destruct op as [cap|p key|p mt|p|p t|n]; simpl; try apply _.
  - destruct (describe h p) as [v|]; [|right; naive_solver].
    destruct (decide (user_key key /\ key <> GetSpecialKeyForMetadataSlot env /\ key ∉ v_keys v));
      [left|right]; naive_solver.
  - destruct (describe h p) as [v|]; [|right; naive_solver].
    destruct (decide (0 <= t <= x_usefulBitsMask /\ t <> v_arrayType v /\
      MayHaveMetatable t = MayHaveMetatable (v_arrayType v))); [left|right]; naive_solver.
Defined.

(** Runs legal operations one after the other, [None] when one is not legal or
    does not return. *)
Fixpoint history (env : Env) (ops : list ClassOp) (h : SysHeap) : option SysHeap :=
  match ops with
  | [] => Some h
  | op :: ops =>
      if bool_decide (legal env h op) then
        match run env op h with Ok (_, h') => history env ops h' | _ => None end
      else None
  end.

Lemma history_steps env ops h h' : history env ops h = Some h' -> rtc (step env) h h'.
Proof.
  revert h. induction ops as [|op ops IH]; simpl; intros h Hh; [by injection Hh as ->|].
  case_bool_decide as Hl; [|done]. destruct (run env op h) as [[r h1]| |] eqn:Hr; [|done..].
  eapply rtc_l; [|by apply IH]. by exists op, r.
Qed.

Definition emptySystemHeap : SysHeap := mkSysHeap 64 65536 ∅ ∅ ∅ ∅.

Lemma history_reachable env ops h : history env ops emptySystemHeap = Some h -> reachable env h.
Proof.
  intros Hh. exists emptySystemHeap. split; [|by eapply history_steps].
  by split_and!.
Qed.
