(* ===== verification/ClassTheorems.v ===== *)
(** * Theorems on hidden classes

    The properties of the structure component, for every heap that the operations
    of [structure.h] can reach, in terms of the view [describe] and of the results
    the operations return. *)

From S2P Require Import Prelude MiscMath Machine TypeMask ArrayType Butterfly Probing CheckedTable ClassHeap Structure Transition ClassInv ClassLookup ClassFrame ClassAnchor ClassCreate ClassTable ClassTransition ClassQuery ClassOps ClassView.

Section lemmas.
Variable env : Env.
Hypothesis special_user : user_key (GetSpecialKeyForMetadataSlot env).

(** *** Adding a property *)

(** Whether the butterfly grows shows in its capacity. *)
Lemma grow_flag h K p i g : heap_inv env h K -> K !! p = Some i -> i_count i < x_maxNumSlots ->
  let i' := add_info env p i AddSlotForProperty g in
  bool_decide (i_kind i' = AddPropertyAndGrowPropertyStorageCapacity) = bool_decide (i_butterfly i' <> i_butterfly i) /\
  i_butterfly i <= i_butterfly i'.
Proof.
  intros Hinv Hi Hlt i'. destruct (inv_structure env h K Hinv p i Hi) as (s & Hs & Hc).
  pose proof (expansion_grows env _ _ _ _ Hc ltac:(lia)) as Hg. subst i'. simpl.
  destruct (expansion_of _ _ _) as [c|]; simpl.
  - specialize (Hg c eq_refl). split; [|lia]. rewrite !bool_decide_true by (done || lia). done.
  - by rewrite !bool_decide_false by (done || lia).
Qed.

Definition added (v : ClassView) (key : Z) (v' : ClassView) : Prop :=
  v_keys v' = v_keys v ++ [key] /\ v_inline v' = v_inline v /\ v_arrayType v' = v_arrayType v /\
  v_metatable v' = v_metatable v /\ v_butterfly v <= v_butterfly v'.

Lemma add_property_spec h p key v : reachable env h -> legal env h (OpAddProperty p key) -> describe h p = Some v ->
  wp (AddNonExistentProperty env p key) h (fun r h' =>
    match r with
    | None => h' = h /\ x_maxNumSlots <= Z.of_nat (length (v_keys v))
    | Some res => Z.of_nat (length (v_keys v)) < x_maxNumSlots /\ np_slotOrdinal res = Z.of_nat (length (v_keys v)) /\
        exists v', describe h' (np_newStructure res) = Some v' /\ added v key v' /\
          np_shouldGrowButterfly res = bool_decide (v_butterfly v' <> v_butterfly v)
    end) (out_of_memory h (OpAddProperty p key)).
Proof.
  intros Hr Hl Hd. destruct (reachable_info env special_user h p v Hr Hd) as (K & i & Hci & _ & Hi & ->).
  pose proof Hl as (Hu & _). pose proof (ci_heap _ _ _ Hci) as Hinv.
  eapply add_property_legal; [done|done|done|..]; simpl; rewrite length_fmap.
  - intros i0 Hi0 Hc. replace i0 with i in Hc by congruence. done.
  - intros i0 c h2 K' Hi0 Hlt Hs Hc _. replace i0 with i in * by congruence.
    destruct (grow_flag h K p i (GeneralHeapPointer key) Hinv Hi Hlt) as [Hgf Hge].
    split_and!; [done|done|]. eexists. split; [eapply describe_info; [apply Hs|done]|]. split; [|exact Hgf].
    unfold added. cbn [view_of add_info v_keys v_inline v_arrayType v_metatable v_butterfly i_keys i_inline].
    rewrite fmap_app, list_fmap_singleton, (proj2 (user_key_spec key Hu)). by split_and!.
Qed.

(** A recorded transition is found again, without any effect. *)
Lemma add_property_again h K p key i c : heap_inv env h K -> user_key key -> K !! p = Some i ->
  i_count i < x_maxNumSlots -> transition h p (GeneralHeapPointer key) = Some c ->
  AddNonExistentProperty env p key h
  = Ok (Some (mkAddNewProperty (bool_decide (i_kind (add_info env p i AddSlotForProperty (GeneralHeapPointer key))
          = AddPropertyAndGrowPropertyStorageCapacity)) (i_count i) c), h).
Proof.
  intros Hinv Hu Hi Hlt Ht. destruct (inv_structure env h K Hinv p i Hi) as (s & Hs & Hc).
  destruct (user_key_spec key Hu) as [Hv _]. pose proof (valid_transition_key _ Hv) as Hk.
  destruct (child_info env h K p i _ c Hinv Hi (transition_child env h K p _ c Hinv Hk Ht)) as (ic & Hic & He & Hek).
  rewrite (edge_by_property env p i ic _ He Hek Hv) in Hic.
  destruct (inv_structure env h K Hinv c _ Hic) as (sc & Hsc & Hcc).
  unfold AddNonExistentProperty, load_structure. rewrite bind_assoc, get_bind, (access_bind _ s) by done.
  rewrite (cl_numSlots _ _ _ _ _ Hc). destruct (Z.leb_spec x_maxNumSlots (i_count i)); [lia|].
  rewrite (bind_ok _ _ h c h) by (by eapply QueryTransitionTableAndInsert_known).
  rewrite bind_assoc, get_bind, (access_bind _ sc) by done. by rewrite (cl_kind _ _ _ _ _ Hcc).
Qed.

(** *** Changing the array type *)

Definition retyped (v : ClassView) (t : Z) : ClassView :=
  mkView (v_keys v) (v_inline v) (v_butterfly v) t (v_metatable v) (v_nonexistent v).

Lemma update_array_type_legal h K p t (Q : Z -> SysHeap -> Prop) : classes_inv env h K ->
  legal env h (OpUpdateArrayType p t) ->
  (forall i c h2 K', K !! p = Some i -> stepped env h K h2 K' ->
     K' !! c = Some (clone_info p i UpdateArrayTypeKind (i_metatable i) t) ->
     transition h2 p (Z.lor x_key_change_array_type_tag t) = Some c -> Q c h2) ->
  wp (Structure_UpdateArrayType env p t) h Q (out_of_memory h (OpUpdateArrayType p t)).
Proof.
  intros Hci (Ht & v & Hd & Hne & Hmeta) HQ. pose proof Hci as [Hinv _].
  destruct (info_describe env h K p v Hinv Hd) as (i & Hi & ->).
  eapply Structure_UpdateArrayType_spec; [done|done|done|done|done|].
  intros c h2 K' Hq Hsame. pose proof Hq as []. eapply HQ; [done| |done|done].
  eapply stepped_other; [done|eauto|done| |done]. rewrite array_type_key by done.
  unfold x_key_add_or_to_poly_metatable. change x_usefulBitsMask with 63 in Ht. lia.
Qed.

(** *** Invariants of the meaning of structures *)

Lemma initial_no_metatable : MayHaveMetatable GetInitialArrayType = false.
Proof. by vm_compute. Qed.

Lemma metatable_flag_info K : grown env ∅ K -> forall p i, K !! p = Some i ->
  MayHaveMetatable (i_arrayType i) = negb (i_metatable i =? 0).
Proof.
  apply (reachable_invariant env (fun i => MayHaveMetatable (i_arrayType i) = negb (i_metatable i =? 0))).
  - intros i _ -> _ -> _. apply initial_no_metatable.
  - intros p i i' IH He. destruct He; simpl; rewrite ?meta_meta; try done.
    + pose proof (count_nonneg i). by destruct (Z.eqb_spec (i_count i + 1) 0); [lia|].
    + by destruct (Z.eqb_spec m 0); [lia|].
    + congruence.
Qed.

(** The string keys of a metamethod, as addresses. *)
Definition names_metamethod (ord key : Z) : Prop :=
  key <> GetSpecialKeyForMetadataSlot env /\ m_type env key = String /\
  GetMetamethodOrdinalFromStringName env key = ord.

Lemma clear_bit m o ord : 0 <= ord < 16 ->
  Z.testbit (Z.land m (u16 (Z.lnot (u16 (Z.shiftl 1 o))))) ord = Z.testbit m ord && negb (o =? ord).
Proof.
  intros Ho. rewrite Z.land_spec. f_equal. unfold wrapu.
  rewrite Z.mod_pow2_bits_low, Z.lnot_spec, Z.mod_pow2_bits_low by lia. f_equal.
  destruct (Z.le_gt_cases 0 o).
  - rewrite Z.shiftl_1_l. by apply Z.pow2_bits_eqb.
  - rewrite Z.shiftl_spec by lia. destruct (Z.eqb_spec o ord); [lia|].
    rewrite Z.testbit_odd, Z.shiftr_div_pow2 by lia. rewrite Z.div_small; [done|]. split; [done|].
    apply Z.pow_gt_1; lia.
Qed.

Definition bits_ok (i : Info) : Prop := forall ord, 0 <= ord < 16 ->
  Z.testbit (i_nonexistent i) ord = true <->
  (forall g, g ∈ i_keys i -> ~ names_metamethod ord (GeneralHeapPointer_As g)).

Lemma bits_ok_clone i i' : i_keys i' = i_keys i -> i_nonexistent i' = i_nonexistent i -> bits_ok i -> bits_ok i'.
Proof. unfold bits_ok. by intros -> ->. Qed.

Lemma bits_ok_special p i : bits_ok i -> bits_ok (add_info env p i AddSlotForPolyMetatable (special env)).
Proof.
  intros IH ord Ho. simpl. rewrite (IH ord Ho). setoid_rewrite elem_of_app. setoid_rewrite list_elem_of_singleton.
  split; [|naive_solver]. intros Hn g [Hg|Hg]; [by apply Hn|]. subst g. intros [Hs _]. apply Hs.
  unfold special. by apply user_key_spec.
Qed.

Lemma bits_ok_property p i g : valid_key g -> g <> special env -> bits_ok i ->
  bits_ok (add_info env p i AddSlotForProperty g).
Proof.
  intros Hv Hs IH ord Ho. cbn [add_info i_nonexistent i_keys]. setoid_rewrite elem_of_app.
  setoid_rewrite list_elem_of_singleton. destruct (valid_key_As g Hv) as [_ Hg].
  transitivity (Z.testbit (i_nonexistent i) ord = true /\ ~ names_metamethod ord (GeneralHeapPointer_As g)).
  - rewrite bool_decide_false by done. case_bool_decide as Hstr.
    + destruct (Z.eqb_spec (GetMetamethodOrdinalFromStringName env (GeneralHeapPointer_As g)) (-1)) as [Hm|Hm].
      * split; [|naive_solver]. intros Hb. split; [done|]. intros (_ & _ & Hq). lia.
      * rewrite clear_bit by done. rewrite andb_true_iff, negb_true_iff, Z.eqb_neq. unfold names_metamethod.
        split; intros [Hb Hn]; (split; [done|]); [naive_solver|]. intros Hq. apply Hn. split_and!; try done.
        intros Hx. apply Hs. by rewrite <- Hg, Hx.
    + unfold names_metamethod. naive_solver.
  - rewrite (IH ord Ho). naive_solver.
Qed.

Lemma metamethod_bits_info K : grown env ∅ K -> forall p i, K !! p = Some i -> bits_ok i.
Proof.
  apply (reachable_invariant env bits_ok).
  - intros i Hk _ _ _ Hn ord Ho. rewrite Hk, Hn. split; [intros _ g Hg; by apply not_elem_of_nil in Hg|intros _].
    change x_luaMetamethodBitVectorFullMask with (Z.ones 16). by apply Z.ones_spec_low.
  - intros p i i' IH He. destruct He; try (by eapply bits_ok_clone).
    + by apply bits_ok_property.
    + by apply bits_ok_special.
Qed.
End lemmas.

(** ** A concrete heap for the witnesses *)

Definition sample_key (n : Z) : Z := - x_vmBaseOffset + 8 * n.

(** All keys are strings, [sample_key 1] is the reserved key and [sample_key 2]
    the name of metamethod 0. *)
Definition sample_env : Env :=
  mkEnv (fun _ => String) (fun p => Z.shiftr p 3 mod 2 ^ 32) (fun k => k mod 2 ^ 32) (fun k => k mod 2 ^ 32)
    (sample_key 1) (fun k => if k =? sample_key 2 then 0 else -1).

Lemma sample_special : user_key (GetSpecialKeyForMetadataSlot sample_env).
Proof. by vm_compute. Qed.

(** The additions of [keys] one after the other, from the structure [p] on. *)
Fixpoint add_ops (keys : list Z) (p : Z) (h : SysHeap) : list ClassOp :=
  match keys with
  | [] => []
  | key :: keys => OpAddProperty p key ::
      match run sample_env (OpAddProperty p key) h with Ok (r, h') => add_ops keys r h' | _ => [] end
  end.

Definition sample_base : SysHeap := default emptySystemHeap (history sample_env [OpCreateInitial 2] emptySystemHeap).
(** The initial structure. *)
Definition sample_root : Z := 80.
(** The structure with 20 properties: an anchor, a full block and 4 more keys. *)
Definition sample_ops : list ClassOp := add_ops (sample_key <$> (Z.of_nat <$> seq 2 20)) sample_root sample_base.
Definition sample_heap : SysHeap := default emptySystemHeap (history sample_env sample_ops sample_base).
Definition sample_leaf : Z := foldl (fun r p => Z.max r p.1) 0 (map_to_list (structures sample_heap)).

Lemma sample_base_reachable : reachable sample_env sample_base.
Proof. apply (history_reachable sample_env [OpCreateInitial 2]). by vm_compute. Qed.

Lemma sample_reachable : reachable sample_env sample_heap.
Proof. apply (history_reachable sample_env (OpCreateInitial 2 :: sample_ops)). by vm_compute. Qed.

Lemma sample_leaf_keys : v_keys <$> describe sample_heap sample_leaf = Some (sample_key <$> (Z.of_nat <$> seq 2 20)).
Proof. by vm_compute. Qed.

(** ** Properties *)

(** C26: every public operation on hidden classes is defined.  In every reachable
    heap, an operation whose precondition holds never reads outside of an object,
    never follows a wrong pointer and never probes a hash table without end: it
    returns a structure of the new heap, or it stops the process because the
    system heap is exhausted. *)
Theorem class_operations_defined env h op : user_key (GetSpecialKeyForMetadataSlot env) ->
  reachable env h -> legal env h op ->
  (exists r h', run env op h = Ok (r, h') /\
     match op with OpAllocate _ => True | _ => is_Some (describe h' r) end) \/
  (run env op h = VMFail /\ out_of_memory h op).
Proof.
  intros Hs Hr Hl. destruct (reachable_inv env Hs h Hr) as (K & Hci & _).
  destruct (wp_cases _ _ _ _ (run_spec env Hs h K op Hci Hl)) as [(r & h' & E & K' & Hst & Hx)|?]; [left|by right].
  exists r, h'. split; [done|]. destruct op; try done; destruct Hx as [i Hi]; eexists;
    (eapply describe_info; [apply Hst|done]).
Qed.

Lemma class_operations_defined_witness :
  exists r h', run sample_env (OpSetMetatable sample_root (sample_key 100)) sample_base = Ok (r, h') /\
    v_metatable <$> describe h' r = Some (GeneralHeapPointer (sample_key 100)).
Proof.
  destruct (class_operations_defined sample_env sample_base (OpSetMetatable sample_root (sample_key 100)))
    as [(r & h' & E & _)|[E _]].
  - apply sample_special.
  - apply sample_base_reachable.
  - by apply (bool_decide_unpack _); vm_compute.
  - exists r, h'. split; [exact E|]. vm_compute in E. injection E as <- <-. by vm_compute.
  - exfalso. by vm_compute in E.
Defined.

(** C27: hidden classes are immutable.  Whatever operations follow, a structure
    keeps its keys with their slots, its capacities, its array type, its metatable
    and its metamethod bits, although its hash table, its anchor and its
    transition table may be rebuilt.  Inline caches, which compare the structure
    pointer only, rely on it. *)
Theorem hidden_classes_immutable env h h' p v : user_key (GetSpecialKeyForMetadataSlot env) ->
  reachable env h -> rtc (step env) h h' -> describe h p = Some v -> describe h' p = Some v.
Proof.
  intros Hs Hr Hst Hd. destruct (reachable_inv env Hs h Hr) as (K & Hci & _).
  destruct (steps_spec env Hs h h' K Hst Hci) as (K' & HK). by eapply stepped_describe.
Qed.

Lemma hidden_classes_immutable_witness : describe sample_heap sample_root = describe sample_base sample_root.
Proof.
  destruct (describe sample_base sample_root) as [v|] eqn:E; [|exfalso; by vm_compute in E].
  apply (hidden_classes_immutable sample_env sample_base).
  - apply sample_special.
  - apply sample_base_reachable.
  - apply (history_steps _ sample_ops). by vm_compute.
  - exact E.
Defined.

(** C28: the property look-up is a linear search.  The inline hash table with its
    8-bit hashes and the chain to the anchor table give, for every key, the
    position of the key in the list of keys of the structure, or nothing; the
    variant for string keys gives the same. *)
Theorem property_lookup env h p s key : user_key (GetSpecialKeyForMetadataSlot env) ->
  reachable env h -> structures h !! p = Some s -> user_key key ->
  exists v, describe h p = Some v /\
    GetSlotOrdinalFromMaybeNonStringProperty env h s key = Some (position key (v_keys v)) /\
    (m_type env key = String -> GetSlotOrdinalFromStringProperty env h s key = Some (position key (v_keys v))).
Proof.
  intros Hsp Hr Hs Hk. destruct (reachable_inv env Hsp h Hr) as (K & [Hinv _] & _).
  destruct (inv_info env h K Hinv p s Hs) as (i & Hi & Hc).
  exists (view_of i). pose proof (lookup_position env h K p s i key Hinv Hs Hi Hk) as Hl.
  split_and!; [by eapply describe_info|done|]. intros Hstr. rewrite <- Hl.
  unfold GetSlotOrdinalFromMaybeNonStringProperty, GetHashValueForMaybeNonStringKey. by rewrite bool_decide_true.
Qed.

Lemma property_lookup_witness : exists s, structures sample_heap !! sample_leaf = Some s /\
  GetSlotOrdinalFromStringProperty sample_env sample_heap s (sample_key 5) = Some (Some 3).
Proof.
  destruct (structures sample_heap !! sample_leaf) as [s|] eqn:E; [|exfalso; by vm_compute in E].
  exists s. split; [done|].
  destruct (property_lookup sample_env sample_heap sample_leaf s (sample_key 5)) as (v & Hv & _ & Hl).
  - apply sample_special.
  - apply sample_reachable.
  - exact E.
  - by apply (bool_decide_unpack _); vm_compute.
  - rewrite (Hl eq_refl). apply (f_equal (fmap v_keys)) in Hv. rewrite sample_leaf_keys in Hv. injection Hv as <-.
    by vm_compute.
Defined.

(** Slots and keys are inverse to each other.  A look-up that finds a slot
    finds one of the structure whose key [GetKeyForSlotOrdinal] reports, and the
    key of every slot is found at that slot. *)
Theorem slot_key_roundtrip env h p s : user_key (GetSpecialKeyForMetadataSlot env) ->
  reachable env h -> structures h !! p = Some s ->
  (forall key slot, user_key key -> GetSlotOrdinalFromMaybeNonStringProperty env h s key = Some (Some slot) ->
     0 <= slot < s_numSlots s /\ GetKeyForSlotOrdinal h s slot = Some key) /\
  (forall slot, 0 <= slot < s_numSlots s -> exists key, GetKeyForSlotOrdinal h s slot = Some key /\ user_key key /\
     GetSlotOrdinalFromMaybeNonStringProperty env h s key = Some (Some slot)).
Proof.
  intros Hsp Hr Hs. destruct (reachable_inv env Hsp h Hr) as (K & [Hinv _] & _).
  destruct (inv_info env h K Hinv p s Hs) as (i & Hi & Hc).
  rewrite (cl_numSlots _ _ _ _ _ Hc). unfold i_count. split.
  - intros key slot Hk Hl. destruct (lookup_user_key env h K Hinv s i key Hc Hk) as (r & Hr' & Hm).
    rewrite Hl in Hr'. injection Hr' as <-. split; [by apply at_slot_Some in Hm as [? _]|].
    rewrite (GetKeyForSlotOrdinal_lookup env h K Hinv s i slot _ Hc Hm). f_equal. by apply user_key_spec.
  - intros slot Hslot. assert (exists g, at_slot (i_keys i) slot = Some g) as (g & Hg).
    { unfold at_slot. destruct (Z.leb_spec 0 slot); [|lia]. apply lookup_lt_is_Some_2. lia. }
    assert (valid_key g) as Hv.
    { pose proof (cl_valid _ _ _ _ _ Hc) as Hf. rewrite Forall_forall in Hf. apply Hf.
      unfold at_slot in Hg. destruct (0 <=? slot); [|done]. by eapply list_elem_of_lookup_2. }
    destruct (valid_key_As g Hv) as [Hu HG]. exists (GeneralHeapPointer_As g). split_and!; [|done|].
    + by eapply GetKeyForSlotOrdinal_lookup.
    + destruct (lookup_user_key env h K Hinv s i _ Hc Hu) as ([n|] & -> & Hm); rewrite HG in Hm.
      * do 2 f_equal. pose proof (cl_nodup _ _ _ _ _ Hc) as Hnd. unfold at_slot in *.
        destruct (Z.leb_spec 0 n), (Z.leb_spec 0 slot); try done.
        pose proof (NoDup_lookup _ _ _ _ Hnd Hm Hg). lia.
      * exfalso. apply Hm. unfold at_slot in Hg. destruct (0 <=? slot); [|done]. by eapply list_elem_of_lookup_2.
Qed.

Lemma slot_key_roundtrip_witness : exists s, structures sample_heap !! sample_leaf = Some s /\
  GetKeyForSlotOrdinal sample_heap s 17 = Some (sample_key 19).
Proof.
  destruct (structures sample_heap !! sample_leaf) as [s|] eqn:E; [|exfalso; by vm_compute in E].
  exists s. split; [done|].
  destruct (slot_key_roundtrip sample_env sample_heap sample_leaf s) as [Hkey _].
  - apply sample_special.
  - apply sample_reachable.
  - exact E.
  - apply Hkey; [by apply (bool_decide_unpack _); vm_compute|]. vm_compute in E. injection E as <-. by vm_compute.
Defined.

(** C29: adding a property.  Below the limit of 253 slots the transition gives a
    structure with the old keys and the new key behind them, whose slot is the
    one reported, with the other fields unchanged; the caller is told to grow the
    butterfly exactly when its capacity changes, and the capacity never shrinks.
    At the limit nothing changes and the caller goes to dictionary mode. *)
Theorem add_property env h p key v : user_key (GetSpecialKeyForMetadataSlot env) ->
  reachable env h -> legal env h (OpAddProperty p key) -> describe h p = Some v ->
  (exists res h' v', AddNonExistentProperty env p key h = Ok (Some res, h') /\
     Z.of_nat (length (v_keys v)) < x_maxNumSlots /\ np_slotOrdinal res = Z.of_nat (length (v_keys v)) /\
     describe h' (np_newStructure res) = Some v' /\ added v key v' /\
     np_shouldGrowButterfly res = bool_decide (v_butterfly v' <> v_butterfly v)) \/
  (AddNonExistentProperty env p key h = Ok (None, h) /\ x_maxNumSlots <= Z.of_nat (length (v_keys v))) \/
  (AddNonExistentProperty env p key h = VMFail /\ out_of_memory h (OpAddProperty p key)).
Proof.
  intros Hs Hr Hl Hd.
  destruct (wp_cases _ _ _ _ (add_property_spec env Hs h p key v Hr Hl Hd)) as [([res|] & h' & E & Hp)|?].
  - destruct Hp as (Hlt & Hslot & v' & Hd' & Ha & Hg). left. by exists res, h', v'.
  - destruct Hp as [-> ?]. by right; left.
  - by right; right.
Qed.

Lemma add_property_witness : exists res h', 
  AddNonExistentProperty sample_env sample_root (sample_key 50) sample_base = Ok (Some res, h') /\ np_slotOrdinal res = 0.
Proof.
  destruct (describe sample_base sample_root) as [v|] eqn:E; [|exfalso; by vm_compute in E].
  destruct (add_property sample_env sample_base sample_root (sample_key 50) v)
    as [(res & h' & v' & Ea & _ & Hslot & _)|[[Ea _]|[Ea _]]].
  - apply sample_special.
  - apply sample_base_reachable.
  - by apply (bool_decide_unpack _); vm_compute.
  - exact E.
  - exists res, h'. split; [exact Ea|]. rewrite Hslot. vm_compute in E. by injection E as <-.
  - exfalso. by vm_compute in Ea.
  - exfalso. by vm_compute in Ea.
Defined.

(** C30: transitions are shared for good.  Once a property has been added to a
    structure, adding it to the same structure again gives the identical result,
    with the same new structure, and does not touch the heap, no matter which
    operations came in between and whether the transition table went from a
    single child to a hash table and was resized since. *)
Theorem add_property_shared env h h' h'' p key res : user_key (GetSpecialKeyForMetadataSlot env) ->
  reachable env h -> legal env h (OpAddProperty p key) ->
  AddNonExistentProperty env p key h = Ok (Some res, h') -> rtc (step env) h' h'' ->
  AddNonExistentProperty env p key h'' = Ok (Some res, h'').
Proof.
  intros Hs Hr Hl E Hst. destruct (reachable_inv env Hs h Hr) as (K & Hci & _). pose proof Hl as [Hu _].
  pose proof (add_property_legal env Hs h K p key (fun r h' => forall res, r = Some res -> forall h'',
    rtc (step env) h' h'' -> AddNonExistentProperty env p key h'' = Ok (Some res, h''))) as Hw.
  unfold wp in Hw. rewrite E in Hw. eapply Hw; try done; clear h'' Hst res E Hw.
  intros i c h2 K' Hi Hlt Hs2 Hc Ht res [= <-] h'' Hst.
  destruct (steps_spec env Hs h2 h'' K' Hst (st_inv _ _ _ _ _ Hs2)) as (K2 & HK2).
  assert (K' !! p = Some i) as Hi' by (eapply lookup_weaken; [done|apply Hs2]).
  eapply add_property_again; [apply (st_inv _ _ _ _ _ HK2)|done|eapply lookup_weaken; [done|apply HK2]|done|].
  pose proof (proj1 (user_key_spec key Hu)) as Hv.
  eapply (st_transitions _ _ _ _ _ HK2); [eauto|by apply valid_transition_key| |done].
  apply valid_key_neg in Hv. unfold x_key_add_or_to_poly_metatable. lia.
Qed.

Lemma add_property_shared_witness : exists res,
  AddNonExistentProperty sample_env sample_root (sample_key 2) sample_heap = Ok (Some res, sample_heap).
Proof.
  destruct (AddNonExistentProperty sample_env sample_root (sample_key 2) sample_base) as [[[res|] h']| |] eqn:E;
    try by (exfalso; vm_compute in E).
  exists res. apply (add_property_shared sample_env sample_base h').
  - apply sample_special.
  - apply sample_base_reachable.
  - by apply (bool_decide_unpack _); vm_compute.
  - exact E.
  - apply (history_steps _ (tail sample_ops)). vm_compute in E. injection E as _ <-. by vm_compute.
Defined.

(** Changing the array type.  The transition keeps the keys, the capacities,
    the metatable and the metamethod bits and installs the new array type; it is
    shared like the addition of a property. *)
Theorem update_array_type_transition env h p t v : user_key (GetSpecialKeyForMetadataSlot env) ->
  reachable env h -> legal env h (OpUpdateArrayType p t) -> describe h p = Some v ->
  (exists c h', Structure_UpdateArrayType env p t h = Ok (c, h') /\ describe h' c = Some (retyped v t) /\
     forall h'', rtc (step env) h' h'' -> Structure_UpdateArrayType env p t h'' = Ok (c, h'')) \/
  (Structure_UpdateArrayType env p t h = VMFail /\ out_of_memory h (OpUpdateArrayType p t)).
Proof.
  intros Hs Hr Hl Hd. destruct (reachable_info env Hs h p v Hr Hd) as (K & i & Hci & _ & Hi & ->).
  eassert (wp (Structure_UpdateArrayType env p t) h (fun c h' => describe h' c = Some (retyped (view_of i) t) /\
    forall h'', rtc (step env) h' h'' -> Structure_UpdateArrayType env p t h'' = Ok (c, h'')) _) as Hw;
    [|destruct (wp_cases _ _ _ _ Hw) as [(c & h' & E & Hc & Hagain)|?]; [left; by exists c, h'|right; eassumption]].
  eapply update_array_type_legal; [done..|].
  intros i0 c h2 K' Hi0 Hst Hc Ht. replace i0 with i in * by congruence.
  change (retyped (view_of i) t) with (view_of (clone_info p i UpdateArrayTypeKind (i_metatable i) t)).
  split; [eapply describe_info; [apply Hst|done]|]. intros h'' Hsteps.
  destruct (steps_spec env Hs h2 h'' K' Hsteps (st_inv _ _ _ _ _ Hst)) as (K2 & HK2).
  destruct Hl as (Hrange & _). assert (transition_key (Z.lor x_key_change_array_type_tag t) /\
    Z.lor x_key_change_array_type_tag t <> x_key_add_or_to_poly_metatable) as [Hk Hne].
  { rewrite array_type_key by done. unfold transition_key, x_key_invalid, x_key_deleted, x_key_add_or_to_poly_metatable.
    change x_usefulBitsMask with 63 in Hrange. lia. }
  eapply QueryTransitionTableAndInsert_known; [apply (st_inv _ _ _ _ _ HK2)|done|].
  eapply (st_transitions _ _ _ _ _ HK2); [|done..]. exists i. eapply lookup_weaken; [done|apply Hst].
Qed.

Lemma update_array_type_transition_witness : exists c h',
  Structure_UpdateArrayType sample_env sample_root 2 sample_base = Ok (c, h') /\
  v_arrayType <$> describe h' c = Some 2.
Proof.
  destruct (describe sample_base sample_root) as [v|] eqn:E; [|exfalso; by vm_compute in E].
  destruct (update_array_type_transition sample_env sample_base sample_root 2 v) as [(c & h' & Ea & Hd & _)|[Ea _]].
  - apply sample_special.
  - apply sample_base_reachable.
  - by apply (bool_decide_unpack _); vm_compute.
  - exact E.
  - exists c, h'. split; [exact Ea|]. by rewrite Hd.
  - exfalso. by vm_compute in Ea.
Defined.

(** C31: setting a metatable.  The new structure has the same properties.  Either
    it records the metatable itself (the first table of its shape), or it is in
    poly-metatable mode and the caller writes the metatable into the reserved slot
    reported, whose key is the special key: the slot it had already, or a new one
    behind the properties, in which case the caller is told whether the butterfly
    grows. *)
Theorem set_metatable env h p metatable v : user_key (GetSpecialKeyForMetadataSlot env) ->
  reachable env h -> user_key metatable -> describe h p = Some v ->
  (exists res h' v', SetMetatable env p metatable h = Ok (res, h') /\ describe h' (am_newStructure res) = Some v' /\
     v_inline v' = v_inline v /\ v_nonexistent v' = v_nonexistent v /\
     if am_shouldInsertMetatable res then
       v_metatable v' = am_slotOrdinal res + 1 /\
       at_slot (v_keys v') (am_slotOrdinal res) = Some (GetSpecialKeyForMetadataSlot env) /\
       ((v' = v /\ am_shouldGrowButterfly res = false) \/
        (v_metatable v <= 0 /\ v_keys v' = v_keys v ++ [GetSpecialKeyForMetadataSlot env] /\
         am_shouldGrowButterfly res = bool_decide (v_butterfly v < v_butterfly v')))
     else
       v_metatable v' = GeneralHeapPointer metatable /\ v_keys v' = v_keys v /\ v_butterfly v' = v_butterfly v /\
       am_shouldGrowButterfly res = false) \/
  (SetMetatable env p metatable h = VMFail /\ out_of_memory h (OpSetMetatable p metatable)).
Proof.
  intros Hs Hr Hu Hd. destruct (reachable_info env Hs h p v Hr Hd) as (K & i & Hci & _ & Hi & ->).
  assert (GeneralHeapPointer_As (special env) = GetSpecialKeyForMetadataSlot env) as Hsp by (by apply user_key_spec).
  eassert (wp (SetMetatable env p metatable) h (fun res h' => exists K' i', stepped env h K h' K' /\
    K' !! am_newStructure res = Some i' /\ set_metatable_post env p i (GeneralHeapPointer metatable) res i') _) as Hw.
  { eapply SetMetatable_spec; eauto. }
  destruct (wp_cases _ _ _ _ Hw) as [(res & h' & E & K' & i' & Hst & Hi' & Hpost)|[E Hlow]]; [left|right].
  - exists res, h', (view_of i'). split; [done|]. split; [eapply describe_info; [apply Hst|done]|].
    destruct Hpost as (Hin & Hne & _ & Hpost). simpl. split; [done|]. split; [done|].
    destruct (am_shouldInsertMetatable res); [|destruct Hpost as (? & -> & ? & ? & _); done].
    destruct Hpost as (Hm & Hat & Hor). split; [done|]. split.
    + unfold at_slot in *. destruct (0 <=? _); [|done]. by rewrite list_lookup_fmap, Hat, <- Hsp.
    + destruct Hor as [[-> ?]|(? & Hks & _ & ?)]; [by left|right]. split; [done|]. split; [|done].
      by rewrite Hks, fmap_app, list_fmap_singleton, Hsp.
  - split; [done|]. simpl. by erewrite parent_of_info by (apply Hci || done).
Qed.

Lemma set_metatable_witness : exists res h',
  SetMetatable sample_env sample_root (sample_key 100) sample_base = Ok (res, h') /\
  v_metatable <$> describe h' (am_newStructure res) = Some (GeneralHeapPointer (sample_key 100)).
Proof.
  destruct (describe sample_base sample_root) as [v|] eqn:E; [|exfalso; by vm_compute in E].
  destruct (set_metatable sample_env sample_base sample_root (sample_key 100) v) as [(res & h' & v' & Ea & Hd & _ & _ & Hp)|[Ea _]].
  - apply sample_special.
  - apply sample_base_reachable.
  - by apply (bool_decide_unpack _); vm_compute.
  - exact E.
  - exists res, h'. split; [exact Ea|]. rewrite Hd. vm_compute in Ea. injection Ea as <- <-. simpl. f_equal. apply Hp.
  - exfalso. by vm_compute in Ea.
Defined.

(** Removing a metatable.  The new structure has the same properties and
    capacities; either it has no metatable, or the structure is in poly-metatable
    mode, stays the same, and the caller writes nil into the reserved slot. *)
Theorem remove_metatable env h p v : user_key (GetSpecialKeyForMetadataSlot env) ->
  reachable env h -> describe h p = Some v ->
  (exists res h' v', RemoveMetatable_ env p h = Ok (res, h') /\ describe h' (rm_newStructure res) = Some v' /\
     v_keys v' = v_keys v /\ v_inline v' = v_inline v /\ v_butterfly v' = v_butterfly v /\
     v_nonexistent v' = v_nonexistent v /\
     if rm_shouldInsertMetatable res then
       rm_newStructure res = p /\ v' = v /\ v_metatable v = rm_slotOrdinal res + 1 /\
       at_slot (v_keys v) (rm_slotOrdinal res) = Some (GetSpecialKeyForMetadataSlot env)
     else v_metatable v' = 0) \/
  (RemoveMetatable_ env p h = VMFail /\ out_of_memory h (OpRemoveMetatable p)).
Proof.
  intros Hs Hr Hd. destruct (reachable_info env Hs h p v Hr Hd) as (K & i & Hci & _ & Hi & ->).
  eassert (wp (RemoveMetatable_ env p) h (fun res h' => exists K' i', stepped env h K h' K' /\
    K' !! rm_newStructure res = Some i' /\ remove_metatable_post env p i res i') _) as Hw.
  { eapply RemoveMetatable_spec; eauto. }
  destruct (wp_cases _ _ _ _ Hw) as [(res & h' & E & K' & i' & Hst & Hi' & Hpost)|[E Hlow]]; [left|by right].
  exists res, h', (view_of i'). split; [done|]. split; [eapply describe_info; [apply Hst|done]|].
  destruct Hpost as [_ Hpost]. destruct (rm_shouldInsertMetatable res).
  - destruct Hpost as (? & -> & Hm & Hat). split_and!; try done. unfold at_slot in *. simpl.
    destruct (0 <=? _); [|done]. rewrite list_lookup_fmap, Hat. simpl. f_equal. by apply user_key_spec.
  - simpl. by destruct Hpost as (-> & -> & -> & -> & ->).
Qed.

Lemma remove_metatable_witness : exists res h',
  RemoveMetatable_ sample_env sample_root sample_base = Ok (res, h') /\
  v_metatable <$> describe h' (rm_newStructure res) = Some 0.
Proof.
  destruct (describe sample_base sample_root) as [v|] eqn:E; [|exfalso; by vm_compute in E].
  destruct (remove_metatable sample_env sample_base sample_root v) as [(res & h' & v' & Ea & Hd & _ & _ & _ & _ & Hp)|[Ea _]].
  - apply sample_special.
  - apply sample_base_reachable.
  - exact E.
  - exists res, h'. split; [exact Ea|]. rewrite Hd. vm_compute in Ea. injection Ea as <- <-. simpl. f_equal. apply Hp.
  - exfalso. by vm_compute in Ea.
Defined.

(** Removing a metatable undoes setting it.  A table shape without metatable
    that got its own metatable transition leads back to the identical structure. *)
Theorem metatable_roundtrip env h p metatable res h' v : user_key (GetSpecialKeyForMetadataSlot env) ->
  reachable env h -> user_key metatable -> describe h p = Some v -> v_metatable v = 0 ->
  SetMetatable env p metatable h = Ok (res, h') -> am_shouldInsertMetatable res = false ->
  RemoveMetatable_ env (am_newStructure res) h' = Ok (mkRemoveMetatable false 0 p, h').
Proof.
  intros Hs Hr Hu Hd Hv E Hmono. destruct (reachable_info env Hs h p v Hr Hd) as (K & i & Hci & _ & Hi & ->).
  eassert (wp (SetMetatable env p metatable) h (fun res h' => exists K' i', stepped env h K h' K' /\
    K' !! am_newStructure res = Some i' /\ set_metatable_post env p i (GeneralHeapPointer metatable) res i') _) as Hw.
  { eapply SetMetatable_spec; eauto. }
  unfold wp in Hw. rewrite E in Hw. destruct Hw as (K' & i' & Hst & Hi' & _ & _ & _ & Hpost).
  rewrite Hmono in Hpost. destruct Hpost as (Hm & _ & _ & _ & Hback). destruct (Hback Hv) as [Hk Hp].
  destruct (inv_structure env h' K' (ci_heap _ _ _ (st_inv _ _ _ _ _ Hst)) _ i' Hi') as (s & Hs' & Hc).
  unfold RemoveMetatable_, load_structure. rewrite bind_assoc, get_bind, (access_bind _ s) by done.
  rewrite (cl_metatable _ _ _ _ _ Hc), (cl_kind _ _ _ _ _ Hc), (cl_parent _ _ _ _ _ Hc), Hk, Hp, Hm.
  pose proof (proj1 (user_key_spec metatable Hu)) as Hn%valid_key_neg.
  destruct (Z.eqb_spec (GeneralHeapPointer metatable) 0); [lia|]. by rewrite bool_decide_true.
Qed.

Lemma metatable_roundtrip_witness : exists res h',
  SetMetatable sample_env sample_root (sample_key 100) sample_base = Ok (res, h') /\
  RemoveMetatable_ sample_env (am_newStructure res) h' = Ok (mkRemoveMetatable false 0 sample_root, h').
Proof.
  destruct (describe sample_base sample_root) as [v|] eqn:E; [|exfalso; by vm_compute in E].
  destruct (SetMetatable sample_env sample_root (sample_key 100) sample_base) as [[res h']| |] eqn:Ea;
    [|exfalso; by vm_compute in Ea..].
  exists res, h'. split; [done|].
  apply (metatable_roundtrip sample_env sample_base sample_root (sample_key 100) res h' v).
  - apply sample_special.
  - apply sample_base_reachable.
  - by apply (bool_decide_unpack _); vm_compute.
  - exact E.
  - vm_compute in E. by injection E as <-.
  - exact Ea.
  - vm_compute in Ea. by injection Ea as <- _.
Defined.

(** C34: the named storage is large enough.  A structure has at most 254 slots, its
    inline and butterfly capacities hold all of them, and it has no butterfly
    exactly when the inline storage suffices; in poly-metatable mode one of the
    slots belongs to the special key. *)
Theorem storage_capacity env h p v : user_key (GetSpecialKeyForMetadataSlot env) ->
  reachable env h -> describe h p = Some v ->
  Z.of_nat (length (v_keys v)) <= v_inline v + v_butterfly v <= 254 /\
  0 <= v_butterfly v /\ (v_butterfly v = 0 <-> Z.of_nat (length (v_keys v)) <= v_inline v) /\
  (0 < v_metatable v -> at_slot (v_keys v) (v_metatable v - 1) = Some (GetSpecialKeyForMetadataSlot env)).
Proof.
  intros Hs Hr Hd. destruct (reachable_info env Hs h p v Hr Hd) as (K & i & [Hinv _] & _ & Hi & ->).
  destruct (inv_structure env h K Hinv p i Hi) as (s & Hst & Hc). destruct Hc. simpl. rewrite length_fmap.
  change x_maxNumSlots with 253 in *. fold (i_count i).
  split; [lia|]. split; [lia|]. split; [lia|]. intros Hm. destruct cl_poly as [[? _]|[_ Hat]]; [lia|].
  unfold at_slot in *. destruct (0 <=? _); [|done]. rewrite list_lookup_fmap, Hat. simpl. f_equal. by apply user_key_spec.
Qed.

Lemma storage_capacity_witness : v_butterfly <$> describe sample_heap sample_leaf = Some 32 /\ 20 <= 2 + 32.
Proof.
  destruct (describe sample_heap sample_leaf) as [v|] eqn:E; [|exfalso; by vm_compute in E].
  destruct (storage_capacity sample_env sample_heap sample_leaf v) as [[Hle _] _].
  - apply sample_special.
  - apply sample_reachable.
  - exact E.
  - vm_compute in E. injection E as <-. split; [done|exact Hle].
Defined.

(** C33: the metamethod bits are exact.  A bit of [m_knownNonexistentMetamethods] is
    set exactly when the structure has no property whose key is the string that
    names the metamethod, so the look-up that the bit saves would fail and no
    other look-up is saved. *)
Theorem metamethod_bits_exact env h p v ord : user_key (GetSpecialKeyForMetadataSlot env) ->
  reachable env h -> describe h p = Some v -> 0 <= ord < x_totalLuaMetamethodKind ->
  Z.testbit (v_nonexistent v) ord = true <-> (forall key, key ∈ v_keys v -> ~ names_metamethod env ord key).
Proof.
  intros Hs Hr Hd Ho. destruct (reachable_info env Hs h p v Hr Hd) as (K & i & [Hinv _] & Hg & Hi & ->).
  rewrite (metamethod_bits_info env Hs K Hg p i Hi ord Ho). simpl. setoid_rewrite list_elem_of_fmap. naive_solver.
Qed.

Lemma metamethod_bits_exact_witness : exists v, describe sample_heap sample_leaf = Some v /\
  Z.testbit (v_nonexistent v) 0 = false /\ ~ (forall key, key ∈ v_keys v -> ~ names_metamethod sample_env 0 key).
Proof.
  destruct (describe sample_heap sample_leaf) as [v|] eqn:E; [|exfalso; by vm_compute in E].
  exists v. split; [done|]. assert (Z.testbit (v_nonexistent v) 0 = false) as Hb.
  { vm_compute in E. by injection E as <-. }
  split; [done|]. intros Hn. rewrite <- (metamethod_bits_exact sample_env sample_heap sample_leaf v 0) in Hn.
  - congruence.
  - apply sample_special.
  - apply sample_reachable.
  - exact E.
  - by split.
Defined.

(** The array type knows about the metatable.  The bit of the array type that
    the fast paths of tables test is set exactly when the structure has a
    metatable of its own or a slot for one. *)
Theorem metatable_flag env h p v : user_key (GetSpecialKeyForMetadataSlot env) ->
  reachable env h -> describe h p = Some v -> MayHaveMetatable (v_arrayType v) = negb (v_metatable v =? 0).
Proof.
  intros Hs Hr Hd. destruct (reachable_info env Hs h p v Hr Hd) as (K & i & _ & Hg & Hi & ->).
  by apply (metatable_flag_info env K Hg p i).
Qed.

Lemma metatable_flag_witness : MayHaveMetatable <$> (v_arrayType <$> describe sample_heap sample_leaf) = Some false.
Proof.
  destruct (describe sample_heap sample_leaf) as [v|] eqn:E; [|exfalso; by vm_compute in E].
  simpl. f_equal. rewrite (metatable_flag sample_env sample_heap sample_leaf v).
  - vm_compute in E. by injection E as <-.
  - apply sample_special.
  - apply sample_reachable.
  - exact E.
Defined.

(** C32: probing a transition table ends.  The table of a structure with several
    children has a power of two of entries, at least one and at most half of them
    in use; for every key [Find] stops within one round, at the entry with the
    key, or at an empty one when no transition for the key is recorded. *)
Theorem transition_probe_terminates env h p s key : user_key (GetSpecialKeyForMetadataSlot env) ->
  reachable env h -> structures h !! p = Some s -> s_transitionTable s <> 0 ->
  TT_IsTypeStructure (s_transitionTable s) = false -> transition_key key ->
  exists t k slot found, transitionTables h !! TT_AsTable (s_transitionTable s) = Some t /\
    2 <= k /\ Z.of_nat (length (m_hashTable t)) = 2 ^ k /\ m_hashTableMask t = 2 ^ k - 1 /\
    0 < m_numElementsInHashTable t <= 2 ^ (k - 1) /\ Find env t key = Some (slot, found) /\
    exists e, at_slot (m_hashTable t) slot = Some e /\
      te_key e = (if (found : bool) then key else x_key_invalid) /\
      transition h p key = (if found then Some (te_value e) else None).
Proof.
  intros Hsp Hr Hs H0 Htag Hkey. destruct (reachable_inv env Hsp h Hr) as (K & [Hinv _] & _).
  destruct (rep_intro env h K p s Hinv Hs) as [Hv _|key0 c Hv H8 Hc0 _ _|q t k Hv H8 Hq Ht Hok Hload Htr].
  - congruence.
  - rewrite Hv in Htag. by destruct (tag_structure c H8 Hc0) as (_ & T2 & _ & _); rewrite T2 in Htag.
  - rewrite Hv. destruct (tag_table q H8) as (_ & _ & T3 & _). rewrite T3. pose proof Hok as [].
    destruct (Find_spec env t k key ltac:(lia) tt_probing tt_mask ltac:(lia) Hkey) as (slot & found & Hf & Hres).
    exists t, k, slot, found. split_and!; try done; try lia.
    { rewrite (po_length _ _ _ _ _ tt_probing). assert (0 < 2 ^ k) by (apply Z.pow_pos_nonneg; lia). lia. }
    rewrite Htr. destruct found.
    + destruct Hres as (e & He & Hke). exists e. split_and!; try done.
      apply (table_lookup_spec env (2 ^ k)); [done|done|]. exists e. split_and!; try done.
      unfold at_slot in He. destruct (0 <=? slot); [|done]. by eapply list_elem_of_lookup_2.
    + destruct Hres as (Hnk & d & e & -> & Hd & He & Hne & _). exists e. split_and!.
      * by rewrite at_pos by lia.
      * apply list_elem_of_lookup_2 in He. pose proof (tt_nodeleted e He) as Hnd. unfold te_key_of in Hne.
        destruct (Z.eqb_spec (te_key e) x_key_invalid) as [|]; [done|].
        destruct (Z.eqb_spec (te_key e) x_key_deleted) as [|]; [done|]. done.
      * destruct (table_lookup (m_hashTable t) key) as [c|] eqn:E; [|done]. exfalso. apply Hnk.
        apply (table_lookup_spec env (2 ^ k)) in E as (e' & He' & Hke' & _); [|done|done].
        exists e'. split; [done|]. by apply te_key_of_Some.
Qed.

(** The initial structure with five children. *)
Definition fan_heap : SysHeap := default emptySystemHeap
  (history sample_env ((fun n => OpAddProperty sample_root (sample_key n)) <$> [3; 4; 5; 6; 7]) sample_base).

Lemma transition_probe_terminates_witness : exists s t slot, structures fan_heap !! sample_root = Some s /\
  transitionTables fan_heap !! TT_AsTable (s_transitionTable s) = Some t /\
  Find sample_env t (GeneralHeapPointer (sample_key 6)) = Some (slot, true).
Proof.
  destruct (structures fan_heap !! sample_root) as [s|] eqn:E; [|exfalso; by vm_compute in E].
  destruct (transition_probe_terminates sample_env fan_heap sample_root s (GeneralHeapPointer (sample_key 6)))
    as (t & k & slot & found & Ht & _ & _ & _ & _ & Hf & e & _ & _ & Htr).
  - apply sample_special.
  - eapply reachable_steps; [apply sample_base_reachable|].
    eapply (history_steps _ ((fun n => OpAddProperty sample_root (sample_key n)) <$> [3; 4; 5; 6; 7])). by vm_compute.
  - exact E.
  - vm_compute in E. injection E as <-. by vm_compute.
  - vm_compute in E. injection E as <-. by vm_compute.
  - by split.
  - exists s, t, slot. split_and!; [done|done|]. destruct found; [done|]. exfalso.
    assert (is_Some (transition fan_heap sample_root (GeneralHeapPointer (sample_key 6)))) as [c Hc]
      by (apply (bool_decide_unpack _); by vm_compute).
    congruence.
Defined.
