(* ===== verification/TableClasses.v ===== *)
(** * Tables on real hidden classes

    The structures of [structure.h] implement the interface [HiddenClassLaws] that
    the theorems on the array part of tables assume; the composition of the two
    developments on one system heap. *)

From S2P Require Import Prelude Double TValue MiscMath Machine TypeMask ArrayType Butterfly SparseMap HiddenClass TableObject TableArray TableLength TableTheorems Probing CheckedTable ClassHeap Structure Transition ClassInv ClassLookup ClassFrame ClassAnchor ClassCreate ClassTable ClassTransition ClassQuery ClassOps ClassView ClassTheorems.

Section instance.
Variable env : Env.

(** A hidden class is a structure or a dictionary; the queries read its fields. *)
Definition sys_ops : HiddenClassOps SysHeap := {|
  hc_kind h p := if structures h !! p then HcStructure else HcCacheableDictionary;
  hc_arrayType h p := from_option s_arrayType 0 (structures h !! p);
  hc_butterflyNamedStorageCapacity h p :=
    match structures h !! p with
    | Some s => s_butterflyNamedStorageCapacity s
    | None => from_option d_butterflyNamedStorageCapacity 0 (dictionaries h !! p)
    end;
  UpdateArrayType h p t := Structure_UpdateArrayType env p t h
|}.
#[local] Existing Instance sys_ops.

Hypothesis special_user : user_key (GetSpecialKeyForMetadataSlot env).

Definition live (h : SysHeap) (p : Z) : Prop := reachable env h /\ is_Some (describe h p).

Lemma describe_structure h p v : describe h p = Some v -> exists s, structures h !! p = Some s /\
  s_arrayType s = v_arrayType v /\ s_butterflyNamedStorageCapacity s = v_butterfly v.
Proof.
  unfold describe. destruct (structures h !! p) as [s|]; [|done]. simpl.
  destruct (keys_of h s); [|done]. intros [= <-]. by exists s.
Qed.

(** The fields the interface shows are those of the view. *)
Lemma view_fields h p v : describe h p = Some v ->
  hc_kind h p = HcStructure /\ hc_arrayType h p = v_arrayType v /\ hc_butterflyNamedStorageCapacity h p = v_butterfly v.
Proof. intros (s & Hs & <- & <-)%describe_structure. simpl. by rewrite Hs. Qed.

Lemma sys_transition h p t v : reachable env h -> describe h p = Some v -> t <> v_arrayType v ->
  0 <= t <= 63 -> MayHaveMetatable t = MayHaveMetatable (v_arrayType v) ->
  wp (Structure_UpdateArrayType env p t) h (fun c h' => reachable env h' /\
    (exists v', describe h' c = Some v' /\ v_arrayType v' = t /\ v_butterfly v' = v_butterfly v) /\
    forall q vq, describe h q = Some vq -> describe h' q = Some vq) True.
Proof.
  intros Hr Hd Hne Ht Hm. destruct (reachable_info env special_user h p v Hr Hd) as (K & i & Hci & _ & Hi & ->).
  assert (legal env h (OpUpdateArrayType p t)) as Hl by (split; [done|eauto]).
  pose proof (run_spec env special_user h K (OpUpdateArrayType p t) Hci Hl) as Hrun.
  pose proof (Structure_UpdateArrayType_spec env h K p i t (fun c h' => exists K', heap_inv env h' K' /\
    K' !! c = Some (clone_info p i UpdateArrayTypeKind (i_metatable i) t)) (ci_heap _ _ _ Hci) Hi Ht Hne Hm) as Hinfo.
  unfold wp in *. simpl in Hrun.
  destruct (Structure_UpdateArrayType env p t h) as [[c h']| |] eqn:E; [|done..].
  destruct Hrun as (K' & Hst & _). split_and!.
  - eapply reachable_steps; [done|]. apply rtc_once. by exists (OpUpdateArrayType p t), c.
  - destruct Hinfo as (K2 & Hinv2 & Hc); [intros c2 h2 K2 [] _; eauto|].
    eexists. split; [by eapply describe_info|done].
  - intros q vq. by eapply stepped_describe.
Qed.

Definition sys_laws : HiddenClassLaws SysHeap.
Proof.
  refine {| hc_live := live |}.
  - intros h p [Hr [v Hd]]. destruct (view_fields h p v Hd) as (_ & _ & ->).
    destruct (reachable_info env special_user h p v Hr Hd) as (K & i & [Hinv _] & _ & Hi & ->).
    destruct (inv_structure env h K Hinv p i Hi) as (s & _ & []).
    unfold x_maxNamedStorageCapacity. change x_maxNumSlots with 253 in *. simpl. lia.
  - intros h p t [Hr [v Hd]] _ Hne Ht Hm. destruct (view_fields h p v Hd) as (_ & Ha & Hb). rewrite Ha in Hne, Hm.
    destruct (wp_cases _ _ _ _ (sys_transition h p t v Hr Hd Hne Ht Hm)) as [(c & h' & E & Hr' & (v' & Hd' & Ht' & Hb') & Hold)|[E _]];
      [right|by left].
    exists c, h'. split; [exact E|]. destruct (view_fields h' c v' Hd') as (-> & -> & ->). rewrite Hb.
    split; [split; [done|eauto]|]. split_and!; try done. intros q [_ [vq Hq]]. pose proof (Hold q vq Hq) as Hq'.
    destruct (view_fields h q vq Hq) as (-> & -> & ->). destruct (view_fields h' q vq Hq') as (-> & -> & ->).
    split; [split; [done|eauto]|done].
Defined.
End instance.

Section composition.
Variable env : Env.
Hypothesis special_user : user_key (GetSpecialKeyForMetadataSlot env).
#[local] Instance class_ops : HiddenClassOps SysHeap := sys_ops env.
#[local] Instance class_laws : HiddenClassLaws SysHeap := sys_laws env special_user.

(** What a table in step with its hidden class shows. *)
Lemma inv_in_step hash (s : TableObject.St SysHeap) : inv hash s ->
  reachable env (st_hc s) /\
  v_arrayType <$> describe (st_hc s) (m_hiddenClass (st_table s)) = Some (m_arrayType (st_table s)).
Proof.
  intros [Ha _]. destruct Ha as [_ _ [Hr [v Hd]] Hsync _]. split; [done|]. rewrite Hd. simpl. f_equal.
  destruct (view_fields env _ _ v Hd) as (Hk & <- & _). by apply Hsync.
Qed.

Lemma fresh_table_spec hash h heap sparse p inl cap v r s : reachable env h -> describe h p = Some v ->
  v_arrayType v = GetInitialArrayType -> v_butterfly v = 0 -> world_ok h heap sparse ->
  0 <= inl <= 255 -> 0 <= cap <= x_alwaysVectorCutoff ->
  CreateEmptyTableObjectImpl h heap sparse p inl cap = Ok (r, s) ->
  inv hash s /\ forall k, array_content s k = Nil.
Proof.
  intros Hr Hd Hat Hb Hw Hi Hc E. destruct (view_fields env h p v Hd) as (_ & Ha & Hn). change (sys_ops env) with class_ops in Ha, Hn.
  destruct (create_spec hash h heap sparse p inl cap) as [(r' & s' & E' & Hinv & Hnil)|[E' _]].
  - done.
  - split; [by split; [|eauto]|]. rewrite Ha, Hn, Hat, Hb. done.
  - done.
  - done.
  - rewrite E in E'. by injection E' as _ <-.
  - congruence.
Qed.

(** Tables on real structures.  A table made with an initial structure as its
    hidden class keeps its promises when its array-type transitions are those of
    [structure.h]: after any history of indexed writes a read returns the last
    value written, and the structure of the table is one of a reachable system
    heap whose array type is the one the table caches.  No step is undefined. *)
Theorem table_history_on_structures hash h heap sparse p inl cap v r s hist key :
  reachable env h -> describe h p = Some v ->
  v_arrayType v = GetInitialArrayType -> v_butterfly v = 0 -> world_ok h heap sparse ->
  0 <= inl <= 255 -> 0 <= cap <= x_alwaysVectorCutoff ->
  CreateEmptyTableObjectImpl h heap sparse p inl cap = Ok (r, s) ->
  Forall (fun kv => IsNaN kv.1 = false) hist ->
  match puts hash hist s with
  | Ok (_, s') =>
      GetByDoubleVal hash key (PrepareGetByIntegerIndex (m_arrayType (st_table s'))) s'
      = Ok (last_write (fun _ => Nil) hist key, s') /\
      reachable env (st_hc s') /\
      v_arrayType <$> describe (st_hc s') (m_hiddenClass (st_table s')) = Some (m_arrayType (st_table s'))
  | VMFail => True
  | UB => False
  end.
Proof.
  intros Hr Hd Hat Hb Hw Hi Hc E Hf.
  destruct (fresh_table_spec hash h heap sparse p inl cap v r s Hr Hd Hat Hb Hw Hi Hc E) as [Hinv Hnil].
  pose proof (puts_spec hash hist Hf s Hinv) as Hp. unfold wp in Hp.
  destruct (puts hash hist s) as [[u s']| |]; [|done..]. destruct Hp as [Hinv' Hc'].
  split; [|by apply (inv_in_step hash)].
  destruct (wp_returns _ _ _ (GetByDoubleVal_spec hash s' key Hinv')) as (x & s2 & E2 & -> & ->).
  rewrite E2, Hc'. do 2 f_equal. by apply last_write_ext.
Qed.
End composition.

Definition sample_class_table : TableObject.St SysHeap :=
  match CreateEmptyTableObjectImpl sample_base initUserHeap ∅ sample_root 2 4 with
  | Ok (_, s) => s
  | _ => mkSt (mkTable 0 0 None []) sample_base initUserHeap ∅
  end.

Lemma table_history_on_structures_witness : exists s',
  @puts _ (class_ops sample_env) (fun _ => 0) sample_puts sample_class_table = Ok (tt, s') /\
  GetByDoubleVal (fun _ => 0) 0 (PrepareGetByIntegerIndex (m_arrayType (st_table s'))) s' = Ok (CreateInt32 60, s').
Proof.
  destruct (CreateEmptyTableObjectImpl sample_base initUserHeap ∅ sample_root 2 4) as [[r s]| |] eqn:Es;
    [|exfalso; by vm_compute in Es..].
  replace sample_class_table with s by (unfold sample_class_table; by rewrite Es).
  destruct (describe sample_base sample_root) as [v|] eqn:Ev; [|exfalso; by vm_compute in Ev].
  assert (v_arrayType v = GetInitialArrayType /\ v_butterfly v = 0) as [Ha Hb].
  { clear Es. vm_compute in Ev. injection Ev as <-. by split. }
  assert (world_ok sample_base initUserHeap ∅) as Hw
    by (split; [apply initUserHeap_ok|intros q m Hm; by rewrite lookup_empty in Hm]).
  pose proof (table_history_on_structures sample_env sample_special (fun _ => 0) sample_base initUserHeap ∅ sample_root 2 4 v r s
    sample_puts 0 sample_base_reachable Ev Ha Hb Hw ltac:(lia)
    ltac:(unfold x_alwaysVectorCutoff; lia) Es ltac:(by repeat constructor)) as Hh.
  destruct (@puts _ (class_ops sample_env) (fun _ => 0) sample_puts s) as [[[] s']| |] eqn:E.
  - exists s'. split; [exact eq_refl|]. destruct Hh as [Hh _]. rewrite Hh. clear. by vm_compute.
  - clear Hh. exfalso. assert (s = sample_class_table) as -> by (unfold sample_class_table; by rewrite Es).
    by vm_compute in E.
  - exact (False_ind _ Hh).
Defined.
