(* ===== verification/ClassIterator.v ===== *)
(** * Iterating over the keys of a structure ([StructureIterator], [runtime/structure.h])

    The iterator walks the blocks of the anchor table, the last full block when
    the anchor does not have it, and the block of the structure itself.  The
    theorem: it visits every key once, in the order of the slots. *)

From S2P Require Import Prelude MiscMath Machine TypeMask ArrayType Butterfly Probing CheckedTable ClassHeap Structure Transition ClassInv ClassLookup.

(** [m_curPtr] is the address of an entry of a block: the address of the first
    entry and an index. *)
Record StructureIterator := mkIterator {
  it_hiddenClass : Z;
  it_anchorTable : Z;
  it_block : Z;
  it_offset : Z;
  it_ord : Z;
  it_maxOrd : Z;
  it_anchorTableMaxOrd : Z
}.

(** [GetFinalFullBlockPointer(hiddenClass).As() - x_hiddenClassBlockSize]. *)
Definition finalBlockBegin (s : Structure) : Z := s_finalFullBlock s - 4 * x_hiddenClassBlockSize.

(** The constructor. *)
Definition newStructureIterator (h : SysHeap) (hc : Z) : option StructureIterator :=
  hiddenClass ← structures h !! hc;
  let aht := s_anchorHashTable hiddenClass in
  if negb (aht =? 0) then
    anchorHashTable ← anchors h !! aht;
    p ← at_slot (a_blockPointers anchorHashTable) 0;
    Some (mkIterator hc aht p 0 0 (s_numSlots hiddenClass) (a_numTotalSlots anchorHashTable))
  else
    let p := if HasFinalFullBlockPointer (s_numSlots hiddenClass) then finalBlockBegin hiddenClass
             else hc + OffsetOfTrailingVarLengthArray in
    Some (mkIterator hc aht p 0 0 (s_numSlots hiddenClass) 0).

Definition HasMore (it : StructureIterator) : bool := it_ord it <? it_maxOrd it.

Definition GetCurrentKey (h : SysHeap) (it : StructureIterator) : option Z :=
  load_block_begin h (it_block it) (it_offset it).

Definition GetCurrentSlotOrdinal (it : StructureIterator) : Z := it_ord it.

Definition at_block (it : StructureIterator) (ord block offset : Z) : StructureIterator :=
  mkIterator (it_hiddenClass it) (it_anchorTable it) block offset ord (it_maxOrd it) (it_anchorTableMaxOrd it).

(** The block of the slot [ord], where a new block begins; a failing assertion has
    no result. *)
Definition next_block (h : SysHeap) (it : StructureIterator) (ord : Z) : option Z :=
  let own := it_hiddenClass it + OffsetOfTrailingVarLengthArray in
  if ord =? it_anchorTableMaxOrd it then
    hiddenClass ← structures h !! it_hiddenClass it;
    contains ← IsAnchorTableContainsFinalBlock h hiddenClass;
    Some (if HasFinalFullBlockPointer (it_maxOrd it) && negb contains then finalBlockBegin hiddenClass else own)
  else if it_anchorTableMaxOrd it <? ord then
    hiddenClass ← structures h !! it_hiddenClass it;
    contains ← IsAnchorTableContainsFinalBlock h hiddenClass;
    if (ord =? it_anchorTableMaxOrd it + x_hiddenClassBlockSize) &&
       (HasFinalFullBlockPointer (s_numSlots hiddenClass) && negb contains) &&
       (it_block it + 4 * it_offset it =? s_finalFullBlock hiddenClass - 4)
    then Some own else None
  else
    anchorTable ← anchors h !! it_anchorTable it;
    at_slot (a_blockPointers anchorTable) (Z.shiftr ord x_log2_hiddenClassBlockSize).

Definition Advance (h : SysHeap) (it : StructureIterator) : option StructureIterator :=
  let ord := u8 (it_ord it + 1) in
  if Z.land ord (u8 (x_hiddenClassBlockSize - 1)) =? 0 then
    if ord <? it_maxOrd it then p ← next_block h it ord; Some (at_block it ord p 0)
    else Some (at_block it ord (it_block it) (it_offset it))
  else Some (at_block it ord (it_block it) (it_offset it + 1)).

(** The loop [while (iterator.HasMore())] with the keys and slots it sees. *)
Fixpoint iterate (h : SysHeap) (fuel : nat) (it : StructureIterator) : option (list (Z * Z)) :=
  if HasMore it then
    match fuel with
    | O => None
    | S fuel =>
        key ← GetCurrentKey h it;
        it' ← Advance h it;
        rest ← iterate h fuel it';
        Some ((key, GetCurrentSlotOrdinal it) :: rest)
    end
  else Some [].

(** ** Correctness *)

(** The iterator only reads structures and anchors. *)
Lemma Advance_frame h1 h it : structures h1 = structures h -> anchors h1 = anchors h -> Advance h1 it = Advance h it.
Proof.
  intros Hs Ha. unfold Advance, next_block, IsAnchorTableContainsFinalBlock. by rewrite Hs, Ha.
Qed.

Lemma iterate_frame h1 h fuel it : structures h1 = structures h -> anchors h1 = anchors h ->
  iterate h1 fuel it = iterate h fuel it.
Proof.
  intros Hs Ha. revert it. induction fuel as [|fuel IH]; intros it; [done|]. simpl.
  assert (GetCurrentKey h1 it = GetCurrentKey h it) as -> by (unfold GetCurrentKey, load_block_begin; by rewrite Hs).
  rewrite (Advance_frame h1 h) by done. destruct (HasMore it), (GetCurrentKey h it), (Advance h it); [|done..].
  cbn [mbind option_bind]. by rewrite IH.
Qed.

Section iterator.
Variable env : Env.
Variables (h : SysHeap) (K : Classes).
Hypothesis inv : heap_inv env h K.
Variables (p : Z) (s : Structure) (i : Info).
Hypothesis Hs : structures h !! p = Some s.
Hypothesis Hi : K !! p = Some i.

Notation n := (length (i_keys i)).

Lemma it_class : class_ok env (anchors h) K s i.
Proof. by eapply hi_class. Qed.

(** [block] is where the block of the slots from [base] on begins. *)
Definition block_at (block : Z) (base : nat) : Prop :=
  forall o, 0 <= o < 16 -> Z.of_nat base + o < Z.of_nat n -> load_block_begin h block o = at_slot (i_keys i) (Z.of_nat base + o).

Lemma own_block : block_at (p + OffsetOfTrailingVarLengthArray) (lim n).
Proof.
  intros o Ho _. unfold block_at, load_block_begin.
  replace (p + OffsetOfTrailingVarLengthArray - OffsetOfTrailingVarLengthArray) with p by lia.
  rewrite Hs. simpl. apply (values_spec env h K); [apply it_class|lia].
Qed.

Lemma final_block : (B <= n /\ nonfull n < B)%nat -> block_at (finalBlockBegin s) (lim n - B).
Proof.
  intros Hf o Ho _. unfold load_block_begin, finalBlockBegin.
  pose proof (load_block_end_spec env h K inv s i (o - 16) it_class) as He.
  unfold load_block_end, HiddenClassOfFullBlockPointer in He.
  replace (x_hiddenClassBlockSize + (o - 16)) with o in He by (change x_hiddenClassBlockSize with 16; lia).
  rewrite He; [|unfold i_count; rewrite HasFinalFullBlockPointer_spec; by apply bool_decide_eq_true|unfold B; lia].
  f_equal. destruct (blocks n) as (Hb & q & Hq & _). unfold B in *. lia.
Qed.

Lemma anchor_block a nb k total j block : anchor_ok env K a (take total (i_keys i)) nb k -> total = (nb * B)%nat ->
  (j < nb)%nat -> a_blockPointers a !! j = Some block -> block_at block (j * B).
Proof.
  intros Ha Ht Hj Hb o Ho _. destruct (load_block_begin_spec env h K inv a _ nb k j o Ha Hj) as (q & Hq & Hl); [done|].
  replace q with block in Hl by congruence. rewrite Hl. apply at_slot_take. unfold B in *. lia.
Qed.

(** The iterator stands at the slot [k]. *)
Record stands (total : nat) (it : StructureIterator) (k : nat) : Prop := {
  is_class : it_hiddenClass it = p;
  is_anchor : it_anchorTable it = s_anchorHashTable s;
  is_ord : it_ord it = Z.of_nat k;
  is_max : it_maxOrd it = i_count i;
  is_total : it_anchorTableMaxOrd it = Z.of_nat total;
  is_offset : (k < n)%nat -> it_offset it = Z.of_nat (k mod B);
  is_block : (k < n)%nat -> block_at (it_block it) (k / B * B);
  is_final : (total <= k < lim n)%nat -> it_block it = finalBlockBegin s
}.

Lemma block_split k : (k = k / B * B + k mod B /\ k mod B < B)%nat.
Proof.
  unfold B. pose proof (Nat.div_mod k 16 ltac:(lia)). pose proof (Nat.mod_upper_bound k 16 ltac:(lia)). lia.
Qed.

Lemma stands_key total it k g : stands total it k -> i_keys i !! k = Some g -> GetCurrentKey h it = Some g.
Proof.
  intros [] Hg. pose proof (lookup_lt_Some _ _ _ Hg) as Hk. destruct (block_split k) as [Hs1 Hs2]. unfold GetCurrentKey.
  rewrite is_offset0, is_block0 by (done || unfold B in *; lia).
  replace (Z.of_nat (k / B * B) + Z.of_nat (k mod B)) with (Z.of_nat k) by lia. by rewrite at_slot_nat.
Qed.

(** Inside of a block. *)
Lemma advance_inside total it k : (total = full n \/ total + B = full n)%nat -> stands total it k -> (S k mod B <> 0)%nat -> (k < n)%nat ->
  (Z.land (u8 (it_ord it + 1)) (u8 (x_hiddenClassBlockSize - 1)) =? 0) = false /\
  stands total (at_block it (u8 (it_ord it + 1)) (it_block it) (it_offset it + 1)) (S k).
Proof.
  intros Htot [] Hm Hk. pose proof (cl_count _ _ _ _ _ it_class) as Hn.
  assert (u8 (it_ord it + 1) = Z.of_nat (S k)) as Hord by (rewrite is_ord0, wrapu_small by (unfold in_u; pow2; lia); lia).
  rewrite Hord. change (u8 (x_hiddenClassBlockSize - 1)) with (Z.ones 4). rewrite Z.land_ones by lia.
  change (2 ^ 4) with (Z.of_nat B). rewrite <- Nat2Z.inj_mod.
  split; [destruct (Z.eqb_spec (Z.of_nat (S k mod B)) 0); [lia|done]|].
  destruct (block_split k) as [Hs1 Hs2]. destruct (block_split (S k)) as [Hs3 Hs4].
  assert (S k / B = k / B /\ S k mod B = S (k mod B))%nat as [Hd Hmod] by (unfold B in *; lia).
  split; cbn [at_block it_hiddenClass it_anchorTable it_ord it_maxOrd it_anchorTableMaxOrd it_offset it_block]; try done.
  - intros _. rewrite is_offset0, Hmod by done. lia.
  - intros _. rewrite Hd. auto.
  - intros Hr. apply is_final0. unfold full, B in *. lia.
Qed.

(** At a block boundary. *)
Lemma next_block_spec total it k : anchored env (anchors h) K s (i_keys i) total ->
  (total = full n \/ total + B = full n)%nat -> stands total it k -> (S k mod B = 0)%nat -> (S k < n)%nat ->
  exists b, next_block h it (Z.of_nat (S k)) = Some b /\ block_at b (S k) /\
    ((total <= S k < lim n)%nat -> b = finalBlockBegin s).
Proof.
  intros Ha Htot [] Hm Hk. pose proof it_class as Hc.
  pose proof (IsAnchorTableContainsFinalBlock_spec env h K s i total Hc Ha Htot) as Hcont.
  destruct (blocks n) as (Hb & q & Hq & Hcase). pose proof (nonfull_le n) as (_ & _ & Hpos).
  destruct (block_split (S k)) as [Hs1 _]. unfold next_block.
  rewrite is_total0, is_class0, is_max0, is_anchor0, Hs.
  destruct (Z.eqb_spec (Z.of_nat (S k)) (Z.of_nat total)) as [Heq|Hne].
  - cbn [mbind option_bind]. rewrite Hcont. cbn [mbind option_bind]. unfold i_count. rewrite HasFinalFullBlockPointer_spec.
    repeat case_bool_decide; simpl.
    all: try (exists (p + OffsetOfTrailingVarLengthArray); split; [done|];
      replace (S k) with (lim n) by (unfold B in *; lia); split; [apply own_block|lia]).
    exists (finalBlockBegin s). split; [done|]. split; [|done].
    replace (S k) with (lim n - B)%nat by (unfold B in *; lia). apply final_block. lia.
  - destruct (Z.ltb_spec (Z.of_nat total) (Z.of_nat (S k))) as [Hlt|Hge].
    + cbn [mbind option_bind]. rewrite Hcont. cbn [mbind option_bind].
      rewrite (cl_numSlots _ _ _ _ _ Hc). unfold i_count. rewrite HasFinalFullBlockPointer_spec.
      rewrite is_offset0, is_final0 by (unfold B in *; lia).
      assert (S k = lim n /\ lim n = total + B /\ k mod B = 15)%nat as (He & Hl & Hk15)
        by (destruct (block_split k); unfold B in *; lia).
      rewrite (bool_decide_true (_ <= _ /\ _)%nat), bool_decide_false by (unfold B in *; lia).
      rewrite Hk15. destruct (Z.eqb_spec (Z.of_nat (S k)) (Z.of_nat total + x_hiddenClassBlockSize)) as [_|Hx];
        [|change x_hiddenClassBlockSize with (Z.of_nat B) in Hx; lia].
      unfold finalBlockBegin. destruct (Z.eqb_spec (s_finalFullBlock s - 4 * x_hiddenClassBlockSize + 4 * Z.of_nat 15)
        (s_finalFullBlock s - 4)) as [_|Hx]; [|change x_hiddenClassBlockSize with 16 in Hx; lia].
      simpl. exists (p + OffsetOfTrailingVarLengthArray). split; [done|]. rewrite He. split; [apply own_block|lia].
    + destruct Ha as [[_ ->]|(_ & a & nb & ka & Hlk & Haok & Htn)]; [lia|].
      rewrite Hlk. cbn [mbind option_bind]. change x_log2_hiddenClassBlockSize with 4.
      rewrite Z.shiftr_div_pow2 by lia. change (2 ^ 4) with (Z.of_nat B). rewrite <- Nat2Z.inj_div, at_slot_nat.
      assert (S k / B < nb)%nat as Hj by (unfold B in *; lia).
      destruct (a_blockPointers a !! (S k / B)%nat) as [b|] eqn:Eb.
      * exists b. split; [done|]. split; [|lia]. replace (S k) with (S k / B * B)%nat at 1 by lia. by eapply anchor_block.
      * exfalso. apply lookup_ge_None in Eb. rewrite (an_pointers _ _ _ _ _ _ Haok) in Eb. lia.
Qed.

Lemma advance_spec total it k : anchored env (anchors h) K s (i_keys i) total ->
  (total = full n \/ total + B = full n)%nat -> stands total it k -> (k < n)%nat ->
  exists it', Advance h it = Some it' /\ stands total it' (S k).
Proof.
  intros Ha Htot Hst Hk. unfold Advance. destruct (decide (S k mod B = 0)%nat) as [Hm|Hm].
  - pose proof Hst as []. pose proof (cl_count _ _ _ _ _ it_class) as Hn.
    assert (u8 (it_ord it + 1) = Z.of_nat (S k)) as -> by (rewrite is_ord0, wrapu_small by (unfold in_u; pow2; lia); lia).
    change (u8 (x_hiddenClassBlockSize - 1)) with (Z.ones 4). rewrite Z.land_ones by lia.
    change (2 ^ 4) with (Z.of_nat B). rewrite <- Nat2Z.inj_mod, Hm. rewrite is_max0. simpl Z.eqb. cbn iota. unfold i_count.
    destruct (Z.ltb_spec (Z.of_nat (S k)) (Z.of_nat n)) as [Hlt|Hge].
    + destruct (next_block_spec total it k Ha Htot Hst Hm ltac:(lia)) as (b & -> & Hb & Hf). eexists. split; [done|].
      destruct (block_split (S k)) as [Hs1 _].
      split; cbn [at_block it_hiddenClass it_anchorTable it_ord it_maxOrd it_anchorTableMaxOrd it_offset it_block]; try done.
      * by rewrite Hm.
      * intros _. by replace (S k / B * B)%nat with (S k) by lia.
    + eexists. split; [done|].
      split; cbn [at_block it_hiddenClass it_anchorTable it_ord it_maxOrd it_anchorTableMaxOrd it_offset it_block]; try done; try lia.
      pose proof (nonfull_le n). unfold lim. lia.
  - destruct (advance_inside total it k Htot Hst Hm Hk) as [-> Hst']. eauto.
Qed.

Lemma new_iterator_spec total : anchored env (anchors h) K s (i_keys i) total ->
  (total = full n \/ total + B = full n)%nat -> exists it, newStructureIterator h p = Some it /\ stands total it 0.
Proof.
  intros Ha Htot. pose proof it_class as Hc. destruct (blocks n) as (Hb & q & Hq & Hcase).
  pose proof (nonfull_le n) as (Hnf & _ & Hpos). unfold newStructureIterator. rewrite Hs. cbn [mbind option_bind].
  destruct Ha as [[Hz ->]|(Hne & a & nb & ka & Hlk & Haok & Htn)].
  - rewrite Hz. simpl. eexists. split; [done|]. rewrite (cl_numSlots _ _ _ _ _ Hc). unfold i_count. rewrite HasFinalFullBlockPointer_spec.
    split; simpl; try done.
    + intros Hn. case_bool_decide as Hf.
      * replace 0%nat with (lim n - B)%nat by (unfold B in *; lia). by apply final_block.
      * replace 0%nat with (lim n) by (unfold B in *; lia). apply own_block.
    + intros Hl. rewrite bool_decide_true; [done|]. unfold B in *. lia.
  - destruct (Z.eqb_spec (s_anchorHashTable s) 0); [done|]. simpl. rewrite Hlk. cbn [mbind option_bind].
    change 0 with (Z.of_nat 0). rewrite at_slot_nat. pose proof (an_nb _ _ _ _ _ _ Haok) as Hnb.
    destruct (a_blockPointers a !! 0%nat) as [b|] eqn:Eb.
    + eexists. split; [done|]. split; simpl; try done.
      * apply (cl_numSlots _ _ _ _ _ Hc).
      * by rewrite (an_numTotalSlots _ _ _ _ _ _ Haok), Htn.
      * intros _. eapply (anchor_block a nb ka total 0 b); try done. lia.
      * unfold B in *. lia.
    + apply lookup_ge_None in Eb. rewrite (an_pointers _ _ _ _ _ _ Haok) in Eb. lia.
Qed.

(** The loop sees the keys in the order of their slots. *)
Lemma iterate_from total fuel it k : anchored env (anchors h) K s (i_keys i) total ->
  (total = full n \/ total + B = full n)%nat -> stands total it k -> (k <= n)%nat -> (n <= k + fuel)%nat ->
  iterate h fuel it = Some (zip (drop k (i_keys i)) (Z.of_nat <$> seq k (n - k))).
Proof.
  intros Ha Htot. revert it k. induction fuel as [|fuel IH]; intros it k Hst Hk Hf; pose proof Hst as [].
  - simpl. unfold HasMore. rewrite is_ord0, is_max0. unfold i_count. destruct (Z.ltb_spec (Z.of_nat k) (Z.of_nat n)); [lia|].
    by rewrite drop_ge by lia.
  - simpl. unfold HasMore. rewrite is_ord0, is_max0. unfold i_count. destruct (Z.ltb_spec (Z.of_nat k) (Z.of_nat n)).
    + destruct (i_keys i !! k) as [g|] eqn:Eg; [|apply lookup_ge_None in Eg; lia].
      rewrite (stands_key total it k g) by done. cbn [mbind option_bind].
      destruct (advance_spec total it k Ha Htot Hst ltac:(lia)) as (it' & -> & Hst'). cbn [mbind option_bind].
      rewrite (IH it' (S k)) by (done || lia). cbn [mbind option_bind]. unfold GetCurrentSlotOrdinal.
      rewrite is_ord0, (drop_S _ g k Eg). by replace (n - k)%nat with (S (n - S k)) by lia.
    + by rewrite drop_ge by lia.
Qed.

Lemma iterate_spec : exists it, newStructureIterator h p = Some it /\
  iterate h 256 it = Some (zip (i_keys i) (Z.of_nat <$> seq 0 n)).
Proof.
  destruct (cl_tables _ _ _ _ _ it_class) as (total & k & Ha & Ht & _).
  destruct (new_iterator_spec total Ha Ht) as (it & Hit & Hst). exists it. split; [done|].
  pose proof (cl_count _ _ _ _ _ it_class). rewrite (iterate_from total 256 it 0) by (done || lia).
  by rewrite drop_0, Nat.sub_0_r.
Qed.
End iterator.
