(* ===== verification/Dictionary.v ===== *)
(** * Cacheable dictionaries ([class CacheableDictionary], [runtime/structure.h])

    The hidden class of a table with too many properties for a structure: a
    growing hash table from keys to slots that belongs to one object.  The
    operations first, as the code has them; then the invariant [dict_ok d ks],
    which says that the dictionary [d] has the keys [ks] in the slots given by
    their order, and that every operation keeps it. *)

From S2P Require Import Prelude MiscMath Machine TypeMask ArrayType Butterfly Probing CheckedTable ClassHeap Structure Transition ClassInv ClassLookup ClassFrame ClassIterator.

Definition zeroDictEntry : DictEntry := mkDictEntry 0 0.
Definition sizeof_CacheableDictionary : Z := 32.

(** Stores to the fields. *)
Definition d_set_table (d : CacheableDictionary) (mask count : Z) (table : option (list DictEntry)) : CacheableDictionary :=
  mkDictionary (d_shouldNeverTransitToUncacheableDictionary d) (d_inlineNamedStorageCapacity d)
    (d_butterflyNamedStorageCapacity d) mask count table (d_metatable d).
Definition d_set_butterfly (d : CacheableDictionary) (c : Z) : CacheableDictionary :=
  mkDictionary (d_shouldNeverTransitToUncacheableDictionary d) (d_inlineNamedStorageCapacity d)
    c (d_hashTableMask d) (d_slotCount d) (d_hashTable d) (d_metatable d).
Definition d_set_metatable (d : CacheableDictionary) (m : Z) : CacheableDictionary :=
  mkDictionary (d_shouldNeverTransitToUncacheableDictionary d) (d_inlineNamedStorageCapacity d)
    (d_butterflyNamedStorageCapacity d) (d_hashTableMask d) (d_slotCount d) (d_hashTable d) m.

(** [struct CreateFromStructureResult] and [struct PutByIdResult]; a capacity that
    is not written is [None]. *)
Record CreateFromStructureResult := mkCreateResult { cr_dictionary : Z; cr_slot : Z; cr_shouldGrowButterfly : bool }.
Record PutByIdResult := mkPutByIdResult {
  pr_slot : Z;
  pr_newButterflyCapacity : option Z;
  pr_shouldGrowButterfly : bool;
  pr_shouldCheckForTransitionToUncacheableDictionary : bool
}.

(** The first [n] entries of an array, for a loop or a copy over all of them. *)
Definition entries (table : list DictEntry) (n : Z) : option (list DictEntry) :=
  if n <=? Z.of_nat (length table) then Some (take (Z.to_nat n) table) else None.

Section definitions.
Variable env : Env.

(** ** Creation *)

Definition CreateEmptyDictionary (anticipatedNumSlots inlineCapacity : Z) (shouldNeverTransit : bool) : MH Z :=
  r ← AllocFromSystemHeap sizeof_CacheableDictionary;
  let hashTableMask := u32 (u32 (RoundUpToPowerOfTwo anticipatedNumSlots * 2) - 1) in
  let hashTableMask := Z.max hashTableMask 127 in
  store_dictionary r (mkDictionary shouldNeverTransit inlineCapacity 0 hashTableMask 0
    (Some (replicate (Z.to_nat (u32 (hashTableMask + 1))) zeroDictEntry)) 0);;
  mret r.

(** The new dictionary takes over the hash table.  [garbage] is what the memory of
    the metatable field holds, which the code leaves to its caller. *)
Definition RelocateForAddingOrRemovingMetatable (garbage self : Z) : MH Z :=
  r ← AllocFromSystemHeap sizeof_CacheableDictionary;
  d ← load_dictionary self;
  store_dictionary r (d_set_metatable d garbage);;
  store_dictionary self (d_set_table d (d_hashTableMask d) (d_slotCount d) None);;
  mret r.

Definition Clone (self : Z) : MH Z :=
  r ← AllocFromSystemHeap sizeof_CacheableDictionary;
  d ← load_dictionary self;
  table ← access (d_hashTable d);
  copy ← access (entries table (u32 (d_hashTableMask d + 1)));
  store_dictionary r (d_set_table d (d_hashTableMask d) (d_slotCount d) (Some copy));;
  mret r.

(** ** The hash table *)

Definition GetInitOrNextButterflyCapacity (self : CacheableDictionary) : Res Z :=
  if d_butterflyNamedStorageCapacity self =? 0 then
    Ok (ComputeInitialButterflyCapacityForDictionary (d_inlineNamedStorageCapacity self))
  else ComputeNextButterflyCapacityForDictionaryOrFail (d_butterflyNamedStorageCapacity self).

(** The store of [InsertNonExistentPropertyForInitOrResize] into the table; meeting
    the property, which the code asserts does not happen, has no result. *)
Definition InsertNonExistentPropertyForInitOrResize (htMask prop propHash slotOrdinal : Z) (table : list DictEntry)
    : option (list DictEntry) :=
  '(slot, free) ← probe (fun e =>
      if de_key e =? 0 then Some true
      else if GeneralHeapPointer_As (de_key e) =? prop then Some false else None)
    (fun slot => Z.land (slot + 1) htMask) 0 table (length table) (Z.land propHash htMask);
  if (free : bool) then set_slot table slot (mkDictEntry (GeneralHeapPointer prop) slotOrdinal) else None.

(** One iteration of the loop of [ResizeImpl]. *)
Definition resize_insert (newMask : Z) (table : list DictEntry) (curEntry : DictEntry) : option (list DictEntry) :=
  if negb (de_key curEntry =? 0) then
    let key := GeneralHeapPointer_As (de_key curEntry) in
    InsertNonExistentPropertyForInitOrResize newMask key (GetHashValueForMaybeNonStringKey env key) (de_slot curEntry) table
  else Some table.

(** [is_power_of_2] ([common_utils/constexpr_power_helper.h]). *)
Definition is_power_of_2 (value : Z) : bool := (0 <? value) && (Z.land value (value - 1) =? 0).

(** The number of entries of a table the loop of [ResizeImpl] counts. *)
Definition used_entries (table : list DictEntry) : Z :=
  Z.of_nat (length (List.filter (fun e => negb (de_key e =? 0)) table)).

(** [ResizeImpl], with its two assertions. *)
Definition ResizeImpl (self : CacheableDictionary) : Res CacheableDictionary :=
  if negb (is_power_of_2 (u32 (d_hashTableMask self + 1))) then UB
  else
    let oldMask := d_hashTableMask self in
    let newMask := u32 (oldMask * 2 + 1) in
    if newMask <? 2 ^ 32 - 1 then
      match oldHt ← d_hashTable self;
            oldHt ← entries oldHt (u32 (oldMask + 1));
            table ← foldl (fun acc e => t ← acc; resize_insert newMask t e)
              (Some (replicate (Z.to_nat (u32 (newMask + 1))) zeroDictEntry)) oldHt;
            Some (table, used_entries oldHt) with
      | Some (table, cnt) =>
          if cnt =? d_slotCount self then Ok (d_set_table self newMask (d_slotCount self) (Some table)) else UB
      | None => UB
      end
    else VMFail.

(** [ResizeIfNeeded]: the dictionary afterwards and the result. *)
Definition ResizeIfNeeded (self : CacheableDictionary) : Res (CacheableDictionary * bool) :=
  if u32 (d_slotCount self * 2) <? d_hashTableMask self then Ok (self, false)
  else match ResizeImpl self with Ok d => Ok (d, true) | VMFail => VMFail | UB => UB end.

(** [GetSlotOrdinalFromPropertyImpl]: [inr slotOrdinal] for a property that is
    found, [inl slotForInsertion] otherwise. *)
Definition GetSlotOrdinalFromPropertyImpl (self : CacheableDictionary) (prop propHash : Z) : option (Z + Z) :=
  table ← d_hashTable self;
  let hashMask := d_hashTableMask self in
  let gprop := GeneralHeapPointer prop in
  '(slot, r) ← probe (fun e =>
      if de_key e =? 0 then Some None
      else if de_key e =? gprop then Some (Some (de_slot e)) else None)
    (fun slot => Z.land (slot + 1) hashMask) 0 table (length table) (Z.land propHash hashMask);
  Some (match r with Some slotOrdinal => inr slotOrdinal | None => inl slot end).

(** [GetHashTableSlotNumberForProperty]: [(uint32_t)-1] when it is not found. *)
Definition GetHashTableSlotNumberForProperty (self : CacheableDictionary) (prop : Z) : option Z :=
  table ← d_hashTable self;
  let hashMask := d_hashTableMask self in
  let gprop := GeneralHeapPointer prop in
  '(slot, found) ← probe (fun e =>
      if de_key e =? 0 then Some false
      else if de_key e =? gprop then Some true else None)
    (fun slot => Z.land (slot + 1) hashMask) 0 table (length table)
    (Z.land (GetHashValueForMaybeNonStringKey env prop) hashMask);
  Some (if found : bool then u32 slot else u32 (-1)).

Definition found_slot (r : Z + Z) : option Z := match r with inr slotOrdinal => Some slotOrdinal | inl _ => None end.

Definition Dict_GetSlotOrdinalFromStringProperty (self : CacheableDictionary) (prop : Z) : option (option Z) :=
  found_slot <$> GetSlotOrdinalFromPropertyImpl self prop (GetHashValueForStringKey env prop).
Definition Dict_GetSlotOrdinalFromMaybeNonStringProperty (self : CacheableDictionary) (prop : Z) : option (option Z) :=
  found_slot <$> GetSlotOrdinalFromPropertyImpl self prop (GetHashValueForMaybeNonStringKey env prop).

(** ** Put *)

(** Lifts a result to the heap monad. *)
Definition res_lift {A} (r : Res A) : MH A := fun h =>
  match r with Ok a => Ok (a, h) | VMFail => VMFail | UB => UB end.

Definition PreparePutPropertyImpl (p prop propHash : Z) : MH PutByIdResult :=
  self ← load_dictionary p;
  r ← access (GetSlotOrdinalFromPropertyImpl self prop propHash);
  match r with
  | inr slot => mret (mkPutByIdResult slot None false false)
  | inl slotForInsertion =>
      let slot := d_slotCount self in
      grow ← (if d_slotCount self =? u32 (d_inlineNamedStorageCapacity self + d_butterflyNamedStorageCapacity self)
              then c ← res_lift (GetInitOrNextButterflyCapacity self); mret (Some c)
              else mret None);
      table ← access (d_hashTable self);
      table ← access (set_slot table slotForInsertion (mkDictEntry (GeneralHeapPointer prop) slot));
      '(self, resized) ← res_lift (ResizeIfNeeded
         (d_set_table self (d_hashTableMask self) (u32 (d_slotCount self + 1)) (Some table)));
      store_dictionary p self;;
      mret (mkPutByIdResult slot grow (bool_decide (is_Some grow)) resized)
  end.

Definition Dict_PreparePutById (p prop : Z) : MH PutByIdResult :=
  PreparePutPropertyImpl p prop (GetHashValueForStringKey env prop).
Definition PreparePutByMaybeNonStringKey (p prop : Z) : MH PutByIdResult :=
  PreparePutPropertyImpl p prop (GetHashValueForMaybeNonStringKey env prop).

(** ** From a structure *)

(** The body of the loop of [CreateFromStructure] for a key and its slot. *)
Definition insert_property (mask slot key keySlot : Z) (table : list DictEntry) : option (list DictEntry) :=
  if key =? GetSpecialKeyForMetadataSlot env then Some table
  else if keySlot =? slot then None
  else InsertNonExistentPropertyForInitOrResize mask key (GetHashValueForMaybeNonStringKey env key) keySlot table.

Fixpoint insert_properties (h : SysHeap) (mask slot : Z) (fuel : nat) (iterator : StructureIterator) (table : list DictEntry)
    : option (list DictEntry) :=
  if HasMore iterator then
    match fuel with
    | O => None
    | S fuel =>
        g ← GetCurrentKey h iterator;
        let keySlot := GetCurrentSlotOrdinal iterator in
        iterator' ← Advance h iterator;
        table' ← insert_property mask slot (GeneralHeapPointer_As g) keySlot table;
        insert_properties h mask slot fuel iterator' table'
    end
  else Some table.

(** [GetPolyMetatableFromObjectWithStructureHiddenClass] of the object, applied to
    the slot and the inline capacity. *)
Variable GetPolyMetatable : Z -> Z -> option Z.

Definition CreateFromStructure (p newProp : Z) : MH CreateFromStructureResult :=
  structure ← load_structure p;
  let neededSlots := u32 (s_numSlots structure + 1) in
  let neededSlots := if IsPolyMetatable structure then u32 (neededSlots - 1) else neededSlots in
  dictionary ← CreateEmptyDictionary neededSlots (s_inlineNamedStorageCapacity structure) false;
  r ← load_dictionary dictionary;
  let r := d_set_butterfly r (s_butterflyNamedStorageCapacity structure) in
  metatable ← (if IsPolyMetatable structure
               then access (GetPolyMetatable (GetPolyMetatableSlot structure) (s_inlineNamedStorageCapacity structure))
               else mret (GeneralHeapPointer_As (s_metatable structure)));
  let r := d_set_metatable r metatable in
  '(slot, grow, r) ←
    (if IsPolyMetatable structure then mret (GetPolyMetatableSlot structure, false, r)
     else if s_inlineNamedStorageCapacity structure + s_butterflyNamedStorageCapacity structure =? s_numSlots structure
     then c ← res_lift (GetInitOrNextButterflyCapacity r); mret (s_numSlots structure, true, d_set_butterfly r c)
     else mret (s_numSlots structure, false, r));
  iterator ← query (fun h => newStructureIterator h p);
  table ← access (d_hashTable r);
  table ← query (fun h => insert_properties h (d_hashTableMask r) slot 256 iterator table);
  table ← access (InsertNonExistentPropertyForInitOrResize (d_hashTableMask r) newProp
                    (GetHashValueForMaybeNonStringKey env newProp) slot table);
  store_dictionary dictionary (d_set_table r (d_hashTableMask r) neededSlots (Some table));;
  mret (mkCreateResult dictionary slot grow).
End definitions.

(** ** The invariant *)

Section invariant.
Variable env : Env.

(** The special key is the address of an object of the user heap. *)
Definition special_is_user : Prop := user_key (GetSpecialKeyForMetadataSlot env).

Definition dkey (e : DictEntry) : option Z := if de_key e =? 0 then None else Some (de_key e).

(** The keys of a table are addresses of the user heap. *)
Definition good_entry (e : DictEntry) : Prop := forall g, dkey e = Some g -> valid_key g.

(** A table of [2 ^ k] entries for the keys [ks]. *)
Record dtable_ok (ks : list Z) (k : Z) (t : list DictEntry) : Prop := {
  dt_probing : probing_ok dkey (hkey env) 1 (2 ^ k) t;
  dt_entries : forall e g, e ∈ t -> dkey e = Some g -> at_slot ks (de_slot e) = Some g;
  dt_keys : forall g, g ∈ ks -> has_key dkey t g;
  dt_count : occupancy dkey t = length ks
}.

(** What a dictionary is apart from the room for the values: its keys [ks] in the
    order of their slots. *)
Record dict_shape (d : CacheableDictionary) (ks : list Z) (k : Z) (t : list DictEntry) : Prop := {
  ds_size : 7 <= k <= 29;
  ds_mask : d_hashTableMask d = 2 ^ k - 1;
  ds_hashTable : d_hashTable d = Some t;
  ds_table : dtable_ok ks k t;
  ds_nodup : NoDup ks;
  ds_valid : Forall valid_key ks;
  ds_special : special env ∉ ks;
  ds_count : d_slotCount d = Z.of_nat (length ks);
  ds_room : Z.of_nat (length ks) < 2 ^ k;
  ds_inline : 0 <= d_inlineNamedStorageCapacity d <= x_maxNumSlots;
  ds_butterfly : 0 <= d_butterflyNamedStorageCapacity d <= x_maxNamedStorageCapacity
}.

Definition d_capacity (d : CacheableDictionary) : Z :=
  d_inlineNamedStorageCapacity d + d_butterflyNamedStorageCapacity d.

Record dict_ok (d : CacheableDictionary) (ks : list Z) : Prop := {
  do_shape : exists k t, dict_shape d ks k t /\ 2 * Z.of_nat (length ks) <= 2 ^ k;
  do_capacity : Z.of_nat (length ks) <= d_capacity d
}.

Lemma dkey_nonzero e g : dkey e = Some g -> de_key e = g /\ g <> 0.
Proof. unfold dkey. destruct (Z.eqb_spec (de_key e) 0); [done|]. intros [= <-]. done. Qed.

Lemma dkey_mk g o : valid_key g -> dkey (mkDictEntry g o) = Some g.
Proof. unfold dkey, valid_key. simpl. pow2. intros Hg. destruct (Z.eqb_spec g 0); [lia|done]. Qed.

Lemma pow_pos k : 0 <= k -> 0 < 2 ^ k.
Proof. intros. apply Z.pow_pos_nonneg; lia. Qed.

Lemma pos_0 k g : 0 <= k -> Z.land (hkey env g) (2 ^ k - 1) = pos (hkey env) 1 (2 ^ k) g 0.
Proof. intros Hk. rewrite land_mask by done. unfold pos. f_equal. lia. Qed.

Lemma pos_next k g d : 0 <= k ->
  Z.land (pos (hkey env) 1 (2 ^ k) g d + 1) (2 ^ k - 1) = pos (hkey env) 1 (2 ^ k) g (d + 1).
Proof. intros Hk. unfold pos. by rewrite up_next. Qed.

(** *** Look-up *)

(** A look-up loop in a table with an empty slot. *)
Lemma dict_probe {R} (visit : DictEntry -> option R) (hit miss : DictEntry -> R) k t g : 0 <= k ->
  probing_ok dkey (hkey env) 1 (2 ^ k) t -> (occupancy dkey t < length t)%nat ->
  (forall e, visit e = match dkey e with
                       | None => Some (miss e)
                       | Some g' => if g' =? g then Some (hit e) else None
                       end) ->
  let loop := probe visit (fun slot => Z.land (slot + 1) (2 ^ k - 1)) 0 t (length t) (Z.land (hkey env g) (2 ^ k - 1)) in
  (exists e d, 0 <= d < 2 ^ k /\ dkey e = Some g /\ t !! slot (hkey env) 1 (2 ^ k) g d = Some e /\
     loop = Some (pos (hkey env) 1 (2 ^ k) g d, hit e)) \/
  (~ has_key dkey t g /\
   exists e d, first_empty dkey (hkey env) 1 (2 ^ k) t g d e /\ loop = Some (pos (hkey env) 1 (2 ^ k) g d, miss e)).
Proof.
  intros Hk Hp Hocc Hv loop. unfold loop. rewrite pos_0 by done.
  apply (probe_find dkey (hkey env) 1 (2 ^ k) ltac:(auto) (pow_pos k Hk) visit _ 0 (pos (hkey env) 1 (2 ^ k) g)).
  - done.
  - by apply not_full.
  - intros e k' _ He Hne. rewrite Hv, He. by destruct (Z.eqb_spec k' g).
  - intros e _ He. by rewrite Hv, He, Z.eqb_refl.
  - intros e _ He. by rewrite Hv, He.
  - intros d _. by apply pos_next.
  - done.
  - pose proof (pow_pos k Hk). rewrite (po_length _ _ _ _ _ Hp). lia.
Qed.

Section shape.
Variables (d : CacheableDictionary) (ks : list Z) (k : Z) (t : list DictEntry).
Hypothesis shape : dict_shape d ks k t.

Lemma ds_k : 0 <= k.
Proof. destruct shape. lia. Qed.

Lemma ds_has_room : (occupancy dkey t < length t)%nat.
Proof.
  destruct shape. rewrite (dt_count _ _ _ ds_table0), (po_length _ _ _ _ _ (dt_probing _ _ _ ds_table0)).
  pose proof (pow_pos k ltac:(lia)). lia.
Qed.

Lemma ds_has_key g : has_key dkey t g <-> g ∈ ks.
Proof.
  destruct shape. split; [|apply (dt_keys _ _ _ ds_table0)].
  intros (e & He & Hg). by eapply at_slot_elem, (dt_entries _ _ _ ds_table0).
Qed.

(** The look-up of a property: its place in the list of keys. *)
Lemma lookup_spec key hash : user_key key -> hash = hkey env (GeneralHeapPointer key) ->
  (exists slot, GetSlotOrdinalFromPropertyImpl d key hash = Some (inr slot) /\
     at_slot ks slot = Some (GeneralHeapPointer key)) \/
  (GeneralHeapPointer key ∉ ks /\ exists dist e,
     first_empty dkey (hkey env) 1 (2 ^ k) t (GeneralHeapPointer key) dist e /\
     GetSlotOrdinalFromPropertyImpl d key hash = Some (inl (pos (hkey env) 1 (2 ^ k) (GeneralHeapPointer key) dist))).
Proof.
  intros Hkey ->. pose proof shape as []. unfold GetSlotOrdinalFromPropertyImpl. rewrite ds_hashTable0, ds_mask0.
  cbn [mbind option_bind].
  destruct (dict_probe (fun e => if de_key e =? 0 then Some None
      else if de_key e =? GeneralHeapPointer key then Some (Some (de_slot e)) else None)
    (fun e => Some (de_slot e)) (fun _ => None) k t (GeneralHeapPointer key) ds_k (dt_probing _ _ _ ds_table0) ds_has_room)
    as [(e & dist & _ & He & Ht & ->)|(Hno & e & dist & Hf & ->)].
  - intros e. unfold dkey. by destruct (de_key e =? 0).
  - left. eexists. split; [done|]. eapply (dt_entries _ _ _ ds_table0); [by eapply list_elem_of_lookup_2|done].
  - right. split; [by rewrite <- ds_has_key|]. by exists dist, e.
Qed.

(** The number of the entry of a key in the table. *)
Lemma GetHashTableSlotNumberForProperty_spec key j e : user_key key -> t !! j = Some e -> dkey e = Some (GeneralHeapPointer key) ->
  GetHashTableSlotNumberForProperty env d key = Some (Z.of_nat j).
Proof.
  intros Hkey Hj He. pose proof shape as []. unfold GetHashTableSlotNumberForProperty. rewrite ds_hashTable0, ds_mask0.
  cbn [mbind option_bind]. pose proof (dt_probing _ _ _ ds_table0) as Hp.
  assert (GetHashValueForMaybeNonStringKey env key = hkey env (GeneralHeapPointer key)) as ->
    by (unfold hkey; by rewrite (proj2 (user_key_spec key Hkey))).
  destruct (dict_probe (fun e => if de_key e =? 0 then Some false
      else if de_key e =? GeneralHeapPointer key then Some true else None)
    (fun _ => true) (fun _ => false) k t (GeneralHeapPointer key) ds_k Hp ds_has_room)
    as [(e' & dist & _ & He' & Ht & ->)|(Hno & _)].
  - intros e'. unfold dkey. by destruct (de_key e' =? 0).
  - cbn [mbind option_bind]. pose proof (po_distinct _ _ _ _ _ Hp _ _ _ _ _ Ht Hj He' He) as Hs. unfold slot in Hs.
    pose proof (pos_range (hkey env) 1 (2 ^ k) (pow_pos k ds_k) (GeneralHeapPointer key) dist).
    pose proof (Z.pow_le_mono_r 2 k 29). f_equal. rewrite wrapu_small; [lia|]. unfold in_u. pow2. lia.
  - destruct Hno. exists e. split; [by eapply list_elem_of_lookup_2|done].
Qed.
End shape.

(** *** Insertion *)

Lemma good_entry_As e g key : good_entry e -> dkey e = Some g -> user_key key ->
  (GeneralHeapPointer_As (de_key e) =? key) = (g =? GeneralHeapPointer key).
Proof.
  intros Hgood He Hkey. destruct (dkey_nonzero e g He) as [-> _].
  destruct (valid_key_As g (Hgood g He)) as [_ Hg], (user_key_spec key Hkey) as [_ Hk].
  destruct (Z.eqb_spec (GeneralHeapPointer_As g) key) as [<-|Hne]; [by rewrite Hg, Z.eqb_refl|].
  destruct (Z.eqb_spec g (GeneralHeapPointer key)) as [->|]; [by rewrite Hk in Hne|done].
Qed.

Lemma insert_spec k t key o dist e0 : 0 <= k -> probing_ok dkey (hkey env) 1 (2 ^ k) t -> Forall good_entry t ->
  user_key key -> ~ has_key dkey t (GeneralHeapPointer key) ->
  first_empty dkey (hkey env) 1 (2 ^ k) t (GeneralHeapPointer key) dist e0 ->
  InsertNonExistentPropertyForInitOrResize (2 ^ k - 1) key (hkey env (GeneralHeapPointer key)) o t =
    Some (<[slot (hkey env) 1 (2 ^ k) (GeneralHeapPointer key) dist := mkDictEntry (GeneralHeapPointer key) o]> t).
Proof.
  intros Hk Hp Hgood Hkey Hno (Hd & Hs & He0 & Hfirst). unfold InsertNonExistentPropertyForInitOrResize.
  pose proof (pow_pos k Hk) as Hpow. rewrite pos_0 by done.
  rewrite (probe_run _ _ _ t (pos (hkey env) 1 (2 ^ k) (GeneralHeapPointer key)) dist _ e0 true).
  - cbn [mbind option_bind]. apply set_slot_pos; [done|apply Hp].
  - intros d' _. by apply pos_next.
  - intros d' Hd'. destruct (Hfirst d' Hd') as (e' & k' & He' & Hk'). exists e'. rewrite Z.add_0_l, at_pos by done.
    split; [done|]. pose proof (dkey_nonzero e' k' Hk') as [Hz Hnz].
    assert (e' ∈ t) as Hin by (by eapply list_elem_of_lookup_2). rewrite Forall_forall in Hgood.
    rewrite (good_entry_As e' k' key (Hgood e' Hin) Hk' Hkey). destruct (Z.eqb_spec (de_key e') 0); [congruence|].
    destruct (Z.eqb_spec k' (GeneralHeapPointer key)) as [->|]; [|done]. destruct Hno. by exists e'.
  - by rewrite Z.add_0_l, at_pos.
  - unfold dkey in He0. by destruct (de_key e0 =? 0).
  - rewrite (po_length _ _ _ _ _ Hp). lia.
Qed.

(** Putting the entries of a list into a table. *)
Lemma fold_insert_spec ins k acc l : 0 <= k -> probing_ok dkey (hkey env) 1 (2 ^ k) acc ->
  Forall good_entry acc -> Forall good_entry l ->
  (forall t e, dkey e = None -> ins t e = Some t) ->
  (forall t e g, dkey e = Some g -> ins t e = InsertNonExistentPropertyForInitOrResize (2 ^ k - 1)
     (GeneralHeapPointer_As g) (hkey env g) (de_slot e) t) ->
  (forall i j e e' g, l !! i = Some e -> l !! j = Some e' -> dkey e = Some g -> dkey e' = Some g -> i = j) ->
  (forall e g, e ∈ l -> dkey e = Some g -> ~ has_key dkey acc g) ->
  Z.of_nat (occupancy dkey acc + occupancy dkey l) < 2 ^ k ->
  exists t', foldl (ins_step ins) (Some acc) l = Some t' /\ probing_ok dkey (hkey env) 1 (2 ^ k) t' /\
    occupancy dkey t' = (occupancy dkey acc + occupancy dkey l)%nat /\
    (forall e g, dkey e = Some g -> e ∈ t' <-> e ∈ acc \/ e ∈ l).
Proof.
  intros Hk Hp Hga Hgl Hskip Hins Hdis Hfresh Hocc.
  apply (rehash_fold dkey (hkey env) 1 (2 ^ k) ltac:(auto) (pow_pos k Hk) ins good_entry); try done.
  intros t e g dist e0 Hpt Hgt Hge He Hno Hf. rewrite (Hins t e g He).
  pose proof (valid_key_As g (Hge g He)) as [Hu Hg]. pose proof (insert_spec k t (GeneralHeapPointer_As g) (de_slot e) dist e0) as Hi.
  rewrite Hg in Hi. rewrite Hi by done. do 3 f_equal.
  destruct e as [x o]. destruct (dkey_nonzero _ _ He) as [<- _]. done.
Qed.

(** The entries of an empty table. *)
Lemma zero_table k : 0 <= k -> probing_ok dkey (hkey env) 1 (2 ^ k) (replicate (Z.to_nat (2 ^ k)) zeroDictEntry).
Proof. intros Hk. by apply replicate_ok. Qed.

Lemma zero_good n : Forall good_entry (replicate n zeroDictEntry).
Proof. apply Forall_replicate. by intros g. Qed.

(** *** Resizing *)

Lemma dtable_distinct ks k t : dtable_ok ks k t -> forall i j e e' g, t !! i = Some e -> t !! j = Some e' ->
  dkey e = Some g -> dkey e' = Some g -> i = j.
Proof. intros [Hp _ _ _]. apply Hp. Qed.

Lemma dtable_good ks k t : dtable_ok ks k t -> Forall valid_key ks -> Forall good_entry t.
Proof.
  intros [_ He _ _] Hv. apply Forall_forall. intros e Hin g Hg. rewrite Forall_forall in Hv.
  eapply Hv, at_slot_elem, He; done.
Qed.

(** A table with the entries of [l], which are those of [ks]. *)
Lemma table_of_entries ks k (l t : list DictEntry) : 0 <= k -> probing_ok dkey (hkey env) 1 (2 ^ k) t ->
  (forall e g, dkey e = Some g -> e ∈ t <-> e ∈ l) -> occupancy dkey t = length ks ->
  (forall e g, e ∈ l -> dkey e = Some g -> at_slot ks (de_slot e) = Some g) ->
  (forall g, g ∈ ks -> exists e, e ∈ l /\ dkey e = Some g) -> dtable_ok ks k t.
Proof.
  intros Hk Hp Hel Hocc He Hks. split; [done| |intros g Hg|done].
  - intros e g Hin Hg. eapply He; [|done]. by eapply Hel.
  - destruct (Hks g Hg) as (e & Hin & Hek). exists e. split; [by eapply Hel|done].
Qed.

Lemma used_entries_occupancy t : used_entries t = Z.of_nat (occupancy dkey t).
Proof.
  unfold used_entries, occupancy. do 2 f_equal. apply List.filter_ext. intros e. unfold occupied, dkey.
  by destruct (de_key e =? 0).
Qed.

Lemma is_power_of_2_pow k : 0 <= k -> is_power_of_2 (2 ^ k) = true.
Proof.
  intros Hk. unfold is_power_of_2. pose proof (pow_pos k Hk). rewrite land_mask, Z_mod_same_full by done.
  by destruct (Z.ltb_spec 0 (2 ^ k)); [|lia].
Qed.

Lemma pow_bounds k : 7 <= k <= 29 -> 128 <= 2 ^ k <= 2 ^ 29.
Proof.
  intros Hk. split; [change 128 with (2 ^ 7)|]; apply Z.pow_le_mono_r; lia.
Qed.

Lemma pow_succ k : 0 <= k -> 2 ^ (k + 1) = 2 * 2 ^ k.
Proof. intros. rewrite Z.add_1_r. by rewrite Z.pow_succ_r. Qed.

(** The table grows to twice its size and has the same entries. *)
Lemma Dict_ResizeImpl_spec d ks k t : dict_shape d ks k t -> k <= 28 -> exists t',
  ResizeImpl env d = Ok (d_set_table d (2 ^ (k + 1) - 1) (Z.of_nat (length ks)) (Some t')) /\ dtable_ok ks (k + 1) t'.
Proof.
  intros Hsh Hk. pose proof Hsh as []. pose proof (pow_bounds k ltac:(lia)) as Hb. pose proof (pow_succ k ltac:(lia)) as Hs.
  unfold ResizeImpl. rewrite ds_mask0.
  replace (2 ^ k - 1 + 1) with (2 ^ k) by lia. rewrite !(wrapu_small 32 (2 ^ k)) by (unfold in_u; pow2; lia).
  rewrite is_power_of_2_pow by lia. cbn [negb].
  replace ((2 ^ k - 1) * 2 + 1) with (2 ^ (k + 1) - 1) by lia. rewrite (wrapu_small 32 (2 ^ (k + 1) - 1)) by (unfold in_u; pow2; lia).
  replace (2 ^ (k + 1) - 1 + 1) with (2 ^ (k + 1)) by lia. rewrite (wrapu_small 32 (2 ^ (k + 1))) by (unfold in_u; pow2; lia).
  destruct (Z.ltb_spec (2 ^ (k + 1) - 1) (2 ^ 32 - 1)) as [_|]; [|pow2; lia].
  rewrite ds_hashTable0. cbn [mbind option_bind]. pose proof (po_length _ _ _ _ _ (dt_probing _ _ _ ds_table0)) as Hl.
  unfold entries. rewrite Hl, Z2Nat.id by lia. destruct (Z.leb_spec (2 ^ k) (2 ^ k)); [|lia].
  cbn [mbind option_bind]. rewrite take_ge by lia.
  destruct (fold_insert_spec (resize_insert env (2 ^ (k + 1) - 1)) (k + 1) (replicate (Z.to_nat (2 ^ (k + 1))) zeroDictEntry) t)
    as (t' & Ht' & Hp' & Hocc & Hel).
  - lia.
  - apply zero_table. lia.
  - apply zero_good.
  - by eapply dtable_good.
  - intros t1 e He. unfold resize_insert, dkey in *. by destruct (de_key e =? 0).
  - intros t1 e g He. unfold resize_insert. destruct (dkey_nonzero e g He) as [-> Hnz].
    by destruct (Z.eqb_spec g 0).
  - by eapply dtable_distinct.
  - intros e g _ _. by apply replicate_no_key.
  - rewrite replicate_occupancy, (dt_count _ _ _ ds_table0) by done. lia.
  - change (fun acc e => t1 ← acc; resize_insert env (2 ^ (k + 1) - 1) t1 e) with (ins_step (resize_insert env (2 ^ (k + 1) - 1))).
    rewrite Ht'. cbn [mbind option_bind]. rewrite used_entries_occupancy, (dt_count _ _ _ ds_table0), ds_count0, Z.eqb_refl. exists t'. split; [done|].
    rewrite replicate_occupancy, (dt_count _ _ _ ds_table0) in Hocc by done.
    apply (table_of_entries ks (k + 1) t); [lia|done| |done|apply ds_table0|apply ds_table0].
    intros e g He. rewrite (Hel e g He). split; [|tauto]. intros [[-> _]%elem_of_replicate|?]; done.
Qed.

Lemma Dict_ResizeIfNeeded_spec d ks k t : dict_shape d ks k t -> Z.of_nat (length ks) < 2 ^ 28 - 1 -> exists k' t',
  ResizeIfNeeded env d = Ok (d_set_table d (2 ^ k' - 1) (Z.of_nat (length ks)) (Some t'),
                             bool_decide (2 ^ k - 1 <= 2 * Z.of_nat (length ks))) /\
  7 <= k' <= 29 /\ dtable_ok ks k' t' /\ 2 * Z.of_nat (length ks) <= 2 ^ k'.
Proof.
  intros Hsh Hcap. pose proof Hsh as []. pose proof (pow_bounds k ltac:(lia)) as Hb. pose proof (pow_succ k ltac:(lia)) as Hs.
  unfold ResizeIfNeeded. rewrite ds_count0, ds_mask0, (wrapu_small 32) by (unfold in_u; pow2; lia).
  destruct (Z.ltb_spec (Z.of_nat (length ks) * 2) (2 ^ k - 1)).
  - rewrite bool_decide_false by lia. exists k, t. split_and!; [|lia..|done|lia].
    rewrite <- ds_mask0, <- ds_count0, <- ds_hashTable0. by destruct d.
  - rewrite bool_decide_true by lia. destruct (Dict_ResizeImpl_spec d ks k t Hsh) as (t' & -> & Ht').
    + apply Z.lt_succ_r, (Z.pow_lt_mono_r_iff 2); [lia..|]. change (2 ^ Z.succ 28) with (2 ^ 29). pow2. lia.
    + exists (k + 1), t'. split_and!; [done|lia| |done|lia].
      apply Z.lt_succ_r, (Z.pow_lt_mono_r_iff 2); [lia..|]. change (2 ^ Z.succ 29) with (2 ^ 30). pow2. lia.
Qed.

(** *** Put *)

(** The keys after a put of [g]. *)
Definition keys_with (ks : list Z) (g : Z) : list Z := if bool_decide (g ∈ ks) then ks else ks ++ [g].

Lemma dtable_insert ks k t g dist e0 : 0 <= k -> dtable_ok ks k t -> valid_key g -> g ∉ ks ->
  first_empty dkey (hkey env) 1 (2 ^ k) t g dist e0 ->
  dtable_ok (ks ++ [g]) k (<[slot (hkey env) 1 (2 ^ k) g dist := mkDictEntry g (Z.of_nat (length ks))]> t).
Proof.
  intros Hk [Hp He Hks Hc] Hg Hnew Hf.
  pose proof (pow_pos k Hk) as Hpow. pose proof (dkey_mk g (Z.of_nat (length ks)) Hg) as Hmk.
  assert (~ has_key dkey t g) as Hno.
  { intros (e & Hin & Hek). by eapply Hnew, at_slot_elem, He. }
  split.
  - by eapply insert_ok; [auto|..].
  - intros e g' Hin Hek. apply (insert_elem dkey (hkey env) 1 (2 ^ k) t g dist e0 _ Hf e g' Hek) in Hin as [->|Hin].
    + rewrite Hmk in Hek. injection Hek as <-. cbn [de_slot]. rewrite at_slot_nat. by apply list_lookup_middle.
    + by apply at_slot_app_l, He.
  - intros g' Hin. apply (insert_has_key dkey (hkey env) 1 (2 ^ k) t g dist e0 _ Hf Hmk).
    apply elem_of_app in Hin as [Hin|Heq%list_elem_of_singleton]; [right; by apply Hks|by left].
  - destruct Hf as (_ & Hs & He0 & _).
    rewrite (occupancy_insert dkey t _ _ e0 Hs He0), length_app, Hc by (by rewrite Hmk). simpl. lia.
Qed.

Lemma shape_insert d ks k t g t' : dict_shape d ks k t -> dtable_ok (ks ++ [g]) k t' -> valid_key g -> g ∉ ks ->
  g <> special env -> Z.of_nat (length ks) + 1 < 2 ^ k ->
  dict_shape (d_set_table d (2 ^ k - 1) (Z.of_nat (length (ks ++ [g]))) (Some t')) (ks ++ [g]) k t'.
Proof.
  intros [] Ht Hg Hnew Hsp Hroom. split; try done.
  - apply NoDup_app. split_and!; [done| |by apply NoDup_singleton]. intros x Hx Heq%list_elem_of_singleton. by subst x.
  - apply Forall_app. split; [done|by constructor].
  - rewrite not_elem_of_app, list_elem_of_singleton. split; [done|congruence].
  - rewrite length_app. simpl. lia.
Qed.

Lemma d_set_table_twice d m c t m' c' t' : d_set_table (d_set_table d m c t) m' c' t' = d_set_table d m' c' t'.
Proof. done. Qed.

(** What [PreparePutPropertyImpl] does to a dictionary [d] with the keys [ks]. *)
Record put_post (d : CacheableDictionary) (ks : list Z) (g : Z) (res : PutByIdResult) (d' : CacheableDictionary) : Prop := {
  pp_slot : at_slot (keys_with ks g) (pr_slot res) = Some g;
  pp_fields : exists mask table, d' = d_set_table d mask (Z.of_nat (length (keys_with ks g))) (Some table);
  pp_grow : pr_shouldGrowButterfly res =
    bool_decide (g ∉ ks /\ Z.of_nat (length ks) = d_capacity d);
  pp_some : pr_shouldGrowButterfly res = bool_decide (is_Some (pr_newButterflyCapacity res));
  pp_capacity : forall c, pr_newButterflyCapacity res = Some c ->
    d_butterflyNamedStorageCapacity d < c <= x_maxNamedStorageCapacity;
  pp_ok : dict_ok (d_set_butterfly d' (default (d_butterflyNamedStorageCapacity d) (pr_newButterflyCapacity res)))
            (keys_with ks g)
}.

(** The next capacity is larger, within the limit, or the VM stops. *)
Lemma next_capacity d : 0 <= d_inlineNamedStorageCapacity d <= x_maxNumSlots ->
  0 <= d_butterflyNamedStorageCapacity d <= x_maxNamedStorageCapacity ->
  (exists c, GetInitOrNextButterflyCapacity d = Ok c /\ d_butterflyNamedStorageCapacity d < c <= x_maxNamedStorageCapacity) \/
  (GetInitOrNextButterflyCapacity d = VMFail /\ d_butterflyNamedStorageCapacity d = x_maxNamedStorageCapacity).
Proof.
  unfold GetInitOrNextButterflyCapacity, ComputeInitialButterflyCapacityForDictionary,
    ComputeNextButterflyCapacityForDictionaryOrFail, ComputeNextButterflyCapacityImpl,
    x_butterflyCapacityFromInlineCapacityFactor, x_initialMinimumButterflyCapacity,
    x_butterflyNamedStorageCapacityGrowthFactor, x_maxNumSlots, x_maxNamedStorageCapacity.
  intros Hi Hb. destruct (Z.eqb_spec (d_butterflyNamedStorageCapacity d) 0).
  - left. eexists. split; [done|].
    pose proof (Z.div_le_mono (d_inlineNamedStorageCapacity d) 253 2 ltac:(lia) ltac:(lia)). change (253 / 2) with 126 in *. lia.
  - rewrite wrapu_small by (unfold in_u; pow2; lia).
    destruct (Z.ltb_spec 250000000 (d_butterflyNamedStorageCapacity d * 2)).
    + destruct (Z.leb_spec 250000000 (d_butterflyNamedStorageCapacity d)); [right; split; [done|lia]|].
      left. eexists. split; [done|lia].
    + left. eexists. split; [done|lia].
Qed.

Lemma wp_load_dictionary p d h (Q : CacheableDictionary -> SysHeap -> Prop) F :
  dictionaries h !! p = Some d -> Q d h -> wp (load_dictionary p) h Q F.
Proof. intros Hs HQ. unfold load_dictionary. apply wp_bind, wp_get. by eapply wp_access. Qed.

Lemma wp_store_dictionary p d h (Q : unit -> SysHeap -> Prop) F :
  Q tt (with_dictionaries h (<[p := d]> (dictionaries h))) -> wp (store_dictionary p d) h Q F.
Proof. intros HQ. unfold store_dictionary. by apply wp_bind, wp_get, wp_put. Qed.

Lemma wp_lift {A} (r : Res A) a h (Q : A -> SysHeap -> Prop) F : r = Ok a -> Q a h -> wp (res_lift r) h Q F.
Proof. intros ->. done. Qed.

Lemma wp_lift_fail {A} (r : Res A) h (Q : A -> SysHeap -> Prop) (F : Prop) : r = VMFail -> F -> wp (res_lift r) h Q F.
Proof. intros ->. done. Qed.

(** The growth decision of a put of a new property. *)
Lemma wp_grow d ks k t h (Q : option Z -> SysHeap -> Prop) : dict_shape d ks k t -> Z.of_nat (length ks) <= d_capacity d ->
  (forall grow, bool_decide (is_Some grow) = bool_decide (Z.of_nat (length ks) = d_capacity d) ->
     (forall c, grow = Some c -> d_butterflyNamedStorageCapacity d < c <= x_maxNamedStorageCapacity) ->
     Z.of_nat (length ks) < d_inlineNamedStorageCapacity d + default (d_butterflyNamedStorageCapacity d) grow -> Q grow h) ->
  wp (if d_slotCount d =? u32 (d_inlineNamedStorageCapacity d + d_butterflyNamedStorageCapacity d)
      then c ← res_lift (GetInitOrNextButterflyCapacity d); mret (Some c) else mret None) h Q
    (Z.of_nat (length ks) = d_capacity d /\ d_butterflyNamedStorageCapacity d = x_maxNamedStorageCapacity).
Proof.
  intros [] Hcap HQ. unfold d_capacity in *. rewrite ds_count0.
  rewrite wrapu_small by (unfold in_u, x_maxNumSlots, x_maxNamedStorageCapacity in *; pow2; lia).
  destruct (Z.eqb_spec (Z.of_nat (length ks)) (d_inlineNamedStorageCapacity d + d_butterflyNamedStorageCapacity d)) as [Heq|Hne].
  - apply wp_bind. destruct (next_capacity d) as [(c & Hc & Hlt)|[Hc Hmax]]; [done..| |].
    + eapply wp_lift; [done|]. apply wp_ret, HQ; [by rewrite !bool_decide_true|by intros ? [= <-]|simpl; lia].
    + by eapply wp_lift_fail.
  - apply wp_ret, HQ; [rewrite !bool_decide_false; [done|lia|by intros [? ?]]|done|simpl; lia].
Qed.

Lemma resize_after_put d ks k t g t1 grow : dict_shape d ks k t ->
  dict_shape (d_set_table d (2 ^ k - 1) (Z.of_nat (length (ks ++ [g]))) (Some t1)) (ks ++ [g]) k t1 ->
  (forall c, grow = Some c -> d_butterflyNamedStorageCapacity d < c <= x_maxNamedStorageCapacity) ->
  Z.of_nat (length ks) < d_inlineNamedStorageCapacity d + default (d_butterflyNamedStorageCapacity d) grow ->
  exists k' t' resized,
    ResizeIfNeeded env (d_set_table d (2 ^ k - 1) (Z.of_nat (length (ks ++ [g]))) (Some t1)) =
      Ok (d_set_table d (2 ^ k' - 1) (Z.of_nat (length (ks ++ [g]))) (Some t'), resized) /\
    dict_ok (d_set_butterfly (d_set_table d (2 ^ k' - 1) (Z.of_nat (length (ks ++ [g]))) (Some t'))
               (default (d_butterflyNamedStorageCapacity d) grow)) (ks ++ [g]).
Proof.
  intros Hsh Hsh1 Hgrow Hroom. pose proof Hsh as []. pose proof Hsh1 as [].
  assert (0 <= default (d_butterflyNamedStorageCapacity d) grow <= x_maxNamedStorageCapacity) as Hb.
  { destruct grow as [c|]; simpl; [specialize (Hgrow c eq_refl)|]; lia. }
  assert (length (ks ++ [g]) = S (length ks)) as Hlen by (rewrite length_app; simpl; lia).
  destruct (Dict_ResizeIfNeeded_spec _ _ _ _ Hsh1) as (k' & t' & Hr & Hk' & Ht' & Hload).
  { unfold x_maxNumSlots, x_maxNamedStorageCapacity in *. pow2. lia. }
  exists k', t'. eexists. split; [exact Hr|]. pose proof (pow_bounds k' Hk').
  split; [|unfold d_capacity; cbn [d_inlineNamedStorageCapacity d_butterflyNamedStorageCapacity d_set_butterfly d_set_table]; lia].
  exists k', t'. split; [|done].
  split; try done; cbn [d_slotCount d_set_butterfly d_set_table]; lia.
Qed.

Lemma PreparePutPropertyImpl_spec h p d ks key hash (Q : PutByIdResult -> SysHeap -> Prop) :
  dictionaries h !! p = Some d -> dict_ok d ks -> user_key key -> hash = hkey env (GeneralHeapPointer key) ->
  GeneralHeapPointer key <> special env ->
  (forall res d', put_post d ks (GeneralHeapPointer key) res d' ->
     Q res (with_dictionaries h (<[p := d']> (dictionaries h)))) ->
  wp (PreparePutPropertyImpl env p key hash) h Q
    (Z.of_nat (length ks) = d_capacity d /\ d_butterflyNamedStorageCapacity d = x_maxNamedStorageCapacity).
Proof.
  intros Hd Hok Hkey -> Hsp HQ. pose proof Hok as [(k & t & Hsh & Hload) Hcap]. pose proof Hsh as [].
  pose proof (pow_bounds k ltac:(lia)) as Hb. remember (GeneralHeapPointer key) as g eqn:Eg.
  assert (valid_key g) as Hg by (rewrite Eg; by apply user_key_spec).
  unfold PreparePutPropertyImpl. apply wp_bind. eapply wp_load_dictionary; [done|].
  destruct (lookup_spec d ks k t Hsh key _ Hkey eq_refl) as [(sl & Hl & Hat)|(Hnew & dist & e0 & Hf & Hl)]; rewrite <- Eg in *.
  - apply wp_bind. eapply wp_access; [done|]. cbn iota. apply wp_ret.
    assert (keys_with ks g = ks) as Hkw by (unfold keys_with; rewrite bool_decide_true; [done|by eapply at_slot_elem]).
    assert (h = with_dictionaries h (<[p := d]> (dictionaries h))) as -> by (rewrite insert_id by done; by destruct h).
    apply HQ. split; cbn [pr_slot pr_newButterflyCapacity pr_shouldGrowButterfly default]; rewrite ?Hkw; [done| |..|].
    + exists (d_hashTableMask d), t. rewrite <- ds_count0, <- ds_hashTable0. by destruct d.
    + rewrite bool_decide_false; [done|]. intros [Hx _]. by eapply Hx, at_slot_elem.
    + symmetry. apply bool_decide_eq_false_2. by intros [? ?].
    + done.
    + by destruct d.
  - assert (keys_with ks g = ks ++ [g]) as Hkw by (unfold keys_with; by rewrite bool_decide_false).
    apply wp_bind. eapply wp_access; [done|]. cbn iota. apply wp_bind.
    eapply wp_grow; [done..|]. intros grow Hgrow Hnext Hroom.
    apply wp_bind. eapply wp_access; [done|]. apply wp_bind.
    eapply wp_access; [apply set_slot_pos; [lia|apply ds_table0]|]. rewrite ds_count0.
    pose proof (dtable_insert ks k t g dist e0 ltac:(lia) ds_table0 Hg Hnew Hf) as Ht1. set (t1 := <[_ := _]> t) in *.
    rewrite (wrapu_small 32) by (unfold in_u; pow2; lia).
    replace (Z.of_nat (length ks) + 1) with (Z.of_nat (length (ks ++ [g]))) by (rewrite length_app; simpl; lia).
    rewrite ds_mask0. pose proof (shape_insert d ks k t g t1 Hsh Ht1 Hg Hnew Hsp ltac:(lia)) as Hsh1.
    destruct (resize_after_put d ks k t g t1 grow Hsh Hsh1 Hnext Hroom) as (k' & t' & resized & Hr & Hok').
    apply wp_bind. eapply wp_lift; [done|]. apply wp_bind, wp_store_dictionary, wp_ret. apply HQ.
    split; cbn [pr_slot pr_newButterflyCapacity pr_shouldGrowButterfly]; rewrite ?Hkw.
    + rewrite at_slot_nat. by apply list_lookup_middle.
    + by eexists _, _.
    + rewrite Hgrow. apply bool_decide_ext. tauto.
    + done.
    + done.
    + done.
Qed.

(** *** Creation *)

Definition emptyDictionary (never : bool) (inline k : Z) : CacheableDictionary :=
  mkDictionary never inline 0 (2 ^ k - 1) 0 (Some (replicate (Z.to_nat (2 ^ k)) zeroDictEntry)) 0.

(** [h] after an allocation of a dictionary [d] at the end of the heap. *)
Definition dictionary_heap (h : SysHeap) (limit : Z) (d : CacheableDictionary) : SysHeap :=
  with_dictionaries (alloc_heap h limit sizeof_CacheableDictionary)
    (<[m_systemHeapCurPtr h := d]> (dictionaries h)).

Lemma dictionary_heap_store h limit d d' : with_dictionaries (dictionary_heap h limit d)
  (<[m_systemHeapCurPtr h := d']> (dictionaries (dictionary_heap h limit d))) = dictionary_heap h limit d'.
Proof. unfold dictionary_heap, with_dictionaries. simpl. by rewrite insert_insert_eq. Qed.

Lemma dictionary_heap_lookup h limit d : dictionaries (dictionary_heap h limit d) !! m_systemHeapCurPtr h = Some d.
Proof. apply lookup_insert_eq. Qed.

Lemma CreateEmptyDictionary_spec n inline never h (Q : Z -> SysHeap -> Prop) : sys_ok h -> 0 < n <= 2 ^ 28 ->
  (forall limit k, 7 <= k <= 29 -> 2 * n <= 2 ^ k -> sys_ok (alloc_heap h limit sizeof_CacheableDictionary) ->
     Q (m_systemHeapCurPtr h) (dictionary_heap h limit (emptyDictionary never inline k))) ->
  wp (CreateEmptyDictionary n inline never) h Q (low h sizeof_CacheableDictionary).
Proof.
  intros Hsys Hn HQ. unfold CreateEmptyDictionary. apply wp_bind.
  apply AllocFromSystemHeap_spec; [done|unfold sizeof_CacheableDictionary; pow2; lia|done|]. intros limit Hs.
  apply wp_bind, wp_store_dictionary, wp_ret.
  destruct (RoundUpToPowerOfTwo_pow n ltac:(pow2; lia)) as (j & Hj & -> & Hnj).
  assert (j < 29) as Hj29 by (apply (Z.pow_lt_mono_r_iff 2); pow2; lia).
  pose proof (pow_succ j ltac:(lia)) as Hp. replace (2 ^ j * 2) with (2 ^ (j + 1)) by lia.
  pose proof (Z.pow_le_mono_r 2 (j + 1) 29 ltac:(lia) ltac:(lia)).
  rewrite (wrapu_small 32 (2 ^ (j + 1))) by (unfold in_u; pow2; lia).
  rewrite (wrapu_small 32 (2 ^ (j + 1) - 1)) by (unfold in_u; pow2; lia).
  assert (Z.max (2 ^ (j + 1) - 1) 127 = 2 ^ Z.max (j + 1) 7 - 1) as ->.
  { destruct (Z.max_spec (j + 1) 7) as [[Hlt ->]|[Hge ->]]; change 127 with (2 ^ 7 - 1).
    - pose proof (Z.pow_le_mono_r 2 (j + 1) 7 ltac:(lia) ltac:(lia)). lia.
    - pose proof (Z.pow_le_mono_r 2 7 (j + 1) ltac:(lia) ltac:(lia)). lia. }
  set (k := Z.max (j + 1) 7). pose proof (pow_bounds k ltac:(lia)). replace (2 ^ k - 1 + 1) with (2 ^ k) by lia.
  rewrite (wrapu_small 32 (2 ^ k)) by (unfold in_u; pow2; lia).
  apply HQ; [lia| |done]. pose proof (Z.pow_le_mono_r 2 (j + 1) k ltac:(lia) ltac:(lia)). lia.
Qed.

(** *** From a structure *)

(** The entry the loop makes for a key and its slot. *)
Definition entry_of (kv : Z * Z) : DictEntry := if kv.1 =? special env then zeroDictEntry else mkDictEntry kv.1 kv.2.

Lemma dkey_entry_of g o : valid_key g -> dkey (entry_of (g, o)) = if g =? special env then None else Some g.
Proof. intros Hg. unfold entry_of. simpl. destruct (g =? special env); [done|by apply dkey_mk]. Qed.

Lemma foldl_None {X} (f : list DictEntry -> X -> option (list DictEntry)) l :
  foldl (fun acc x => t ← acc; f t x) None l = None.
Proof. by induction l. Qed.

Lemma insert_properties_fold h mask slot fuel it kvs t : iterate h fuel it = Some kvs ->
  insert_properties env h mask slot fuel it t =
  foldl (fun acc kv => t ← acc; insert_property env mask slot (GeneralHeapPointer_As kv.1) kv.2 t) (Some t) kvs.
Proof.
  revert it kvs t. induction fuel as [|fuel IH]; intros it kvs t; simpl; destruct (HasMore it); try done.
  - by intros [= <-].
  - destruct (GetCurrentKey h it) as [g|]; [|done]. cbn [mbind option_bind].
    destruct (Advance h it) as [it'|]; [|done]. cbn [mbind option_bind].
    destruct (iterate h fuel it') as [rest|] eqn:Hrest; [|done]. cbn [mbind option_bind]. intros [= <-]. simpl.
    destruct (insert_property _ _ _ _ _ t) as [t'|]; cbn [mbind option_bind]; [by apply IH|].
    symmetry. apply foldl_None.
  - by intros [= <-].
Qed.

(** The loop of [CreateFromStructure] and the insertion after it put the entries of
    a list into the table. *)
Lemma insert_property_entry mask slot g o t : special_is_user -> valid_key g -> (g <> special env -> o <> slot) ->
  insert_property env mask slot (GeneralHeapPointer_As g) o t = resize_insert env mask t (entry_of (g, o)).
Proof.
  intros Hsp Hg Ho. unfold insert_property, resize_insert, entry_of. simpl.
  pose proof (valid_key_As g Hg) as [_ Hgg].
  destruct (Z.eqb_spec g (special env)) as [->|Hne].
  - unfold special. rewrite (proj2 (user_key_spec _ Hsp)), Z.eqb_refl. done.
  - destruct (Z.eqb_spec (GeneralHeapPointer_As g) (GetSpecialKeyForMetadataSlot env)) as [Heq|_].
    + destruct Hne. unfold special. by rewrite <- Heq, Hgg.
    + destruct (Z.eqb_spec o slot); [by destruct (Ho Hne)|]. simpl.
      destruct (Z.eqb_spec g 0); [|done]. unfold valid_key in Hg. pow2. lia.
Qed.

Lemma fold_entries mask slot kvs t : special_is_user ->
  Forall (fun kv => valid_key kv.1 /\ (kv.1 <> special env -> kv.2 <> slot)) kvs ->
  foldl (fun acc kv => t ← acc; insert_property env mask slot (GeneralHeapPointer_As kv.1) kv.2 t) (Some t) kvs =
  foldl (ins_step (resize_insert env mask)) (Some t) (entry_of <$> kvs).
Proof.
  intros Hsp Hall. revert t. induction Hall as [|[g o] kvs [Hg Ho] Hall IH]; intros t; [done|]. simpl.
  rewrite insert_property_entry by done.
  destruct (resize_insert env mask t (entry_of (g, o))) as [t'|]; [apply IH|].
  etrans; [apply foldl_None|symmetry; apply foldl_None].
Qed.

(** The keys after a new property [g] took the slot [o]: the next one, or that of
    the special key. *)
Definition slot_free (ks : list Z) (o : Z) : Prop :=
  (o = Z.of_nat (length ks) /\ special env ∉ ks) \/ at_slot ks o = Some (special env).
Definition keys_at (ks : list Z) (o g : Z) : list Z :=
  if o =? Z.of_nat (length ks) then ks ++ [g] else <[Z.to_nat o := g]> ks.

Lemma occupancy_app l l' : occupancy dkey (l ++ l') = (occupancy dkey l + occupancy dkey l')%nat.
Proof. unfold occupancy. by rewrite List.filter_app, List.length_app. Qed.

Lemma occupancy_full l : (forall i e, l !! i = Some e -> dkey e <> None) -> occupancy dkey l = length l.
Proof.
  unfold occupancy. induction l as [|e l IH]; intros H; [done|]. simpl.
  pose proof (H O e eq_refl). unfold occupied at 1. destruct (dkey e); [|done].
  simpl. f_equal. apply IH. intros i. apply (H (S i)).
Qed.

Section created.
Variables (ks : list Z) (o g : Z).
Hypothesis ks_nodup : NoDup ks.
Hypothesis ks_valid : Forall valid_key ks.
Hypothesis g_valid : valid_key g.
Hypothesis g_new : g ∉ ks.
Hypothesis o_free : slot_free ks o.

Definition old_entries : list DictEntry := entry_of <$> zip ks (Z.of_nat <$> seq 0 (length ks)).

Lemma old_entries_lookup j : old_entries !! j = (fun x => entry_of (x, Z.of_nat j)) <$> ks !! j.
Proof.
  unfold old_entries. rewrite list_lookup_fmap. destruct (ks !! j) as [x|] eqn:Ex.
  - assert (zip ks (Z.of_nat <$> seq 0 (length ks)) !! j = Some (x, Z.of_nat j)) as ->; [|done].
    apply lookup_zip_Some. split; [done|]. rewrite list_lookup_fmap, lookup_seq_lt by (by eapply lookup_lt_Some). done.
  - destruct (zip _ _ !! j) as [[y z]|] eqn:Ez; [|done]. apply lookup_zip_Some in Ez as [Ey _]. simpl in Ey. congruence.
Qed.

Lemma old_entry j e x : old_entries !! j = Some e -> dkey e = Some x ->
  ks !! j = Some x /\ x <> special env /\ de_slot e = Z.of_nat j.
Proof.
  rewrite old_entries_lookup. intros (y & Hy & ->)%fmap_Some. rewrite Forall_forall in ks_valid.
  rewrite dkey_entry_of by (by eapply ks_valid, list_elem_of_lookup_2). unfold entry_of. simpl.
  destruct (Z.eqb_spec y (special env)); [done|]. by intros [= ->].
Qed.

Lemma new_entry j e x : (old_entries ++ [mkDictEntry g o]) !! j = Some e -> dkey e = Some x ->
  (ks !! j = Some x /\ x <> special env /\ de_slot e = Z.of_nat j) \/ (j = length ks /\ x = g /\ de_slot e = o).
Proof.
  intros Hj Hx. apply lookup_app_Some in Hj as [Hj|[Hge Hj]]; [left; by apply old_entry|right].
  assert (length old_entries = length ks) as Hl.
  { unfold old_entries. rewrite length_fmap, length_zip_with, length_fmap, length_seq. lia. }
  apply list_lookup_singleton_Some in Hj as [Hz <-]. rewrite dkey_mk in Hx by done. injection Hx as <-.
  split_and!; [lia|done..].
Qed.

Lemma old_good : Forall good_entry old_entries.
Proof.
  apply Forall_forall. intros e (j & Hj)%list_elem_of_lookup_1 x Hx. destruct (old_entry j e x Hj Hx) as (Hk & _).
  rewrite Forall_forall in ks_valid. by eapply ks_valid, list_elem_of_lookup_2.
Qed.

Lemma special_slot j : ks !! j = Some (special env) -> o = Z.of_nat j.
Proof.
  intros Hj. destruct o_free as [[_ Hn]|Ho]; [by destruct Hn; eapply list_elem_of_lookup_2|].
  destruct (at_slot_Some _ _ _ Ho) as [? ?]. eapply (NoDup_at_slot ks); [done|done|by rewrite at_slot_nat].
Qed.

Lemma keys_at_new : at_slot (keys_at ks o g) o = Some g.
Proof.
  unfold keys_at. destruct (Z.eqb_spec o (Z.of_nat (length ks))) as [->|Hne].
  - rewrite at_slot_nat. by apply list_lookup_middle.
  - destruct o_free as [[? _]|Ho]; [done|]. unfold at_slot in *. destruct (0 <=? o); [|done].
    apply list_lookup_insert_eq. by eapply lookup_lt_Some.
Qed.

Lemma keys_at_old j x : ks !! j = Some x -> x <> special env -> at_slot (keys_at ks o g) (Z.of_nat j) = Some x.
Proof.
  intros Hj Hx. rewrite at_slot_nat. unfold keys_at. destruct (Z.eqb_spec o (Z.of_nat (length ks))).
  - by apply lookup_app_l_Some.
  - rewrite list_lookup_insert_ne; [done|]. intros Heq. destruct o_free as [[? _]|Ho]; [done|].
    unfold at_slot in Ho. destruct (0 <=? o); [|done]. congruence.
Qed.

Lemma keys_at_elem x : x ∈ keys_at ks o g -> x = g \/ (x ∈ ks /\ x <> special env).
Proof.
  unfold keys_at. destruct (Z.eqb_spec o (Z.of_nat (length ks))) as [Heq|Hne].
  - rewrite elem_of_app, list_elem_of_singleton. intros [Hx|Hx]; [right|by left]. split; [done|]. intros ->.
    destruct o_free as [[_ ?]|Ho]; [done|]. apply at_slot_Some in Ho as [? Ho%lookup_lt_Some]. lia.
  - intros (j & Hj)%list_elem_of_lookup_1. destruct o_free as [[? _]|Ho]; [done|].
    destruct (decide (Z.to_nat o = j)) as [<-|Hneq].
    + left. rewrite list_lookup_insert_eq in Hj; [congruence|]. apply at_slot_Some in Ho as [_ Ho]. by eapply lookup_lt_Some.
    + rewrite list_lookup_insert_ne in Hj by done. right. split; [by eapply list_elem_of_lookup_2|]. intros ->.
      apply special_slot in Hj. lia.
Qed.

Lemma keys_at_nodup : NoDup (keys_at ks o g).
Proof.
  unfold keys_at. destruct (o =? Z.of_nat (length ks)).
  - apply NoDup_app. split_and!; [done| |by apply NoDup_singleton]. intros x Hx Heq%list_elem_of_singleton. by subst x.
  - apply NoDup_alt. intros a b x Ha Hb.
    assert (forall c, <[Z.to_nat o := g]> ks !! c = Some x -> (c = Z.to_nat o /\ x = g) \/ ks !! c = Some x) as Hc.
    { intros c. destruct (decide (Z.to_nat o = c)) as [<-|]; [|rewrite list_lookup_insert_ne by done; auto].
      intros Hx. left. split; [done|]. rewrite list_lookup_insert_eq in Hx; [congruence|].
      apply lookup_lt_Some in Hx. by rewrite length_insert in Hx. }
    destruct (Hc a Ha) as [[-> ->]|Ha'], (Hc b Hb) as [[-> Hx]|Hb']; [done| | |].
    + destruct g_new. by eapply list_elem_of_lookup_2.
    + destruct g_new. rewrite <- Hx. by eapply list_elem_of_lookup_2.
    + by eapply (NoDup_lookup ks).
Qed.

Lemma entries_count : occupancy dkey (old_entries ++ [mkDictEntry g o]) = length (keys_at ks o g).
Proof.
  rewrite occupancy_app. assert (occupancy dkey [mkDictEntry g o] = 1%nat) as ->.
  { unfold occupancy. simpl. unfold occupied. by rewrite dkey_mk. }
  assert (length old_entries = length ks) as Hl.
  { unfold old_entries. rewrite length_fmap, length_zip_with, length_fmap, length_seq. lia. }
  rewrite Forall_forall in ks_valid.
  assert (forall j e, old_entries !! j = Some e -> dkey e = None -> o = Z.of_nat j) as Hnone.
  { intros j e. rewrite old_entries_lookup. intros (y & Hy & ->)%fmap_Some.
    rewrite dkey_entry_of by (by eapply ks_valid, list_elem_of_lookup_2).
    destruct (Z.eqb_spec y (special env)) as [->|]; [|done]. intros _. by apply special_slot. }
  unfold keys_at. destruct (Z.eqb_spec o (Z.of_nat (length ks))) as [Heq|Hne].
  - rewrite length_app, occupancy_full; [simpl; lia|]. intros j e Hj Hn. pose proof (Hnone j e Hj Hn).
    apply lookup_lt_Some in Hj. lia.
  - destruct o_free as [[? _]|Ho]; [done|]. apply at_slot_Some in Ho as [Ho0 Ho].
    assert (old_entries !! Z.to_nat o = Some zeroDictEntry) as Hz.
    { rewrite old_entries_lookup, Ho. simpl. unfold entry_of. simpl. by rewrite Z.eqb_refl. }
    rewrite length_insert, Nat.add_1_r, <- (occupancy_insert dkey old_entries _ (mkDictEntry g o) zeroDictEntry Hz);
      [|done|by rewrite dkey_mk].
    rewrite occupancy_full, length_insert; [done|]. intros j e Hj.
    destruct (decide (Z.to_nat o = j)) as [<-|Hneq].
    + rewrite list_lookup_insert_eq in Hj by (by eapply lookup_lt_Some). injection Hj as <-. by rewrite dkey_mk.
    + rewrite list_lookup_insert_ne in Hj by done. intros Hn. pose proof (Hnone j e Hj Hn). lia.
Qed.

(** The table made from the entries. *)
Lemma created_table k : 0 <= k -> Z.of_nat (length (keys_at ks o g)) < 2 ^ k -> exists t,
  foldl (ins_step (resize_insert env (2 ^ k - 1))) (Some (replicate (Z.to_nat (2 ^ k)) zeroDictEntry))
    (old_entries ++ [mkDictEntry g o]) = Some t /\ dtable_ok (keys_at ks o g) k t.
Proof.
  intros Hk Hlen.
  destruct (fold_insert_spec (resize_insert env (2 ^ k - 1)) k (replicate (Z.to_nat (2 ^ k)) zeroDictEntry)
    (old_entries ++ [mkDictEntry g o])) as (t & Ht & Hp & Hocc & Hel).
  - done.
  - by apply zero_table.
  - apply zero_good.
  - apply Forall_app. split; [apply old_good|]. constructor; [|constructor].
    intros x. rewrite dkey_mk by done. by intros [= <-].
  - intros t1 e He. unfold resize_insert, dkey in *. by destruct (de_key e =? 0).
  - intros t1 e x He. unfold resize_insert. destruct (dkey_nonzero e x He) as [-> Hnz].
    by destruct (Z.eqb_spec x 0).
  - intros a b e e' x Ha Hb He He'.
    destruct (new_entry a e x Ha He) as [(Hka & _)|(Hna & Hxa & _)], (new_entry b e' x Hb He') as [(Hkb & _)|(Hnb & Hxb & _)]; [| | |congruence].
    + by eapply (NoDup_lookup ks).
    + destruct g_new. rewrite <- Hxb. by eapply list_elem_of_lookup_2.
    + destruct g_new. rewrite <- Hxa. by eapply list_elem_of_lookup_2.
  - intros e x _ _. by apply replicate_no_key.
  - rewrite replicate_occupancy, entries_count by done. lia.
  - exists t. split; [done|]. rewrite replicate_occupancy, entries_count in Hocc by done.
    apply (table_of_entries _ k (old_entries ++ [mkDictEntry g o])); [done|done| |done|..].
    + intros e x He. rewrite (Hel e x He). split; [|tauto]. intros [[-> _]%elem_of_replicate|?]; done.
    + intros e x (j & Hj)%list_elem_of_lookup_1 He.
      destruct (new_entry j e x Hj He) as [(Hkj & Hx & ->)|(_ & -> & ->)]; [by apply keys_at_old|apply keys_at_new].
    + intros x [->|[(j & Hj)%list_elem_of_lookup_1 Hx]]%keys_at_elem.
      * exists (mkDictEntry g o). split; [apply elem_of_app; right; by apply list_elem_of_singleton|by apply dkey_mk].
      * exists (entry_of (x, Z.of_nat j)). rewrite Forall_forall in ks_valid.
        rewrite dkey_entry_of by (by eapply ks_valid, list_elem_of_lookup_2).
        destruct (Z.eqb_spec x (special env)); [done|]. split; [|done]. apply elem_of_app. left.
        apply (list_elem_of_lookup_2 _ j). by rewrite old_entries_lookup, Hj.
Qed.
End created.

(** The slot a new property gets when a structure [i] becomes a dictionary, and the
    metatable, [poly] being the value in the poly-metatable slot. *)
Definition transition_slot (i : Info) : Z := if 0 <? i_metatable i then i_metatable i - 1 else i_count i.
Definition transition_metatable (i : Info) (poly : option Z) : option Z :=
  if 0 <? i_metatable i then poly else Some (GeneralHeapPointer_As (i_metatable i)).

Record create_post (i : Info) (g : Z) (poly : option Z) (h : SysHeap) (res : CreateFromStructureResult)
    (d : CacheableDictionary) : Prop := {
  dp_dictionary : cr_dictionary res = m_systemHeapCurPtr h;
  dp_slot : cr_slot res = transition_slot i;
  dp_new : at_slot (keys_at (i_keys i) (transition_slot i) g) (transition_slot i) = Some g;
  dp_ok : dict_ok d (keys_at (i_keys i) (transition_slot i) g);
  dp_inline : d_inlineNamedStorageCapacity d = i_inline i;
  dp_metatable : transition_metatable i poly = Some (d_metatable d);
  dp_transit : d_shouldNeverTransitToUncacheableDictionary d = false;
  dp_grow : cr_shouldGrowButterfly res = bool_decide (i_butterfly i < d_butterflyNamedStorageCapacity d);
  dp_keep : i_butterfly i <= d_butterflyNamedStorageCapacity d
}.

Section create.
Variables (h : SysHeap) (K : Classes) (p : Z) (s : Structure) (i : Info).
Hypothesis inv : heap_inv env h K.
Hypothesis Hs : structures h !! p = Some s.
Hypothesis Hi : K !! p = Some i.

Lemma create_class : class_ok env (anchors h) K s i.
Proof. by eapply hi_class. Qed.

Lemma transition_slot_free : slot_free (i_keys i) (transition_slot i).
Proof.
  unfold slot_free, transition_slot. destruct (cl_poly _ _ _ _ _ create_class) as [(Hm & Hn & _)|[Hm Hat]].
  - destruct (Z.ltb_spec 0 (i_metatable i)); [lia|]. by left.
  - destruct (Z.ltb_spec 0 (i_metatable i)); [by right|lia].
Qed.

Lemma keys_at_length g : length (keys_at (i_keys i) (transition_slot i) g) =
  if 0 <? i_metatable i then length (i_keys i) else S (length (i_keys i)).
Proof.
  unfold keys_at, transition_slot. destruct (cl_poly _ _ _ _ _ create_class) as [(Hm & _)|[Hm Hat]].
  - destruct (Z.ltb_spec 0 (i_metatable i)); [lia|]. unfold i_count. rewrite Z.eqb_refl, length_app. simpl. lia.
  - destruct (Z.ltb_spec 0 (i_metatable i)); [|lia].
    apply at_slot_Some in Hat as [? Hat%lookup_lt_Some].
    destruct (Z.eqb_spec (i_metatable i - 1) (Z.of_nat (length (i_keys i)))); [lia|]. by rewrite length_insert.
Qed.

(** The dictionary before the table is filled: its capacity has room for the keys. *)
Definition created_capacity (c : Z) : Prop :=
  Z.of_nat (length (keys_at (i_keys i) (transition_slot i) 0)) <= i_inline i + c /\
  i_butterfly i <= c <= x_maxNamedStorageCapacity.

Lemma class_butterfly : 0 <= i_butterfly i <= 254 /\ i_count i <= i_inline i + i_butterfly i.
Proof.
  pose proof create_class as []. destruct cl_capacity as [[Hz Hn]|(Hp & Hn & Hm)]; unfold x_maxNumSlots in *; lia.
Qed.

Lemma wp_created_capacity (r : CacheableDictionary) h1 (Q : Z * bool * CacheableDictionary -> SysHeap -> Prop) F :
  d_inlineNamedStorageCapacity r = i_inline i -> d_butterflyNamedStorageCapacity r = i_butterfly i ->
  (forall c, created_capacity c -> Q (transition_slot i, bool_decide (i_butterfly i < c), d_set_butterfly r c) h1) ->
  wp (if IsPolyMetatable s then mret (GetPolyMetatableSlot s, false, r)
      else if s_inlineNamedStorageCapacity s + s_butterflyNamedStorageCapacity s =? s_numSlots s
      then c ← res_lift (GetInitOrNextButterflyCapacity r); mret (s_numSlots s, true, d_set_butterfly r c)
      else mret (s_numSlots s, false, r)) h1 Q F.
Proof.
  intros Hri Hrb HQ. pose proof create_class as Hc. pose proof Hc as [].
  destruct class_butterfly as [Hb Hroom]. pose proof (keys_at_length 0) as Hlen.
  unfold created_capacity in HQ. rewrite Hlen in HQ.
  assert (r = d_set_butterfly r (i_butterfly i)) as Hr by (rewrite <- Hrb; by destruct r).
  unfold IsPolyMetatable, GetPolyMetatableSlot. rewrite cl_metatable, cl_numSlots, cl_inline, cl_butterfly.
  unfold i_count, transition_slot, x_maxNumSlots in *.
  destruct (Z.ltb_spec 0 (i_metatable i)) as [Hm|Hm].
  - assert (i_metatable i - 1 < 254) as Hlt.
    { destruct cl_poly as [[? _]|[_ Hat]]; [lia|]. apply at_slot_Some in Hat as [? Hat%lookup_lt_Some]. lia. }
    rewrite wrapu_small by (unfold in_u; pow2; lia). rewrite Hr at 1. apply wp_ret.
    rewrite <- (bool_decide_false (i_butterfly i < i_butterfly i)) by lia. apply HQ. unfold x_maxNamedStorageCapacity. lia.
  - destruct (Z.eqb_spec (i_inline i + i_butterfly i) (Z.of_nat (length (i_keys i)))) as [Heq|Hne].
    + apply wp_bind. destruct (next_capacity r) as [(c & Hc2 & Hlt)|[_ Hmax]]; rewrite ?Hri, ?Hrb in *;
        [unfold x_maxNumSlots in *; lia|unfold x_maxNamedStorageCapacity; lia| |unfold x_maxNamedStorageCapacity in *; lia].
      eapply wp_lift; [done|]. apply wp_ret. rewrite <- (bool_decide_true (i_butterfly i < c)) by lia. apply HQ. lia.
    + rewrite Hr at 1. apply wp_ret. rewrite <- (bool_decide_false (i_butterfly i < i_butterfly i)) by lia.
      apply HQ. unfold x_maxNamedStorageCapacity. lia.
Qed.

Lemma needed_slots g : (if IsPolyMetatable s then u32 (u32 (s_numSlots s + 1) - 1) else u32 (s_numSlots s + 1)) =
    Z.of_nat (length (keys_at (i_keys i) (transition_slot i) g)) /\
  0 < Z.of_nat (length (keys_at (i_keys i) (transition_slot i) g)) <= 2 ^ 28.
Proof.
  pose proof create_class as []. rewrite keys_at_length. unfold IsPolyMetatable. rewrite cl_metatable, cl_numSlots.
  unfold i_count. pow2.
  rewrite (wrapu_small 32 (Z.of_nat (length (i_keys i)) + 1)) by (unfold in_u; pow2; lia).
  rewrite (wrapu_small 32 (Z.of_nat (length (i_keys i)) + 1 - 1)) by (unfold in_u; pow2; lia).
  destruct (Z.ltb_spec 0 (i_metatable i)); [|lia]. split; [lia|]. destruct cl_poly as [[? _]|[_ Hat]]; [lia|].
  apply at_slot_Some in Hat as [? Hat%lookup_lt_Some]. lia.
Qed.

Lemma wp_metatable poly m h1 (Q : Z -> SysHeap -> Prop) F :
  transition_metatable i (poly (transition_slot i) (i_inline i)) = Some m -> Q m h1 ->
  wp (if IsPolyMetatable s then access (poly (GetPolyMetatableSlot s) (s_inlineNamedStorageCapacity s))
      else mret (GeneralHeapPointer_As (s_metatable s))) h1 Q F.
Proof.
  intros Hm HQ. pose proof create_class as []. unfold transition_metatable, transition_slot in Hm.
  unfold IsPolyMetatable, GetPolyMetatableSlot. rewrite cl_metatable, cl_inline.
  destruct (Z.ltb_spec 0 (i_metatable i)).
  - destruct cl_poly as [[? _]|[_ Hat]]; [lia|]. apply at_slot_Some in Hat as [? Hat%lookup_lt_Some].
    rewrite wrapu_small by (unfold in_u; pow2; lia). by eapply wp_access.
  - apply wp_ret. congruence.
Qed.

(** The two insertion loops together. *)
Lemma filled_table h1 g k : structures h1 = structures h -> anchors h1 = anchors h -> valid_key g -> g <> special env -> g ∉ i_keys i ->
  special_is_user -> 0 <= k -> Z.of_nat (length (keys_at (i_keys i) (transition_slot i) g)) < 2 ^ k ->
  exists it t1 t, newStructureIterator h1 p = Some it /\
    insert_properties env h1 (2 ^ k - 1) (transition_slot i) 256 it (replicate (Z.to_nat (2 ^ k)) zeroDictEntry) = Some t1 /\
    InsertNonExistentPropertyForInitOrResize (2 ^ k - 1) (GeneralHeapPointer_As g) (hkey env g) (transition_slot i) t1 = Some t /\
    dtable_ok (keys_at (i_keys i) (transition_slot i) g) k t.
Proof.
  intros Hst Han Hg Hsp Hnew Huser Hk Hlen. pose proof create_class as [].
  destruct (iterate_spec env h K inv p s i Hs Hi) as (it & Hit & Hiter).
  assert (newStructureIterator h1 p = Some it) as Hit1 by (rewrite <- Hit; unfold newStructureIterator; by rewrite Hst, Han).
  assert (iterate h1 256 it = Some (zip (i_keys i) (Z.of_nat <$> seq 0 (length (i_keys i))))) as Hiter1
    by (rewrite <- Hiter; by apply iterate_frame).
  destruct (created_table (i_keys i) (transition_slot i) g cl_nodup cl_valid Hg Hnew transition_slot_free k Hk Hlen)
    as (t & Ht & Hok).
  rewrite foldl_app in Ht. cbn [foldl] in Ht.
  assert (resize_insert env (2 ^ k - 1) = fun t e => resize_insert env (2 ^ k - 1) t e) as Heta by done.
  destruct (foldl (ins_step (resize_insert env (2 ^ k - 1))) (Some (replicate (Z.to_nat (2 ^ k)) zeroDictEntry))
    (old_entries (i_keys i))) as [t1|] eqn:Et1; [|done].
  exists it, t1, t. split; [done|]. split; [|split; [|done]].
  - rewrite (insert_properties_fold h1 _ _ _ _ _ _ Hiter1), fold_entries; [done|done|].
    apply Forall_forall. intros [x o] (j & Hj)%list_elem_of_lookup_1. apply lookup_zip_Some in Hj as [Hx Ho].
    simpl in *. rewrite list_lookup_fmap in Ho. apply fmap_Some in Ho as (n & Hn & ->). apply lookup_seq in Hn as [-> _].
    rewrite Forall_forall in cl_valid. split; [by eapply cl_valid, list_elem_of_lookup_2|]. intros Hxs Heq.
    pose proof transition_slot_free as [[Hf _]|Hf]; rewrite <- Heq in Hf.
    + apply lookup_lt_Some in Hx. lia.
    + rewrite at_slot_nat in Hf. simpl in *. congruence.
  - cbn [ins_step mbind option_bind] in Ht. unfold resize_insert in Ht. cbn [de_key de_slot] in Ht.
    destruct (Z.eqb_spec g 0); [unfold valid_key in Hg; pow2; lia|]. done.
Qed.

Lemma CreateFromStructure_spec (poly : Z -> Z -> option Z) newProp (Q : CreateFromStructureResult -> SysHeap -> Prop) :
  special_is_user -> user_key newProp -> GeneralHeapPointer newProp <> special env -> GeneralHeapPointer newProp ∉ i_keys i ->
  is_Some (transition_metatable i (poly (transition_slot i) (i_inline i))) ->
  (forall limit res d, create_post i (GeneralHeapPointer newProp) (poly (transition_slot i) (i_inline i)) h res d ->
     sys_ok (alloc_heap h limit sizeof_CacheableDictionary) -> Q res (dictionary_heap h limit d)) ->
  wp (CreateFromStructure env poly p newProp) h Q (low h sizeof_CacheableDictionary).
Proof.
  intros Huser Hkey Hsp Hnew [mt Hmt] HQ. pose proof create_class as Hc. pose proof Hc as [].
  destruct (user_key_spec newProp Hkey) as [Hg Has]. set (g := GeneralHeapPointer newProp) in *.
  destruct (needed_slots g) as [Hneed Hrange].
  unfold CreateFromStructure. apply wp_bind. eapply wp_load_structure; [done|]. cbn zeta. rewrite Hneed.
  apply wp_bind. eapply CreateEmptyDictionary_spec; [by apply inv|lia|]. intros limit k Hk Hload Hsys.
  apply wp_bind. eapply wp_load_dictionary; [apply dictionary_heap_lookup|].
  apply wp_bind. eapply wp_metatable; [done|].
  apply wp_bind. eapply wp_created_capacity; [exact cl_inline|exact cl_butterfly|]. intros c [Hroom Hcap]. cbn iota.
  destruct (filled_table (dictionary_heap h limit (emptyDictionary false (s_inlineNamedStorageCapacity s) k)) g k
    eq_refl eq_refl Hg Hsp Hnew Huser ltac:(lia) ltac:(lia)) as (it & t1 & t & Hit & Ht1 & Ht & Hok).
  apply wp_bind. eapply wp_query; [done|]. apply wp_bind. eapply wp_access; [done|].
  apply wp_bind. eapply wp_query; [exact Ht1|]. apply wp_bind.
  eapply wp_access; [rewrite <- Has; exact Ht|]. apply wp_bind, wp_store_dictionary, wp_ret.
  rewrite dictionary_heap_store. apply HQ; [|done].
  pose proof class_butterfly as [Hb _]. pose proof (keys_at_length g) as Hl1. pose proof (keys_at_length 0) as Hl0.
  split; cbn; try done; try lia.
  - apply keys_at_new. apply transition_slot_free.
  - split; [|unfold d_capacity; cbn; rewrite cl_inline; lia]. exists k, t. split; [|done].
    split; cbn; try done; try lia.
    + apply keys_at_nodup; done || apply transition_slot_free.
    + apply Forall_forall. intros x Hx. apply keys_at_elem in Hx as [->|[Hx _]]; try done; [|apply transition_slot_free].
      rewrite Forall_forall in cl_valid. by apply cl_valid.
    + intros Hx. apply keys_at_elem in Hx as [Hx|[_ Hx]]; try done; apply transition_slot_free.
Qed.
End create.
End invariant.
