(* ===== verification/NamedProps.v ===== *)
(** * Named properties and metatables of tables ([class TableObject], [runtime/table_object.h])

    The model of [GetById], [PutById] and their preparation, of the transition to
    a dictionary, and of the metatable operations, on the state of [TableObject]
    over the system heap of [ClassHeap].  [isString] is the instance of the
    template: the property name is a string, or any object.  A field of an
    inline-cache record that a branch leaves alone is 0 or [false]. *)

From S2P Require Import Prelude TValue Machine TypeMask ArrayType Butterfly SparseMap HiddenClass TableObject Probing ClassHeap Structure Transition Dictionary TableClasses.

(** ** Inline-cache records *)

Module GetByIdICInfo.
Inductive ICKind := UncachableDictionary | MustBeNil | MustBeNilButUncacheable | InlinedStorage | OutlinedStorage.
Record t := mk { m_icKind : ICKind; m_mayHaveMetatable : bool; m_slot : Z }.
End GetByIdICInfo.

Module PutByIdICInfo.
Inductive ICKind := TransitionedToDictionaryMode | InlinedStorage | OutlinedStorage.
Record t := mk {
  m_icKind : ICKind;
  m_propertyExists : bool;
  m_shouldGrowButterfly : bool;
  m_mayHaveMetatable : bool;
  m_isInlineCacheable : bool;
  m_slot : Z;
  m_newStructure : Z
}.
End PutByIdICInfo.

Record GetMetatableResult := mkGetMetatable { gm_result : Z; gm_isCacheable : bool }.

Notation MT := (M (TableObject.St SysHeap)).

(** The hidden-class heap is a part of the state. *)
Definition on_heap {A} (m : MH A) : MT A := fun s =>
  match m (st_hc s) with
  | Ok (a, h) => Ok (a, mkSt (st_table s) h (st_heap s) (st_sparse s))
  | VMFail => VMFail
  | UB => UB
  end.

(** [hiddenClass.As<SystemHeapGcObjectHeader>()->m_type]. *)
Definition hidden_class_type (h : SysHeap) (p : Z) : option HcKind :=
  if structures h !! p then Some HcStructure
  else if dictionaries h !! p then Some HcCacheableDictionary else None.

(** ** Storage *)

Definition read_inline (slot : Z) : MT Z := t ← get_table; access (at_slot (m_inlineStorage t) slot).
Definition read_outline (index : Z) : MT Z := on_butterfly (fun b => GetNamedProperty b index).
Definition write_inline (slot v : Z) : MT unit :=
  t ← get_table;
  storage ← access (set_slot (m_inlineStorage t) slot v);
  set_table (mkTable (m_hiddenClass t) (m_arrayType t) (m_butterfly t) storage).
Definition write_outline (index v : Z) : MT unit := update_butterfly (fun b => SetNamedProperty b index v).

Definition GetValueForSlot (slotOrd inlineStorageCapacity : Z) : MT Z :=
  if slotOrd <? inlineStorageCapacity then read_inline slotOrd
  else read_outline (GetOutlineStorageIndex slotOrd inlineStorageCapacity).

(** The store to a slot, as the code writes it out in every function. *)
Definition write_slot (slotOrd inlineStorageCapacity v : Z) : MT unit :=
  if slotOrd <? inlineStorageCapacity then write_inline slotOrd v
  else write_outline (GetOutlineStorageIndex slotOrd inlineStorageCapacity) v.

Definition TableObject_GrowButterflyKnowingNamedStorageCapacity (oldNamedStorageCapacity newCapacity : Z) : MT unit :=
  t ← get_table;
  b ← access (GrowButterflyKnowingNamedStorageCapacity true (m_butterfly t) oldNamedStorageCapacity newCapacity);
  set_butterfly b.

Section definitions.
Variable env : Env.
#[local] Instance hidden_class_ops : HiddenClassOps SysHeap := sys_ops env.

(** ** [GetById] *)

Definition Structure_find (isString : bool) (h : SysHeap) (s : Structure) (prop : Z) : option (option Z) :=
  if isString then GetSlotOrdinalFromStringProperty env h s prop
  else GetSlotOrdinalFromMaybeNonStringProperty env h s prop.
Definition Dictionary_find (isString : bool) (d : CacheableDictionary) (prop : Z) : option (option Z) :=
  if isString then Dict_GetSlotOrdinalFromStringProperty env d prop
  else Dict_GetSlotOrdinalFromMaybeNonStringProperty env d prop.

Definition get_ic (mayHaveMetatable : bool) (slotOrd inlineStorageCapacity : Z) : GetByIdICInfo.t :=
  if slotOrd <? inlineStorageCapacity
  then GetByIdICInfo.mk GetByIdICInfo.InlinedStorage mayHaveMetatable (i32 slotOrd)
  else GetByIdICInfo.mk GetByIdICInfo.OutlinedStorage mayHaveMetatable
         (GetOutlineStorageIndex slotOrd inlineStorageCapacity).

Definition PrepareGetByIdImplForStructure (isString : bool) (h : SysHeap) (hiddenClass prop : Z)
    : option GetByIdICInfo.t :=
  structure ← structures h !! hiddenClass;
  let mayHaveMetatable := negb (s_metatable structure =? 0) in
  found ← Structure_find isString h structure prop;
  Some (match found with
        | Some slotOrd => get_ic mayHaveMetatable slotOrd (s_inlineNamedStorageCapacity structure)
        | None => GetByIdICInfo.mk GetByIdICInfo.MustBeNil mayHaveMetatable 0
        end).

Definition PrepareGetByIdImplForCacheableDictionary (isString : bool) (h : SysHeap) (hiddenClass prop : Z)
    : option GetByIdICInfo.t :=
  dict ← dictionaries h !! hiddenClass;
  let mayHaveMetatable := negb (d_metatable dict =? 0) in
  found ← Dictionary_find isString dict prop;
  Some (match found with
        | Some slotOrd => get_ic mayHaveMetatable slotOrd (d_inlineNamedStorageCapacity dict)
        | None => GetByIdICInfo.mk GetByIdICInfo.MustBeNilButUncacheable mayHaveMetatable 0
        end).

Definition PrepareGetByIdImpl (isString : bool) (h : SysHeap) (hiddenClass prop : Z) : option GetByIdICInfo.t :=
  ty ← hidden_class_type h hiddenClass;
  match ty with
  | HcStructure => PrepareGetByIdImplForStructure isString h hiddenClass prop
  | HcCacheableDictionary => PrepareGetByIdImplForCacheableDictionary isString h hiddenClass prop
  end.

Definition PrepareGetById (isString : bool) (prop : Z) : MT GetByIdICInfo.t :=
  t ← get_table; on_heap (query (fun h => PrepareGetByIdImpl isString h (m_hiddenClass t) prop)).

Definition PrepareGetByIdForGlobalObject (isString : bool) (prop : Z) : MT GetByIdICInfo.t :=
  t ← get_table;
  on_heap (query (fun h => PrepareGetByIdImplForCacheableDictionary isString h (m_hiddenClass t) prop)).

Definition GetById (icInfo : GetByIdICInfo.t) : MT Z :=
  match GetByIdICInfo.m_icKind icInfo with
  | GetByIdICInfo.MustBeNil | GetByIdICInfo.MustBeNilButUncacheable => mret Nil
  | GetByIdICInfo.InlinedStorage => read_inline (GetByIdICInfo.m_slot icInfo)
  | GetByIdICInfo.OutlinedStorage => read_outline (GetByIdICInfo.m_slot icInfo)
  | GetByIdICInfo.UncachableDictionary => ub
  end.

(** ** [PutById]: preparation *)

Definition put_ic (propertyExists shouldGrow mayHaveMetatable : bool) (slotOrd inlineStorageCapacity newStructure : Z)
    : PutByIdICInfo.t :=
  if slotOrd <? inlineStorageCapacity
  then PutByIdICInfo.mk PutByIdICInfo.InlinedStorage propertyExists shouldGrow mayHaveMetatable true
         (i32 slotOrd) newStructure
  else PutByIdICInfo.mk PutByIdICInfo.OutlinedStorage propertyExists shouldGrow mayHaveMetatable true
         (GetOutlineStorageIndex slotOrd inlineStorageCapacity) newStructure.

Definition PreparePutByIdForCacheableDictionary (isString : bool) (dict prop : Z) : MT PutByIdICInfo.t :=
  res ← on_heap (if isString then Dict_PreparePutById env dict prop
                 else PreparePutByMaybeNonStringKey env dict prop);
  (if pr_shouldGrowButterfly res then
     d ← on_heap (load_dictionary dict);
     newCapacity ← access (pr_newButterflyCapacity res);
     TableObject_GrowButterflyKnowingNamedStorageCapacity (d_butterflyNamedStorageCapacity d) newCapacity;;
     on_heap (store_dictionary dict (d_set_butterfly d newCapacity))
   else mret tt);;
  d ← on_heap (load_dictionary dict);
  mret (put_ic true false (negb (d_metatable d =? 0)) (pr_slot res) (d_inlineNamedStorageCapacity d) 0).

Definition PreparePutByIdForStructure (isString : bool) (structure prop : Z) : MH PutByIdICInfo.t :=
  s ← load_structure structure;
  let mayHaveMetatable := negb (s_metatable s =? 0) in
  found ← query (fun h => Structure_find isString h s prop);
  match found with
  | Some slotOrd => mret (put_ic true false mayHaveMetatable slotOrd (s_inlineNamedStorageCapacity s) 0)
  | None =>
      r ← AddNonExistentProperty env structure prop;
      match r with
      | None =>
          mret (PutByIdICInfo.mk PutByIdICInfo.TransitionedToDictionaryMode false false mayHaveMetatable false 0 0)
      | Some addNewPropResult =>
          mret (put_ic false (np_shouldGrowButterfly addNewPropResult) mayHaveMetatable
            (np_slotOrdinal addNewPropResult) (s_inlineNamedStorageCapacity s) (np_newStructure addNewPropResult))
      end
  end.

Definition PreparePutById (isString : bool) (prop : Z) : MT PutByIdICInfo.t :=
  t ← get_table;
  ty ← on_heap (query (fun h => hidden_class_type h (m_hiddenClass t)));
  match ty with
  | HcStructure => on_heap (PreparePutByIdForStructure isString (m_hiddenClass t) prop)
  | HcCacheableDictionary => PreparePutByIdForCacheableDictionary isString (m_hiddenClass t) prop
  end.

Definition PreparePutByIdForGlobalObject (isString : bool) (prop : Z) : MT PutByIdICInfo.t :=
  t ← get_table; PreparePutByIdForCacheableDictionary isString (m_hiddenClass t) prop.

Definition PutByIdNeedToCheckMetatable (icInfo : PutByIdICInfo.t) : MT bool :=
  if negb (PutByIdICInfo.m_mayHaveMetatable icInfo) then mret false
  else if negb (PutByIdICInfo.m_propertyExists icInfo) then mret true
  else match PutByIdICInfo.m_icKind icInfo with
       | PutByIdICInfo.InlinedStorage => val ← read_inline (PutByIdICInfo.m_slot icInfo); mret (IsNil val)
       | PutByIdICInfo.OutlinedStorage => val ← read_outline (PutByIdICInfo.m_slot icInfo); mret (IsNil val)
       | PutByIdICInfo.TransitionedToDictionaryMode => ub
       end.

(** ** [PutById] *)

Definition GetPolyMetatableFromObjectWithStructureHiddenClass (slot inlineCapacity : Z) : MT Z :=
  res ← GetValueForSlot slot inlineCapacity;
  if IsNil res then mret 0
  else if IsPointer res then mret (AsPointer res) else ub.

(** The same as a function of the slots of the object. *)
Definition poly_metatable_of (s : TableObject.St SysHeap) (slot inlineCapacity : Z) : option Z :=
  match GetPolyMetatableFromObjectWithStructureHiddenClass slot inlineCapacity s with
  | Ok (m, _) => Some m
  | _ => None
  end.

Definition PutByIdTransitionToDictionaryImpl (prop newValue : Z) : MT unit :=
  t ← get_table;
  structure ← on_heap (load_structure (m_hiddenClass t));
  s ← get_st;
  res ← on_heap (CreateFromStructure env (poly_metatable_of s) (m_hiddenClass t) prop);
  dictionary ← on_heap (load_dictionary (cr_dictionary res));
  (if cr_shouldGrowButterfly res then
     TableObject_GrowButterflyKnowingNamedStorageCapacity (s_butterflyNamedStorageCapacity structure)
       (d_butterflyNamedStorageCapacity dictionary)
   else mret tt);;
  write_slot (cr_slot res) (d_inlineNamedStorageCapacity dictionary) newValue;;
  set_hiddenClass (cr_dictionary res);;
  t ← get_table;
  set_arrayType (SetMayHaveMetatable (m_arrayType t) (negb (d_metatable dictionary =? 0))).

Definition PutById (prop newValue : Z) (icInfo : PutByIdICInfo.t) : MT unit :=
  match PutByIdICInfo.m_icKind icInfo with
  | PutByIdICInfo.TransitionedToDictionaryMode => PutByIdTransitionToDictionaryImpl prop newValue
  | kind =>
      (if negb (PutByIdICInfo.m_propertyExists icInfo) then
         (if PutByIdICInfo.m_shouldGrowButterfly icInfo then
            newStructure ← on_heap (load_structure (PutByIdICInfo.m_newStructure icInfo));
            GrowButterfly true (s_butterflyNamedStorageCapacity newStructure)
          else mret tt);;
         set_hiddenClass (PutByIdICInfo.m_newStructure icInfo)
       else mret tt);;
      match kind with
      | PutByIdICInfo.InlinedStorage => write_inline (PutByIdICInfo.m_slot icInfo) newValue
      | PutByIdICInfo.OutlinedStorage => write_outline (PutByIdICInfo.m_slot icInfo) newValue
      | PutByIdICInfo.TransitionedToDictionaryMode => mret tt
      end
  end.

(** ** Metatables *)

Definition GetMetatable : MT GetMetatableResult :=
  t ← get_table;
  ty ← on_heap (query (fun h => hidden_class_type h (m_hiddenClass t)));
  match ty with
  | HcStructure =>
      structure ← on_heap (load_structure (m_hiddenClass t));
      if HasNoMetatable structure then mret (mkGetMetatable 0 true)
      else if HasMonomorphicMetatable structure then mret (mkGetMetatable (GetMonomorphicMetatable structure) true)
      else
        res ← GetPolyMetatableFromObjectWithStructureHiddenClass (GetPolyMetatableSlot structure)
                (s_inlineNamedStorageCapacity structure);
        mret (mkGetMetatable res false)
  | HcCacheableDictionary =>
      cd ← on_heap (load_dictionary (m_hiddenClass t));
      mret (mkGetMetatable (d_metatable cd) true)
  end.

(** [garbage]: see [RelocateForAddingOrRemovingMetatable]. *)
Definition dictionary_metatable (garbage cd newMetatable : Z) (present : bool) : MT unit :=
  newCd ← on_heap (RelocateForAddingOrRemovingMetatable garbage cd);
  d ← on_heap (load_dictionary newCd);
  on_heap (store_dictionary newCd (d_set_metatable d newMetatable));;
  set_hiddenClass newCd;;
  t ← get_table;
  set_arrayType (SetMayHaveMetatable (m_arrayType t) present).

Definition TableObject_SetMetatable (garbage newMetatable : Z) : MT unit :=
  t ← get_table;
  ty ← on_heap (query (fun h => hidden_class_type h (m_hiddenClass t)));
  match ty with
  | HcStructure =>
      structure ← on_heap (load_structure (m_hiddenClass t));
      result ← on_heap (SetMetatable env (m_hiddenClass t) newMetatable);
      newStructure ← on_heap (load_structure (am_newStructure result));
      (if am_shouldInsertMetatable result then
         (if am_shouldGrowButterfly result then
            TableObject_GrowButterflyKnowingNamedStorageCapacity (s_butterflyNamedStorageCapacity structure)
              (s_butterflyNamedStorageCapacity newStructure)
          else mret tt);;
         write_slot (am_slotOrdinal result) (s_inlineNamedStorageCapacity structure) (CreatePointer newMetatable)
       else mret tt);;
      set_hiddenClass (am_newStructure result);;
      set_arrayType (s_arrayType newStructure)
  | HcCacheableDictionary =>
      cd ← on_heap (load_dictionary (m_hiddenClass t));
      if d_metatable cd =? newMetatable then mret tt
      else dictionary_metatable garbage (m_hiddenClass t) newMetatable true
  end.

Definition TableObject_RemoveMetatable (garbage : Z) : MT unit :=
  t ← get_table;
  ty ← on_heap (query (fun h => hidden_class_type h (m_hiddenClass t)));
  match ty with
  | HcStructure =>
      structure ← on_heap (load_structure (m_hiddenClass t));
      result ← on_heap (RemoveMetatable_ env (m_hiddenClass t));
      (if rm_shouldInsertMetatable result then
         write_slot (rm_slotOrdinal result) (s_inlineNamedStorageCapacity structure) Nil
       else mret tt);;
      set_hiddenClass (rm_newStructure result);;
      newStructure ← on_heap (load_structure (rm_newStructure result));
      set_arrayType (s_arrayType newStructure)
  | HcCacheableDictionary =>
      cd ← on_heap (load_dictionary (m_hiddenClass t));
      if d_metatable cd =? 0 then mret tt
      else dictionary_metatable garbage (m_hiddenClass t) 0 false
  end.

Definition TryQuicklyRuleOutMetamethod (mtKind : Z) : MT bool :=
  t ← get_table;
  h ← on_heap get_st;
  match structures h !! m_hiddenClass t with
  | Some s => mret (negb (Z.land (s_knownNonexistentMetamethods s) (u16 (Z.shiftl 1 mtKind)) =? 0))
  | None => if dictionaries h !! m_hiddenClass t then mret false else ub
  end.

(** A put without a metamethod: preparation and write. *)
Definition RawPutById (isString : bool) (prop v : Z) : MT unit :=
  icInfo ← PreparePutById isString prop; PutById prop v icInfo.
Definition RawGetById (isString : bool) (prop : Z) : MT Z :=
  icInfo ← PrepareGetById isString prop; GetById icInfo.
End definitions.
