(* ===== verification/NamedInv.v ===== *)
(** * The slots of a table and their values

    A table keeps the value of its property number [k] in the inline storage or,
    backwards, in front of the header of its butterfly.  [layout] puts both
    together as one list of values; [props f mt] says what the named properties
    of a table mean: [f] is the value of every key and [mt] the metatable, 0 for
    none. *)

From S2P Require Import Prelude TValue MiscMath Machine TypeMask ArrayType Butterfly SparseMap HiddenClass TableObject TableArray Probing CheckedTable ClassHeap Structure Transition ClassInv ClassLookup ClassFrame ClassOps ClassView Dictionary TableClasses NamedProps.

(** ** Slots *)

(** The parts of a butterfly that may be missing. *)
Definition butterfly_parts (b : option Butterfly) (named : list Z) (len cap : Z) (vec : list Z) : Prop :=
  (b = None /\ named = [] /\ len = 0 /\ cap = 0 /\ vec = []) \/
  (b = Some (mk_bf named len cap vec) /\ bf_ok named len cap vec).

(** [vs] are the values of the slots of a table with [inl] inline and [bf] outlined ones. *)
Definition layout (t : TableObject) (inl bf : Z) (vs : list Z) (len cap : Z) (vec : list Z) : Prop :=
  exists named, butterfly_parts (m_butterfly t) named len cap vec /\
    Z.of_nat (length (m_inlineStorage t)) = inl /\ Z.of_nat (length named) = bf /\
    vs = m_inlineStorage t ++ reverse named.

Lemma lookup_reverse {A} (l : list A) k : (k < length l)%nat -> reverse l !! k = l !! (length l - 1 - k)%nat.
Proof. intros Hk. rewrite reverse_lookup by done. f_equal. lia. Qed.

Lemma insert_reverse {A} (l : list A) k x : (k < length l)%nat ->
  reverse (<[(length l - 1 - k)%nat := x]> l) = <[k := x]> (reverse l).
Proof.
  intros Hk. apply list_eq. intros j. destruct (decide (j < length l)%nat) as [Hj|Hj].
  - rewrite lookup_reverse, length_insert by (by rewrite length_insert). destruct (decide (k = j)) as [<-|Hne].
    + rewrite !list_lookup_insert_eq by (rewrite ?length_reverse; lia). done.
    + rewrite !list_lookup_insert_ne, lookup_reverse by lia. done.
  - rewrite !lookup_ge_None_2; [done|rewrite length_insert, length_reverse; lia|rewrite length_reverse, length_insert; lia].
Qed.

Section slots.
Variables (s : TableObject.St SysHeap) (inl bf : Z) (vs : list Z) (len cap : Z) (vec : list Z).
Hypothesis lay : layout (st_table s) inl bf vs len cap vec.
Hypothesis inl_range : 0 <= inl <= x_maxNumSlots.
Hypothesis bf_range : 0 <= bf <= x_maxNamedStorageCapacity.

Lemma layout_length : Z.of_nat (length vs) = inl + bf.
Proof. destruct lay as (named & _ & Hi & Hn & ->). rewrite length_app, length_reverse. lia. Qed.

Lemma inl_255 : 0 <= inl <= 255.
Proof. unfold x_maxNumSlots in *. lia. Qed.

Lemma outline_butterfly : 0 < bf -> exists named, m_butterfly (st_table s) = Some (mk_bf named len cap vec) /\
  bf_ok named len cap vec /\ Z.of_nat (length named) = bf /\ vs = m_inlineStorage (st_table s) ++ reverse named /\
  Z.of_nat (length (m_inlineStorage (st_table s))) = inl.
Proof.
  intros Hb. destruct lay as (named & [(_ & -> & _)|[Hm Hok]] & Hi & Hn & Hv); [simpl in Hn; lia|].
  exists named. by split_and!.
Qed.

Lemma read_slot slot v (Q : Z -> TableObject.St SysHeap -> Prop) F : at_slot vs slot = Some v -> Q v s ->
  wp (GetValueForSlot slot inl) s Q F.
Proof.
  intros Hv HQ. destruct (at_slot_Some _ _ _ Hv) as [H0 Hl]. pose proof (lookup_lt_Some _ _ _ Hl) as Hlt.
  pose proof layout_length. unfold GetValueForSlot. destruct (Z.ltb_spec slot inl) as [Hi|Hi].
  - unfold read_inline. apply wp_bind, wp_get_table. eapply wp_access; [|done].
    destruct lay as (named & _ & Hin & _ & ->). rewrite lookup_app_l in Hl by lia.
    unfold at_slot. destruct (Z.leb_spec 0 slot); [done|lia].
  - destruct (outline_butterfly ltac:(lia)) as (named & Hm & Hok & Hn & -> & Hin).
    rewrite lookup_app_r in Hl by lia. rewrite length_app, length_reverse in Hlt.
    replace slot with (inl + Z.of_nat (Z.to_nat (slot - inl))) by lia.
    rewrite GetOutlineStorageIndex_spec by (pose proof inl_255; lia).
    eapply wp_on_butterfly; [done| |done]. rewrite GetNamedProperty_mk by lia.
    rewrite <- lookup_reverse by lia. rewrite <- Hl. f_equal. lia.
Qed.

Lemma write_slot_spec slot v (Q : unit -> TableObject.St SysHeap -> Prop) F : 0 <= slot < inl + bf ->
  (forall t, layout t inl bf (<[Z.to_nat slot := v]> vs) len cap vec ->
     m_hiddenClass t = m_hiddenClass (st_table s) -> m_arrayType t = m_arrayType (st_table s) ->
     Q tt (with_table s t)) ->
  wp (write_slot slot inl v) s Q F.
Proof.
  intros Hs HQ. unfold write_slot. destruct (Z.ltb_spec slot inl) as [Hi|Hi].
  - destruct lay as (named & Hp & Hin & Hn & Hv). unfold write_inline. apply wp_bind, wp_get_table. apply wp_bind.
    eapply wp_access; [unfold set_slot; destruct (Z.leb_spec 0 slot), (Z.ltb_spec slot (Z.of_nat (length (m_inlineStorage (st_table s)))));
      [done|lia..]|].
    unfold set_table. apply wp_bind, wp_get, wp_put. apply HQ; [|done|done].
    exists named. simpl. rewrite length_insert. split_and!; [done..|]. by rewrite Hv, insert_app_l by lia.
  - destruct (outline_butterfly ltac:(lia)) as (named & Hm & Hok & Hn & Hv & Hin).
    replace slot with (inl + Z.of_nat (Z.to_nat (slot - inl))) by lia.
    rewrite GetOutlineStorageIndex_spec by (pose proof inl_255; lia).
    set (k := Z.to_nat (slot - inl)).
    eapply wp_update_butterfly; [done|apply SetNamedProperty_mk; unfold k; lia|].
    apply HQ; [|done|done]. exists (<[(length named - 1 - k)%nat := v]> named). simpl.
    rewrite length_insert. split_and!; [|done|done|].
    + right. split; [done|]. destruct Hok. split; try done. by rewrite length_insert.
    + rewrite insert_reverse, Hv by (unfold k; lia). rewrite insert_app_r_alt by (unfold k; lia). f_equal. f_equal. unfold k. lia.
Qed.

(** New slots are nil. *)
Lemma grow_spec c (Q : unit -> TableObject.St SysHeap -> Prop) F : bf <= c <= x_maxNamedStorageCapacity ->
  (forall t, layout t inl c (vs ++ replicate (Z.to_nat (c - bf)) Nil) len cap vec ->
     m_hiddenClass t = m_hiddenClass (st_table s) -> m_arrayType t = m_arrayType (st_table s) ->
     Q tt (with_table s t)) ->
  wp (TableObject_GrowButterflyKnowingNamedStorageCapacity bf c) s Q F.
Proof.
  intros Hc HQ. destruct lay as (named & Hp & Hin & Hn & Hv).
  assert (GrowButterflyKnowingNamedStorageCapacity true (m_butterfly (st_table s)) bf c =
    Some (mk_bf (replicate (Z.to_nat (c - bf)) Nil ++ named) len cap vec)) as Hg.
  { destruct Hp as [(-> & -> & -> & -> & ->)|[-> Hok]].
    - simpl. rewrite GrowFromNull_named by lia. simpl in Hn. rewrite app_nil_r. do 4 f_equal. lia.
    - rewrite <- Hn, Grow_named by (done || lia). do 4 f_equal. lia. }
  unfold TableObject_GrowButterflyKnowingNamedStorageCapacity. apply wp_bind, wp_get_table. apply wp_bind.
  eapply wp_access; [done|]. apply wp_set_butterfly. apply HQ; [|done|done].
  exists (replicate (Z.to_nat (c - bf)) Nil ++ named). simpl. rewrite length_app, length_replicate.
  split_and!; [|done|lia|].
  - right. split; [done|]. destruct Hp as [(_ & -> & -> & -> & ->)|[_ []]].
    + split; [by vm_compute|by vm_compute|done|]. rewrite length_app, length_replicate. simpl in *. lia.
    + split; try done. rewrite length_app, length_replicate. lia.
  - rewrite Hv, reverse_app, <- app_assoc. do 2 f_equal. symmetry. apply reverse_replicate.
Qed.
End slots.

(** ** Values of keys *)

(** The value of the key [g], where [ks] are the keys and [vs] the values of the slots. *)
Definition value_of (ks vs : list Z) (g v : Z) : Prop :=
  (exists j, ks !! j = Some g /\ vs !! j = Some v) \/ (g ∉ ks /\ v = Nil).

(** Slots without a key are nil. *)
Definition rest_nil (ks vs : list Z) : Prop := forall j v, (length ks <= j)%nat -> vs !! j = Some v -> v = Nil.

Definition write (f : Z -> Z) (key v : Z) : Z -> Z := fun k => if k =? key then v else f k.

Lemma value_of_found ks vs g v slot : NoDup ks -> at_slot ks slot = Some g -> value_of ks vs g v -> at_slot vs slot = Some v.
Proof.
  intros Hnd Hat [(j & Hj & Hv)|[Hn _]]; [|by destruct Hn; eapply at_slot_elem].
  assert (slot = Z.of_nat j) as -> by (eapply (NoDup_at_slot ks); [done|done|by rewrite at_slot_nat]).
  by rewrite at_slot_nat.
Qed.

Lemma value_of_absent ks vs g v : g ∉ ks -> value_of ks vs g v -> v = Nil.
Proof. intros Hn [(j & Hj & _)|[_ ?]]; [|done]. destruct Hn. by eapply list_elem_of_lookup_2. Qed.

(** Growing the storage keeps the values. *)
Lemma value_of_grow ks vs n g v : value_of ks vs g v -> value_of ks (vs ++ replicate n Nil) g v.
Proof. intros [(j & Hj & Hv)|?]; [left|by right]. exists j. split; [done|]. by apply lookup_app_l_Some. Qed.

Lemma rest_nil_grow ks vs n : rest_nil ks vs -> rest_nil ks (vs ++ replicate n Nil).
Proof.
  intros Hr j v Hj Hv. apply lookup_app_Some in Hv as [Hv|[_ Hv]]; [by eapply Hr|].
  by apply lookup_replicate_1 in Hv as [-> _].
Qed.

(** Writing the slot of a key. *)
Lemma value_of_write ks vs slot g v g' v' : NoDup ks -> at_slot ks slot = Some g -> (length ks <= length vs)%nat ->
  value_of ks vs g' v' -> value_of ks (<[Z.to_nat slot := v]> vs) g' (if g' =? g then v else v').
Proof.
  intros Hnd Hat Hlen Hv. pose proof (at_slot_Some _ _ _ Hat) as [_ Hlk]. pose proof (lookup_lt_Some _ _ _ Hlk).
  destruct (Z.eqb_spec g' g) as [->|Hne].
  - left. exists (Z.to_nat slot). split; [done|]. apply list_lookup_insert_eq. lia.
  - destruct Hv as [(j & Hj & Hv)|?]; [left|by right]. exists j. split; [done|].
    rewrite list_lookup_insert_ne; [done|]. intros Heq. rewrite Heq in Hlk. congruence.
Qed.

Lemma rest_nil_write ks vs slot v : 0 <= slot < Z.of_nat (length ks) -> rest_nil ks vs -> rest_nil ks (<[Z.to_nat slot := v]> vs).
Proof.
  intros Hs Hr j x Hj Hx. rewrite list_lookup_insert_ne in Hx by lia. by eapply Hr.
Qed.

(** A new key takes the next slot, which is nil. *)
Lemma value_of_append ks vs g g' v' : rest_nil ks vs -> g ∉ ks -> (length ks < length vs)%nat ->
  value_of ks vs g' v' -> value_of (ks ++ [g]) vs g' v'.
Proof.
  intros Hr Hn Hl [(j & Hj & Hv)|[Hn' ->]].
  - left. exists j. split; [by apply lookup_app_l_Some|done].
  - destruct (decide (g' = g)) as [->|Hne].
    + left. exists (length ks). split; [by apply list_lookup_middle|].
      destruct (lookup_lt_is_Some_2 vs (length ks) Hl) as [x Hx]. rewrite Hx. f_equal. by eapply Hr.
    + right. split; [|done]. rewrite not_elem_of_app, list_elem_of_singleton. done.
Qed.

Lemma rest_nil_append ks vs g : rest_nil ks vs -> rest_nil (ks ++ [g]) vs.
Proof. intros Hr j v Hj. rewrite length_app in Hj. apply Hr. lia. Qed.

(** ** The invariant *)

(** The executable content of the parts of a table. *)
Record PV := mkPV {
  pv_keys : list Z;
  pv_inline : Z;
  pv_butterfly : Z;
  pv_values : list Z;
  pv_len : Z;
  pv_cap : Z;
  pv_vec : list Z
}.

(** A metatable as a slot holds it, and what it means. *)
Definition metatable_value (v : Z) : Z := if IsNil v then 0 else AsPointer v.
Definition struct_metatable (i : Info) (vs : list Z) : Z :=
  if 0 <? i_metatable i then metatable_value (default Nil (at_slot vs (i_metatable i - 1)))
  else if i_metatable i =? 0 then 0 else GeneralHeapPointer_As (i_metatable i).

Definition metatable_slot_ok (v : Z) : Prop := v = Nil \/ exists m, user_key m /\ v = CreatePointer m.

Section props.
Variable env : Env.
Notation St := (TableObject.St SysHeap).
Implicit Types (s : St) (t : TableObject).

(** The hidden class of [t] is a structure ... *)
Record structure_view (K : Classes) (t : TableObject) (v : PV) (mt : Z) (i : Info) : Prop := {
  sv_info : K !! m_hiddenClass t = Some i;
  sv_keys : pv_keys v = i_keys i;
  sv_inline : pv_inline v = i_inline i;
  sv_butterfly : pv_butterfly v = i_butterfly i;
  sv_metatable : mt = struct_metatable i (pv_values v);
  sv_arrayType : m_arrayType t = i_arrayType i;
  sv_poly : 0 < i_metatable i -> forall x, at_slot (pv_values v) (i_metatable i - 1) = Some x -> metatable_slot_ok x
}.

(** ... or a dictionary. *)
Record dictionary_view (h : SysHeap) (t : TableObject) (v : PV) (mt : Z) (d : CacheableDictionary) : Prop := {
  dv_info : dictionaries h !! m_hiddenClass t = Some d;
  dv_ok : dict_ok env d (pv_keys v);
  dv_inline : pv_inline v = d_inlineNamedStorageCapacity d;
  dv_butterfly : pv_butterfly v = d_butterflyNamedStorageCapacity d;
  dv_metatable : mt = d_metatable d;
  dv_arrayType : MayHaveMetatable (m_arrayType t) = negb (mt =? 0);
  dv_useful : useful (m_arrayType t)
}.

Record stored (t : TableObject) (v : PV) (f : Z -> Z) : Prop := {
  sd_layout : layout t (pv_inline v) (pv_butterfly v) (pv_values v) (pv_len v) (pv_cap v) (pv_vec v);
  sd_rest : rest_nil (pv_keys v) (pv_values v);
  sd_content : forall key, user_key key -> key <> GetSpecialKeyForMetadataSlot env ->
    value_of (pv_keys v) (pv_values v) (GeneralHeapPointer key) (f key)
}.

Definition class_view K s v mt : Prop :=
  (exists i, structure_view K (st_table s) v mt i) \/ (exists d, dictionary_view (st_hc s) (st_table s) v mt d).

Record props_at K s (v : PV) (f : Z -> Z) (mt : Z) : Prop := {
  pa_classes : classes_inv env (st_hc s) K;
  pa_class : class_view K s v mt;
  pa_stored : stored (st_table s) v f
}.

(** The named properties of the table are [f], its metatable is [mt]. *)
Definition props s (f : Z -> Z) (mt : Z) : Prop := exists K v, props_at K s v f mt.

(** A key a program can use. *)
Definition property_key (isString : bool) (key : Z) : Prop :=
  user_key key /\ key <> GetSpecialKeyForMetadataSlot env /\ (isString = true -> m_type env key = String).

Hypothesis special_user : user_key (GetSpecialKeyForMetadataSlot env).

(** What both kinds of class have in common. *)
Record class_bounds (v : PV) : Prop := {
  cb_nodup : NoDup (pv_keys v);
  cb_valid : Forall valid_key (pv_keys v);
  cb_inline : 0 <= pv_inline v <= x_maxNumSlots;
  cb_butterfly : 0 <= pv_butterfly v <= x_maxNamedStorageCapacity;
  cb_capacity : Z.of_nat (length (pv_keys v)) <= pv_inline v + pv_butterfly v
}.

Lemma structure_bounds h K t v mt i : heap_inv env h K -> structure_view K t v mt i -> class_bounds v.
Proof.
  intros Hinv []. destruct (inv_structure env h K Hinv _ i sv_info0) as (s & Hs & Hc).
  destruct (class_butterfly env h K _ s i Hinv Hs sv_info0) as [Hb Hroom]. pose proof Hc as [].
  unfold i_count in Hroom. split; rewrite ?sv_keys0, ?sv_inline0, ?sv_butterfly0; try done.
  unfold x_maxNamedStorageCapacity. lia.
Qed.

Lemma dictionary_bounds h t v mt d : dictionary_view h t v mt d -> class_bounds v.
Proof.
  intros []. destruct dv_ok0 as [(k & tb & [] & _) Hcap]. unfold d_capacity in Hcap.
  split; rewrite ?dv_inline0, ?dv_butterfly0; done.
Qed.

Lemma props_bounds K s v f mt : props_at K s v f mt -> class_bounds v.
Proof.
  intros [[Hinv _] [[i Hi]|[d Hd]] _]; [by eapply structure_bounds|by eapply dictionary_bounds].
Qed.

Lemma stored_length t v f : stored t v f -> Z.of_nat (length (pv_values v)) = pv_inline v + pv_butterfly v.
Proof. intros [(named & _ & Hi & Hn & ->) _ _]. rewrite length_app, length_reverse. lia. Qed.

(** The type of the hidden class. *)
Lemma structure_type K s i : heap_inv env (st_hc s) K -> K !! m_hiddenClass (st_table s) = Some i ->
  exists sc, structures (st_hc s) !! m_hiddenClass (st_table s) = Some sc /\ class_ok env (anchors (st_hc s)) K sc i /\
    hidden_class_type (st_hc s) (m_hiddenClass (st_table s)) = Some HcStructure.
Proof.
  intros Hinv Hi. destruct (inv_structure env _ K Hinv _ i Hi) as (sc & Hs & Hc).
  exists sc. split_and!; [done..|]. unfold hidden_class_type. by rewrite Hs.
Qed.

Lemma dictionary_type K h p d : heap_inv env h K -> dictionaries h !! p = Some d ->
  structures h !! p = None /\ hidden_class_type h p = Some HcCacheableDictionary.
Proof.
  intros Hinv Hd. assert (structures h !! p = None) as Hn.
  { apply eq_None_not_Some. rewrite (hi_dom _ _ _ Hinv), (hi_disjoint _ _ _ Hinv) by eauto. by intros [? ?]. }
  split; [done|]. unfold hidden_class_type. by rewrite Hn, Hd.
Qed.

(** A structure made in a step is not an old dictionary. *)
Lemma structure_no_dictionary h K h' K' c i : stepped env h K h' K' -> K' !! c = Some i -> ~ is_Some (dictionaries h !! c).
Proof.
  intros Hst Hi Hd. rewrite <- (st_dicts _ _ _ _ _ Hst) in Hd.
  apply (hi_disjoint _ _ _ (ci_heap _ _ _ (st_inv _ _ _ _ _ Hst))) in Hd. congruence.
Qed.

(** ** Running on the hidden-class heap *)

Definition with_heap s (h : SysHeap) : St := mkSt (st_table s) h (st_heap s) (st_sparse s).

Lemma wp_on_heap {A} (m : MH A) s (Q : A -> St -> Prop) F :
  wp m (st_hc s) (fun a h => Q a (with_heap s h)) F -> wp (on_heap m) s Q F.
Proof. unfold wp, on_heap. by destruct (m (st_hc s)) as [[a h]| |]. Qed.

Lemma with_heap_same s : with_heap s (st_hc s) = s.
Proof. by destruct s. Qed.

(** ** Look-up *)

Lemma Structure_find_spec K h (sc : Structure) i isString key : heap_inv env h K -> class_ok env (anchors h) K sc i ->
  property_key isString key ->
  exists r, Structure_find env isString h sc key = Some r /\
    match r with Some v => at_slot (i_keys i) v = Some (GeneralHeapPointer key) | None => GeneralHeapPointer key ∉ i_keys i end.
Proof.
  intros Hinv Hc (Hu & _ & Hstr). destruct (lookup_user_key env h K Hinv sc i key Hc Hu) as (r & Hr & Hm).
  exists r. split; [|done]. unfold Structure_find. destruct isString; [|done].
  rewrite <- Hr. unfold GetSlotOrdinalFromStringProperty, GetSlotOrdinalFromMaybeNonStringProperty, GetHashValueForMaybeNonStringKey.
  by rewrite bool_decide_true by auto.
Qed.

Lemma key_hash isString key : property_key isString key ->
  (if isString then GetHashValueForStringKey env key else GetHashValueForMaybeNonStringKey env key) =
  hkey env (GeneralHeapPointer key).
Proof.
  intros (Hu & _ & Hstr). unfold hkey. rewrite (proj2 (user_key_spec key Hu)).
  destruct isString; [|done]. unfold GetHashValueForMaybeNonStringKey. by rewrite bool_decide_true by auto.
Qed.

Lemma Dictionary_find_spec d ks isString key : dict_ok env d ks -> property_key isString key ->
  exists r, Dictionary_find env isString d key = Some r /\
    match r with Some v => at_slot ks v = Some (GeneralHeapPointer key) | None => GeneralHeapPointer key ∉ ks end.
Proof.
  intros [(k & tb & Hsh & _) _] Hk. pose proof Hk as (Hu & _).
  unfold Dictionary_find, Dict_GetSlotOrdinalFromStringProperty, Dict_GetSlotOrdinalFromMaybeNonStringProperty.
  pose proof (lookup_spec env d ks k tb Hsh key _ Hu (key_hash isString key Hk)) as Hl.
  destruct Hl as [(slot & Hl & Hat)|(Hn & dist & e & _ & Hl)]; destruct isString; rewrite Hl; simpl; eauto.
Qed.
End props.
