(* ===== verification/NamedPut.v ===== *)
(** * Reading and writing named properties

    [RawGetById] reads the value of a key and [RawPutById] replaces it, in every
    mode of the hidden class: existing property, new slot of a structure with and
    without growth, transition to a dictionary, existing and new key of a
    dictionary with and without growth and rehash. *)

From S2P Require Import Prelude TValue MiscMath Machine TypeMask ArrayType Butterfly SparseMap HiddenClass TableObject TableArray Probing CheckedTable ClassHeap Structure Transition ClassInv ClassLookup ClassFrame ClassCreate ClassTransition ClassQuery ClassOps ClassView Dictionary TableClasses NamedProps NamedInv.

Section put.
Variable env : Env.
Hypothesis special_user : user_key (GetSpecialKeyForMetadataSlot env).
Notation St := (TableObject.St SysHeap).
Implicit Types (s : St) (t : TableObject).
Notation props := (props env).
Notation props_at := (props_at env).

(** ** Reading *)

Lemma slot_range K s v f mt slot x : props_at K s v f mt -> at_slot (pv_values v) slot = Some x ->
  0 <= slot < 2 ^ 31.
Proof.
  intros Hp Hat. pose proof (props_bounds env K s v f mt Hp) as []. destruct Hp as [_ _ Hst].
  pose proof (stored_length env _ _ _ Hst). apply at_slot_Some in Hat as [? Hat%lookup_lt_Some].
  unfold x_maxNumSlots, x_maxNamedStorageCapacity in *. pow2. lia.
Qed.

Lemma GetById_slot mh slot inl : 0 <= slot < 2 ^ 31 -> GetById (get_ic mh slot inl) = GetValueForSlot slot inl.
Proof.
  intros Hs. unfold get_ic, GetValueForSlot, GetById. destruct (slot <? inl); simpl; [|done].
  by rewrite wraps_small by (unfold in_i; pow2; lia).
Qed.

(** Reading a key through the slot the look-up found. *)
Lemma read_found K s v f mt key r mh none : props_at K s v f mt -> user_key key -> key <> GetSpecialKeyForMetadataSlot env ->
  match r with Some slot => at_slot (pv_keys v) slot = Some (GeneralHeapPointer key)
             | None => GeneralHeapPointer key ∉ pv_keys v end ->
  GetByIdICInfo.m_icKind none = GetByIdICInfo.MustBeNil \/ GetByIdICInfo.m_icKind none = GetByIdICInfo.MustBeNilButUncacheable ->
  wp (GetById (match r with Some slot => get_ic mh slot (pv_inline v) | None => none end)) s
    (fun x s' => x = f key /\ s' = s) False.
Proof.
  intros Hp Hu Hsp Hr Hnone. pose proof Hp as [_ _ [Hlay _ Hcont]]. pose proof (props_bounds env K s v f mt Hp) as [].
  specialize (Hcont key Hu Hsp). destruct r as [slot|].
  - pose proof (value_of_found _ _ _ _ _ cb_nodup Hr Hcont) as Hv.
    rewrite GetById_slot by (by eapply slot_range). eapply read_slot; done.
  - rewrite (value_of_absent _ _ _ _ Hr Hcont). unfold GetById. by destruct Hnone as [-> | ->]; apply wp_ret.
Qed.

Lemma RawGetById_spec s f mt isString key : props s f mt -> property_key env isString key ->
  wp (RawGetById env isString key) s (fun x s' => x = f key /\ s' = s) False.
Proof.
  intros (K & v & Hp) Hk. pose proof Hk as (Hu & Hsp & _). pose proof Hp as [[Hinv _] Hcl _].
  unfold RawGetById, PrepareGetById. apply wp_bind, wp_bind, wp_get_table. apply wp_on_heap.
  destruct Hcl as [[i Hi]|[d Hd]].
  - pose proof Hi as []. destruct (structure_type env K s i Hinv sv_info) as (sc & Hs & Hc & Ht).
    destruct (Structure_find_spec env K _ sc i isString key Hinv Hc Hk) as (r & Hr & Hm).
    eapply wp_query.
    { unfold PrepareGetByIdImpl, PrepareGetByIdImplForStructure. rewrite Ht. cbn [mbind option_bind]. rewrite Hs. cbn [mbind option_bind].
      rewrite Hr. done. }
    rewrite with_heap_same, (cl_inline _ _ _ _ _ Hc), <- sv_inline. rewrite <- sv_keys in Hm.
    eapply read_found; try done. by left.
  - pose proof Hd as []. destruct (dictionary_type env K _ _ d Hinv dv_info) as [_ Ht].
    destruct (Dictionary_find_spec env d _ isString key dv_ok Hk) as (r & Hr & Hm).
    eapply wp_query.
    { unfold PrepareGetByIdImpl, PrepareGetByIdImplForCacheableDictionary. rewrite Ht. cbn [mbind option_bind]. rewrite dv_info. cbn [mbind option_bind].
      rewrite Hr. done. }
    rewrite with_heap_same, <- dv_inline. eapply read_found; try done. by right.
Qed.

(** ** What a write changes *)

(** Everything apart from the named properties, the metatable and the hidden class
    of the table: the array part, the user heap, the other hidden classes; and the
    table does not get hold of the dictionary of another table. *)
Record undisturbed (K : Classes) s (v : PV) (K' : Classes) s' (v' : PV) : Prop := {
  un_classes : K ⊆ K';
  un_array : pv_len v' = pv_len v /\ pv_cap v' = pv_cap v /\ pv_vec v' = pv_vec v;
  un_type : SetMayHaveMetatable (m_arrayType (st_table s')) false = SetMayHaveMetatable (m_arrayType (st_table s)) false;
  un_heap : st_heap s' = st_heap s /\ st_sparse s' = st_sparse s;
  un_dicts : forall q d, q <> m_hiddenClass (st_table s) -> dictionaries (st_hc s) !! q = Some d ->
    dictionaries (st_hc s') !! q = Some d;
  un_owner : is_Some (dictionaries (st_hc s) !! m_hiddenClass (st_table s')) -> m_hiddenClass (st_table s') = m_hiddenClass (st_table s)
}.

(** The result of an operation on the table with the parts [v]. *)
Definition becomes K s v (f : Z -> Z) (mt : Z) s' : Prop :=
  exists K' v', props_at K' s' v' f mt /\ undisturbed K s v K' s' v'.

Definition with_keys (v : PV) (ks : list Z) (bf : Z) (vs : list Z) : PV :=
  mkPV ks (pv_inline v) bf vs (pv_len v) (pv_cap v) (pv_vec v).

Lemma key_eqb k key : user_key k -> user_key key -> (GeneralHeapPointer k =? GeneralHeapPointer key) = (k =? key).
Proof.
  intros Hk Hkey. destruct (Z.eqb_spec k key) as [->|Hne]; [by rewrite Z.eqb_refl|].
  destruct (Z.eqb_spec (GeneralHeapPointer k) (GeneralHeapPointer key)) as [He|]; [|done].
  destruct Hne. rewrite <- (proj2 (user_key_spec k Hk)), <- (proj2 (user_key_spec key Hkey)). by f_equal.
Qed.

(** Writing the slot of an existing key. *)
Lemma stored_write t t' v f key slot x : stored env t v f -> class_bounds v -> user_key key ->
  at_slot (pv_keys v) slot = Some (GeneralHeapPointer key) ->
  layout t' (pv_inline v) (pv_butterfly v) (<[Z.to_nat slot := x]> (pv_values v)) (pv_len v) (pv_cap v) (pv_vec v) ->
  stored env t' (with_keys v (pv_keys v) (pv_butterfly v) (<[Z.to_nat slot := x]> (pv_values v))) (write f key x).
Proof.
  intros Hst [] Hu Hat Hlay. pose proof (stored_length env _ _ _ Hst). destruct Hst as [_ Hr Hc].
  pose proof (at_slot_Some _ _ _ Hat) as [H0 Hlt%lookup_lt_Some].
  split; simpl; [done|apply rest_nil_write; [lia|done]|].
  intros k Hk Hs. unfold write. rewrite <- (key_eqb k key) by done. apply value_of_write; [done|done|lia|by apply Hc].
Qed.

(** A new key in the next slot. *)
Lemma stored_append t v f g : stored env t v f -> class_bounds v -> g ∉ pv_keys v ->
  Z.of_nat (length (pv_keys v)) < pv_inline v + pv_butterfly v ->
  stored env t (with_keys v (pv_keys v ++ [g]) (pv_butterfly v) (pv_values v)) f.
Proof.
  intros Hst Hb Hn Hlt. pose proof (stored_length env _ _ _ Hst). destruct Hst as [Hl Hr Hc].
  split; simpl; [done|by apply rest_nil_append|]. intros k Hk Hs. apply value_of_append; [done|done|lia|by apply Hc].
Qed.

(** Growing the outlined storage. *)
Lemma stored_grow t t' v f c : stored env t v f ->
  layout t' (pv_inline v) c (pv_values v ++ replicate (Z.to_nat (c - pv_butterfly v)) Nil) (pv_len v) (pv_cap v) (pv_vec v) ->
  stored env t' (with_keys v (pv_keys v) c (pv_values v ++ replicate (Z.to_nat (c - pv_butterfly v)) Nil)) f.
Proof.
  intros [_ Hr Hc] Hl. split; simpl; [done|by apply rest_nil_grow|].
  intros k Hk Hs. by apply value_of_grow, Hc.
Qed.

Lemma struct_metatable_agree i i' vs vs' : i_metatable i' = i_metatable i ->
  (0 < i_metatable i -> at_slot vs' (i_metatable i - 1) = at_slot vs (i_metatable i - 1)) ->
  struct_metatable i' vs' = struct_metatable i vs.
Proof.
  intros Hm Hat. unfold struct_metatable. rewrite Hm. destruct (Z.ltb_spec 0 (i_metatable i)); [|done]. by rewrite Hat.
Qed.

(** The slot of another key than the special one is not that of the metatable. *)
Lemma not_metatable_slot A K sc i slot key : class_ok env A K sc i -> user_key key -> key <> GetSpecialKeyForMetadataSlot env ->
  at_slot (i_keys i) slot = Some (GeneralHeapPointer key) -> 0 < i_metatable i -> slot <> i_metatable i - 1.
Proof.
  intros Hc Hu Hs Hat Hm ->. destruct (cl_poly _ _ _ _ _ Hc) as [(? & _)|[_ Hp]]; [lia|].
  rewrite Hat in Hp. injection Hp as Hp. by apply (special_key_neq env special_user key Hu Hs).
Qed.

Lemma at_slot_insert_ne {E} (l : list E) a b x : 0 <= a -> a <> b -> at_slot (<[Z.to_nat a := x]> l) b = at_slot l b.
Proof.
  intros Ha Hne. unfold at_slot. destruct (Z.leb_spec 0 b); [|done]. apply list_lookup_insert_ne. lia.
Qed.

Lemma at_slot_app {E} (l l' : list E) a : a < Z.of_nat (length l) -> at_slot (l ++ l') a = at_slot l a.
Proof. intros Ha. unfold at_slot. destruct (Z.leb_spec 0 a); [|done]. apply lookup_app_l. lia. Qed.

(** ** Existing properties *)

Lemma PutById_slot_exists prop x mh slot inl c : 0 <= slot < 2 ^ 31 -> forall s Q F,
  wp (write_slot slot inl x) s Q F -> wp (PutById env prop x (put_ic true false mh slot inl c)) s Q F.
Proof.
  intros Hs s Q F. unfold put_ic, write_slot, PutById. destruct (slot <? inl); simpl.
  - rewrite wraps_small by (unfold in_i; pow2; lia). intros H. apply wp_bind, wp_ret. exact H.
  - intros H. apply wp_bind, wp_ret. exact H.
Qed.

(** Only the value of a slot changes. *)
Record overwrites (K : Classes) s (v : PV) (f : Z -> Z) (mt key slot x : Z) s' : Prop := {
  ow_props : props_at K s' (with_keys v (pv_keys v) (pv_butterfly v) (<[Z.to_nat slot := x]> (pv_values v))) (write f key x) mt;
  ow_hc : st_hc s' = st_hc s;
  ow_class : m_hiddenClass (st_table s') = m_hiddenClass (st_table s);
  ow_type : m_arrayType (st_table s') = m_arrayType (st_table s);
  ow_heap : st_heap s' = st_heap s;
  ow_sparse : st_sparse s' = st_sparse s
}.

Lemma overwrites_becomes K s v f mt key slot x s' : overwrites K s v f mt key slot x s' -> becomes K s v (write f key x) mt s'.
Proof. intros []. eexists K, _. split; [exact ow_props0|]. split; simpl; try done; congruence. Qed.

Lemma put_overwrites K s v f mt key slot x mh c prop : props_at K s v f mt -> user_key key -> key <> GetSpecialKeyForMetadataSlot env ->
  at_slot (pv_keys v) slot = Some (GeneralHeapPointer key) ->
  wp (PutById env prop x (put_ic true false mh slot (pv_inline v) c)) s (fun _ s' => overwrites K s v f mt key slot x s') False.
Proof.
  intros Hp Hu Hs Hat. pose proof (props_bounds env K s v f mt Hp) as Hb. pose proof Hb as []. pose proof Hp as [Hci Hcl Hst].
  pose proof (at_slot_Some _ _ _ Hat) as [H0 Hlt%lookup_lt_Some].
  apply PutById_slot_exists; [unfold x_maxNumSlots, x_maxNamedStorageCapacity in *; pow2; lia|].
  eapply write_slot_spec; [apply Hst|done|done|lia|]. intros t Hlay Hhc Hat'. split; try done.
  split; [done| |by apply (stored_write (st_table s))].
  destruct Hcl as [[i Hi]|[d Hd]]; [left; exists i|right; exists d].
  - destruct Hi. destruct (structure_type env K s i (ci_heap _ _ _ Hci) sv_info) as (sc & _ & Hc & _).
    assert (0 < i_metatable i -> at_slot (<[Z.to_nat slot := x]> (pv_values v)) (i_metatable i - 1) =
      at_slot (pv_values v) (i_metatable i - 1)) as Hagree.
    { intros Hm. apply at_slot_insert_ne; [lia|]. rewrite sv_keys in Hat. by eapply not_metatable_slot. }
    split; simpl; rewrite ?Hhc, ?Hat'; try done.
    + rewrite sv_metatable. symmetry. by apply struct_metatable_agree.
    + intros Hm y. rewrite Hagree by done. by apply sv_poly.
  - destruct Hd. by split; simpl; rewrite ?Hhc, ?Hat'.
Qed.

Lemma put_existing K s v f mt key slot x mh c prop : props_at K s v f mt -> user_key key -> key <> GetSpecialKeyForMetadataSlot env ->
  at_slot (pv_keys v) slot = Some (GeneralHeapPointer key) ->
  wp (PutById env prop x (put_ic true false mh slot (pv_inline v) c)) s (fun _ s' => becomes K s v (write f key x) mt s') False.
Proof.
  intros Hp Hu Hs Hat. eapply wp_mono; [by apply put_overwrites| |done]. intros ? s'. apply overwrites_becomes.
Qed.

(** ** A new slot of a structure *)

(** The growth step of the functions that add a slot: nothing happens when the
    capacity does not change. *)
Lemma maybe_grow_spec (grow : bool) (m : MT unit) s t v f c (Q : unit -> St -> Prop) F : stored env (st_table s) v f ->
  class_bounds v -> t = st_table s -> pv_butterfly v <= c <= x_maxNamedStorageCapacity ->
  grow = bool_decide (pv_butterfly v < c) ->
  (grow = true -> forall Q', wp (TableObject_GrowButterflyKnowingNamedStorageCapacity (pv_butterfly v) c) s Q' F -> wp m s Q' F) ->
  (forall t', stored env t' (with_keys v (pv_keys v) c (pv_values v ++ replicate (Z.to_nat (c - pv_butterfly v)) Nil)) f ->
     m_hiddenClass t' = m_hiddenClass t -> m_arrayType t' = m_arrayType t -> Q tt (with_table s t')) ->
  wp (if grow then m else mret tt) s Q F.
Proof.
  intros Hst [] -> Hc -> Hm HQ. case_bool_decide as Hlt.
  - apply Hm; [done|]. eapply grow_spec; [apply Hst|done|done|].
    intros t' Hl Hh Ha. apply HQ; [by eapply stored_grow|done|done].
  - apply wp_ret. assert (c = pv_butterfly v) as -> by lia.
    assert (with_table s (st_table s) = s) as <- by (by destruct s). apply HQ; [|done|done].
    rewrite Z.sub_diag, app_nil_r. destruct Hst. by split.
Qed.

#[local] Instance named_ops : HiddenClassOps SysHeap := sys_ops env.

Lemma GrowButterfly_known s c Q F old :
  hc_butterflyNamedStorageCapacity (st_hc s) (m_hiddenClass (st_table s)) = old ->
  wp (TableObject_GrowButterflyKnowingNamedStorageCapacity old c) s Q F -> wp (GrowButterfly true c) s Q F.
Proof. intros <-. done. Qed.

Definition new_slot_code (grow : bool) (c slot inl x : Z) : MT unit :=
  (if grow then newStructure ← on_heap (load_structure c); GrowButterfly true (s_butterflyNamedStorageCapacity newStructure)
   else mret tt);;
  set_hiddenClass c;;
  write_slot slot inl x.

Lemma PutById_slot_new prop x grow mh slot inl c : 0 <= slot < 2 ^ 31 -> forall s Q F,
  wp (new_slot_code grow c slot inl x) s Q F -> wp (PutById env prop x (put_ic false grow mh slot inl c)) s Q F.
Proof.
  intros Hs s Q F. unfold put_ic, new_slot_code, write_slot, PutById, wp.
  destruct (slot <? inl); cbn [PutByIdICInfo.m_icKind PutByIdICInfo.m_propertyExists PutByIdICInfo.m_shouldGrowButterfly
    PutByIdICInfo.m_newStructure PutByIdICInfo.m_slot negb].
  - rewrite (wraps_small 32 slot) by (unfold in_i; pow2; lia). by rewrite bind_assoc.
  - by rewrite bind_assoc.
Qed.

Lemma set_hiddenClass_spec s c (Q : unit -> St -> Prop) F :
  Q tt (with_table s (mkTable c (m_arrayType (st_table s)) (m_butterfly (st_table s)) (m_inlineStorage (st_table s)))) ->
  wp (set_hiddenClass c) s Q F.
Proof. done. Qed.

Lemma set_arrayType_spec s a (Q : unit -> St -> Prop) F :
  Q tt (with_table s (mkTable (m_hiddenClass (st_table s)) a (m_butterfly (st_table s)) (m_inlineStorage (st_table s)))) ->
  wp (set_arrayType a) s Q F.
Proof. done. Qed.

(** A structure with one more key. *)
Lemma added_view K' h2 t t' v mt i g c x bf' vs' : heap_inv env h2 K' -> structure_view K' t v mt i ->
  K' !! c = Some (add_info env (m_hiddenClass t) i AddSlotForProperty g) ->
  m_hiddenClass t' = c -> m_arrayType t' = m_arrayType t -> bf' = i_butterfly (add_info env (m_hiddenClass t) i AddSlotForProperty g) ->
  vs' = <[Z.to_nat (i_count i) := x]> (pv_values v ++ replicate (Z.to_nat (bf' - pv_butterfly v)) Nil) ->
  Z.of_nat (length (pv_values v)) = pv_inline v + pv_butterfly v ->
  structure_view K' t' (with_keys v (pv_keys v ++ [g]) bf' vs') mt (add_info env (m_hiddenClass t) i AddSlotForProperty g).
Proof.
  intros Hinv Hv Hc Ht' Ha -> -> Hlen. pose proof (structure_bounds env h2 K' t v mt i Hinv Hv) as [_ _ _ _ Hcap].
  destruct Hv. destruct (inv_structure env h2 K' Hinv _ i sv_info) as (sc & _ & Hcl).
  assert (0 < i_metatable i -> i_metatable i - 1 < i_count i) as Hpoly.
  { intros Hm. destruct (cl_poly _ _ _ _ _ Hcl) as [(? & _)|[_ Hat]]; [lia|].
    apply at_slot_Some in Hat as [_ Hat%lookup_lt_Some]. unfold i_count. lia. }
  assert (forall j, j < i_count i -> at_slot (<[Z.to_nat (i_count i) := x]> (pv_values v ++
    replicate (Z.to_nat (i_butterfly (add_info env (m_hiddenClass t) i AddSlotForProperty g) - pv_butterfly v)) Nil)) j =
    at_slot (pv_values v) j) as Hold.
  { intros j Hj. rewrite at_slot_insert_ne by (unfold i_count in *; lia). apply at_slot_app.
    rewrite sv_keys in Hcap. unfold i_count in Hj. lia. }
  split; simpl.
  - by rewrite Ht'.
  - by rewrite sv_keys.
  - done.
  - done.
  - rewrite sv_metatable. symmetry. apply struct_metatable_agree; [done|]. intros Hm. apply Hold. lia.
  - by rewrite Ha.
  - intros Hm y Hy. rewrite Hold in Hy by lia. by eapply sv_poly.
Qed.

(** The capacity of the new structure, and whether it grows. *)
Lemma added_capacity A K sc i p g : class_ok env A K sc i -> i_count i < x_maxNumSlots ->
  let i' := add_info env p i AddSlotForProperty g in
  i_butterfly i <= i_butterfly i' <= x_maxNamedStorageCapacity /\ i_count i + 1 <= i_inline i + i_butterfly i' /\
  bool_decide (i_kind i' = AddPropertyAndGrowPropertyStorageCapacity) = bool_decide (i_butterfly i < i_butterfly i').
Proof.
  intros Hc Hn. cbv zeta. pose proof (expansion_grows env A K sc i Hc ltac:(unfold x_maxNumSlots in *; lia)) as Hg.
  pose proof Hc as []. pose proof (expansion_capacity (i_count i) (i_inline i) (i_butterfly i) cl_inline_range ltac:(lia) cl_capacity) as Hcap.
  unfold x_maxNumSlots, x_maxNamedStorageCapacity in *. simpl in *.
  destruct (expansion_of (i_count i) (i_inline i) (i_butterfly i)) as [e|]; simpl in *.
  - specialize (Hg e eq_refl). rewrite !bool_decide_true by (done || lia). split_and!; try lia; done.
  - rewrite !bool_decide_false by (done || lia). split_and!; try lia; done.
Qed.

Lemma put_new_slot K s v f mt i h2 K' c key x mh prop : props_at K s v f mt -> structure_view K (st_table s) v mt i ->
  user_key key -> key <> GetSpecialKeyForMetadataSlot env -> GeneralHeapPointer key ∉ i_keys i -> i_count i < x_maxNumSlots ->
  stepped env (st_hc s) K h2 K' ->
  K' !! c = Some (add_info env (m_hiddenClass (st_table s)) i AddSlotForProperty (GeneralHeapPointer key)) ->
  wp (PutById env prop x (put_ic false
        (bool_decide (i_kind (add_info env (m_hiddenClass (st_table s)) i AddSlotForProperty (GeneralHeapPointer key)) =
           AddPropertyAndGrowPropertyStorageCapacity)) mh (i_count i) (pv_inline v) c)) (with_heap s h2)
    (fun _ s' => becomes K s v (write f key x) mt s') False.
Proof.
  intros Hp Hv Hu Hsp Hnew Hlt Hst Hc. pose proof (props_bounds env K s v f mt Hp) as Hb. pose proof Hp as [_ _ Hsto].
  pose proof Hst as [HK _ [Hinv2 _] _ Hd]. set (i' := add_info _ _ _ _ _) in *.
  pose proof Hv as []. assert (K' !! m_hiddenClass (st_table s) = Some i) as Hi' by (by eapply lookup_weaken).
  destruct (inv_structure env h2 K' Hinv2 _ i Hi') as (sc & Hs & Hcl).
  destruct (inv_structure env h2 K' Hinv2 c i' Hc) as (sc' & Hs' & Hcl').
  destruct (added_capacity _ _ _ _ (m_hiddenClass (st_table s)) (GeneralHeapPointer key) Hcl Hlt) as (Hcap & Hroom & Hkind).
  fold i' in Hcap, Hroom, Hkind. rewrite Hkind.
  assert (0 <= i_count i) as Hcount by apply count_nonneg.
  apply PutById_slot_new; [unfold x_maxNumSlots in *; pow2; lia|]. unfold new_slot_code. rewrite <- sv_butterfly in *.
  apply wp_bind. eapply (maybe_grow_spec _ _ (with_heap s h2) (st_table s) v f (i_butterfly i')); try done.
  { intros _ Q' HQ'. apply wp_bind, wp_on_heap. eapply wp_load_structure; [done|].
    rewrite (cl_butterfly _ _ _ _ _ Hcl'). eapply (GrowButterfly_known _ _ _ _ (pv_butterfly v)); [|exact HQ'].
    simpl. by rewrite Hs, (cl_butterfly _ _ _ _ _ Hcl). }
  intros t1 Hst1 Hh1 Ha1. apply wp_bind, set_hiddenClass_spec.
  pose proof (stored_length env _ _ _ Hst1) as Hl1. pose proof (stored_length env _ _ _ Hsto) as Hl0. cbn [pv_values pv_inline pv_butterfly with_keys] in Hl1.
  assert (class_bounds (with_keys v (pv_keys v) (i_butterfly i')
    (pv_values v ++ replicate (Z.to_nat (i_butterfly i' - pv_butterfly v)) Nil))) as Hb1 by (destruct Hb; split; cbn [with_keys pv_keys pv_inline pv_butterfly]; try done; lia).
  eapply write_slot_spec; [apply Hst1|apply Hb|by apply Hb1|cbn [with_keys pv_inline pv_butterfly]; rewrite sv_inline; lia|].
  intros t2 Hl2 Hh2 Ha2. cbn [with_keys pv_inline pv_butterfly pv_values pv_len pv_cap pv_vec] in *.
  assert (structure_view K' t2 (with_keys v (pv_keys v ++ [GeneralHeapPointer key]) (i_butterfly i')
    (<[Z.to_nat (i_count i) := x]> (pv_values v ++ replicate (Z.to_nat (i_butterfly i' - pv_butterfly v)) Nil))) mt i') as Hview.
  { eapply (added_view K' h2 (st_table s) t2 v mt i); try done. by rewrite Ha2. }
  assert (i_count i = Z.of_nat (length (pv_keys v))) as Hcnt by (unfold i_count; by rewrite sv_keys).
  exists K'. eexists. split.
  - split; [by apply Hst|left; eexists; exact Hview|].
    eapply (stored_write t1 t2 (with_keys v (pv_keys v ++ [GeneralHeapPointer key]) (i_butterfly i')
      (pv_values v ++ replicate (Z.to_nat (i_butterfly i' - pv_butterfly v)) Nil))); [|by eapply structure_bounds in Hview as []|done| |done].
    + apply (stored_append t1 (with_keys v (pv_keys v) (i_butterfly i') _)); try done; cbn [with_keys pv_keys pv_inline pv_butterfly]; [by rewrite sv_keys|].
      rewrite sv_inline. lia.
    + cbn [with_keys pv_keys]. rewrite Hcnt, at_slot_nat. by apply list_lookup_middle.
  - split; try done; simpl; [rewrite Ha2; simpl; by rewrite Ha1|intros q d _ Hq; by rewrite Hd|].
    assert (m_hiddenClass t2 = c) as -> by apply Hh2. intros Hx. destruct (structure_no_dictionary env _ _ _ _ c i' Hst Hc Hx).
Qed.

(** ** Dictionaries *)

Lemma classes_inv_dictionary h K p d : classes_inv env h K -> allocated h p -> K !! p = None ->
  classes_inv env (with_dictionaries h (<[p := d]> (dictionaries h))) K.
Proof.
  intros [[] Hm Hg] Ha Hp. split; [|exact Hm|exact Hg]. split; try done.
  - by destruct hi_sys; split.
  - intros q. simpl. destruct (decide (p = q)) as [<-|]; [by intros _|]. rewrite lookup_insert_ne by done. apply hi_addr_d.
  - intros q. simpl. destruct (decide (p = q)) as [<-|]; [by intros _|]. rewrite lookup_insert_ne by done. apply hi_disjoint.
Qed.

Lemma set_dictionary_twice h p d d' : with_dictionaries (with_dictionaries h (<[p := d]> (dictionaries h)))
  (<[p := d']> (dictionaries (with_dictionaries h (<[p := d]> (dictionaries h))))) =
  with_dictionaries h (<[p := d']> (dictionaries h)).
Proof. unfold with_dictionaries. simpl. by rewrite insert_insert_eq. Qed.

(** The code that follows a growth decision of a dictionary. *)
Definition dictionary_grow_code (dict : Z) (res : PutByIdResult) : MT unit :=
  d ← on_heap (load_dictionary dict);
  newCapacity ← access (pr_newButterflyCapacity res);
  TableObject_GrowButterflyKnowingNamedStorageCapacity (d_butterflyNamedStorageCapacity d) newCapacity;;
  on_heap (store_dictionary dict (d_set_butterfly d newCapacity)).

Lemma dictionary_grow_spec s v f d' res ks g (Q : unit -> St -> Prop) F d : let p := m_hiddenClass (st_table s) in
  stored env (st_table s) v f -> class_bounds v -> dictionaries (st_hc s) !! p = Some d' ->
  put_post env d ks g res d' -> pv_butterfly v = d_butterflyNamedStorageCapacity d ->
  (forall t', let c := default (pv_butterfly v) (pr_newButterflyCapacity res) in
     stored env t' (with_keys v (pv_keys v) c (pv_values v ++ replicate (Z.to_nat (c - pv_butterfly v)) Nil)) f ->
     m_hiddenClass t' = p -> m_arrayType t' = m_arrayType (st_table s) ->
     Q tt (mkSt t' (with_dictionaries (st_hc s) (<[p := d_set_butterfly d' c]> (dictionaries (st_hc s)))) (st_heap s) (st_sparse s))) ->
  wp (if pr_shouldGrowButterfly res then dictionary_grow_code p res else mret tt) s Q F.
Proof.
  intros p Hst Hb Hd [_ (mask & tb & ->) _ Hsome Hcap _] Hbf HQ. cbv zeta in HQ. rewrite Hsome.
  destruct (pr_newButterflyCapacity res) as [c|] eqn:Ec; simpl in *.
  - unfold dictionary_grow_code. apply wp_bind, wp_on_heap. eapply wp_load_dictionary; [done|]. apply wp_bind.
    rewrite Ec. eapply wp_access; [done|]. apply wp_bind. simpl. rewrite <- Hbf. specialize (Hcap c eq_refl).
    rewrite with_heap_same. eapply grow_spec; [apply Hst|apply Hb|lia|]. intros t' Hl Hh Ha.
    apply wp_on_heap, wp_store_dictionary. simpl. apply HQ; [by eapply stored_grow|done|done].
  - apply wp_ret. specialize (HQ (st_table s)). rewrite Z.sub_diag, app_nil_r in HQ.
    rewrite insert_id in HQ.
    + replace (mkSt _ _ _ _) with s in HQ by (destruct s as [? [] ? ?]; done). apply HQ; [|done|done].
      destruct Hst. by split.
    + rewrite Hd. f_equal. unfold d_set_butterfly, d_set_table. simpl. by rewrite Hbf.
Qed.

Definition dictionary_full s : Prop := exists d, dictionaries (st_hc s) !! m_hiddenClass (st_table s) = Some d /\
  d_slotCount d = d_capacity d /\ d_butterflyNamedStorageCapacity d = x_maxNamedStorageCapacity.

(** The preparation of a put makes the key exist, with the same value as before. *)
Lemma prepare_dictionary K s v f mt d isString key : props_at K s v f mt -> dictionary_view env (st_hc s) (st_table s) v mt d ->
  property_key env isString key ->
  wp (PreparePutByIdForCacheableDictionary env isString (m_hiddenClass (st_table s)) key) s
    (fun ic s1 => exists v1 slot, ic = put_ic true false (negb (mt =? 0)) slot (pv_inline v1) 0 /\ props_at K s1 v1 f mt /\
       at_slot (pv_keys v1) slot = Some (GeneralHeapPointer key) /\ undisturbed K s v K s1 v1 /\
       m_hiddenClass (st_table s1) = m_hiddenClass (st_table s)) (dictionary_full s).
Proof.
  intros Hp Hd Hk. pose proof Hk as (Hu & Hsp & _). pose proof (props_bounds env K s v f mt Hp) as Hb.
  pose proof Hp as [Hci _ Hsto]. pose proof Hd as []. set (p := m_hiddenClass (st_table s)) in *.
  assert (allocated (st_hc s) p) as Hal by (eapply hi_addr_d; [apply Hci|by eexists]).
  assert (K !! p = None) as Hpn by (eapply hi_disjoint; [apply Hci|by eexists]).
  unfold PreparePutByIdForCacheableDictionary. apply wp_bind, wp_on_heap.
  apply (wp_fail_mono _ _ _ (Z.of_nat (length (pv_keys v)) = d_capacity d /\ d_butterflyNamedStorageCapacity d = x_maxNamedStorageCapacity)).
  { intros [Hf1 Hf2]. exists d. split_and!; [done| |done]. destruct dv_ok as [(? & ? & [] & _) _]. congruence. }
  assert ((if isString then Dict_PreparePutById env p key else PreparePutByMaybeNonStringKey env p key) =
    PreparePutPropertyImpl env p key (hkey env (GeneralHeapPointer key))) as ->.
  { rewrite <- (key_hash env isString key Hk). by destruct isString. }
  eapply PreparePutPropertyImpl_spec; [done|done|done|done|by apply special_key_neq|].
  intros res d' Hpost. set (h1 := with_dictionaries _ _).
  apply wp_bind.
  eapply (dictionary_grow_spec (with_heap s h1) v f d' res (pv_keys v)); try done; [by apply lookup_insert_eq|].
  cbv zeta. set (c := default _ _). intros t' Hsto' Hh' Ha'.
  apply wp_bind, wp_on_heap. eapply wp_load_dictionary; [by apply lookup_insert_eq|]. apply wp_ret. simpl.
  unfold h1. rewrite set_dictionary_twice. fold p.
  destruct Hpost as [Hslot (mask & tb & ->) _ _ _ Hok]. rewrite <- dv_butterfly in Hok. fold c in Hok.
  pose proof (cb_nodup v Hb).
  pose (v1 := with_keys v (keys_with (pv_keys v) (GeneralHeapPointer key)) c
    (pv_values v ++ replicate (Z.to_nat (c - pv_butterfly v)) Nil)).
  exists v1, (pr_slot res). cbn [d_metatable d_inlineNamedStorageCapacity d_set_butterfly d_set_table].
  rewrite <- dv_inline, dv_metatable. split; [done|].
  set (d2 := d_set_butterfly _ c) in *.
  assert (dictionary_view env (with_dictionaries (st_hc s) (<[p := d2]> (dictionaries (st_hc s)))) t' v1 mt d2) as Hview.
  { split; simpl; try done; [rewrite Hh'; by apply lookup_insert_eq|by rewrite Ha'|by rewrite Ha']. }
  split_and!.
  - rewrite <- dv_metatable. split; [by apply classes_inv_dictionary|right; eexists; exact Hview|].
    pose proof (dictionary_bounds env _ _ _ _ _ Hview) as Hb1. unfold v1 in *. unfold keys_with in *.
    case_bool_decide; [done|].
    apply (stored_append t' (with_keys v (pv_keys v) c _)); [done| |done|].
    + destruct Hb, Hb1. split; cbn [with_keys pv_keys pv_inline pv_butterfly] in *; try done. rewrite length_app in *. simpl in *. lia.
    + destruct Hb1. cbn [with_keys pv_keys pv_inline pv_butterfly] in *. rewrite length_app in *. simpl in *. lia.
  - done.
  - split; simpl; try done; [by rewrite Ha'|]. intros q dq Hq Hdq. by rewrite lookup_insert_ne.
  - done.
Qed.
End put.
