(* ===== verification/NamedTransition.v ===== *)
(** * From a structure to a dictionary, and [RawPutById]

    The put that finds its structure full makes a dictionary for the table
    ([PutByIdTransitionToDictionaryImpl]); then the theorem on a put in every
    mode. *)

From S2P Require Import Prelude TValue MiscMath Machine TypeMask ArrayType Butterfly SparseMap HiddenClass TableObject TableArray Probing CheckedTable ClassHeap Structure Transition ClassInv ClassLookup ClassFrame ClassCreate ClassTransition ClassQuery ClassOps ClassView Dictionary TableClasses NamedProps NamedInv NamedPut.

(** ** A metatable in a slot *)

Lemma pointer_value m : user_key m -> IsNil (CreatePointer m) = false /\ IsPointer (CreatePointer m) = true /\
  AsPointer (CreatePointer m) = m.
Proof.
  intros [Hr _]. assert (LuaValue_valid (LPointer m) = true) as Hv.
  { simpl. unfold x_vmBaseOffset, x_vmUserHeapSize in Hr. change (Z.shiftl 16 30) with 17179869184 in Hr.
    change (Z.shiftl 12 30) with 12884901888 in Hr.
    destruct (Z.leb_spec (- 2 ^ 34) m), (Z.ltb_spec m (- 2 ^ 32)); [done|pow2; lia..]. }
  pose proof (tests_pointer m Hv) as Ht. unfold tag_tests in Ht. injection Ht as _ _ _ Hp.
  split_and!; [|done|by apply AsPointer_CreatePointer].
  unfold IsNil. destruct (Z.eqb_spec (CreatePointer m) Nil) as [E|]; [|done]. rewrite E in Hp. by vm_compute in Hp.
Qed.

Lemma metatable_value_pointer m : user_key m -> metatable_value (CreatePointer m) = m.
Proof. intros Hm. unfold metatable_value. by destruct (pointer_value m Hm) as (-> & _ & ->). Qed.

#[export] Instance PutByIdICKind_eq_dec : EqDecision PutByIdICInfo.ICKind.
Proof. solve_decision. Defined.

Section transit.
Variable env : Env.
Hypothesis special_user : user_key (GetSpecialKeyForMetadataSlot env).
Notation St := (TableObject.St SysHeap).
Implicit Types (s : St) (t : TableObject).
Notation props := (props env).
Notation props_at := (props_at env).

Lemma GetPolyMetatable_spec s v f slot x : stored env (st_table s) v f -> class_bounds v ->
  at_slot (pv_values v) slot = Some x -> metatable_slot_ok x ->
  wp (GetPolyMetatableFromObjectWithStructureHiddenClass slot (pv_inline v)) s
    (fun m s' => m = metatable_value x /\ s' = s) False.
Proof.
  intros Hst [] Hat Hok. unfold GetPolyMetatableFromObjectWithStructureHiddenClass. apply wp_bind.
  eapply read_slot; [apply Hst|done|done|done|]. unfold metatable_value.
  destruct Hok as [->|(m & Hm & ->)]; [by apply wp_ret|]. destruct (pointer_value m Hm) as (-> & -> & _). by apply wp_ret.
Qed.

Lemma poly_metatable_of_spec s v f slot x : stored env (st_table s) v f -> class_bounds v ->
  at_slot (pv_values v) slot = Some x -> metatable_slot_ok x ->
  poly_metatable_of s slot (pv_inline v) = Some (metatable_value x).
Proof.
  intros Hst Hb Hat Hok. pose proof (GetPolyMetatable_spec s v f slot x Hst Hb Hat Hok) as Hw.
  unfold poly_metatable_of. apply wp_returns in Hw as (m & s' & -> & -> & _). done.
Qed.

(** The slot of the metatable of a poly structure. *)
Lemma poly_slot K s v f mt i : props_at K s v f mt -> structure_view K (st_table s) v mt i -> 0 < i_metatable i ->
  exists x, at_slot (pv_values v) (i_metatable i - 1) = Some x /\ metatable_slot_ok x /\ mt = metatable_value x /\
    at_slot (i_keys i) (i_metatable i - 1) = Some (special env).
Proof.
  intros Hp [] Hm. pose proof Hp as [Hci _ Hst]. pose proof (props_bounds env K s v f mt Hp) as [].
  pose proof (stored_length env _ _ _ Hst) as Hlen.
  destruct (structure_type env K s i (ci_heap _ _ _ Hci) sv_info) as (sc & _ & Hc & _).
  destruct (cl_poly _ _ _ _ _ Hc) as [(? & _)|[_ Hat]]; [lia|]. pose proof (at_slot_Some _ _ _ Hat) as [H0 Hl%lookup_lt_Some].
  rewrite sv_keys in cb_capacity.
  destruct (lookup_lt_is_Some_2 (pv_values v) (Z.to_nat (i_metatable i - 1)) ltac:(lia)) as [x Hx].
  assert (at_slot (pv_values v) (i_metatable i - 1) = Some x) as Hs.
  { unfold at_slot. by destruct (Z.leb_spec 0 (i_metatable i - 1)); [|lia]. }
  exists x. split_and!; [done|by apply sv_poly| |done].
  rewrite sv_metatable. unfold struct_metatable. destruct (Z.ltb_spec 0 (i_metatable i)); [|lia]. by rewrite Hs.
Qed.

Lemma transition_metatable_spec K s v f mt i : props_at K s v f mt -> structure_view K (st_table s) v mt i ->
  transition_metatable i (poly_metatable_of s (transition_slot i) (i_inline i)) = Some mt.
Proof.
  intros Hp Hv. pose proof Hp as [_ _ Hst]. pose proof (props_bounds env K s v f mt Hp) as Hb.
  unfold transition_metatable, transition_slot. destruct (Z.ltb_spec 0 (i_metatable i)) as [Hm|Hm].
  - destruct (poly_slot K s v f mt i Hp Hv Hm) as (x & Hx & Hok & -> & _). rewrite <- (sv_inline _ _ _ _ _ Hv).
    by eapply poly_metatable_of_spec.
  - rewrite (sv_metatable _ _ _ _ _ Hv). unfold struct_metatable. destruct (Z.ltb_spec 0 (i_metatable i)); [lia|].
    by destruct (Z.eqb_spec (i_metatable i) 0) as [->|].
Qed.

(** ** Values after the transition *)

Lemma value_of_replace ks vs o g g' x v' : NoDup ks -> (length ks <= length vs)%nat -> at_slot ks o = Some (special env) ->
  g ∉ ks -> g' <> special env -> value_of ks vs g' v' ->
  value_of (<[Z.to_nat o := g]> ks) (<[Z.to_nat o := x]> vs) g' (if g' =? g then x else v').
Proof.
  intros Hnd Hlen Ho Hg Hs Hv. pose proof (at_slot_Some _ _ _ Ho) as [_ Hlk]. pose proof (lookup_lt_Some _ _ _ Hlk).
  destruct (Z.eqb_spec g' g) as [->|Hne].
  - left. exists (Z.to_nat o). rewrite !list_lookup_insert_eq by lia. done.
  - destruct Hv as [(j & Hj & Hv)|[Hn ->]].
    + left. exists j. assert (Z.to_nat o <> j) by (intros E; rewrite E in Hlk; congruence).
      by rewrite !list_lookup_insert_ne.
    + right. split; [|done]. intros (j & Hj)%list_elem_of_lookup_1. destruct (decide (Z.to_nat o = j)) as [<-|].
      * rewrite list_lookup_insert_eq in Hj by lia. congruence.
      * rewrite list_lookup_insert_ne in Hj by done. by apply Hn, (list_elem_of_lookup_2 _ j).
Qed.

Lemma stored_at t t' v f key o x : stored env t v f -> class_bounds v -> user_key key ->
  slot_free env (pv_keys v) o -> GeneralHeapPointer key ∉ pv_keys v ->
  Z.of_nat (length (keys_at (pv_keys v) o (GeneralHeapPointer key))) <= pv_inline v + pv_butterfly v ->
  layout t' (pv_inline v) (pv_butterfly v) (<[Z.to_nat o := x]> (pv_values v)) (pv_len v) (pv_cap v) (pv_vec v) ->
  stored env t' (with_keys v (keys_at (pv_keys v) o (GeneralHeapPointer key)) (pv_butterfly v)
    (<[Z.to_nat o := x]> (pv_values v))) (write f key x).
Proof.
  intros Hst Hb Hu Ho Hn Hcap Hl. pose proof (stored_length env _ _ _ Hst) as Hlen. pose proof Hb as [].
  unfold keys_at in *. destruct (Z.eqb_spec o (Z.of_nat (length (pv_keys v)))) as [->|Hne].
  - rewrite length_app in Hcap. simpl in Hcap.
    eapply (stored_write env t t' (with_keys v (pv_keys v ++ [GeneralHeapPointer key]) (pv_butterfly v) (pv_values v))); try done.
    + apply stored_append; [done|done|done|lia].
    + split; cbn [with_keys pv_keys pv_inline pv_butterfly]; try done.
      * apply NoDup_app. split_and!; [done| |by apply NoDup_singleton]. intros y Hy E%list_elem_of_singleton. by subst y.
      * apply Forall_app. split; [done|]. constructor; [by apply user_key_spec|constructor].
      * rewrite length_app. simpl. lia.
    + cbn [with_keys pv_keys]. rewrite at_slot_nat. by apply list_lookup_middle.
  - destruct Ho as [[? _]|Ho]; [done|]. destruct Hst as [_ Hr Hc]. pose proof (at_slot_Some _ _ _ Ho) as [? Hlt%lookup_lt_Some].
    split; cbn [with_keys pv_keys pv_inline pv_butterfly pv_values pv_len pv_cap pv_vec]; [done| |].
    + intros j y Hj Hy. rewrite length_insert in Hj. rewrite list_lookup_insert_ne in Hy by lia. by eapply Hr.
    + intros k Hk Hs. unfold write. rewrite <- (key_eqb k key) by done. apply value_of_replace; try done; [lia| |by apply Hc].
      by apply special_key_neq.
Qed.

(** ** The transition *)

Lemma transit_heap K h limit d : classes_inv env h K -> sys_ok (alloc_heap h limit sizeof_CacheableDictionary) ->
  classes_inv env (dictionary_heap h limit d) K.
Proof.
  intros Hci Hs. pose proof (st_inv _ _ _ _ _ (stepped_alloc env h K limit sizeof_CacheableDictionary Hci ltac:(done) Hs)) as Hci1.
  pose proof (hi_sys _ _ _ (ci_heap _ _ _ Hci)) as [Hr _ Ha].
  apply (classes_inv_dictionary env (alloc_heap h limit sizeof_CacheableDictionary) K); [done| |].
  - split; [simpl; unfold sizeof_CacheableDictionary; lia|done].
  - eapply fresh_structure; [apply Hci|lia].
Qed.

Lemma put_transit K s v f mt i key x : props_at K s v f mt -> structure_view K (st_table s) v mt i ->
  user_key key -> key <> GetSpecialKeyForMetadataSlot env -> GeneralHeapPointer key ∉ i_keys i ->
  wp (PutByIdTransitionToDictionaryImpl env key x) s (fun _ s' => becomes env K s v (write f key x) mt s')
    (low (st_hc s) sizeof_CacheableDictionary).
Proof.
  intros Hp Hv Hu Hsp Hnew. pose proof (props_bounds env K s v f mt Hp) as Hb. pose proof Hb as []. pose proof Hp as [Hci _ Hsto].
  pose proof Hv as []. pose proof (ci_heap _ _ _ Hci) as Hinv.
  destruct (structure_type env K s i Hinv sv_info) as (sc & Hs & Hc & _).
  pose proof (stored_length env _ _ _ Hsto) as Hlen.
  unfold PutByIdTransitionToDictionaryImpl. apply wp_bind, wp_get_table. apply wp_bind, wp_on_heap.
  eapply wp_load_structure; [done|]. rewrite with_heap_same. apply wp_bind, wp_get. apply wp_bind, wp_on_heap.
  eapply CreateFromStructure_spec; try done.
  { by apply special_key_neq. }
  { erewrite transition_metatable_spec; [by eexists|done..]. }
  intros limit res d Hpost Hsys.
  destruct Hpost as [Hres Hslot Hnewat Hok Hinl Hmt Htr Hgrow Hkeep]. erewrite transition_metatable_spec in Hmt by done. injection Hmt as Hmt.
  apply wp_bind, wp_on_heap. rewrite Hres. eapply wp_load_dictionary; [by apply dictionary_heap_lookup|].
  rewrite (cl_butterfly _ _ _ _ _ Hc), Hslot, Hinl. rewrite <- sv_butterfly, <- sv_inline in *.
  set (g := GeneralHeapPointer key) in *. set (o := transition_slot i) in *.
  pose proof Hok as [(k & tb & [] & _) Hcapd]. unfold d_capacity in Hcapd. rewrite Hinl in Hcapd.
  set (h1 := dictionary_heap (st_hc s) limit d). set (s1 := with_heap s h1).
  assert (slot_free env (pv_keys v) o) as Hfree by (rewrite sv_keys; by eapply transition_slot_free).
  rewrite <- sv_keys in *.
  assert (0 <= o < Z.of_nat (length (keys_at (pv_keys v) o g))) as Ho.
  { apply at_slot_Some in Hnewat as [? Hl%lookup_lt_Some]. lia. }
  apply wp_bind. eapply (maybe_grow_spec env _ _ s1 (st_table s) v f (d_butterflyNamedStorageCapacity d)); try done; [lia|].
  intros t1 Hst1 Hh1 Ha1. apply wp_bind.
  eapply write_slot_spec; [apply Hst1|done|cbn [with_keys pv_butterfly]; lia|cbn [with_keys pv_inline pv_butterfly]; lia|].
  intros t2 Hl2 Hh2 Ha2. cbn [with_keys pv_inline pv_butterfly pv_values pv_len pv_cap pv_vec] in Hl2.
  apply wp_bind, set_hiddenClass_spec. apply wp_bind, wp_get_table. apply set_arrayType_spec.
  pose proof (stored_length env _ _ _ Hst1) as Hl1. cbn [with_keys pv_inline pv_butterfly pv_values] in Hl1.
  set (vs1 := pv_values v ++ _) in *.
  set (v2 := with_keys v (keys_at (pv_keys v) o g) (d_butterflyNamedStorageCapacity d) (<[Z.to_nat o := x]> vs1)).
  assert (m_arrayType t2 = i_arrayType i) as Hat by (rewrite Ha2; simpl; by rewrite Ha1, sv_arrayType).
  assert (useful (i_arrayType i)) as Huse by apply Hc.
  exists K, v2. split.
  - split; [exact (transit_heap K (st_hc s) limit d Hci Hsys)|right; exists d|].
    + split; simpl; try done; [exact (dictionary_heap_lookup (st_hc s) limit d)| |].
      * rewrite meta_meta, <- Hmt. done.
      * apply useful_SetMayHaveMetatable. by rewrite Hat.
    + apply (stored_at t1 _ (with_keys v (pv_keys v) (d_butterflyNamedStorageCapacity d) vs1)); try done; simpl.
      split; simpl; try done; unfold keys_at in *. destruct (o =? _); [rewrite length_app in *|rewrite length_insert in *]; simpl in *; lia.
  - split; simpl; try done.
    + rewrite Hat, sv_arrayType. by apply meta_twice.
    + intros q dq Hq Hdq. rewrite lookup_insert_ne; [done|]. intros <-.
      rewrite (fresh_dictionary env (st_hc s) K) in Hdq; [done|done|lia].
    + intros Hx. rewrite (fresh_dictionary env (st_hc s) K) in Hx; [by destruct Hx|done|lia].
Qed.

(** ** A put in every mode *)

(** The process stops when the system heap has no room for a structure or a
    dictionary, or a dictionary has reached the maximal capacity. *)
Definition put_exhausted s : Prop :=
  low (st_hc s) (query_cost (st_hc s) (m_hiddenClass (st_table s)) create_cost) \/ dictionary_full s.

Lemma undisturbed_trans K s v K1 s1 v1 K2 s2 v2 : m_hiddenClass (st_table s1) = m_hiddenClass (st_table s) ->
  undisturbed K s v K1 s1 v1 -> undisturbed K1 s1 v1 K2 s2 v2 -> undisturbed K s v K2 s2 v2.
Proof.
  intros Hh [? (? & ? & ?) ? [? ?] Hd1 Ho1] [? (? & ? & ?) ? [? ?] Hd2 Ho2].
  split; [by etrans|split_and!; congruence|congruence|split; congruence| |].
  - intros q d Hq Hd. apply Hd2; [congruence|]. by apply Hd1.
  - intros [d Hd]. destruct (decide (m_hiddenClass (st_table s2) = m_hiddenClass (st_table s))) as [|Hne]; [done|].
    rewrite <- Hh. apply Ho2. exists d. by apply Hd1.
Qed.

Lemma put_low s : low (st_hc s) sizeof_CacheableDictionary -> put_exhausted s.
Proof.
  intros Hl. left. eapply low_mono; [|exact Hl].
  pose proof (entries_nonneg (st_hc s) (m_hiddenClass (st_table s))).
  unfold query_cost, create_cost, sizeof_CacheableDictionary. lia.
Qed.

(** What the preparation of a put promises: the key has the value it had, in the
    slot of the record if it exists, and the put of the record writes it.  The
    metatable need not be looked at only if there is none or the value is not nil. *)
Record prepared K s v (f : Z -> Z) (mt key : Z) (ic : PutByIdICInfo.t) s1 : Prop := {
  pp_becomes : becomes env K s v f mt s1;
  pp_class : m_hiddenClass (st_table s1) = m_hiddenClass (st_table s);
  pp_metatable : PutByIdICInfo.m_mayHaveMetatable ic = false -> mt = 0;
  pp_cacheable : PutByIdICInfo.m_isInlineCacheable ic =
    negb (bool_decide (PutByIdICInfo.m_icKind ic = PutByIdICInfo.TransitionedToDictionaryMode));
  pp_exists : if PutByIdICInfo.m_propertyExists ic
    then PutByIdICInfo.m_isInlineCacheable ic = true /\ PutByIdICInfo.m_shouldGrowButterfly ic = false /\
      (if decide (PutByIdICInfo.m_icKind ic = PutByIdICInfo.InlinedStorage) then read_inline (PutByIdICInfo.m_slot ic)
       else read_outline (PutByIdICInfo.m_slot ic)) s1 = Ok (f key, s1)
    else f key = Nil /\ is_Some (structures (st_hc s1) !! m_hiddenClass (st_table s1));
  pp_put : forall x, wp (PutById env key x ic) s1 (fun _ s' => becomes env K s v (write f key x) mt s') (put_exhausted s)
}.

Lemma stepped_becomes K s v f mt i h2 K' : props_at K s v f mt -> structure_view K (st_table s) v mt i -> stepped env (st_hc s) K h2 K' ->
  becomes env K s v f mt (with_heap s h2).
Proof.
  intros [_ _ Hsto] Hv [HK _ Hinv _ Hd]. exists K', v. split.
  - split; [done| |done]. left. exists i. destruct Hv. split; try done. simpl. by eapply lookup_weaken.
  - split; simpl; try done. intros q d _ Hq. by rewrite Hd.
Qed.

(** The record of a slot that exists. *)
Lemma exists_read K s v f mt key slot mh c : props_at K s v f mt -> user_key key -> key <> GetSpecialKeyForMetadataSlot env ->
  at_slot (pv_keys v) slot = Some (GeneralHeapPointer key) -> let ic := put_ic true false mh slot (pv_inline v) c in
  PutByIdICInfo.m_propertyExists ic = true /\ PutByIdICInfo.m_isInlineCacheable ic = true /\ PutByIdICInfo.m_shouldGrowButterfly ic = false /\
  PutByIdICInfo.m_mayHaveMetatable ic = mh /\ PutByIdICInfo.m_icKind ic <> PutByIdICInfo.TransitionedToDictionaryMode /\
  (if decide (PutByIdICInfo.m_icKind ic = PutByIdICInfo.InlinedStorage) then read_inline (PutByIdICInfo.m_slot ic)
   else read_outline (PutByIdICInfo.m_slot ic)) s = Ok (f key, s).
Proof.
  intros Hp Hu Hsp Hat.
  pose proof (read_found env K s v f mt key (Some slot) mh (GetByIdICInfo.mk GetByIdICInfo.MustBeNil mh 0) Hp Hu Hsp Hat (or_introl eq_refl)) as Hr.
  apply wp_returns in Hr as (x & s' & E & -> & ->). unfold get_ic, GetById, put_ic in *. by destruct (slot <? pv_inline v).
Qed.

Lemma existing_prepared K s v f mt s1 v1 key slot mh c : props_at K s1 v1 f mt ->
  (forall f' s', becomes env K s1 v1 f' mt s' -> becomes env K s v f' mt s') ->
  m_hiddenClass (st_table s1) = m_hiddenClass (st_table s) -> (mh = false -> mt = 0) ->
  user_key key -> key <> GetSpecialKeyForMetadataSlot env -> at_slot (pv_keys v1) slot = Some (GeneralHeapPointer key) ->
  prepared K s v f mt key (put_ic true false mh slot (pv_inline v1) c) s1.
Proof.
  intros Hp1 Hb Hh Hmh Hu Hsp Hat.
  destruct (exists_read K s1 v1 f mt key slot mh c Hp1 Hu Hsp Hat) as (E1 & E2 & E3 & E4 & E5 & E6).
  split; try done.
  - apply Hb. exists K, v1. by split.
  - by rewrite E4.
  - by rewrite E2, bool_decide_false.
  - by rewrite E1.
  - intros x. apply (wp_fail_mono _ _ _ False); [done|]. eapply wp_post_mono; [|by apply (put_existing env special_user K s1 v1 f mt)].
    intros ? s2. apply Hb.
Qed.

(** An absent property of a structure. *)
Lemma put_absent K s v f mt i key mh : props_at K s v f mt -> structure_view K (st_table s) v mt i ->
  user_key key -> key <> GetSpecialKeyForMetadataSlot env -> GeneralHeapPointer key ∉ i_keys i -> (mh = false -> mt = 0) ->
  wp (AddNonExistentProperty env (m_hiddenClass (st_table s)) key) (st_hc s)
    (fun r h => prepared K s v f mt key (match r with
        | None => PutByIdICInfo.mk PutByIdICInfo.TransitionedToDictionaryMode false false mh false 0 0
        | Some res => put_ic false (np_shouldGrowButterfly res) mh (np_slotOrdinal res) (pv_inline v) (np_newStructure res)
        end) (with_heap s h)) (put_exhausted s).
Proof.
  intros Hp Hv Hu Hsp Hnew Hmh. pose proof Hp as [Hci _ Hsto]. pose proof Hv as []. pose proof (ci_heap _ _ _ Hci) as Hinv.
  assert (f key = Nil) as Hnil by (eapply value_of_absent; [|by apply Hsto]; by rewrite sv_keys).
  apply (wp_fail_mono _ _ _ (low (st_hc s) (query_cost (st_hc s) (m_hiddenClass (st_table s)) create_cost))); [by left|].
  eapply AddNonExistentProperty_spec; [done|done|done|by apply special_key_neq|done|..].
  - intros _. rewrite with_heap_same. split; try done.
    + exists K, v. by split.
    + simpl. split; [done|]. destruct (structure_type env K s i Hinv sv_info) as (sc & Hs & _). by eexists.
    + intros x. eapply (wp_fail_mono _ _ _ (low (st_hc s) sizeof_CacheableDictionary)); [by apply put_low|]. by eapply put_transit.
  - intros c h2 K' Hlt Hq Hsame. pose proof Hq as [].
    assert (stepped env (st_hc s) K h2 K') as Hst.
    { eapply stepped_other; [done|by eexists|done| |done].
      pose proof (proj1 (user_key_spec key Hu)) as Hg%valid_key_neg. unfold x_key_add_or_to_poly_metatable. lia. }
    split.
    + by eapply stepped_becomes.
    + done.
    + unfold put_ic. by destruct (_ <? _).
    + unfold put_ic. by destruct (_ <? _).
    + unfold put_ic. destruct (_ <? _); simpl; (split; [done|]); destruct (inv_structure env h2 K' q_inv (m_hiddenClass (st_table s)) i) as (sc & Hs & _);
        try (by eapply lookup_weaken; [|apply Hst]); by eexists.
    + intros x. apply (wp_fail_mono _ _ _ False); [done|]. by eapply put_new_slot.
Qed.

Lemma PreparePutById_at K s v f mt isString key : props_at K s v f mt -> property_key env isString key ->
  wp (PreparePutById env isString key) s (fun ic s1 => prepared K s v f mt key ic s1) (put_exhausted s).
Proof.
  intros Hp Hk. pose proof Hk as (Hu & Hsp & _). pose proof Hp as [Hci Hcl Hsto]. pose proof (ci_heap _ _ _ Hci) as Hinv.
  unfold PreparePutById. apply wp_bind, wp_get_table. apply wp_bind, wp_on_heap.
  destruct Hcl as [[i Hv]|[d Hd]].
  - pose proof Hv as []. destruct (structure_type env K s i Hinv sv_info) as (sc & Hs & Hc & Ht).
    assert (negb (s_metatable sc =? 0) = false -> mt = 0) as Hmh.
    { rewrite (cl_metatable _ _ _ _ _ Hc), negb_false_iff, Z.eqb_eq. intros Hz. rewrite sv_metatable. unfold struct_metatable. by rewrite Hz. }
    eapply wp_query; [done|]. rewrite with_heap_same. apply wp_on_heap. unfold PreparePutByIdForStructure.
    apply wp_bind. eapply wp_load_structure; [done|]. cbv zeta.
    destruct (Structure_find_spec env K _ sc i isString key Hinv Hc Hk) as (r & Hr & Hm).
    apply wp_bind. eapply wp_query; [exact Hr|]. rewrite (cl_inline _ _ _ _ _ Hc), <- sv_inline.
    destruct r as [slot|].
    + apply wp_ret. rewrite with_heap_same. apply (existing_prepared K s v f mt s v); try done. by rewrite sv_keys.
    + apply wp_bind. eapply wp_post_mono; [|by eapply put_absent]. intros [res|] h2 Hw; by apply wp_ret.
  - pose proof Hd as []. destruct (dictionary_type env K _ _ d Hinv dv_info) as [_ Ht].
    eapply wp_query; [done|]. rewrite with_heap_same.
    eapply (wp_fail_mono _ _ _ (dictionary_full s)); [by right|].
    eapply wp_post_mono; [|by eapply prepare_dictionary].
    intros ic s1 (v1 & slot & -> & Hp1 & Hat & Hund & Hh). apply (existing_prepared K s v f mt s1 v1); try done.
    + intros f' s2 (K2 & v2 & Hp2 & Hund2). exists K2, v2. split; [done|]. by eapply undisturbed_trans.
    + rewrite negb_false_iff. apply Z.eqb_eq.
Qed.

Lemma RawPutById_at K s v f mt isString key x : props_at K s v f mt -> property_key env isString key ->
  wp (RawPutById env isString key x) s (fun _ s' => becomes env K s v (write f key x) mt s') (put_exhausted s).
Proof.
  intros Hp Hk. unfold RawPutById. apply wp_bind. eapply wp_post_mono; [|by apply PreparePutById_at]. intros ic s1 Hpp. by eapply pp_put.
Qed.

Lemma becomes_props K s v f mt s' : becomes env K s v f mt s' -> props s' f mt.
Proof. intros (K' & v' & Hp & _). by exists K', v'. Qed.

Lemma RawPutById_spec s f mt isString key x : props s f mt -> property_key env isString key ->
  wp (RawPutById env isString key x) s (fun _ s' => props s' (write f key x) mt) (put_exhausted s).
Proof.
  intros (K & v & Hp) Hk. eapply wp_post_mono; [|by eapply RawPutById_at]. intros ? s'. apply becomes_props.
Qed.
End transit.
