(* ===== verification/NamedMeta.v ===== *)
(** * The metatable of a table

    [GetMetatable], [SetMetatable] and [RemoveMetatable] of a table, in every mode
    of its hidden class: the metatable in the structure, in a slot of the table, in
    the dictionary.  The named properties keep their values. *)

From S2P Require Import Prelude TValue MiscMath Machine TypeMask ArrayType Butterfly SparseMap HiddenClass TableObject TableArray Probing CheckedTable ClassHeap Structure Transition ClassInv ClassLookup ClassFrame ClassCreate ClassTransition ClassQuery ClassOps ClassView Dictionary TableClasses NamedProps NamedInv NamedPut NamedTransition.

Section meta.
Variable env : Env.
Hypothesis special_user : user_key (GetSpecialKeyForMetadataSlot env).
Notation St := (TableObject.St SysHeap).
Implicit Types (s : St) (t : TableObject).
Notation props := (props env).
Notation props_at := (props_at env).

(** ** Reading *)

Lemma GetMetatable_spec s f mt : props s f mt -> wp GetMetatable s (fun r s' => gm_result r = mt /\ s' = s) False.
Proof.
  intros (K & v & Hp). pose proof (props_bounds env K s v f mt Hp) as Hb. pose proof Hp as [[Hinv _] Hcl Hsto].
  unfold GetMetatable. apply wp_bind, wp_get_table. apply wp_bind, wp_on_heap.
  destruct Hcl as [[i Hi]|[d Hd]].
  - pose proof Hi as []. destruct (structure_type env K s i Hinv sv_info) as (sc & Hs & Hc & Ht).
    eapply wp_query; [done|]. rewrite with_heap_same. apply wp_bind, wp_on_heap. eapply wp_load_structure; [done|].
    rewrite with_heap_same. unfold HasNoMetatable, HasMonomorphicMetatable, GetMonomorphicMetatable, GetPolyMetatableSlot.
    rewrite (cl_metatable _ _ _ _ _ Hc), (cl_inline _ _ _ _ _ Hc), <- sv_inline.
    destruct (Z.eqb_spec (i_metatable i) 0) as [Hz|Hnz].
    { apply wp_ret. simpl. rewrite sv_metatable. unfold struct_metatable. by rewrite Hz. }
    destruct (Z.ltb_spec (i_metatable i) 0) as [Hneg|Hpos].
    { apply wp_ret. simpl. rewrite sv_metatable. unfold struct_metatable.
      destruct (Z.ltb_spec 0 (i_metatable i)); [lia|]. by destruct (Z.eqb_spec (i_metatable i) 0). }
    destruct (poly_slot env K s v f mt i Hp Hi ltac:(lia)) as (x & Hx & Hok & -> & Hsp).
    pose proof (at_slot_Some _ _ _ Hsp) as [_ Hlt%lookup_lt_Some]. pose proof (cl_count _ _ _ _ _ Hc).
    rewrite wrapu_small by (unfold in_u, x_maxNumSlots in *; pow2; lia).
    apply wp_bind. eapply wp_post_mono; [|by eapply (GetPolyMetatable_spec env)]. intros m s' [-> ->]. by apply wp_ret.
  - pose proof Hd as []. destruct (dictionary_type env K _ _ d Hinv dv_info) as [_ Ht].
    eapply wp_query; [done|]. rewrite with_heap_same. apply wp_bind, wp_on_heap.
    eapply wp_load_dictionary; [done|]. apply wp_ret. simpl. by rewrite with_heap_same.
Qed.

(** ** The reserved slot *)

(** Writing the slot of the special key. *)
Lemma stored_special t t' v f slot x : stored env t v f -> class_bounds v -> at_slot (pv_keys v) slot = Some (special env) ->
  layout t' (pv_inline v) (pv_butterfly v) (<[Z.to_nat slot := x]> (pv_values v)) (pv_len v) (pv_cap v) (pv_vec v) ->
  stored env t' (with_keys v (pv_keys v) (pv_butterfly v) (<[Z.to_nat slot := x]> (pv_values v))) f.
Proof.
  intros Hst [] Hat Hlay. pose proof (stored_length env _ _ _ Hst). destruct Hst as [_ Hr Hc].
  pose proof (at_slot_Some _ _ _ Hat) as [H0 Hlt%lookup_lt_Some].
  split; simpl; [done|apply rest_nil_write; [lia|done]|].
  intros k Hk Hs. pose proof (special_key_neq env special_user k Hk Hs) as Hne.
  assert (length (pv_keys v) <= length (pv_values v))%nat as Hle by lia.
  pose proof (value_of_write _ _ slot _ x _ _ cb_nodup Hat Hle (Hc k Hk Hs)) as Hv.
  destruct (Z.eqb_spec (GeneralHeapPointer k) (special env)) as [Heq|]; [by destruct Hne|done].
Qed.

Lemma at_slot_write {E} (l : list E) o x : 0 <= o < Z.of_nat (length l) -> at_slot (<[Z.to_nat o := x]> l) o = Some x.
Proof. intros Ho. unfold at_slot. destruct (Z.leb_spec 0 o); [|lia]. apply list_lookup_insert_eq. lia. Qed.

(** A structure whose metatable slot was just written. *)
Lemma poly_written K t v mt i o x m : K !! m_hiddenClass t = Some i -> m_arrayType t = i_arrayType i ->
  pv_keys v = i_keys i -> pv_inline v = i_inline i -> pv_butterfly v = i_butterfly i -> i_metatable i = o + 1 -> 0 <= o ->
  at_slot (pv_values v) o = Some x -> metatable_slot_ok x -> m = metatable_value x -> mt = m -> structure_view K t v mt i.
Proof.
  intros Hi Ha Hk Hin Hb Hm Ho Hat Hok -> ->. split; try done.
  - unfold struct_metatable. rewrite Hm. destruct (Z.ltb_spec 0 (o + 1)); [|lia]. by rewrite Z.add_simpl_r, Hat.
  - intros _ y. rewrite Hm, Z.add_simpl_r, Hat. by intros [= <-].
Qed.

(** The table with a new class. *)
Definition set_class t c a : TableObject := mkTable c a (m_butterfly t) (m_inlineStorage t).

Lemma finish_class K s v f mt i K' h2 t v' m i' c : props_at K s v f mt -> structure_view K (st_table s) v mt i ->
  stepped env (st_hc s) K h2 K' -> same_array i' i -> structure_view K' (set_class t c (i_arrayType i')) v' m i' ->
  stored env t v' f -> pv_len v' = pv_len v /\ pv_cap v' = pv_cap v /\ pv_vec v' = pv_vec v ->
  becomes env K s v f m (with_table (with_heap s h2) (set_class t c (i_arrayType i'))).
Proof.
  intros Hp [] [] Hsame Hv' [Hl Hr Hc] Hparts. exists K', v'. split.
  - split; [done|left; by eexists|]. by split.
  - split; simpl; [done|done|by rewrite sv_arrayType|done|intros q d _ Hq; by rewrite st_dicts|].
    intros [d Hd]. rewrite <- st_dicts in Hd.
    assert (K' !! c = None) by (eapply hi_disjoint; [apply st_inv|by eexists]). destruct Hv'. simpl in *. congruence.
Qed.

(** A class that only differs in its metatable. *)
Lemma mono_view K K' t v mt i i' c m : structure_view K t v mt i -> K' !! c = Some i' ->
  i_keys i' = i_keys i -> i_inline i' = i_inline i -> i_butterfly i' = i_butterfly i ->
  i_metatable i' = m -> m <= 0 ->
  structure_view K' (set_class t c (i_arrayType i')) v (if m =? 0 then 0 else GeneralHeapPointer_As m) i'.
Proof.
  intros [] Hc Hk Hi Hb <- Hm. split; simpl; try done; try congruence; [|lia].
  unfold struct_metatable. by destruct (Z.ltb_spec 0 (i_metatable i')); [lia|].
Qed.

(** The code that stores a metatable in the reserved slot. *)
Lemma write_special K s v f mt i K' h2 c i' o x : props_at K s v f mt -> structure_view K (st_table s) v mt i ->
  stepped env (st_hc s) K h2 K' -> K' !! c = Some i' -> same_array i' i -> i_keys i' = i_keys i -> i_inline i' = i_inline i ->
  i_butterfly i' = i_butterfly i -> i_metatable i' = o + 1 -> at_slot (i_keys i) o = Some (special env) -> metatable_slot_ok x ->
  wp (write_slot o (pv_inline v) x) (with_heap s h2) (fun _ s' => exists t, s' = with_table (with_heap s h2) t /\
    becomes env K s v f (metatable_value x) (with_table (with_heap s h2) (set_class t c (i_arrayType i')))) False.
Proof.
  intros Hp Hv Hst Hc Hsame Hk Hin Hbf Hm Hat Hok. pose proof (props_bounds env K s v f mt Hp) as Hb. pose proof Hb as [].
  pose proof Hp as [Hci _ Hsto]. pose proof (stored_length env _ _ _ Hsto) as Hlen. pose proof Hv as [].
  pose proof (at_slot_Some _ _ _ Hat) as [H0 Hlt%lookup_lt_Some]. rewrite sv_keys in cb_capacity.
  eapply write_slot_spec; [apply Hsto|done|done|lia|]. intros t Hlay _ _. exists t. split; [done|].
  eapply (finish_class K s v f mt i K' h2 t (with_keys v (pv_keys v) (pv_butterfly v) (<[Z.to_nat o := x]> (pv_values v))));
    try done.
  - eapply (poly_written K' _ _ _ i' o x); try done; simpl; try congruence; [lia|]. apply at_slot_write. lia.
  - eapply (stored_special (st_table s)); try done. by rewrite sv_keys.
Qed.

(** The same for a class with a new slot for it. *)
Lemma append_special K s v f mt i K' h2 c i' m grow (grow_code : MT unit) : props_at K s v f mt ->
  structure_view K (st_table s) v mt i -> stepped env (st_hc s) K h2 K' -> K' !! c = Some i' -> same_array i' i ->
  i_keys i' = i_keys i ++ [special env] -> i_inline i' = i_inline i -> i_butterfly i <= i_butterfly i' ->
  i_metatable i' = i_count i + 1 -> metatable_slot_ok m -> grow = bool_decide (i_butterfly i < i_butterfly i') ->
  grow_code = TableObject_GrowButterflyKnowingNamedStorageCapacity (i_butterfly i) (i_butterfly i') ->
  wp ((if grow then grow_code else mret tt);; write_slot (i_count i) (pv_inline v) m) (with_heap s h2)
    (fun _ s' => exists t, s' = with_table (with_heap s h2) t /\
      becomes env K s v f (metatable_value m) (with_table (with_heap s h2) (set_class t c (i_arrayType i')))) False.
Proof.
  intros Hp Hv Hst Hc Hsame Hk Hin Hbf Hm Hok Hgrow ->. pose proof (props_bounds env K s v f mt Hp) as Hb. pose proof Hb as [].
  pose proof Hp as [Hci _ Hsto]. pose proof Hv as [].
  pose proof Hst as [_ _ [Hinv2 _] _ _]. destruct (inv_structure env h2 K' Hinv2 c i' Hc) as (sc' & Hs' & Hc').
  destruct (class_butterfly env h2 K' c sc' i' Hinv2 Hs' Hc) as [Hb' Hroom].
  assert (i_count i' = i_count i + 1) as Hcnt by (unfold i_count; rewrite Hk, length_app; simpl; lia).
  pose proof (count_nonneg i) as Hn. pose proof (cl_nodup _ _ _ _ _ Hc') as Hnd. rewrite Hk in Hnd.
  pose proof (cl_valid _ _ _ _ _ Hc') as Hval.
  assert (Z.of_nat (length (pv_keys v)) = i_count i) as Hcount by (by rewrite sv_keys).
  apply wp_bind. eapply (maybe_grow_spec env grow _ (with_heap s h2) (st_table s) v f (i_butterfly i')); try done.
  { rewrite sv_butterfly. unfold x_maxNamedStorageCapacity. lia. }
  { by rewrite sv_butterfly. }
  { intros _ Q'. by rewrite sv_butterfly. }
  intros t1 Hst1 _ _. set (vs1 := pv_values v ++ _) in *. set (v1 := with_keys v (pv_keys v ++ [special env]) (i_butterfly i') vs1).
  assert (at_slot (pv_keys v1) (i_count i) = Some (special env)) as Hat.
  { simpl. rewrite <- Hcount, at_slot_nat. by apply list_lookup_middle. }
  assert (special env ∉ pv_keys v) as Hnew.
  { rewrite sv_keys. apply NoDup_app in Hnd as (_ & Hnd & _). intros E. apply (Hnd _ E). by apply list_elem_of_singleton. }
  assert (stored env t1 v1 f) as Hst1'.
  { apply (stored_append env t1 (with_keys v (pv_keys v) (i_butterfly i') vs1)); try done; cbn [with_keys pv_keys pv_inline pv_butterfly]; [|lia].
    destruct Hb. split; cbn [with_keys pv_keys pv_inline pv_butterfly]; try done; unfold x_maxNamedStorageCapacity; lia. }
  assert (class_bounds v1) as Hb1.
  { split; simpl; rewrite ?sv_keys; [done|by rewrite <- Hk|done|unfold x_maxNamedStorageCapacity; lia|].
    rewrite <- Hk. fold (i_count i'). lia. }
  pose proof (stored_length env _ _ _ Hst1') as Hl1. simpl in Hl1.
  eapply write_slot_spec; [apply Hst1'|apply Hb1|apply Hb1|simpl; lia|].
  intros t2 Hlay _ _. exists t2. split; [done|].
  eapply (finish_class K s v f mt i K' h2 t2 (with_keys v1 (pv_keys v1) (pv_butterfly v1) (<[Z.to_nat (i_count i) := m]> vs1)));
    try done.
  - eapply (poly_written K' _ _ _ i' (i_count i) m); try done; simpl; try congruence. apply at_slot_write. lia.
  - by eapply (stored_special t1).
Qed.
(** ** [SetMetatable] *)

(** The process stops when the system heap has no room for the new class. *)
Definition meta_exhausted s : Prop :=
  low (st_hc s) (query_cost (st_hc s) (m_hiddenClass (st_table s)) create_cost) \/
  low (st_hc s) (query_cost (st_hc s) (parent_of (st_hc s) (m_hiddenClass (st_table s))) create_cost).

Lemma pointer_ok m : user_key m -> metatable_slot_ok (CreatePointer m).
Proof. intros Hm. right. by exists m. Qed.

(** The code after the transition. *)
Definition set_metatable_code (structure : Structure) (result : AddMetatableResult) (newMetatable : Z) : MT unit :=
  newStructure ← on_heap (load_structure (am_newStructure result));
  (if am_shouldInsertMetatable result then
     (if am_shouldGrowButterfly result then
        TableObject_GrowButterflyKnowingNamedStorageCapacity (s_butterflyNamedStorageCapacity structure)
          (s_butterflyNamedStorageCapacity newStructure)
      else mret tt);;
     write_slot (am_slotOrdinal result) (s_inlineNamedStorageCapacity structure) (CreatePointer newMetatable)
   else mret tt);;
  set_hiddenClass (am_newStructure result);;
  set_arrayType (s_arrayType newStructure).

Lemma set_metatable_code_spec K s v f mt i K' h2 sc res i' m : props_at K s v f mt -> structure_view K (st_table s) v mt i ->
  class_ok env (anchors (st_hc s)) K sc i -> user_key m -> stepped env (st_hc s) K h2 K' ->
  K' !! am_newStructure res = Some i' -> set_metatable_post env (m_hiddenClass (st_table s)) i (GeneralHeapPointer m) res i' ->
  wp (set_metatable_code sc res m) (with_heap s h2) (fun _ s' => becomes env K s v f m s') False.
Proof.
  intros Hp Hv Hcl Hm Hst Hc (Hin & _ & Hsame & Hpost). pose proof Hv as [].
  pose proof Hst as [_ _ [Hinv2 _] _ _]. destruct (inv_structure env h2 K' Hinv2 _ i' Hc) as (sc' & Hs' & Hc').
  pose proof (metatable_value_pointer m Hm) as Hmv. pose proof (pointer_ok m Hm) as Hok.
  unfold set_metatable_code. apply wp_bind, wp_on_heap. eapply wp_load_structure; [done|].
  rewrite (cl_inline _ _ _ _ _ Hcl), (cl_butterfly _ _ _ _ _ Hcl), (cl_butterfly _ _ _ _ _ Hc'), (cl_arrayType _ _ _ _ _ Hc').
  rewrite <- sv_inline. apply wp_bind.
  assert (forall t, becomes env K s v f m (with_table (with_heap s h2) (set_class t (am_newStructure res) (i_arrayType i'))) ->
    wp (set_hiddenClass (am_newStructure res);; set_arrayType (i_arrayType i')) (with_table (with_heap s h2) t)
      (fun _ s' => becomes env K s v f m s') False) as Hend.
  { intros t Ht. by apply wp_bind, set_hiddenClass_spec, set_arrayType_spec. }
  destruct (am_shouldInsertMetatable res).
  - destruct Hpost as (Hmt & Hat & Hor).
    destruct Hor as [[-> ->]|(Hno & Hks & Hbf & Hgrow)].
    + apply wp_bind, wp_ret. eapply wp_post_mono; [|by apply (write_special K s v f mt i K' h2 (am_newStructure res) i)].
      intros ? s' (t & -> & Ht). apply Hend. by rewrite Hmv in Ht.
    + pose proof (cl_nodup _ _ _ _ _ Hc') as Hnd.
      assert (am_slotOrdinal res = i_count i) as Ho.
      { eapply (NoDup_at_slot (i_keys i')); [done|done|]. unfold i_count. rewrite Hks, at_slot_nat. by apply list_lookup_middle. }
      rewrite Ho in *. eapply wp_post_mono; [|by apply (append_special K s v f mt i K' h2 (am_newStructure res) i')]. intros ? s' (t & -> & Ht). apply Hend. by rewrite Hmv in Ht.
  - destruct Hpost as (Hmt & Hks & Hbf & _). apply wp_ret. apply (Hend (st_table s)).
    pose proof (proj1 (user_key_spec m Hm)) as Hn%valid_key_neg.
    eapply finish_class; try done; [|by apply Hp].
    pose proof (mono_view K K' (st_table s) v mt i i' (am_newStructure res) _ Hv Hc Hks Hin Hbf Hmt ltac:(lia)) as Hview.
    destruct (Z.eqb_spec (GeneralHeapPointer m) 0); [lia|]. by rewrite (proj2 (user_key_spec m Hm)) in Hview.
Qed.
(** ** Dictionaries *)

Lemma dict_ok_metatable d ks m : dict_ok env d ks -> dict_ok env (d_set_metatable d m) ks.
Proof. intros [(k & tb & [] & H) Hc]. split; [|done]. exists k, tb. split; [by split|done]. Qed.

Lemma dictionary_metatable_spec K s v f mt d garbage m : props_at K s v f mt ->
  dictionary_view env (st_hc s) (st_table s) v mt d ->
  wp (dictionary_metatable garbage (m_hiddenClass (st_table s)) m (negb (m =? 0))) s (fun _ s' => becomes env K s v f m s')
    (low (st_hc s) sizeof_CacheableDictionary).
Proof.
  intros Hp Hd. pose proof Hp as [Hci _ Hsto]. pose proof Hd as []. pose proof (ci_heap _ _ _ Hci) as Hinv.
  set (p := m_hiddenClass (st_table s)) in *. set (h := st_hc s) in *. set (r := m_systemHeapCurPtr h).
  assert (dictionaries h !! r = None) as Hfresh by (apply (fresh_dictionary env h K); [done|lia]).
  assert (K !! r = None) as Hr by (eapply fresh_structure; [exact Hinv|lia]).
  assert (K !! p = None) as Hpn by (eapply hi_disjoint; [exact Hinv|by eexists]).
  assert (r <> p) as Hne by (intros E; rewrite E, dv_info in Hfresh; done).
  unfold dictionary_metatable, RelocateForAddingOrRemovingMetatable. apply wp_bind, wp_on_heap, wp_bind. fold h.
  apply AllocFromSystemHeap_spec; [apply Hinv|done|done|]. intros limit Hsys. fold r.
  pose proof (st_inv _ _ _ _ _ (stepped_alloc env h K limit sizeof_CacheableDictionary Hci ltac:(done) Hsys)) as Hci1.
  set (h1 := alloc_heap h limit sizeof_CacheableDictionary) in *.
  assert (allocated h1 r) as Har.
  { pose proof (hi_sys _ _ _ Hinv) as [? _ ?]. split; [simpl; unfold r, sizeof_CacheableDictionary; lia|done]. }
  assert (allocated h1 p) as Hap by (eapply hi_addr_d; [apply Hci1|by eexists]).
  apply wp_bind. eapply wp_load_dictionary; [exact dv_info|]. apply wp_bind, wp_store_dictionary, wp_bind, wp_store_dictionary, wp_ret.
  set (h2 := with_dictionaries h1 _). set (h3 := with_dictionaries h2 _).
  assert (classes_inv env h2 K) as Hci2 by (by apply classes_inv_dictionary).
  assert (classes_inv env h3 K) as Hci3 by (by apply classes_inv_dictionary).
  assert (dictionaries h3 !! r = Some (d_set_metatable d garbage)) as Hl.
  { simpl. rewrite lookup_insert_ne by done. apply lookup_insert_eq. }
  apply wp_bind, wp_on_heap. eapply wp_load_dictionary; [exact Hl|]. apply wp_bind, wp_on_heap, wp_store_dictionary.
  apply wp_bind, set_hiddenClass_spec. apply wp_bind, wp_get_table. apply set_arrayType_spec.
  cbn [st_hc with_heap with_table st_table m_hiddenClass m_arrayType].
  set (h4 := with_dictionaries h3 _). exists K, v. split.
  - split; [by apply (classes_inv_dictionary env h3 K)|right; exists (d_set_metatable d m)|].
    + split; simpl; try done; [apply lookup_insert_eq|by apply dict_ok_metatable|apply meta_meta|by apply useful_SetMayHaveMetatable].
    + destruct Hsto. by split.
  - split; simpl; try done; [by apply meta_twice| |intros [? Hx]; fold h in Hx; congruence]. intros q dq Hq Hdq.
    change (dictionaries h !! q = Some dq) in Hdq. assert (r <> q) as Hrq by (intros E; rewrite E, Hdq in Hfresh; done).
    by rewrite !lookup_insert_ne by done.
Qed.
(** ** The operations of the table *)

Lemma undisturbed_same K s v : undisturbed K s v K s v.
Proof. by split. Qed.

Lemma meta_low s n : 0 <= n <= create_cost -> low (st_hc s) n -> meta_exhausted s.
Proof.
  intros Hn Hl. left. eapply low_mono; [|exact Hl].
  pose proof (entries_nonneg (st_hc s) (m_hiddenClass (st_table s))). unfold query_cost. lia.
Qed.

Lemma dictionary_low s : low (st_hc s) sizeof_CacheableDictionary -> meta_exhausted s.
Proof. apply meta_low. by vm_compute. Qed.

Lemma SetMetatable_at K s v f mt garbage m : props_at K s v f mt -> user_key m ->
  wp (TableObject_SetMetatable env garbage m) s (fun _ s' => becomes env K s v f m s') (meta_exhausted s).
Proof.
  intros Hp Hm. pose proof Hp as [Hci Hcl Hsto]. pose proof (ci_heap _ _ _ Hci) as Hinv.
  unfold TableObject_SetMetatable. apply wp_bind, wp_get_table. apply wp_bind, wp_on_heap.
  destruct Hcl as [[i Hv]|[d Hd]].
  - pose proof Hv as []. destruct (structure_type env K s i Hinv sv_info) as (sc & Hs & Hc & Ht).
    eapply wp_query; [done|]. rewrite with_heap_same. apply wp_bind, wp_on_heap. eapply wp_load_structure; [done|].
    rewrite with_heap_same. apply wp_bind, wp_on_heap.
    eapply wp_fail_mono; [|eapply SetMetatable_spec; [done|done|done|done|]].
    { unfold metatable_cost_low, meta_exhausted. by erewrite parent_of_info. }
    intros res h2 K' i' Hst Hi' Hpost. apply (wp_fail_mono _ _ _ False); [done|].
    by eapply set_metatable_code_spec.
  - pose proof Hd as []. destruct (dictionary_type env K _ _ d Hinv dv_info) as [_ Ht].
    eapply wp_query; [done|]. rewrite with_heap_same. apply wp_bind, wp_on_heap. eapply wp_load_dictionary; [done|].
    rewrite with_heap_same. destruct (Z.eqb_spec (d_metatable d) m) as [<-|Hne].
    + apply wp_ret. exists K, v. split; [by rewrite <- dv_metatable|apply undisturbed_same].
    + eapply wp_fail_mono; [apply dictionary_low|].
      assert (true = negb (m =? 0)) as -> by (destruct (Z.eqb_spec m 0) as [->|]; [by destruct Hm as [[_ Hlt] _]; vm_compute in Hlt|done]).
      by eapply dictionary_metatable_spec.
Qed.

Lemma RemoveMetatable_at K s v f mt garbage : props_at K s v f mt ->
  wp (TableObject_RemoveMetatable env garbage) s (fun _ s' => becomes env K s v f 0 s') (meta_exhausted s).
Proof.
  intros Hp. pose proof Hp as [Hci Hcl Hsto]. pose proof (ci_heap _ _ _ Hci) as Hinv.
  unfold TableObject_RemoveMetatable. apply wp_bind, wp_get_table. apply wp_bind, wp_on_heap.
  destruct Hcl as [[i Hv]|[d Hd]].
  - pose proof Hv as []. destruct (structure_type env K s i Hinv sv_info) as (sc & Hs & Hc & Ht).
    eapply wp_query; [done|]. rewrite with_heap_same. apply wp_bind, wp_on_heap. eapply wp_load_structure; [done|].
    rewrite with_heap_same. apply wp_bind, wp_on_heap.
    eapply wp_fail_mono; [|eapply RemoveMetatable_spec; [done|done|]]; [by left|].
    intros res h2 K' i' Hst Hi' (Hsame & Hpost). apply (wp_fail_mono _ _ _ False); [done|].
    pose proof Hst as [_ _ [Hinv2 _] _ _]. destruct (inv_structure env h2 K' Hinv2 _ i' Hi') as (sc' & Hs' & Hc').
    assert (forall t, becomes env K s v f 0 (with_table (with_heap s h2) (set_class t (rm_newStructure res) (i_arrayType i'))) ->
      wp (set_hiddenClass (rm_newStructure res);; newStructure ← on_heap (load_structure (rm_newStructure res));
          set_arrayType (s_arrayType newStructure)) (with_table (with_heap s h2) t)
        (fun _ s' => becomes env K s v f 0 s') False) as Hend.
    { intros t Ht'. apply wp_bind, set_hiddenClass_spec. apply wp_bind, wp_on_heap. eapply wp_load_structure; [done|].
      apply set_arrayType_spec. by rewrite (cl_arrayType _ _ _ _ _ Hc'). }
    rewrite (cl_inline _ _ _ _ _ Hc), <- sv_inline. apply wp_bind. destruct (rm_shouldInsertMetatable res).
    + destruct Hpost as (_ & -> & Hmt & Hat).
      eapply wp_post_mono; [|apply (write_special K s v f mt i K' h2 (rm_newStructure res) i); try done; by left].
      intros ? s' (t & -> & Ht'). by apply Hend.
    + destruct Hpost as (Hmt & Hks & Hin & Hbf & _). apply wp_ret, (Hend (st_table s)).
      eapply finish_class; try done.
      exact (mono_view K K' (st_table s) v mt i i' (rm_newStructure res) _ Hv Hi' Hks Hin Hbf Hmt ltac:(done)).
  - pose proof Hd as []. destruct (dictionary_type env K _ _ d Hinv dv_info) as [_ Ht].
    eapply wp_query; [done|]. rewrite with_heap_same. apply wp_bind, wp_on_heap. eapply wp_load_dictionary; [done|].
    rewrite with_heap_same. destruct (Z.eqb_spec (d_metatable d) 0) as [Hz|Hne].
    + apply wp_ret. exists K, v. split; [by rewrite <- Hz, <- dv_metatable|apply undisturbed_same].
    + eapply wp_fail_mono; [apply dictionary_low|].
      exact (dictionary_metatable_spec K s v f mt d garbage 0 Hp Hd).
Qed.
End meta.
