(* ===== verification/NamedAssign.v ===== *)
(** * Assigning to an existing property

    A put of a key that the hidden class has changes one value and nothing else:
    neither the hidden class nor the place of any key. *)

From S2P Require Import Prelude TValue MiscMath Machine TypeMask ArrayType Butterfly SparseMap HiddenClass TableObject TableArray Probing CheckedTable ClassHeap Structure Transition ClassInv ClassLookup ClassFrame ClassCreate ClassTransition ClassQuery ClassOps ClassView Dictionary TableClasses NamedProps NamedInv NamedPut NamedTransition.

Section assign.
Variable env : Env.
Hypothesis special_user : user_key (GetSpecialKeyForMetadataSlot env).
Notation St := (TableObject.St SysHeap).
Implicit Types (s : St).
Notation props_at := (props_at env).

(** A dictionary that has the key prepares nothing. *)
Lemma prepare_found K s v f mt d isString key : props_at K s v f mt -> dictionary_view env (st_hc s) (st_table s) v mt d ->
  property_key env isString key -> GeneralHeapPointer key ∈ pv_keys v ->
  wp (PreparePutByIdForCacheableDictionary env isString (m_hiddenClass (st_table s)) key) s
    (fun ic s1 => s1 = s /\ exists slot, ic = put_ic true false (negb (d_metatable d =? 0)) slot (pv_inline v) 0 /\
       at_slot (pv_keys v) slot = Some (GeneralHeapPointer key)) False.
Proof.
  intros Hp Hd Hk Hin. pose proof Hk as (Hu & _). pose proof Hd as []. destruct dv_ok as [(k & t & Hsh & _) _].
  unfold PreparePutByIdForCacheableDictionary. apply wp_bind, wp_on_heap.
  assert ((if isString then Dict_PreparePutById env (m_hiddenClass (st_table s)) key
           else PreparePutByMaybeNonStringKey env (m_hiddenClass (st_table s)) key) =
    PreparePutPropertyImpl env (m_hiddenClass (st_table s)) key (hkey env (GeneralHeapPointer key))) as ->.
  { rewrite <- (key_hash env isString key Hk). by destruct isString. }
  destruct (lookup_spec env d (pv_keys v) k t Hsh key _ Hu eq_refl) as [(slot & Hl & Hat)|[Hno _]]; [|done].
  unfold PreparePutPropertyImpl. apply wp_bind. eapply wp_load_dictionary; [done|]. apply wp_bind. eapply wp_access; [exact Hl|].
  apply wp_ret. simpl. rewrite with_heap_same. apply wp_bind, wp_ret. apply wp_bind, wp_on_heap.
  eapply wp_load_dictionary; [done|]. rewrite with_heap_same. apply wp_ret. split; [done|]. exists slot. by rewrite dv_inline.
Qed.

Lemma RawPutById_overwrites K s v f mt isString key x : props_at K s v f mt -> property_key env isString key ->
  GeneralHeapPointer key ∈ pv_keys v ->
  wp (RawPutById env isString key x) s (fun _ s' => exists slot, at_slot (pv_keys v) slot = Some (GeneralHeapPointer key) /\
    overwrites env K s v f mt key slot x s') False.
Proof.
  intros Hp Hk Hin. pose proof Hk as (Hu & Hsp & _). pose proof Hp as [Hci Hcl Hsto]. pose proof (ci_heap _ _ _ Hci) as Hinv.
  unfold RawPutById, PreparePutById. apply wp_bind, wp_bind, wp_get_table. apply wp_bind, wp_on_heap.
  destruct Hcl as [[i Hv]|[d Hd]].
  - pose proof Hv as []. destruct (structure_type env K s i Hinv sv_info) as (sc & Hs & Hc & Ht).
    eapply wp_query; [done|]. rewrite with_heap_same. apply wp_on_heap. unfold PreparePutByIdForStructure.
    apply wp_bind. eapply wp_load_structure; [done|]. cbv zeta.
    destruct (Structure_find_spec env K _ sc i isString key Hinv Hc Hk) as (r & Hr & Hm).
    apply wp_bind. eapply wp_query; [exact Hr|]. rewrite (cl_inline _ _ _ _ _ Hc), <- sv_inline. rewrite <- sv_keys in Hm.
    destruct r as [slot|]; [|done]. apply wp_ret. rewrite with_heap_same.
    eapply wp_mono; [by eapply (put_overwrites env special_user K)| |done]. intros ? s' Ho. by exists slot.
  - pose proof Hd as []. destruct (dictionary_type env K _ _ d Hinv dv_info) as [_ Ht].
    eapply wp_query; [done|]. rewrite with_heap_same.
    eapply wp_mono; [by eapply prepare_found| |done]. intros ic ? (-> & slot & -> & Hat).
    eapply wp_mono; [by eapply (put_overwrites env special_user K)| |done]. intros ? s' Ho. by exists slot.
Qed.
End assign.
