(* ===== verification/TableWhole.v ===== *)
(** * A whole table

    The array part and the named part of a table on one heap of hidden classes.
    The theorems on the array part are proved against [HiddenClassLaws]; here the
    interface is implemented once for every meaning [N] of the named part, so that
    a put by index provably leaves the named part alone; [undisturbed] says the
    converse of the operations on named properties. *)

From S2P Require Import Prelude Double TValue MiscMath Machine TypeMask ArrayType Butterfly SparseMap HiddenClass TableObject TableArray Probing CheckedTable ClassHeap Structure Transition ClassInv ClassLookup ClassFrame ClassCreate ClassTransition ClassQuery ClassOps ClassView Dictionary TableClasses NamedProps NamedInv NamedPut NamedTransition NamedMeta.

(** ** Array types that differ in the metatable flag *)

Lemma flag_fields a a' : SetMayHaveMetatable a' false = SetMayHaveMetatable a false ->
  ArrayKind a' = ArrayKind a /\ IsContinuous a' = IsContinuous a /\ HasSparseMap a' = HasSparseMap a /\
  SparseMapContainsVectorIndex a' = SparseMapContainsVectorIndex a.
Proof.
  intros E. rewrite <- (kind_meta a' false), <- (cont_meta a' false), <- (sparse_meta a' false), <- (vec_meta a' false), E.
  by rewrite !kind_meta, !cont_meta, !sparse_meta, !vec_meta.
Qed.

Lemma no_array_flag a a' : SetMayHaveMetatable a' false = SetMayHaveMetatable a false -> no_array a -> no_array a'.
Proof. intros (E1 & E2 & E3 & E4)%flag_fields. unfold no_array. by rewrite E1, E2, E3, E4. Qed.

Lemma shape_flag sp hash a a' len cap vec sc : SetMayHaveMetatable a' false = SetMayHaveMetatable a false ->
  shape sp hash a len cap vec sc -> shape sp hash a' len cap vec sc.
Proof.
  intros He Hs. pose proof (flag_fields _ _ He) as (E1 & E2 & E3 & E4).
  destruct Hs as [Hn| | |m].
  - apply sh_none; try done. by eapply no_array_flag.
  - apply sh_continuous; by rewrite ?E1, ?E2, ?E3, ?E4.
  - apply sh_vector; by rewrite ?E1, ?E2, ?E3, ?E4.
  - apply sh_sparse; by rewrite ?E1, ?E2, ?E3, ?E4.
Qed.

(** ** A butterfly stays *)

(** No operation on the named part takes the butterfly away. *)
Section keeps.
Implicit Types s : TableObject.St SysHeap.

Definition keeps {A} (m : MT A) : Prop := forall s a s', m s = Ok (a, s') ->
  m_butterfly (st_table s') = None -> m_butterfly (st_table s) = None.

Lemma keeps_ret {A} (a : A) : keeps (mret a).
Proof. by intros s ? ? [= <- <-]. Qed.

Lemma keeps_ub {A} : keeps (A:=A) ub.
Proof. done. Qed.

Lemma keeps_bind {A B} (m : MT A) (k : A -> MT B) : keeps m -> (forall a, keeps (k a)) -> keeps (m ≫= k).
Proof.
  intros Hm Hk s b s' E Hn. unfold mbind, M_bind in E. destruct (m s) as [[a s1]| |] eqn:Em; [|done..].
  by eapply Hm, Hk.
Qed.

Lemma keeps_get_table : keeps get_table.
Proof. by intros s ? ? [= <- <-]. Qed.

Lemma keeps_get_st : keeps get_st.
Proof. by intros s ? ? [= <- <-]. Qed.

Lemma keeps_access {A} (o : option A) : keeps (access o).
Proof. destruct o; [|done]. by intros s ? ? [= <- <-]. Qed.

Lemma keeps_on_heap {A} (m : MH A) : keeps (on_heap m).
Proof. intros s a s' E. unfold on_heap in E. destruct (m (st_hc s)) as [[? ?]| |]; [|done..]. by injection E as <- <-. Qed.

Lemma keeps_set_butterfly b : keeps (set_butterfly b).
Proof. by intros s ? ? [= <- <-]. Qed.

Lemma keeps_set_arrayType a : keeps (set_arrayType a).
Proof. by intros s ? ? [= <- <-]. Qed.

Lemma keeps_set_hiddenClass c : keeps (set_hiddenClass c).
Proof. by intros s ? ? [= <- <-]. Qed.

Lemma keeps_write_inline o v : keeps (write_inline o v).
Proof.
  intros s a s' E. unfold write_inline in E. simpl in E. unfold mbind, M_bind, access in E. simpl in E.
  destruct (set_slot _ o v); [|done]. by injection E as <- <-.
Qed.

Lemma keeps_if {A} (b : bool) (m m' : MT A) : keeps m -> keeps m' -> keeps (if b then m else m').
Proof. by destruct b. Qed.
End keeps.

Create HintDb keeps.
#[export] Hint Resolve keeps_ret keeps_ub keeps_get_table keeps_get_st keeps_access keeps_on_heap keeps_set_butterfly
  keeps_set_arrayType keeps_set_hiddenClass keeps_write_inline : keeps.
Ltac keeps_step := first [ solve [auto with keeps] | apply keeps_bind; [|intros] | apply keeps_if ].
Ltac keeps := repeat keeps_step.

Lemma keeps_write_slot o inl v : keeps (write_slot o inl v).
Proof. unfold write_slot, write_outline, update_butterfly, on_butterfly. keeps. Qed.

Lemma keeps_grow a b : keeps (TableObject_GrowButterflyKnowingNamedStorageCapacity a b).
Proof. unfold TableObject_GrowButterflyKnowingNamedStorageCapacity. keeps. Qed.
#[export] Hint Resolve keeps_write_slot keeps_grow : keeps.

Lemma keeps_PutById env prop v ic : keeps (PutById env prop v ic).
Proof.
  unfold PutById, PutByIdTransitionToDictionaryImpl, write_outline, update_butterfly, on_butterfly, GrowButterfly.
  destruct (PutByIdICInfo.m_icKind ic); keeps.
Qed.
#[export] Hint Resolve keeps_PutById : keeps.

Lemma keeps_PreparePutById env isString prop : keeps (PreparePutById env isString prop).
Proof.
  unfold PreparePutById, PreparePutByIdForCacheableDictionary. keeps_step; [by keeps|]. keeps_step; [by keeps|]. destruct a0; keeps.
Qed.
#[export] Hint Resolve keeps_PreparePutById : keeps.

Lemma keeps_RawPutById env isString prop v : keeps (RawPutById env isString prop v).
Proof. unfold RawPutById. keeps. Qed.

Lemma keeps_SetMetatable env garbage m : keeps (TableObject_SetMetatable env garbage m).
Proof.
  unfold TableObject_SetMetatable, dictionary_metatable. keeps_step; [by keeps|]. keeps_step; [by keeps|]. destruct a0; keeps.
Qed.

Lemma keeps_RemoveMetatable env garbage : keeps (TableObject_RemoveMetatable env garbage).
Proof.
  unfold TableObject_RemoveMetatable, dictionary_metatable. keeps_step; [by keeps|]. keeps_step; [by keeps|]. destruct a0; keeps.
Qed.

(** What a hidden class says about the named part of its tables. *)
Inductive NamedInfo :=
| NStructure (keys : list Z) (inl bf metatable : Z)
| NDictionary (address : Z) (d : CacheableDictionary).

Section laws.
Variable env : Env.
Hypothesis special_user : user_key (GetSpecialKeyForMetadataSlot env).
#[local] Instance whole_ops : HiddenClassOps SysHeap := sys_ops env.

Definition class_named (h : SysHeap) (p : Z) (N : NamedInfo) : Prop :=
  match N with
  | NStructure ks ic bf m => exists v, describe h p = Some v /\ v_keys v = ks /\ v_inline v = ic /\ v_butterfly v = bf /\ v_metatable v = m
  | NDictionary q d => p = q /\ dictionaries h !! p = Some d /\ exists ks, dict_ok env d ks
  end.

(** [h] has every class of [h0], and its dictionaries are those of [h0]. *)
Definition heap_ext (h0 h : SysHeap) : Prop :=
  (forall q v, describe h0 q = Some v -> describe h q = Some v) /\ dictionaries h = dictionaries h0.

Lemma heap_ext_refl h : heap_ext h h.
Proof. done. Qed.

Lemma heap_ext_trans h0 h1 h2 : heap_ext h0 h1 -> heap_ext h1 h2 -> heap_ext h0 h2.
Proof. intros [Hd E] [Hd' E']. split; [auto|congruence]. Qed.

Definition live_as (N : NamedInfo) (h0 h : SysHeap) (p : Z) : Prop :=
  (exists K, classes_inv env h K) /\ class_named h p N /\ heap_ext h0 h.

Lemma structure_fields h K p i : heap_inv env h K -> K !! p = Some i ->
  hc_kind h p = HcStructure /\ hc_arrayType h p = i_arrayType i /\ hc_butterflyNamedStorageCapacity h p = i_butterfly i.
Proof.
  intros Hinv Hi. destruct (inv_structure env h K Hinv p i Hi) as (s & Hs & Hc). simpl. rewrite Hs. simpl.
  split_and!; [done|apply Hc|apply Hc].
Qed.

Lemma dictionary_fields h K p d : heap_inv env h K -> dictionaries h !! p = Some d ->
  hc_kind h p = HcCacheableDictionary /\ hc_arrayType h p = 0 /\
  hc_butterflyNamedStorageCapacity h p = d_butterflyNamedStorageCapacity d.
Proof. intros Hinv Hd. destruct (dictionary_type env K h p d Hinv Hd) as [Hn _]. simpl. by rewrite Hn, Hd. Qed.

Lemma class_named_info h K p ks ic bf m : heap_inv env h K -> class_named h p (NStructure ks ic bf m) -> exists i, K !! p = Some i /\
  v_keys (view_of i) = ks /\ i_inline i = ic /\ i_butterfly i = bf /\ i_metatable i = m.
Proof. intros Hinv (v & Hd & Hrest). destruct (info_describe env h K p v Hinv Hd) as (i & Hi & ->). by exists i. Qed.

Lemma info_class_named h K p i : heap_inv env h K -> K !! p = Some i ->
  class_named h p (NStructure (v_keys (view_of i)) (i_inline i) (i_butterfly i) (i_metatable i)).
Proof. intros Hinv Hi. exists (view_of i). split; [by eapply describe_info|done]. Qed.

Lemma named_range N h0 h p : live_as N h0 h p -> 0 <= hc_butterflyNamedStorageCapacity h p <= x_maxNamedStorageCapacity.
Proof.
  intros ((K & [Hinv _]) & Hn & _). destruct N as [ks ic bf m|a0 d].
  - destruct (class_named_info h K p ks ic bf m Hinv Hn) as (i & Hi & _).
    destruct (inv_structure env h K Hinv p i Hi) as (s & Hs & _).
    destruct (class_butterfly env h K p s i Hinv Hs Hi) as [Hb _]. destruct (structure_fields h K p i Hinv Hi) as (_ & _ & ->).
    unfold x_maxNamedStorageCapacity. lia.
  - destruct Hn as (_ & Hd & ks & [(k & t & [] & _) _]). by destruct (dictionary_fields h K p d Hinv Hd) as (_ & _ & ->).
Qed.

(** A step of the heap of structures keeps every class. *)
Lemma stepped_named h K h' K' p N : stepped env h K h' K' -> classes_inv env h K -> class_named h p N -> class_named h' p N.
Proof.
  intros Hst Hci. destruct N as [ks ic bf m|a0 d]; simpl.
  - intros (v & Hd & Hrest). exists v. split; [by eapply stepped_describe|done].
  - by rewrite (st_dicts _ _ _ _ _ Hst).
Qed.

Lemma stepped_fields h K h' K' p N : stepped env h K h' K' -> classes_inv env h K -> class_named h p N ->
  hc_kind h' p = hc_kind h p /\ hc_arrayType h' p = hc_arrayType h p /\
  hc_butterflyNamedStorageCapacity h' p = hc_butterflyNamedStorageCapacity h p.
Proof.
  intros [HK _ [Hinv' _] _ Hd] [Hinv _] Hn. destruct N as [ks ic bf m|a0 d].
  - destruct (class_named_info h K p ks ic bf m Hinv Hn) as (i & Hi & _). destruct (structure_fields h K p i Hinv Hi) as (-> & -> & ->).
    eapply structure_fields; [done|]. by eapply lookup_weaken.
  - destruct Hn as (_ & Hp & _). destruct (dictionary_fields h K p d Hinv Hp) as (-> & -> & ->).
    eapply dictionary_fields; [done|]. by rewrite Hd.
Qed.

Lemma update_array_type_stepped h K p i t : classes_inv env h K -> K !! p = Some i -> t <> i_arrayType i ->
  0 <= t <= 63 -> MayHaveMetatable t = MayHaveMetatable (i_arrayType i) ->
  wp (Structure_UpdateArrayType env p t) h (fun c h' => exists K', stepped env h K h' K' /\
    K' !! c = Some (clone_info p i UpdateArrayTypeKind (i_metatable i) t)) True.
Proof.
  intros Hci Hi Hne Ht Hm. eapply wp_fail_mono; [done|].
  eapply Structure_UpdateArrayType_spec; [apply Hci|done|done|done|done|].
  intros c h2 K' Hq Hsame. pose proof Hq as []. exists K'. split; [|done].
  eapply stepped_other; [done|eauto|done| |done]. rewrite array_type_key by done.
  unfold x_key_add_or_to_poly_metatable. lia.
Qed.

Lemma stepped_ext h K h' K' : classes_inv env h K -> stepped env h K h' K' -> heap_ext h h'.
Proof. intros Hci Hst. split; [intros q v; by eapply stepped_describe|by apply Hst]. Qed.

Definition named_laws (N : NamedInfo) (h0 : SysHeap) : HiddenClassLaws SysHeap.
Proof.
  refine {| hc_live := live_as N h0 |}; [apply named_range|].
  intros h p t ((K & Hci) & Hn & Hext) Hk Hne Ht Hm. destruct N as [ks ic bf m|a0 d].
  2: { destruct Hn as (_ & Hd & _). destruct (dictionary_fields h K p d (ci_heap _ _ _ Hci) Hd) as (E & _). congruence. }
  destruct (class_named_info h K p ks ic bf m (ci_heap _ _ _ Hci) Hn) as (i & Hi & Hks & Hin & Hbf & Hmt).
  destruct (structure_fields h K p i (ci_heap _ _ _ Hci) Hi) as (_ & Ha & Hb). rewrite Ha in Hne, Hm.
  destruct (wp_cases _ _ _ _ (update_array_type_stepped h K p i t Hci Hi Hne Ht Hm)) as [(c & h' & E & K' & Hst & Hc)|[E _]];
    [right|by left].
  exists c, h'. split; [exact E|]. pose proof (st_inv _ _ _ _ _ Hst) as Hci'.
  pose proof (heap_ext_trans _ _ _ Hext (stepped_ext h K h' K' Hci Hst)) as Hext'.
  destruct (structure_fields h' K' c _ (ci_heap _ _ _ Hci') Hc) as (-> & -> & ->). rewrite Hb.
  split; [split_and!; [by eexists|eexists; split; [by eapply describe_info; [apply Hci'|]|done]|exact Hext']|].
  split_and!; try done. intros q (_ & Hq & _). destruct (stepped_fields h K h' K' q _ Hst Hci Hq) as (E1 & E2 & E3).
  split; [split_and!; [by eexists|exact (stepped_named h K h' K' q _ Hst Hci Hq)|exact Hext']|done].
Defined.

(** ** The invariant of a whole table *)

Variable hash : Z -> Z.
Notation St := (TableObject.St SysHeap).
Implicit Types (s : St) (t : TableObject).
Notation inv_as N h0 := (@inv SysHeap whole_ops (named_laws N h0) hash).
Notation put_as N h0 := (@put_ok SysHeap whole_ops (named_laws N h0) hash).
Notation view_as := (@TableArray.view SysHeap whole_ops hash).

(** The named part is [f] and [mt]; the array part has the elements of [v] and the
    sparse content [sc]. *)
Record whole_at (K : Classes) s (v : PV) (f : Z -> Z) (mt : Z) (sc : Z -> Z) : Prop := {
  wh_props : props_at env K s v f mt;
  wh_heap : heap_ok (st_heap s);
  wh_sparse : forall p m, st_sparse s !! p = Some m ->
    m_userHeapCurPtr (st_heap s) <= p < - (x_vmBaseOffset - x_vmUserHeapSize) /\ p mod 8 = 0;
  wh_null : m_butterfly (st_table s) = None -> no_array (m_arrayType (st_table s));
  wh_shape : shape (st_sparse s) hash (m_arrayType (st_table s)) (pv_len v) (pv_cap v) (pv_vec v) sc
}.

(** A table whose named properties are [f], whose metatable is [mt] and whose
    elements are [g]. *)
Definition whole s (f : Z -> Z) (mt : Z) (g : Z -> Z) : Prop :=
  exists K v sc, whole_at K s v f mt sc /\ forall k, cont_of (pv_cap v) (pv_vec v) sc k = g k.

(** The meaning of the hidden class of such a table. *)
Lemma props_named K s v f mt : props_at env K s v f mt -> exists N, class_named (st_hc s) (m_hiddenClass (st_table s)) N /\
  hc_butterflyNamedStorageCapacity (st_hc s) (m_hiddenClass (st_table s)) = pv_butterfly v /\
  (hc_kind (st_hc s) (m_hiddenClass (st_table s)) = HcStructure ->
   hc_arrayType (st_hc s) (m_hiddenClass (st_table s)) = m_arrayType (st_table s)) /\
  useful (m_arrayType (st_table s)).
Proof.
  intros [[Hinv _] [[i Hv]|[d Hd]] _].
  - destruct Hv. eexists (NStructure _ _ _ _). split; [by eapply info_class_named|].
    destruct (structure_fields _ K _ i Hinv sv_info) as (_ & -> & ->).
    destruct (inv_structure env _ K Hinv _ i sv_info) as (sc & _ & Hc).
    split_and!; [done|done|]. rewrite sv_arrayType. apply Hc.
  - destruct Hd. exists (NDictionary (m_hiddenClass (st_table s)) d). split; [split_and!; [done|done|by eexists]|].
    destruct (dictionary_fields _ K _ d Hinv dv_info) as (-> & _ & ->). by split_and!.
Qed.

Lemma whole_view K s v f mt sc N : whole_at K s v f mt sc -> class_named (st_hc s) (m_hiddenClass (st_table s)) N ->
  inv_as N (st_hc s) s /\ exists named, view_as s named (pv_len v) (pv_cap v) (pv_vec v) sc /\ Z.of_nat (length named) = pv_butterfly v /\
    Z.of_nat (length (m_inlineStorage (st_table s))) = pv_inline v /\ pv_values v = m_inlineStorage (st_table s) ++ reverse named.
Proof.
  intros [Hp Hh Hsp Hnull Hsh] HN. destruct (props_named K s v f mt Hp) as (_ & _ & Hbf & Hsync & Hu).
  pose proof Hp as [Hci _ [(named & Hb & Hi & Hn & Hv) _ _]].
  assert (@ambient SysHeap whole_ops (named_laws N (st_hc s)) s) as Ha.
  { split; try done. split; [by exists K|done]. }
  destruct Hb as [(Hb & -> & Hl & Hc & Hvec)|[Hb Hok]].
  - assert (null_parts s) as Hnp by (split_and!; [done|rewrite Hbf, <- Hn; done|by apply Hnull]).
    split; [split; [done|by left]|]. exists []. split_and!; try done. right. split_and!; try done.
    destruct Hsh; try done. lia.
  - assert (parts hash s named (pv_len v) (pv_cap v) (pv_vec v) sc) as Hparts by (split_and!; [done|done|by rewrite Hn|done]).
    split; [split; [done|right; by eexists _, _, _, _, _]|]. exists named. split_and!; try done. by left.
Qed.

(** Two views with the same words in front of the header. *)
Lemma same_named s s' named named' l c ve sc l' c' ve' sc' : view_as s named l c ve sc -> view_as s' named' l' c' ve' sc' ->
  length named' = length named -> (forall ord, ord < 0 -> named_word s' ord = named_word s ord) -> named' = named.
Proof.
  intros Hv Hv' Hl Hw. apply list_eq. intros j. destruct (decide (j < length named)%nat) as [Hj|Hj].
  - specialize (Hw (Z.of_nat j - Z.of_nat (length named)) ltac:(lia)).
    rewrite (view_named_word hash s' named' l' c' ve' sc'), (view_named_word hash s named l c ve sc) in Hw by (done || lia).
    rewrite Hl in Hw. replace (Z.of_nat (length named) + (Z.of_nat j - Z.of_nat (length named))) with (Z.of_nat j) in Hw by lia.
    destruct (Z.ltb_spec (Z.of_nat j) 0); [lia|]. by rewrite Nat2Z.id in Hw.
  - rewrite !lookup_ge_None_2 by lia. done.
Qed.

(** A table after a put by index, when its hidden class still has the old capacity. *)
Lemma put_layout K s v f mt sc N key x s' : whole_at K s v f mt sc -> class_named (st_hc s) (m_hiddenClass (st_table s)) N ->
  put_as N (st_hc s) s key x s' ->
  hc_butterflyNamedStorageCapacity (st_hc s') (m_hiddenClass (st_table s')) = pv_butterfly v ->
  exists len cap vec sc', layout (st_table s') (pv_inline v) (pv_butterfly v) (pv_values v) len cap vec /\
    shape (st_sparse s') hash (m_arrayType (st_table s')) len cap vec sc' /\
    (m_butterfly (st_table s') = None -> no_array (m_arrayType (st_table s'))) /\
    forall k, cont_of cap vec sc' k = if UnsafeFloatEqual key k then x else cont_of (pv_cap v) (pv_vec v) sc k.
Proof.
  intros Hw HN [Hinv Hcont Hin Hnw _ _ _ _ _] Hbf.
  destruct (whole_view K s v f mt sc N Hw HN) as (_ & named & Hv & Hn & Hi & Hvs).
  destruct (inv_view hash s' Hinv) as (_ & named' & len & cap & vec & sc' & Hv').
  pose proof (view_named hash s' named' len cap vec sc' Hv') as Hn'.
  assert (named' = named) as -> by (eapply same_named; [exact Hv|exact Hv'|lia|exact Hnw]).
  exists len, cap, vec, sc'. split_and!.
  - exists named. split_and!; [|by rewrite Hin|done|by rewrite Hin].
    destruct Hv' as [(Hb & Hok & _)|((Hb & _) & -> & -> & -> & -> & _)]; [by right|by left].
  - destruct Hv' as [(_ & _ & _ & Hsh)|((_ & _ & Hna) & _ & -> & -> & -> & ->)]; [done|].
    by apply sh_none; [..|apply Forall_nil|].
  - destruct Hv' as [(Hb & _)|((_ & _ & Hna) & _)]; [congruence|done].
  - intros k. rewrite <- (view_content hash s' named len cap vec sc' k Hv'), Hcont.
    by rewrite <- (view_content hash s named (pv_len v) (pv_cap v) (pv_vec v) sc k Hv).
Qed.

Lemma pointers_of_view (ks : list Z) : Forall valid_key ks -> GeneralHeapPointer <$> (GeneralHeapPointer_As <$> ks) = ks.
Proof. intros Hl. induction Hl as [|g l Hg _ IH]; [done|]. rewrite !fmap_cons, IH. f_equal. by apply valid_key_As. Qed.

Lemma keys_of_view (ks ks' : list Z) : Forall valid_key ks -> Forall valid_key ks' ->
  GeneralHeapPointer_As <$> ks = GeneralHeapPointer_As <$> ks' -> ks = ks'.
Proof. intros Hk Hk' E. by rewrite <- (pointers_of_view ks), <- (pointers_of_view ks'), E. Qed.

Lemma stored_parts t t' v f len cap vec : stored env t v f ->
  layout t' (pv_inline v) (pv_butterfly v) (pv_values v) len cap vec ->
  stored env t' (mkPV (pv_keys v) (pv_inline v) (pv_butterfly v) (pv_values v) len cap vec) f.
Proof. intros [] ?. by split. Qed.

(** What an operation on the table of [s] does to the heaps it shares with other
    tables: nothing to their classes, dictionaries and sparse maps; and it does not
    make a dictionary or a sparse map that was there its own. *)
Record isolated s s' : Prop := {
  is_describe : forall q v, describe (st_hc s) q = Some v -> describe (st_hc s') q = Some v;
  is_dicts : forall q d, q <> m_hiddenClass (st_table s) -> dictionaries (st_hc s) !! q = Some d ->
    dictionaries (st_hc s') !! q = Some d;
  is_class : is_Some (dictionaries (st_hc s) !! m_hiddenClass (st_table s')) ->
    m_hiddenClass (st_table s') = m_hiddenClass (st_table s);
  is_sparse : forall p m, st_sparse s !! p = Some m -> own_sparse s <> Some p -> st_sparse s' !! p = Some m;
  is_owner : forall p m, st_sparse s !! p = Some m -> own_sparse s' = Some p -> own_sparse s = Some p;
  is_cur : m_userHeapCurPtr (st_heap s') <= m_userHeapCurPtr (st_heap s)
}.

Lemma put_isolated s N key x s' : put_as N (st_hc s) s key x s' -> class_named (st_hc s) (m_hiddenClass (st_table s)) N -> isolated s s'.
Proof.
  intros [[[_ _ ([K' [Hinv' _]] & Hn' & Hd & Edicts) _ _] _] _ _ _ _ Hf Ho Hcur _] HN. split; try done; rewrite ?Edicts; try done.
  intros Hx. destruct N as [ks ic bf m|a d]; [|destruct Hn' as [-> _], HN as [-> _]; done].
  destruct (class_named_info _ K' _ _ _ _ _ Hinv' Hn') as (i & Hi & _). exfalso.
  rewrite <- Edicts in Hx. apply (hi_disjoint _ _ _ Hinv') in Hx. congruence.
Qed.

(** A put by index leaves the named part alone. *)
Lemma put_whole s f mt g : whole s f mt g -> exists N, inv_as N (st_hc s) s /\ (forall k, array_content s k = g k) /\
  forall key x s', put_as N (st_hc s) s key x s' -> whole s' f mt (fun k => if UnsafeFloatEqual key k then x else g k) /\ isolated s s'.
Proof.
  intros (K & v & sc & Hw & Hg). pose proof Hw as [[Hci Hcl Hsto] _ _ _ _]. pose proof (ci_heap _ _ _ Hci) as Hinv.
  assert (exists N, class_named (st_hc s) (m_hiddenClass (st_table s)) N /\ forall key x s', put_as N (st_hc s) s key x s' ->
    hc_butterflyNamedStorageCapacity (st_hc s') (m_hiddenClass (st_table s')) = pv_butterfly v /\
    exists K', classes_inv env (st_hc s') K' /\ forall len cap vec,
      class_view env K' s' (mkPV (pv_keys v) (pv_inline v) (pv_butterfly v) (pv_values v) len cap vec) mt) as (N & HN & Hstep).
  { destruct Hcl as [[i Hi]|[d Hd]].
    - destruct Hi. eexists. split; [by eapply info_class_named|]. intros key x s' [[[_ _ ([K' Hci'] & Hn' & _) Hsync Hu] _] _ _ _ _ _ _ _ _].
      pose proof (ci_heap _ _ _ Hci') as Hinv'.
      destruct (class_named_info _ K' _ _ _ _ _ Hinv' Hn') as (i' & Hi' & Hks & Hin & Hbf & Hmt).
      destruct (structure_fields _ K' _ i' Hinv' Hi') as (Hk' & Ha' & Hb').
      destruct (inv_structure env _ K Hinv _ i sv_info) as (? & _ & Hc).
      destruct (inv_structure env _ K' Hinv' _ i' Hi') as (? & _ & Hc').
      assert (i_keys i' = i_keys i) as Hkeys by (eapply keys_of_view; [apply Hc'|apply Hc|exact Hks]).
      split; [congruence|]. exists K'. split; [done|]. intros len cap vec. left. exists i'.
      split; simpl; rewrite ?Hmt; try congruence; [|by rewrite <- Hsync|done].
      rewrite sv_metatable. unfold struct_metatable. by rewrite Hmt.
    - pose proof Hd as []. exists (NDictionary (m_hiddenClass (st_table s)) d). split; [split_and!; [done|done|by eexists]|].
      intros key x s' [[[_ _ ([K' Hci'] & (_ & Hd' & _) & _) _ Hu] _] _ _ _ Hm _ _ _ _].
      destruct (dictionary_fields _ K' _ d (ci_heap _ _ _ Hci') Hd') as (_ & _ & ->).
      split; [done|]. exists K'. split; [done|]. intros len cap vec. right. exists d. split; simpl; try done. by rewrite Hm. }
  destruct (whole_view K s v f mt sc N Hw HN) as (Hi & named & Hv & _).
  exists N. split; [done|]. split; [intros k; by rewrite (view_content hash s _ _ _ _ _ k Hv), Hg|].
  intros key x s' Hput. split; [|by eapply put_isolated]. destruct (Hstep key x s' Hput) as (Hbf & K' & Hci' & Hcl').
  destruct (put_layout K s v f mt sc N key x s' Hw HN Hput Hbf) as (len & cap & vec & sc' & Hl & Hsh & Hnull & Hc).
  destruct (po_inv _ _ _ _ _ Hput) as [[Hh Hsp _ _ _] _].
  exists K', (mkPV (pv_keys v) (pv_inline v) (pv_butterfly v) (pv_values v) len cap vec), sc'. split.
  - split; try done.
    split; [done|apply Hcl'|by eapply stored_parts].
  - intros k. simpl. by rewrite Hc, Hg.
Qed.

(** The sparse map of a table. *)
Lemma whole_own K s v f mt sc : whole_at K s v f mt sc ->
  own_sparse s = if HasSparseMap (m_arrayType (st_table s)) then Some (GeneralHeapPointer_As (pv_len v)) else None.
Proof.
  intros [[_ _ [(named & [(Hb & -> & Hl & _)|[Hb Hok]] & _) _ _]] _ _ Hnull _]; unfold own_sparse; rewrite Hb.
  - destruct (Hnull Hb) as (_ & _ & -> & _). done.
  - simpl. by rewrite m_arrayLengthIfContinuous_mk.
Qed.

Lemma becomes_whole_at K s v f mt sc K' s' v' f' mt' : whole_at K s v f mt sc -> props_at env K' s' v' f' mt' ->
  undisturbed K s v K' s' v' -> (m_butterfly (st_table s') = None -> m_butterfly (st_table s) = None) ->
  whole_at K' s' v' f' mt' sc.
Proof.
  intros [Hp Hh Hsp Hnull Hsh] Hp' [_ (El & Ec & Ev) Ht [Eh Es] _ _] Hb. split; rewrite ?Eh, ?Es, ?El, ?Ec, ?Ev; try done.
  - intros Hn. eapply no_array_flag; [exact Ht|]. by apply Hnull, Hb.
  - by eapply shape_flag.
Qed.

(** An operation on named properties leaves the elements alone. *)
Lemma becomes_whole K s v f mt sc f' mt' s' : whole_at K s v f mt sc -> becomes env K s v f' mt' s' ->
  (m_butterfly (st_table s') = None -> m_butterfly (st_table s) = None) ->
  whole s' f' mt' (cont_of (pv_cap v) (pv_vec v) sc) /\ isolated s s'.
Proof.
  intros Hw (K' & v' & Hp' & Hun) Hb. pose proof (becomes_whole_at K s v f mt sc K' s' v' f' mt' Hw Hp' Hun Hb) as Hw'.
  destruct Hun as [HK (El & Ec & Ev) Ht [Eh Es] Hd Ho]. split.
  - exists K', v', sc. split; [done|]. intros k. by rewrite Ec, Ev.
  - pose proof (ci_heap _ _ _ (pa_classes _ _ _ _ _ _ (wh_props _ _ _ _ _ _ Hw))) as Hinv.
    pose proof (ci_heap _ _ _ (pa_classes _ _ _ _ _ _ (wh_props _ _ _ _ _ _ Hw'))) as Hinv'.
    split; rewrite ?Eh, ?Es; try done.
    + intros q w Hw1. destruct (info_describe env _ K q w Hinv Hw1) as (i & Hi & ->).
      eapply describe_info; [done|]. by eapply lookup_weaken.
    + intros p m _. rewrite (whole_own K s v f mt sc Hw), (whole_own K' s' v' f' mt' sc Hw'), El.
      by destruct (flag_fields _ _ Ht) as (_ & _ & -> & _).
Qed.
End laws.
