(* ===== verification/TableHistory.v ===== *)
(** * Histories of a table

    Puts by name, puts by index and changes of the metatable in any order on one
    table: what the table means afterwards is what the last writes said. *)

From S2P Require Import Prelude Double TValue MiscMath Machine TypeMask ArrayType Butterfly SparseMap HiddenClass TableObject TableArray TableTheorems Probing CheckedTable ClassHeap Structure Transition ClassInv ClassLookup ClassFrame ClassCreate ClassTransition ClassQuery ClassOps ClassView Dictionary TableClasses NamedProps NamedInv NamedPut NamedTransition NamedMeta TableWhole.

(** ** Operations *)

Inductive TableOp :=
| PutNamed (isString : bool) (key v : Z)
| PutDouble (index v : Z)
| PutInteger (index v : Z)
| SetMeta (metatable : Z)
| RemoveMeta.

(** What a table means. *)
Record Meaning := mkMeaning { named_value : Z -> Z; metatable : Z; element : Z -> Z }.

Definition empty_meaning : Meaning := mkMeaning (fun _ => Nil) 0 (fun _ => Nil).

Definition put_element (g : Z -> Z) (index v : Z) : Z -> Z := fun k => if UnsafeFloatEqual index k then v else g k.

Definition meaning_after (m : Meaning) (op : TableOp) : Meaning :=
  match op with
  | PutNamed _ key v => mkMeaning (write (named_value m) key v) (metatable m) (element m)
  | PutDouble index v => mkMeaning (named_value m) (metatable m) (put_element (element m) index v)
  | PutInteger index v => mkMeaning (named_value m) (metatable m) (put_element (element m) (double_of_int index) v)
  | SetMeta mt => mkMeaning (named_value m) mt (element m)
  | RemoveMeta => mkMeaning (named_value m) 0 (element m)
  end.

Section history.
Variable env : Env.
Variable hash : Z -> Z.
Variable garbage : Z.
#[local] Instance history_ops : HiddenClassOps SysHeap := sys_ops env.
Notation St := (TableObject.St SysHeap).
Implicit Types (s : St).

Definition run_table (op : TableOp) : MT unit :=
  match op with
  | PutNamed isString key v => RawPutById env isString key v
  | PutDouble index v => RawPutByValDoubleIndex hash index v
  | PutInteger index v => RawPutByValIntegerIndex hash index v
  | SetMeta mt => TableObject_SetMetatable env garbage mt
  | RemoveMeta => TableObject_RemoveMetatable env garbage
  end.

Fixpoint run_history (ops : list TableOp) : MT unit :=
  match ops with [] => mret tt | op :: ops => run_table op;; run_history ops end.

Definition table_op_ok (op : TableOp) : Prop :=
  match op with
  | PutNamed isString key _ => property_key env isString key
  | PutDouble index _ => IsNaN index = false
  | PutInteger index _ => in_i 64 index /\ IsInt64Index (double_of_int index) = Some index
  | SetMeta mt => user_key mt
  | RemoveMeta => True
  end.

(** When an operation stops the process. *)
Definition table_exhausted (op : TableOp) s : Prop :=
  match op with
  | PutNamed _ _ _ => put_exhausted s
  | PutDouble _ _ | PutInteger _ _ => exhausted s
  | SetMeta _ | RemoveMeta => meta_exhausted s
  end.

Definition means s (m : Meaning) : Prop := whole env hash s (named_value m) (metatable m) (element m).

Hypothesis special_user : user_key (GetSpecialKeyForMetadataSlot env).

Lemma named_step (m : MT unit) s f mt g f' mt' (F : Prop) : whole env hash s f mt g ->
  (forall K v, props_at env K s v f mt -> wp m s (fun _ s' => becomes env K s v f' mt' s') F) -> keeps m ->
  wp m s (fun _ s' => whole env hash s' f' mt' g /\ isolated s s') F.
Proof.
  intros (K & v & sc & Hw & Hg) Hm Hk. specialize (Hm K v (wh_props _ _ _ _ _ _ _ _ Hw)).
  unfold wp in *. destruct (m s) as [[a s']| |] eqn:E; [|done..].
  destruct (becomes_whole env hash K s v f mt sc f' mt' s' Hw Hm (Hk s a s' E)) as ((K' & v' & sc' & Hw' & Hg') & Hi). split; [|done].
  exists K', v', sc'. split; [done|]. intros k. by rewrite Hg', Hg.
Qed.

Lemma run_table_spec op s m : means s m -> table_op_ok op ->
  wp (run_table op) s (fun _ s' => means s' (meaning_after m op) /\ isolated s s') (table_exhausted op s).
Proof.
  intros Hs Hop. destruct op as [isString key v|index v|index v|mt|]; simpl in *.
  - eapply named_step; [exact Hs| |apply keeps_RawPutById]. intros K pv Hp. by apply RawPutById_at.
  - destruct (put_whole env hash s _ _ _ Hs) as (N & Hinv & _ & Hput).
    eapply wp_post_mono; [|by apply (@RawPutByValDoubleIndex_spec _ _ (named_laws env N (st_hc s)))].
    intros ? s' Hok. by apply (Hput _ _ _ Hok).
  - destruct (put_whole env hash s _ _ _ Hs) as (N & Hinv & _ & Hput). destruct Hop as [Hi He].
    eapply wp_post_mono; [|by apply (@RawPutByValIntegerIndex_spec _ _ (named_laws env N (st_hc s)))].
    intros ? s' Hok. by apply (Hput _ _ _ Hok).
  - eapply named_step; [exact Hs| |apply keeps_SetMetatable]. intros K pv Hp. by eapply SetMetatable_at.
  - eapply named_step; [exact Hs| |apply keeps_RemoveMetatable]. intros K pv Hp. by eapply RemoveMetatable_at.
Qed.

(** The reads of a table with a meaning. *)
Lemma means_reads s m : means s m ->
  (forall isString key, property_key env isString key -> RawGetById env isString key s = Ok (named_value m key, s)) /\
  (exists r, GetMetatable s = Ok (r, s) /\ gm_result r = metatable m) /\
  (forall k, GetByDoubleVal hash k (PrepareGetByIntegerIndex (m_arrayType (st_table s))) s = Ok (element m k, s)).
Proof.
  intros Hs. pose proof Hs as (K & v & sc & Hw & _). assert (props env s (named_value m) (metatable m)) as Hp by (by exists K, v; apply Hw).
  split_and!.
  - intros isString key Hk. destruct (wp_returns _ _ _ (RawGetById_spec env s _ _ isString key Hp Hk)) as (x & s' & -> & -> & ->). done.
  - destruct (wp_returns _ _ _ (GetMetatable_spec env s _ _ Hp)) as (r & s' & E & Hr & ->). by exists r.
  - intros k. destruct (put_whole env hash s _ _ _ Hs) as (N & Hinv & Hc & _).
    destruct (wp_returns _ _ _ (@GetByDoubleVal_spec _ _ (named_laws env N (st_hc s)) hash s k Hinv)) as (x & s' & E & -> & ->).
    by rewrite E, Hc.
Qed.

Definition meaning_of (m : Meaning) (ops : list TableOp) : Meaning := foldl meaning_after m ops.

(** Either every operation runs, or one of them finds its resources exhausted. *)
Lemma run_history_spec ops : Forall table_op_ok ops -> forall s m, means s m ->
  (exists s', run_history ops s = Ok (tt, s') /\ means s' (meaning_of m ops)) \/
  (run_history ops s = VMFail /\ exists ops1 op ops2 s1, ops = ops1 ++ op :: ops2 /\ run_history ops1 s = Ok (tt, s1) /\
     table_exhausted op s1).
Proof.
  induction 1 as [|op ops Hop _ IH]; intros s m Hs; [left; by exists s|].
  destruct (wp_cases _ _ _ _ (run_table_spec op s m Hs Hop)) as [([] & s1 & E & H1 & _)|[E Hex]].
  - destruct (IH s1 _ H1) as [(s2 & E2 & H2)|(E2 & ops1 & op' & ops2 & s2 & -> & Er & Hex)]; [left|right].
    + exists s2. split; [|done]. simpl. by rewrite (bind_ok _ _ _ _ _ E).
    + split; [simpl; by rewrite (bind_ok _ _ _ _ _ E)|].
      exists (op :: ops1), op', ops2, s2. split; [done|]. split; [|done]. simpl. by rewrite (bind_ok _ _ _ _ _ E).
  - right. split; [simpl; by apply bind_fail|]. exists [], op, ops, s. by split_and!.
Qed.

(** ** New tables *)

Lemma created_fields h heap sparse p inl cap r s : CreateEmptyTableObjectImpl h heap sparse p inl cap = Ok (r, s) ->
  st_hc s = h /\ m_hiddenClass (st_table s) = p /\ m_arrayType (st_table s) = GetInitialArrayType /\
  m_inlineStorage (st_table s) = replicate (Z.to_nat inl) Nil /\ st_sparse s = sparse /\
  AllocFromUserHeap (ComputeObjectAllocationSize inl) heap = Ok (r, st_heap s).
Proof.
  unfold CreateEmptyTableObjectImpl. destruct (AllocFromUserHeap _ heap) as [[a heap']| |]; [|done..].
  destruct (0 <? cap); [destruct (GrowButterflyFromNull false cap); [|done]|]; by intros [= <- <-].
Qed.

(** The structure of an empty table without metatable. *)
Definition empty_structure (v : ClassView) : Prop :=
  v_keys v = [] /\ v_metatable v = 0 /\ v_arrayType v = GetInitialArrayType /\ v_butterfly v = 0.

Lemma created_at h heap sparse p cap K i : classes_inv env h K -> K !! p = Some i -> empty_structure (view_of i) ->
  world_ok h heap sparse -> 0 <= cap <= x_alwaysVectorCutoff ->
  (exists r s, CreateEmptyTableObjectImpl h heap sparse p (i_inline i) cap = Ok (r, s) /\ means s empty_meaning) \/
  (CreateEmptyTableObjectImpl h heap sparse p (i_inline i) cap = VMFail /\
     heap_exhausted (ComputeObjectAllocationSize (i_inline i)) heap).
Proof.
  intros Hci Hi (Hks & Hm & Ha & Hb) Hw Hcap. simpl in *.
  destruct (inv_structure env h K (ci_heap _ _ _ Hci) p i Hi) as (sc0 & _ & Hcl).
  pose proof (fmap_nil_inv _ _ Hks) as Hks'. pose proof (cl_inline_range _ _ _ _ _ Hcl).
  set (N := NStructure [] (i_inline i) 0 0).
  destruct (structure_fields env h K p i (ci_heap _ _ _ Hci) Hi) as (_ & Hat & Hbf).
  destruct (@create_spec _ _ (named_laws env N h) hash h heap sparse p (i_inline i) cap) as [(r & s & E & Hinv & Hnil)|?];
    [done| |unfold x_maxNumSlots in *; lia|done| |by right].
  { split; [|split; [by rewrite Hat|by rewrite Hbf]]. split_and!; [by exists K| |apply heap_ext_refl].
    exists (view_of i). split; [by eapply describe_info; [apply Hci|]|]. simpl. by rewrite Hks'. }
  left. exists r, s. split; [done|]. destruct (created_fields _ _ _ _ _ _ _ _ E) as (Eh & Ep & Ea & Ei & _).
  destruct (inv_view hash s Hinv) as ([Hh Hsp _ _ _] & named & len & cap' & vec & sc & Hv).
  pose proof (view_named hash s named len cap' vec sc Hv) as Hn. rewrite Eh, Ep, Hbf, Hb in Hn.
  destruct named as [|? ?]; [|simpl in Hn; lia]. clear Hn.
  exists K, (mkPV [] (i_inline i) 0 (replicate (Z.to_nat (i_inline i)) Nil) len cap' vec), sc. split.
  - split; simpl; try done.
    + split; [by rewrite Eh|left; exists i; split; simpl; rewrite ?Eh, ?Ep; try done; try congruence|].
      * unfold struct_metatable. by rewrite Hm.
      * lia.
      * split; simpl.
        -- exists []. rewrite Ei, length_replicate. split_and!; [|lia|done|by rewrite app_nil_r].
           destruct Hv as [(Hbs & Hok & _)|((Hbs & _) & _ & -> & -> & -> & _)]; [by right|by left].
        -- intros j x _ Hx. by apply lookup_replicate_1 in Hx as [-> _].
        -- intros key _ _. right. split; [apply not_elem_of_nil|done].
    + intros _. rewrite Ea. apply initial_no_array.
    + destruct Hv as [(_ & _ & _ & Hsh)|(_ & _ & -> & -> & -> & ->)]; [done|].
      rewrite Ea. apply sh_none; [apply initial_no_array|done|by apply Forall_nil|done].
  - intros k. simpl. by rewrite <- (view_content hash s [] len cap' vec sc k Hv), Hnil.
Qed.

Lemma created_means h heap sparse p cap v r s : reachable env h -> describe h p = Some v -> empty_structure v ->
  world_ok h heap sparse -> 0 <= cap <= x_alwaysVectorCutoff ->
  CreateEmptyTableObjectImpl h heap sparse p (v_inline v) cap = Ok (r, s) -> means s empty_meaning.
Proof.
  intros Hr Hd He Hw Hcap E. destruct (reachable_info env special_user h p v Hr Hd) as (K & i & Hci & _ & Hi & ->).
  destruct (created_at h heap sparse p cap K i Hci Hi He Hw Hcap) as [(r' & s' & E' & Hs)|[E' _]]; simpl in *; [|congruence].
  rewrite E in E'. by injection E' as <- <-.
Qed.
End history.
