(* ===== verification/TableProperties.v ===== *)
(** * Properties of whole tables

    The theorems on tables with their named properties, elements and metatable,
    with their instances on a sample heap. *)

From S2P Require Import Prelude Double TValue MiscMath Machine TypeMask ArrayType Butterfly SparseMap HiddenClass TableObject TableArray TableTheorems Probing CheckedTable ClassHeap Structure Transition ClassInv ClassLookup ClassFrame ClassCreate ClassTransition ClassQuery ClassOps ClassView ClassTheorems ClassIterator Dictionary TableClasses NamedProps NamedInv NamedPut NamedTransition NamedMeta TableWhole TableHistory.

(** ** Sample data *)

Definition sample_hash (_ : Z) : Z := 0.
Definition sample_view : ClassView := default (mkView [] 0 0 0 0 0) (describe sample_base sample_root).

Lemma sample_view_ok : describe sample_base sample_root = Some sample_view /\ empty_structure sample_view /\ v_inline sample_view = 2.
Proof.
  unfold sample_view. destruct (describe sample_base sample_root) as [v|] eqn:E; [|exfalso; by vm_compute in E].
  vm_compute in E. injection E as <-. by split_and!.
Qed.

Lemma sample_world : world_ok sample_base initUserHeap ∅.
Proof. split; [apply initUserHeap_ok|]. intros q m Hm. by rewrite lookup_empty in Hm. Qed.

Lemma sample_table_created : exists r, CreateEmptyTableObjectImpl sample_base initUserHeap ∅ sample_root 2 4 = Ok (r, sample_class_table).
Proof.
  unfold sample_class_table. destruct (CreateEmptyTableObjectImpl sample_base initUserHeap ∅ sample_root 2 4) as [[r s]| |] eqn:Es;
    [by exists r|exfalso; by vm_compute in Es..].
Qed.

Lemma sample_table_means : means sample_env sample_hash sample_class_table empty_meaning.
Proof.
  destruct sample_table_created as [r E]. destruct sample_view_ok as (Hd & He & Hi).
  apply (created_means sample_env sample_hash sample_special sample_base initUserHeap ∅ sample_root 4 sample_view r);
    [apply sample_base_reachable|done|done|apply sample_world|unfold x_alwaysVectorCutoff; lia|by rewrite Hi].
Qed.

Definition sample_table_ops : list TableOp :=
  [PutNamed true (sample_key 2) (CreateInt32 2); PutNamed false (sample_key 3) (CreateInt32 3); SetMeta (sample_key 50);
   PutInteger 1 (CreateInt32 10); PutNamed true (sample_key 4) (CreateInt32 4); SetMeta (sample_key 51);
   PutNamed true (sample_key 3) (CreateInt32 7); PutDouble (double_of_int 100000000) (CreateInt32 11); RemoveMeta].

Lemma sample_ops_ok : Forall (table_op_ok sample_env) sample_table_ops.
Proof. repeat constructor; by apply (bool_decide_unpack _); vm_compute. Qed.

(** ** Histories *)

(** C2: a table is a map.  A table is made with an empty structure as its hidden
    class and an initial vector of at most [x_alwaysVectorCutoff] (1000) elements
    (with a larger one, the subject of [preallocated_put_is_lost], this does not
    hold), and then any puts by name, puts by double or integer index and changes
    of the metatable are done in any order.  Either all of them run, and then a get
    by name and a get by index return the last value written there, nil if there
    is none, and the metatable is the last one set; or the process stops at an
    operation that finds its resources exhausted.  Nothing is undefined. *)
Theorem table_history env hash garbage h heap sparse p cap v r s ops :
  user_key (GetSpecialKeyForMetadataSlot env) -> reachable env h -> describe h p = Some v -> empty_structure v ->
  world_ok h heap sparse -> 0 <= cap <= x_alwaysVectorCutoff ->
  CreateEmptyTableObjectImpl h heap sparse p (v_inline v) cap = Ok (r, s) -> Forall (table_op_ok env) ops ->
  let m := meaning_of empty_meaning ops in
  (exists s', run_history env hash garbage ops s = Ok (tt, s') /\
     (forall isString key, property_key env isString key -> RawGetById env isString key s' = Ok (named_value m key, s')) /\
     (forall k, GetByDoubleVal hash k (PrepareGetByIntegerIndex (m_arrayType (st_table s'))) s' = Ok (element m k, s')) /\
     (exists mt, GetMetatable s' = Ok (mt, s') /\ gm_result mt = metatable m)) \/
  (run_history env hash garbage ops s = VMFail /\ exists ops1 op ops2 s1, ops = ops1 ++ op :: ops2 /\
     run_history env hash garbage ops1 s = Ok (tt, s1) /\ table_exhausted env op s1).
Proof.
  intros Hu Hr Hd He Hw Hc E Hops m.
  pose proof (created_means env hash Hu h heap sparse p cap v r s Hr Hd He Hw Hc E) as Hs.
  destruct (run_history_spec env hash garbage Hu ops Hops s _ Hs) as [(s' & Er & Hs')|Hf]; [left|by right].
  exists s'. split; [done|]. destruct (means_reads env hash s' _ Hs') as (? & ? & ?). by split_and!.
Qed.

Lemma table_history_witness : exists s',
  run_history sample_env sample_hash 0 sample_table_ops sample_class_table = Ok (tt, s') /\
  RawGetById sample_env true (sample_key 3) s' = Ok (CreateInt32 7, s') /\
  RawGetById sample_env true (sample_key 9) s' = Ok (Nil, s').
Proof.
  destruct sample_table_created as [r Es]. destruct sample_view_ok as (Hd & He & Hi). rewrite <- Hi in Es.
  destruct (table_history sample_env sample_hash 0 sample_base initUserHeap ∅ sample_root 4 sample_view r sample_class_table
    sample_table_ops sample_special sample_base_reachable Hd He sample_world ltac:(unfold x_alwaysVectorCutoff; lia) Es sample_ops_ok)
    as [(s' & E & Hget & _)|[E _]].
  - exists s'. split; [exact E|].
    split; rewrite Hget by (by apply (bool_decide_unpack _); vm_compute); do 2 f_equal; by vm_compute.
  - exfalso. by vm_compute in E.
Defined.

(** ** Inline caches *)

(** C18: an inline cache for a get by name is valid for every table of the
    structure.  What [PrepareGetById] found out with one table, whose hidden class
    is a structure, [GetById] may use with any table that has the structure, at any
    later time: it returns the property of that table, nil included. *)
Theorem get_inline_cache env hash s m s' m' v isString key ic s1 :
  user_key (GetSpecialKeyForMetadataSlot env) -> means env hash s m -> means env hash s' m' ->
  property_key env isString key ->
  m_hiddenClass (st_table s') = m_hiddenClass (st_table s) ->
  describe (st_hc s) (m_hiddenClass (st_table s)) = Some v -> describe (st_hc s') (m_hiddenClass (st_table s)) = Some v ->
  PrepareGetById env isString key s = Ok (ic, s1) ->
  GetById ic s' = Ok (named_value m' key, s').
Proof.
  intros Hsu (K & pv & sc & [Hp _ _ _ _] & _) (K' & pv' & sc' & [Hp' _ _ _ _] & _) Hk Hsame Hd Hd' E.
  pose proof Hk as (Hu & Hsp & _). pose proof Hp as [[Hinv _] _ _]. pose proof Hp' as [[Hinv' _] Hcl' _].
  destruct (info_describe env _ K _ v Hinv Hd) as (i & Hi & ->).
  destruct (info_describe env _ K' _ _ Hinv' Hd') as (i' & Hi' & Hview).
  destruct (inv_structure env _ K Hinv _ i Hi) as (st & Hst & Hc).
  destruct (inv_structure env _ K' Hinv' _ i' Hi') as (st' & Hst' & Hc').
  injection Hview as Hks Hin _ _ _ _. apply keys_of_view in Hks; [|apply Hc|apply Hc'].
  destruct (Structure_find_spec env K (st_hc s) st i isString key Hinv Hc Hk) as (r & Hr & Hm).
  unfold PrepareGetById, on_heap, query, get_table, mbind, M_bind, access in E. simpl in E.
  unfold PrepareGetByIdImpl, hidden_class_type, PrepareGetByIdImplForStructure in E. rewrite Hst in E. cbn [mbind option_bind] in E.
  rewrite Hr in E. cbn [mbind option_bind] in E. injection E as <- _.
  destruct Hcl' as [[i2 Hv']|[d Hd2]].
  - destruct Hv'. rewrite Hsame in sv_info. assert (i2 = i') as -> by congruence.
    rewrite (cl_inline _ _ _ _ _ Hc), Hin, <- sv_inline. rewrite Hks, <- sv_keys in Hm.
    assert (wp (GetById (match r with Some slot => get_ic (negb (s_metatable st =? 0)) slot (pv_inline pv')
        | None => GetByIdICInfo.mk GetByIdICInfo.MustBeNil (negb (s_metatable st =? 0)) 0 end)) s'
      (fun x s2 => x = named_value m' key /\ s2 = s') False) as Hread by (eapply read_found; try done; by left).
    destruct (wp_returns _ _ _ Hread) as (x & s2 & -> & -> & ->). done.
  - destruct Hd2. rewrite Hsame in dv_info. destruct (dictionary_type env K' _ _ d Hinv' dv_info) as [Hn _]. congruence.
Qed.

Lemma sample_reaches ops s : Forall (table_op_ok sample_env) ops ->
  run_history sample_env sample_hash 0 ops sample_class_table = Ok (tt, s) ->
  means sample_env sample_hash s (meaning_of empty_meaning ops).
Proof.
  intros Hops E. destruct (run_history_spec sample_env sample_hash 0 sample_special ops Hops _ _ sample_table_means)
    as [(s' & E' & Hs)|[E' _]]; [|congruence]. rewrite E in E'. by injection E' as ->.
Qed.

Lemma get_inline_cache_witness : exists s s' ic,
  run_history sample_env sample_hash 0 [PutNamed true (sample_key 3) (CreateInt32 1)] sample_class_table = Ok (tt, s) /\
  run_history sample_env sample_hash 0 [PutNamed true (sample_key 3) (CreateInt32 1); PutNamed true (sample_key 3) (CreateInt32 2)]
    sample_class_table = Ok (tt, s') /\
  PrepareGetById sample_env true (sample_key 3) s = Ok (ic, s) /\ GetById ic s' = Ok (CreateInt32 2, s').
Proof.
  set (put v := PutNamed true (sample_key 3) (CreateInt32 v)).
  destruct (run_history sample_env sample_hash 0 [put 1] sample_class_table) as [[[] s]| |] eqn:E1; [|exfalso; by vm_compute in E1..].
  destruct (run_history sample_env sample_hash 0 [put 1; put 2] sample_class_table) as [[[] s']| |] eqn:E2;
    [|exfalso; by vm_compute in E2..].
  destruct (PrepareGetById sample_env true (sample_key 3) s) as [[ic s1]| |] eqn:E3;
    [|exfalso; vm_compute in E1; injection E1 as <-; by vm_compute in E3..].
  destruct (describe (st_hc s) (m_hiddenClass (st_table s))) as [v|] eqn:E4;
    [|exfalso; vm_compute in E1; injection E1 as <-; by vm_compute in E4].
  assert (property_key sample_env true (sample_key 3)) as Hk by (by apply (bool_decide_unpack _); vm_compute).
  exists s, s', ic. split; [done|]. split; [done|].
  assert (GetById ic s' = Ok (CreateInt32 2, s')) as Hget.
  { apply (get_inline_cache sample_env sample_hash s (meaning_of empty_meaning [put 1]) s' (meaning_of empty_meaning [put 1; put 2])
      v true (sample_key 3) ic s1).
    - apply sample_special.
    - apply sample_reaches; [by repeat constructor|done].
    - apply sample_reaches; [by repeat constructor|done].
    - exact Hk.
    - vm_compute in E1, E2. injection E1 as <-. by injection E2 as <-.
    - exact E4.
    - vm_compute in E1, E2. injection E1 as <-. injection E2 as <-. vm_compute in E4. injection E4 as <-. by vm_compute.
    - exact E3. }
  split; [|done]. clear Hget E2. vm_compute in E1. injection E1 as <-. vm_compute in E3. injection E3 as <- <-. done.
Defined.

(** ** Iteration *)

(** C22: the iterator over a structure ends and visits every key once.  The loop over
    [StructureIterator] of a structure runs to its end and yields the keys in the
    order of their slots, each with its slot, whether a key lies in a block of the
    anchor table, in the last full block or in the structure. *)
Theorem structure_iteration env h p v : user_key (GetSpecialKeyForMetadataSlot env) -> reachable env h -> describe h p = Some v ->
  exists it, newStructureIterator h p = Some it /\
    iterate h 256 it = Some (zip (GeneralHeapPointer <$> v_keys v) (Z.of_nat <$> seq 0 (length (v_keys v)))).
Proof.
  intros Hu Hr Hd. destruct (reachable_info env Hu h p v Hr Hd) as (K & i & [Hinv _] & _ & Hi & ->).
  destruct (inv_structure env h K Hinv p i Hi) as (s & Hs & Hc). simpl.
  rewrite pointers_of_view by apply Hc. rewrite length_fmap. by apply (iterate_spec env h K Hinv p s i).
Qed.

Lemma structure_iteration_witness : exists it, newStructureIterator sample_heap sample_leaf = Some it /\
  iterate sample_heap 256 it = Some (zip (GeneralHeapPointer <$> (sample_key <$> (Z.of_nat <$> seq 2 20))) (Z.of_nat <$> seq 0 20)).
Proof.
  destruct (describe sample_heap sample_leaf) as [v|] eqn:E; [|exfalso; by vm_compute in E].
  destruct (structure_iteration sample_env sample_heap sample_leaf v sample_special sample_reachable E) as (it & Hit & Hl).
  exists it. split; [done|]. rewrite Hl. pose proof sample_leaf_keys as Hk. rewrite E in Hk. injection Hk as ->. done.
Defined.
