(* ===== verification/DictionaryTheorems.v ===== *)
(** * Properties of dictionaries

    The theorems on [CacheableDictionary]: its put with growth and rehash, and the
    transition of a full structure to a dictionary. *)

From S2P Require Import Prelude TValue MiscMath Machine TypeMask ArrayType Butterfly SparseMap HiddenClass TableObject TableArray Probing CheckedTable ClassHeap Structure Transition ClassInv ClassLookup ClassFrame ClassCreate ClassTransition ClassQuery ClassOps ClassView ClassTheorems Dictionary TableClasses NamedProps NamedInv NamedPut.

(** What the look-up of a dictionary with the keys [ks] answers. *)
Definition finds (ks : list Z) (key : Z) (r : option Z) : Prop :=
  match r with
  | Some slot => at_slot ks slot = Some (GeneralHeapPointer key)
  | None => GeneralHeapPointer key ∉ ks
  end.

Definition dictionary_put (env : Env) (isString : bool) (p key : Z) : MH PutByIdResult :=
  if isString then Dict_PreparePutById env p key else PreparePutByMaybeNonStringKey env p key.

Lemma find_after_growth env isString d c key : Dictionary_find env isString (d_set_butterfly d c) key = Dictionary_find env isString d key.
Proof. done. Qed.

(** C23: a put into a dictionary.  The key gets a slot, its old one when it is there
    and the next free one otherwise; every other key keeps its slot; afterwards the
    look-up answers every key, string or not, with its slot or with nothing.  The
    butterfly grows exactly when a new key finds all slots taken.  The put stops the
    process only for a full dictionary with a butterfly of the maximal capacity. *)
Theorem dictionary_put_then_find env h p d ks isString key :
  user_key (GetSpecialKeyForMetadataSlot env) -> dictionaries h !! p = Some d -> dict_ok env d ks ->
  property_key env isString key ->
  let ks' := keys_with ks (GeneralHeapPointer key) in
  (exists res h' d', dictionary_put env isString p key h = Ok (res, h') /\ dictionaries h' = <[p := d']> (dictionaries h) /\
     at_slot ks' (pr_slot res) = Some (GeneralHeapPointer key) /\ ks `prefix_of` ks' /\
     pr_shouldGrowButterfly res = bool_decide (GeneralHeapPointer key ∉ ks /\ Z.of_nat (length ks) = d_capacity d) /\
     (forall isString' key', property_key env isString' key' ->
        exists r, Dictionary_find env isString' d' key' = Some r /\ finds ks' key' r)) \/
  (dictionary_put env isString p key h = VMFail /\ Z.of_nat (length ks) = d_capacity d /\
   d_butterflyNamedStorageCapacity d = x_maxNamedStorageCapacity).
Proof.
  intros Hsu Hd Hok Hk ks'. pose proof Hk as (Hu & Hsp & _).
  assert (dictionary_put env isString p key = PreparePutPropertyImpl env p key (hkey env (GeneralHeapPointer key))) as ->.
  { rewrite <- (key_hash env isString key Hk). by destruct isString. }
  eassert (wp (PreparePutPropertyImpl env p key (hkey env (GeneralHeapPointer key))) h
    (fun res h' => exists d', put_post env d ks (GeneralHeapPointer key) res d' /\
       h' = with_dictionaries h (<[p := d']> (dictionaries h))) _) as Hw.
  { eapply PreparePutPropertyImpl_spec; [done|done|done|done|by apply special_key_neq|]. eauto. }
  destruct (wp_cases _ _ _ _ Hw) as [(res & h' & E & d' & [] & ->)|[E Hfull]]; [left|right; by destruct Hfull].
  exists res. eexists. exists d'. split_and!; [exact E|done|exact pp_slot| |exact pp_grow|].
  - clear. unfold ks', keys_with. case_bool_decide; [reflexivity|]. by exists [GeneralHeapPointer key].
  - intros isString' key' Hk'.
    destruct (Dictionary_find_spec env _ _ isString' key' pp_ok Hk') as (r & Hr & Hm). by exists r.
Qed.

(** ** Sample data *)

(** A dictionary as [CreateEmptyDictionary] makes it, for two inline slots. *)
Definition sample_dictionary : CacheableDictionary := emptyDictionary false 2 7.
Definition sample_dictionary_heap : SysHeap :=
  with_dictionaries sample_base (<[4096 := sample_dictionary]> (dictionaries sample_base)).

Lemma dict_ok_empty env never inl k : 7 <= k <= 29 -> 0 <= inl <= x_maxNumSlots -> dict_ok env (emptyDictionary never inl k) [].
Proof.
  intros Hk Hi. pose proof (pow_bounds k Hk) as Hb. split; [|unfold d_capacity; simpl; lia].
  exists k, (replicate (Z.to_nat (2 ^ k)) zeroDictEntry). split; [|simpl; lia].
  split; simpl; try done; try lia.
  - split.
    + apply zero_table. lia.
    + intros e g He. apply list_elem_of_lookup in He as (j & Hj). by apply lookup_replicate_1 in Hj as [-> _].
    + intros g Hg. by apply not_elem_of_nil in Hg.
    + unfold occupancy. simpl. by apply replicate_occupancy.
  - apply NoDup_nil_2.
  - apply not_elem_of_nil.
Qed.

Lemma dictionary_put_then_find_witness : exists res h' d',
  dictionary_put sample_env true 4096 (sample_key 7) sample_dictionary_heap = Ok (res, h') /\
  dictionaries h' !! 4096 = Some d' /\ Dictionary_find sample_env false d' (sample_key 7) = Some (Some 0).
Proof.
  assert (forall b, property_key sample_env b (sample_key 7)) as Hk by (intros []; by apply (bool_decide_unpack _); vm_compute).
  destruct (dictionary_put_then_find sample_env sample_dictionary_heap 4096 sample_dictionary [] true (sample_key 7))
    as [(res & h' & d' & E & Hd & Hat & _ & _ & Hfind)|[E _]].
  - apply sample_special.
  - apply lookup_insert_eq.
  - apply dict_ok_empty; [lia|unfold x_maxNumSlots; lia].
  - apply Hk.
  - exists res, h', d'. split; [exact E|]. split; [rewrite Hd; apply lookup_insert_eq|].
    destruct (Hfind false (sample_key 7) (Hk false)) as (r & -> & Hr). f_equal.
    destruct r as [slot|]; [|by destruct Hr; apply list_elem_of_singleton]. f_equal.
    apply at_slot_Some in Hr as [H0 Hl%lookup_lt_Some]. simpl in Hl. lia.
  - exfalso. by vm_compute in E.
Defined.

(** ** From a structure *)

(** The answers of the new dictionary. *)
Lemma created_finds env K h p s i g key newProp d r : heap_inv env h K -> structures h !! p = Some s -> K !! p = Some i ->
  user_key (GetSpecialKeyForMetadataSlot env) -> user_key key -> key <> GetSpecialKeyForMetadataSlot env ->
  user_key newProp -> g = GeneralHeapPointer newProp -> g ∉ i_keys i -> g <> special env ->
  dict_ok env d (keys_at (i_keys i) (transition_slot i) g) ->
  finds (keys_at (i_keys i) (transition_slot i) g) key r ->
  r = if key =? newProp then Some (transition_slot i) else position key (v_keys (view_of i)).
Proof.
  intros Hinv Hs Hi Hsu Hu Hsp Hun Hg Hnew Hgs [(k & t & [] & _) _] Hr.
  pose proof (create_class env h K p s i Hinv Hs Hi) as Hc.
  pose proof (transition_slot_free env h K p s i Hinv Hs Hi) as Hfree.
  pose proof (special_key_neq env Hsu key Hu Hsp) as Hks.
  destruct (user_key_spec key Hu) as [_ Has]. destruct (user_key_spec newProp Hun) as [_ Hasn].
  assert (forall slot, at_slot (keys_at (i_keys i) (transition_slot i) g) slot = Some (GeneralHeapPointer key) -> r = Some slot) as Hat.
  { intros slot Ha. destruct r as [n|]; [f_equal; by eapply NoDup_at_slot|]. destruct Hr. by eapply at_slot_elem. }
  destruct (Z.eqb_spec key newProp) as [->|Hne].
  - rewrite Hg in Hat. apply Hat. by apply (keys_at_new env (i_keys i)).
  - destruct (position key (v_keys (view_of i))) as [n|] eqn:En.
    + apply position_Some in En. simpl in En. pose proof (at_slot_Some _ _ _ En) as [H0 Hl].
      rewrite list_lookup_fmap in Hl. destruct (i_keys i !! Z.to_nat n) as [x|] eqn:Ex; [|done]. simpl in Hl. injection Hl as Hx.
      assert (x = GeneralHeapPointer key) as ->.
      { rewrite <- Hx. symmetry. apply valid_key_As. pose proof (cl_valid _ _ _ _ _ Hc) as Hv. rewrite Forall_lookup in Hv. by eapply Hv. }
      apply Hat. replace n with (Z.of_nat (Z.to_nat n)) by lia. by apply (keys_at_old env).
    + destruct r as [n|]; [|done]. exfalso. simpl in Hr. apply at_slot_elem in Hr.
      apply (keys_at_elem env) in Hr as [E|[E _]]; [..|apply Hc|done].
      * apply Hne. rewrite <- Has, <- Hasn, E, Hg. done.
      * by apply position_None in En; apply En, view_keys_key; [apply Hc|..].
Qed.

(** C24: a full structure becomes a dictionary.  The dictionary that
    [CreateFromStructure] makes finds every property of the structure at its old
    slot and the new property at the slot the result names, and nothing else; it
    has the inline capacity and the metatable of the structure, where the metatable
    of a structure in poly-metatable mode comes from the object.  The slots fit
    into the capacity, and the butterfly grows when that of the structure was too
    small. *)
Theorem create_from_structure env h p v (GetPolyMetatable : Z -> Z -> option Z) newProp :
  user_key (GetSpecialKeyForMetadataSlot env) -> reachable env h -> describe h p = Some v ->
  user_key newProp -> newProp <> GetSpecialKeyForMetadataSlot env -> newProp ∉ v_keys v ->
  (0 < v_metatable v -> is_Some (GetPolyMetatable (v_metatable v - 1) (v_inline v))) ->
  (exists res h' d, CreateFromStructure env GetPolyMetatable p newProp h = Ok (res, h') /\
     dictionaries h' !! cr_dictionary res = Some d /\
     (forall isString key, property_key env isString key -> Dictionary_find env isString d key =
        Some (if key =? newProp then Some (cr_slot res) else position key (v_keys v))) /\
     d_inlineNamedStorageCapacity d = v_inline v /\ cr_slot res < d_capacity d /\
     cr_shouldGrowButterfly res = bool_decide (v_butterfly v < d_butterflyNamedStorageCapacity d) /\
     (if 0 <? v_metatable v then GetPolyMetatable (v_metatable v - 1) (v_inline v)
      else Some (GeneralHeapPointer_As (v_metatable v))) = Some (d_metatable d)) \/
  (CreateFromStructure env GetPolyMetatable p newProp h = VMFail /\ low h sizeof_CacheableDictionary).
Proof.
  intros Hsu Hr Hd Hun Hsp Hnew Hpoly. destruct (reachable_info env Hsu h p v Hr Hd) as (K & i & Hci & _ & Hi & ->).
  pose proof (ci_heap _ _ _ Hci) as Hinv. destruct (inv_structure env h K Hinv p i Hi) as (s & Hs & Hc). simpl in Hpoly.
  rewrite (view_keys_key i newProp) in Hnew by (done || apply Hc).
  pose proof (special_key_neq env Hsu newProp Hun Hsp) as Hgs.
  eassert (wp (CreateFromStructure env GetPolyMetatable p newProp) h (fun res h' => exists d,
    dictionaries h' !! cr_dictionary res = Some d /\ create_post env i (GeneralHeapPointer newProp)
      (GetPolyMetatable (transition_slot i) (i_inline i)) h res d) _) as Hw.
  { eapply (CreateFromStructure_spec env h K p s i Hinv Hs Hi); try done.
    - unfold transition_metatable, transition_slot. destruct (Z.ltb_spec 0 (i_metatable i)); [by apply Hpoly|by eexists].
    - intros limit res d Hp Hsys. exists d. split; [|done]. rewrite (dp_dictionary _ _ _ _ _ _ _ Hp). apply dictionary_heap_lookup. }
  destruct (wp_cases _ _ _ _ Hw) as [(res & h' & E & d & Hl & [])|[E Hlow]]; [left|by right].
  exists res, h', d. rewrite dp_slot in *. split_and!; [exact E|exact Hl| |done| |exact dp_grow|].
  - intros isString key Hk. destruct (Dictionary_find_spec env d _ isString key dp_ok Hk) as (r & -> & Hr').
    f_equal. pose proof Hk as (Hu & Hne & _). by eapply (created_finds env K h p s i _ key newProp d).
  - apply at_slot_Some in dp_new as [? Hlt%lookup_lt_Some]. pose proof (do_capacity _ _ _ dp_ok). lia.
  - rewrite <- dp_metatable. unfold transition_metatable, transition_slot. simpl. by destruct (0 <? i_metatable i).
Qed.

Lemma create_from_structure_witness : exists res h' d,
  CreateFromStructure sample_env (fun _ _ => None) sample_leaf (sample_key 90) sample_heap = Ok (res, h') /\
  dictionaries h' !! cr_dictionary res = Some d /\
  Dictionary_find sample_env true d (sample_key 90) = Some (Some 20) /\ Dictionary_find sample_env true d (sample_key 4) = Some (Some 2).
Proof.
  destruct (describe sample_heap sample_leaf) as [v|] eqn:E; [|exfalso; by vm_compute in E].
  destruct (create_from_structure sample_env sample_heap sample_leaf v (fun _ _ => None) (sample_key 90))
    as [(res & h' & d & Ec & Hl & Hfind & _)|[Ec _]].
  - apply sample_special.
  - apply sample_reachable.
  - exact E.
  - by apply (bool_decide_unpack _); vm_compute.
  - by apply (bool_decide_unpack _); vm_compute.
  - pose proof sample_leaf_keys as Hk. rewrite E in Hk. injection Hk as ->. by apply (bool_decide_unpack _); vm_compute.
  - intros Hpos. exfalso. vm_compute in E. injection E as <-. by vm_compute in Hpos.
  - exists res, h', d. split; [exact Ec|]. split; [exact Hl|].
    rewrite !Hfind by (by apply (bool_decide_unpack _); vm_compute). pose proof sample_leaf_keys as Hk. rewrite E in Hk. injection Hk as ->.
    assert (match CreateFromStructure sample_env (fun _ _ => None) sample_leaf (sample_key 90) sample_heap with
      | Ok (r, _) => cr_slot r | _ => 0 end = 20) as Hslot by (by vm_compute).
    rewrite Ec in Hslot. rewrite Hslot. by split; vm_compute.
  - exfalso. by vm_compute in Ec.
Defined.
