(* ===== verification/TableIterator.v ===== *)
(** * Iterating over a table ([TableObjectIterator], [runtime/table_object.h])

    The iterator behind [pairs] and [next]: it walks the slots of the structure
    (or the hash table of the dictionary), then the vector part, then the hash
    table of the sparse map.  The cells of a table are the list of what it finds
    at every place; the loops are proved to find the first non-nil cell from
    where they stand.  [SpecialKeyForBoolean] is [VM_GetSpecialKeyForBoolean]. *)

From S2P Require Import Prelude Double TValue MiscMath Machine TypeMask ArrayType Butterfly SparseMap HiddenClass TableObject TableArray Probing CheckedTable ClassHeap Structure Transition ClassInv ClassLookup ClassFrame ClassCreate ClassTransition ClassQuery ClassOps ClassView Dictionary TableClasses NamedProps NamedInv TableWhole.

Inductive IteratorState := Uninitialized | NamedProperty | VectorStorage | SparseMapStorage | Terminated.

#[export] Instance IteratorState_eq_dec : EqDecision IteratorState.
Proof. solve_decision. Defined.

Record KeyValuePair := mkKV { kv_key : Z; kv_value : Z }.

(** [m_ord]: the union of [m_namedPropertyOrd], [m_vectorStorageOrd] and [m_sparseMapOrd]. *)
Record TableObjectIterator := mkTableIterator { m_ord : Z; m_state : IteratorState }.

(** The constructor. *)
Definition newTableObjectIterator : TableObjectIterator := mkTableIterator 0 Uninitialized.

(** The end of the iteration. *)
Definition finished : KeyValuePair := mkKV Nil Nil.

Section definitions.
Variable env : Env.
Variable hash : Z -> Z.
Variable SpecialKeyForBoolean : bool -> Z.

(** ** [Advance] *)

(** The loop over the slots of a structure: the ordinal where it stops, with a
    non-nil value unless there is none.  A structure has at most 254 slots. *)
Fixpoint next_structure_prop (structure : Structure) (fuel : nat) (ord : Z) : MT (Z * option Z) :=
  match fuel with
  | O => ub
  | S fuel =>
      let ord := u32 (ord + 1) in
      if s_numSlots structure <=? ord then mret (ord, None)
      else if IsSlotUsedByPolyMetatable structure ord then next_structure_prop structure fuel ord
      else
        value ← GetValueForSlot ord (s_inlineNamedStorageCapacity structure);
        if IsNil value then next_structure_prop structure fuel ord else mret (ord, Some value)
  end.

(** The key as the program sees it. *)
Definition structure_key (key : Z) : Z :=
  if key =? SpecialKeyForBoolean false then CreateFalse
  else if key =? SpecialKeyForBoolean true then CreateTrue
  else CreatePointer key.

(** The loop over the hash table of a dictionary. *)
Fixpoint next_dictionary_prop (cacheableDict : CacheableDictionary) (ht : list DictEntry) (fuel : nat) (ord : Z)
    : MT (Z * option KeyValuePair) :=
  if ord <=? d_hashTableMask cacheableDict then
    match fuel with
    | O => ub
    | S fuel =>
        entry ← access (at_slot ht ord);
        if negb (de_key entry =? 0) then
          value ← GetValueForSlot (de_slot entry) (d_inlineNamedStorageCapacity cacheableDict);
          if negb (IsNil value) then mret (ord, Some (mkKV (CreatePointer (GeneralHeapPointer_As (de_key entry))) value))
          else next_dictionary_prop cacheableDict ht fuel (u32 (ord + 1))
        else next_dictionary_prop cacheableDict ht fuel (u32 (ord + 1))
    end
  else mret (ord, None).

(** The loop over the vector part of capacity [cap]. *)
Fixpoint next_vector_entry (cap : Z) (fuel : nat) (ord : Z) : MT (Z * option KeyValuePair) :=
  if ord <? cap then
    match fuel with
    | O => ub
    | S fuel =>
        let ord := u32 (ord + 1) in
        value ← on_butterfly (fun b => GetInVector b ord);
        if negb (IsNil value) then mret (ord, Some (mkKV (CreateDouble (double_of_int ord)) value))
        else next_vector_entry cap fuel ord
    end
  else mret (ord, None).

(** The loop over the hash table of a sparse map. *)
Fixpoint next_sparse_entry (sparseMap : ArraySparseMap) (fuel : nat) (ord : Z) : option (Z * option KeyValuePair) :=
  if ord <=? m_hashMask sparseMap then
    match fuel with
    | O => None
    | S fuel =>
        entry ← at_slot (SparseMap.m_hashTable sparseMap) ord;
        let key := m_key entry in
        if negb (IsNaN key) then
          let value := m_value entry in
          if negb (IsNil value) then Some (ord, Some (mkKV (CreateDouble key) value))
          else next_sparse_entry sparseMap fuel (u32 (ord + 1))
        else next_sparse_entry sparseMap fuel (u32 (ord + 1))
    end
  else Some (ord, None).

Definition finished_iteration (ord : Z) : KeyValuePair * TableObjectIterator := (finished, mkTableIterator ord Terminated).

Definition GetSparseMap : MT ArraySparseMap :=
  len ← on_butterfly m_arrayLengthIfContinuous;
  s ← get_st;
  access (st_sparse s !! GeneralHeapPointer_As len).

(** From the label [try_find_next_sparse_map_entry] on. *)
Definition find_next_sparse_map_entry (ord : Z) : MT (KeyValuePair * TableObjectIterator) :=
  sparseMap ← GetSparseMap;
  r ← access (next_sparse_entry sparseMap (length (SparseMap.m_hashTable sparseMap)) ord);
  mret (match r with
        | (ord, Some kv) => (kv, mkTableIterator ord SparseMapStorage)
        | (ord, None) => finished_iteration ord
        end).

(** From the label [try_find_next_vector_entry] on. *)
Definition find_next_vector_entry (ord : Z) : MT (KeyValuePair * TableObjectIterator) :=
  vectorStorageCapacity ← on_butterfly m_arrayStorageCapacity;
  r ← next_vector_entry vectorStorageCapacity (Z.to_nat vectorStorageCapacity) ord;
  match r with
  | (ord, Some kv) => mret (kv, mkTableIterator ord VectorStorage)
  | (ord, None) =>
      len ← on_butterfly m_arrayLengthIfContinuous;
      if ButterflyHeader.HasSparseMap len then find_next_sparse_map_entry 0 else mret (finished_iteration ord)
  end.

(** From the label [try_start_iterating_vector_storage] on. *)
Definition start_iterating_vector_storage (ord : Z) : MT (KeyValuePair * TableObjectIterator) :=
  t ← get_table;
  match m_butterfly t with
  | None => mret (finished_iteration ord)
  | Some _ => find_next_vector_entry 0
  end.

(** From the label [try_get_next_structure_prop] on. *)
Definition get_next_structure_prop (structure : Structure) (ord : Z) : MT (KeyValuePair * TableObjectIterator) :=
  r ← next_structure_prop structure (S (Z.to_nat (s_numSlots structure))) ord;
  match r with
  | (ord, Some value) =>
      key ← on_heap (query (fun h => GetKeyForSlotOrdinal h structure (u8 ord)));
      mret (mkKV (structure_key key) value, mkTableIterator ord NamedProperty)
  | (ord, None) => start_iterating_vector_storage ord
  end.

(** From the label [try_find_and_get_cd_prop] on. *)
Definition find_and_get_cd_prop (cacheableDict : CacheableDictionary) (ord : Z) : MT (KeyValuePair * TableObjectIterator) :=
  ht ← access (d_hashTable cacheableDict);
  r ← next_dictionary_prop cacheableDict ht (length ht) ord;
  match r with
  | (ord, Some kv) => mret (kv, mkTableIterator ord NamedProperty)
  | (ord, None) => start_iterating_vector_storage ord
  end.

(** Called after [Terminated], [Advance] fails an assertion. *)
Definition TableObjectIterator_Advance (self : TableObjectIterator) : MT (KeyValuePair * TableObjectIterator) :=
  t ← get_table;
  match m_state self with
  | Uninitialized =>
      hcType ← on_heap (query (fun h => hidden_class_type h (m_hiddenClass t)));
      match hcType with
      | HcStructure =>
          structure ← on_heap (load_structure (m_hiddenClass t));
          if s_numSlots structure =? 0 then start_iterating_vector_storage (m_ord self)
          else get_next_structure_prop structure (u32 (-1))
      | HcCacheableDictionary =>
          cacheableDict ← on_heap (load_dictionary (m_hiddenClass t));
          find_and_get_cd_prop cacheableDict 0
      end
  | NamedProperty =>
      hcType ← on_heap (query (fun h => hidden_class_type h (m_hiddenClass t)));
      match hcType with
      | HcStructure =>
          structure ← on_heap (load_structure (m_hiddenClass t));
          get_next_structure_prop structure (m_ord self)
      | HcCacheableDictionary =>
          cacheableDict ← on_heap (load_dictionary (m_hiddenClass t));
          find_and_get_cd_prop cacheableDict (u32 (m_ord self + 1))
      end
  | VectorStorage => find_next_vector_entry (m_ord self)
  | SparseMapStorage => find_next_sparse_map_entry (u32 (m_ord self + 1))
  | Terminated => ub
  end.

(** ** [GetNextFromKey] *)

(** A fresh iterator that stands at a place, advanced. *)
Definition advance_from (ord : Z) (state : IteratorState) : MT (option KeyValuePair) :=
  '(out, _) ← TableObjectIterator_Advance (mkTableIterator ord state); mret (Some out).

Definition get_next_from_sparse_map (idx : Z) : MT (option KeyValuePair) :=
  len ← on_butterfly m_arrayLengthIfContinuous;
  if negb (ButterflyHeader.HasSparseMap len) then mret (Some (mkKV Nil Nil))
  else
    sparseMap ← GetSparseMap;
    slot ← access (GetHashSlotOrdinal hash sparseMap idx);
    if slot =? u32 (-1) then mret None else advance_from slot SparseMapStorage.

Definition get_next_from_pointer (prop : Z) : MT (option KeyValuePair) :=
  t ← get_table;
  hcType ← on_heap (query (fun h => hidden_class_type h (m_hiddenClass t)));
  match hcType with
  | HcStructure =>
      structure ← on_heap (load_structure (m_hiddenClass t));
      found ← on_heap (query (fun h => GetSlotOrdinalFromMaybeNonStringProperty env h structure prop));
      match found with
      | None => mret None
      | Some slotOrd => advance_from slotOrd NamedProperty
      end
  | HcCacheableDictionary =>
      cacheableDict ← on_heap (load_dictionary (m_hiddenClass t));
      hashTableSlot ← access (GetHashTableSlotNumberForProperty env cacheableDict prop);
      if hashTableSlot =? u32 (-1) then mret None else advance_from hashTableSlot NamedProperty
  end.

Definition get_next_from_double (idx : Z) : MT (option KeyValuePair) :=
  if IsNaN idx then mret None
  else
    t ← get_table;
    match m_butterfly t with
    | None => mret None
    | Some _ =>
        match IsInt64Index idx with
        | None => get_next_from_sparse_map idx
        | Some idx64 =>
            cap ← on_butterfly m_arrayStorageCapacity;
            if negb (ButterflyHeader.IndexFitsInVectorCapacity cap idx64) then get_next_from_sparse_map idx
            else advance_from (u32 idx64) VectorStorage
        end
    end.

(** The pair after [key], in the order of the iteration; [None]: the result is
    [false].  Keys of type int32 are not implemented. *)
Definition GetNextFromKey (key : Z) : MT (option KeyValuePair) :=
  if IsNil key then
    '(out, _) ← TableObjectIterator_Advance newTableObjectIterator; mret (Some out)
  else
    let key := if IsMIV key then CreatePointer (SpecialKeyForBoolean (MIV.GetBooleanValue (AsMIV key))) else key in
    if IsPointer key then get_next_from_pointer (AsPointer key)
    else if IsInt32 key then vm_fail
    else if IsDouble key then get_next_from_double (AsDouble key)
    else ub.

(** ** Loops of a client *)

(** [iter] advanced to the end. *)
Fixpoint drain (fuel : nat) (iter : TableObjectIterator) : MT (list KeyValuePair) :=
  match fuel with
  | O => ub
  | S fuel =>
      '(kv, iter) ← TableObjectIterator_Advance iter;
      if IsNil (kv_key kv) then mret []
      else rest ← drain fuel iter; mret (kv :: rest)
  end.

(** [next] from [key] to the end. *)
Fixpoint next_all (fuel : nat) (key : Z) : MT (list KeyValuePair) :=
  match fuel with
  | O => ub
  | S fuel =>
      r ← GetNextFromKey key;
      match r with
      | None => ub
      | Some kv => if IsNil (kv_key kv) then mret [] else rest ← next_all fuel (kv_key kv); mret (kv :: rest)
      end
  end.
End definitions.
