(* ===== verification/TableCells.v ===== *)
(** * The cells of a table and the loops of its iterator

    A table is a sequence of cells: one for every slot of its structure (or entry
    of the hash table of its dictionary), one for every element of its vector, one
    for every entry of its sparse map.  A cell is empty or holds a key and a value
    that is not nil.  [TableObjectIterator] is proved to walk the cells in order. *)

From S2P Require Import Prelude Double TValue MiscMath Machine TypeMask ArrayType Butterfly SparseMap HiddenClass TableObject TableArray Probing CheckedTable ClassHeap Structure Transition ClassInv ClassLookup ClassFrame ClassCreate ClassTransition ClassQuery ClassOps ClassView Dictionary TableClasses NamedProps NamedInv TableWhole TableIterator.

Notation Cell := (option KeyValuePair).

Definition cell (key value : Z) : Cell := if IsNil value then None else Some (mkKV key value).

(** The pairs of some cells. *)
Definition pairs_of (l : list Cell) : list KeyValuePair := omap id l.

Lemma pairs_app l l' : pairs_of (l ++ l') = pairs_of l ++ pairs_of l'.
Proof. apply omap_app. Qed.

Lemma pairs_drop_None l k : l !! k = Some None -> pairs_of (drop k l) = pairs_of (drop (S k) l).
Proof. intros Hk. by rewrite (drop_S l None k Hk). Qed.

Lemma pairs_drop_Some l k kv : l !! k = Some (Some kv) -> pairs_of (drop k l) = kv :: pairs_of (drop (S k) l).
Proof. intros Hk. by rewrite (drop_S l (Some kv) k Hk). Qed.

Lemma pairs_drop_end l k : (length l <= k)%nat -> pairs_of (drop k l) = [].
Proof. intros Hk. by rewrite drop_ge. Qed.

Lemma elem_of_pairs l kv : kv ∈ pairs_of l <-> Some kv ∈ l.
Proof.
  unfold pairs_of. rewrite list_elem_of_omap. split; [by intros (? & ? & <-)|]. intros Hin. by exists (Some kv).
Qed.

(** The result of a search of the cells [l] from number [k] on; a place is a cell
    number plus [base]. *)
Inductive found_from (l : list Cell) (k : nat) (base : Z) : Z * Cell -> Prop :=
| found_at j kv : (k <= j)%nat -> l !! j = Some (Some kv) -> pairs_of (drop k l) = kv :: pairs_of (drop (S j) l) ->
    found_from l k base (Z.of_nat j + base, Some kv)
| found_none ord : pairs_of (drop k l) = [] -> found_from l k base (ord, None).

Lemma found_here l k base kv : l !! k = Some (Some kv) -> found_from l k base (Z.of_nat k + base, Some kv).
Proof. intros Hk. apply found_at; [done|done|by apply pairs_drop_Some]. Qed.

Lemma found_end l k base ord : (length l <= k)%nat -> found_from l k base (ord, None).
Proof. intros Hk. by apply found_none, pairs_drop_end. Qed.

Lemma found_later l k base r : l !! k = Some None -> found_from l (S k) base r -> found_from l k base r.
Proof.
  intros Hk [j kv Hj Hl Hp|ord Hp]; [apply found_at|apply found_none]; rewrite ?(pairs_drop_None l k Hk); try done. lia.
Qed.

Lemma i32_small z : 0 <= z < 2 ^ 31 -> i32 z = z.
Proof. intros Hz. apply wraps_small; [lia|]. unfold in_i. change (32 - 1) with 31. lia. Qed.

Lemma u32_small z : 0 <= z < 2 ^ 32 -> u32 z = z.
Proof. apply wrapu_small. Qed.

Section cells.
Variable env : Env.
Variable hash : Z -> Z.
Variable SpecialKeyForBoolean : bool -> Z.
Notation St := (TableObject.St SysHeap).

(** ** The cells *)

Definition structure_cells (i : Info) (vs : list Z) : list Cell :=
  imap (fun j g => if i_metatable i =? Z.of_nat j + 1 then None
    else cell (structure_key SpecialKeyForBoolean (GeneralHeapPointer_As g)) (default Nil (vs !! j))) (i_keys i).

Definition dictionary_cell (vs : list Z) (e : DictEntry) : Cell :=
  match dkey e with
  | None => None
  | Some g => cell (CreatePointer (GeneralHeapPointer_As g)) (default Nil (at_slot vs (de_slot e)))
  end.

Definition vector_cells (vec : list Z) : list Cell :=
  imap (fun j x => cell (CreateDouble (double_of_int (Z.of_nat j + 1))) x) vec.

Definition sparse_cell (e : HashTableEntry) : Cell :=
  if IsNaN (m_key e) then None else cell (CreateDouble (m_key e)) (m_value e).
Definition sparse_map_cells (sp : gmap Z ArraySparseMap) (len : Z) : list Cell :=
  if ButterflyHeader.HasSparseMap len then
    match sp !! GeneralHeapPointer_As len with Some m => sparse_cell <$> SparseMap.m_hashTable m | None => [] end
  else [].

Section table.
Variables (s : St) (K : Classes) (v : PV) (f : Z -> Z) (mt : Z) (sc : Z -> Z).
Hypothesis wh : whole_at env hash K s v f mt sc.
Notation returns m P := (wp m s (fun r s' => s' = s /\ P r) False).

Lemma wh_inv : heap_inv env (st_hc s) K.
Proof. apply wh. Qed.

Lemma wh_bounds : class_bounds v.
Proof. by eapply props_bounds, wh. Qed.

Lemma wh_layout : layout (st_table s) (pv_inline v) (pv_butterfly v) (pv_values v) (pv_len v) (pv_cap v) (pv_vec v).
Proof. apply wh. Qed.

Lemma wh_value j : (j < length (pv_keys v))%nat -> exists x, pv_values v !! j = Some x.
Proof.
  intros Hj. destruct wh_bounds. apply lookup_lt_is_Some_2.
  pose proof (stored_length _ _ _ _ (pa_stored _ _ _ _ _ _ (wh_props _ _ _ _ _ _ _ _ wh))). lia.
Qed.

Lemma wp_same {A} (m : MT A) (P : A -> Prop) (Q : A -> St -> Prop) : returns m P -> (forall a, P a -> Q a s) -> wp m s Q False.
Proof. intros Hm HQ. eapply wp_mono; [exact Hm| |done]. intros a ? [-> Ha]. by apply HQ. Qed.

Lemma read_value j x (Q : Z -> St -> Prop) : pv_values v !! j = Some x -> Q x s ->
  wp (GetValueForSlot (Z.of_nat j) (pv_inline v)) s Q False.
Proof. intros Hx HQ. destruct wh_bounds. eapply read_slot; [apply wh_layout|done|done| |exact HQ]. by rewrite at_slot_nat. Qed.

(** *** The slots of a structure *)

Section structure.
Variables (sc0 : Structure) (i : Info).
Hypothesis view : structure_view K (st_table s) v mt i.
Hypothesis class : class_ok env (anchors (st_hc s)) K sc0 i.

Lemma structure_length : length (structure_cells i (pv_values v)) = length (i_keys i).
Proof. apply length_imap. Qed.

Lemma structure_cell_at j g x : i_keys i !! j = Some g -> pv_values v !! j = Some x ->
  structure_cells i (pv_values v) !! j = Some (if i_metatable i =? Z.of_nat j + 1 then None
    else cell (structure_key SpecialKeyForBoolean (GeneralHeapPointer_As g)) x).
Proof. intros Hg Hx. unfold structure_cells. rewrite list_lookup_imap, Hg. simpl. by rewrite Hx. Qed.

Lemma next_structure_prop_spec fuel : forall ord k, u32 (ord + 1) = Z.of_nat k -> (length (i_keys i) - k < fuel)%nat ->
  returns (next_structure_prop sc0 fuel ord) (fun r => exists kv, found_from (structure_cells i (pv_values v)) k 0 (r.1, kv) /\
    r.2 = kv_value <$> kv).
Proof.
  pose proof (cl_count _ _ _ _ _ class) as Hcnt.
  induction fuel as [|fuel IH]; intros ord k Hord Hf; [lia|]. cbn [next_structure_prop]. rewrite Hord.
  rewrite (cl_numSlots _ _ _ _ _ class). unfold i_count. destruct (Z.leb_spec (Z.of_nat (length (i_keys i))) (Z.of_nat k)) as [Hk|Hk].
  { apply wp_ret. split; [done|]. exists None. split; [|done]. apply found_end. rewrite structure_length. lia. }
  destruct (lookup_lt_is_Some_2 (i_keys i) k ltac:(lia)) as [g Hg].
  destruct (wh_value k) as [x Hx]; [rewrite (sv_keys _ _ _ _ _ view); lia|].
  pose proof (structure_cell_at k g x Hg Hx) as Hcell.
  assert (u32 (Z.of_nat k + 1) = Z.of_nat (S k)) as Hnext by (rewrite wrapu_small; [lia|unfold in_u; pow2; lia]).
  assert (returns (next_structure_prop sc0 fuel (Z.of_nat k)) (fun r => exists kv,
    found_from (structure_cells i (pv_values v)) (S k) 0 (r.1, kv) /\ r.2 = kv_value <$> kv)) as Hlater by (apply IH; [done|lia]).
  unfold IsSlotUsedByPolyMetatable. rewrite (cl_metatable _ _ _ _ _ class).
  rewrite (i32_small (Z.of_nat k)), i32_small by lia.
  destruct (i_metatable i =? Z.of_nat k + 1).
  { eapply wp_same; [exact Hlater|]. intros r (kv & Hr & ?). split; [done|]. exists kv. split; [by eapply found_later|done]. }
  apply wp_bind. rewrite (cl_inline _ _ _ _ _ class), <- (sv_inline _ _ _ _ _ view). eapply read_value; [done|].
  unfold cell in Hcell. destruct (IsNil x) eqn:Ex.
  - eapply wp_same; [exact Hlater|]. intros r (kv & Hr & ?). split; [done|]. exists kv. split; [by eapply found_later|done].
  - apply wp_ret. split; [done|]. exists (Some (mkKV (structure_key SpecialKeyForBoolean (GeneralHeapPointer_As g)) x)). split; [|done]. replace (Z.of_nat k) with (Z.of_nat k + 0) by lia. by apply found_here.
Qed.
End structure.

(** *** The entries of a dictionary *)

Section dictionary.
Variables (d : CacheableDictionary) (k : Z) (t : list DictEntry).
Hypothesis view : dictionary_view env (st_hc s) (st_table s) v mt d.
Hypothesis shape : dict_shape env d (pv_keys v) k t.

Lemma dictionary_mask : d_hashTableMask d = Z.of_nat (length t) - 1 /\ Z.of_nat (length t) <= 2 ^ 29.
Proof.
  destruct shape. rewrite ds_mask, (po_length _ _ _ _ _ (dt_probing _ _ _ _ ds_table)).
  pose proof (pow_pos k ltac:(lia)). pose proof (Z.pow_le_mono_r 2 k 29). lia.
Qed.

Lemma dictionary_value e g : e ∈ t -> dkey e = Some g ->
  exists j x, de_slot e = Z.of_nat j /\ pv_keys v !! j = Some g /\ pv_values v !! j = Some x.
Proof.
  intros He Hg. pose proof (dt_entries _ _ _ _ (ds_table _ _ _ _ _ shape) e g He Hg) as Hat.
  destruct (at_slot_Some _ _ _ Hat) as [Hr Hj]. destruct (wh_value (Z.to_nat (de_slot e)) ltac:(lia)) as [x Hx].
  exists (Z.to_nat (de_slot e)), x. split_and!; [lia|done|done].
Qed.

Lemma next_dictionary_prop_spec fuel : forall j, (j <= length t)%nat -> (length t - j <= fuel)%nat ->
  returns (next_dictionary_prop d t fuel (Z.of_nat j)) (found_from (dictionary_cell (pv_values v) <$> t) j 0).
Proof.
  destruct dictionary_mask as [Hmask Hsz]. induction fuel as [|fuel IH]; intros j Hj Hf.
  { unfold next_dictionary_prop. rewrite Hmask. destruct (Z.leb_spec (Z.of_nat j) (Z.of_nat (length t) - 1)); [lia|].
    apply wp_ret. split; [done|]. apply found_end. rewrite length_fmap. lia. }
  cbn [next_dictionary_prop]. rewrite Hmask. destruct (Z.leb_spec (Z.of_nat j) (Z.of_nat (length t) - 1)) as [Hlt|Hge].
  2: { apply wp_ret. split; [done|]. apply found_end. rewrite length_fmap. lia. }
  destruct (lookup_lt_is_Some_2 t j ltac:(lia)) as [e He]. apply wp_bind. eapply wp_access; [by rewrite at_slot_nat|].
  assert ((dictionary_cell (pv_values v) <$> t) !! j = Some (dictionary_cell (pv_values v) e)) as Hcell
    by (by rewrite list_lookup_fmap, He).
  assert (u32 (Z.of_nat j + 1) = Z.of_nat (S j)) as -> by (rewrite wrapu_small; [lia|unfold in_u; pow2; lia]).
  pose proof (IH (S j) ltac:(lia) ltac:(lia)) as Hlater. unfold dictionary_cell in Hcell.
  destruct (dkey e) as [g|] eqn:Eg; unfold dkey in Eg; destruct (Z.eqb_spec (de_key e) 0) as [Ez|Ez]; try done; simpl negb; cbv iota.
  - injection Eg as <-. destruct (dictionary_value e (de_key e)) as (o & x & Ho & Hg & Hx).
    { by eapply list_elem_of_lookup_2. }
    { unfold dkey. by destruct (Z.eqb_spec (de_key e) 0). }
    apply wp_bind. rewrite Ho, <- (dv_inline _ _ _ _ _ _ view). eapply read_value; [done|].
    rewrite Ho, at_slot_nat, Hx in Hcell. simpl in Hcell. unfold cell in Hcell.
    destruct (IsNil x); simpl negb; cbv iota.
    + eapply wp_same; [exact Hlater|]. intros r Hr. split; [done|]. by eapply found_later.
    + apply wp_ret. split; [done|]. replace (Z.of_nat j) with (Z.of_nat j + 0) by lia. by apply found_here.
  - eapply wp_same; [exact Hlater|]. intros r Hr. split; [done|]. by eapply found_later.
Qed.
End dictionary.

(** *** The vector and the sparse map *)

Lemma next_vector_entry_spec named fuel : m_butterfly (st_table s) = Some (mk_bf named (pv_len v) (pv_cap v) (pv_vec v)) ->
  bf_ok named (pv_len v) (pv_cap v) (pv_vec v) -> forall j, (j <= length (pv_vec v))%nat -> (length (pv_vec v) - j <= fuel)%nat ->
  returns (next_vector_entry (pv_cap v) fuel (Z.of_nat j)) (found_from (vector_cells (pv_vec v)) j 1).
Proof.
  intros Hb Hok. pose proof Hok as []. unfold x_unconditionallySparseMapCutoff in bf_cap.
  induction fuel as [|fuel IH]; intros j Hj Hf.
  { unfold next_vector_entry. destruct (Z.ltb_spec (Z.of_nat j) (pv_cap v)); [lia|].
    apply wp_ret. split; [done|]. apply found_end. unfold vector_cells. rewrite length_imap. lia. }
  cbn [next_vector_entry]. destruct (Z.ltb_spec (Z.of_nat j) (pv_cap v)) as [Hlt|Hge].
  2: { apply wp_ret. split; [done|]. apply found_end. unfold vector_cells. rewrite length_imap. lia. }
  assert (u32 (Z.of_nat j + 1) = Z.of_nat j + 1) as -> by (rewrite wrapu_small; [done|unfold in_u; pow2; lia]).
  destruct (lookup_lt_is_Some_2 (pv_vec v) j ltac:(lia)) as [x Hx].
  apply wp_bind. eapply wp_on_butterfly; [done|rewrite GetInVector_mk by (done || lia)|].
  { replace (Z.to_nat (Z.of_nat j + 1 - 1)) with j by lia. exact Hx. }
  assert (vector_cells (pv_vec v) !! j = Some (cell (CreateDouble (double_of_int (Z.of_nat j + 1))) x)) as Hcell
    by (unfold vector_cells; by rewrite list_lookup_imap, Hx).
  pose proof (IH (S j) ltac:(lia) ltac:(lia)) as Hlater. unfold cell in Hcell. destruct (IsNil x); simpl negb; cbv iota.
  - replace (Z.of_nat j + 1) with (Z.of_nat (S j)) by lia. eapply wp_same; [exact Hlater|]. intros r Hr. split; [done|]. by eapply found_later.
  - apply wp_ret. split; [done|]. by apply found_here.
Qed.

Lemma next_sparse_entry_spec m fuel : wf hash m -> forall j, (j <= length (SparseMap.m_hashTable m))%nat ->
  (length (SparseMap.m_hashTable m) - j <= fuel)%nat ->
  exists r, next_sparse_entry m fuel (Z.of_nat j) = Some r /\ found_from (sparse_cell <$> SparseMap.m_hashTable m) j 0 r.
Proof.
  intros (k & Hk & Hm & ([Hk0 _] & Hlen & _) & _). pose proof (Z.pow_le_mono_r 2 k 31 ltac:(lia) Hk) as Hp.
  pose proof (pow_pos k ltac:(lia)) as Hp0. assert (m_hashMask m = Z.of_nat (length (SparseMap.m_hashTable m)) - 1) as Hmask by lia.
  induction fuel as [|fuel IH]; intros j Hj Hf.
  { unfold next_sparse_entry. rewrite Hmask. destruct (Z.leb_spec (Z.of_nat j) (Z.of_nat (length (SparseMap.m_hashTable m)) - 1)); [lia|].
    eexists. split; [done|]. apply found_end. rewrite length_fmap. lia. }
  cbn [next_sparse_entry]. rewrite Hmask. destruct (Z.leb_spec (Z.of_nat j) (Z.of_nat (length (SparseMap.m_hashTable m)) - 1)) as [Hlt|Hge].
  2: { eexists. split; [done|]. apply found_end. rewrite length_fmap. lia. }
  destruct (lookup_lt_is_Some_2 (SparseMap.m_hashTable m) j ltac:(lia)) as [e He]. rewrite at_slot_nat, He. cbn [mbind option_bind].
  assert ((sparse_cell <$> SparseMap.m_hashTable m) !! j = Some (sparse_cell e)) as Hcell by (by rewrite list_lookup_fmap, He).
  assert (u32 (Z.of_nat j + 1) = Z.of_nat (S j)) as -> by (rewrite wrapu_small; [lia|unfold in_u; pow2; lia]).
  destruct (IH (S j) ltac:(lia) ltac:(lia)) as (r & Hr & Hfrom). unfold sparse_cell, cell in Hcell.
  destruct (IsNaN (m_key e)); simpl negb; cbv iota zeta.
  { exists r. split; [done|]. by eapply found_later. }
  destruct (IsNil (m_value e)); simpl negb; cbv iota.
  { exists r. split; [done|]. by eapply found_later. }
  eexists. split; [done|]. replace (Z.of_nat j) with (Z.of_nat j + 0) by lia. by apply found_here.
Qed.
(** *** Advancing *)

(** The cells of the named part. *)
Definition named_as (nc : list Cell) : Prop :=
  (exists i sc0, structure_view K (st_table s) v mt i /\ structures (st_hc s) !! m_hiddenClass (st_table s) = Some sc0 /\
     class_ok env (anchors (st_hc s)) K sc0 i /\ nc = structure_cells i (pv_values v)) \/
  (exists d k t, dictionary_view env (st_hc s) (st_table s) v mt d /\ dict_shape env d (pv_keys v) k t /\
     nc = dictionary_cell (pv_values v) <$> t).

Lemma named_cells_exist : exists nc, named_as nc.
Proof.
  destruct (wh_props _ _ _ _ _ _ _ _ wh) as [[Hinv _] [[i Hi]|[d Hd]] _].
  - destruct (inv_structure env _ K Hinv _ i (sv_info _ _ _ _ _ Hi)) as (sc0 & Hs & Hc). eexists. left. by exists i, sc0.
  - destruct (dv_ok _ _ _ _ _ _ Hd) as [(k & t & Hsh & _) _]. eexists. right. by exists d, k, t.
Qed.

Variable nc : list Cell.
Hypothesis named : named_as nc.
Notation vc := (vector_cells (pv_vec v)).
Notation mc := (sparse_map_cells (st_sparse s) (pv_len v)).

(** All pairs in order. *)
Definition all_pairs : list KeyValuePair := pairs_of nc ++ pairs_of vc ++ pairs_of mc.

(** The pairs after an iterator, the cell where it stands, and where it may stand. *)
Definition pairs_after (it : TableObjectIterator) : list KeyValuePair :=
  let ord := Z.to_nat (m_ord it) in
  match m_state it with
  | Uninitialized => all_pairs
  | NamedProperty => pairs_of (drop (S ord) nc) ++ pairs_of vc ++ pairs_of mc
  | VectorStorage => pairs_of (drop ord vc) ++ pairs_of mc
  | SparseMapStorage => pairs_of (drop (S ord) mc)
  | Terminated => []
  end.

Definition cell_at (it : TableObjectIterator) : option Cell :=
  match m_state it with
  | NamedProperty => at_slot nc (m_ord it)
  | VectorStorage => at_slot vc (m_ord it - 1)
  | SparseMapStorage => at_slot mc (m_ord it)
  | _ => None
  end.

Definition placed (it : TableObjectIterator) : Prop := m_state it = Uninitialized \/ is_Some (cell_at it).

Inductive advanced : list KeyValuePair -> KeyValuePair * TableObjectIterator -> Prop :=
| advanced_to kv it : cell_at it = Some (Some kv) -> advanced (kv :: pairs_after it) (kv, it)
| advanced_end ord : advanced [] (finished_iteration ord).

Lemma butterfly_cases :
  (m_butterfly (st_table s) = None /\ vc = [] /\ mc = []) \/
  (exists named, m_butterfly (st_table s) = Some (mk_bf named (pv_len v) (pv_cap v) (pv_vec v)) /\
     bf_ok named (pv_len v) (pv_cap v) (pv_vec v)).
Proof.
  destruct wh_layout as (nm & [(Hb & _ & Hl & _ & Hv)|[Hb Hok]] & _); [left|right; by exists nm].
  by rewrite Hl, Hv.
Qed.

(** The sparse map. *)
Lemma sparse_of_header : ButterflyHeader.HasSparseMap (pv_len v) = true ->
  exists m, st_sparse s !! GeneralHeapPointer_As (pv_len v) = Some m /\ wf hash m /\ sc = content m /\
    mc = sparse_cell <$> SparseMap.m_hashTable m /\ (forall k, in_vector (pv_cap v) k = true -> content m k = Nil) /\
    exists named, m_butterfly (st_table s) = Some (mk_bf named (pv_len v) (pv_cap v) (pv_vec v)) /\
      bf_ok named (pv_len v) (pv_cap v) (pv_vec v).
Proof.
  intros Hh. pose proof Hh as Hlt. unfold ButterflyHeader.HasSparseMap in Hlt. zbool.
  destruct butterfly_cases as [(Hb & _ & _)|Hb].
  { destruct wh_layout as (nm & [(_ & _ & Hl & _)|[Hb' _]] & _); [lia|congruence]. }
  destruct (wh_shape _ _ _ _ _ _ _ _ wh) as [| | |m _ _ _ _ Hm Hwf Hv _]; [lia..|].
  exists m. split_and!; try done. unfold sparse_map_cells. by rewrite Hh, Hm.
Qed.

Lemma find_next_sparse_map_entry_spec j : ButterflyHeader.HasSparseMap (pv_len v) = true -> (j <= length mc)%nat ->
  returns (find_next_sparse_map_entry (Z.of_nat j)) (advanced (pairs_of (drop j mc))).
Proof.
  intros Hh Hj. destruct (sparse_of_header Hh) as (m & Hm & Hwf & _ & Hmc & _ & nm & Hb & Hok).
  unfold find_next_sparse_map_entry, GetSparseMap. apply wp_bind, wp_bind.
  eapply wp_on_butterfly; [done|by apply m_arrayLengthIfContinuous_mk|]. apply wp_bind, wp_get. eapply wp_access; [done|].
  rewrite Hmc, length_fmap in Hj.
  destruct (next_sparse_entry_spec m (length (SparseMap.m_hashTable m)) Hwf j Hj ltac:(lia)) as (r & Hr & Hfrom).
  apply wp_bind. eapply wp_access; [done|]. apply wp_ret. split; [done|]. rewrite <- Hmc in Hfrom.
  destruct Hfrom as [o kv Ho Hl Hp|ord Hp]; rewrite Hp; [|apply advanced_end].
  assert (pairs_of (drop (S o) mc) = pairs_after (mkTableIterator (Z.of_nat o + 0) SparseMapStorage)) as ->
    by (unfold pairs_after; simpl; do 3 f_equal; lia).
  apply advanced_to. unfold cell_at. simpl. by rewrite Z.add_0_r, at_slot_nat.
Qed.

Lemma find_next_vector_entry_spec j : is_Some (m_butterfly (st_table s)) -> (j <= length vc)%nat ->
  returns (find_next_vector_entry (Z.of_nat j)) (advanced (pairs_of (drop j vc) ++ pairs_of mc)).
Proof.
  intros [b0 Hsome] Hj. destruct butterfly_cases as [(Hn & _)|(nm & Hb & Hok)]; [congruence|]. pose proof Hok as [].
  unfold find_next_vector_entry. apply wp_bind. eapply wp_on_butterfly; [done|by apply m_arrayStorageCapacity_mk|].
  unfold vector_cells in Hj. rewrite length_imap in Hj.
  apply wp_bind. eapply wp_same; [eapply next_vector_entry_spec; [done|done|done|lia]|].
  intros r Hr. destruct Hr as [o kv Ho Hl Hp|ord Hp]; rewrite Hp.
  - apply wp_ret. split; [done|].
    assert ((kv :: pairs_of (drop (S o) vc)) ++ pairs_of mc =
      kv :: pairs_after (mkTableIterator (Z.of_nat o + 1) VectorStorage)) as ->
      by (unfold pairs_after; simpl; do 4 f_equal; lia).
    apply advanced_to. unfold cell_at. simpl. by rewrite Z.add_simpl_r, at_slot_nat.
  - apply wp_bind. eapply wp_on_butterfly; [done|by apply m_arrayLengthIfContinuous_mk|].
    destruct (ButterflyHeader.HasSparseMap (pv_len v)) eqn:Eh.
    + change 0 with (Z.of_nat 0). eapply wp_same; [by apply find_next_sparse_map_entry_spec; [|lia]|]. done.
    + apply wp_ret. split; [done|]. unfold sparse_map_cells. rewrite Eh. apply advanced_end.
Qed.

Lemma start_iterating_vector_storage_spec ord :
  returns (start_iterating_vector_storage ord) (advanced (pairs_of vc ++ pairs_of mc)).
Proof.
  unfold start_iterating_vector_storage. apply wp_bind, wp_get_table.
  destruct butterfly_cases as [(-> & -> & ->)|(nm & Hb & Hok)]; [apply wp_ret; split; [done|apply advanced_end]|].
  rewrite Hb. change 0 with (Z.of_nat 0). apply (find_next_vector_entry_spec 0); [by eexists|lia].
Qed.

Lemma named_advanced o kv : nc !! o = Some (Some kv) ->
  advanced ((kv :: pairs_of (drop (S o) nc)) ++ pairs_of vc ++ pairs_of mc) (kv, mkTableIterator (Z.of_nat o + 0) NamedProperty).
Proof.
  intros Hl. assert ((kv :: pairs_of (drop (S o) nc)) ++ pairs_of vc ++ pairs_of mc =
    kv :: pairs_after (mkTableIterator (Z.of_nat o + 0) NamedProperty)) as -> by (unfold pairs_after; simpl; do 4 f_equal; lia).
  apply advanced_to. unfold cell_at. simpl. by rewrite Z.add_0_r, at_slot_nat.
Qed.

Lemma structure_cell_key i j kv : structure_view K (st_table s) v mt i -> structure_cells i (pv_values v) !! j = Some (Some kv) ->
  exists g x, i_keys i !! j = Some g /\ pv_values v !! j = Some x /\ (i_metatable i =? Z.of_nat j + 1) = false /\ IsNil x = false /\
    kv = mkKV (structure_key SpecialKeyForBoolean (GeneralHeapPointer_As g)) x.
Proof.
  intros Hi Hl. pose proof (lookup_lt_Some _ _ _ Hl) as Hlt. rewrite structure_length in Hlt.
  destruct (lookup_lt_is_Some_2 (i_keys i) j Hlt) as [g Hg].
  destruct (wh_value j) as [x Hx]; [by rewrite (sv_keys _ _ _ _ _ Hi)|].
  rewrite (structure_cell_at i j g x Hg Hx) in Hl. exists g, x.
  destruct (i_metatable i =? Z.of_nat j + 1); [done|]. unfold cell in Hl. destruct (IsNil x); [done|]. by injection Hl as <-.
Qed.

Lemma get_next_structure_prop_spec i sc0 ord k : structure_view K (st_table s) v mt i ->
  class_ok env (anchors (st_hc s)) K sc0 i -> nc = structure_cells i (pv_values v) -> u32 (ord + 1) = Z.of_nat k ->
  returns (get_next_structure_prop SpecialKeyForBoolean sc0 ord) (advanced (pairs_of (drop k nc) ++ pairs_of vc ++ pairs_of mc)).
Proof.
  intros Hi Hc Hnc Hk. unfold get_next_structure_prop. apply wp_bind.
  eapply wp_same; [eapply next_structure_prop_spec; [done|done|done|]|].
  { rewrite (cl_numSlots _ _ _ _ _ Hc). unfold i_count. lia. }
  intros [ord' r] (kv & Hfrom & Hr). simpl in Hr. subst r. rewrite <- Hnc in Hfrom. simpl in Hfrom. simpl.
  inversion Hfrom as [o kv' Ho Hl Hp Heq|ord2 Hp Heq]; subst; rewrite Hp.
  - pose proof Hl as Hl'. rewrite Hnc in Hl'. destruct (structure_cell_key i o kv' Hi Hl') as (g & x & Hg & Hx & _ & _ & ->). simpl.
    pose proof (lookup_lt_Some _ _ _ Hg) as Hlt. pose proof (cl_count _ _ _ _ _ Hc) as Hcnt.
    assert (u8 (Z.of_nat o + 0) = Z.of_nat o) as Hu8 by (rewrite Z.add_0_r; apply wrapu_small; unfold in_u; pow2; lia).
    apply wp_bind, wp_on_heap. eapply wp_query.
    { rewrite Hu8. eapply GetKeyForSlotOrdinal_lookup; [apply wh_inv|exact Hc|]. by rewrite at_slot_nat. }
    rewrite with_heap_same. apply wp_ret. split; [done|]. by apply named_advanced.
  - apply start_iterating_vector_storage_spec.
Qed.

Lemma find_and_get_cd_prop_spec d k t j : dictionary_view env (st_hc s) (st_table s) v mt d -> dict_shape env d (pv_keys v) k t ->
  nc = dictionary_cell (pv_values v) <$> t -> (j <= length nc)%nat ->
  returns (find_and_get_cd_prop d (Z.of_nat j)) (advanced (pairs_of (drop j nc) ++ pairs_of vc ++ pairs_of mc)).
Proof.
  intros Hd Hsh Hnc Hj. unfold find_and_get_cd_prop. apply wp_bind. eapply wp_access; [apply (ds_hashTable _ _ _ _ _ Hsh)|].
  apply wp_bind. rewrite Hnc, length_fmap in Hj. eapply wp_same; [eapply next_dictionary_prop_spec; [done|done|done|lia]|].
  rewrite <- Hnc. intros r Hr. destruct Hr as [o kv Ho Hl Hp|ord Hp]; rewrite Hp; [|apply start_iterating_vector_storage_spec].
  apply wp_ret. split; [done|]. by apply named_advanced.
Qed.

(** A match on the type of the hidden class. *)
Lemma wp_on_class {A} (ms : Structure -> MT A) (md : CacheableDictionary -> MT A) (Q : A -> St -> Prop) :
  (forall i sc0, structure_view K (st_table s) v mt i -> class_ok env (anchors (st_hc s)) K sc0 i ->
     nc = structure_cells i (pv_values v) -> wp (ms sc0) s Q False) ->
  (forall d k t, dictionary_view env (st_hc s) (st_table s) v mt d -> dict_shape env d (pv_keys v) k t ->
     nc = dictionary_cell (pv_values v) <$> t -> wp (md d) s Q False) ->
  wp (hcType ← on_heap (query (fun h => hidden_class_type h (m_hiddenClass (st_table s))));
      match hcType with
      | HcStructure => structure ← on_heap (load_structure (m_hiddenClass (st_table s))); ms structure
      | HcCacheableDictionary => cacheableDict ← on_heap (load_dictionary (m_hiddenClass (st_table s))); md cacheableDict
      end) s Q False.
Proof.
  intros Hms Hmd. pose proof named as [(i & sc0 & Hi & Hs & Hc & Hnc)|(d & k & t & Hd & Hsh & Hnc)]; apply wp_bind, wp_on_heap.
  - destruct (structure_type env K s i wh_inv (sv_info _ _ _ _ _ Hi)) as (_ & _ & _ & Hty).
    eapply wp_query; [exact Hty|]. rewrite with_heap_same.
    apply wp_bind, wp_on_heap. eapply wp_load_structure; [exact Hs|]. rewrite with_heap_same. by apply (Hms i).
  - destruct (dictionary_type env K _ _ d wh_inv (dv_info _ _ _ _ _ _ Hd)) as [_ Hty].
    eapply wp_query; [exact Hty|]. rewrite with_heap_same.
    apply wp_bind, wp_on_heap. eapply wp_load_dictionary; [apply Hd|]. rewrite with_heap_same. by apply (Hmd d k t).
Qed.

(** [Advance] finds the first pair after the iterator. *)
Lemma TableObjectIterator_Advance_spec it : placed it ->
  returns (TableObjectIterator_Advance SpecialKeyForBoolean it) (advanced (pairs_after it)).
Proof.
  intros Hpl. destruct it as [ord [| | | |]]; unfold TableObjectIterator_Advance, pairs_after; simpl; apply wp_bind, wp_get_table.
  - apply wp_on_class.
    + intros i sc0 Hi Hc Hnc. rewrite (cl_numSlots _ _ _ _ _ Hc). unfold i_count.
      destruct (Z.eqb_spec (Z.of_nat (length (i_keys i))) 0) as [Hz|Hz]; [|by apply (get_next_structure_prop_spec i sc0 _ 0)].
      unfold all_pairs. rewrite Hnc. pose proof (structure_length i). destruct (structure_cells i (pv_values v)); [|simpl in *; lia].
      apply start_iterating_vector_storage_spec.
    + intros d k t Hd Hsh Hnc. apply (find_and_get_cd_prop_spec d k t 0); [done..|lia].
  - destruct Hpl as [?|[c Hc]]; [done|]. unfold cell_at in Hc. simpl in Hc. destruct (at_slot_Some _ _ _ Hc) as [Hr _].
    apply wp_on_class.
    + intros i sc0 Hi Hcl Hnc. pose proof (cl_count _ _ _ _ _ Hcl). rewrite Hnc, structure_length in Hr.
      apply (get_next_structure_prop_spec i sc0); try done. rewrite u32_small; [lia|pow2; lia].
    + intros d k t Hd Hsh Hnc. destruct (dictionary_mask d k t Hsh) as [_ Hsz]. rewrite Hnc, length_fmap in Hr.
      rewrite u32_small by (pow2; lia). replace (ord + 1) with (Z.of_nat (S (Z.to_nat ord))) by lia.
      apply (find_and_get_cd_prop_spec d k t); try done. rewrite Hnc, length_fmap. lia.
  - destruct Hpl as [?|[c Hc]]; [done|]. unfold cell_at in Hc. simpl in Hc. destruct (at_slot_Some _ _ _ Hc) as [Hr _].
    replace ord with (Z.of_nat (Z.to_nat ord)) by lia. rewrite Nat2Z.id. apply find_next_vector_entry_spec; [|lia].
    destruct butterfly_cases as [(_ & Hv & _)|(nm & -> & _)]; [|by eexists]. rewrite Hv in Hr. simpl in Hr. lia.
  - destruct Hpl as [?|[c Hc]]; [done|]. unfold cell_at in Hc. simpl in Hc. destruct (at_slot_Some _ _ _ Hc) as [Hr _].
    assert (ButterflyHeader.HasSparseMap (pv_len v) = true) as Hh.
    { destruct (ButterflyHeader.HasSparseMap (pv_len v)) eqn:Eh; [done|]. unfold sparse_map_cells in Hr. rewrite Eh in Hr. simpl in Hr. lia. }
    assert (Z.of_nat (length mc) <= 2 ^ 31) as Hsz.
    { destruct (sparse_of_header Hh) as (m & _ & (k & Hk & _ & ([Hk0 _] & Hlen & _) & _) & _ & -> & _).
      rewrite length_fmap, Hlen. pose proof (Z.pow_le_mono_r 2 k 31). pose proof (pow_pos k). lia. }
    rewrite u32_small by (pow2; lia). replace (ord + 1) with (Z.of_nat (S (Z.to_nat ord))) by lia.
    apply find_next_sparse_map_entry_spec; [done|lia].
  - destruct Hpl as [?|[c Hc]]; done.
Qed.
End table.
End cells.
