(* ===== verification/TableIteration.v ===== *)
(** * Iteration visits every pair of a table once

    [drain] is the loop of [pairs], [next_all] the loop of [next]: both see all
    pairs of the table, in the order of the cells, and end. *)

From S2P Require Import Prelude Double TValue MiscMath Machine TypeMask ArrayType Butterfly SparseMap HiddenClass TableObject TableArray Probing CheckedTable ClassHeap Structure Transition ClassInv ClassLookup ClassFrame ClassCreate ClassTransition ClassQuery ClassOps ClassView Dictionary TableClasses NamedProps NamedInv NamedPut NamedTransition TableWhole TableHistory TableIterator TableCells.

Section next.
Variable env : Env.
Variable hash : Z -> Z.
Variable SpecialKeyForBoolean : bool -> Z.
Notation St := (TableObject.St SysHeap).
Notation next := (GetNextFromKey env hash SpecialKeyForBoolean).

(** ** Keys *)

Lemma user_key_pointer p : user_key p -> LuaValue_valid (LPointer p) = true.
Proof.
  intros [Hr _]. unfold x_vmBaseOffset, x_vmUserHeapSize in Hr. change (Z.shiftl 16 30) with (2 ^ 34) in Hr.
  change (Z.shiftl 12 30) with (3 * 2 ^ 32) in Hr. simpl. pow2. lia.
Qed.

Lemma pointer_not_boolean p b : user_key p -> CreatePointer p <> CreateBoolean b.
Proof.
  intros Hp He. pose proof (tests_pointer p (user_key_pointer p Hp)) as Ht. rewrite He in Ht. by destruct b.
Qed.

Lemma next_pointer p : user_key p -> next (CreatePointer p) = get_next_from_pointer env SpecialKeyForBoolean p.
Proof.
  intros Hp. pose proof (tests_pointer p (user_key_pointer p Hp)) as Ht. injection Ht as _ _ Hm Hpt.
  destruct (pointer_value p Hp) as (Hn & _ & Ha). unfold GetNextFromKey. by rewrite Hn, Hm, Hpt, Ha.
Qed.

Lemma next_boolean b : user_key (SpecialKeyForBoolean b) ->
  next (CreateBoolean b) = get_next_from_pointer env SpecialKeyForBoolean (SpecialKeyForBoolean b).
Proof.
  intros Hp. destruct (pointer_value _ Hp) as (_ & Hpt & Ha). unfold GetNextFromKey.
  assert (IsNil (CreateBoolean b) = false) as -> by (by destruct b). assert (IsMIV (CreateBoolean b) = true) as -> by (by destruct b).
  assert (MIV.GetBooleanValue (AsMIV (CreateBoolean b)) = b) as -> by (by destruct b). by rewrite Hpt, Ha.
Qed.

Lemma number_below d : IsNaN d = false -> in_u 64 d -> LuaValue_valid (LDouble d) = true.
Proof.
  intros Hn Hd. unfold in_u in Hd. simpl. destruct (Z.le_gt_cases 0xFFF0000000000001 d) as [Hle|Hlt]; [|lia].
  rewrite high_words_are_NaN in Hn by lia. done.
Qed.

Lemma number_not_nil d : IsNaN d = false -> IsNil (CreateDouble d) = false.
Proof. intros Hn. unfold IsNil, CreateDouble. destruct (Z.eqb_spec d Nil) as [->|]; [by vm_compute in Hn|done]. Qed.

Lemma next_double d : IsNaN d = false -> in_u 64 d -> next (CreateDouble d) = get_next_from_double hash SpecialKeyForBoolean d.
Proof.
  intros Hn Hd. pose proof (tests_double d (number_below d Hn Hd)) as Ht. injection Ht as Hdb Hi Hm Hp.
  unfold GetNextFromKey. by rewrite number_not_nil, Hm, Hp, Hi, Hdb.
Qed.

(** What a program sees as the key of a slot. *)
Hypothesis boolean_user : forall b, user_key (SpecialKeyForBoolean b).
Hypothesis boolean_distinct : SpecialKeyForBoolean false <> SpecialKeyForBoolean true.

Lemma structure_key_cases p :
  (exists b, p = SpecialKeyForBoolean b /\ structure_key SpecialKeyForBoolean p = CreateBoolean b) \/
  ((forall b, p <> SpecialKeyForBoolean b) /\ structure_key SpecialKeyForBoolean p = CreatePointer p).
Proof.
  unfold structure_key. destruct (Z.eqb_spec p (SpecialKeyForBoolean false)); [left; by exists false|].
  destruct (Z.eqb_spec p (SpecialKeyForBoolean true)); [left; by exists true|]. right. split; [by intros []|done].
Qed.

Lemma CreateBoolean_inj b b' : CreateBoolean b = CreateBoolean b' -> b = b'.
Proof. by destruct b, b'. Qed.

Lemma CreatePointer_inj p q : user_key p -> user_key q -> CreatePointer p = CreatePointer q -> p = q.
Proof.
  intros Hp Hq He. rewrite <- (AsPointer_CreatePointer p), He by by apply user_key_pointer.
  by apply AsPointer_CreatePointer, user_key_pointer.
Qed.

Lemma structure_key_inj p q : user_key p -> user_key q ->
  structure_key SpecialKeyForBoolean p = structure_key SpecialKeyForBoolean q -> p = q.
Proof.
  intros Hp Hq. destruct (structure_key_cases p) as [(b & -> & ->)|[_ ->]], (structure_key_cases q) as [(b' & -> & ->)|[_ ->]].
  - by intros ->%CreateBoolean_inj.
  - intros He. by destruct (pointer_not_boolean q b).
  - intros He. by destruct (pointer_not_boolean p b').
  - by apply CreatePointer_inj.
Qed.

Lemma next_structure_key p : user_key p -> next (structure_key SpecialKeyForBoolean p) = get_next_from_pointer env SpecialKeyForBoolean p.
Proof. intros Hp. destruct (structure_key_cases p) as [(b & -> & ->)|[_ ->]]; [by apply next_boolean|by apply next_pointer]. Qed.

Lemma structure_key_not_number p d : user_key p -> IsNaN d = false -> in_u 64 d -> structure_key SpecialKeyForBoolean p <> CreateDouble d.
Proof.
  intros Hp Hn Hd He. pose proof (tests_double d (number_below d Hn Hd)) as Ht. rewrite <- He in Ht.
  destruct (structure_key_cases p) as [(b & _ & Hs)|[_ Hs]]; rewrite Hs in Ht; [by destruct b|].
  by rewrite tests_pointer in Ht by by apply user_key_pointer.
Qed.

(** ** The place of a key *)

Section table.
Variables (s : St) (K : Classes) (v : PV) (f : Z -> Z) (mt : Z) (sc : Z -> Z).
Hypothesis wh : whole_at env hash K s v f mt sc.
Variable nc : list Cell.
Hypothesis named : named_as env SpecialKeyForBoolean s K v mt nc.
Notation returns m P := (wp m s (fun r s' => s' = s /\ P r) False).
Notation mc := (sparse_map_cells (st_sparse s) (pv_len v)).

(** The key stands at the place, with or without a value. *)
Inductive key_place : TableObjectIterator -> Z -> Prop :=
| place_slot i j g : structure_view K (st_table s) v mt i -> nc = structure_cells SpecialKeyForBoolean i (pv_values v) ->
    i_keys i !! j = Some g -> (i_metatable i =? Z.of_nat j + 1) = false ->
    key_place (mkTableIterator (Z.of_nat j) NamedProperty) (structure_key SpecialKeyForBoolean (GeneralHeapPointer_As g))
| place_entry d k t j e g : dictionary_view env (st_hc s) (st_table s) v mt d -> dict_shape env d (pv_keys v) k t ->
    nc = dictionary_cell (pv_values v) <$> t -> t !! j = Some e -> dkey e = Some g ->
    key_place (mkTableIterator (Z.of_nat j) NamedProperty) (CreatePointer (GeneralHeapPointer_As g))
| place_vector i : 1 <= i <= pv_cap v -> key_place (mkTableIterator i VectorStorage) (CreateDouble (double_of_int i))
| place_sparse m j e : ButterflyHeader.HasSparseMap (pv_len v) = true ->
    st_sparse s !! GeneralHeapPointer_As (pv_len v) = Some m -> SparseMap.m_hashTable m !! j = Some e ->
    IsNaN (m_key e) = false -> in_vector (pv_cap v) (m_key e) = false ->
    key_place (mkTableIterator (Z.of_nat j) SparseMapStorage) (CreateDouble (m_key e)).

(** The keys of the sparse map are 64-bit words. *)
Definition sparse_words (sp : gmap Z ArraySparseMap) : Prop :=
  map_Forall (fun _ m => Forall (fun e => in_u 64 (m_key e)) (SparseMap.m_hashTable m)) sp.

Lemma structure_key_user i j g : structure_view K (st_table s) v mt i -> i_keys i !! j = Some g ->
  user_key (GeneralHeapPointer_As g) /\ GeneralHeapPointer (GeneralHeapPointer_As g) = g.
Proof.
  intros Hi Hg. apply valid_key_As. destruct (wh_bounds env hash s K v f mt sc wh) as [_ Hv _ _ _].
  rewrite Forall_lookup, (sv_keys _ _ _ _ _ Hi) in Hv. by eapply Hv.
Qed.

Lemma dictionary_key_user d k t e g : dict_shape env d (pv_keys v) k t -> e ∈ t -> dkey e = Some g ->
  user_key (GeneralHeapPointer_As g) /\ GeneralHeapPointer (GeneralHeapPointer_As g) = g.
Proof.
  intros Hsh He Hg. apply valid_key_As. destruct (wh_bounds env hash s K v f mt sc wh) as [_ Hv _ _ _].
  rewrite Forall_forall in Hv. apply Hv. eapply at_slot_elem, (dt_entries _ _ _ _ (ds_table _ _ _ _ _ Hsh)); done.
Qed.

Lemma vector_index i : 1 <= i <= pv_cap v -> Z.abs i < 2 ^ 53 /\ in_i 64 i /\ i < 2 ^ 32 /\
  exists nm, m_butterfly (st_table s) = Some (mk_bf nm (pv_len v) (pv_cap v) (pv_vec v)) /\ bf_ok nm (pv_len v) (pv_cap v) (pv_vec v).
Proof.
  intros Hi. destruct (wh_layout env hash s K v f mt sc wh) as (nm & [(_ & _ & _ & Hc & _)|[Hb Hok]] & _); [lia|]. pose proof Hok as [].
  destruct (index_bound i ltac:(lia)) as [H53 H64]. split_and!; [done|done| |by exists nm].
  unfold x_unconditionallySparseMapCutoff in *. pow2. lia.
Qed.

Lemma wp_advance_from it : placed s v nc it ->
  returns (advance_from SpecialKeyForBoolean (m_ord it) (m_state it))
    (fun r => exists kv it', r = Some kv /\ advanced s v nc (pairs_after s v nc it) (kv, it')).
Proof.
  intros Hp. unfold advance_from. destruct it as [ord st]. apply wp_bind.
  eapply wp_same; [by apply (TableObjectIterator_Advance_spec env hash SpecialKeyForBoolean s K v f mt sc wh nc named)|].
  intros [kv it'] Ha. apply wp_ret. split; [done|]. by exists kv, it'.
Qed.

Lemma pointer_place i sc0 j g : structure_view K (st_table s) v mt i -> class_ok env (anchors (st_hc s)) K sc0 i ->
  i_keys i !! j = Some g -> GetSlotOrdinalFromMaybeNonStringProperty env (st_hc s) sc0 (GeneralHeapPointer_As g) = Some (Some (Z.of_nat j)).
Proof.
  intros Hi Hc Hg. destruct (structure_key_user i j g Hi Hg) as [Hu Hgg].
  destruct (lookup_user_key env (st_hc s) K (wh_inv env hash s K v f mt sc wh) sc0 i _ Hc Hu) as (r & -> & Hm). rewrite Hgg in Hm.
  destruct r as [o|]; [|destruct Hm; by eapply list_elem_of_lookup_2]. do 2 f_equal.
  eapply (NoDup_at_slot (i_keys i)); [apply Hc|done|by rewrite at_slot_nat].
Qed.

(** The place of an entry of the sparse map. *)
Lemma sparse_place m j e : wf hash m -> SparseMap.m_hashTable m !! j = Some e -> IsNaN (m_key e) = false ->
  GetHashSlotOrdinal hash m (m_key e) = Some (Z.of_nat j) /\ Z.of_nat j <> u32 (-1).
Proof.
  intros Hwf Hj He. destruct (GetHashSlotOrdinal_spec hash m (m_key e) Hwf) as (slot & -> & Hs).
  pose proof Hwf as (k & Hk & _ & ([Hk0 _] & Hlen & _ & Hd) & _).
  pose proof (lookup_lt_Some _ _ _ Hj) as Hlt. pose proof (Z.pow_le_mono_r 2 k 31 ltac:(lia) Hk) as Hp31. pose proof (pow_pos k ltac:(lia)).
  split; [|change (u32 (-1)) with (2 ^ 32 - 1); pow2; lia].
  destruct (slot =? 2 ^ 32 - 1); [by destruct (Hs j e Hj); apply feq_refl|]. destruct Hs as (H0 & e' & He' & Hf).
  assert (Z.to_nat slot = j) by (eapply Hd; done). f_equal. lia.
Qed.

(** A hidden class is a structure or a dictionary. *)
Lemma class_exclusive i d : structure_view K (st_table s) v mt i -> dictionary_view env (st_hc s) (st_table s) v mt d -> False.
Proof.
  intros [] []. pose proof (wh_inv env hash s K v f mt sc wh) as Hinv.
  destruct (dictionary_type env K _ _ d Hinv dv_info) as [Hns _]. destruct (inv_structure env _ K Hinv _ i sv_info) as (? & ? & _). congruence.
Qed.

(** The pair after a place. *)
Notation follows it := (fun r => exists kv it', r = Some kv /\ advanced s v nc (pairs_after s v nc it) (kv, it')).

Lemma next_slot i j g : structure_view K (st_table s) v mt i -> nc = structure_cells SpecialKeyForBoolean i (pv_values v) ->
  i_keys i !! j = Some g ->
  returns (next (structure_key SpecialKeyForBoolean (GeneralHeapPointer_As g))) (follows (mkTableIterator (Z.of_nat j) NamedProperty)).
Proof.
  intros Hi Hnc Hg. destruct (structure_key_user i j g Hi Hg) as [Huser _]. rewrite next_structure_key by done.
  unfold get_next_from_pointer. apply wp_bind, wp_get_table. eapply wp_on_class; [exact wh|exact named| |].
  - intros i' sc0 Hi' Hc Hnc'. assert (i' = i) as -> by (destruct Hi, Hi'; congruence).
    apply wp_bind, wp_on_heap. eapply wp_query; [by eapply pointer_place|]. rewrite with_heap_same.
    apply (wp_advance_from (mkTableIterator (Z.of_nat j) NamedProperty)). right. unfold cell_at. simpl.
    rewrite at_slot_nat. apply lookup_lt_is_Some_2. rewrite Hnc, structure_length. by eapply lookup_lt_Some.
  - intros d k t Hd _ _. by destruct (class_exclusive i d).
Qed.

Lemma next_entry d k t j e g : dictionary_view env (st_hc s) (st_table s) v mt d -> dict_shape env d (pv_keys v) k t ->
  nc = dictionary_cell (pv_values v) <$> t -> t !! j = Some e -> dkey e = Some g ->
  returns (next (CreatePointer (GeneralHeapPointer_As g))) (follows (mkTableIterator (Z.of_nat j) NamedProperty)).
Proof.
  intros Hd Hsh Hnc Hj Hg. assert (e ∈ t) as Hin by (by eapply list_elem_of_lookup_2).
  destruct (dictionary_key_user d k t e g Hsh Hin Hg) as [Huser Hgg]. rewrite next_pointer by done.
  unfold get_next_from_pointer. apply wp_bind, wp_get_table. eapply wp_on_class; [exact wh|exact named| |].
  - intros i sc0 Hi _ _. by destruct (class_exclusive i d).
  - intros d' k' t' Hd' Hsh' _. assert (d' = d) as -> by (destruct Hd, Hd'; congruence).
    apply wp_bind. eapply wp_access; [eapply GetHashTableSlotNumberForProperty_spec; [exact Hsh|done|exact Hj|by rewrite Hgg]|].
    destruct (dictionary_mask env v d k t Hsh) as [_ Hsz]. pose proof (lookup_lt_Some _ _ _ Hj) as Hlt.
    destruct (Z.eqb_spec (Z.of_nat j) (u32 (-1))) as [Hx|_]; [change (u32 (-1)) with (2 ^ 32 - 1) in Hx; pow2; lia|].
    apply (wp_advance_from (mkTableIterator (Z.of_nat j) NamedProperty)). right. unfold cell_at. simpl.
    rewrite at_slot_nat. apply lookup_lt_is_Some_2. by rewrite Hnc, length_fmap.
Qed.

(** The choice between vector and sparse map. *)
Lemma next_number key P nm : IsNaN key = false -> in_u 64 key ->
  m_butterfly (st_table s) = Some (mk_bf nm (pv_len v) (pv_cap v) (pv_vec v)) -> bf_ok nm (pv_len v) (pv_cap v) (pv_vec v) ->
  (forall i, IsInt64Index key = Some i -> in_vector (pv_cap v) key = true ->
     returns (advance_from SpecialKeyForBoolean (u32 i) VectorStorage) P) ->
  (in_vector (pv_cap v) key = false -> returns (get_next_from_sparse_map hash SpecialKeyForBoolean key) P) ->
  returns (next (CreateDouble key)) P.
Proof.
  intros Hn Hu Hb Hok Hvec Hsp. rewrite next_double by done. unfold get_next_from_double. rewrite Hn.
  apply wp_bind, wp_get_table. rewrite Hb. unfold in_vector in *.
  destruct (IsInt64Index key) as [i|] eqn:Ei; [|by apply Hsp].
  apply wp_bind. eapply wp_on_butterfly; [done|by apply m_arrayStorageCapacity_mk|].
  pose proof Hok as []. unfold x_unconditionallySparseMapCutoff in bf_cap. apply IsInt64Index_Some in Ei as (Hi64 & _ & _).
  rewrite IndexFitsInVectorCapacity_spec by (done || unfold in_u; pow2; lia).
  destruct (_ && _); [by apply Hvec|by apply Hsp].
Qed.

Lemma next_vector i : 1 <= i <= pv_cap v -> returns (next (CreateDouble (double_of_int i))) (follows (mkTableIterator i VectorStorage)).
Proof.
  intros Hi. destruct (vector_index i Hi) as (H53 & H64 & H32 & nm & Hb & Hok). destruct (double_of_int_number i H64) as (Hu & Hn & _).
  pose proof (bf_vec _ _ _ _ Hok). eapply next_number; [done|done|done|done|..].
  - intros j Hj _. rewrite IsInt64Index_int in Hj by done. injection Hj as <-. rewrite u32_small by lia.
    apply (wp_advance_from (mkTableIterator i VectorStorage)). right. unfold cell_at. simpl.
    replace (i - 1) with (Z.of_nat (Z.to_nat (i - 1))) by lia. rewrite at_slot_nat. apply lookup_lt_is_Some_2.
    unfold vector_cells. rewrite length_imap. lia.
  - unfold in_vector. rewrite IsInt64Index_int by done. lia.
Qed.

Lemma next_sparse m j e : ButterflyHeader.HasSparseMap (pv_len v) = true ->
  st_sparse s !! GeneralHeapPointer_As (pv_len v) = Some m -> SparseMap.m_hashTable m !! j = Some e ->
  IsNaN (m_key e) = false -> in_u 64 (m_key e) -> in_vector (pv_cap v) (m_key e) = false ->
  returns (next (CreateDouble (m_key e))) (follows (mkTableIterator (Z.of_nat j) SparseMapStorage)).
Proof.
  intros Hh Hm Hj Hn Hu Hv. destruct (sparse_of_header env hash s K v f mt sc wh Hh) as (m' & Hm' & Hwf & _ & Hmc & _ & nm & Hb & Hok).
  assert (m' = m) as -> by congruence. destruct (sparse_place m j e Hwf Hj Hn) as [Hslot Hne].
  eapply next_number; [done|done|done|done|congruence|intros _]. unfold get_next_from_sparse_map, GetSparseMap.
  apply wp_bind. eapply wp_on_butterfly; [done|by apply m_arrayLengthIfContinuous_mk|].
  rewrite Hh. simpl. apply wp_bind, wp_bind. eapply wp_on_butterfly; [done|by apply m_arrayLengthIfContinuous_mk|].
  apply wp_bind, wp_get. eapply wp_access; [done|]. apply wp_bind. eapply wp_access; [done|].
  rewrite (proj2 (Z.eqb_neq _ _) Hne). apply (wp_advance_from (mkTableIterator (Z.of_nat j) SparseMapStorage)). right.
  unfold cell_at. simpl. rewrite at_slot_nat. apply lookup_lt_is_Some_2. rewrite Hmc, length_fmap. by eapply lookup_lt_Some.
Qed.

(** [next] of the key at a place: the first pair after the place. *)
Lemma next_from_place it key : sparse_words (st_sparse s) -> key_place it key -> returns (next key) (follows it).
Proof.
  intros Hw [i j g Hi Hnc Hg _|d k t j e g Hd Hsh Hnc Hj Hg|i Hi|m j e Hh Hm Hj Hn Hv];
    [by eapply next_slot|by eapply next_entry|by apply next_vector|].
  eapply next_sparse; try done. specialize (Hw _ m Hm). rewrite Forall_lookup in Hw. by eapply Hw.
Qed.

(** *** The pair of a cell *)

Lemma cell_Some key x kv : cell key x = Some kv -> kv = mkKV key x /\ IsNil x = false.
Proof. unfold cell. destruct (IsNil x); [done|]. by intros [= <-]. Qed.

Lemma dictionary_cell_Some d k t e kv : dict_shape env d (pv_keys v) k t -> e ∈ t -> dictionary_cell (pv_values v) e = Some kv ->
  exists g x, dkey e = Some g /\ at_slot (pv_keys v) (de_slot e) = Some g /\ at_slot (pv_values v) (de_slot e) = Some x /\
    IsNil x = false /\ kv = mkKV (CreatePointer (GeneralHeapPointer_As g)) x.
Proof.
  intros Hsh Hin He. unfold dictionary_cell in He. destruct (dkey e) as [g|] eqn:Eg; [|done].
  destruct (dictionary_value env hash s K v f mt sc wh d k t Hsh e g Hin Eg) as (j & x & Hj & Hg & Hx).
  rewrite Hj, !at_slot_nat, Hx in *. simpl in He. apply cell_Some in He as [-> Hn]. by exists g, x.
Qed.

Lemma vector_cell_Some j kv : vector_cells (pv_vec v) !! j = Some (Some kv) ->
  exists x, pv_vec v !! j = Some x /\ IsNil x = false /\ kv = mkKV (CreateDouble (double_of_int (Z.of_nat j + 1))) x /\
    1 <= Z.of_nat j + 1 <= pv_cap v.
Proof.
  unfold vector_cells. rewrite list_lookup_imap. destruct (pv_vec v !! j) as [x|] eqn:Hx; [|done].
  intros [= Hc]. apply cell_Some in Hc as [-> Hn]. exists x. split_and!; try done; [lia|].
  pose proof (lookup_lt_Some _ _ _ Hx) as Hlt. destruct (wh_layout env hash s K v f mt sc wh) as (nm & [(_ & _ & _ & _ & Hv)|[_ []]] & _);
    [rewrite Hv in Hlt; simpl in Hlt; lia|lia].
Qed.

Lemma sparse_cell_Some j kv : mc !! j = Some (Some kv) ->
  exists m e, ButterflyHeader.HasSparseMap (pv_len v) = true /\ st_sparse s !! GeneralHeapPointer_As (pv_len v) = Some m /\
    wf hash m /\ sc = content m /\ SparseMap.m_hashTable m !! j = Some e /\ IsNaN (m_key e) = false /\ IsNil (m_value e) = false /\
    kv = mkKV (CreateDouble (m_key e)) (m_value e) /\ content m (m_key e) = m_value e /\ in_vector (pv_cap v) (m_key e) = false.
Proof.
  intros Hl. destruct (ButterflyHeader.HasSparseMap (pv_len v)) eqn:Hh.
  2: { unfold sparse_map_cells in Hl. by rewrite Hh in Hl. }
  destruct (sparse_of_header env hash s K v f mt sc wh Hh) as (m & Hm & Hwf & Hsc & Hmc & Hv & _). rewrite Hmc, list_lookup_fmap in Hl.
  destruct (SparseMap.m_hashTable m !! j) as [e|] eqn:He; [|done]. injection Hl as Hl. unfold sparse_cell in Hl.
  destruct (IsNaN (m_key e)) eqn:Hn; [done|]. apply cell_Some in Hl as [-> Hnil].
  assert (content m (m_key e) = m_value e) as Hc.
  { eapply content_hit; [|exact He|by apply feq_refl]. by destruct Hwf as (k & _ & _ & (_ & _ & _ & ?) & _). }
  exists m, e. split_and!; try done. destruct (in_vector (pv_cap v) (m_key e)) eqn:Ev; [|done].
  rewrite (Hv _ Ev) in Hc. rewrite <- Hc in Hnil. by vm_compute in Hnil.
Qed.

Lemma cell_key_place it kv : cell_at s v nc it = Some (Some kv) -> key_place it (kv_key kv).
Proof.
  destruct it as [ord [| | | |]]; unfold cell_at; simpl; try done; intros Hc; destruct (at_slot_Some _ _ _ Hc) as [Hr Hl].
  - replace ord with (Z.of_nat (Z.to_nat ord)) by lia. pose proof named as [(i & sc0 & Hi & _ & _ & Hnc)|(d & k & t & Hd & Hsh & Hnc)].
    + pose proof Hl as Hl'. rewrite Hnc in Hl'.
      destruct (structure_cell_key env hash SpecialKeyForBoolean s K v f mt sc wh i _ kv Hi Hl') as (g & x & Hg & _ & Hp & _ & ->).
      by eapply place_slot.
    + rewrite Hnc, list_lookup_fmap in Hl. destruct (t !! Z.to_nat ord) as [e|] eqn:He; [|done]. injection Hl as Hl.
      destruct (dictionary_cell_Some d k t e kv Hsh) as (g & x & Hg & _ & _ & _ & ->); [by eapply list_elem_of_lookup_2|done|].
      by eapply place_entry.
  - destruct (vector_cell_Some _ kv Hl) as (x & _ & _ & -> & Hr').
    replace (Z.of_nat (Z.to_nat (ord - 1)) + 1) with ord in * by lia. by apply place_vector.
  - replace ord with (Z.of_nat (Z.to_nat ord)) by lia.
    destruct (sparse_cell_Some _ kv Hl) as (m & e & Hh & Hm & _ & _ & He & Hn & _ & -> & _ & Hv).
    by eapply place_sparse.
Qed.

Lemma key_place_not_nil it key : key_place it key -> IsNil key = false.
Proof.
  intros [i j g Hi Hnc Hg _|d k t j e g Hd Hsh Hnc Hj Hg|i Hi|m j e Hh Hm Hj Hn Hv].
  - destruct (structure_key_user i j g Hi Hg) as [Hu _].
    destruct (structure_key_cases (GeneralHeapPointer_As g)) as [([] & _ & ->)|[_ ->]]; [done..|]. by apply pointer_value.
  - destruct (dictionary_key_user d k t e g Hsh) as [Hu _]; [by eapply list_elem_of_lookup_2|done|]. by apply pointer_value.
  - destruct (vector_index i Hi) as (_ & H64 & _). by apply number_not_nil, double_of_int_number.
  - by apply number_not_nil.
Qed.

(** ** The loops *)

Lemma drain_spec L : forall it, placed s v nc it -> pairs_after s v nc it = L ->
  drain SpecialKeyForBoolean (S (length L)) it s = Ok (L, s).
Proof.
  induction L as [|kv L IH]; intros it Hp HL;
    destruct (wp_returns _ _ _ (TableObjectIterator_Advance_spec env hash SpecialKeyForBoolean s K v f mt sc wh nc named it Hp))
      as ([kv' it'] & ? & E & -> & Ha); rewrite HL in Ha.
  - inversion Ha; subst. cbn [drain]. by rewrite (bind_ok _ _ _ _ _ E).
  - inversion Ha as [? ? Hc Heq Heq2|]; subst. cbn [drain length]. rewrite (bind_ok _ _ _ _ _ E).
    rewrite (key_place_not_nil it' _ (cell_key_place it' _ Hc)). rewrite (bind_ok _ _ _ _ _ (IH it' (or_intror (mk_is_Some _ _ Hc)) eq_refl)).
    done.
Qed.

Hypothesis words : sparse_words (st_sparse s).

Lemma next_all_from L : forall it key, key_place it key -> pairs_after s v nc it = L ->
  next_all env hash SpecialKeyForBoolean (S (length L)) key s = Ok (L, s).
Proof.
  induction L as [|kv L IH]; intros it key Hpl HL;
    destruct (wp_returns _ _ _ (next_from_place it key words Hpl)) as (r & ? & E & -> & kv' & it' & -> & Ha); rewrite HL in Ha.
  - inversion Ha; subst. cbn [next_all]. by rewrite (bind_ok _ _ _ _ _ E).
  - inversion Ha as [? ? Hc Heq Heq2|]; subst. cbn [next_all length]. rewrite (bind_ok _ _ _ _ _ E).
    pose proof (cell_key_place it' _ Hc) as Hk.
    rewrite (key_place_not_nil it' _ Hk). rewrite (bind_ok _ _ _ _ _ (IH it' _ Hk eq_refl)). done.
Qed.

(** The first call of [next] makes a fresh iterator. *)
Lemma next_all_spec L : all_pairs s v nc = L -> next_all env hash SpecialKeyForBoolean (S (length L)) Nil s = Ok (L, s).
Proof.
  intros HL. cbn [next_all].
  destruct (wp_returns _ _ _ (TableObjectIterator_Advance_spec env hash SpecialKeyForBoolean s K v f mt sc wh nc named
    newTableObjectIterator (or_introl eq_refl))) as ([kv it'] & ? & E & -> & Ha).
  change (pairs_after s v nc newTableObjectIterator) with (all_pairs s v nc) in Ha. rewrite HL in Ha.
  assert (next Nil s = Ok (Some kv, s)) as En by (unfold GetNextFromKey; simpl; by rewrite (bind_ok _ _ _ _ _ E)).
  rewrite (bind_ok _ _ _ _ _ En). inversion Ha as [? ? Hc Heq Heq2|]; subst; [|done].
  pose proof (cell_key_place it' _ Hc) as Hk. rewrite (key_place_not_nil it' _ Hk).
  cbn [length]. by rewrite (bind_ok _ _ _ _ _ (next_all_from _ it' _ Hk eq_refl)).
Qed.
End table.

(** ** What the pairs are *)

(** Two pairs with the same key; numbers are the same when they are equal. *)
Definition same_key (a b : KeyValuePair) : Prop := kv_key a = kv_key b \/ feq (kv_key a) (kv_key b).

(** The keys of the named part, as a program sees them. *)
Definition seen_key (h : SysHeap) (p key : Z) : Z :=
  match structures h !! p with
  | Some _ => structure_key SpecialKeyForBoolean key
  | None => CreatePointer key
  end.

(** [L] is the table with the meaning [m], every pair once. *)
Record lists_table s (m : Meaning) (L : list KeyValuePair) : Prop := {
  lt_pairs kv : kv ∈ L -> IsNil (kv_value kv) = false /\
    ((exists key, property_key env false key /\ kv = mkKV (seen_key (st_hc s) (m_hiddenClass (st_table s)) key) (named_value m key)) \/
     (exists k, IsNaN k = false /\ kv = mkKV (CreateDouble k) (element m k)));
  lt_named key : property_key env false key -> IsNil (named_value m key) = false ->
    mkKV (seen_key (st_hc s) (m_hiddenClass (st_table s)) key) (named_value m key) ∈ L;
  lt_elements k : IsNil (element m k) = false -> exists k', feq k' k /\ mkKV (CreateDouble k') (element m k) ∈ L;
  lt_once : ForallOrdPairs (fun a b => ~ same_key a b) L
}.

Lemma ForallOrdPairs_app {A} (R : A -> A -> Prop) l l' : ForallOrdPairs R l -> ForallOrdPairs R l' ->
  (forall a b, a ∈ l -> b ∈ l' -> R a b) -> ForallOrdPairs R (l ++ l').
Proof.
  intros Hl Hl' Hx. induction Hl as [|a l Ha _ IH]; [done|]. simpl. constructor.
  - apply Forall_app. split; [done|]. apply Forall_forall. intros b Hb. apply Hx; [left|done].
  - apply IH. intros b c Hb Hc. apply Hx; [by right|done].
Qed.

Lemma once_pairs (l : list Cell) :
  (forall i j a b, l !! i = Some (Some a) -> l !! j = Some (Some b) -> same_key a b -> i = j) ->
  ForallOrdPairs (fun a b => ~ same_key a b) (pairs_of l).
Proof.
  induction l as [|c l IH]; intros Hl; [constructor|].
  assert (ForallOrdPairs (fun a b => ~ same_key a b) (pairs_of l)) as Hrest.
  { apply IH. intros i j a b Hi Hj Hs. assert (S i = S j) by (by eapply (Hl (S i) (S j))). lia. }
  destruct c as [a|]; [|exact Hrest]. constructor; [|exact Hrest].
  apply Forall_forall. intros b [j Hj]%elem_of_pairs%list_elem_of_lookup_1 Hs.
  assert (O = S j) by (by eapply (Hl O (S j))). lia.
Qed.

Section meaning.
Variables (s : St) (K : Classes) (v : PV) (f : Z -> Z) (mt : Z) (sc : Z -> Z).
Hypothesis wh : whole_at env hash K s v f mt sc.
Variable nc : list Cell.
Hypothesis named : named_as env SpecialKeyForBoolean s K v mt nc.
Notation vc := (vector_cells (pv_vec v)).
Notation mc := (sparse_map_cells (st_sparse s) (pv_len v)).
Notation seen := (seen_key (st_hc s) (m_hiddenClass (st_table s))).

Lemma seen_structure i key : structure_view K (st_table s) v mt i -> seen key = structure_key SpecialKeyForBoolean key.
Proof.
  intros []. unfold seen_key. by destruct (inv_structure env _ K (wh_inv env hash s K v f mt sc wh) _ i sv_info) as (? & -> & _).
Qed.

Lemma seen_dictionary d key : dictionary_view env (st_hc s) (st_table s) v mt d -> seen key = CreatePointer key.
Proof.
  intros []. unfold seen_key. by destruct (dictionary_type env K _ _ d (wh_inv env hash s K v f mt sc wh) dv_info) as [-> _].
Qed.

Lemma seen_is_NaN key : user_key key -> IsNaN (seen key) = true.
Proof.
  intros Hu. assert (IsNaN (CreatePointer key) = true) as Hp.
  { apply (box_not_double_NaN (LPointer key)); [by apply user_key_pointer|].
    pose proof (tests_pointer key (user_key_pointer key Hu)) as Ht. by injection Ht. }
  unfold seen_key. destruct (structures (st_hc s) !! _); [|done].
  by destruct (structure_key_cases key) as [([] & _ & ->)|[_ ->]].
Qed.

(** A pair of the named part. *)
Lemma named_pair j kv : nc !! j = Some (Some kv) -> exists g o x, user_key (GeneralHeapPointer_As g) /\
  GeneralHeapPointer (GeneralHeapPointer_As g) = g /\ g <> special env /\
  pv_keys v !! o = Some g /\ pv_values v !! o = Some x /\ IsNil x = false /\ kv = mkKV (seen (GeneralHeapPointer_As g)) x.
Proof.
  intros Hl. pose proof named as [(i & sc0 & Hi & _ & Hc & Hnc)|(d & k & t & Hd & Hsh & Hnc)].
  - rewrite Hnc in Hl.
    destruct (structure_cell_key env hash SpecialKeyForBoolean s K v f mt sc wh i j kv Hi Hl) as (g & x & Hg & Hx & Hp & Hn & ->).
    destruct (structure_key_user s K v f mt sc wh i j g Hi Hg) as [Hu Hgg].
    exists g, j, x. rewrite (seen_structure i) by done. split_and!; try done; [|by rewrite (sv_keys _ _ _ _ _ Hi)].
    intros ->. destruct (cl_poly _ _ _ _ _ Hc) as [(_ & Hno & _)|[_ Hat]]; [destruct Hno; by eapply list_elem_of_lookup_2|].
    pose proof (NoDup_at_slot _ _ _ _ (cl_nodup _ _ _ _ _ Hc) Hat ltac:(by rewrite at_slot_nat)). zbool. lia.
  - rewrite Hnc, list_lookup_fmap in Hl. destruct (t !! j) as [e|] eqn:He; [|done]. injection Hl as Hl.
    assert (e ∈ t) as Hin by (by eapply list_elem_of_lookup_2).
    destruct (dictionary_cell_Some s K v f mt sc wh d k t e kv Hsh Hin Hl) as (g & x & Hg & Hkey & Hx & Hn & ->).
    destruct (dictionary_key_user s K v f mt sc wh d k t e g Hsh Hin Hg) as [Hu Hgg].
    exists g, (Z.to_nat (de_slot e)), x. rewrite (seen_dictionary d) by done. apply at_slot_Some in Hkey as [_ Hkey], Hx as [_ Hx].
    split_and!; try done. intros ->. apply (ds_special _ _ _ _ _ Hsh). by eapply list_elem_of_lookup_2.
Qed.

Lemma named_pair_value j kv : nc !! j = Some (Some kv) -> IsNil (kv_value kv) = false /\
  exists key, property_key env false key /\ kv = mkKV (seen key) (f key).
Proof.
  intros (g & o & x & Hu & Hgg & Hsp & Hg & Hx & Hn & ->)%named_pair. split; [done|]. exists (GeneralHeapPointer_As g).
  assert (GeneralHeapPointer_As g <> GetSpecialKeyForMetadataSlot env) as Hne by (intros He; apply Hsp; unfold special; by rewrite <- He, Hgg).
  split; [by split_and!|]. f_equal. destruct (sd_content _ _ _ _ (pa_stored _ _ _ _ _ _ (wh_props _ _ _ _ _ _ _ _ wh)) _ Hu Hne) as [(o' & Ho & Hv)|[Hno _]].
  - rewrite Hgg in Ho. assert (o' = o) as -> by (eapply NoDup_lookup; [apply (wh_bounds env hash s K v f mt sc wh)|done|done]). congruence.
  - rewrite Hgg in Hno. destruct Hno. by eapply list_elem_of_lookup_2.
Qed.

Hypothesis special_user : user_key (GetSpecialKeyForMetadataSlot env).

Lemma named_value_pair key : property_key env false key -> IsNil (f key) = false -> mkKV (seen key) (f key) ∈ pairs_of nc.
Proof.
  intros (Hu & Hsp & _) Hn. destruct (user_key_spec key Hu) as [Hvk Has].
  destruct (sd_content _ _ _ _ (pa_stored _ _ _ _ _ _ (wh_props _ _ _ _ _ _ _ _ wh)) key Hu Hsp) as [(j & Hj & Hv)|[_ He]];
    [|rewrite He in Hn; by vm_compute in Hn].
  apply elem_of_pairs. pose proof named as [(i & sc0 & Hi & _ & Hc & Hnc)|(d & k & t & Hd & Hsh & Hnc)].
  - rewrite (seen_structure i), Hnc by done. rewrite (sv_keys _ _ _ _ _ Hi) in Hj. apply (list_elem_of_lookup_2 _ j).
    rewrite (structure_cell_at SpecialKeyForBoolean v i j _ _ Hj Hv), Has. unfold cell. rewrite Hn.
    destruct (Z.eqb_spec (i_metatable i) (Z.of_nat j + 1)) as [Hm|]; [|done]. exfalso.
    destruct (cl_poly _ _ _ _ _ Hc) as [(? & _)|[_ Hat]]; [lia|]. rewrite Hm, Z.add_simpl_r, at_slot_nat, Hj in Hat.
    injection Hat as Hat. apply Hsp. rewrite <- Has, Hat. unfold special. by apply user_key_spec.
  - rewrite (seen_dictionary d), Hnc by done. destruct (dt_keys _ _ _ _ (ds_table _ _ _ _ _ Hsh) (GeneralHeapPointer key)) as (e & Hin & Hg);
      [by eapply list_elem_of_lookup_2|].
    pose proof (dt_entries _ _ _ _ (ds_table _ _ _ _ _ Hsh) e _ Hin Hg) as Hat.
    assert (de_slot e = Z.of_nat j) as Hslot
      by (eapply (NoDup_at_slot (pv_keys v)); [apply (wh_bounds env hash s K v f mt sc wh)|exact Hat|by rewrite at_slot_nat]).
    apply list_elem_of_fmap. exists e. split; [|done]. unfold dictionary_cell. rewrite Hg, Hslot, at_slot_nat, Hv, Has. simpl.
    unfold cell. by rewrite Hn.
Qed.

(** *** Elements *)

Lemma element_pair j kv : (vc ++ mc) !! j = Some (Some kv) -> IsNil (kv_value kv) = false /\
  exists k, IsNaN k = false /\ kv = mkKV (CreateDouble k) (cont_of (pv_cap v) (pv_vec v) sc k).
Proof.
  intros [Hl|[_ Hl]]%lookup_app_Some.
  - destruct (vector_cell_Some s K v f mt sc wh j kv Hl) as (x & Hx & Hn & -> & Hr). split; [done|].
    destruct (vector_index s K v f mt sc wh _ Hr) as (H53 & H64 & _). eexists. split; [by apply double_of_int_number|].
    f_equal. unfold cont_of. rewrite IsInt64Index_int by done.
    rewrite (proj2 (Z.leb_le 1 _)), (proj2 (Z.leb_le _ (pv_cap v))) by lia. simpl.
    replace (Z.to_nat (Z.of_nat j + 1 - 1)) with j by lia. by rewrite Hx.
  - destruct (sparse_cell_Some s K v f mt sc wh _ kv Hl) as (m & e & _ & _ & _ & Hsc & _ & Hn & Hnil & -> & Hc & Hv). split; [done|].
    exists (m_key e). split; [done|]. f_equal. unfold cont_of, in_vector in *. rewrite Hsc, Hc.
    destruct (IsInt64Index (m_key e)); [|done]. by rewrite Hv.
Qed.

Lemma element_value_pair k : IsNil (cont_of (pv_cap v) (pv_vec v) sc k) = false ->
  exists k', feq k' k /\ mkKV (CreateDouble k') (cont_of (pv_cap v) (pv_vec v) sc k) ∈ pairs_of (vc ++ mc).
Proof.
  intros Hn. unfold cont_of in *. set (x := match IsInt64Index k with Some _ => _ | None => _ end) in *.
  assert ((exists i, IsInt64Index k = Some i /\ 1 <= i <= pv_cap v /\ x = default Nil (pv_vec v !! Z.to_nat (i - 1))) \/ x = sc k) as Hx.
  { unfold x. destruct (IsInt64Index k) as [i|]; [|by right]. destruct (Z.leb_spec 1 i), (Z.leb_spec i (pv_cap v)); simpl; try by right.
    left. exists i. split_and!; done. }
  destruct Hx as [(i & Ei & Hi & Hx)|Hx]; rewrite Hx in *.
  - destruct (pv_vec v !! Z.to_nat (i - 1)) as [y|] eqn:Ey; [|by vm_compute in Hn]. simpl in *.
    exists (double_of_int i). apply IsInt64Index_Some in Ei as (_ & Hf & _). split; [done|].
    rewrite pairs_app. apply elem_of_app. left. apply elem_of_pairs, (list_elem_of_lookup_2 _ (Z.to_nat (i - 1))). unfold vector_cells.
    rewrite list_lookup_imap, Ey. simpl. replace (Z.of_nat (Z.to_nat (i - 1)) + 1) with i by lia. unfold cell. by rewrite Hn.
  - assert (ButterflyHeader.HasSparseMap (pv_len v) = true) as Hh.
    { destruct (wh_shape _ _ _ _ _ _ _ _ wh) as [| | |m _ _ _ Hl]; [by vm_compute in Hn..|]. unfold ButterflyHeader.HasSparseMap. lia. }
    destruct (sparse_of_header env hash s K v f mt sc wh Hh) as (m & _ & Hwf & Hsc & Hmc & _). rewrite Hsc in *. unfold content in *.
    destruct (content_cases (SparseMap.m_hashTable m) k) as [(j & e & He & Hf & Hc)|[_ Hc]]; rewrite Hc in *; [|by vm_compute in Hn].
    exists (m_key e). split; [done|]. rewrite pairs_app. apply elem_of_app. right. apply elem_of_pairs, (list_elem_of_lookup_2 _ j).
    rewrite Hmc, list_lookup_fmap, He. simpl. unfold sparse_cell. rewrite (feq_nan_l _ _ Hf). unfold cell. by rewrite Hn.
Qed.

(** *** No key twice *)

Lemma seen_inj p q : user_key p -> user_key q -> seen p = seen q -> p = q.
Proof.
  intros Hp Hq. unfold seen_key. destruct (structures (st_hc s) !! _); [by apply structure_key_inj|by apply CreatePointer_inj].
Qed.

(** A cell number is the place of one key. *)
Lemma named_keys : exists key_of : nat -> option Z,
  (forall j kv, nc !! j = Some (Some kv) -> exists g, key_of j = Some g /\ user_key (GeneralHeapPointer_As g) /\
     GeneralHeapPointer (GeneralHeapPointer_As g) = g /\ kv_key kv = seen (GeneralHeapPointer_As g)) /\
  (forall i j g, key_of i = Some g -> key_of j = Some g -> i = j).
Proof.
  pose proof named as [(i & sc0 & Hi & _ & Hc & Hnc)|(d & k & t & Hd & Hsh & Hnc)].
  - exists (fun j => i_keys i !! j). split; [|intros ? ? ?; by apply NoDup_lookup, Hc]. intros j kv Hl. rewrite Hnc in Hl.
    destruct (structure_cell_key env hash SpecialKeyForBoolean s K v f mt sc wh i j kv Hi Hl) as (g & x & Hg & _ & _ & _ & ->).
    destruct (structure_key_user s K v f mt sc wh i j g Hi Hg). exists g. by rewrite (seen_structure i).
  - exists (fun j => t !! j ≫= dkey). split.
    + intros j kv Hl. rewrite Hnc, list_lookup_fmap in Hl. destruct (t !! j) as [e|] eqn:He; [|done]. injection Hl as Hl.
      assert (e ∈ t) as Hin by (by eapply list_elem_of_lookup_2).
      destruct (dictionary_cell_Some s K v f mt sc wh d k t e kv Hsh Hin Hl) as (g & x & Hg & _ & _ & _ & ->).
      destruct (dictionary_key_user s K v f mt sc wh d k t e g Hsh Hin Hg). exists g. by rewrite (seen_dictionary d).
    + intros i j g Hi Hj. destruct (t !! i) as [e|] eqn:Ei, (t !! j) as [e'|] eqn:Ej; try done.
      by eapply (po_distinct _ _ _ _ _ (dt_probing _ _ _ _ (ds_table _ _ _ _ _ Hsh))).
Qed.

Lemma named_once : ForallOrdPairs (fun a b => ~ same_key a b) (pairs_of nc).
Proof.
  destruct named_keys as (key_of & Hkey & Hinj). apply once_pairs. intros i j a b Hi Hj Hs.
  destruct (Hkey i a Hi) as (g & Hg & Hu & Hgg & Ha), (Hkey j b Hj) as (g' & Hg' & Hu' & Hgg' & Hb).
  destruct Hs as [He|Hf]; [|rewrite Ha in Hf; apply feq_nan_l in Hf; by rewrite seen_is_NaN in Hf].
  rewrite Ha, Hb in He. apply seen_inj in He; [|done..]. eapply Hinj; [exact Hg|]. congruence.
Qed.

Lemma vector_once : ForallOrdPairs (fun a b => ~ same_key a b) (pairs_of vc).
Proof.
  apply once_pairs. intros i j a b Hi Hj Hs.
  destruct (vector_cell_Some s K v f mt sc wh i a Hi) as (x & _ & _ & -> & Hr), (vector_cell_Some s K v f mt sc wh j b Hj) as (x' & _ & _ & -> & Hr').
  destruct (vector_index s K v f mt sc wh _ Hr) as (H53 & H64 & _), (vector_index s K v f mt sc wh _ Hr') as (H53' & _).
  assert (Z.of_nat i + 1 = Z.of_nat j + 1); [|lia]. apply double_of_int_feq_inj; [done|done|].
  destruct Hs as [He|Hf]; [|exact Hf]. simpl in He. unfold CreateDouble in He. rewrite <- He. by apply feq_refl, double_of_int_number.
Qed.

Lemma same_number x y a b : IsNaN x = false -> same_key (mkKV x a) (mkKV y b) -> feq x y.
Proof. intros Hn [He|Hf]; [|exact Hf]. simpl in He. rewrite <- He. by apply feq_refl. Qed.

Lemma elements_once : ForallOrdPairs (fun a b => ~ same_key a b) (pairs_of (vc ++ mc)).
Proof.
  rewrite pairs_app. apply ForallOrdPairs_app; [apply vector_once|apply once_pairs; intros i j a b Hi Hj Hs|].
  - destruct (sparse_cell_Some s K v f mt sc wh i a Hi) as (m & e & _ & Hm & Hwf & _ & He & Hn & _ & -> & _).
    destruct (sparse_cell_Some s K v f mt sc wh j b Hj) as (m' & e' & _ & Hm' & _ & _ & He' & Hn' & _ & -> & _).
    assert (m' = m) as -> by congruence. destruct Hwf as (k & _ & _ & (_ & _ & _ & Hd) & _).
    eapply Hd; [exact He|exact He'|exact (same_number _ _ _ _ Hn Hs)].
  - intros a b [i Hi]%elem_of_pairs%list_elem_of_lookup_1 [j Hj]%elem_of_pairs%list_elem_of_lookup_1 Hs.
    destruct (vector_cell_Some s K v f mt sc wh i a Hi) as (x & _ & _ & -> & Hr).
    destruct (sparse_cell_Some s K v f mt sc wh j b Hj) as (m & e & _ & _ & _ & _ & _ & _ & _ & -> & _ & Hv).
    destruct (vector_index s K v f mt sc wh _ Hr) as (H53 & H64 & _). destruct (double_of_int_number _ H64) as (_ & Hn & _).
    pose proof (same_number _ _ _ _ Hn Hs : feq _ (m_key e)) as Hf.
    unfold in_vector in Hv. rewrite <- (IsInt64Index_proper _ _ Hf), IsInt64Index_int in Hv by done. lia.
Qed.

(** The pairs of the cells list the table. *)
Lemma all_pairs_spec g : (forall k, cont_of (pv_cap v) (pv_vec v) sc k = g k) -> lists_table s (mkMeaning f mt g) (all_pairs s v nc).
Proof.
  intros Hg. unfold all_pairs. rewrite <- pairs_app. split; simpl.
  - intros kv [Hin|Hin]%elem_of_app; apply elem_of_pairs, list_elem_of_lookup_1 in Hin as [j Hj].
    + destruct (named_pair_value j kv Hj) as [Hn Hk]. split; [done|by left].
    + destruct (element_pair j kv Hj) as (Hn & k & Hk & ->). split; [done|right]. exists k. by rewrite Hg.
  - intros key Hk Hn. apply elem_of_app. left. by apply named_value_pair.
  - intros k Hn. rewrite <- Hg in *. destruct (element_value_pair k Hn) as (k' & Hf & Hin). exists k'. split; [done|]. apply elem_of_app. by right.
  - apply ForallOrdPairs_app; [apply named_once|apply elements_once|].
    intros a b [i Hi]%elem_of_pairs%list_elem_of_lookup_1 [j Hj]%elem_of_pairs%list_elem_of_lookup_1 Hs.
    destruct (named_pair i a Hi) as (h & _ & x & Hu & _ & _ & _ & _ & _ & ->). destruct (element_pair j b Hj) as (_ & k & Hk & ->).
    pose proof (seen_is_NaN _ Hu) as Hnan. destruct Hs as [He|Hf]; simpl in *; [rewrite He in Hnan; unfold CreateDouble in Hnan; congruence|].
    apply feq_nan_l in Hf. congruence.
Qed.
End meaning.
End next.
