(* ===== verification/TableTraverse.v ===== *)
(** * Traversing a table while assigning to its fields

    A program may assign to an existing field, nil included, while it traverses a
    table.  The pairs after a place are those of the table before the assignment,
    with the new value. *)

From S2P Require Import Prelude Double TValue MiscMath Machine TypeMask ArrayType Butterfly SparseMap HiddenClass TableObject TableArray Probing CheckedTable ClassHeap Structure Transition ClassInv ClassLookup ClassFrame ClassCreate ClassTransition ClassQuery ClassOps ClassView Dictionary TableClasses NamedProps NamedInv NamedPut NamedTransition NamedAssign TableWhole TableHistory TableIterator TableCells TableIteration.

(** What the assignment of [x] to [key] makes of a pair. *)
Definition assigned (key x : Z) (p : KeyValuePair) : Cell := if kv_key p =? key then cell key x else Some p.
Definition assign (key x : Z) (L : list KeyValuePair) : list KeyValuePair := omap (assigned key x) L.

Lemma pairs_of_assigned key x l : pairs_of ((fun c => c ≫= assigned key x) <$> l) = assign key x (pairs_of l).
Proof.
  unfold pairs_of, assign in *. induction l as [|[p|] l IH]; [done| |exact IH]. simpl.
  destruct (assigned key x p); simpl; [by f_equal|done].
Qed.

Lemma assign_other key x l : (forall p, p ∈ l -> kv_key p <> key) -> assign key x l = l.
Proof.
  intros Hl. induction l as [|p l IH]; [done|]. change (assign key x (p :: l)) with
    (match assigned key x p with Some q => q :: assign key x l | None => assign key x l end). unfold assigned.
  destruct (Z.eqb_spec (kv_key p) key) as [He|_]; [by destruct (Hl p); [left|]|]. f_equal. apply IH. intros q Hq. apply Hl. by right.
Qed.

Lemma split_pairs l L1 kv L2 : pairs_of l = L1 ++ kv :: L2 -> exists j, l !! j = Some (Some kv) /\ pairs_of (drop (S j) l) = L2.
Proof.
  revert L1. induction l as [|[p|] l IH]; intros L1 E; [by destruct L1| |].
  - destruct L1 as [|q L1]; injection E as -> E; [by exists O|]. destruct (IH L1 E) as (j & Hj & Hd). by exists (S j).
  - destruct (IH L1 E) as (j & Hj & Hd). by exists (S j).
Qed.

Section traverse.
Variable env : Env.
Variable hash : Z -> Z.
Variable SpecialKeyForBoolean : bool -> Z.
Notation St := (TableObject.St SysHeap).
Hypothesis boolean_user : forall b, user_key (SpecialKeyForBoolean b).
Hypothesis boolean_distinct : SpecialKeyForBoolean false <> SpecialKeyForBoolean true.
Hypothesis special_user : user_key (GetSpecialKeyForMetadataSlot env).

Variables (s : St) (K : Classes) (v : PV) (f : Z -> Z) (mt : Z) (sc : Z -> Z).
Hypothesis wh : whole_at env hash K s v f mt sc.
Variable nc : list Cell.
Hypothesis named : named_as env SpecialKeyForBoolean s K v mt nc.
Notation vc := (vector_cells (pv_vec v)).
Notation mc := (sparse_map_cells (st_sparse s) (pv_len v)).
Notation seen := (seen_key SpecialKeyForBoolean (st_hc s) (m_hiddenClass (st_table s))).

(** The place of a pair. *)
Lemma place_of_pair L1 kv L2 : all_pairs s v nc = L1 ++ kv :: L2 ->
  exists it, cell_at s v nc it = Some (Some kv) /\ pairs_after s v nc it = L2.
Proof.
  intros HL. assert (pairs_of (nc ++ vc ++ mc) = L1 ++ kv :: L2) as Hp by (by rewrite !pairs_app).
  destruct (split_pairs _ _ _ _ Hp) as (j & Hj & Hd).
  apply lookup_app_Some in Hj as [Hj|[Hn Hj]]; [|apply lookup_app_Some in Hj as [Hj|[Hv Hj]]].
  - exists (mkTableIterator (Z.of_nat j) NamedProperty). unfold cell_at, pairs_after. simpl. rewrite at_slot_nat, Nat2Z.id.
    split; [done|]. rewrite <- Hd, skipn_app, pairs_app. pose proof (lookup_lt_Some _ _ _ Hj).
    replace (S j - length nc)%nat with O by lia. by rewrite drop_0, pairs_app.
  - pose proof (lookup_lt_Some _ _ _ Hj). exists (mkTableIterator (Z.of_nat (j - length nc) + 1) VectorStorage).
    unfold cell_at, pairs_after. simpl. rewrite Z.add_simpl_r, at_slot_nat. split; [done|].
    rewrite <- Hd, skipn_app, pairs_app, (pairs_drop_end nc) by lia. rewrite skipn_app, pairs_app. simpl.
    replace (S j - length nc - length vc)%nat with O by lia. rewrite drop_0. do 3 f_equal. lia.
  - pose proof (lookup_lt_Some _ _ _ Hj). exists (mkTableIterator (Z.of_nat (j - length nc - length vc)) SparseMapStorage).
    unfold cell_at, pairs_after. simpl. rewrite at_slot_nat, Nat2Z.id. split; [done|].
    rewrite <- Hd, skipn_app, pairs_app, (pairs_drop_end nc) by lia. rewrite skipn_app, pairs_app, (pairs_drop_end vc) by lia. simpl.
    do 2 f_equal. lia.
Qed.

(** ** After an assignment *)

Variables (key x slot : Z) (s' : St).
Hypothesis key_user : user_key key.
Hypothesis key_not_special : key <> GetSpecialKeyForMetadataSlot env.
Hypothesis has_value : IsNil (f key) = false.
Hypothesis at_key : at_slot (pv_keys v) slot = Some (GeneralHeapPointer key).
Hypothesis over : overwrites env K s v f mt key slot x s'.
Hypothesis kept : m_butterfly (st_table s') = None -> m_butterfly (st_table s) = None.

Let v' : PV := with_keys v (pv_keys v) (pv_butterfly v) (<[Z.to_nat slot := x]> (pv_values v)).
Let nc' : list Cell := (fun c => c ≫= assigned (seen key) x) <$> nc.

Lemma assigned_whole : whole_at env hash K s' v' (write f key x) mt sc.
Proof.
  destruct over, wh. split; rewrite ?ow_heap, ?ow_sparse, ?ow_type; simpl; try done. intros Hn. by apply wh_null, kept.
Qed.

Lemma assigned_structure i : structure_view K (st_table s) v mt i -> structure_view K (st_table s') v' mt i.
Proof.
  intros Hi. destruct (pa_class _ _ _ _ _ _ (ow_props _ _ _ _ _ _ _ _ _ _ over)) as [[i' Hi']|[d Hd]].
  - assert (i' = i) as ->; [|done]. destruct Hi, Hi'. rewrite (ow_class _ _ _ _ _ _ _ _ _ _ over) in *. congruence.
  - exfalso. destruct Hi, Hd. rewrite (ow_class _ _ _ _ _ _ _ _ _ _ over), (ow_hc _ _ _ _ _ _ _ _ _ _ over) in *.
    destruct (dictionary_type env K _ _ d (wh_inv env hash s K v f mt sc wh) dv_info) as [Hns _].
    destruct (inv_structure env _ K (wh_inv env hash s K v f mt sc wh) _ i sv_info) as (? & ? & _). congruence.
Qed.

Lemma assigned_dictionary d : dictionary_view env (st_hc s) (st_table s) v mt d -> dictionary_view env (st_hc s') (st_table s') v' mt d.
Proof.
  intros Hd. destruct (pa_class _ _ _ _ _ _ (ow_props _ _ _ _ _ _ _ _ _ _ over)) as [[i Hi]|[d' Hd']].
  - exfalso. destruct Hi, Hd. rewrite (ow_class _ _ _ _ _ _ _ _ _ _ over) in *.
    destruct (dictionary_type env K _ _ d (wh_inv env hash s K v f mt sc wh) dv_info) as [Hns _].
    destruct (inv_structure env _ K (wh_inv env hash s K v f mt sc wh) _ i sv_info) as (? & ? & _). congruence.
  - assert (d' = d) as ->; [|done]. destruct Hd, Hd'. rewrite (ow_class _ _ _ _ _ _ _ _ _ _ over), (ow_hc _ _ _ _ _ _ _ _ _ _ over) in *. congruence.
Qed.

(** The value of the slot number [j] of the key [g] before and after. *)
Lemma assigned_cell j g y k : pv_keys v !! j = Some g -> pv_values v !! j = Some y -> user_key (GeneralHeapPointer_As g) ->
  GeneralHeapPointer (GeneralHeapPointer_As g) = g -> k = seen (GeneralHeapPointer_As g) ->
  cell k (default Nil (<[Z.to_nat slot := x]> (pv_values v) !! j)) = cell k y ≫= assigned (seen key) x.
Proof.
  intros Hg Hy Hu Hgg ->. destruct (at_slot_Some _ _ _ at_key) as [Hr Hk]. pose proof (wh_bounds env hash s K v f mt sc wh) as [Hnd _ _ _ _].
  destruct (decide (Z.to_nat slot = j)) as [<-|Hne].
  - rewrite Hk in Hg. injection Hg as <-. rewrite (proj2 (user_key_spec key key_user)).
    rewrite list_lookup_insert_eq by (by eapply lookup_lt_Some). simpl.
    pose proof (sd_content _ _ _ _ (pa_stored _ _ _ _ _ _ (wh_props _ _ _ _ _ _ _ _ wh)) key key_user key_not_special) as Hc.
    apply (value_of_found _ _ _ _ slot Hnd at_key) in Hc. apply at_slot_Some in Hc as [_ Hc].
    assert (y = f key) as -> by congruence. unfold cell at 2. rewrite has_value. simpl. unfold assigned. simpl. by rewrite Z.eqb_refl.
  - rewrite list_lookup_insert_ne, Hy by done. simpl. unfold cell at 2. destruct (IsNil y) eqn:Ey; unfold cell at 1; rewrite Ey; [done|].
    simpl. unfold assigned. simpl. destruct (Z.eqb_spec (seen (GeneralHeapPointer_As g)) (seen key)) as [He|]; [|done].
    apply seen_inj in He; [|done..]. destruct Hne. eapply NoDup_lookup; [exact Hnd|exact Hk|]. by rewrite <- He, Hgg.
Qed.

Lemma assigned_structure_cells i : structure_view K (st_table s) v mt i -> nc = structure_cells SpecialKeyForBoolean i (pv_values v) ->
  nc' = structure_cells SpecialKeyForBoolean i (pv_values v').
Proof.
  intros Hi Hnc. apply list_eq. intros j. unfold nc'. rewrite Hnc, list_lookup_fmap. unfold structure_cells. rewrite !list_lookup_imap.
  destruct (i_keys i !! j) as [g|] eqn:Hg; [|done]. simpl. f_equal. destruct (i_metatable i =? Z.of_nat j + 1); [done|].
  destruct (structure_key_user env hash s K v f mt sc wh i j g Hi Hg) as [Hu Hgg]. rewrite <- (sv_keys _ _ _ _ _ Hi) in Hg.
  destruct (wh_value env hash s K v f mt sc wh j) as [y Hy]; [by eapply lookup_lt_Some|]. rewrite Hy. symmetry.
  eapply assigned_cell; try done. by rewrite (seen_structure env hash SpecialKeyForBoolean s K v f mt sc wh i).
Qed.

Lemma assigned_dictionary_cells d k t : dictionary_view env (st_hc s) (st_table s) v mt d -> dict_shape env d (pv_keys v) k t ->
  nc = dictionary_cell (pv_values v) <$> t -> nc' = dictionary_cell (pv_values v') <$> t.
Proof.
  intros Hd Hsh Hnc. unfold nc'. rewrite Hnc, <- list_fmap_compose. apply list_fmap_ext. intros j e He. simpl.
  assert (e ∈ t) as Hin by (by eapply list_elem_of_lookup_2). unfold dictionary_cell. destruct (dkey e) as [g|] eqn:Eg; [|done].
  destruct (dictionary_key_user env hash s K v f mt sc wh d k t e g Hsh Hin Eg) as [Hu Hgg].
  destruct (dictionary_value env hash s K v f mt sc wh d k t Hsh e g Hin Eg) as (o & y & Ho & Hg & Hy).
  rewrite Ho, !at_slot_nat, Hy. symmetry. eapply assigned_cell; try done. by rewrite (seen_dictionary env hash SpecialKeyForBoolean s K v f mt sc wh d).
Qed.

Lemma assigned_named : named_as env SpecialKeyForBoolean s' K v' mt nc'.
Proof.
  pose proof named as [(i & sc0 & Hi & Hs & Hc & Hnc)|(d & k & t & Hd & Hsh & Hnc)].
  - left. exists i, sc0. rewrite (ow_hc _ _ _ _ _ _ _ _ _ _ over), (ow_class _ _ _ _ _ _ _ _ _ _ over).
    split_and!; [by apply assigned_structure|done|done|by apply assigned_structure_cells].
  - right. exists d, k, t. split_and!; [by apply assigned_dictionary|done|by eapply assigned_dictionary_cells].
Qed.

(** A key keeps its place. *)
Lemma assigned_place it k : key_place env SpecialKeyForBoolean s K v mt nc it k -> key_place env SpecialKeyForBoolean s' K v' mt nc' it k.
Proof.
  intros [i j g Hi Hnc Hg Hp|d n t j e g Hd Hsh Hnc Hj Hg|i Hi|m j e Hh Hm Hj Hn Hv].
  - eapply place_slot; [by apply assigned_structure|by apply assigned_structure_cells|done|done].
  - eapply place_entry; [by apply assigned_dictionary|done|by eapply assigned_dictionary_cells|done|done].
  - by apply place_vector.
  - eapply place_sparse; try done. by rewrite (ow_sparse _ _ _ _ _ _ _ _ _ _ over).
Qed.

Lemma element_not_seen p : p ∈ pairs_of (vc ++ mc) -> kv_key p <> seen key.
Proof.
  intros [j Hj]%elem_of_pairs%list_elem_of_lookup_1 He.
  destruct (element_pair env hash s K v f mt sc wh j p Hj) as (_ & k & Hk & ->).
  simpl in He. unfold CreateDouble in He. rewrite He, seen_is_NaN in Hk; done.
Qed.

Lemma pairs_after_assign it : pairs_after s' v' nc' it = assign (seen key) x (pairs_after s v nc it).
Proof.
  unfold pairs_after, all_pairs. rewrite (ow_sparse _ _ _ _ _ _ _ _ _ _ over). change (pv_vec v') with (pv_vec v). change (pv_len v') with (pv_len v).
  assert (forall n (l : list Cell) p, p ∈ pairs_of (drop n l) -> p ∈ pairs_of l) as Hdrop.
  { intros n l p [j Hj]%elem_of_pairs%list_elem_of_lookup_1. rewrite lookup_drop in Hj. apply elem_of_pairs. by eapply list_elem_of_lookup_2. }
  assert (forall n, assign (seen key) x (pairs_of (drop n vc)) = pairs_of (drop n vc)) as Hv.
  { intros n. apply assign_other. intros p Hp%Hdrop. apply element_not_seen. rewrite pairs_app. apply elem_of_app. by left. }
  assert (forall n, assign (seen key) x (pairs_of (drop n mc)) = pairs_of (drop n mc)) as Hm.
  { intros n. apply assign_other. intros p Hp%Hdrop. apply element_not_seen. rewrite pairs_app. apply elem_of_app. by right. }
  assert (forall l a, assign (seen key) x (pairs_of l ++ a) = assign (seen key) x (pairs_of l) ++ assign (seen key) x a) as Happ
    by (intros; apply omap_app).
  pose proof (Hv O) as Hv0. pose proof (Hm O) as Hm0. rewrite !drop_0 in Hv0, Hm0. unfold nc'. destruct (m_state it).
  - by rewrite !Happ, pairs_of_assigned, Hv0, Hm0.
  - by rewrite <- fmap_drop, pairs_of_assigned, !Happ, Hv0, Hm0.
  - by rewrite !Happ, Hv, Hm0.
  - by rewrite Hm.
  - done.
Qed.
End traverse.
