(* ===== verification/TableCreate.v ===== *)
(** * Creating and cloning tables ([class TableObject], [runtime/table_object.h])

    [CreateEmptyTableObject] for a structure, the global object, whose hidden class
    is a dictionary from the start, and the two shallow clones.  A new object is
    returned with its address; the state stays focused on the old one, and
    [focus] moves it. *)

From S2P Require Import Prelude Double TValue MiscMath Machine TypeMask ArrayType Butterfly SparseMap HiddenClass TableObject TableArray TableTheorems Probing CheckedTable ClassHeap Structure Transition ClassInv ClassLookup ClassFrame ClassCreate ClassTransition ClassQuery ClassOps ClassView Dictionary TableClasses NamedProps NamedInv NamedPut NamedTransition NamedMeta TableWhole TableHistory DictionaryTheorems.

(** The state that sees the table [t] of the same heaps. *)
Definition focus {Hc} (s : TableObject.St Hc) (t : TableObject) : TableObject.St Hc :=
  mkSt t (st_hc s) (st_heap s) (st_sparse s).

(** [internal::x_inlineStorageSizeForSteppingArray] is a parameter of the clone for
    table-dup bytecodes; [None]: the index is out of range. *)
Section definitions.
Variable env : Env.
#[local] Instance create_ops : HiddenClassOps SysHeap := sys_ops env.
Notation St := (TableObject.St SysHeap).

(** [AllocFromUserHeap] on the user heap of the state. *)
Definition alloc_user (length : Z) : MT Z := fun s =>
  match AllocFromUserHeap length (st_heap s) with
  | Ok (r, heap) => Ok (r, mkSt (st_table s) (st_hc s) heap (st_sparse s))
  | VMFail => VMFail
  | UB => UB
  end.

Definition CreateEmptyTableObject (h : SysHeap) (heap : UserHeap) (sparse : gmap Z ArraySparseMap)
    (emptyStructure initialButterflyArrayPartCapacity : Z) : Res (Z * St) :=
  match structures h !! emptyStructure with
  | Some s => CreateEmptyTableObjectImpl h heap sparse emptyStructure (s_inlineNamedStorageCapacity s) initialButterflyArrayPartCapacity
  | None => UB
  end.

Definition CreateEmptyGlobalObject (h : SysHeap) (heap : UserHeap) (sparse : gmap Z ArraySparseMap) : Res (Z * St) :=
  let inlineCapacity := x_maxNumSlots in
  match CreateEmptyDictionary 128 inlineCapacity true h with
  | Ok (hc, h) =>
      match AllocFromUserHeap (ComputeObjectAllocationSize inlineCapacity) heap with
      | Ok (r, heap) => Ok (r, mkSt (mkTable hc GetInitialArrayType None (replicate (Z.to_nat inlineCapacity) Nil)) h heap sparse)
      | VMFail => VMFail
      | UB => UB
      end
  | VMFail => VMFail
  | UB => UB
  end.

(** [memcpy] of the inline storage. *)
Definition copy_inline (storage : list Z) (inlineCapacity : Z) : option (list Z) :=
  if inlineCapacity <=? Z.of_nat (length storage) then Some (take (Z.to_nat inlineCapacity) storage) else None.

(** The hidden class of the clone, with its two capacities: a structure is shared,
    a dictionary is cloned. *)
Definition clone_hidden_class : MT (Z * Z * Z) :=
  t ← get_table;
  ty ← on_heap (query (fun h => hidden_class_type h (m_hiddenClass t)));
  match ty with
  | HcStructure =>
      structure ← on_heap (load_structure (m_hiddenClass t));
      mret (m_hiddenClass t, s_inlineNamedStorageCapacity structure, s_butterflyNamedStorageCapacity structure)
  | HcCacheableDictionary =>
      cd ← on_heap (load_dictionary (m_hiddenClass t));
      cloneCd ← on_heap (Dictionary.Clone (m_hiddenClass t));
      mret (cloneCd, d_inlineNamedStorageCapacity cd, d_butterflyNamedStorageCapacity cd)
  end.

Definition ShallowCloneTableObject : MT (Z * TableObject) :=
  '(newHiddenClass, inlineCapacity, butterflyNamedStorageCapacity) ← clone_hidden_class;
  t ← get_table;
  r ← alloc_user (ComputeObjectAllocationSize inlineCapacity);
  storage ← access (copy_inline (m_inlineStorage t) inlineCapacity);
  butterfly ← match m_butterfly t with
              | None => mret None
              | Some _ => b ← CloneButterfly butterflyNamedStorageCapacity; mret (Some b)
              end;
  mret (r, mkTable newHiddenClass (m_arrayType t) butterfly storage).

(** The clone of the butterfly when there are neither outlined properties nor a sparse map. *)
Definition CloneButterflyForTableDup : MT Butterfly := on_butterfly (fun b => CloneWords b 0).

Definition ShallowCloneTableObjectForTableDup (inlineCapacity : Z) (hasButterfly : bool) : MT (Z * TableObject) :=
  t ← get_table;
  r ← alloc_user (ComputeObjectAllocationSize inlineCapacity);
  storage ← access (copy_inline (m_inlineStorage t) inlineCapacity);
  butterfly ← (if hasButterfly then b ← CloneButterflyForTableDup; mret (Some b) else mret (m_butterfly t));
  mret (r, mkTable (m_hiddenClass t) (m_arrayType t) butterfly storage).
End definitions.

(** ** The global object *)

Section global.
Variable env : Env.
Variable hash : Z -> Z.
Hypothesis special_user : user_key (GetSpecialKeyForMetadataSlot env).

(** The global object is an empty table; its hidden class is a new dictionary. *)
Lemma created_global K h heap sparse : classes_inv env h K -> world_ok h heap sparse ->
  (exists r s d, CreateEmptyGlobalObject h heap sparse = Ok (r, s) /\ means env hash s empty_meaning /\
     (exists limit, st_hc s = dictionary_heap h limit d) /\ m_hiddenClass (st_table s) = m_systemHeapCurPtr h /\
     m_arrayType (st_table s) = GetInitialArrayType /\ st_sparse s = sparse /\
     m_userHeapCurPtr (st_heap s) = r /\ r < m_userHeapCurPtr heap) \/
  (CreateEmptyGlobalObject h heap sparse = VMFail /\
     (low h sizeof_CacheableDictionary \/ heap_exhausted (ComputeObjectAllocationSize x_maxNumSlots) heap)).
Proof.
  intros Hci [Hheap Hsp]. unfold CreateEmptyGlobalObject.
  eassert (wp (CreateEmptyDictionary 128 x_maxNumSlots true) h (fun p h' => p = m_systemHeapCurPtr h /\ exists limit k,
    7 <= k <= 29 /\ sys_ok (alloc_heap h limit sizeof_CacheableDictionary) /\
    h' = dictionary_heap h limit (emptyDictionary true x_maxNumSlots k)) _) as Hw.
  { apply CreateEmptyDictionary_spec; [apply Hci|pow2; lia|]. intros limit k Hk _ Hs. split; [done|]. by exists limit, k. }
  destruct (wp_cases _ _ _ _ Hw) as [(p & h' & -> & -> & limit & k & Hk & Hs & ->)|[-> Hlow]]; [|right; by auto].
  assert (ComputeObjectAllocationSize x_maxNumSlots = 2040) as -> by done.
  destruct (AllocFromUserHeap_spec 2040 heap Hheap) as [(r & heap' & -> & Hh' & Hr' & Hcur)|[-> Hex]]; [lia|done| |right; by auto].
  left. set (d := emptyDictionary true x_maxNumSlots k). set (p := m_systemHeapCurPtr h).
  assert (exists vs, vs = replicate (Z.to_nat x_maxNumSlots) Nil /\ length vs = 253%nat) as (vs & Evs & Hlen) by (eexists; split; [done|done]).
  rewrite <- Evs.
  eexists _, _, d. split; [done|]. split; [|simpl; split_and!; [by exists limit|done..|lia]].
  exists K, (mkPV [] x_maxNumSlots 0 vs 0 0 []), (fun _ => Nil).
  split; [|intros k0; unfold cont_of; simpl].
  - split; simpl; try done.
    + split; [by apply transit_heap|right; exists d; split; simpl; try done|].
      * apply lookup_insert_eq.
      * apply dict_ok_empty; [lia|unfold x_maxNumSlots; lia].
      * split; simpl.
        -- exists []. split_and!; simpl; [by left|by rewrite Hlen|done|by rewrite app_nil_r].
        -- intros j x _ Hx. rewrite Evs in Hx. by apply lookup_replicate_1 in Hx as [-> _].
        -- intros key _ _. right. split; [apply not_elem_of_nil|done].
    + intros q m Hm. destruct (Hsp q m Hm). split; [lia|done].
    + apply sh_none; [apply initial_no_array|done|by apply Forall_nil|done].
  - destruct (IsInt64Index k0); [by destruct (_ && _)|done].
Qed.

Lemma created_global_means h heap sparse : reachable env h -> world_ok h heap sparse ->
  (exists r s, CreateEmptyGlobalObject h heap sparse = Ok (r, s) /\ means env hash s empty_meaning) \/
  CreateEmptyGlobalObject h heap sparse = VMFail.
Proof.
  intros Hr Hw. destruct (reachable_inv env special_user h Hr) as (K & Hci & _).
  destruct (created_global K h heap sparse Hci Hw) as [(r & s & d & E & Hm & _)|[E _]]; [left|by right]. by exists r, s.
Qed.
End global.
