(* ===== verification/TableClone.v ===== *)
(** * Clones of tables

    [ShallowCloneTableObject] and its variant for table-dup bytecodes make a table
    with the same named properties, metatable and elements, and leave all that was
    there alone. *)

From S2P Require Import Prelude Double TValue MiscMath Machine TypeMask ArrayType Butterfly SparseMap HiddenClass TableObject TableArray TableTheorems Probing CheckedTable ClassHeap Structure Transition ClassInv ClassLookup ClassFrame ClassCreate ClassTransition ClassQuery ClassOps ClassView Dictionary TableClasses NamedProps NamedInv NamedPut NamedTransition NamedMeta TableWhole TableHistory DictionaryTheorems TableCreate.

Section clone.
Variable env : Env.
Variable hash : Z -> Z.
#[local] Instance clone_ops : HiddenClassOps SysHeap := sys_ops env.
Notation St := (TableObject.St SysHeap).
Implicit Types (s : St) (t : TableObject).
Notation whole_at := (whole_at env hash).

(** The heaps of [s'] have everything that those of [s] have. *)
Record extended s s' : Prop := {
  ex_describe : forall q v, describe (st_hc s) q = Some v -> describe (st_hc s') q = Some v;
  ex_dicts : forall q d, dictionaries (st_hc s) !! q = Some d -> dictionaries (st_hc s') !! q = Some d;
  ex_sparse : forall p m, st_sparse s !! p = Some m -> st_sparse s' !! p = Some m;
  ex_cur : m_userHeapCurPtr (st_heap s') <= m_userHeapCurPtr (st_heap s)
}.

(** A new class: a shared structure or a new dictionary. *)
Definition own_class (h0 h : SysHeap) (c : Z) : Prop := dictionaries h !! c = None \/ m_systemHeapCurPtr h0 <= c.

(** ** The hidden class *)

Lemma whole_world K s v f mt sc : whole_at K s v f mt sc -> world_ok (st_hc s) (st_heap s) (st_sparse s).
Proof. by intros [_ ? ? _ _]. Qed.

(** Everything the rest of a clone needs to know. *)
Record class_cloned (K : Classes) s (v : PV) (mt : Z) (c : Z) (h : SysHeap) : Prop := {
  cc_inv : classes_inv env h K;
  cc_describe : forall q w, describe (st_hc s) q = Some w -> describe h q = Some w;
  cc_dicts : forall q d, dictionaries (st_hc s) !! q = Some d -> dictionaries h !! q = Some d;
  cc_view : forall bf inl heap sparse len cap vec,
    class_view env K (mkSt (mkTable c (m_arrayType (st_table s)) bf inl) h heap sparse)
      (mkPV (pv_keys v) (pv_inline v) (pv_butterfly v) (pv_values v) len cap vec) mt;
  cc_own : own_class (st_hc s) h c
}.

Lemma Dictionary_Clone_spec h p d ks (Q : Z -> SysHeap -> Prop) : sys_ok h -> dictionaries h !! p = Some d -> dict_ok env d ks ->
  (forall limit, sys_ok (alloc_heap h limit sizeof_CacheableDictionary) -> Q (m_systemHeapCurPtr h) (dictionary_heap h limit d)) ->
  wp (Dictionary.Clone p) h Q (low h sizeof_CacheableDictionary).
Proof.
  intros Hsys Hd [(k & t & [] & _) _] HQ. unfold Dictionary.Clone. apply wp_bind.
  apply AllocFromSystemHeap_spec; [done|unfold sizeof_CacheableDictionary; pow2; lia|done|]. intros limit Hs.
  apply wp_bind. eapply wp_load_dictionary; [exact Hd|]. apply wp_bind. eapply wp_access; [exact ds_hashTable|].
  pose proof (pow_bounds k ltac:(lia)) as Hp.
  apply wp_bind. eapply (wp_access _ t).
  { unfold entries. rewrite ds_mask. replace (2 ^ k - 1 + 1) with (2 ^ k) by lia.
    rewrite wrapu_small by (unfold in_u; pow2; lia). rewrite (po_length _ _ _ _ _ (dt_probing _ _ _ _ ds_table)), Z2Nat.id, Z.leb_refl by lia.
    by rewrite take_ge by by rewrite (po_length _ _ _ _ _ (dt_probing _ _ _ _ ds_table)). }
  apply wp_bind, wp_store_dictionary, wp_ret.
  assert (d_set_table d (d_hashTableMask d) (d_slotCount d) (Some t) = d) as -> by (destruct d; unfold d_set_table; simpl in *; by subst).
  by apply HQ.
Qed.

Lemma clone_hidden_class_spec K s v f mt sc : whole_at K s v f mt sc ->
  wp clone_hidden_class s (fun r s1 => exists c h, r = (c, pv_inline v, pv_butterfly v) /\ s1 = with_heap s h /\ class_cloned K s v mt c h)
    (low (st_hc s) sizeof_CacheableDictionary).
Proof.
  intros [[Hci Hcl _] _ _ _ _]. pose proof (ci_heap _ _ _ Hci) as Hinv. unfold clone_hidden_class. apply wp_bind, wp_get_table. apply wp_bind, wp_on_heap.
  destruct Hcl as [[i Hi]|[d Hd]].
  - pose proof Hi as []. destruct (structure_type env K s i Hinv sv_info) as (sc0 & Hs & Hc & Hty).
    eapply wp_query; [exact Hty|]. rewrite with_heap_same. apply wp_bind, wp_on_heap. eapply wp_load_structure; [exact Hs|].
    rewrite with_heap_same. apply wp_ret. exists (m_hiddenClass (st_table s)), (st_hc s). rewrite with_heap_same.
    rewrite (cl_inline _ _ _ _ _ Hc), (cl_butterfly _ _ _ _ _ Hc), <- sv_inline, <- sv_butterfly.
    split_and!; [done|done|]. split; try done.
    + intros. left. exists i. by split.
    + left. destruct (dictionaries (st_hc s) !! m_hiddenClass (st_table s)) eqn:E; [|done].
      rewrite (hi_disjoint _ _ _ Hinv) in sv_info; [done|by eexists].
  - pose proof Hd as []. destruct (dictionary_type env K _ _ d Hinv dv_info) as [_ Hty].
    eapply wp_query; [exact Hty|]. rewrite with_heap_same. apply wp_bind, wp_on_heap. eapply wp_load_dictionary; [exact dv_info|].
    rewrite with_heap_same. apply wp_bind, wp_on_heap. eapply Dictionary_Clone_spec; [apply Hinv|exact dv_info|exact dv_ok|].
    intros limit Hsys. apply wp_ret. rewrite <- dv_inline, <- dv_butterfly. eexists _, _. split_and!; [done|done|].
    assert (forall q, is_Some (dictionaries (st_hc s) !! q) -> q <> m_systemHeapCurPtr (st_hc s)) as Hfresh.
    { intros q [x Hx] ->. rewrite (fresh_dictionary env (st_hc s) K) in Hx; [done|done|lia]. }
    split.
    + by apply transit_heap.
    + done.
    + intros q x Hx. simpl. rewrite lookup_insert_ne; [done|]. intros E. eapply Hfresh; [by eexists|done].
    + intros. right. exists d. split; try done. apply dictionary_heap_lookup.
    + by right.
Qed.

(** ** The object *)

Lemma alloc_user_spec n s (Q : Z -> St -> Prop) F : heap_ok (st_heap s) -> 0 < n -> n mod 8 = 0 ->
  (heap_exhausted n (st_heap s) -> F) ->
  (forall heap, heap_ok heap -> m_userHeapCurPtr heap = m_userHeapCurPtr (st_heap s) - n ->
     Q (m_userHeapCurPtr (st_heap s) - n) (mkSt (st_table s) (st_hc s) heap (st_sparse s))) ->
  wp (alloc_user n) s Q F.
Proof.
  intros Hh H0 H8 HF HQ. unfold wp, alloc_user. destruct (AllocFromUserHeap_spec n (st_heap s) Hh H0 H8) as [(p & h' & -> & ? & -> & ?)|[-> ?]];
    [by apply HQ|by apply HF].
Qed.

(** The process stops when the system heap has no room for a dictionary, or the user
    heap none for an object of maximal size and a sparse map. *)
Definition clone_exhausted s : Prop := low (st_hc s) sizeof_CacheableDictionary \/
  heap_exhausted (ComputeObjectAllocationSize x_maxNumSlots + sizeof_ArraySparseMap) (st_heap s).

Lemma object_size inl : 0 <= inl <= x_maxNumSlots -> ComputeObjectAllocationSize inl = 16 + inl * 8 /\ (16 + inl * 8) mod 8 = 0.
Proof.
  intros Hi. unfold x_maxNumSlots in Hi. split; [|by rewrite Z.add_mod, Z_mod_mult].
  unfold ComputeObjectAllocationSize. apply wrapu_small. unfold in_u. pow2. lia.
Qed.

(** What the clone [t'] at [r] of the table of [s] is. *)
Record is_clone (K : Classes) s (v : PV) (f : Z -> Z) (mt : Z) (sc : Z -> Z) (r : Z) t' s' : Prop := {
  ic_table : st_table s' = st_table s;
  ic_extended : extended s s';
  ic_same : exists len, whole_at K (focus s' t') (mkPV (pv_keys v) (pv_inline v) (pv_butterfly v) (pv_values v) len (pv_cap v) (pv_vec v)) f mt sc;
  ic_own_class : own_class (st_hc s) (st_hc s') (m_hiddenClass t');
  ic_own_sparse : forall p, own_sparse (focus s' t') = Some p -> st_sparse s !! p = None;
  ic_address : m_userHeapCurPtr (st_heap s') <= r < m_userHeapCurPtr (st_heap s)
}.

Lemma stored_clone t t' v f len : stored env t v f ->
  layout t' (pv_inline v) (pv_butterfly v) (pv_values v) len (pv_cap v) (pv_vec v) ->
  stored env t' (mkPV (pv_keys v) (pv_inline v) (pv_butterfly v) (pv_values v) len (pv_cap v) (pv_vec v)) f.
Proof. intros [] ?. by split. Qed.

Lemma ShallowCloneTableObject_spec K s v f mt sc : whole_at K s v f mt sc ->
  wp ShallowCloneTableObject s (fun r s' => is_clone K s v f mt sc r.1 r.2 s') (clone_exhausted s).
Proof.
  intros Hw. pose proof Hw as [Hp Hh Hsp Hnull Hsh]. pose proof (props_bounds env K s v f mt Hp) as [_ _ Hinl _ _].
  pose proof Hp as [_ _ Hsto]. pose proof (sd_layout _ _ _ _ Hsto) as (named & Hb & Hil & Hnl & Hvs).
  destruct (object_size (pv_inline v) Hinl) as [Hsz H8]. destruct (object_size x_maxNumSlots ltac:(unfold x_maxNumSlots; lia)) as [Hmax _].
  assert (forall n, n <= 16 + x_maxNumSlots * 8 + sizeof_ArraySparseMap -> heap_exhausted n (st_heap s) -> clone_exhausted s) as Hex.
  { intros n Hn Hx. right. rewrite Hmax. unfold heap_exhausted in *. lia. }
  unfold ShallowCloneTableObject. apply wp_bind.
  eapply wp_mono; [by apply (clone_hidden_class_spec K s v f mt sc)| |by left].
  intros ? s1 (c & h & -> & -> & [Hci Hdesc Hdicts Hview Hown]). apply wp_bind, wp_get_table. apply wp_bind. rewrite Hsz.
  apply alloc_user_spec; [done|lia|done| |].
  { apply Hex. unfold sizeof_ArraySparseMap. lia. }
  intros heap Hh2 Hcur. simpl in Hcur.
  apply wp_bind. eapply wp_access.
  { unfold copy_inline. simpl. rewrite <- Hil, Z.leb_refl, Nat2Z.id. rewrite take_ge by done. done. }
  assert (forall p m, st_sparse s !! p = Some m -> m_userHeapCurPtr heap <= p < - (x_vmBaseOffset - x_vmUserHeapSize) /\ p mod 8 = 0) as Hsp2.
  { intros p m Hm. destruct (Hsp p m Hm). lia. }
  apply wp_bind. destruct Hb as [(Hb & -> & Hl & Hc & Hvec)|[Hb Hok]]; simpl; rewrite Hb.
  - apply wp_ret, wp_ret. simpl. split; simpl; try done.
    + split; simpl; try done. lia.
    + exists (pv_len v). split; simpl; try done.
      * split; simpl; [done|by apply Hview|]. apply stored_clone with (t := st_table s); [done|].
        exists []. split_and!; simpl; try done. by left.
      * intros _. by apply Hnull.
    + lia.
  - apply wp_bind. rewrite <- Hnl. eapply wp_mono; [eapply (CloneButterfly_copies hash _ named (pv_len v) (pv_cap v) (pv_vec v) sc); simpl; done| |].
    2: { simpl. intros Hx. apply (Hex (16 + pv_inline v * 8 + sizeof_ArraySparseMap)); [lia|]. unfold heap_exhausted in *. lia. }
    intros b s' [Ht Eh [Hh' Hsp'] (len' & -> & Hok' & Hsh' & Hnew & _) Hkeep Hcur']. simpl in *. subst h. apply wp_ret, wp_ret. simpl.
    split; simpl; rewrite ?Ht; try done.
    + split; simpl; try done. lia.
    + exists len'. split; simpl; try done.
      split; simpl; [done|by apply Hview|]. apply stored_clone with (t := st_table s); [done|].
      exists named. split_and!; simpl; try done. by right.
    + unfold own_sparse. simpl. rewrite m_arrayLengthIfContinuous_mk by done. simpl. intros p.
      destruct (HasSparseMap _); [|done]. intros [= <-]. by apply Hnew.
    + lia.
Qed.

(** ** The clone for table-dup bytecodes *)

Lemma clone_structure_class K s v f mt sc i : whole_at K s v f mt sc -> structure_view K (st_table s) v mt i ->
  clone_hidden_class s = Ok ((m_hiddenClass (st_table s), pv_inline v, pv_butterfly v), s).
Proof.
  intros [[Hci _ _] _ _ _ _] Hi. pose proof (ci_heap _ _ _ Hci) as Hinv. pose proof Hi as [].
  destruct (structure_type env K s i Hinv sv_info) as (sc0 & Hs & Hc & Hty).
  assert (wp clone_hidden_class s (fun r s1 => r = (m_hiddenClass (st_table s), pv_inline v, pv_butterfly v) /\ s1 = s) False) as Hwp.
  { unfold clone_hidden_class. apply wp_bind, wp_get_table. apply wp_bind, wp_on_heap. eapply wp_query; [exact Hty|].
    rewrite with_heap_same. apply wp_bind, wp_on_heap. eapply wp_load_structure; [exact Hs|]. rewrite with_heap_same. apply wp_ret.
    by rewrite (cl_inline _ _ _ _ _ Hc), (cl_butterfly _ _ _ _ _ Hc), sv_inline, sv_butterfly. }
  by destruct (wp_returns _ _ _ Hwp) as (r & s1 & -> & -> & ->).
Qed.

(** A butterfly with neither outlined properties nor a sparse map. *)
Lemma CloneButterfly_plain s len cap vec : m_butterfly (st_table s) = Some (mk_bf [] len cap vec) -> bf_ok [] len cap vec ->
  ButterflyHeader.HasSparseMap len = false ->
  CloneButterfly 0 s = Ok (mk_bf [] len cap vec, s) /\ CloneButterflyForTableDup s = Ok (mk_bf [] len cap vec, s).
Proof.
  intros Hb Hok Hs. pose proof (CloneWords_mk [] len cap vec Hok) as Hc.
  assert (on_butterfly (fun b => CloneWords b 0) s = Ok (mk_bf [] len cap vec, s)) as Hon.
  { assert (wp (on_butterfly (fun b => CloneWords b 0)) s (fun b s1 => b = mk_bf [] len cap vec /\ s1 = s) False) as Hwp
      by (by eapply wp_on_butterfly).
    by destruct (wp_returns _ _ _ Hwp) as (r & s1 & -> & -> & ->). }
  split; [|exact Hon]. unfold CloneButterfly. rewrite (bind_ok _ _ _ _ _ Hon). rewrite m_arrayLengthIfContinuous_mk by done.
  simpl. unfold mbind, M_bind. simpl. by rewrite Hs.
Qed.

Lemma ShallowCloneTableObjectForTableDup_same K s v f mt sc i : whole_at K s v f mt sc -> structure_view K (st_table s) v mt i ->
  pv_butterfly v = 0 -> HasSparseMap (m_arrayType (st_table s)) = false ->
  ShallowCloneTableObjectForTableDup (pv_inline v) (bool_decide (is_Some (m_butterfly (st_table s)))) s = ShallowCloneTableObject s.
Proof.
  intros Hw Hi Hbf Hsp. unfold ShallowCloneTableObject. rewrite (bind_ok _ _ _ _ _ (clone_structure_class K s v f mt sc i Hw Hi)), Hbf.
  unfold ShallowCloneTableObjectForTableDup. cbv beta iota. rewrite !(bind_ok get_table _ s (st_table s) s) by done.
  destruct (alloc_user (ComputeObjectAllocationSize (pv_inline v)) s) as [[r s1]| |] eqn:Ea; [|by rewrite !(bind_fail _ _ _ Ea)|by unfold mbind, M_bind; rewrite Ea].
  rewrite !(bind_ok _ _ _ _ _ Ea).
  assert (st_table s1 = st_table s) as Ht.
  { unfold alloc_user in Ea. destruct (AllocFromUserHeap _ _) as [[? ?]| |]; [|done..]. by injection Ea as <- <-. }
  destruct (copy_inline (m_inlineStorage (st_table s)) (pv_inline v)) as [storage|]; [|done]. rewrite !(bind_ok (access (Some storage)) _ s1 storage s1) by done.
  destruct Hw as [[_ _ [(named & Hb & _ & Hn & _) _ _]] _ _ _ Hsh]. destruct Hb as [(Hb & _)|[Hb Hok]].
  - rewrite Hb. by rewrite bool_decide_false by by intros [].
  - rewrite Hb, bool_decide_true by by eexists. assert (named = []) as -> by (destruct named; [done|simpl in *; lia]).
    assert (ButterflyHeader.HasSparseMap (pv_len v) = false) as Hns.
    { unfold ButterflyHeader.HasSparseMap. destruct Hsh; try congruence; lia. }
    rewrite <- Ht in Hb. destruct (CloneButterfly_plain s1 _ _ _ Hb Hok Hns) as [E1 E2].
    rewrite (bind_ok (b ← CloneButterflyForTableDup; mret (Some b)) _ s1 (Some (mk_bf [] (pv_len v) (pv_cap v) (pv_vec v))) s1)
      by (by rewrite (bind_ok _ _ _ _ _ E2)).
    rewrite (bind_ok (b ← CloneButterfly 0; mret (Some b)) _ s1 (Some (mk_bf [] (pv_len v) (pv_cap v) (pv_vec v))) s1)
      by (by rewrite (bind_ok _ _ _ _ _ E1)). done.
Qed.
End clone.
