(* ===== verification/TableWorld.v ===== *)
(** * All tables of a program

    A world is the shared heaps with all tables, each at its address.  A program
    makes tables, clones them and works on them; its variables hold addresses.  No
    operation on one table shows in another one. *)

From S2P Require Import Prelude Double TValue MiscMath Machine TypeMask ArrayType Butterfly SparseMap HiddenClass TableObject TableArray TableTheorems Probing CheckedTable ClassHeap Structure Transition ClassInv ClassLookup ClassFrame ClassCreate ClassTransition ClassQuery ClassOps ClassView Dictionary TableClasses NamedProps NamedInv NamedPut NamedTransition NamedMeta TableWhole TableHistory TableCreate TableClone.

Record World := mkWorld { w_hc : SysHeap; w_heap : UserHeap; w_sparse : gmap Z ArraySparseMap; w_tables : gmap Z TableObject }.

(** The state that sees one table of the world. *)
Definition at_table (w : World) (t : TableObject) : TableObject.St SysHeap := mkSt t (w_hc w) (w_heap w) (w_sparse w).

Definition with_state (s : TableObject.St SysHeap) (tables : gmap Z TableObject) : World :=
  mkWorld (st_hc s) (st_heap s) (st_sparse s) tables.

(** ** Programs *)

(** An operation; tables are the variables of the program, in the order in which
    they were made. *)
Inductive WorldOp :=
| NewTable (emptyStructure capacity : Z)
| NewGlobal
| CloneTable (x : nat)
| OnTable (x : nat) (op : TableOp).

(** The variables and the world. *)
Definition Program : Type := list Z * World.

Section programs.
Variable env : Env.
Variable hash : Z -> Z.
Variable garbage : Z.
#[local] Instance world_ops : HiddenClassOps SysHeap := sys_ops env.
Notation St := (TableObject.St SysHeap).

Definition run_world (op : WorldOp) : M Program unit := fun '(vars, w) =>
  let created (r : Res (Z * St)) :=
    match r with
    | Ok (a, s) => Ok (tt, (vars ++ [a], with_state s (<[a := st_table s]> (w_tables w))))
    | VMFail => VMFail
    | UB => UB
    end in
  match op with
  | NewTable p capacity => created (CreateEmptyTableObject (w_hc w) (w_heap w) (w_sparse w) p capacity)
  | NewGlobal => created (CreateEmptyGlobalObject (w_hc w) (w_heap w) (w_sparse w))
  | CloneTable x =>
      match a ← vars !! x; t ← w_tables w !! a; Some (a, t) with
      | None => UB
      | Some (a, t) =>
          match ShallowCloneTableObject (at_table w t) with
          | Ok ((b, t'), s) => Ok (tt, (vars ++ [b], with_state s (<[b := t']> (<[a := st_table s]> (w_tables w)))))
          | VMFail => VMFail
          | UB => UB
          end
      end
  | OnTable x op =>
      match a ← vars !! x; t ← w_tables w !! a; Some (a, t) with
      | None => UB
      | Some (a, t) =>
          match run_table env hash garbage op (at_table w t) with
          | Ok (_, s) => Ok (tt, (vars, with_state s (<[a := st_table s]> (w_tables w))))
          | VMFail => VMFail
          | UB => UB
          end
      end
  end.

Fixpoint run_program (ops : list WorldOp) : M Program unit :=
  match ops with [] => mret tt | op :: ops => run_world op;; run_program ops end.

(** ** The abstract program: every variable is a map *)

Definition world_after (ms : list Meaning) (op : WorldOp) : list Meaning :=
  match op with
  | NewTable _ _ | NewGlobal => ms ++ [empty_meaning]
  | CloneTable x => match ms !! x with Some m => ms ++ [m] | None => ms end
  | OnTable x op => alter (fun m => meaning_after m op) x ms
  end.

(** [n] variables are in use; [h] is the heap at the start. *)
Definition world_op_ok (h : SysHeap) (n : nat) (op : WorldOp) : Prop :=
  match op with
  | NewTable p capacity => (exists v, describe h p = Some v /\ empty_structure v) /\ 0 <= capacity <= x_alwaysVectorCutoff
  | NewGlobal => True
  | CloneTable x => (x < n)%nat
  | OnTable x op => (x < n)%nat /\ table_op_ok env op
  end.

Definition variables_after (n : nat) (op : WorldOp) : nat := match op with OnTable _ _ => n | _ => S n end.

Fixpoint program_ok (h : SysHeap) (n : nat) (ops : list WorldOp) : Prop :=
  match ops with [] => True | op :: ops => world_op_ok h n op /\ program_ok h (variables_after n op) ops end.

(** When an operation stops the process. *)
Definition world_exhausted (op : WorldOp) (p : Program) : Prop :=
  let '(vars, w) := p in
  match op with
  | NewTable q _ => exists v, describe (w_hc w) q = Some v /\ heap_exhausted (ComputeObjectAllocationSize (v_inline v)) (w_heap w)
  | NewGlobal => low (w_hc w) sizeof_CacheableDictionary \/ heap_exhausted (ComputeObjectAllocationSize x_maxNumSlots) (w_heap w)
  | CloneTable x => exists a t, vars !! x = Some a /\ w_tables w !! a = Some t /\ clone_exhausted (at_table w t)
  | OnTable x op => exists a t, vars !! x = Some a /\ w_tables w !! a = Some t /\ table_exhausted env op (at_table w t)
  end.
End programs.

(** ** Frames *)

Section frame.
Variable env : Env.
Variable hash : Z -> Z.
Notation St := (TableObject.St SysHeap).
Implicit Types (s : St) (t u : TableObject) (w : World).
Notation means := (means env hash).

(** The shared heaps are in order. *)
Definition base s : Prop := (exists K, classes_inv env (st_hc s) K) /\ world_ok (st_hc s) (st_heap s) (st_sparse s).

Lemma means_base s m : means s m -> base s.
Proof. intros (K & v & sc & Hw & _). split; [exists K; apply Hw|by eapply whole_world]. Qed.

(** The same table in heaps that have kept all it uses. *)
Lemma means_frame s s' m : st_table s' = st_table s -> base s' ->
  (forall q v, describe (st_hc s) q = Some v -> describe (st_hc s') q = Some v) ->
  (forall d, dictionaries (st_hc s) !! m_hiddenClass (st_table s) = Some d ->
     dictionaries (st_hc s') !! m_hiddenClass (st_table s) = Some d) ->
  (forall p m, own_sparse s = Some p -> st_sparse s !! p = Some m -> st_sparse s' !! p = Some m) ->
  means s m -> means s' m.
Proof.
  intros Ht [(K' & Hci') [Hh' Hsp']] Hdesc Hdict Hsparse (K & v & sc & Hw & Hg). pose proof (whole_own env hash K s v _ _ sc Hw) as Hown.
  destruct Hw as [[Hci Hcl Hsto] _ _ Hnull Hsh]. pose proof (ci_heap _ _ _ Hci) as Hinv. pose proof (ci_heap _ _ _ Hci') as Hinv'.
  exists K', v, sc. split; [|exact Hg]. split; rewrite ?Ht; try done.
  - split; [done| |by rewrite Ht]. destruct Hcl as [[i Hi]|[d Hd]].
    + left. destruct Hi.
      destruct (info_describe env _ K' _ _ Hinv' (Hdesc _ _ (describe_info env _ K _ i Hinv sv_info))) as (i' & Hi' & Hv).
      destruct (inv_structure env _ K Hinv _ i sv_info) as (? & _ & Hc). destruct (inv_structure env _ K' Hinv' _ i' Hi') as (? & _ & Hc').
      injection Hv as Hks Hin Hbf Ha Hm _. apply keys_of_view in Hks; [|apply Hc|apply Hc'].
      exists i'. split; rewrite ?Ht; try congruence.
      * rewrite sv_metatable. unfold struct_metatable. by rewrite Hm.
      * by rewrite <- Hm.
    + right. exists d. destruct Hd. split; rewrite ?Ht; try done. by apply Hdict.
  - destruct Hsh as [| | |mp ? ? Hs ? Hm ? ? ?]; [by apply sh_none|by apply sh_continuous|by apply sh_vector|].
    apply sh_sparse; try done. apply Hsparse; [by rewrite Hown, Hs|done].
Qed.

(** A class that is no dictionary does not become one. *)
Lemma class_stays s s' m : base s' -> (forall q v, describe (st_hc s) q = Some v -> describe (st_hc s') q = Some v) -> means s m ->
  dictionaries (st_hc s) !! m_hiddenClass (st_table s) = None -> dictionaries (st_hc s') !! m_hiddenClass (st_table s) = None.
Proof.
  intros [(K' & Hci') _] Hdesc (K & v & sc & [[Hci [[i Hi]|[d Hd]] _] _ _ _ _] & _) Hno; [|destruct Hd; congruence].
  destruct Hi. destruct (info_describe env _ K' _ _ (ci_heap _ _ _ Hci') (Hdesc _ _ (describe_info env _ K _ i (ci_heap _ _ _ Hci) sv_info)))
    as (i' & Hi' & _).
  destruct (dictionaries (st_hc s') !! _) eqn:E; [|done]. rewrite (hi_disjoint _ _ _ (ci_heap _ _ _ Hci')) in Hi'; [done|by eexists].
Qed.

(** The sparse map of a table is on the heap; its class is below the heap pointer. *)
Lemma means_sparse s m p : means s m -> own_sparse s = Some p -> is_Some (st_sparse s !! p).
Proof.
  intros (K & v & sc & Hw & _). rewrite (whole_own env hash K s v _ _ sc Hw). destruct (HasSparseMap _) eqn:Hs; [|done]. intros [= <-].
  destruct Hw as [_ _ _ _ [(_ & _ & ? & _)|? ? ?|? ? ?|mp]]; try congruence. by eexists.
Qed.

Lemma means_class s m : means s m -> m_hiddenClass (st_table s) < m_systemHeapCurPtr (st_hc s).
Proof.
  intros (K & v & sc & [[Hci Hcl _] _ _ _ _] & _). pose proof (ci_heap _ _ _ Hci) as Hinv.
  destruct (Z.lt_ge_cases (m_hiddenClass (st_table s)) (m_systemHeapCurPtr (st_hc s))) as [|Hge]; [done|exfalso].
  destruct Hcl as [[i []]|[d []]].
  - rewrite (fresh_structure env (st_hc s) K) in sv_info; done.
  - rewrite (fresh_dictionary env (st_hc s) K) in dv_info; done.
Qed.

(** Two tables have no dictionary and no sparse map in common. *)
Definition apart (h : SysHeap) t u : Prop :=
  (m_hiddenClass t = m_hiddenClass u -> dictionaries h !! m_hiddenClass t = None) /\
  (forall s, own_sparse (focus s t) = own_sparse (focus s u) -> own_sparse (focus s t) = None).

Lemma apart_sym h t u : apart h t u -> apart h u t.
Proof. intros [Hc Hs]. split; [intros E; rewrite E; by apply Hc|intros s E; rewrite E; by apply Hs]. Qed.

(** Work on one table: another one means the same afterwards ... *)
Lemma isolated_means s s' m' u m : isolated s s' -> means s' m' -> apart (st_hc s) (st_table s) u ->
  means (focus s u) m -> means (focus s' u) m.
Proof.
  intros [] Hs' [Hac Has] Hu. eapply (means_frame (focus s u) (focus s' u)); [done|by apply means_base in Hs'|done| | |done]; simpl.
  - intros d Hd. apply is_dicts; [|done]. intros E. rewrite E, Hac in Hd; done.
  - intros p mp Ho Hm. apply is_sparse; [done|]. intros Ho'. specialize (Has s).
    assert (own_sparse (focus s (st_table s)) = None) as Hn by (apply Has; change (own_sparse s = own_sparse (focus s u)); congruence).
    change (own_sparse s = None) in Hn. congruence.
Qed.

(** ... and stays apart. *)
Lemma isolated_apart s s' m' u m : isolated s s' -> means s' m' -> apart (st_hc s) (st_table s) u -> means (focus s u) m ->
  apart (st_hc s') (st_table s') u.
Proof.
  intros [] Hs' [Hac Has] Hu. pose proof (means_base _ _ Hs') as Hb. split.
  - intros E. rewrite E. destruct (dictionaries (st_hc s) !! m_hiddenClass u) as [d|] eqn:Hd;
      [|by apply (class_stays (focus s u) (focus s' u) m)].
    rewrite E in is_class. exfalso.
    assert (m_hiddenClass u = m_hiddenClass (st_table s)) as Eu by (apply is_class; by eexists). rewrite Eu in Hd, Hac. rewrite Hac in Hd; done.
  - intros s0 E. change (own_sparse s' = own_sparse (focus s u)) in E. change (own_sparse s' = None).
    destruct (own_sparse (focus s u)) as [p|] eqn:Ep; [|done]. exfalso.
    destruct (means_sparse _ _ _ Hu Ep) as [mp Hm]. specialize (is_owner p mp Hm E).
    assert (own_sparse (focus s (st_table s)) = None) as Hn by (apply Has; change (own_sparse s = own_sparse (focus s u)); congruence).
    change (own_sparse s = None) in Hn. congruence.
Qed.

Lemma isolated_others s s' m' u1 u2 m1 : isolated s s' -> means s' m' -> apart (st_hc s) u1 u2 -> means (focus s u1) m1 ->
  apart (st_hc s') u1 u2.
Proof.
  intros [] Hs' [Hc Hs] H1. split; [|done]. intros E. apply (class_stays (focus s u1) (focus s' u1) m1); [by apply means_base in Hs'|done|done|by apply Hc].
Qed.

(** New heaps that have everything the old ones have. *)
Lemma extended_means s s' u m : extended s s' -> base s' -> means (focus s u) m -> means (focus s' u) m.
Proof. intros [] Hb Hu. eapply (means_frame (focus s u) (focus s' u)); [done|done|done| | |done]; simpl; eauto. Qed.

Lemma extended_apart s s' u1 u2 m1 : extended s s' -> base s' -> means (focus s u1) m1 -> apart (st_hc s) u1 u2 -> apart (st_hc s') u1 u2.
Proof.
  intros [] Hb Hu [Hc Hs]. split; [|done]. intros E. apply (class_stays (focus s u1) (focus s' u1) m1); [done|done|done|by apply Hc].
Qed.

(** A new table is apart from all old ones. *)
Lemma new_apart s s' t u m : extended s s' -> base s' -> own_class (st_hc s) (st_hc s') (m_hiddenClass t) ->
  (forall p, own_sparse (focus s' t) = Some p -> st_sparse s !! p = None) -> means (focus s u) m -> apart (st_hc s') t u.
Proof.
  intros Hx Hb Hown Hsp Hu. split.
  - intros E. destruct Hown as [Hn|Hge]; [done|]. apply means_class in Hu. simpl in Hu. lia.
  - intros s0 E. change (own_sparse (focus s' t) = own_sparse (focus s u)) in E. change (own_sparse (focus s' t) = None).
    destruct (own_sparse (focus s' t)) as [p|] eqn:Ep; [|done]. exfalso. symmetry in E.
    destruct (means_sparse _ _ _ Hu E) as [mp Hm]. by rewrite Hsp in Hm.
Qed.
End frame.

(** ** The invariant of a program *)

Section invariant.
Variable env : Env.
Variable hash : Z -> Z.
Variable garbage : Z.
#[local] Instance invariant_ops : HiddenClassOps SysHeap := sys_ops env.
Notation St := (TableObject.St SysHeap).
Implicit Types (s : St) (t u : TableObject) (w : World).
Notation means := (means env hash).
Hypothesis special_user : user_key (GetSpecialKeyForMetadataSlot env).

(** The state of a world without a table in view. *)
Definition no_table : TableObject := mkTable 0 0 None [].
Definition heaps_of w : St := at_table w no_table.

(** The heap the program starts with. *)
Variable h0 : SysHeap.

(** Every variable [x] holds the address of a table that means [ms !! x]; the
    tables are distinct and apart. *)
Record stands (vars : list Z) w (ms : list Meaning) : Prop := {
  sd_base : base env (heaps_of w);
  sd_old : forall q v, describe h0 q = Some v -> describe (w_hc w) q = Some v;
  sd_length : length vars = length ms;
  sd_means : forall x a m, vars !! x = Some a -> ms !! x = Some m -> exists t, w_tables w !! a = Some t /\ means (at_table w t) m;
  sd_distinct : NoDup vars;
  sd_address : Forall (fun a => m_userHeapCurPtr (w_heap w) <= a) vars;
  sd_apart : forall x y a b t u, x <> y -> vars !! x = Some a -> vars !! y = Some b ->
    w_tables w !! a = Some t -> w_tables w !! b = Some u -> apart (w_hc w) t u
}.

Lemma stands_variable vars w ms x : stands vars w ms -> (x < length vars)%nat ->
  exists a t m, vars !! x = Some a /\ ms !! x = Some m /\ w_tables w !! a = Some t /\ means (at_table w t) m.
Proof.
  intros [] Hx. destruct (lookup_lt_is_Some_2 vars x Hx) as [a Ha]. destruct (lookup_lt_is_Some_2 ms x) as [m Hm]; [lia|].
  destruct (sd_means0 x a m Ha Hm) as (t & Ht & Hmt). by exists a, t, m.
Qed.

Lemma other_table (tables : gmap Z TableObject) vars x y a b t : NoDup vars -> vars !! x = Some a -> vars !! y = Some b -> y <> x ->
  <[a := t]> tables !! b = tables !! b.
Proof. intros Hn Ha Hb Hne. apply lookup_insert_ne. intros ->. apply Hne. by eapply NoDup_lookup. Qed.

(** Work on the table of a variable. *)
Lemma stands_work vars w ms x a t m s m' : stands vars w ms -> vars !! x = Some a -> ms !! x = Some m ->
  w_tables w !! a = Some t -> isolated (at_table w t) s -> means s m' ->
  stands vars (with_state s (<[a := st_table s]> (w_tables w))) (<[x := m']> ms).
Proof.
  intros Hst Ha Hm Ht Hi Hs. pose proof Hst as [].
  assert (forall y b u, y <> x -> vars !! y = Some b -> w_tables w !! b = Some u ->
    exists n, ms !! y = Some n /\ means (focus (at_table w t) u) n /\ apart (w_hc w) t u) as Hothers.
  { intros y b u Hne Hb Hu. destruct (lookup_lt_is_Some_2 ms y) as [n Hn]; [rewrite <- sd_length0; by eapply lookup_lt_Some|].
    exists n. split; [done|]. destruct (sd_means0 y b n Hb Hn) as (u' & Hu' & Hmu). assert (u' = u) as -> by congruence.
    split; [exact Hmu|]. by apply (sd_apart0 x y a b). }
  split; simpl; try done.
  - by apply means_base in Hs.
  - intros q v Hq. apply Hi, sd_old0, Hq.
  - by rewrite length_insert.
  - intros y b n Hb Hn. destruct (decide (y = x)) as [->|Hne].
    + assert (b = a) as -> by congruence. rewrite list_lookup_insert_eq in Hn by (by eapply lookup_lt_Some). injection Hn as <-.
      exists (st_table s). split; [apply lookup_insert_eq|]. by destruct s.
    + rewrite list_lookup_insert_ne in Hn by done. rewrite (other_table _ vars x y a b) by done.
      destruct (sd_means0 y b n Hb Hn) as (u & Hu & Hmu). exists u. split; [done|].
      apply (isolated_means env hash (at_table w t) s m' u n); try done. by apply (sd_apart0 x y a b).
  - eapply Forall_impl; [exact sd_address0|]. intros b Hb. pose proof (is_cur _ _ Hi) as Hc. simpl in *. lia.
  - intros y z b c u u' Hne Hb Hc. destruct (decide (y = x)) as [->|Hy]; [|destruct (decide (z = x)) as [->|Hz]].
    + assert (b = a) as -> by congruence. rewrite lookup_insert_eq, (other_table _ vars x z a c) by done. intros [= <-] Hu'.
      destruct (Hothers z c u' ltac:(done) Hc Hu') as (n & _ & Hmu & Hap). by eapply (isolated_apart env hash (at_table w t)).
    + assert (c = a) as -> by congruence. rewrite lookup_insert_eq, (other_table _ vars x y a b) by done. intros Hu [= <-].
      destruct (Hothers y b u ltac:(done) Hb Hu) as (n & _ & Hmu & Hap). apply apart_sym. by eapply (isolated_apart env hash (at_table w t)).
    + rewrite (other_table _ vars x y a b), (other_table _ vars x z a c) by done. intros Hu Hu'.
      destruct (Hothers y b u ltac:(done) Hb Hu) as (n & _ & Hmu & _). eapply (isolated_others env hash (at_table w t)); try done.
      by apply (sd_apart0 y z b c).
Qed.

(** A new table [t] at [b]. *)
Lemma stands_new vars w ms b t s m : stands vars w ms -> extended (heaps_of w) s -> means (focus s t) m ->
  own_class (w_hc w) (st_hc s) (m_hiddenClass t) -> (forall p, own_sparse (focus s t) = Some p -> w_sparse w !! p = None) ->
  m_userHeapCurPtr (st_heap s) <= b < m_userHeapCurPtr (w_heap w) ->
  stands (vars ++ [b]) (with_state s (<[b := t]> (w_tables w))) (ms ++ [m]).
Proof.
  intros [] Hx Hs Hown Hsp Hb. pose proof (means_base env hash _ _ Hs : base env s) as Hbase.
  assert (forall x a, vars !! x = Some a -> a <> b) as Hfresh.
  { intros x a Ha ->. rewrite Forall_lookup in sd_address0. specialize (sd_address0 x b Ha). simpl in *. lia. }
  assert (forall x a u, vars !! x = Some a -> w_tables w !! a = Some u -> exists n, ms !! x = Some n /\ means (focus (heaps_of w) u) n) as Hold.
  { intros x a u Ha Hu. destruct (lookup_lt_is_Some_2 ms x) as [n Hn]; [rewrite <- sd_length0; by eapply lookup_lt_Some|].
    exists n. split; [done|]. destruct (sd_means0 x a n Ha Hn) as (u' & Hu' & Hmu). by assert (u' = u) as -> by congruence. }
  assert (forall x a, (vars ++ [b]) !! x = Some a -> vars !! x = Some a \/ (x = length vars /\ a = b)) as Hvar.
  { intros x a [Ha|[Hle Ha]]%lookup_app_Some; [by left|right]. apply list_lookup_singleton_Some in Ha as [? ->]. split; [lia|done]. }
  split; simpl; try done.
  - intros q v Hq. by apply Hx, sd_old0.
  - rewrite !length_app. simpl. lia.
  - intros x a n Ha Hn. destruct (Hvar x a Ha) as [Ha'|[-> ->]].
    + rewrite lookup_app_l in Hn by (rewrite <- sd_length0; by eapply lookup_lt_Some). rewrite lookup_insert_ne by (symmetry; by eapply Hfresh).
      destruct (sd_means0 x a n Ha' Hn) as (u & Hu & Hmu). exists u. split; [done|]. by apply (extended_means env hash (heaps_of w) s).
    + rewrite sd_length0, lookup_app_r, Nat.sub_diag in Hn by done. injection Hn as <-. exists t. split; [apply lookup_insert_eq|done].
  - apply NoDup_app. split_and!; [done| |by apply NoDup_singleton]. intros a Ha ->%list_elem_of_singleton.
    apply list_elem_of_lookup_1 in Ha as [x Hxa]. by eapply Hfresh.
  - apply Forall_app. split; [|constructor; [lia|done]]. eapply Forall_impl; [exact sd_address0|]. intros a Ha.
    simpl in *. lia.
  - intros x y a c u u' Hne Ha Hc. destruct (Hvar x a Ha) as [Ha'|[-> ->]], (Hvar y c Hc) as [Hc'|[-> ->]]; [..|done].
    + rewrite !lookup_insert_ne by (symmetry; by eapply Hfresh). intros Hu Hu'. destruct (Hold x a u Ha' Hu) as (n & _ & Hmu).
      eapply (extended_apart env hash (heaps_of w)); try done. by apply (sd_apart0 x y a c).
    + rewrite lookup_insert_ne, lookup_insert_eq by (symmetry; by eapply Hfresh). intros Hu [= <-].
      destruct (Hold x a u Ha' Hu) as (n & _ & Hmu). apply apart_sym. by eapply (new_apart env hash (heaps_of w)).
    + rewrite lookup_insert_eq, lookup_insert_ne by (symmetry; by eapply Hfresh). intros [= <-] Hu'.
      destruct (Hold y c u' Hc' Hu') as (n & _ & Hmu). by eapply (new_apart env hash (heaps_of w)).
Qed.

(** ** Every operation *)

Lemma no_own_sparse s t : m_arrayType t = GetInitialArrayType -> own_sparse (focus s t) = None.
Proof.
  intros Ha. unfold own_sparse. simpl. rewrite Ha. destruct (m_butterfly t) as [b|]; [|done]. simpl.
  by destruct (m_arrayLengthIfContinuous b).
Qed.

Lemma stands_created vars w ms b t s : stands vars w ms -> means s empty_meaning -> st_table s = t -> extended (heaps_of w) s ->
  own_class (w_hc w) (st_hc s) (m_hiddenClass t) -> m_arrayType t = GetInitialArrayType ->
  m_userHeapCurPtr (st_heap s) <= b < m_userHeapCurPtr (w_heap w) ->
  stands (vars ++ [b]) (with_state s (<[b := t]> (w_tables w))) (ms ++ [empty_meaning]).
Proof.
  intros Hst Hs <- Hx Hown Ha Hb. apply stands_new; try done; [by destruct s|]. by rewrite no_own_sparse.
Qed.

Lemma run_new vars w ms p capacity : stands vars w ms -> world_op_ok env h0 (length vars) (NewTable p capacity) ->
  wp (run_world env hash garbage (NewTable p capacity)) (vars, w)
    (fun _ '(vars', w') => stands vars' w' (ms ++ [empty_meaning]) /\ length vars' = S (length vars))
    (world_exhausted env (NewTable p capacity) (vars, w)).
Proof.
  intros Hst [(v & Hv & He) Hcap]. pose proof Hst as [[(K & Hci) Hw] Hold _ _ _ _ _]. simpl in *. apply Hold in Hv.
  destruct (info_describe env _ K p v (ci_heap _ _ _ Hci) Hv) as (i & Hi & ->).
  destruct (inv_structure env _ K (ci_heap _ _ _ Hci) p i Hi) as (sc & Hs & Hc).
  unfold wp, run_world, CreateEmptyTableObject. rewrite Hs, (cl_inline _ _ _ _ _ Hc).
  pose proof (cl_inline_range _ _ _ _ _ Hc) as Hinl.
  destruct (created_at env hash (w_hc w) (w_heap w) (w_sparse w) p capacity K i Hci Hi He Hw Hcap) as [(r & s & E & Hm)|[-> Hex]];
    [|by exists (view_of i)].
  rewrite E. destruct (created_fields _ _ _ _ _ _ _ _ E) as (Eh & Ep & Ea & _ & Esp & Eal).
  destruct (object_size (i_inline i) ltac:(unfold x_maxNumSlots in *; lia)) as [Hsz H8]. rewrite Hsz in Eal.
  destruct (AllocFromUserHeap_spec (16 + i_inline i * 8) (w_heap w) (proj1 Hw)) as [(r' & heap & E' & _ & Hr & Hcur)|[E' _]];
    [lia|done| |congruence]. rewrite Eal in E'. injection E' as <- <-.
  split; [|rewrite length_app; simpl; lia]. apply stands_created; try done.
  - split; simpl; rewrite ?Eh, ?Esp; try done. lia.
  - left. rewrite Ep, Eh. destruct (dictionaries (w_hc w) !! p) eqn:Ed; [|done].
    rewrite (hi_disjoint _ _ _ (ci_heap _ _ _ Hci)) in Hi; [done|by eexists].
  - lia.
Qed.

Lemma run_global vars w ms : stands vars w ms ->
  wp (run_world env hash garbage NewGlobal) (vars, w)
    (fun _ '(vars', w') => stands vars' w' (ms ++ [empty_meaning]) /\ length vars' = S (length vars))
    (world_exhausted env NewGlobal (vars, w)).
Proof.
  intros Hst. pose proof Hst as [[(K & Hci) Hw] _ _ _ _ _ _]. unfold wp, run_world. simpl.
  destruct (created_global env hash K (w_hc w) (w_heap w) (w_sparse w) Hci Hw)
    as [(r & s & d & -> & Hm & (limit & Eh) & Ep & Ea & Esp & Ecur & Hlt)|[-> Hex]]; [|done].
  split; [|rewrite length_app; simpl; lia]. apply stands_created; try done.
  - split; simpl; rewrite ?Eh, ?Esp; try done; [|lia]. intros q x Hx. simpl.
    rewrite lookup_insert_ne; [done|]. intros <-. by rewrite (fresh_dictionary env (w_hc w) K) in Hx by (apply Hci || done).
  - right. by rewrite Ep.
  - lia.
Qed.

Lemma run_clone vars w ms x : stands vars w ms -> (x < length vars)%nat ->
  wp (run_world env hash garbage (CloneTable x)) (vars, w)
    (fun _ '(vars', w') => stands vars' w' (world_after ms (CloneTable x)) /\ length vars' = S (length vars))
    (world_exhausted env (CloneTable x) (vars, w)).
Proof.
  intros Hst Hx. destruct (stands_variable vars w ms x Hst Hx) as (a & t & m & Ha & Hm & Ht & K & v & sc & Hw & Hg).
  unfold wp, run_world, world_after. rewrite Ha. simpl. rewrite Ht, Hm. simpl.
  destruct (wp_cases _ _ _ _ (ShallowCloneTableObject_spec env hash K (at_table w t) v _ _ sc Hw)) as [([b t'] & s & -> & [])|[-> Hex]];
    [|by exists a, t].
  split; [|rewrite length_app; simpl; lia]. simpl in *. rewrite ic_table, (insert_id (w_tables w) a t) by done. destruct ic_same as (len & Hsame).
  apply stands_new; try done; [by destruct ic_extended; split|]. eexists K, _, sc. split; [exact Hsame|done].
Qed.

Lemma run_on vars w ms x op : stands vars w ms -> (x < length vars)%nat -> table_op_ok env op ->
  wp (run_world env hash garbage (OnTable x op)) (vars, w)
    (fun _ '(vars', w') => stands vars' w' (world_after ms (OnTable x op)) /\ length vars' = length vars)
    (world_exhausted env (OnTable x op) (vars, w)).
Proof.
  intros Hst Hx Hop. destruct (stands_variable vars w ms x Hst Hx) as (a & t & m & Ha & Hm & Ht & Hmean).
  unfold wp, run_world, world_after. rewrite Ha. simpl. rewrite Ht. simpl.
  destruct (wp_cases _ _ _ _ (run_table_spec env hash garbage special_user op (at_table w t) m Hmean Hop)) as [([] & s & -> & Hs & Hi)|[-> Hex]];
    [|by exists a, t].
  split; [|done]. assert (alter (fun m => meaning_after m op) x ms = <[x := meaning_after m op]> ms) as ->.
  { apply list_eq. intros y. destruct (decide (y = x)) as [->|Hne].
    - rewrite list_lookup_alter_eq, Hm, list_lookup_insert_eq by (by eapply lookup_lt_Some). done.
    - by rewrite list_lookup_alter_ne, list_lookup_insert_ne by done. }
  by eapply stands_work.
Qed.

Lemma run_world_spec vars w ms op : stands vars w ms -> world_op_ok env h0 (length vars) op ->
  wp (run_world env hash garbage op) (vars, w)
    (fun _ '(vars', w') => stands vars' w' (world_after ms op) /\ length vars' = variables_after (length vars) op)
    (world_exhausted env op (vars, w)).
Proof.
  intros Hst Hop. destruct op as [p capacity| |x|x op]; [by apply run_new|by apply run_global|by apply run_clone|destruct Hop; by apply run_on].
Qed.

Lemma run_program_spec ops : forall vars w ms, stands vars w ms -> program_ok env h0 (length vars) ops ->
  (exists vars' w', run_program env hash garbage ops (vars, w) = Ok (tt, (vars', w')) /\ stands vars' w' (foldl world_after ms ops)) \/
  (run_program env hash garbage ops (vars, w) = VMFail /\ exists ops1 op ops2 p, ops = ops1 ++ op :: ops2 /\
     run_program env hash garbage ops1 (vars, w) = Ok (tt, p) /\ world_exhausted env op p).
Proof.
  induction ops as [|op ops IH]; intros vars w ms Hst Hok; [left; by exists vars, w|]. destruct Hok as [Hop Hok].
  destruct (wp_cases _ _ _ _ (run_world_spec vars w ms op Hst Hop)) as [([] & [vars1 w1] & E & Hst1 & Hl)|[E Hex]].
  - rewrite <- Hl in Hok. destruct (IH vars1 w1 _ Hst1 Hok) as [(vars2 & w2 & E2 & H2)|(E2 & ops1 & op' & ops2 & p & -> & Er & Hex)]; [left|right].
    + exists vars2, w2. split; [|done]. simpl. by rewrite (bind_ok _ _ _ _ _ E).
    + split; [simpl; by rewrite (bind_ok _ _ _ _ _ E)|].
      exists (op :: ops1), op', ops2, p. split; [done|]. split; [|done]. simpl. by rewrite (bind_ok _ _ _ _ _ E).
  - right. split; [simpl; by apply bind_fail|]. exists [], op, ops, (vars, w). by split_and!.
Qed.
End invariant.
