(* ===== verification/IterationProperties.v ===== *)
(** * Properties of the iteration over tables

    [pairs], [next] and assignments during a traversal, stated of any table with
    a meaning ([TableHistory.means]), with their instances on sample tables. *)

From S2P Require Import Prelude Double TValue MiscMath Machine TypeMask ArrayType Butterfly SparseMap HiddenClass TableObject TableArray TableTheorems Probing CheckedTable ClassHeap Structure Transition ClassInv ClassLookup ClassFrame ClassCreate ClassTransition ClassQuery ClassOps ClassView ClassTheorems Dictionary TableClasses NamedProps NamedInv NamedPut NamedTransition NamedMeta NamedAssign TableWhole TableHistory TableProperties DictionaryTheorems TableIterator TableCells TableIteration TableTraverse TableCreate.

(** The keys that stand for booleans are two string constants of the VM. *)
Definition boolean_keys (SpecialKeyForBoolean : bool -> Z) : Prop :=
  (forall b, user_key (SpecialKeyForBoolean b)) /\ SpecialKeyForBoolean false <> SpecialKeyForBoolean true.

Lemma iterated env hash SpecialKeyForBoolean s m : user_key (GetSpecialKeyForMetadataSlot env) ->
  boolean_keys SpecialKeyForBoolean -> means env hash s m -> exists L, lists_table env SpecialKeyForBoolean s m L /\
    drain SpecialKeyForBoolean (S (length L)) newTableObjectIterator s = Ok (L, s) /\
    (sparse_words (st_sparse s) -> next_all env hash SpecialKeyForBoolean (S (length L)) Nil s = Ok (L, s)).
Proof.
  intros Hsp [Hu Hd] (K & v & sc & Hw & Hg). destruct m as [f mt g].
  destruct (named_cells_exist env hash SpecialKeyForBoolean s K v f mt sc Hw) as (nc & Hnc).
  exists (all_pairs s v nc). split; [by apply (all_pairs_spec env hash SpecialKeyForBoolean s K v f mt sc Hw)|].
  split; [by apply (drain_spec env hash SpecialKeyForBoolean s K v f mt sc Hw nc Hnc); [left|]|].
  intros Hwords. by apply (next_all_spec env hash SpecialKeyForBoolean s K v f mt sc Hw nc Hnc Hwords).
Qed.

(** ** Sample tables *)

Definition sample_boolean (b : bool) : Z := sample_key (if b then 61 else 60).

Lemma sample_booleans : boolean_keys sample_boolean.
Proof. split; [by intros []|done]. Qed.

(** Two named properties, an element in the vector and one in the sparse map. *)
Definition sample_visit_ops : list TableOp :=
  [PutNamed true (sample_key 3) (CreateInt32 1); PutNamed true (sample_boolean true) (CreateInt32 2);
   PutInteger 1 (CreateInt32 10); PutDouble (double_of_int 100000000) (CreateInt32 11)].

Definition sample_visited : TableObject.St SysHeap :=
  match run_history sample_env sample_hash 0 sample_visit_ops sample_class_table with Ok (_, s) => s | _ => sample_class_table end.

Definition sample_visited_meaning : Meaning := meaning_of empty_meaning sample_visit_ops.

Lemma sample_visited_means : means sample_env sample_hash sample_visited sample_visited_meaning.
Proof.
  apply sample_reaches; [repeat constructor; by apply (bool_decide_unpack _); vm_compute|]. unfold sample_visited.
  destruct (run_history sample_env sample_hash 0 sample_visit_ops sample_class_table) as [[[] s]| |] eqn:E; [done|exfalso; by vm_compute in E..].
Qed.

Lemma sample_visited_words : sparse_words (st_sparse sample_visited).
Proof. unfold sparse_words. by apply (bool_decide_unpack _); vm_compute. Qed.

(** The global object with a boolean key. *)
Definition sample_global : TableObject.St SysHeap :=
  match CreateEmptyGlobalObject sample_base initUserHeap ∅ with
  | Ok (_, s) => match RawPutById sample_env true (sample_boolean true) (CreateInt32 2) s with Ok (_, s) => s | _ => s end
  | _ => sample_class_table
  end.

Definition sample_global_meaning : Meaning := meaning_after empty_meaning (PutNamed true (sample_boolean true) (CreateInt32 2)).

Lemma sample_global_means : means sample_env sample_hash sample_global sample_global_meaning.
Proof.
  destruct (created_global_means sample_env sample_hash sample_special sample_base initUserHeap ∅ sample_base_reachable sample_world)
    as [(r & s & E & Hm)|E]; [|exfalso; by vm_compute in E].
  pose proof (run_table_spec sample_env sample_hash 0 sample_special
    (PutNamed true (sample_boolean true) (CreateInt32 2)) s empty_meaning Hm ltac:(by apply (bool_decide_unpack _); vm_compute)) as Hput.
  unfold sample_global. rewrite E. unfold wp in Hput. simpl in Hput.
  destruct (RawPutById sample_env true (sample_boolean true) (CreateInt32 2) s) as [[a s']| |] eqn:Ep; [apply Hput|exfalso|done].
  unfold CreateEmptyGlobalObject in E. vm_compute in E. injection E as _ <-. by vm_compute in Ep.
Qed.

(** ** Traversals *)

(** C19: iterating over a table visits every pair once.  The loop that advances a
    fresh [TableObjectIterator] comes to its end in any table and changes nothing.
    It yields the named properties and the elements that are not nil, with their
    values, and nothing else; no two of its keys are the same key. *)
Theorem table_iteration env hash SpecialKeyForBoolean s m : user_key (GetSpecialKeyForMetadataSlot env) ->
  boolean_keys SpecialKeyForBoolean -> means env hash s m ->
  exists L, lists_table env SpecialKeyForBoolean s m L /\
    drain SpecialKeyForBoolean (S (length L)) newTableObjectIterator s = Ok (L, s).
Proof.
  intros Hsp Hb Hm. destruct (iterated env hash SpecialKeyForBoolean s m Hsp Hb Hm) as (L & HL & Hd & _). by exists L.
Qed.

Lemma table_iteration_witness : exists L, drain sample_boolean (S (length L)) newTableObjectIterator sample_visited = Ok (L, sample_visited) /\
  mkKV (CreatePointer (sample_key 3)) (CreateInt32 1) ∈ L /\ mkKV CreateTrue (CreateInt32 2) ∈ L.
Proof.
  destruct (table_iteration sample_env sample_hash sample_boolean sample_visited sample_visited_meaning sample_special sample_booleans
    sample_visited_means) as (L & [_ Hnamed _ _] & HL).
  exists L. split; [exact HL|].
  pose proof (Hnamed (sample_key 3) ltac:(by apply (bool_decide_unpack _); vm_compute) ltac:(by vm_compute)) as H3.
  pose proof (Hnamed (sample_boolean true) ltac:(by apply (bool_decide_unpack _); vm_compute) ltac:(by vm_compute)) as Ht.
  clear - H3 Ht. vm_compute in H3, Ht. split; [exact H3|exact Ht].
Defined.

(** C20: [next] and the iterator agree.  When the keys of the sparse map are 64-bit
    words, the loop that starts with nil and calls [next] with the key it got last
    yields the same pairs in the same order as the iterator, and ends. *)
Theorem next_is_iteration env hash SpecialKeyForBoolean s m : user_key (GetSpecialKeyForMetadataSlot env) ->
  boolean_keys SpecialKeyForBoolean -> means env hash s m -> sparse_words (st_sparse s) ->
  exists L, lists_table env SpecialKeyForBoolean s m L /\
    drain SpecialKeyForBoolean (S (length L)) newTableObjectIterator s = Ok (L, s) /\
    next_all env hash SpecialKeyForBoolean (S (length L)) Nil s = Ok (L, s).
Proof.
  intros Hsp Hb Hm Hw. destruct (iterated env hash SpecialKeyForBoolean s m Hsp Hb Hm) as (L & HL & Hd & Hn).
  exists L. split_and!; [done|done|by apply Hn].
Qed.

Lemma next_is_iteration_witness : exists L,
  next_all sample_env sample_hash sample_boolean (S (length L)) Nil sample_visited = Ok (L, sample_visited) /\
  mkKV (CreatePointer (sample_key 3)) (CreateInt32 1) ∈ L.
Proof.
  destruct (next_is_iteration sample_env sample_hash sample_boolean sample_visited sample_visited_meaning sample_special sample_booleans
    sample_visited_means sample_visited_words) as (L & [_ Hnamed _ _] & _ & HL).
  exists L. split; [exact HL|].
  pose proof (Hnamed (sample_key 3) ltac:(by apply (bool_decide_unpack _); vm_compute) ltac:(by vm_compute)) as H3.
  clear - H3. vm_compute in H3. exact H3.
Defined.

(** C21: a program may assign to existing fields while it traverses a table.  The
    assignment of any value, nil included, to a named field that is not nil cannot
    fail; [next] of the key of any pair then goes on with the pairs that followed it
    before, the field with its new value or, when that is nil, left out. *)
Theorem assignment_during_traversal env hash SpecialKeyForBoolean s m isString key x :
  user_key (GetSpecialKeyForMetadataSlot env) -> boolean_keys SpecialKeyForBoolean -> means env hash s m ->
  sparse_words (st_sparse s) -> property_key env isString key -> IsNil (named_value m key) = false ->
  exists L s', drain SpecialKeyForBoolean (S (length L)) newTableObjectIterator s = Ok (L, s) /\
    RawPutById env isString key x s = Ok (tt, s') /\
    means env hash s' (mkMeaning (write (named_value m) key x) (metatable m) (element m)) /\
    forall L1 kv L2, L = L1 ++ kv :: L2 ->
      let rest := assign (seen_key SpecialKeyForBoolean (st_hc s) (m_hiddenClass (st_table s)) key) x L2 in
      next_all env hash SpecialKeyForBoolean (S (length rest)) (kv_key kv) s' = Ok (rest, s').
Proof.
  intros Hsp [Hu Hd] (K & v & sc & Hw & Hg) Hwords Hkey Hval. destruct m as [f mt g]. simpl in Hw, Hg, Hval.
  pose proof Hkey as (Huk & Hne & _). pose proof (wh_props _ _ _ _ _ _ _ _ Hw) as Hp.
  assert (GeneralHeapPointer key ∈ pv_keys v) as Hin.
  { destruct (sd_content _ _ _ _ (pa_stored _ _ _ _ _ _ Hp) key Huk Hne) as [(o & Ho & _)|[_ He]];
      [by eapply list_elem_of_lookup_2|rewrite He in Hval; by vm_compute in Hval]. }
  destruct (wp_returns _ _ _ (RawPutById_overwrites env Hsp K s v f mt isString key x Hp Hkey Hin)) as ([] & s' & E & slot & Hat & Hover).
  destruct (named_cells_exist env hash SpecialKeyForBoolean s K v f mt sc Hw) as (nc & Hnc).
  pose proof (assigned_whole env hash s K v f mt sc Hw key x slot s' Hover (keeps_RawPutById env isString key x s tt s' E)) as Hw'.
  exists (all_pairs s v nc), s'. split; [by apply (drain_spec env hash SpecialKeyForBoolean s K v f mt sc Hw nc Hnc); [left|]|].
  split; [exact E|]. split; [by eexists K, _, sc|]. intros L1 kv L2 HL rest.
  destruct (place_of_pair s v nc L1 kv L2 HL) as (it & Hc & Hafter).
  eapply (next_all_from env hash SpecialKeyForBoolean s' K _ _ mt sc Hw' _
    (assigned_named env hash SpecialKeyForBoolean s K v f mt sc Hw nc Hnc key x slot s' Huk Hne Hval Hat Hover)).
  - by rewrite (ow_sparse _ _ _ _ _ _ _ _ _ _ Hover).
  - eapply (assigned_place env hash SpecialKeyForBoolean s K v f mt sc Hw); try done.
    by apply (cell_key_place env hash SpecialKeyForBoolean s K v f mt sc Hw nc Hnc).
  - unfold rest. rewrite <- Hafter. by apply (pairs_after_assign env hash SpecialKeyForBoolean s K v f mt sc Hw).
Qed.

Lemma assignment_during_traversal_witness : exists s',
  RawPutById sample_env true (sample_boolean true) Nil sample_visited = Ok (tt, s') /\
  means sample_env sample_hash s' (mkMeaning (write (named_value sample_visited_meaning) (sample_boolean true) Nil) (metatable sample_visited_meaning)
    (element sample_visited_meaning)).
Proof.
  destruct (assignment_during_traversal sample_env sample_hash sample_boolean sample_visited sample_visited_meaning true
    (sample_boolean true) Nil sample_special sample_booleans sample_visited_means sample_visited_words
    ltac:(by apply (bool_decide_unpack _); vm_compute) ltac:(by vm_compute)) as (L & s' & _ & E & Hm & _).
  exists s'. split; [exact E|exact Hm].
Defined.

(** ** Boolean keys *)

(** C38: the keys [false] and [true].  A boolean key is stored under a special string.
    In a table whose hidden class is a structure the iteration gives it back as the
    boolean; in a dictionary it gives the special string to the program, and never
    the boolean. *)
Theorem boolean_key_iteration env hash SpecialKeyForBoolean s m b : user_key (GetSpecialKeyForMetadataSlot env) ->
  boolean_keys SpecialKeyForBoolean -> means env hash s m -> SpecialKeyForBoolean b <> GetSpecialKeyForMetadataSlot env ->
  IsNil (named_value m (SpecialKeyForBoolean b)) = false ->
  exists L, drain SpecialKeyForBoolean (S (length L)) newTableObjectIterator s = Ok (L, s) /\
    let as_boolean := mkKV (CreateBoolean b) (named_value m (SpecialKeyForBoolean b)) in
    let as_string := mkKV (CreatePointer (SpecialKeyForBoolean b)) (named_value m (SpecialKeyForBoolean b)) in
    match structures (st_hc s) !! m_hiddenClass (st_table s) with
    | Some _ => as_boolean ∈ L /\ Forall (fun kv => kv_key kv <> kv_key as_string) L
    | None => as_string ∈ L /\ Forall (fun kv => kv_key kv <> kv_key as_boolean) L
    end.
Proof.
  intros Hsp Hb Hm Hne Hval. destruct (iterated env hash SpecialKeyForBoolean s m Hsp Hb Hm) as (L & [Hpairs Hnamed _ _] & Hd & _).
  destruct Hb as [Hu Hdist]. assert (property_key env false (SpecialKeyForBoolean b)) as Hk by (by split_and!).
  specialize (Hnamed _ Hk Hval). unfold seen_key in *.
  assert (forall k, IsNaN k = false -> CreateDouble k <> CreateBoolean b /\ CreateDouble k <> CreatePointer (SpecialKeyForBoolean b)) as Hnum.
  { unfold CreateDouble. intros k Hn. split; intros ->; [by destruct b|].
    assert (IsNaN (CreatePointer (SpecialKeyForBoolean b)) = true) as Hp; [|congruence].
    apply (box_not_double_NaN (LPointer _)); [by apply user_key_pointer|].
    pose proof (tests_pointer _ (user_key_pointer _ (Hu b))) as Ht. by injection Ht. }
  assert (forall key, structure_key SpecialKeyForBoolean key <> CreatePointer (SpecialKeyForBoolean b) \/ ~ user_key key) as Hstr.
  { intros key. destruct (structure_key_cases SpecialKeyForBoolean key) as [(b' & _ & ->)|[Hno ->]]; [left|].
    - intros He. by destruct (pointer_not_boolean (SpecialKeyForBoolean b) b').
    - destruct (decide (user_key key)) as [Hk'|]; [left|by right]. intros He%CreatePointer_inj; [|done..]. by destruct (Hno b). }
  exists L. split; [done|]. cbv zeta. destruct (structures (st_hc s) !! _); simpl.
  - split.
    + replace (CreateBoolean b) with (structure_key SpecialKeyForBoolean (SpecialKeyForBoolean b)); [done|]. unfold structure_key.
      destruct b; [|by rewrite Z.eqb_refl]. rewrite (proj2 (Z.eqb_neq _ _)) by congruence. by rewrite Z.eqb_refl.
    + apply Forall_forall. intros kv [_ [(key & (Hk' & _) & ->)|(k & Hn & ->)]]%Hpairs; simpl; [|by apply Hnum].
      by destruct (Hstr key).
  - split; [done|]. apply Forall_forall. intros kv [_ [(key & (Hk' & _) & ->)|(k & Hn & ->)]]%Hpairs; simpl; [|by apply Hnum].
    by apply pointer_not_boolean.
Qed.

Lemma boolean_key_iteration_witness :
  (exists L, drain sample_boolean (S (length L)) newTableObjectIterator sample_visited = Ok (L, sample_visited) /\
     mkKV CreateTrue (CreateInt32 2) ∈ L) /\
  (exists L, drain sample_boolean (S (length L)) newTableObjectIterator sample_global = Ok (L, sample_global) /\
     mkKV (CreatePointer (sample_boolean true)) (CreateInt32 2) ∈ L /\ Forall (fun kv => kv_key kv <> CreateTrue) L).
Proof.
  split.
  - destruct (boolean_key_iteration sample_env sample_hash sample_boolean sample_visited sample_visited_meaning true sample_special
      sample_booleans sample_visited_means ltac:(done) ltac:(by vm_compute)) as (L & HL & Hin).
    exists L. split; [exact HL|]. destruct (structures (st_hc sample_visited) !! _) as [st|] eqn:E; [|exfalso; by vm_compute in E].
    destruct Hin as [Hin _]. clear - Hin. vm_compute in Hin. exact Hin.
  - destruct (boolean_key_iteration sample_env sample_hash sample_boolean sample_global sample_global_meaning true sample_special
      sample_booleans sample_global_means ltac:(done) ltac:(by vm_compute)) as (L & HL & Hin).
    exists L. split; [exact HL|]. destruct (structures (st_hc sample_global) !! _) as [st|] eqn:E; [exfalso; by vm_compute in E|].
    destruct Hin as [Hin Hno]. split; [|exact Hno]. clear - Hin. vm_compute in Hin. exact Hin.
Defined.
