(* ===== verification/WorldProperties.v ===== *)
(** * Properties of programs with many tables

    Tables, clones and global objects in one world, and the clone of table-dup
    bytecodes, with their instances on a sample world. *)

From S2P Require Import Prelude Double TValue MiscMath Machine TypeMask ArrayType Butterfly SparseMap HiddenClass TableObject TableArray TableTheorems Probing CheckedTable ClassHeap Structure Transition ClassInv ClassLookup ClassFrame ClassCreate ClassTransition ClassQuery ClassOps ClassView ClassTheorems Dictionary TableClasses NamedProps NamedInv NamedPut NamedTransition NamedMeta TableWhole TableHistory TableProperties TableCreate TableClone TableWorld.

(** The program before its first operation. *)
Lemma stands_nothing env hash h heap sparse tables : user_key (GetSpecialKeyForMetadataSlot env) -> reachable env h ->
  world_ok h heap sparse -> stands env hash h [] (mkWorld h heap sparse tables) [].
Proof.
  intros Hu Hr Hw. destruct (reachable_inv env Hu h Hr) as (K & Hci & _). split; try done; [by split; [exists K|]|apply NoDup_nil_2].
Qed.

(** C1: tables are independent maps.  A program makes tables, with empty structures
    that are there at the start and an initial vector of at most
    [x_alwaysVectorCutoff] (1000) elements, and global objects, clones tables, and
    puts values and metatables into them, by any of its variables, in any order.
    Keys are objects, and numbers other than NaN.  (Of tables made with a larger
    vector, the subject of [preallocated_put_is_lost], this does not hold.)  Either
    it runs to its end, and then the tables of its variables are distinct and every one is the map that the
    operations on this variable, and before it was cloned on the original, have
    made: gets by name and by index return the last value written, nil if there is
    none, and the metatable is the last one set.  Or the process stops at an
    operation that finds its resources exhausted.  Nothing is undefined. *)
Theorem tables_are_independent env hash garbage h heap sparse ops :
  user_key (GetSpecialKeyForMetadataSlot env) -> reachable env h -> world_ok h heap sparse -> program_ok env h 0 ops ->
  let ms := foldl world_after [] ops in
  (exists vars w, run_program env hash garbage ops ([], mkWorld h heap sparse ∅) = Ok (tt, (vars, w)) /\
     length vars = length ms /\ NoDup vars /\
     forall x a m, vars !! x = Some a -> ms !! x = Some m -> exists t, w_tables w !! a = Some t /\
       let s := at_table w t in
       (forall isString key, property_key env isString key -> RawGetById env isString key s = Ok (named_value m key, s)) /\
       (forall k, GetByDoubleVal hash k (PrepareGetByIntegerIndex (m_arrayType t)) s = Ok (element m k, s)) /\
       (exists mt, GetMetatable s = Ok (mt, s) /\ gm_result mt = metatable m)) \/
  (run_program env hash garbage ops ([], mkWorld h heap sparse ∅) = VMFail /\ exists ops1 op ops2 p, ops = ops1 ++ op :: ops2 /\
     run_program env hash garbage ops1 ([], mkWorld h heap sparse ∅) = Ok (tt, p) /\ world_exhausted env op p).
Proof.
  intros Hu Hr Hw Hops ms. pose proof (stands_nothing env hash h heap sparse ∅ Hu Hr Hw) as Hst.
  destruct (run_program_spec env hash garbage Hu h ops [] _ [] Hst Hops) as [(vars & w & E & [])|Hf]; [left|by right].
  exists vars, w. split_and!; try done. intros x a m Ha Hm. destruct (sd_means x a m Ha Hm) as (t & Ht & Hmean).
  exists t. split; [done|]. destruct (means_reads env hash _ _ Hmean) as (? & ? & ?). by split_and!.
Qed.

Definition sample_program : list WorldOp :=
  [NewTable sample_root 4; NewGlobal; OnTable 0 (PutNamed true (sample_key 3) (CreateInt32 1)); OnTable 0 (PutInteger 1 (CreateInt32 10));
   CloneTable 0; OnTable 2 (PutNamed true (sample_key 3) (CreateInt32 2)); OnTable 1 (PutNamed true (sample_key 3) (CreateInt32 3));
   CloneTable 1; OnTable 1 (PutNamed true (sample_key 4) (CreateInt32 4)); OnTable 2 (SetMeta (sample_key 50))].

Lemma sample_program_ok : program_ok sample_env sample_base 0 sample_program.
Proof.
  destruct sample_view_ok as (Hd & He & _). unfold sample_program, program_ok, world_op_ok, variables_after.
  split_and!; try done; try lia; try (by apply (bool_decide_unpack _); vm_compute).
  by exists sample_view.
Qed.

Lemma sample_meanings : exists m0 m1 m2 m3, foldl world_after [] sample_program = [m0; m1; m2; m3] /\
  named_value m0 (sample_key 3) = CreateInt32 1 /\ named_value m3 (sample_key 3) = CreateInt32 3 /\ named_value m3 (sample_key 4) = Nil.
Proof. eexists _, _, _, _. split; [reflexivity|]. split_and!; by vm_compute. Qed.

(** The original keeps its field when the clone's is assigned; so does the clone of
    the global object, which has no field made later. *)
Lemma tables_are_independent_witness : exists vars w a0 t0 a3 t3,
  run_program sample_env sample_hash 0 sample_program ([], mkWorld sample_base initUserHeap ∅ ∅) = Ok (tt, (vars, w)) /\
  vars !! 0%nat = Some a0 /\ w_tables w !! a0 = Some t0 /\ vars !! 3%nat = Some a3 /\ w_tables w !! a3 = Some t3 /\
  RawGetById sample_env true (sample_key 3) (at_table w t0) = Ok (CreateInt32 1, at_table w t0) /\
  RawGetById sample_env true (sample_key 3) (at_table w t3) = Ok (CreateInt32 3, at_table w t3) /\
  RawGetById sample_env true (sample_key 4) (at_table w t3) = Ok (Nil, at_table w t3).
Proof.
  destruct sample_meanings as (m0 & m1 & m2 & m3 & Em & V0 & V3 & V4).
  destruct (tables_are_independent sample_env sample_hash 0 sample_base initUserHeap ∅ sample_program
    sample_special sample_base_reachable sample_world sample_program_ok) as [(vars & w & E & Hl & _ & Hv)|[E _]].
  - rewrite Em in Hl, Hv. destruct vars as [|a0 [|a1 [|a2 [|a3 [|? ?]]]]]; try discriminate Hl.
    assert (forall n, 3 <= n <= 4 -> property_key sample_env true (sample_key n)) as Hk.
    { intros n Hn. assert (n = 3 \/ n = 4) as [->| ->] by lia; by apply (bool_decide_unpack _); vm_compute. }
    destruct (Hv 0%nat a0 m0 eq_refl eq_refl) as (t0 & H0 & Hget0 & _), (Hv 3%nat a3 m3 eq_refl eq_refl) as (t3 & H3 & Hget3 & _).
    exists [a0; a1; a2; a3], w, a0, t0, a3, t3.
    split; [exact E|]. split; [reflexivity|]. split; [exact H0|]. split; [reflexivity|]. split; [exact H3|].
    rewrite <- V0, <- V3, <- V4. split; [apply Hget0, Hk; lia|]. split; apply Hget3, Hk; lia.
  - exfalso. by vm_compute in E.
Defined.

(** The clone for table-dup bytecodes is the clone.  For a table whose hidden
    class is a structure without outlined properties and that has no sparse map, the
    variant that is told the inline capacity and whether there is a butterfly does
    exactly what [ShallowCloneTableObject] does, when it stops the process too. *)
Theorem table_dup_is_clone env hash s m v : means env hash s m -> describe (st_hc s) (m_hiddenClass (st_table s)) = Some v ->
  v_butterfly v = 0 -> HasSparseMap (m_arrayType (st_table s)) = false ->
  ShallowCloneTableObjectForTableDup (v_inline v) (bool_decide (is_Some (m_butterfly (st_table s)))) s = ShallowCloneTableObject s.
Proof.
  intros (K & pv & sc & Hw & _) Hd Hbf Hsp. pose proof Hw as [[Hci Hcl _] _ _ _ _]. pose proof (ci_heap _ _ _ Hci) as Hinv.
  destruct (info_describe env _ K _ v Hinv Hd) as (i & Hi & ->). simpl in *. destruct Hcl as [[i' Hi']|[d Hd']].
  - pose proof Hi' as []. assert (i' = i) as -> by congruence.
    rewrite <- sv_inline. eapply (ShallowCloneTableObjectForTableDup_same env hash K s pv); try done. congruence.
  - destruct Hd'. rewrite (hi_disjoint _ _ _ Hinv) in Hi; [done|by eexists].
Qed.

Lemma table_dup_is_clone_witness : exists r t s',
  ShallowCloneTableObjectForTableDup 2 true sample_class_table = Ok ((r, t), s') /\
  ShallowCloneTableObject sample_class_table = Ok ((r, t), s').
Proof.
  destruct sample_view_ok as (Hd & (_ & _ & _ & Hb) & Hi).
  assert (m_hiddenClass (st_table sample_class_table) = sample_root /\ st_hc sample_class_table = sample_base) as [Hc Hh] by (by vm_compute).
  pose proof (table_dup_is_clone sample_env sample_hash sample_class_table empty_meaning sample_view sample_table_means
    ltac:(by rewrite Hc, Hh) Hb ltac:(by vm_compute)) as E.
  rewrite Hi in E. rewrite bool_decide_true in E by (by eexists; vm_compute).
  destruct (ShallowCloneTableObject sample_class_table) as [[[r t] s']| |] eqn:Ec; [by exists r, t, s'|exfalso; by vm_compute in Ec..].
Defined.
