(* ===== verification/Metatables.v ===== *)
(** * Metatables and metamethods ([runtime/vm.h], [runtime/table_object.h], [runtime/runtime_utils.h])

    The lookup of metatables and metamethods, over the tables of a world: the
    metatable of any value, the metamethod of a value, of two operands, and the
    callee of a value that is called. *)

From S2P Require Import Prelude Double TValue MiscMath Machine TypeMask ArrayType Butterfly SparseMap HiddenClass TableObject TableArray TableTheorems Probing CheckedTable ClassHeap Structure Transition ClassInv ClassLookup ClassFrame ClassCreate ClassTransition ClassQuery ClassOps ClassView ClassTheorems Dictionary TableClasses NamedProps NamedInv NamedPut NamedTransition NamedMeta TableWhole TableHistory TableCreate TableClone TableWorld.

(** [METAMETHOD_NAME_LIST]. *)
Module LuaMetamethodKind.
Inductive t :=
| Call | Add | Sub | Mul | Div | Mod | Pow | Unm | Concat | Len | Eq | Lt | Le | Index | NewIndex | ProtectedMt.
Definition ordinal (k : t) : Z :=
  match k with
  | Call => 0 | Add => 1 | Sub => 2 | Mul => 3 | Div => 4 | Mod => 5 | Pow => 6 | Unm => 7
  | Concat => 8 | Len => 9 | Eq => 10 | Lt => 11 | Le => 12 | Index => 13 | NewIndex => 14 | ProtectedMt => 15
  end.
End LuaMetamethodKind.
Notation LuaMetamethodKind := LuaMetamethodKind.t.

(** The fields of [class VM] that the lookup reads; 0 is the null pointer.  The
    array of names is indexed by the kind, the array of special keys by the
    Boolean. *)
Record VM := mkVM {
  m_stringNameForMetatableKind : LuaMetamethodKind -> Z;
  m_specialKeyForBooleanIndex : bool -> Z;
  m_metatableForNil : Z;
  m_metatableForBoolean : Z;
  m_metatableForNumber : Z;
  m_metatableForString : Z;
  m_metatableForFunction : Z;
  m_metatableForCoroutine : Z
}.

Notation MW := (M World).

(** An operation on the table at an address. *)
Definition on_table {A} (a : Z) (m : MT A) : MW A := fun w =>
  match w_tables w !! a with
  | None => UB
  | Some t =>
      match m (at_table w t) with
      | Ok (x, s) => Ok (x, with_state s (<[a := st_table s]> (w_tables w)))
      | VMFail => VMFail
      | UB => UB
      end
  end.

Section metatables.
Variable env : Env.
Variable vm : VM.

(** [TValue::Is<tTypeMask>()], for the specialisations that can be tested. *)
Definition Is (s : Spec) (v : Z) : bool := default false (check (m_type env) s v).
Notation IsTable := (Is (tHeap Table)).
Notation IsFunction := (Is (tHeap Function_)).

Definition VM_GetStringNameForMetatableKind (kind : LuaMetamethodKind) : Z := m_stringNameForMetatableKind vm kind.
Definition VM_GetSpecialKeyForBoolean (v : bool) : Z := m_specialKeyForBooleanIndex vm v.

Definition RawGetStringPropertyFromTableObject (object prop : Z) : MW Z :=
  icInfo ← on_table object (PrepareGetById env true prop);
  on_table object (GetById icInfo).

Definition GetMetamethodFromMetatable (metatable : Z) (mtKind : LuaMetamethodKind) : MW Z :=
  RawGetStringPropertyFromTableObject metatable (VM_GetStringNameForMetatableKind mtKind).

Definition RawGetAnyHeapEntityMaybeNonStringPropertyFromTableObject (object prop : Z) : MW (Z * GetByIdICInfo.t) :=
  icInfo ← on_table object (PrepareGetById env false prop);
  v ← on_table object (GetById icInfo);
  mret (v, icInfo).

(** [ReleaseAssert] stops the process. *)
Definition GetMetatableForValue (value : Z) : MW Z :=
  if IsPointer value then
    let ty := m_type env (AsPointer value) in
    if bool_decide (ty = Table) then
      result ← on_table (AsPointer value) GetMetatable;
      mret (gm_result result)
    else if bool_decide (ty = String) then mret (m_metatableForString vm)
    else if bool_decide (ty = Function_) then mret (m_metatableForFunction vm)
    else if bool_decide (ty = Thread) then mret (m_metatableForCoroutine vm)
    else vm_fail
  else if IsMIV value then
    if IsNil value then mret (m_metatableForNil vm) else mret (m_metatableForBoolean vm)
  else mret (m_metatableForNumber vm).

(** [None] is [nullptr]. *)
Definition GetCallMetamethodFromMetatableImpl (metatableMaybeNull : Z) : MW (option Z) :=
  if metatableMaybeNull =? 0 then mret None
  else
    target ← GetMetamethodFromMetatable metatableMaybeNull LuaMetamethodKind.Call;
    if IsFunction target then mret (Some (AsPointer target)) else mret None.

Definition GetCallTargetViaMetatable (value : Z) : MW (option Z) :=
  if Is tHeapEntity value then
    let ty := GetHeapEntityType (m_type env) value in
    if bool_decide (ty = Table) then
      result ← on_table (AsPointer value) GetMetatable;
      GetCallMetamethodFromMetatableImpl (gm_result result)
    else if bool_decide (ty = String) then GetCallMetamethodFromMetatableImpl (m_metatableForString vm)
    else if bool_decide (ty = Thread) then GetCallMetamethodFromMetatableImpl (m_metatableForCoroutine vm)
    else vm_fail
  else if Is tNil value then GetCallMetamethodFromMetatableImpl (m_metatableForNil vm)
  else if Is tMIV value then GetCallMetamethodFromMetatableImpl (m_metatableForBoolean vm)
  else GetCallMetamethodFromMetatableImpl (m_metatableForNumber vm).

Definition GetMetamethodForValue (value : Z) (mtKind : LuaMetamethodKind) : MW Z :=
  metatableMaybeNull ← GetMetatableForValue value;
  if negb (metatableMaybeNull =? 0) then GetMetamethodFromMetatable metatableMaybeNull mtKind else mret Nil.

Definition GetMetamethodForBinaryArithmeticOperation (lhs rhs : Z) (mtKind : LuaMetamethodKind) : MW Z :=
  lhsMetatableMaybeNull ← GetMetatableForValue lhs;
  metamethod ← (if negb (lhsMetatableMaybeNull =? 0)
                then GetMetamethodFromMetatable lhsMetatableMaybeNull mtKind else mret Nil);
  if negb (IsNil metamethod) then mret metamethod
  else
    rhsMetatableMaybeNull ← GetMetatableForValue rhs;
    if rhsMetatableMaybeNull =? 0 then mret Nil else GetMetamethodFromMetatable rhsMetatableMaybeNull mtKind.

Definition TableObject_TryQuicklyRuleOutMetamethod (metatable : Z) (mtKind : LuaMetamethodKind) : MW bool :=
  on_table metatable (TryQuicklyRuleOutMetamethod (LuaMetamethodKind.ordinal mtKind)).

(** Primitive equality of two values; it is asserted that neither of them is an
    int32 ("unimplemented"). *)
Definition primitive_equal (lhs rhs : Z) : MW bool :=
  if IsInt32 lhs || IsInt32 rhs then ub
  else mret (if IsDouble lhs then UnsafeFloatEqual (AsDouble lhs) (ViewAsDouble rhs) else lhs =? rhs).

Definition GetMetamethodFromMetatableForComparisonOperation (supportsQuicklyRuleOutMetamethod : bool)
    (lhsMetatable rhsMetatable : Z) (mtKind : LuaMetamethodKind) : MW Z :=
  ruledOut ← (if supportsQuicklyRuleOutMetamethod
              then TableObject_TryQuicklyRuleOutMetamethod lhsMetatable mtKind else mret false);
  if (ruledOut : bool) then mret Nil
  else
    lhsMetamethod ← GetMetamethodFromMetatable lhsMetatable mtKind;
    if IsNil lhsMetamethod then mret lhsMetamethod
    else
      ruledOut ← (if supportsQuicklyRuleOutMetamethod
                  then TableObject_TryQuicklyRuleOutMetamethod rhsMetatable mtKind else mret false);
      if (ruledOut : bool) then mret Nil
      else
        rhsMetamethod ← GetMetamethodFromMetatable rhsMetatable mtKind;
        equal ← primitive_equal lhsMetamethod rhsMetamethod;
        if (equal : bool) then mret lhsMetamethod else mret Nil.

Definition GetNewIndexMetamethodFromTableObject (tableObj : Z) : MW Z :=
  gmr ← on_table tableObj GetMetatable;
  if negb (gm_result gmr =? 0) then
    ruledOut ← TableObject_TryQuicklyRuleOutMetamethod (gm_result gmr) LuaMetamethodKind.NewIndex;
    if negb ruledOut then GetMetamethodFromMetatable (gm_result gmr) LuaMetamethodKind.NewIndex else mret Nil
  else mret Nil.
End metatables.
