(* ===== verification/Metamethods.v ===== *)
(** * The metamethods of values

    What the functions of [Metatables] find, in terms of the maps the tables of a
    world mean.  The metatable of a value depends on its type, a metamethod is a
    field of the metatable; the bits of the hidden class that rule a metamethod out
    are never wrong. *)

From S2P Require Import Prelude Double TValue MiscMath Machine TypeMask ArrayType Butterfly SparseMap HiddenClass TableObject TableArray TableTheorems Probing CheckedTable ClassHeap Structure Transition ClassInv ClassLookup ClassFrame ClassCreate ClassTransition ClassQuery ClassOps ClassView ClassTheorems Dictionary TableClasses NamedProps NamedInv NamedPut NamedTransition NamedMeta TableWhole TableHistory TableCreate TableClone TableWorld Metatables.

(** ** Reads of one table *)

Section reads.
Variable env : Env.
Variable hash : Z -> Z.
Notation St := (TableObject.St SysHeap).
Implicit Types (s : St).
Notation means := (means env hash).
Hypothesis special_user : user_key (GetSpecialKeyForMetadataSlot env).

(** A look-up that finds no metatable in the hidden class is right. *)
Lemma PrepareGetById_reads s m isString key : means s m -> property_key env isString key ->
  exists ic, PrepareGetById env isString key s = Ok (ic, s) /\ GetById ic s = Ok (named_value m key, s) /\
    (GetByIdICInfo.m_mayHaveMetatable ic = false -> metatable m = 0).
Proof.
  intros (K & v & sc & Hw & _) Hk. destruct Hw as [Hp _ _ _ _]. pose proof Hk as (Hu & Hsp & _). pose proof Hp as [[Hinv _] Hcl _].
  assert (exists ic, PrepareGetByIdImpl env isString (st_hc s) (m_hiddenClass (st_table s)) key = Some ic /\
    wp (GetById ic) s (fun x s' => x = named_value m key /\ s' = s) False /\
    (GetByIdICInfo.m_mayHaveMetatable ic = false -> metatable m = 0)) as (ic & E & Hget & Hmt).
  { destruct Hcl as [[i Hi]|[d Hd]].
    - pose proof Hi as []. destruct (structure_type env K s i Hinv sv_info) as (c & Hs & Hc & Ht).
      destruct (Structure_find_spec env K _ c i isString key Hinv Hc Hk) as (r & Hr & Hm).
      eexists. split; [unfold PrepareGetByIdImpl, PrepareGetByIdImplForStructure; rewrite Ht; cbn [mbind option_bind]; rewrite Hs;
        cbn [mbind option_bind]; rewrite Hr; done|].
      rewrite (cl_inline _ _ _ _ _ Hc), (cl_metatable _ _ _ _ _ Hc), <- sv_inline. rewrite <- sv_keys in Hm. split.
      + eapply read_found; try done. by left.
      + assert (i_metatable i = 0 -> metatable m = 0) as Hz by (intros Hz; rewrite sv_metatable; unfold struct_metatable; by rewrite Hz).
        destruct r as [slot|]; [unfold get_ic; destruct (slot <? _)|]; simpl; rewrite negb_false_iff, Z.eqb_eq; done.
    - pose proof Hd as []. destruct (dictionary_type env K _ _ d Hinv dv_info) as [_ Ht].
      destruct (Dictionary_find_spec env d _ isString key dv_ok Hk) as (r & Hr & Hm).
      eexists. split; [unfold PrepareGetByIdImpl, PrepareGetByIdImplForCacheableDictionary; rewrite Ht; cbn [mbind option_bind];
        rewrite dv_info; cbn [mbind option_bind]; rewrite Hr; done|].
      rewrite <- dv_inline, <- dv_metatable. split.
      + eapply read_found; try done. by right.
      + destruct r as [slot|]; [unfold get_ic; destruct (slot <? _)|]; simpl; rewrite negb_false_iff, Z.eqb_eq; done. }
  exists ic. split_and!; [|by destruct (wp_returns _ _ _ Hget) as (x & s' & -> & -> & ->)|done].
  unfold PrepareGetById. rewrite (bind_ok _ _ s (st_table s) s) by done.
  unfold on_heap, query. rewrite get_bind, E. unfold access. by destruct s.
Qed.

Lemma GetMetatable_reads s m : means s m -> exists r, GetMetatable s = Ok (r, s) /\ gm_result r = metatable m.
Proof.
  intros (K & v & sc & Hw & _). assert (props env s (named_value m) (metatable m)) as Hp by (by exists K, v; apply Hw).
  destruct (wp_returns _ _ _ (GetMetatable_spec env s _ _ Hp)) as (r & s' & E & Hr & ->). by exists r.
Qed.

(** A metamethod that the bits rule out is nil. *)
Lemma TryQuicklyRuleOutMetamethod_reads s m kind name : means s m -> 0 <= kind < 16 -> property_key env true name ->
  GetMetamethodOrdinalFromStringName env name = kind ->
  exists r, TryQuicklyRuleOutMetamethod kind s = Ok (r, s) /\ (r = true -> named_value m name = Nil).
Proof.
  intros (K & v & sc & Hw & _) Hkind (Hu & Hsp & Hstr) Hord. destruct Hw as [Hp _ _ _ _].
  pose proof Hp as [[Hinv _ Hgrown] Hcl [_ _ Hcont]]. unfold TryQuicklyRuleOutMetamethod.
  rewrite (bind_ok _ _ s (st_table s) s) by done.
  assert (forall f : SysHeap -> MT bool, (on_heap get_st ≫= f) s = f (st_hc s) s) as Hget by (intros f; by destruct s).
  rewrite Hget. destruct Hcl as [[i Hi]|[d Hd]].
  - pose proof Hi as []. destruct (structure_type env K s i Hinv sv_info) as (c & Hs & Hc & _). rewrite Hs.
    eexists. split; [done|]. rewrite (cl_nonexistent _ _ _ _ _ Hc), negb_true_iff, Z.eqb_neq. intros Hbit.
    specialize (Hcont name Hu Hsp). assert (GeneralHeapPointer name ∉ pv_keys v) as Hno; [|by apply (value_of_absent _ _ _ _ Hno Hcont)].
    rewrite sv_keys. intros Hin. apply (metamethod_bits_info env special_user K Hgrown _ i sv_info kind Hkind) with (GeneralHeapPointer name) in Hin.
    + apply Hin. rewrite (proj2 (user_key_spec name Hu)). split_and!; try done. by apply Hstr.
    + destruct (Z.testbit (i_nonexistent i) kind) eqn:Eb; [done|exfalso; apply Hbit]. apply Z.bits_inj'. intros n Hn.
      rewrite Z.land_spec, Z.bits_0. unfold wrapu. destruct (Z.lt_ge_cases n 16).
      * rewrite Z.mod_pow2_bits_low, Z.shiftl_1_l, Z.pow2_bits_eqb by lia. destruct (Z.eqb_spec kind n) as [->|]; [by rewrite Eb|apply andb_false_r].
      * rewrite Z.mod_pow2_bits_high by lia. apply andb_false_r.
  - pose proof Hd as []. destruct (dictionary_type env K _ _ d Hinv dv_info) as [Hn _]. rewrite Hn, dv_info. by exists false.
Qed.
End reads.

(** The read of a continuous array without the look at its capacity. *)
Section continuous.
Context {Hc : Type} `{HiddenClassLaws Hc} (hash : Z -> Z).
Implicit Types (s : TableObject.St Hc).

Lemma continuous_read s key i : inv hash s -> IsInt64Index key = Some i -> IsContinuous (m_arrayType (st_table s)) = true ->
  exists b, CheckIndexFitsInContinuousArray i s = Ok (b, s) /\
    if b then on_butterfly (fun b => GetInVector b i) s = Ok (array_content s key, s) /\ array_content s key <> Nil
    else array_content s key = Nil.
Proof.
  intros [_ Hp] Hk Hcont. pose proof (IsInt64Index_Some key i Hk) as (Hi & _ & _).
  destruct Hp as [(_ & _ & (_ & ? & _))|(named & len & cap & vec & sc & Hp)]; [congruence|].
  rewrite (parts_content hash s _ _ _ _ _ key Hp). pose proof Hp as (Hb & Hok & _ & Hsh). pose proof Hok as [Hlen Hcap Hvec _].
  destruct Hsh as [(_ & ? & _)|Hn Hc' Hs Hv Hl Hnil Hkind|? ?|? ? ?]; try congruence.
  exists ((1 <=? i) && (i <=? len)). unfold CheckIndexFitsInContinuousArray, on_butterfly.
  rewrite !bind_assoc. rewrite !(bind_ok _ _ s (st_table s) s) by done. rewrite Hb. simpl. rewrite m_arrayLengthIfContinuous_mk by done.
  rewrite (access_bind _ len), CanUseFastPath_spec by (done || lia). split; [done|]. unfold cont_of. rewrite Hk.
  destruct (Z.leb_spec 1 i) as [H1|H1]; simpl; [|done]. destruct (Z.leb_spec i len) as [H2|H2].
  - rewrite (proj2 (Z.leb_le i cap)) by lia. rewrite GetInVector_mk by lia.
    destruct (lookup_lt_is_Some_2 vec (Z.to_nat (i - 1))) as [x Hx]; [lia|]. rewrite Hx. split; [done|]. simpl. intros Hx0.
    assert (IsNil x = false) as Hf by (apply (Hnil _ x Hx); lia). unfold IsNil in Hf. rewrite Hx0 in Hf. done.
  - destruct (Z.leb_spec i cap); [|done]. destruct (vec !! _) as [x|] eqn:Hx; [|done]. simpl.
    destruct (IsNil x) eqn:E; [by apply Z.eqb_eq in E|]. apply (Hnil _ x Hx) in E. lia.
Qed.
End continuous.

Section elements.
Variable env : Env.
Variable hash : Z -> Z.
Notation St := (TableObject.St SysHeap).
Implicit Types (s : St).
Notation means := (means env hash).
Notation prepared s := (PrepareGetByIntegerIndex (m_arrayType (st_table s))).

(** The array type knows whether there is a metatable. *)
Lemma arrayType_metatable s m : means s m -> MayHaveMetatable (m_arrayType (st_table s)) = false -> metatable m = 0.
Proof.
  intros (K & v & sc & [[[_ _ Hgrown] Hcl _] _ _ _ _] & _) Hmt. destruct Hcl as [[i []]|[d []]].
  - rewrite sv_arrayType, (metatable_flag_info env K Hgrown _ i sv_info), negb_false_iff, Z.eqb_eq in Hmt.
    rewrite sv_metatable. unfold struct_metatable. by rewrite Hmt.
  - rewrite dv_arrayType, negb_false_iff, Z.eqb_eq in Hmt. done.
Qed.

Lemma integer_reads s m key i : means s m -> IsInt64Index key = Some i ->
  GetByIntegerIndex hash i (prepared s) s = Ok (element m key, s).
Proof. intros Hs Hk. destruct (means_reads env hash s m Hs) as (_ & _ & He). rewrite <- He. unfold GetByDoubleVal. by rewrite Hk. Qed.

Lemma double_reads s m key : means s m -> IsInt64Index key = None ->
  match GetByIntegerIndexICInfo.m_icKind (prepared s) with
  | GetByIntegerIndexICInfo.VectorStorageOrSparseMap
  | GetByIntegerIndexICInfo.VectorStorageXorSparseMap => QueryArraySparseMap hash key
  | _ => mret Nil
  end s = Ok (element m key, s).
Proof.
  intros Hs Hk. destruct (means_reads env hash s m Hs) as (_ & _ & He). rewrite <- He. unfold GetByDoubleVal. rewrite Hk.
  by destruct (GetByIntegerIndexICInfo.m_icKind _).
Qed.

Lemma continuous_reads s m key i : means s m -> IsInt64Index key = Some i -> IsContinuous (m_arrayType (st_table s)) = true ->
  exists b, CheckIndexFitsInContinuousArray i s = Ok (b, s) /\
    if b then on_butterfly (fun b => GetInVector b i) s = Ok (element m key, s) /\ element m key <> Nil else element m key = Nil.
Proof.
  intros Hs Hk Hc. destruct (put_whole env hash s _ _ _ Hs) as (N & Hinv & Hcont & _).
  rewrite <- Hcont. exact (@continuous_read _ _ (named_laws env N (st_hc s)) hash s key i Hinv Hk Hc).
Qed.
End elements.

(** ** Metatables and metamethods of values *)

(** A value a program can hold; this runtime makes no userdata. *)
Definition lua_value (env : Env) (v : Z) : Prop :=
  exists x, v = box x /\ LuaValue_valid x = true /\
    match x with
    | LPointer p => m_type env p ∈ [String; Function_; Thread; Table]
    | LMIV m => m <> MIV.x_impossible_value
    | _ => True
    end.

#[export] Instance lua_value_dec env v : Decision (lua_value env v).
Proof.
  refine (cast_if (decide (v = box (unbox v) /\ LuaValue_valid (unbox v) = true /\
    match unbox v with
    | LPointer p => bool_decide (m_type env p ∈ [String; Function_; Thread; Table])
    | LMIV m => negb (m =? MIV.x_impossible_value)
    | _ => true
    end = true))).
  - abstract (exists (unbox v); destruct a as (? & ? & Hm); split_and!; try done; destruct (unbox v); try done;
      [by apply Z.eqb_neq, negb_true_iff|by apply bool_decide_eq_true in Hm]).
  - abstract (intros (x & -> & Hx & Hm); apply n; rewrite unbox_box_lemma by done; split_and!; try done; destruct x; try done;
      [by apply negb_true_iff, Z.eqb_neq|by apply bool_decide_eq_true]).
Defined.

(** The VM makes no int32 values yet: the code for them is there, but some of it is
    asserted not to run. *)
Definition not_int32 (v : Z) : Prop := forall i, unbox v <> LInt32 i.

#[export] Instance not_int32_dec v : Decision (not_int32 v).
Proof.
  refine (match unbox v as x return unbox v = x -> _ with LInt32 _ => fun E => right _ | _ => fun E => left _ end eq_refl);
    abstract (unfold not_int32; rewrite E; naive_solver).
Defined.

(** No table holds an int32. *)
Definition int32_free (tables : gmap Z Meaning) : Prop :=
  forall p m, tables !! p = Some m -> (forall key, not_int32 (named_value m key)) /\ (forall k, not_int32 (element m k)).

(** No table has an array part for int32 values. *)
Definition no_int32_arrays (w : World) : Prop := forall a t, w_tables w !! a = Some t -> ArrayKind (m_arrayType t) <> Int32.

Section values.
Variable env : Env.
Variable vm : VM.
Variable tables : gmap Z Meaning.
Notation name := (m_stringNameForMetatableKind vm).

Definition table_of (v : Z) : option Meaning := match unbox v with LPointer p => tables !! p | _ => None end.

Definition metatable_of (v : Z) : Z :=
  match unbox v with
  | LPointer p =>
      match m_type env p with
      | Table => from_option metatable 0 (tables !! p)
      | String => m_metatableForString vm
      | Function_ => m_metatableForFunction vm
      | Thread => m_metatableForCoroutine vm
      | _ => 0
      end
  | LMIV m => if m =? MIV.x_nil then m_metatableForNil vm else m_metatableForBoolean vm
  | LDouble _ | LInt32 _ => m_metatableForNumber vm
  end.

(** The field of a metatable, [Nil] when there is none. *)
Definition metafield (metatable : Z) (kind : LuaMetamethodKind) : Z :=
  from_option (fun m => named_value m (name kind)) Nil (tables !! metatable).
Definition metamethod (v : Z) (kind : LuaMetamethodKind) : Z := metafield (metatable_of v) kind.

Definition table_or_null (p : Z) : Prop := p = 0 \/ is_Some (tables !! p).

Definition vm_metatables : list Z :=
  [m_metatableForNil vm; m_metatableForBoolean vm; m_metatableForNumber vm; m_metatableForString vm;
   m_metatableForFunction vm; m_metatableForCoroutine vm].

(** Metatables are tables, tables hold values, and the VM knows the names of the
    metamethods. *)
Record closed : Prop := {
  co_type : forall p, m_type env p = Table <-> is_Some (tables !! p);
  co_null : tables !! 0 = None;
  co_metatables : forall p m, tables !! p = Some m -> table_or_null (metatable m);
  co_vm : Forall table_or_null vm_metatables;
  co_values : forall p m, tables !! p = Some m -> (forall key, lua_value env (named_value m key)) /\ (forall k, lua_value env (element m k));
  co_names : forall kind, property_key env true (name kind) /\
    GetMetamethodOrdinalFromStringName env (name kind) = LuaMetamethodKind.ordinal kind
}.
End values.

(** The tables of the world mean [tables]. *)
Record world_means (env : Env) (hash : Z -> Z) (vm : VM) (w : World) (tables : gmap Z Meaning) : Prop := {
  wm_tables : forall a m, tables !! a = Some m -> exists t, w_tables w !! a = Some t /\ means env hash (at_table w t) m;
  wm_closed : closed env vm tables
}.

Section metamethods.
Variable env : Env.
Variable hash : Z -> Z.
Variable vm : VM.
Hypothesis special_user : user_key (GetSpecialKeyForMetadataSlot env).
Variable tables : gmap Z Meaning.
Variable w : World.
Hypothesis meaning : world_means env hash vm w tables.
Notation table_of := (table_of tables).
Notation metatable_of := (metatable_of env vm tables).
Notation metafield := (metafield vm tables).
Notation metamethod := (metamethod env vm tables).
Notation table_or_null := (table_or_null tables).
Notation lua_value := (lua_value env).

(** An operation that reads a table reads the world. *)
Lemma on_table_reads {A} a t (op : MT A) x : w_tables w !! a = Some t -> op (at_table w t) = Ok (x, at_table w t) ->
  on_table a op w = Ok (x, w).
Proof. intros Ht E. unfold on_table. rewrite Ht, E. simpl. rewrite insert_id by done. clear. by destruct w. Qed.

Lemma on_table_means {A} a m (op : MT A) (P : A -> Prop) : tables !! a = Some m ->
  (forall s, means env hash s m -> exists x, op s = Ok (x, s) /\ P x) -> exists x, on_table a op w = Ok (x, w) /\ P x.
Proof.
  intros Ha Hop. destruct (wm_tables _ _ _ _ _ meaning a m Ha) as (t & Ht & Hm). destruct (Hop _ Hm) as (x & E & Hx).
  exists x. split; [by eapply on_table_reads|done].
Qed.

Lemma GetMetatable_world a m : tables !! a = Some m -> exists r, on_table a GetMetatable w = Ok (r, w) /\ gm_result r = metatable m.
Proof. intros Ha. eapply on_table_means; [done|]. intros s. by apply GetMetatable_reads. Qed.

(** The two steps of a get, with what the preparation tells of the metatable. *)
Lemma get_world a m isString key : tables !! a = Some m -> property_key env isString key ->
  exists ic, on_table a (PrepareGetById env isString key) w = Ok (ic, w) /\
    on_table a (GetById ic) w = Ok (named_value m key, w) /\
    (GetByIdICInfo.m_mayHaveMetatable ic = false -> metatable m = 0).
Proof.
  intros Ha Hk. destruct (wm_tables _ _ _ _ _ meaning a m Ha) as (t & Ht & Hm).
  destruct (PrepareGetById_reads env hash _ m isString key Hm Hk) as (ic & E1 & E2 & Hmt).
  exists ic. split_and!; [by eapply on_table_reads..|done].
Qed.

Lemma GetMetamethodFromMetatable_world mt kind : is_Some (tables !! mt) ->
  GetMetamethodFromMetatable env vm mt kind w = Ok (metafield mt kind, w).
Proof.
  intros [m Hm]. destruct (co_names _ _ _ (wm_closed _ _ _ _ _ meaning) kind) as [Hk _].
  destruct (get_world mt m true _ Hm Hk) as (ic & E1 & E2 & _).
  unfold GetMetamethodFromMetatable, RawGetStringPropertyFromTableObject, VM_GetStringNameForMetatableKind.
  rewrite (bind_ok _ _ _ _ _ E1), E2. unfold Metamethods.metafield. by rewrite Hm.
Qed.

Lemma rule_out_world mt kind : is_Some (tables !! mt) ->
  exists r, TableObject_TryQuicklyRuleOutMetamethod mt kind w = Ok (r, w) /\ (r = true -> metafield mt kind = Nil).
Proof.
  intros [m Hm]. destruct (co_names _ _ _ (wm_closed _ _ _ _ _ meaning) kind) as [Hk Hord].
  unfold Metamethods.metafield. rewrite Hm. eapply on_table_means; [done|]. intros s Hs.
  apply (TryQuicklyRuleOutMetamethod_reads env hash special_user s m); [done|by destruct kind|done|done].
Qed.
(** ** Tests of a value *)

Lemma value_tests v : lua_value v ->
  tag_tests v = match unbox v with
    | LDouble _ => (true, false, false, false)
    | LInt32 _ => (false, true, false, false)
    | LMIV _ => (false, false, true, false)
    | LPointer _ => (false, false, false, true)
    end.
Proof. intros (x & -> & Hx & _). by rewrite unbox_box_lemma, tests_box. Qed.

Lemma no_int32_value v : lua_value v -> not_int32 v -> IsInt32 v = false.
Proof.
  intros Hv Hn. pose proof (value_tests v Hv) as Ht. unfold tag_tests in Ht.
  destruct (unbox v) eqn:E; [|by destruct (Hn i)|..]; by injection Ht.
Qed.

Lemma value_nil v : lua_value v -> IsNil v = bool_decide (unbox v = LMIV MIV.x_nil).
Proof.
  intros (x & -> & Hx & _). rewrite unbox_box_lemma by done. apply eq_true_iff_eq. rewrite bool_decide_eq_true. by apply IsNil_box.
Qed.

Lemma value_pointer v p : unbox v = LPointer p -> AsPointer v = p.
Proof. unfold unbox. destruct (IsDouble v); [done|]. destruct (IsInt32 v); [done|]. destruct (IsMIV v); [done|]. by intros [= ->]. Qed.

Lemma value_type v p : lua_value v -> unbox v = LPointer p -> m_type env p ∈ [String; Function_; Thread; Table].
Proof. intros (x & -> & Hx & Ht) E. rewrite unbox_box_lemma in E by done. by subst x. Qed.

Lemma value_miv v m : lua_value v -> unbox v = LMIV m -> m = MIV.x_nil \/ m = MIV.x_false \/ m = MIV.x_true.
Proof.
  intros (x & -> & Hx & Ht) E. rewrite unbox_box_lemma in E by done. subst x. apply MIV_valid_cases in Hx.
  destruct Hx as [->|[->|[->| ->]]]; [by left|by right; left|by right; right|done].
Qed.

Lemma Is_heap h v : lua_value v -> Is env (tHeap h) v = match unbox v with LPointer p => bool_decide (m_type env p = h) | _ => false end.
Proof.
  intros Hv. pose proof (value_tests v Hv) as Ht. unfold tag_tests in Ht. unfold Is. simpl. unfold GetHeapEntityType.
  destruct (unbox v) as [| | |p] eqn:E; injection Ht as _ _ _ ->; [done..|]. by rewrite (value_pointer v p E).
Qed.

Lemma Is_entity v : lua_value v -> Is env tHeapEntity v = match unbox v with LPointer _ => true | _ => false end.
Proof. intros Hv. pose proof (value_tests v Hv) as Ht. unfold tag_tests in Ht. unfold Is. simpl. by destruct (unbox v); injection Ht as _ _ _ ->. Qed.

Lemma Is_nil v : Is env tNil v = IsNil v.
Proof. done. Qed.

(** The tables are the pointers to tables. *)
Lemma Is_table v : lua_value v -> Is env (tHeap Table) v = bool_decide (is_Some (table_of v)).
Proof.
  intros Hv. rewrite Is_heap by done. unfold Metamethods.table_of. destruct (unbox v) as [| | |p].
  1-3: by rewrite bool_decide_false by (by intros [? ?]).
  apply bool_decide_ext, (co_type _ _ _ (wm_closed _ _ _ _ _ meaning)).
Qed.

Lemma table_pointer v m : table_of v = Some m -> tables !! AsPointer v = Some m.
Proof. unfold Metamethods.table_of. destruct (unbox v) as [| | |p] eqn:E; try done. by rewrite (value_pointer v p E). Qed.

(** ** The metatable of a value *)

Lemma metatable_of_table v m : table_of v = Some m -> metatable_of v = metatable m.
Proof.
  unfold Metamethods.table_of, Metamethods.metatable_of. destruct (unbox v) as [| | |p]; try done. intros Hm.
  rewrite (proj2 (co_type _ _ _ (wm_closed _ _ _ _ _ meaning) p)) by done. by rewrite Hm.
Qed.

Lemma metatable_of_ok v : table_or_null (metatable_of v).
Proof.
  destruct (wm_closed _ _ _ _ _ meaning) as [_ _ Hmt Hvm _ _]. unfold vm_metatables in Hvm. rewrite !Forall_cons in Hvm.
  destruct Hvm as (? & ? & ? & ? & ? & ? & _). unfold Metamethods.metatable_of. destruct (unbox v) as [| |m|p]; try done.
  - by destruct (m =? _).
  - destruct (m_type env p); try done; try by left. destruct (tables !! p) as [m|] eqn:E; [by apply (Hmt p)|by left].
Qed.

Lemma metafield_null kind : metafield 0 kind = Nil.
Proof. unfold Metamethods.metafield. by rewrite (co_null _ _ _ (wm_closed _ _ _ _ _ meaning)). Qed.

(** Metamethods are values. *)
Lemma metafield_value mt kind : lua_value (metafield mt kind).
Proof.
  unfold Metamethods.metafield. destruct (tables !! mt) as [m|] eqn:E; simpl.
  - by apply (co_values _ _ _ (wm_closed _ _ _ _ _ meaning) mt m E).
  - by exists (LMIV MIV.x_nil).
Qed.

Lemma handler_value_of v kind : lua_value (metamethod v kind).
Proof. apply metafield_value. Qed.

Lemma GetMetatableForValue_world v : lua_value v -> GetMetatableForValue env vm v w = Ok (metatable_of v, w).
Proof.
  intros Hv. pose proof (value_tests v Hv) as Ht. unfold tag_tests in Ht. unfold GetMetatableForValue. rewrite (value_nil v Hv).
  unfold Metamethods.metatable_of. destruct (unbox v) as [d|i|m|p] eqn:E; injection Ht as _ _ -> ->; try done.
  - case_bool_decide as Hm; [injection Hm as ->; done|]. by destruct (Z.eqb_spec m MIV.x_nil); [subst m|].
  - rewrite (value_pointer v p E). pose proof (value_type v p Hv E) as Hp.
    rewrite !elem_of_cons, elem_of_nil in Hp. destruct Hp as [Hp|[Hp|[Hp|[Hp|[]]]]]; rewrite Hp; try done.
    destruct (proj1 (co_type _ _ _ (wm_closed _ _ _ _ _ meaning) p) Hp) as [m Hm].
    destruct (GetMetatable_world p m Hm) as (r & Er & Hr).
    simpl. rewrite (bind_ok _ _ _ _ _ Er), Hm. simpl. by rewrite Hr.
Qed.

Lemma GetMetamethodForValue_world v kind : lua_value v -> GetMetamethodForValue env vm v kind w = Ok (metamethod v kind, w).
Proof.
  intros Hv. unfold GetMetamethodForValue. rewrite (bind_ok _ _ _ _ _ (GetMetatableForValue_world v Hv)).
  unfold Metamethods.metamethod. destruct (Z.eqb_spec (metatable_of v) 0) as [->|Hne]; simpl; [by rewrite metafield_null|].
  destruct (metatable_of_ok v) as [?|Ht]; [done|]. by apply GetMetamethodFromMetatable_world.
Qed.

(** The metamethod of a table, looked for the way the code does it for tables. *)
Definition table_metamethod (a : Z) (kind : LuaMetamethodKind) : MW Z :=
  gmr ← on_table a GetMetatable;
  if negb (gm_result gmr =? 0) then
    ruledOut ← TableObject_TryQuicklyRuleOutMetamethod (gm_result gmr) kind;
    if negb ruledOut then GetMetamethodFromMetatable env vm (gm_result gmr) kind else mret Nil
  else mret Nil.

Lemma table_metamethod_world a m kind : tables !! a = Some m -> table_metamethod a kind w = Ok (metafield (metatable m) kind, w).
Proof.
  intros Ha. destruct (GetMetatable_world a m Ha) as (r & Er & Hr).
  unfold table_metamethod. rewrite (bind_ok _ _ _ _ _ Er), Hr.
  destruct (Z.eqb_spec (metatable m) 0) as [->|Hne]; simpl; [by rewrite metafield_null|].
  destruct (co_metatables _ _ _ (wm_closed _ _ _ _ _ meaning) a m Ha) as [?|Ht]; [done|].
  destruct (rule_out_world (metatable m) kind Ht) as (b & Eb & Hb).
  rewrite (bind_ok _ _ _ _ _ Eb). destruct b; simpl; [by rewrite Hb|]. by apply GetMetamethodFromMetatable_world.
Qed.
End metamethods.
