(* ===== verification/MetamethodChain.v ===== *)
(** * Chains of metamethods

    A bytecode that finds no field in a value goes on with the metamethod of the
    value, when this is no function.  The chain ends within as many steps as there
    are tables, or it never ends. *)

From S2P Require Import Prelude Double TValue TypeMask Machine HiddenClass TableObject ClassHeap NamedInv TableHistory TableWorld Metatables Metamethods.

Section chain.
Variable env : Env.
Variable vm : VM.
Variable tables : gmap Z Meaning.
Variable kind : LuaMetamethodKind.
Notation handler v := (metamethod env vm tables v kind).

(** The outcome at a value; [None]: on with its metamethod. *)
Context {R : Type} (stop : Z -> option R).
Hypothesis stop_nil : forall v, stop v = None -> handler v <> Nil.

(** At most [fuel] values after the first one. *)
Fixpoint chain (fuel : nat) (v : Z) : option R :=
  match stop v with
  | Some o => Some o
  | None => match fuel with O => None | S fuel => chain fuel (handler v) end
  end.

Lemma chain_step fuel v : chain fuel v = match stop v with
  | Some o => Some o
  | None => match fuel with O => None | S fuel => chain fuel (handler v) end
  end.
Proof. by destruct fuel. Qed.

(** The chain as a relation. *)
Inductive chain_event : Z -> R -> Prop :=
| chain_stop v o : stop v = Some o -> chain_event v o
| chain_on v o : stop v = None -> chain_event (handler v) o -> chain_event v o.

Lemma chain_event_fuel v o : chain_event v o <-> exists fuel, chain fuel v = Some o.
Proof.
  split.
  - induction 1 as [v o E|v o E _ [fuel IH]]; [exists 0%nat; by rewrite chain_step, E|]. exists (S fuel). by rewrite chain_step, E.
  - intros [fuel Hc]. revert v Hc. induction fuel as [|fuel IH]; intros v; rewrite chain_step; destruct (stop v) as [o'|] eqn:E; try done.
    1-2: intros [= <-]; by apply chain_stop.
    intros Hc. apply chain_on; auto.
Qed.

(** [v] reaches an outcome after [n] further values. *)
Inductive takes : Z -> nat -> Prop :=
| takes_0 v o : stop v = Some o -> takes v 0
| takes_S v n : stop v = None -> takes (handler v) n -> takes v (S n).

Lemma takes_unique v n : takes v n -> forall n', takes v n' -> n = n'.
Proof.
  induction 1 as [v o E|v n E _ IH]; intros n' H'; inversion H' as [? ? E'|? ? E' H'']; subst; [done|congruence|congruence|].
  f_equal. by apply IH.
Qed.

Lemma event_takes v o : chain_event v o -> exists n, takes v n.
Proof. induction 1 as [v o E|v o E _ [n IH]]; [exists 0%nat; by eapply takes_0|]. exists (S n). by apply takes_S. Qed.

Lemma takes_chain v n : takes v n -> forall fuel o, (n <= fuel)%nat -> chain_event v o -> chain fuel v = Some o.
Proof.
  induction 1 as [v o' E|v n E _ IH]; intros fuel o Hf He; rewrite chain_step; inversion He as [? ? E'|? ? E' He']; subst; rewrite E in *; try congruence.
  destruct fuel; [lia|]. apply IH; [lia|done].
Qed.

(** The metatables on the way are distinct tables. *)
Lemma takes_metatables v n : takes v n -> exists l, length l = n /\ NoDup l /\
  forall mt, mt ∈ l -> is_Some (tables !! mt) /\ exists k, (k < n)%nat /\ takes (metafield vm tables mt kind) k.
Proof.
  induction 1 as [v o E|v n E Hn (l & Hl & Hd & Hk)]; [exists []; split_and!; [done|apply NoDup_nil_2|by intros mt Hmt%not_elem_of_nil]|].
  pose proof (stop_nil v E) as Hnil. exists (metatable_of env vm tables v :: l). split_and!; [by simpl; rewrite Hl| |].
  - apply NoDup_cons. split; [|done]. intros Hin. destruct (Hk _ Hin) as (_ & k & Hlt & Ht).
    pose proof (takes_unique _ _ Ht n Hn). lia.
  - intros mt [->|Hin]%elem_of_cons.
    + split; [|exists n; by split; [lia|]]. unfold metamethod, metafield in Hnil. destruct (tables !! _); [by eexists|done].
    + destruct (Hk mt Hin) as (Ht & k & Hlt & Htk). split; [done|]. exists k. split; [lia|done].
Qed.

Lemma takes_bound v n : takes v n -> (n <= size tables)%nat.
Proof.
  intros Ht. destruct (takes_metatables v n Ht) as (l & <- & Hd & Hk).
  rewrite <- (size_list_to_set (C := gset Z) l Hd), <- (size_dom tables). apply subseteq_size. intros mt Hmt%elem_of_list_to_set.
  apply elem_of_dom, Hk, Hmt.
Qed.

(** The number of tables is enough fuel. *)
Lemma chain_enough fuel v o : (size tables <= fuel)%nat -> chain_event v o -> chain fuel v = Some o.
Proof.
  intros Hf He. destruct (event_takes v o He) as [n Hn]. pose proof (takes_bound v n Hn).
  eapply takes_chain; [exact Hn|lia|done].
Qed.

(** What a chain gives is the outcome, if there is one. *)
Lemma chain_result fuel v : (forall o, chain fuel v = Some o -> chain_event v o) /\
  ((size tables <= fuel)%nat -> forall o, chain_event v o -> chain fuel v = Some o).
Proof.
  split; [intros o Ho; apply chain_event_fuel; by exists fuel|intros Hf o]. by apply chain_enough.
Qed.
End chain.
