(* ===== verification/IndexEvent.v ===== *)
(** * The index event

    The specification of the bytecodes that read [base[index]]: the [gettable] event
    of the Lua 5.1 manual over the tables of a world, as a relation and as a chain
    of [__index] metamethods. *)

From Stdlib Require Import String.
From S2P Require Import Prelude Double TValue TypeMask Machine HiddenClass TableObject ClassHeap NamedInv TableHistory TableWorld Metatables Metamethods MetamethodChain.

(** How a bytecode ends: it returns a value, or nothing, it branches, it throws, or
    it calls a function with arguments and goes on with the first result. *)
Inductive Outcome :=
| Returns (v : Z)
| ReturnsNothing
| Branches
| Throws (message : string)
| Calls (function : Z) (arguments : list Z).

(** The value of any key: NaN and nil have none, the two Booleans have string keys. *)
Definition index_value (vm : VM) (idx : Z) (m : Meaning) : Z :=
  match unbox idx with
  | LDouble d => if IsNaN d then Nil else element m d
  | LPointer p => named_value m p
  | LMIV k => if k =? MIV.x_nil then Nil else named_value m (m_specialKeyForBooleanIndex vm (MIV.GetBooleanValue k))
  | LInt32 _ => Nil
  end.

(** The keys of a program; the VM makes no int32 values. *)
Definition index_key (env : Env) (vm : VM) (idx : Z) : Prop :=
  lua_value env idx /\
  match unbox idx with
  | LDouble _ => True
  | LPointer p => property_key env false p
  | LMIV k => forall b, property_key env true (m_specialKeyForBooleanIndex vm b)
  | LInt32 _ => False
  end.

Section index.
Variable env : Env.
Variable vm : VM.
Variable tables : gmap Z Meaning.
(** The value of the key [idx] in a table, and the message for values that have no
    fields. *)
Variable raw : Meaning -> Z.
Variable idx : Z.
Variable message : string.
Notation table_of := (table_of tables).
Notation handler v := (metamethod env vm tables v LuaMetamethodKind.Index).

Definition is_function (v : Z) : Prop := exists p, unbox v = LPointer p /\ m_type env p = Function_.

#[export] Instance is_function_dec v : Decision (is_function v).
Proof.
  refine (match unbox v as x return unbox v = x -> _ with LPointer p => fun E => cast_if (decide (m_type env p = Function_)) | _ => fun E => right _ end eq_refl);
    unfold is_function; rewrite E; naive_solver.
Defined.

(** [gettable_event]. *)
Inductive index_event : Z -> Outcome -> Prop :=
| index_raw v m : table_of v = Some m -> raw m <> Nil -> index_event v (Returns (raw m))
| index_nil v m : table_of v = Some m -> raw m = Nil -> handler v = Nil -> index_event v (Returns Nil)
| index_error v : table_of v = None -> handler v = Nil -> index_event v (Throws message)
| index_call v p : from_option raw Nil (table_of v) = Nil -> unbox (handler v) = LPointer p -> m_type env p = Function_ ->
    index_event v (Calls p [v; idx])
| index_again v o : from_option raw Nil (table_of v) = Nil -> handler v <> Nil -> ~ is_function (handler v) ->
    index_event (handler v) o -> index_event v o.

(** ** The event as a function *)

(** The outcome at a value, if this is the last one. *)
Definition index_stop (v : Z) : option Outcome :=
  match table_of v with
  | Some m =>
      if decide (raw m = Nil) then
        if decide (handler v = Nil) then Some (Returns Nil)
        else if decide (is_function (handler v)) then Some (Calls (AsPointer (handler v)) [v; idx]) else None
      else Some (Returns (raw m))
  | None =>
      if decide (handler v = Nil) then Some (Throws message)
      else if decide (is_function (handler v)) then Some (Calls (AsPointer (handler v)) [v; idx]) else None
  end.

Definition index_chain : nat -> Z -> option Outcome := chain env vm tables LuaMetamethodKind.Index index_stop.

Lemma not_function_nil v : v = Nil -> ~ is_function v.
Proof. intros -> (p & E & _). by vm_compute in E. Qed.

Lemma index_on v : index_stop v = None <-> from_option raw Nil (table_of v) = Nil /\ handler v <> Nil /\ ~ is_function (handler v).
Proof. unfold index_stop. destruct (table_of v) as [m|] eqn:Em; simpl; repeat case_decide; naive_solver. Qed.

Lemma index_stop_nil v : index_stop v = None -> handler v <> Nil.
Proof. by intros (_ & ? & _)%index_on. Qed.

Lemma index_stop_event v o : index_stop v = Some o -> index_event v o.
Proof.
  unfold index_stop. destruct (table_of v) as [m|] eqn:Em; repeat case_decide; try done; intros [= <-].
  - by eapply index_nil.
  - destruct H1 as (p & E & Hp). rewrite (value_pointer _ _ E). apply index_call; [by rewrite Em|done..].
  - by apply index_raw.
  - by apply index_error.
  - destruct H0 as (p & E & Hp). rewrite (value_pointer _ _ E). apply index_call; [by rewrite Em|done..].
Qed.

Lemma index_event_chain v o : index_event v o <-> chain_event env vm tables LuaMetamethodKind.Index index_stop v o.
Proof.
  split.
  - induction 1 as [v m Em Hr|v m Em Hr Hh|v Em Hh|v p Hr E Hp|v o Hr Hn Hf _ IH].
    1-4: apply chain_stop; unfold index_stop.
    + rewrite Em. by case_decide.
    + rewrite Em. by repeat case_decide.
    + rewrite Em. by case_decide.
    + assert (is_function (handler v)) as Hf by (by exists p). assert (handler v <> Nil) as Hn by (intros Hn; by apply not_function_nil in Hn).
      rewrite (value_pointer _ _ E). destruct (table_of v); simpl in Hr; by repeat case_decide.
    + apply chain_on; [by apply index_on|done].
  - induction 1 as [v o E|v o E _ IH]; [by apply index_stop_event|]. apply index_on in E as (? & ? & ?). by apply index_again.
Qed.
End index.
