(* ===== verification/GetBytecodes.v ===== *)
(** * The bytecodes that read a field ([annotated/bytecodes/table_get_by_*.cpp, global_get.cpp])

    [TableGetById], [TableGetByImm], [TableGetByVal] and [GlobalGet], with their slow
    paths.  A function that enters a slow path is the call of it.  The inline cache
    is transparent: the body given to it is run, and so is an effect.  Every value
    after the first one that is indexed uses up one unit of fuel; [None] is out of
    fuel.  The continuation of a call returns its first result. *)

From Stdlib Require Import String.
From S2P Require Import Prelude Double TValue MiscMath Machine TypeMask ArrayType Butterfly SparseMap HiddenClass TableObject TableArray TableTheorems Probing CheckedTable ClassHeap Structure Transition ClassInv ClassLookup ClassFrame ClassCreate ClassTransition ClassQuery ClassOps ClassView ClassTheorems Dictionary TableClasses NamedProps NamedInv NamedPut NamedTransition NamedMeta TableWhole TableHistory TableCreate TableClone TableWorld Metatables Metamethods IndexEvent.

Notation Run := (MW (option Outcome)).

Definition Return (v : Z) : Run := mret (Some (Returns v)).
Definition ThrowError (message : string) : Run := mret (Some (Throws message)).
Definition MakeCall (function : Z) (arguments : list Z) : Run := mret (Some (Calls function arguments)).
Definition out_of_fuel : Run := mret None.

(** [TValue()]. *)
Definition TValue_default : Z := 0.

(** What the read of a field found out about its table; the three enumerations of
    the three bytecodes. *)
Inductive TableGetIcResultKind := NotTable | MayHaveMetatable | NoMetatable.

Section bytecodes.
Variable env : Env.
Variable hash : Z -> Z.
Variable vm : VM.
Notation IsTable := (Is env (tHeap Table)).
Notation IsFunction := (Is env (tHeap Function_)).
Notation IsHeapEntity := (Is env tHeapEntity).

Definition result_kind (mayHaveMetatable : bool) : TableGetIcResultKind := if mayHaveMetatable then MayHaveMetatable else NoMetatable.

(** ** [TableGetById] *)

Section get_by_id.
Variable tvIndex : Z.
Notation index := (AsPointer tvIndex).

Definition GetById_CheckMetatableSlowPath (HandleMetatableSlowPath : Z -> Z -> Run) (base : Z) : Run :=
  gmr ← on_table (AsPointer base) GetMetatable;
  if negb (gm_result gmr =? 0) then
    ruledOut ← TableObject_TryQuicklyRuleOutMetamethod (gm_result gmr) LuaMetamethodKind.Index;
    if negb ruledOut then
      metamethod ← GetMetamethodFromMetatable env vm (gm_result gmr) LuaMetamethodKind.Index;
      if negb (Is env tNil metamethod) then HandleMetatableSlowPath base metamethod else Return Nil
    else Return Nil
  else Return Nil.

Definition GetById_HandleNotTableObjectSlowPath (HandleMetatableSlowPath : Z -> Z -> Run) (base : Z) : Run :=
  metamethod ← GetMetamethodForValue env vm base LuaMetamethodKind.Index;
  if Is env tNil metamethod then ThrowError "bad type for TableGetById" else HandleMetatableSlowPath base metamethod.

Fixpoint GetById_HandleMetatableSlowPath (fuel : nat) (base metamethod : Z) : Run :=
  if IsFunction metamethod then MakeCall (AsPointer metamethod) [base; tvIndex]
  else
    match fuel with
    | O => out_of_fuel
    | S fuel =>
        let base := metamethod in
        if negb (IsTable base) then GetById_HandleNotTableObjectSlowPath (GetById_HandleMetatableSlowPath fuel) base
        else
          icInfo ← on_table (AsPointer base) (PrepareGetById env true index);
          result ← on_table (AsPointer base) (GetById icInfo);
          if GetByIdICInfo.m_mayHaveMetatable icInfo && Is env tNil result
          then GetById_CheckMetatableSlowPath (GetById_HandleMetatableSlowPath fuel) base
          else Return result
    end.

(** The body of the inline cache. *)
Definition TableGetById_ic_body (heapEntity : Z) : MW (Z * TableGetIcResultKind) :=
  if negb (bool_decide (m_type env heapEntity = Table)) then mret (TValue_default, NotTable)
  else
    c_info ← on_table heapEntity (PrepareGetById env true index);
    let c_resKind := result_kind (GetByIdICInfo.m_mayHaveMetatable c_info) in
    match GetByIdICInfo.m_icKind c_info with
    | GetByIdICInfo.UncachableDictionary => ub
    | GetByIdICInfo.MustBeNil | GetByIdICInfo.MustBeNilButUncacheable => mret (Nil, c_resKind)
    | GetByIdICInfo.InlinedStorage =>
        res ← on_table heapEntity (read_inline (GetByIdICInfo.m_slot c_info)); mret (res, c_resKind)
    | GetByIdICInfo.OutlinedStorage =>
        res ← on_table heapEntity (read_outline (GetByIdICInfo.m_slot c_info)); mret (res, c_resKind)
    end.

Definition TableGetByIdImpl (fuel : nat) (base : Z) : Run :=
  if IsHeapEntity base then
    '(result, resultKind) ← TableGetById_ic_body (AsPointer base);
    match resultKind with
    | NoMetatable => Return result
    | NotTable => GetById_HandleNotTableObjectSlowPath (GetById_HandleMetatableSlowPath fuel) base
    | MayHaveMetatable =>
        if negb (Is env tNil result) then Return result
        else GetById_CheckMetatableSlowPath (GetById_HandleMetatableSlowPath fuel) base
    end
  else GetById_HandleNotTableObjectSlowPath (GetById_HandleMetatableSlowPath fuel) base.

(** ** [GlobalGet] *)

Definition GlobalGet_CheckMetatableSlowPath (HandleMetatableSlowPath : Z -> Z -> Run) (base : Z) : Run :=
  gmr ← on_table base GetMetatable;
  if negb (gm_result gmr =? 0) then
    metamethod ← GetMetamethodFromMetatable env vm (gm_result gmr) LuaMetamethodKind.Index;
    if negb (Is env tNil metamethod) then HandleMetatableSlowPath (CreatePointer base) metamethod else Return Nil
  else Return Nil.

Fixpoint GlobalGet_HandleMetatableSlowPath (fuel : nat) (base metamethod : Z) : Run :=
  if IsHeapEntity metamethod && bool_decide (GetHeapEntityType (m_type env) metamethod = Function_)
  then MakeCall (AsPointer metamethod) [base; tvIndex]
  else
    match fuel with
    | O => out_of_fuel
    | S fuel =>
        if IsHeapEntity metamethod && bool_decide (GetHeapEntityType (m_type env) metamethod = Table) then
          let tableObj := AsPointer metamethod in
          icInfo ← on_table tableObj (PrepareGetById env true index);
          result ← on_table tableObj (GetById icInfo);
          if negb (GetByIdICInfo.m_mayHaveMetatable icInfo) || negb (Is env tNil result) then Return result
          else GlobalGet_CheckMetatableSlowPath (GlobalGet_HandleMetatableSlowPath fuel) tableObj
        else
          let base := metamethod in
          metamethod ← GetMetamethodForValue env vm metamethod LuaMetamethodKind.Index;
          if Is env tNil metamethod then ThrowError "bad type for GlobalGet"
          else GlobalGet_HandleMetatableSlowPath fuel base metamethod
    end.

(** [base] is [GetFEnvGlobalObject()]. *)
Definition GlobalGet_ic_body (base : Z) : MW (Z * bool) :=
  c_info ← on_table base (PrepareGetByIdForGlobalObject env true index);
  let c_mayHaveMt := GetByIdICInfo.m_mayHaveMetatable c_info in
  match GetByIdICInfo.m_icKind c_info with
  | GetByIdICInfo.InlinedStorage =>
      res ← on_table base (read_inline (GetByIdICInfo.m_slot c_info)); mret (res, c_mayHaveMt)
  | GetByIdICInfo.OutlinedStorage =>
      res ← on_table base (read_outline (GetByIdICInfo.m_slot c_info)); mret (res, c_mayHaveMt)
  | _ => mret (Nil, c_mayHaveMt)
  end.

Definition GlobalGetImpl (fuel : nat) (base : Z) : Run :=
  '(result, mayHaveMt) ← GlobalGet_ic_body base;
  if negb mayHaveMt || negb (Is env tNil result) then Return result
  else GlobalGet_CheckMetatableSlowPath (GlobalGet_HandleMetatableSlowPath fuel) base.
End get_by_id.

(** ** The inline caches for an integer index *)

Notation array_type t := (PrepareGetByIntegerIndex (m_arrayType t)).

(** [PrepareGetByIntegerIndex] and [GetByIntegerIndex] of a table. *)
Definition prepare_integer (a : Z) : MW GetByIntegerIndexICInfo.t := on_table a (t ← get_table; mret (array_type t)).
Definition get_integer (a index : Z) (icInfo : GetByIntegerIndexICInfo.t) : MW Z := on_table a (GetByIntegerIndex hash index icInfo).

(** The body of the inline caches of [TableGetByImm] and of [TableGetByVal]; they
    are the same. *)
Definition TableGetByInteger_ic_body (heapEntity index : Z) : MW (Z * TableGetIcResultKind) :=
  if negb (bool_decide (m_type env heapEntity = Table)) then mret (TValue_default, NotTable)
  else
    c_info ← prepare_integer heapEntity;
    let c_resKind := result_kind (GetByIntegerIndexICInfo.m_mayHaveMetatable c_info) in
    if GetByIntegerIndexICInfo.m_isContinuous c_info then
      isInRange ← on_table heapEntity (CheckIndexFitsInContinuousArray index);
      if (isInRange : bool) then
        res ← on_table heapEntity (on_butterfly (fun b => GetInVector b index)); mret (res, NoMetatable)
      else mret (Nil, c_resKind)
    else
      match GetByIntegerIndexICInfo.m_icKind c_info with
      | GetByIntegerIndexICInfo.VectorStorage =>
          r ← on_table heapEntity (TryAccessIndexInVectorStorage index);
          mret (default Nil r, c_resKind)
      | GetByIntegerIndexICInfo.NoArrayPart => mret (Nil, c_resKind)
      | GetByIntegerIndexICInfo.VectorStorageXorSparseMap =>
          r ← on_table heapEntity (TryAccessIndexInVectorStorage index);
          match r with
          | Some res => mret (res, c_resKind)
          | None =>
              if (index <? x_arrayBaseOrd) || (x_unconditionallySparseMapCutoff <? index)
              then res ← on_table heapEntity (QueryArraySparseMap hash (double_of_int index)); mret (res, c_resKind)
              else mret (Nil, c_resKind)
          end
      | GetByIntegerIndexICInfo.VectorStorageOrSparseMap =>
          r ← on_table heapEntity (TryAccessIndexInVectorStorage index);
          match r with
          | Some res => mret (res, c_resKind)
          | None => res ← on_table heapEntity (QueryArraySparseMap hash (double_of_int index)); mret (res, c_resKind)
          end
      end.

(** ** [TableGetByImm] *)

Section get_by_imm.
(** An [int16_t]. *)
Variable index : Z.

Definition GetByImm_CheckMetatableSlowPath (HandleMetatableSlowPath : Z -> Z -> Run) (base : Z) : Run :=
  gmr ← on_table (AsPointer base) GetMetatable;
  if negb (gm_result gmr =? 0) then
    ruledOut ← TableObject_TryQuicklyRuleOutMetamethod (gm_result gmr) LuaMetamethodKind.Index;
    if negb ruledOut then
      metamethod ← GetMetamethodFromMetatable env vm (gm_result gmr) LuaMetamethodKind.Index;
      if negb (Is env tNil metamethod) then HandleMetatableSlowPath base metamethod else Return Nil
    else Return Nil
  else Return Nil.

Definition GetByImm_HandleNotTableObjectSlowPath (HandleMetatableSlowPath : Z -> Z -> Run) (base : Z) : Run :=
  metamethod ← GetMetamethodForValue env vm base LuaMetamethodKind.Index;
  if Is env tNil metamethod then ThrowError "bad type for TableGetByImm" else HandleMetatableSlowPath base metamethod.

Fixpoint GetByImm_HandleMetatableSlowPath (fuel : nat) (base metamethod : Z) : Run :=
  if IsFunction metamethod then MakeCall (AsPointer metamethod) [base; CreateDouble (double_of_int index)]
  else
    match fuel with
    | O => out_of_fuel
    | S fuel =>
        let base := metamethod in
        if negb (IsTable base) then GetByImm_HandleNotTableObjectSlowPath (GetByImm_HandleMetatableSlowPath fuel) base
        else
          icInfo ← prepare_integer (AsPointer base);
          result ← get_integer (AsPointer base) index icInfo;
          if GetByIntegerIndexICInfo.m_mayHaveMetatable icInfo && Is env tNil result
          then GetByImm_CheckMetatableSlowPath (GetByImm_HandleMetatableSlowPath fuel) base
          else Return result
    end.

Definition TableGetByImmImpl (fuel : nat) (base : Z) : Run :=
  if IsHeapEntity base then
    '(result, resultKind) ← TableGetByInteger_ic_body (AsPointer base) index;
    match resultKind with
    | NoMetatable => Return result
    | NotTable => GetByImm_HandleNotTableObjectSlowPath (GetByImm_HandleMetatableSlowPath fuel) base
    | MayHaveMetatable =>
        if negb (Is env tNil result) then Return result
        else GetByImm_CheckMetatableSlowPath (GetByImm_HandleMetatableSlowPath fuel) base
    end
  else GetByImm_HandleNotTableObjectSlowPath (GetByImm_HandleMetatableSlowPath fuel) base.
End get_by_imm.

(** ** [TableGetByVal] *)

Section get_by_val.
Variable tvIndex : Z.

Definition GetIndexMetamethodFromTableObject (tableObj : Z) : MW (bool * Z) :=
  gmr ← on_table tableObj GetMetatable;
  if negb (gm_result gmr =? 0) then
    ruledOut ← TableObject_TryQuicklyRuleOutMetamethod (gm_result gmr) LuaMetamethodKind.Index;
    if negb ruledOut then
      metamethod ← GetMetamethodFromMetatable env vm (gm_result gmr) LuaMetamethodKind.Index;
      mret (negb (Is env tNil metamethod), metamethod)
    else mret (false, TValue_default)
  else mret (false, TValue_default).

(** The end of every loop: a nil was read from the table [base]; [again] goes on with
    the metamethod as the next [base]. *)
Definition GetByVal_metamethod (base : Z) (again : Z -> Run) : Run :=
  '(hasMetamethod, metamethod) ← GetIndexMetamethodFromTableObject (AsPointer base);
  if negb hasMetamethod then Return Nil
  else if IsFunction metamethod then MakeCall (AsPointer metamethod) [base; tvIndex]
  else again metamethod.

(** One round of the loop over an index that is a heap entity ... *)
Definition GetByVal_heap_entity (base : Z) (again : Z -> Run) : Run :=
  icInfo ← on_table (AsPointer base) (PrepareGetById env false (AsPointer tvIndex));
  result ← on_table (AsPointer base) (GetById icInfo);
  if negb (GetByIdICInfo.m_mayHaveMetatable icInfo) || negb (Is env tNil result) then Return result
  else GetByVal_metamethod base again.

(** ... a double that is no 64-bit integer ... *)
Definition GetByVal_double (base idx : Z) (again : Z -> Run) : Run :=
  if IsNaN idx then
    let result := Nil in
    if negb (Is env tNil result) then Return result else GetByVal_metamethod base again
  else
    icInfo ← prepare_integer (AsPointer base);
    result ← match GetByIntegerIndexICInfo.m_icKind icInfo with
             | GetByIntegerIndexICInfo.VectorStorageOrSparseMap
             | GetByIntegerIndexICInfo.VectorStorageXorSparseMap => on_table (AsPointer base) (QueryArraySparseMap hash idx)
             | _ => mret Nil
             end;
    if negb (GetByIntegerIndexICInfo.m_mayHaveMetatable icInfo) then Return result
    else if negb (Is env tNil result) then Return result
    else GetByVal_metamethod base again.

(** ... and nil or a Boolean. *)
Definition GetByVal_miv (base : Z) (again : Z -> Run) : Run :=
  let specialKey := if Is env tNil tvIndex then 0 else VM_GetSpecialKeyForBoolean vm (MIV.GetBooleanValue (AsMIV tvIndex)) in
  if specialKey =? 0 then
    let result := Nil in
    if negb (Is env tNil result) then Return result else GetByVal_metamethod base again
  else
    icInfo ← on_table (AsPointer base) (PrepareGetById env true specialKey);
    result ← on_table (AsPointer base) (GetById icInfo);
    if negb (GetByIdICInfo.m_mayHaveMetatable icInfo) then Return result
    else if negb (Is env tNil result) then Return result
    else GetByVal_metamethod base again.

Definition GetByVal_not_int64 (base tvIndexViewAsDouble : Z) (again : Z -> Run) : Run :=
  let tvIndex := tvIndexViewAsDouble in
  if IsHeapEntity tvIndex then GetByVal_heap_entity base again
  else if Is env tDouble tvIndex then GetByVal_double base tvIndex again
  else GetByVal_miv base again.

(** The loops; [base] is a table in the first two. *)
Fixpoint Int64IndexCheckMetatableSlowPath (fuel : nat) (base : Z) {struct fuel} : Run :=
  GetByVal_metamethod base (fun base =>
    match fuel with
    | O => out_of_fuel
    | S fuel =>
        if negb (IsTable base) then GetByVal_HandleNotTableObjectSlowPath fuel base
        else
          let index := int_of_double (ViewAsDouble tvIndex) in
          icInfo ← prepare_integer (AsPointer base);
          result ← get_integer (AsPointer base) index icInfo;
          if negb (GetByIntegerIndexICInfo.m_mayHaveMetatable icInfo) || negb (Is env tNil result) then Return result
          else Int64IndexCheckMetatableSlowPath fuel base
    end)
with NotInt64IndexTable (fuel : nat) (base tvIndexViewAsDouble : Z) {struct fuel} : Run :=
  GetByVal_not_int64 base tvIndexViewAsDouble (fun base =>
    match fuel with
    | O => out_of_fuel
    | S fuel =>
        if negb (IsTable base) then GetByVal_HandleNotTableObjectSlowPath fuel base
        else NotInt64IndexTable fuel base tvIndexViewAsDouble
    end)
with GetByVal_HandleNotTableObjectSlowPath (fuel : nat) (base : Z) {struct fuel} : Run :=
  metamethod ← GetMetamethodForValue env vm base LuaMetamethodKind.Index;
  if Is env tNil metamethod then ThrowError "bad type for TableGetByVal"
  else if IsFunction metamethod then MakeCall (AsPointer metamethod) [base; tvIndex]
  else
    match fuel with
    | O => out_of_fuel
    | S fuel =>
        let base := metamethod in
        if negb (IsTable base) then GetByVal_HandleNotTableObjectSlowPath fuel base
        else
          let idxDbl := ViewAsDouble tvIndex in
          let index := int_of_double idxDbl in
          if UnsafeFloatEqual idxDbl (double_of_int index) then
            icInfo ← prepare_integer (AsPointer base);
            result ← get_integer (AsPointer base) index icInfo;
            if negb (GetByIntegerIndexICInfo.m_mayHaveMetatable icInfo) || negb (Is env tNil result) then Return result
            else Int64IndexCheckMetatableSlowPath fuel base
          else NotInt64IndexTable fuel base idxDbl
    end.

Definition GetByVal_HandleNotInt64IndexSlowPath (fuel : nat) (base tvIndexViewAsDouble : Z) : Run :=
  if IsTable base then NotInt64IndexTable fuel base tvIndexViewAsDouble
  else GetByVal_HandleNotTableObjectSlowPath fuel base.

Definition TableGetByValImpl (fuel : nat) (base : Z) : Run :=
  let idxDbl := ViewAsDouble tvIndex in
  let index := int_of_double idxDbl in
  if UnsafeFloatEqual idxDbl (double_of_int index) then
    if IsHeapEntity base then
      '(result, resultKind) ← TableGetByInteger_ic_body (AsPointer base) index;
      match resultKind with
      | NoMetatable => Return result
      | NotTable => GetByVal_HandleNotTableObjectSlowPath fuel base
      | MayHaveMetatable =>
          if negb (Is env tNil result) then Return result else Int64IndexCheckMetatableSlowPath fuel base
      end
    else GetByVal_HandleNotTableObjectSlowPath fuel base
  else GetByVal_HandleNotInt64IndexSlowPath fuel base idxDbl.
End get_by_val.
End bytecodes.
