(* ===== verification/IndexProofs.v ===== *)
(** * The bytecodes that read a field run the index event

    Every bytecode of [GetBytecodes] computes [index_chain], with the same fuel. *)

From Stdlib Require Import String.
From S2P Require Import Prelude Double TValue MiscMath Machine TypeMask ArrayType Butterfly SparseMap HiddenClass TableObject TableArray TableTheorems Probing CheckedTable ClassHeap Structure Transition ClassInv ClassLookup ClassFrame ClassCreate ClassTransition ClassQuery ClassOps ClassView ClassTheorems Dictionary TableClasses NamedProps NamedInv NamedPut NamedTransition NamedMeta TableWhole TableHistory TableCreate TableClone TableWorld Metatables Metamethods MetamethodChain IndexEvent GetBytecodes.

Section proofs.
Variable env : Env.
Variable hash : Z -> Z.
Variable vm : VM.
Hypothesis special_user : user_key (GetSpecialKeyForMetadataSlot env).
Variable tables : gmap Z Meaning.
Variable w : World.
Hypothesis meaning : world_means env hash vm w tables.
Notation table_of := (table_of tables).
Notation handler v := (metamethod env vm tables v LuaMetamethodKind.Index).
Notation lua_value := (lua_value env).
Notation property_key := (property_key env).

(** ** Metamethods of a table *)

Lemma table_handler v m kind : table_of v = Some m -> metamethod env vm tables v kind = metafield vm tables (metatable m) kind.
Proof. intros Hm. unfold metamethod. by rewrite (metatable_of_table env hash vm tables w meaning v m Hm). Qed.

(** Looking for a metamethod of a table finds it, or it is nil. *)
Lemma metamethod_search a m kind : tables !! a = Some m -> exists r, on_table a GetMetatable w = Ok (r, w) /\ gm_result r = metatable m /\
  ((gm_result r =? 0) = true /\ metafield vm tables (metatable m) kind = Nil \/
   (gm_result r =? 0) = false /\
   GetMetamethodFromMetatable env vm (gm_result r) kind w = Ok (metafield vm tables (metatable m) kind, w) /\
   exists b, TableObject_TryQuicklyRuleOutMetamethod (gm_result r) kind w = Ok (b, w) /\
     (b = true -> metafield vm tables (metatable m) kind = Nil)).
Proof.
  intros Ha. destruct (GetMetatable_world env hash vm tables w meaning a m Ha) as (r & Er & Hr). exists r. split_and!; [done|done|].
  rewrite Hr. destruct (Z.eqb_spec (metatable m) 0) as [->|Hne]; [left|right].
  - by rewrite (metafield_null env hash vm tables w meaning).
  - destruct (co_metatables _ _ _ (wm_closed _ _ _ _ _ meaning) a m Ha) as [?|Ht]; [done|]. split_and!; [done| |].
    + by apply (GetMetamethodFromMetatable_world env hash).
    + by apply (rule_out_world env hash).
Qed.

(** The search as the code writes it. *)
Lemma search_table {A} a m kind (found : Z -> MW A) (none : MW A) : tables !! a = Some m -> found Nil w = none w ->
  (gmr ← on_table a GetMetatable;
   if negb (gm_result gmr =? 0) then
     ruledOut ← TableObject_TryQuicklyRuleOutMetamethod (gm_result gmr) kind;
     if negb ruledOut then metamethod ← GetMetamethodFromMetatable env vm (gm_result gmr) kind; found metamethod else none
   else none) w = found (metafield vm tables (metatable m) kind) w.
Proof.
  intros Ha Hn. destruct (metamethod_search a m kind Ha) as (r & Er & _ & Hc). rewrite (bind_ok _ _ _ _ _ Er).
  destruct Hc as [[-> ->]|(-> & Eg & b & Eb & Hb)]; [done|]. simpl. rewrite (bind_ok _ _ _ _ _ Eb).
  destruct b; simpl; [by rewrite (Hb eq_refl)|by rewrite (bind_ok _ _ _ _ _ Eg)].
Qed.

Lemma search_table_direct {A} a m kind (found : Z -> MW A) (none : MW A) : tables !! a = Some m -> found Nil w = none w ->
  (gmr ← on_table a GetMetatable;
   if negb (gm_result gmr =? 0) then metamethod ← GetMetamethodFromMetatable env vm (gm_result gmr) kind; found metamethod else none) w
  = found (metafield vm tables (metatable m) kind) w.
Proof.
  intros Ha Hn. destruct (metamethod_search a m kind Ha) as (r & Er & _ & Hc). rewrite (bind_ok _ _ _ _ _ Er).
  destruct Hc as [[-> ->]|(-> & Eg & _)]; [done|]. simpl. by rewrite (bind_ok _ _ _ _ _ Eg).
Qed.

(** ** Values *)

Lemma Is_function v : lua_value v -> Is env (tHeap Function_) v = bool_decide (is_function env v).
Proof.
  intros Hv. rewrite (Is_heap env _ v Hv). apply eq_true_iff_eq. rewrite bool_decide_eq_true. unfold is_function.
  destruct (unbox v) as [| | |p]; [naive_solver..|]. rewrite bool_decide_eq_true. naive_solver.
Qed.

Lemma table_address v m : lua_value v -> table_of v = Some m -> CreatePointer (AsPointer v) = v.
Proof.
  intros (x & -> & Hx & _). unfold Metamethods.table_of. rewrite unbox_box_lemma by done. destruct x as [| | |p]; try done.
  intros _. cbn [box]. by rewrite AsPointer_CreatePointer.
Qed.

(** The two tests of the type of a heap entity. *)
Lemma entity_type v ty : lua_value v ->
  Is env tHeapEntity v && bool_decide (GetHeapEntityType (m_type env) v = ty) = Is env (tHeap ty) v.
Proof. done. Qed.

Lemma handler_value v : lua_value (handler v).
Proof. apply (handler_value_of env hash vm tables w meaning). Qed.

Lemma nil_test v : Is env tNil v = bool_decide (v = Nil).
Proof. apply eq_true_iff_eq. rewrite bool_decide_eq_true. apply Z.eqb_eq. Qed.
(** The three kinds of base. *)
Lemma entity_cases v : lua_value v ->
  (Is env tHeapEntity v = true /\ (exists m, table_of v = Some m /\ tables !! AsPointer v = Some m)) \/
  (Is env tHeapEntity v = true /\ m_type env (AsPointer v) <> Table /\ table_of v = None) \/
  (Is env tHeapEntity v = false /\ table_of v = None).
Proof.
  intros Hv. rewrite (Is_entity env v Hv). unfold Metamethods.table_of. destruct (unbox v) as [| | |p] eqn:E; [by auto..|].
  rewrite (value_pointer v p E). destruct (tables !! p) as [m|] eqn:Em; [left; eauto|]. right. left. split_and!; try done.
  intros Ht%(co_type _ _ _ (wm_closed _ _ _ _ _ meaning)). rewrite Em in Ht. by destruct Ht.
Qed.

Ltac read E := rewrite (bind_ok _ _ _ _ _ E).

(** The read through the inline-cache record. *)
Lemma cached_read {A} a ic v (f : Z -> A) : on_table a (GetById ic) w = Ok (v, w) ->
  match GetByIdICInfo.m_icKind ic with
  | GetByIdICInfo.UncachableDictionary => ub
  | GetByIdICInfo.MustBeNil | GetByIdICInfo.MustBeNilButUncacheable => mret (f Nil)
  | GetByIdICInfo.InlinedStorage => res ← on_table a (read_inline (GetByIdICInfo.m_slot ic)); mret (f res)
  | GetByIdICInfo.OutlinedStorage => res ← on_table a (read_outline (GetByIdICInfo.m_slot ic)); mret (f res)
  end w = Ok (f v, w).
Proof.
  unfold GetById. destruct (GetByIdICInfo.m_icKind ic); intros E; try (by read E);
    unfold on_table in E; destruct (w_tables w !! a); try done; by injection E as <-.
Qed.

(** ** The chain, after a nil in a table and for other values *)

Section chain.
Variable raw : Meaning -> Z.
Variable idx : Z.
Variable message : string.
Notation chain := (index_chain env vm tables raw idx message).

(** On to the metamethod of [v]. *)
Definition enter (fuel : nat) (v : Z) : option Outcome :=
  if decide (is_function env (handler v)) then Some (Calls (AsPointer (handler v)) [v; idx])
  else match fuel with O => None | S fuel => chain fuel (handler v) end.

Lemma chain_raw fuel v m : table_of v = Some m -> raw m <> Nil -> chain fuel v = Some (Returns (raw m)).
Proof. intros Hm Hr. unfold index_chain. rewrite chain_step. unfold index_stop. rewrite Hm. by case_decide. Qed.

Lemma chain_nil fuel v m : table_of v = Some m -> raw m = Nil ->
  chain fuel v = if decide (handler v = Nil) then Some (Returns Nil) else enter fuel v.
Proof. intros Hm Hr. unfold index_chain. rewrite chain_step. unfold index_stop, enter. rewrite Hm. by repeat case_decide. Qed.

Lemma chain_other fuel v : table_of v = None -> chain fuel v = if decide (handler v = Nil) then Some (Throws message) else enter fuel v.
Proof. intros Hm. unfold index_chain. rewrite chain_step. unfold index_stop, enter. rewrite Hm. by repeat case_decide. Qed.

(** A table without a metatable gives what it has. *)
Lemma chain_no_metatable fuel v m : table_of v = Some m -> metatable m = 0 -> chain fuel v = Some (Returns (raw m)).
Proof.
  intros Hm Hmt. destruct (decide (raw m = Nil)) as [Hr|]; [|by apply chain_raw]. rewrite (chain_nil _ _ m), decide_True, Hr; try done.
  by rewrite (table_handler v m _ Hm), Hmt, (metafield_null env hash vm tables w meaning).
Qed.
(** The two slow paths: a nil in a table, and a base that is no table. *)
Lemma check_chain H fuel base m : table_of base = Some m -> raw m = Nil ->
  (handler base <> Nil -> H base (handler base) w = Ok (enter fuel base, w)) ->
  GetById_CheckMetatableSlowPath env vm H base w = Ok (chain fuel base, w).
Proof.
  intros Hm Hr HH. unfold GetById_CheckMetatableSlowPath. rewrite (search_table _ m); [|by apply table_pointer|done].
  rewrite <- (table_handler base m _ Hm), nil_test, (chain_nil _ _ m) by done. case_decide as Hn.
  - by rewrite bool_decide_true.
  - rewrite bool_decide_false by done. by apply HH.
Qed.

Lemma not_table_chain (H : Z -> Z -> Run) fuel base : lua_value base -> table_of base = None ->
  (handler base <> Nil -> H base (handler base) w = Ok (enter fuel base, w)) ->
  (metamethod ← GetMetamethodForValue env vm base LuaMetamethodKind.Index;
   if Is env tNil metamethod then ThrowError message else H base metamethod) w = Ok (chain fuel base, w).
Proof.
  intros Hv Hm HH. read (GetMetamethodForValue_world env hash vm tables w meaning base LuaMetamethodKind.Index Hv).
  rewrite nil_test, chain_other by done. case_decide as Hn.
  - by rewrite bool_decide_true.
  - rewrite bool_decide_false by done. by apply HH.
Qed.
End chain.
(** ** [TableGetById] *)

Section get_by_id.
Variable tvIndex : Z.
Notation key := (AsPointer tvIndex).
Hypothesis string_key : property_key true key.
Notation message := "bad type for TableGetById"%string.
Notation chain := (index_chain env vm tables (fun m => named_value m key) tvIndex message).
Notation next := (enter (fun m => named_value m key) tvIndex message).

Lemma GetById_handle fuel : forall base, GetById_HandleMetatableSlowPath env vm tvIndex fuel base (handler base) w = Ok (next fuel base, w).
Proof.
  induction fuel as [|fuel IH]; intros base; simpl; unfold enter; rewrite Is_function by apply handler_value;
    (case_decide as Hf; [by rewrite bool_decide_true|rewrite bool_decide_false by done]); [done|].
  rewrite (Is_table env hash vm tables w meaning) by apply handler_value. destruct (table_of (handler base)) as [m|] eqn:Hm.
  - rewrite bool_decide_true by done. simpl.
    destruct (get_world env hash vm tables w meaning _ m true key (table_pointer tables _ m Hm) string_key) as (ic & E1 & E2 & Hmt).
    read E1. read E2. rewrite nil_test. destruct (decide (named_value m key = Nil)) as [Hr|Hr].
    + rewrite bool_decide_true by done. rewrite andb_true_r. destruct (GetByIdICInfo.m_mayHaveMetatable ic).
      * by apply (check_chain _ _ _ _ _ _ m).
      * by rewrite (chain_no_metatable _ _ _ _ _ m Hm) by auto.
    + rewrite bool_decide_false, andb_false_r by done. by rewrite (chain_raw _ _ _ _ _ m).
  - rewrite bool_decide_false by (by intros [? ?]). simpl. apply not_table_chain; [apply handler_value|done|done].
Qed.
Lemma GetById_ic a m : tables !! a = Some m -> exists mayHave, TableGetById_ic_body env tvIndex a w = Ok ((named_value m key, result_kind mayHave), w) /\
  (mayHave = false -> metatable m = 0).
Proof.
  intros Ha. destruct (get_world env hash vm tables w meaning _ m true key Ha string_key) as (ic & E1 & E2 & Hmt).
  exists (GetByIdICInfo.m_mayHaveMetatable ic). split; [|done]. unfold TableGetById_ic_body.
  rewrite bool_decide_true by (by eapply (co_type _ _ _ (wm_closed _ _ _ _ _ meaning))). simpl. read E1.
  by apply (cached_read a ic _ (fun v => (v, result_kind _))).
Qed.

Lemma TableGetById_chain fuel base : lua_value base -> TableGetByIdImpl env vm tvIndex fuel base w = Ok (chain fuel base, w).
Proof.
  intros Hv. unfold TableGetByIdImpl.
  destruct (entity_cases base Hv) as [(-> & m & Hm & Ha)|[(-> & Ht & Hm)|[-> Hm]]].
  - destruct (GetById_ic _ m Ha) as (mayHave & E & Hmt). read E. destruct mayHave; simpl.
    + rewrite nil_test. destruct (decide (named_value m key = Nil)) as [Hr|Hr].
      * rewrite bool_decide_true by done. simpl. apply (check_chain _ _ _ _ _ _ m); try done. intros _. apply GetById_handle.
      * rewrite bool_decide_false by done. by rewrite (chain_raw _ _ _ _ _ m).
    + by rewrite (chain_no_metatable _ _ _ _ _ m Hm) by auto.
  - assert (TableGetById_ic_body env tvIndex (AsPointer base) w = Ok ((TValue_default, NotTable), w)) as E
      by (unfold TableGetById_ic_body; by rewrite bool_decide_false).
    read E. apply not_table_chain; try done. intros _. apply GetById_handle.
  - apply not_table_chain; try done. intros _. apply GetById_handle.
Qed.
End get_by_id.
(** ** [GlobalGet] *)

Section global_get.
Variable tvIndex : Z.
Notation key := (AsPointer tvIndex).
Hypothesis string_key : property_key true key.
Notation message := "bad type for GlobalGet"%string.
Notation chain := (index_chain env vm tables (fun m => named_value m key) tvIndex message).
Notation next := (enter (fun m => named_value m key) tvIndex message).

Lemma GlobalGet_check H fuel base m : lua_value base -> table_of base = Some m -> named_value m key = Nil ->
  (handler base <> Nil -> H base (handler base) w = Ok (next fuel base, w)) ->
  GlobalGet_CheckMetatableSlowPath env vm H (AsPointer base) w = Ok (chain fuel base, w).
Proof.
  intros Hv Hm Hr HH. unfold GlobalGet_CheckMetatableSlowPath. rewrite (table_address base m) by done.
  rewrite (search_table_direct _ m); [|by apply table_pointer|done].
  rewrite <- (table_handler base m _ Hm), nil_test, (chain_nil _ _ _ _ _ m) by done. case_decide as Hn.
  - by rewrite bool_decide_true.
  - rewrite bool_decide_false by done. by apply HH.
Qed.

Lemma GlobalGet_handle fuel : forall base, GlobalGet_HandleMetatableSlowPath env vm tvIndex fuel base (handler base) w = Ok (next fuel base, w).
Proof.
  induction fuel as [|fuel IH]; intros base; cbn [GlobalGet_HandleMetatableSlowPath]; unfold enter;
    rewrite !entity_type, Is_function by apply handler_value;
    (case_decide as Hf; [by rewrite bool_decide_true|rewrite bool_decide_false by done]); [done|].
  rewrite (Is_table env hash vm tables w meaning) by apply handler_value. destruct (table_of (handler base)) as [m|] eqn:Hm.
  - rewrite bool_decide_true by done.
    destruct (get_world env hash vm tables w meaning _ m true key (table_pointer tables _ m Hm) string_key) as (ic & E1 & E2 & Hmt).
    cbv zeta. read E1. read E2. rewrite nil_test. destruct (decide (named_value m key = Nil)) as [Hr|Hr].
    + rewrite bool_decide_true by done. rewrite orb_false_r. destruct (GetByIdICInfo.m_mayHaveMetatable ic).
      * apply (GlobalGet_check _ _ _ m); try done. apply handler_value.
      * by rewrite (chain_no_metatable _ _ _ _ _ m Hm) by auto.
    + rewrite bool_decide_false, orb_true_r by done. by rewrite (chain_raw _ _ _ _ _ m).
  - rewrite bool_decide_false by (by intros [? ?]). cbv zeta.
    read (GetMetamethodForValue_world env hash vm tables w meaning (handler base) LuaMetamethodKind.Index (handler_value _)).
    rewrite nil_test, chain_other by done. case_decide as Hn; [by rewrite bool_decide_true|]. rewrite bool_decide_false by done. apply IH.
Qed.

(** The global object is a dictionary. *)
Definition dictionary_table (a : Z) : Prop :=
  exists t, w_tables w !! a = Some t /\ is_Some (dictionaries (w_hc w) !! m_hiddenClass t).

Lemma prepare_global a m : tables !! a = Some m -> dictionary_table a ->
  on_table a (PrepareGetByIdForGlobalObject env true key) w = on_table a (PrepareGetById env true key) w.
Proof.
  intros Ha (t & Ht & Hd). unfold on_table. rewrite Ht.
  destruct (wm_tables _ _ _ _ _ meaning a m Ha) as (t' & Ht' & (K & v & sc & [[[Hinv _ _] _ _] _ _ _ _] & _)).
  assert (t' = t) as -> by congruence. destruct Hd as [d Hd]. destruct (dictionary_type env K _ _ d Hinv Hd) as [_ E].
  unfold PrepareGetByIdForGlobalObject, PrepareGetById. rewrite !(bind_ok _ _ (at_table w t) t (at_table w t)) by done.
  unfold on_heap, query. rewrite !get_bind. unfold PrepareGetByIdImpl. simpl in *. by rewrite E.
Qed.

Lemma GlobalGet_chain fuel base m : lua_value base -> table_of base = Some m -> dictionary_table (AsPointer base) ->
  GlobalGetImpl env vm tvIndex fuel (AsPointer base) w = Ok (chain fuel base, w).
Proof.
  intros Hv Hm Hd. pose proof (table_pointer tables base m Hm) as Ha. unfold GlobalGetImpl, GlobalGet_ic_body.
  destruct (get_world env hash vm tables w meaning _ m true key Ha string_key) as (ic & E1 & E2 & Hmt).
  assert (GlobalGet_ic_body env tvIndex (AsPointer base) w = Ok ((named_value m key, GetByIdICInfo.m_mayHaveMetatable ic), w)) as E.
  { unfold GlobalGet_ic_body. rewrite <- (prepare_global _ m Ha Hd) in E1. read E1.
    rewrite <- (cached_read (AsPointer base) ic _ (fun v => (v, GetByIdICInfo.m_mayHaveMetatable ic)) E2).
    destruct (GetByIdICInfo.m_icKind ic) eqn:Ek; try done. unfold GetById in E2. rewrite Ek in E2. unfold on_table in E2.
    by destruct (w_tables w !! _). }
  read E. rewrite nil_test. destruct (decide (named_value m key = Nil)) as [Hr|Hr].
  - rewrite bool_decide_true by done. rewrite orb_false_r. destruct (GetByIdICInfo.m_mayHaveMetatable ic); simpl.
    + apply (GlobalGet_check _ _ _ m); try done. intros _. apply GlobalGet_handle.
    + by rewrite (chain_no_metatable _ _ _ _ _ m Hm) by auto.
  - rewrite bool_decide_false, orb_true_r by done. by rewrite (chain_raw _ _ _ _ _ m).
Qed.
End global_get.
(** ** Integer indices *)

Lemma int64_index_same v : UnsafeFloatEqual (ViewAsDouble v) (double_of_int (int_of_double (ViewAsDouble v))) = bool_decide (is_Some (IsInt64Index v)).
Proof.
  unfold ViewAsDouble, IsInt64Index. rewrite feq_sym. by destruct (UnsafeFloatEqual _ _).
Qed.

Lemma table_integer a m : tables !! a = Some m -> exists t, means env hash (at_table w t) m /\
  prepare_integer a w = Ok (PrepareGetByIntegerIndex (m_arrayType t), w) /\
  (GetByIntegerIndexICInfo.m_mayHaveMetatable (PrepareGetByIntegerIndex (m_arrayType t)) = false -> metatable m = 0) /\
  (forall A (op : MT A) x, op (at_table w t) = Ok (x, at_table w t) -> on_table a op w = Ok (x, w)).
Proof.
  intros Ha. destruct (wm_tables _ _ _ _ _ meaning a m Ha) as (t & Ht & Hm). exists t. split_and!; [done| | |].
  - by apply (on_table_reads w a t).
  - apply (arrayType_metatable env hash _ m Hm).
  - intros A op x. by apply on_table_reads.
Qed.

Lemma integer_world a m key i : tables !! a = Some m -> IsInt64Index key = Some i ->
  exists ic, prepare_integer a w = Ok (ic, w) /\ get_integer hash a i ic w = Ok (element m key, w) /\
    (GetByIntegerIndexICInfo.m_mayHaveMetatable ic = false -> metatable m = 0).
Proof.
  intros Ha Hk. destruct (table_integer a m Ha) as (t & Hm & Ep & Hmt & Hop). eexists. split_and!; [done| |done].
  apply Hop. by apply (integer_reads env hash (at_table w t) m key i).
Qed.

Lemma double_world a m key : tables !! a = Some m -> IsInt64Index key = None ->
  exists ic, prepare_integer a w = Ok (ic, w) /\
    (match GetByIntegerIndexICInfo.m_icKind ic with
     | GetByIntegerIndexICInfo.VectorStorageOrSparseMap
     | GetByIntegerIndexICInfo.VectorStorageXorSparseMap => on_table a (QueryArraySparseMap hash key)
     | _ => mret Nil
     end) w = Ok (element m key, w) /\
    (GetByIntegerIndexICInfo.m_mayHaveMetatable ic = false -> metatable m = 0).
Proof.
  intros Ha Hk. destruct (table_integer a m Ha) as (t & Hm & Ep & Hmt & Hop). eexists. split_and!; [done| |done].
  pose proof (double_reads env hash (at_table w t) m key Hm Hk) as E.
  change (st_table (at_table w t)) with t in E. destruct (GetByIntegerIndexICInfo.m_icKind _); try (by apply Hop); by injection E as <-.
Qed.

Lemma TryAccess_same i (s : TableObject.St SysHeap) r s' : TryAccessIndexInVectorStorage i s = Ok (r, s') -> s' = s.
Proof.
  unfold TryAccessIndexInVectorStorage, on_butterfly. rewrite !bind_assoc, (bind_ok _ _ s (st_table s) s) by done.
  destruct (b ← m_butterfly (st_table s); m_arrayStorageCapacity b) as [cap|]; [|done]. rewrite (access_bind _ cap) by done.
  destruct (ButterflyHeader.IndexFitsInVectorCapacity _ _); [|by intros [= _ <-]].
  rewrite !bind_assoc, (bind_ok _ _ s (st_table s) s) by done. destruct (b ← m_butterfly (st_table s); GetInVector b i) as [x|]; [|done].
  rewrite (access_bind _ x) by done. by intros [= _ <-].
Qed.

(** The body of the inline caches reads the element. *)
Lemma GetByInteger_ic a m key i : tables !! a = Some m -> IsInt64Index key = Some i ->
  exists kind, TableGetByInteger_ic_body env hash a i w = Ok ((element m key, kind), w) /\
    (kind = MayHaveMetatable \/ kind = NoMetatable /\ (metatable m = 0 \/ element m key <> Nil)).
Proof.
  intros Ha Hk. destruct (table_integer a m Ha) as (t & Hm & Ep & Hmt & Hop). unfold TableGetByInteger_ic_body.
  rewrite bool_decide_true by (by eapply (co_type _ _ _ (wm_closed _ _ _ _ _ meaning))). simpl. read Ep.
  set (ic := PrepareGetByIntegerIndex (m_arrayType t)) in *.
  assert (result_kind (GetByIntegerIndexICInfo.m_mayHaveMetatable ic) = MayHaveMetatable \/
    result_kind (GetByIntegerIndexICInfo.m_mayHaveMetatable ic) = NoMetatable /\ (metatable m = 0 \/ element m key <> Nil)) as Hkind.
  { destruct (GetByIntegerIndexICInfo.m_mayHaveMetatable ic); [by left|right; auto]. }
  destruct (GetByIntegerIndexICInfo.m_isContinuous ic) eqn:Hc.
  - destruct (continuous_reads env hash (at_table w t) m key i Hm Hk Hc) as (b & Eb & Hb). read (Hop _ _ _ Eb). destruct b.
    + destruct Hb as [Eg Hne]. read (Hop _ _ _ Eg). exists NoMetatable. split; [done|auto].
    + rewrite Hb in Hkind |- *. eexists. split; [done|exact Hkind].
  - pose proof (integer_reads env hash (at_table w t) m key i Hm Hk) as E. change (st_table (at_table w t)) with t in E. fold ic in E. unfold GetByIntegerIndex in E.
    exists (result_kind (GetByIntegerIndexICInfo.m_mayHaveMetatable ic)). split; [|done].
    destruct (GetByIntegerIndexICInfo.m_icKind ic); simpl in E.
    2: by injection E as <-.
    all: destruct (TryAccessIndexInVectorStorage i (at_table w t)) as [[r s']| |] eqn:Et;
      [|unfold mbind, M_bind in E; rewrite Et in E; done..]; pose proof (TryAccess_same _ _ _ _ Et) as ->;
      rewrite (bind_ok _ _ _ _ _ Et) in E; read (Hop _ _ _ Et); destruct r as [x|]; simpl in E |- *; [injection E as <-; done|].
    + by injection E as <-.
    + destruct (_ || _); [|by injection E as <-]. by read (Hop _ _ _ E).
    + by read (Hop _ _ _ E).
Qed.
(** ** [TableGetByImm] *)

Section get_by_imm.
Variable index : Z.
Hypothesis int16 : in_i 16 index.
Notation key := (double_of_int index).
Notation message := "bad type for TableGetByImm"%string.
Notation chain := (index_chain env vm tables (fun m => element m key) (CreateDouble key) message).
Notation next := (enter (fun m => element m key) (CreateDouble key) message).

Lemma imm_index : IsInt64Index key = Some index.
Proof. apply IsInt64Index_int. unfold in_i in int16. pow2. lia. Qed.

Lemma GetByImm_handle fuel : forall base,
  GetByImm_HandleMetatableSlowPath env hash vm index fuel base (handler base) w = Ok (next fuel base, w).
Proof.
  induction fuel as [|fuel IH]; intros base; simpl; unfold enter; rewrite Is_function by apply handler_value;
    (case_decide as Hf; [by rewrite bool_decide_true|rewrite bool_decide_false by done]); [done|].
  rewrite (Is_table env hash vm tables w meaning) by apply handler_value. destruct (table_of (handler base)) as [m|] eqn:Hm.
  - rewrite bool_decide_true by done. simpl.
    destruct (integer_world _ m key index (table_pointer tables _ m Hm) imm_index) as (ic & E1 & E2 & Hmt).
    read E1. read E2. rewrite nil_test. destruct (decide (element m key = Nil)) as [Hr|Hr].
    + rewrite bool_decide_true by done. rewrite andb_true_r. destruct (GetByIntegerIndexICInfo.m_mayHaveMetatable ic).
      * by apply (check_chain _ _ _ _ _ _ m).
      * by rewrite (chain_no_metatable _ _ _ _ _ m Hm) by auto.
    + rewrite bool_decide_false, andb_false_r by done. by rewrite (chain_raw _ _ _ _ _ m).
  - rewrite bool_decide_false by (by intros [? ?]). simpl. apply not_table_chain; [apply handler_value|done|done].
Qed.

Lemma TableGetByImm_chain fuel base : lua_value base -> TableGetByImmImpl env hash vm index fuel base w = Ok (chain fuel base, w).
Proof.
  intros Hv. unfold TableGetByImmImpl.
  destruct (entity_cases base Hv) as [(-> & m & Hm & Ha)|[(-> & Ht & Hm)|[-> Hm]]].
  - destruct (GetByInteger_ic _ m key index Ha imm_index) as (kind & E & Hkind). read E. destruct Hkind as [->|[-> Hr]].
    + rewrite nil_test. destruct (decide (element m key = Nil)) as [Hr|Hr].
      * rewrite bool_decide_true by done. simpl. apply (check_chain _ _ _ _ _ _ m); try done. intros _. apply GetByImm_handle.
      * rewrite bool_decide_false by done. by rewrite (chain_raw _ _ _ _ _ m).
    + destruct Hr; [by rewrite (chain_no_metatable _ _ _ _ _ m Hm)|by rewrite (chain_raw _ _ _ _ _ m)].
  - assert (TableGetByInteger_ic_body env hash (AsPointer base) index w = Ok ((TValue_default, NotTable), w)) as E
      by (unfold TableGetByInteger_ic_body; by rewrite bool_decide_false).
    read E. apply not_table_chain; try done. intros _. apply GetByImm_handle.
  - apply not_table_chain; try done. intros _. apply GetByImm_handle.
Qed.
End get_by_imm.
(** ** [TableGetByVal] *)

Section get_by_val.
Variable tvIndex : Z.
Hypothesis tvIndex_key : index_key env vm tvIndex.
Notation raw := (index_value vm tvIndex).
Notation message := "bad type for TableGetByVal"%string.
Notation chain := (index_chain env vm tables raw tvIndex message).

(** On with a metamethod that is no function. *)
Notation onward fuel base := (match fuel with O => None | S fuel => chain fuel (handler base) end).

Lemma GetByVal_search base m again fuel : table_of base = Some m -> raw m = Nil ->
  (handler base <> Nil -> again (handler base) w = Ok (onward fuel base, w)) ->
  GetByVal_metamethod env vm tvIndex base again w = Ok (chain fuel base, w).
Proof.
  intros Hm Hr Hag. unfold GetByVal_metamethod, GetIndexMetamethodFromTableObject. rewrite (chain_nil _ _ _ fuel base m Hm Hr). unfold enter.
  destruct (metamethod_search _ m LuaMetamethodKind.Index (table_pointer tables base m Hm)) as (r & Er & _ & Hc).
  rewrite <- (table_handler base m _ Hm) in Hc. rewrite bind_assoc. read Er. destruct Hc as [[-> Hn]|(-> & Eg & b & Eb & Hb)]; simpl.
  { by rewrite decide_True. }
  rewrite bind_assoc. read Eb. destruct b; simpl; [by rewrite decide_True by auto|]. rewrite bind_assoc. read Eg. rewrite ret_bind, nil_test.
  case_decide as Hn; [by rewrite bool_decide_true|]. rewrite (bool_decide_false (handler base = Nil)) by done. cbn [negb].
  rewrite Is_function by apply handler_value. case_decide as Hf; [by rewrite bool_decide_true|]. rewrite bool_decide_false by done. by apply Hag.
Qed.

Lemma value_double v d : unbox v = LDouble d -> d = v.
Proof. unfold unbox. destruct (IsDouble v); [by intros [= <-]|]. destruct (IsInt32 v); [done|]. by destruct (IsMIV v). Qed.

Lemma value_AsMIV v k : unbox v = LMIV k -> AsMIV v = k.
Proof. unfold unbox. destruct (IsDouble v); [done|]. destruct (IsInt32 v); [done|]. destruct (IsMIV v); [by intros [= <-]|done]. Qed.

(** A value that is no double is no integer index. *)
Lemma int64_double : is_Some (IsInt64Index tvIndex) -> exists d, unbox tvIndex = LDouble d /\ IsNaN d = false.
Proof.
  intros [i Hi]. destruct tvIndex_key as [(x & Ex & Hx & _) _]. pose proof (IsInt64Index_Some _ _ Hi) as (_ & Hf & _).
  apply feq_spec in Hf as (_ & Hn & _).
  rewrite Ex in Hn |- *. rewrite unbox_box_lemma by done. destruct (IsDouble (box x)) eqn:Ed; [|by rewrite box_not_double_NaN in Hn].
  pose proof (tests_box x Hx) as Ht. unfold tag_tests in Ht. destruct x as [d| | |]; cbn [box] in *; injection Ht as Ht _ _ _; try congruence. by exists d.
Qed.

Lemma raw_integer i m : IsInt64Index tvIndex = Some i -> raw m = element m tvIndex.
Proof.
  intros Hi. destruct int64_double as (d & E & Hn); [by eexists|]. unfold index_value. rewrite E, Hn. by rewrite (value_double _ _ E).
Qed.

(** A round of the loops over other indices. *)
Lemma GetByVal_round base m again fuel : table_of base = Some m -> IsInt64Index tvIndex = None ->
  (handler base <> Nil -> again (handler base) w = Ok (onward fuel base, w)) ->
  GetByVal_not_int64 env hash vm tvIndex base tvIndex again w = Ok (chain fuel base, w).
Proof.
  intros Hm Hi Hag. pose proof (table_pointer tables base m Hm) as Ha. destruct tvIndex_key as [Hv Hk].
  pose proof (value_tests env tvIndex Hv) as Ht. unfold tag_tests in Ht.
  assert (forall b r, r = raw m -> (b = false -> metatable m = 0) ->
    (if negb b || negb (Is env tNil r) then Return r else GetByVal_metamethod env vm tvIndex base again) w = Ok (chain fuel base, w)) as Hend.
  { intros b r -> Hb. rewrite nil_test. destruct (decide (raw m = Nil)) as [Hr|Hr].
    - rewrite bool_decide_true, orb_false_r by done. destruct b; simpl; [by apply (GetByVal_search _ m)|].
      by rewrite (chain_no_metatable _ _ _ _ _ m Hm) by auto.
    - rewrite bool_decide_false, orb_true_r by done. by rewrite (chain_raw _ _ _ _ _ m). }
  assert (forall b r, r = raw m -> (b = false -> metatable m = 0) ->
    (if negb b then Return r else if negb (Is env tNil r) then Return r else GetByVal_metamethod env vm tvIndex base again) w
    = Ok (chain fuel base, w)) as Hend'.
  { intros b r Hr Hb. rewrite <- (Hend b r Hr Hb). by destruct b. }
  unfold GetByVal_not_int64. cbv zeta. rewrite (Is_entity env tvIndex Hv). change (Is env tDouble tvIndex) with (IsDouble tvIndex).
  assert (raw m = match unbox tvIndex with
    | LDouble d => if IsNaN d then Nil else element m d
    | LPointer p => named_value m p
    | LMIV k => if k =? MIV.x_nil then Nil else named_value m (m_specialKeyForBooleanIndex vm (MIV.GetBooleanValue k))
    | LInt32 _ => Nil end) as Hraw by done.
  destruct (unbox tvIndex) as [d| |k|p] eqn:E; [|done|..]; injection Ht as Hd _ _ _; rewrite ?Hd.
  - assert (d = tvIndex) as -> by (by apply value_double). unfold GetByVal_double. destruct (IsNaN tvIndex).
    + apply (GetByVal_search _ m); try done.
    + destruct (double_world _ m tvIndex Ha Hi) as (ic & E1 & E2 & Hmt). read E1. read E2. by apply Hend'.
  - unfold GetByVal_miv. rewrite nil_test. rewrite (value_AsMIV _ k E).
    assert ((tvIndex = Nil) <-> k = MIV.x_nil) as Hnil.
    { split; [intros ->; by injection E as <-|]. intros ->. destruct Hv as (x & -> & Hx & _). rewrite unbox_box_lemma in E by done. by subst x. }
    destruct (Z.eqb_spec k MIV.x_nil) as [Hz|Hz].
    + rewrite bool_decide_true by (by apply Hnil). simpl. by apply (GetByVal_search _ m).
    + rewrite bool_decide_false by (intros Hz'; by apply Hz, Hnil). unfold VM_GetSpecialKeyForBoolean.
      pose proof (Hk (MIV.GetBooleanValue k)) as Hkey. destruct (Z.eqb_spec (m_specialKeyForBooleanIndex vm (MIV.GetBooleanValue k)) 0) as [H0|_].
      { rewrite H0 in Hkey. by destruct Hkey as [[[_ ?] _] _]. }
      destruct (get_world env hash vm tables w meaning _ m true _ Ha Hkey) as (ic & E1 & E2 & Hmt). read E1. read E2. by apply Hend'.
  - unfold GetByVal_heap_entity. rewrite (value_pointer _ p E).
    destruct (get_world env hash vm tables w meaning _ m false p Ha Hk) as (ic & E1 & E2 & Hmt). read E1. read E2. by apply Hend.
Qed.

(** The three loops. *)
Definition loops_run (fuel : nat) : Prop := forall base,
  (forall m, table_of base = Some m -> raw m = Nil -> is_Some (IsInt64Index tvIndex) ->
     Int64IndexCheckMetatableSlowPath env hash vm tvIndex fuel base w = Ok (chain fuel base, w)) /\
  (forall m, table_of base = Some m -> IsInt64Index tvIndex = None ->
     NotInt64IndexTable env hash vm tvIndex fuel base tvIndex w = Ok (chain fuel base, w)) /\
  (table_of base = None -> lua_value base -> GetByVal_HandleNotTableObjectSlowPath env hash vm tvIndex fuel base w = Ok (chain fuel base, w)).

Lemma int64_index i : IsInt64Index tvIndex = Some i -> int_of_double (ViewAsDouble tvIndex) = i.
Proof. unfold IsInt64Index, ViewAsDouble. destruct (UnsafeFloatEqual _ _); [by intros [= <-]|done]. Qed.

(** A round over an integer index; [loop] is the loop over these. *)
Lemma GetByVal_integer base m i (loop : Run) fuel : table_of base = Some m -> IsInt64Index tvIndex = Some i ->
  (raw m = Nil -> loop w = Ok (chain fuel base, w)) ->
  (icInfo ← prepare_integer (AsPointer base);
   result ← get_integer hash (AsPointer base) (int_of_double (ViewAsDouble tvIndex)) icInfo;
   if negb (GetByIntegerIndexICInfo.m_mayHaveMetatable icInfo) || negb (Is env tNil result) then Return result else loop) w
  = Ok (chain fuel base, w).
Proof.
  intros Hm Hi Hloop. rewrite (int64_index i Hi).
  destruct (integer_world _ m tvIndex i (table_pointer tables base m Hm) Hi) as (ic & E1 & E2 & Hmt). read E1. read E2.
  rewrite <- (raw_integer i m Hi), nil_test. destruct (decide (raw m = Nil)) as [Hr|Hr].
  - rewrite bool_decide_true, orb_false_r by done. destruct (GetByIntegerIndexICInfo.m_mayHaveMetatable ic); simpl; [by apply Hloop|].
    by rewrite (chain_no_metatable _ _ _ _ _ m Hm) by auto.
  - rewrite bool_decide_false, orb_true_r by done. by rewrite (chain_raw _ _ _ _ _ m).
Qed.

(** The metamethod of [base] as the next base. *)
Lemma next_base fuel base : loops_run fuel ->
  (is_Some (IsInt64Index tvIndex) ->
   (if negb (Is env (tHeap Table) (handler base)) then GetByVal_HandleNotTableObjectSlowPath env hash vm tvIndex fuel (handler base)
    else icInfo ← prepare_integer (AsPointer (handler base));
         result ← get_integer hash (AsPointer (handler base)) (int_of_double (ViewAsDouble tvIndex)) icInfo;
         if negb (GetByIntegerIndexICInfo.m_mayHaveMetatable icInfo) || negb (Is env tNil result) then Return result
         else Int64IndexCheckMetatableSlowPath env hash vm tvIndex fuel (handler base)) w = Ok (chain fuel (handler base), w)) /\
  (IsInt64Index tvIndex = None ->
   (if negb (Is env (tHeap Table) (handler base)) then GetByVal_HandleNotTableObjectSlowPath env hash vm tvIndex fuel (handler base)
    else NotInt64IndexTable env hash vm tvIndex fuel (handler base) tvIndex) w = Ok (chain fuel (handler base), w)).
Proof.
  intros IH. destruct (IH (handler base)) as (IH1 & IH2 & IH3). pose proof (handler_value base) as Hv.
  rewrite (Is_table env hash vm tables w meaning _ Hv). destruct (table_of (handler base)) as [m|] eqn:Hm.
  - rewrite bool_decide_true by done. simpl negb. cbv iota. split; [|by apply (IH2 m)].
    intros [i Hi]. apply (GetByVal_integer _ m i); [done|done|]. intros Hr. by apply (IH1 m).
  - rewrite bool_decide_false by (by intros [? ?]). simpl negb. cbv iota. split; intros _; by apply IH3.
Qed.

Lemma loops fuel : loops_run fuel.
Proof.
  induction fuel as [|fuel IH]; intros base; split_and!.
  - intros m Hm Hr _. cbn [Int64IndexCheckMetatableSlowPath]. by apply (GetByVal_search _ m _ 0).
  - intros m Hm Hi. cbn [NotInt64IndexTable]. by apply (GetByVal_round _ m _ 0).
  - intros Hm Hv. cbn [GetByVal_HandleNotTableObjectSlowPath]. apply (not_table_chain _ _ _ (fun base v => _) 0 base Hv Hm). intros Hn.
    rewrite Is_function by apply handler_value. unfold enter. case_decide as Hf; [by rewrite bool_decide_true|by rewrite bool_decide_false].
  - intros m Hm Hr Hi. cbn [Int64IndexCheckMetatableSlowPath]. apply (GetByVal_search _ m _ (S fuel)); try done. intros _. by apply next_base.
  - intros m Hm Hi. cbn [NotInt64IndexTable]. apply (GetByVal_round _ m _ (S fuel)); try done. intros _. by apply next_base.
  - intros Hm Hv. cbn [GetByVal_HandleNotTableObjectSlowPath]. apply (not_table_chain _ _ _ (fun base v => _) (S fuel) base Hv Hm). intros Hn.
    rewrite Is_function by apply handler_value. unfold enter. case_decide as Hf; [by rewrite bool_decide_true|]. rewrite bool_decide_false by done.
    cbv zeta. fold (Int64IndexCheckMetatableSlowPath env hash vm tvIndex) (NotInt64IndexTable env hash vm tvIndex).
    rewrite int64_index_same. case_bool_decide as Hi; cbv iota; [apply (proj1 (next_base fuel base IH) Hi)|]. apply (proj2 (next_base fuel base IH)). by apply eq_None_not_Some.
Qed.

Lemma TableGetByVal_chain fuel base : lua_value base -> TableGetByValImpl env hash vm tvIndex fuel base w = Ok (chain fuel base, w).
Proof.
  intros Hv. unfold TableGetByValImpl. cbv zeta. rewrite int64_index_same. destruct (loops fuel base) as (L1 & L2 & L3).
  destruct (entity_cases base Hv) as [(He & m & Hm & Ha)|[(He & Ht & Hm)|[He Hm]]].
  - case_bool_decide as Hi.
    + rewrite He. destruct Hi as [i Hi]. rewrite (int64_index i Hi).
      destruct (GetByInteger_ic _ m tvIndex i Ha Hi) as (kind & E & Hkind). read E. rewrite <- (raw_integer i m Hi) in *. destruct Hkind as [->|[-> Hr]].
      * rewrite nil_test. case_bool_decide as Hr; simpl; [by apply (L1 m)|]. by rewrite (chain_raw _ _ _ _ _ m).
      * destruct Hr; [by rewrite (chain_no_metatable _ _ _ _ _ m Hm)|by rewrite (chain_raw _ _ _ _ _ m)].
    + unfold GetByVal_HandleNotInt64IndexSlowPath. rewrite (Is_table env hash vm tables w meaning) by done. rewrite bool_decide_true by (by rewrite Hm).
      apply (L2 m Hm). by apply eq_None_not_Some.
  - case_bool_decide as Hi.
    + rewrite He. assert (TableGetByInteger_ic_body env hash (AsPointer base) (int_of_double (ViewAsDouble tvIndex)) w = Ok ((TValue_default, NotTable), w)) as E
        by (unfold TableGetByInteger_ic_body; by rewrite bool_decide_false).
      read E. by apply L3.
    + unfold GetByVal_HandleNotInt64IndexSlowPath. rewrite (Is_table env hash vm tables w meaning) by done.
      rewrite bool_decide_false by (rewrite Hm; by intros [? ?]). by apply L3.
  - assert (GetByVal_HandleNotInt64IndexSlowPath env hash vm tvIndex fuel base (ViewAsDouble tvIndex) w = Ok (chain fuel base, w)) as E.
    { unfold GetByVal_HandleNotInt64IndexSlowPath. rewrite (Is_table env hash vm tables w meaning) by done.
      rewrite bool_decide_false by (rewrite Hm; by intros [? ?]). by apply L3. }
    case_bool_decide; [rewrite He; by apply L3|exact E].
Qed.
End get_by_val.
End proofs.
