(* ===== verification/TablePut.v ===== *)
(** * Puts into the tables of a world

    The two halves of a put by name at one table, with what is known between them,
    and the frame of work on one table in a world whose tables mean maps. *)

From S2P Require Import Prelude Double TValue MiscMath Machine TypeMask ArrayType Butterfly SparseMap HiddenClass TableObject TableArray TableTheorems Probing CheckedTable ClassHeap Structure Transition ClassInv ClassLookup ClassFrame ClassCreate ClassTransition ClassQuery ClassOps ClassView ClassTheorems Dictionary TableClasses NamedProps NamedInv NamedPut NamedTransition NamedMeta TableWhole TableHistory TableCreate TableClone TableWorld Metatables Metamethods.

Section table_put.
Variable env : Env.
Variable hash : Z -> Z.
Hypothesis special_user : user_key (GetSpecialKeyForMetadataSlot env).
Notation St := (TableObject.St SysHeap).
Implicit Types (s : St).
Notation means := (means env hash).

(** Between the preparation and the put. *)
Record ready s (m : Meaning) (isString : bool) (key : Z) (ic : PutByIdICInfo.t) s1 : Prop := {
  rd_means : means s1 m;
  rd_isolated : isolated s s1;
  rd_metatable : PutByIdICInfo.m_mayHaveMetatable ic = false -> metatable m = 0;
  rd_cacheable : PutByIdICInfo.m_isInlineCacheable ic =
    negb (bool_decide (PutByIdICInfo.m_icKind ic = PutByIdICInfo.TransitionedToDictionaryMode));
  rd_exists : if PutByIdICInfo.m_propertyExists ic
    then PutByIdICInfo.m_isInlineCacheable ic = true /\ PutByIdICInfo.m_shouldGrowButterfly ic = false /\
      (if decide (PutByIdICInfo.m_icKind ic = PutByIdICInfo.InlinedStorage) then read_inline (PutByIdICInfo.m_slot ic)
       else read_outline (PutByIdICInfo.m_slot ic)) s1 = Ok (named_value m key, s1)
    else named_value m key = Nil /\ is_Some (structures (st_hc s1) !! m_hiddenClass (st_table s1));
  rd_put : forall x, wp (PutById env key x ic) s1
    (fun _ s' => means s' (meaning_after m (PutNamed isString key x)) /\ isolated s s') (put_exhausted s)
}.

Lemma PreparePutById_ready s m isString key : means s m -> property_key env isString key ->
  wp (PreparePutById env isString key) s (fun ic s1 => ready s m isString key ic s1) (put_exhausted s).
Proof.
  intros (K & v & sc & Hw & Hg) Hk. pose proof (PreparePutById_at env special_user K s v _ _ isString key (wh_props _ _ _ _ _ _ _ _ Hw) Hk) as Hp.
  assert (forall f' s', becomes env K s v f' (metatable m) s' -> (m_butterfly (st_table s') = None -> m_butterfly (st_table s) = None) ->
    means s' (mkMeaning f' (metatable m) (element m)) /\ isolated s s') as Hmeans.
  { intros f' s' Hb Hn. destruct (becomes_whole env hash K s v _ _ sc f' _ s' Hw Hb Hn) as ((K' & v' & sc' & Hw' & Hg') & Hi). split; [|done].
    exists K', v', sc'. split; [done|]. intros k. simpl. by rewrite Hg', Hg. }
  destruct (wp_cases _ _ _ _ Hp) as [(ic & s1 & E & Hpp)|[E Hex]]; unfold wp; rewrite E; [|done].
  destruct Hpp as [Hb _ Hmt Hca Hx Hput]. destruct (Hmeans _ _ Hb (keeps_PreparePutById env isString key s ic s1 E)) as [Hm1 Hi1].
  split; try done. intros x.
  destruct (wp_cases _ _ _ _ (Hput x)) as [([] & s' & E' & Hb')|[E' Hex]]; unfold wp; rewrite E'; [|done].
  apply (Hmeans (write (named_value m) key x) s' Hb'). apply (keeps_RawPutById env isString key x s tt s'). unfold RawPutById.
  by rewrite (bind_ok _ _ _ _ _ E).
Qed.

(** The check whether the metatable counts. *)
Lemma NeedToCheck_ready s m isString key ic s1 : ready s m isString key ic s1 ->
  exists b, PutByIdNeedToCheckMetatable ic s1 = Ok (b, s1) /\
    if b then named_value m key = Nil else metatable m = 0 \/ named_value m key <> Nil.
Proof.
  intros [_ _ Hmt Hca Hx _]. unfold PutByIdNeedToCheckMetatable.
  destruct (PutByIdICInfo.m_mayHaveMetatable ic); simpl; [|exists false; auto].
  destruct (PutByIdICInfo.m_propertyExists ic); simpl; [|exists true; by destruct Hx].
  destruct Hx as (Hc & _ & Hr). rewrite Hca in Hc. exists (IsNil (named_value m key)). split.
  - destruct (PutByIdICInfo.m_icKind ic); [done|simpl in Hr..]; by rewrite (bind_ok _ _ _ _ _ Hr).
  - unfold IsNil. destruct (Z.eqb_spec (named_value m key) Nil); auto.
Qed.
End table_put.

(** ** Work on one table of a world *)

Section world_put.
Variable env : Env.
Variable hash : Z -> Z.
Variable vm : VM.
Hypothesis special_user : user_key (GetSpecialKeyForMetadataSlot env).
Notation means := (means env hash).

(** The tables mean maps, and have no dictionary and no sparse map in common. *)
Record world_stands (w : World) (tables : gmap Z Meaning) : Prop := {
  ws_means : world_means env hash vm w tables;
  ws_apart : forall a b t u, a <> b -> is_Some (tables !! a) -> is_Some (tables !! b) ->
    w_tables w !! a = Some t -> w_tables w !! b = Some u -> apart (w_hc w) t u
}.

(** The world after work on the table at [a]. *)
Definition worked (w : World) (a : Z) (s : TableObject.St SysHeap) : World := with_state s (<[a := st_table s]> (w_tables w)).

Lemma worked_view w a s : at_table (worked w a s) (st_table s) = s.
Proof. by destruct s. Qed.

Lemma worked_twice w a s s' : worked (worked w a s) a s' = worked w a s'.
Proof. unfold worked, with_state. simpl. by rewrite insert_insert_eq. Qed.

(** Values and metatables stay among those of the program. *)
Lemma closed_put tables a m m' : closed env vm tables -> tables !! a = Some m ->
  metatable m' = metatable m -> (forall key, lua_value env (named_value m' key)) -> (forall k, lua_value env (element m' k)) ->
  closed env vm (<[a := m']> tables).
Proof.
  intros [] Ha Hmt Hn He.
  assert (forall p, is_Some (<[a := m']> tables !! p) <-> is_Some (tables !! p)) as Hdom.
  { intros p. destruct (decide (p = a)) as [->|Hne]; [rewrite lookup_insert_eq, Ha; split; by eexists|by rewrite lookup_insert_ne]. }
  assert (forall p, table_or_null tables p -> table_or_null (<[a := m']> tables) p) as Htn by (intros p [?|?]; [by left|right; by apply Hdom]).
  split; try done.
  - intros p. by rewrite Hdom.
  - apply eq_None_not_Some. rewrite Hdom, co_null. by intros [? ?].
  - intros p m0 Hp. apply Htn. destruct (decide (p = a)) as [->|Hne].
    + rewrite lookup_insert_eq in Hp. injection Hp as <-. rewrite Hmt. by apply (co_metatables a).
    + rewrite lookup_insert_ne in Hp by done. by apply (co_metatables p).
  - eapply Forall_impl; [exact co_vm|done].
  - intros p m0 Hp. destruct (decide (p = a)) as [->|Hne].
    + rewrite lookup_insert_eq in Hp. by injection Hp as <-.
    + rewrite lookup_insert_ne in Hp by done. by apply (co_values p).
Qed.

Lemma world_work w tables a m t s m' : world_stands w tables -> tables !! a = Some m -> w_tables w !! a = Some t ->
  isolated (at_table w t) s -> means s m' -> closed env vm (<[a := m']> tables) -> world_stands (worked w a s) (<[a := m']> tables).
Proof.
  intros [[Hmeans _] Hapart] Ha Ht Hi Hs Hcl.
  assert (forall b n u, b <> a -> tables !! b = Some n -> w_tables w !! b = Some u -> means (focus (at_table w t) u) n /\ apart (w_hc w) t u) as Hothers.
  { intros b n u Hne Hb Hu. destruct (Hmeans b n Hb) as (u' & Hu' & Hm). assert (u' = u) as -> by congruence. split; [exact Hm|].
    by apply (Hapart a b); try done; eexists. }
  split; [split; [|done]|].
  - intros b n Hb. simpl. destruct (decide (b = a)) as [->|Hne].
    + rewrite lookup_insert_eq in Hb. injection Hb as <-. exists (st_table s). split; [apply lookup_insert_eq|].
      change (means (at_table (worked w a s) (st_table s)) m'). by rewrite worked_view.
    + rewrite lookup_insert_ne in Hb by done. destruct (Hmeans b n Hb) as (u & Hu & Hm). exists u. split; [by rewrite lookup_insert_ne|].
      apply (isolated_means env hash (at_table w t) s m' u n); try done. by apply (Hothers b n u).
  - intros b c u u' Hbc [nb Hb] [nc Hc]. simpl. destruct (decide (b = a)) as [->|Hba]; [|destruct (decide (c = a)) as [->|Hca]].
    + rewrite lookup_insert_eq, lookup_insert_ne by done. intros [= <-] Hu'. rewrite lookup_insert_ne in Hc by done.
      destruct (Hothers c nc u') as [Hm Hap]; try done. by eapply (isolated_apart env hash (at_table w t)).
    + rewrite lookup_insert_eq, lookup_insert_ne by done. intros Hu [= <-]. rewrite lookup_insert_ne in Hb by done.
      destruct (Hothers b nb u) as [Hm Hap]; try done. apply apart_sym. by eapply (isolated_apart env hash (at_table w t)).
    + rewrite !lookup_insert_ne by done. intros Hu Hu'. rewrite lookup_insert_ne in Hb, Hc by done.
      destruct (Hothers b nb u) as [Hm _]; try done. eapply (isolated_others env hash (at_table w t)); try done.
      by apply (Hapart b c); try done; eexists.
Qed.

(** Work that does not change the meaning. *)
Lemma world_same w tables a m t s : world_stands w tables -> tables !! a = Some m -> w_tables w !! a = Some t ->
  isolated (at_table w t) s -> means s m -> world_stands (worked w a s) tables.
Proof.
  intros Hw Ha Ht Hi Hs. rewrite <- (insert_id tables a m Ha). eapply world_work; try done. rewrite insert_id by done. apply Hw.
Qed.
End world_put.
