(* ===== verification/PutBytecodes.v ===== *)
(** * The bytecodes that write a field ([annotated/bytecodes/table_put_by_id.cpp, global_put.cpp])

    [TablePutById] and [GlobalPut], with their slow paths, in the conventions of
    [GetBytecodes].  The continuation of a call returns nothing. *)

From Stdlib Require Import String.
From S2P Require Import Prelude Double TValue MiscMath Machine TypeMask ArrayType Butterfly SparseMap HiddenClass TableObject TableArray TableTheorems Probing CheckedTable ClassHeap Structure Transition ClassInv ClassLookup ClassFrame ClassCreate ClassTransition ClassQuery ClassOps ClassView ClassTheorems Dictionary TableClasses NamedProps NamedInv NamedPut NamedTransition NamedMeta TableWhole TableHistory TableCreate TableClone TableWorld Metatables Metamethods MetamethodChain IndexEvent GetBytecodes.

(** [Return()]. *)
Definition ReturnNothing : Run := mret (Some ReturnsNothing).

(** What the body of an inline cache has done, or leaves to do; the enumerations of
    the bytecodes in one.  Only the indexed puts have [SlowPathPut]. *)
Inductive TablePutIcResultKind := PutNotTable | HandleMetamethod | NoMetamethod | SlowPathPut.

Section bytecodes.
Variable env : Env.
Variable hash : Z -> Z.
Variable vm : VM.
#[local] Instance bytecode_ops : HiddenClassOps SysHeap := sys_ops env.
Notation IsHeapEntity := (Is env tHeapEntity).
Notation type_of v := (GetHeapEntityType (m_type env) v).

(** ** [TablePutById] *)

Section put_by_id.
Variable tvIndex : Z.
Variable valueToPut : Z.
Notation index := (AsPointer tvIndex).

(** The loop of the slow path, which [GlobalPut] has too, with its own message. *)
Fixpoint PutById_HandleMetamethodSlowPath (message : string) (fuel : nat) (base metamethod : Z) : Run :=
  if IsHeapEntity metamethod && bool_decide (type_of metamethod = Function_)
  then MakeCall (AsPointer metamethod) [base; tvIndex; valueToPut]
  else
    match fuel with
    | O => out_of_fuel
    | S fuel =>
        if IsHeapEntity metamethod && bool_decide (type_of metamethod = Table) then
          let tableObj := AsPointer metamethod in
          icInfo ← on_table tableObj (PreparePutById env true index);
          check ← on_table tableObj (PutByIdNeedToCheckMetatable icInfo);
          metamethod ← (if (check : bool) then GetNewIndexMetamethodFromTableObject env vm tableObj else mret Nil);
          if negb (Is env tNil metamethod)
          then PutById_HandleMetamethodSlowPath message fuel (CreatePointer tableObj) metamethod
          else on_table tableObj (PutById env index valueToPut icInfo);; ReturnNothing
        else
          let base := metamethod in
          metamethod ← GetMetamethodForValue env vm metamethod LuaMetamethodKind.NewIndex;
          if Is env tNil metamethod then ThrowError message
          else PutById_HandleMetamethodSlowPath message fuel base metamethod
    end.

Definition PutById_HandleNotTableObjectSlowPath (fuel : nat) (base : Z) : Run :=
  metamethod ← GetMetamethodForValue env vm base LuaMetamethodKind.NewIndex;
  if Is env tNil metamethod then ThrowError "bad type for TablePutById"
  else PutById_HandleMetamethodSlowPath "bad type for TablePutById" fuel base metamethod.

(** [namespace PutByIdICHelper]. *)
Definition StoreValueIntoTableObject (kind : PutByIdICInfo.ICKind) (slot v : Z) : MT unit :=
  if decide (kind = PutByIdICInfo.InlinedStorage) then write_inline slot v else write_outline slot v.
Definition GetOldValueFromTableObject (kind : PutByIdICInfo.ICKind) (slot : Z) : MT Z :=
  if decide (kind = PutByIdICInfo.InlinedStorage) then read_inline slot else read_outline slot.

(** The look at [__newindex], and the put if there is none. *)
Definition put_unless_newindex (tableObj : Z) (put : MW unit) : MW (Z * TablePutIcResultKind) :=
  mm ← GetNewIndexMetamethodFromTableObject env vm tableObj;
  if negb (Is env tNil mm) then mret (mm, HandleMetamethod) else put;; mret (TValue_default, NoMetamethod).

(** The effects that add a property. *)
Definition ic_put_and_grow (c_icKind : PutByIdICInfo.ICKind) (c_slot c_newStructure : Z) : MT unit :=
  t ← get_table;
  oldStructure ← on_heap (load_structure (m_hiddenClass t));
  newStructure ← on_heap (load_structure c_newStructure);
  TableObject_GrowButterflyKnowingNamedStorageCapacity (s_butterflyNamedStorageCapacity oldStructure)
    (s_butterflyNamedStorageCapacity newStructure);;
  set_hiddenClass c_newStructure;;
  StoreValueIntoTableObject c_icKind c_slot valueToPut.
Definition ic_put_new (c_icKind : PutByIdICInfo.ICKind) (c_slot c_newStructure : Z) : MT unit :=
  set_hiddenClass c_newStructure;;
  StoreValueIntoTableObject c_icKind c_slot valueToPut.

Definition TablePutById_ic_body (tableObj : Z) : MW (Z * TablePutIcResultKind) :=
  if negb (bool_decide (m_type env tableObj = Table)) then mret (TValue_default, PutNotTable)
  else
    c_info ← on_table tableObj (PreparePutById env true index);
    let c_slot := PutByIdICInfo.m_slot c_info in
    let c_icKind := PutByIdICInfo.m_icKind c_info in
    let c_newStructure := PutByIdICInfo.m_newStructure c_info in
    if negb (PutByIdICInfo.m_isInlineCacheable c_info) then
      check ← on_table tableObj (PutByIdNeedToCheckMetatable c_info);
      mm ← (if (check : bool) then GetNewIndexMetamethodFromTableObject env vm tableObj else mret Nil);
      if negb (Is env tNil mm) then mret (mm, HandleMetamethod)
      else on_table tableObj (PutByIdTransitionToDictionaryImpl env index valueToPut);; mret (TValue_default, NoMetamethod)
    else if negb (PutByIdICInfo.m_mayHaveMetatable c_info) then
      on_table tableObj
        (if PutByIdICInfo.m_propertyExists c_info then StoreValueIntoTableObject c_icKind c_slot valueToPut
         else if PutByIdICInfo.m_shouldGrowButterfly c_info then ic_put_and_grow c_icKind c_slot c_newStructure
         else ic_put_new c_icKind c_slot c_newStructure);;
      mret (TValue_default, NoMetamethod)
    else if negb (PutByIdICInfo.m_propertyExists c_info) then
      put_unless_newindex tableObj
        (on_table tableObj (if PutByIdICInfo.m_shouldGrowButterfly c_info then ic_put_and_grow c_icKind c_slot c_newStructure
                            else ic_put_new c_icKind c_slot c_newStructure))
    else
      oldValue ← on_table tableObj (GetOldValueFromTableObject c_icKind c_slot);
      let store := on_table tableObj (StoreValueIntoTableObject c_icKind c_slot valueToPut) in
      if Is env tNil oldValue then put_unless_newindex tableObj store else store;; mret (TValue_default, NoMetamethod).

Definition TablePutByIdImpl (fuel : nat) (base : Z) : Run :=
  if IsHeapEntity base then
    '(metamethod, resKind) ← TablePutById_ic_body (AsPointer base);
    match resKind with
    | NoMetamethod | SlowPathPut => ReturnNothing
    | HandleMetamethod => PutById_HandleMetamethodSlowPath "bad type for TablePutById" fuel base metamethod
    | PutNotTable => PutById_HandleNotTableObjectSlowPath fuel base
    end
  else PutById_HandleNotTableObjectSlowPath fuel base.

(** ** [GlobalPut] *)

Definition GlobalPut_ic_body (base : Z) : MW (Z * bool) :=
  c_info ← on_table base (PreparePutByIdForGlobalObject env true index);
  let c_slot := PutByIdICInfo.m_slot c_info in
  let c_icKind := PutByIdICInfo.m_icKind c_info in
  let store := on_table base (StoreValueIntoTableObject c_icKind c_slot valueToPut) in
  if negb (PutByIdICInfo.m_mayHaveMetatable c_info) then store;; mret (TValue_default, false)
  else
    oldValue ← on_table base (GetOldValueFromTableObject c_icKind c_slot);
    mm ← (if Is env tNil oldValue then GetNewIndexMetamethodFromTableObject env vm base else mret Nil);
    if negb (Is env tNil mm) then mret (mm, true) else store;; mret (TValue_default, false).

(** [base] is [GetFEnvGlobalObject()]. *)
Definition GlobalPutImpl (fuel : nat) (base : Z) : Run :=
  '(metamethod, hasMetamethod) ← GlobalPut_ic_body base;
  if negb (hasMetamethod : bool) then ReturnNothing
  else PutById_HandleMetamethodSlowPath "bad type for GlobalPut" fuel (CreatePointer base) metamethod.
End put_by_id.
End bytecodes.
