(* ===== verification/PutIndexBytecodes.v ===== *)
(** * The bytecodes that write an element ([annotated/bytecodes/table_put_by_imm.cpp, table_put_by_val.cpp])

    [TablePutByImm] and [TablePutByVal], with their slow paths, in the conventions
    of [GetBytecodes].  The two have the code for 64-bit integer indices in common,
    but for one test, which is the argument [check_index]. *)

From Stdlib Require Import String.
From S2P Require Import Prelude Double TValue MiscMath Machine TypeMask ArrayType Butterfly SparseMap HiddenClass TableObject TableArray TableTheorems Probing CheckedTable ClassHeap Structure Transition ClassInv ClassLookup ClassFrame ClassCreate ClassTransition ClassQuery ClassOps ClassView ClassTheorems Dictionary TableClasses NamedProps NamedInv NamedPut NamedTransition NamedMeta TableWhole TableHistory TableCreate TableClone TableWorld Metatables Metamethods IndexEvent GetBytecodes PutBytecodes.

#[export] Instance ValueCheckKind_eq_dec : EqDecision ValueCheckKind.
Proof. solve_decision. Defined.

Section bytecodes.
Variable env : Env.
Variable hash : Z -> Z.
Variable vm : VM.
#[local] Instance put_index_ops : HiddenClassOps SysHeap := sys_ops env.
Notation IsHeapEntity := (Is env tHeapEntity).
Notation IsTable := (Is env (tHeap Table)).
Notation IsFunction := (Is env (tHeap Function_)).
Notation type_of v := (GetHeapEntityType (m_type env) v).

(** ** Integer indices *)

Section put_by_integer.
Variable index : Z.
(** The index as the value that a metamethod gets. *)
Variable tvIndex : Z.
Variable valueToPut : Z.

(** [IcSpecializeValueFullCoverage] ([deegen/api_inline_cache.h]): the behaviour is
    undefined for a value that is not in the list. *)
Definition IcSpecializeValueFullCoverage (capture : ValueCheckKind) (values : list ValueCheckKind) : MW unit :=
  if bool_decide (capture ∈ values) then mret tt else ub.

(** The value checks that the effects of an inline cache are made for, as they are
    asserted before an effect and specialised at its start.  There is no check for
    int32 among them.  In bounds of a table that may have a metatable there is no
    effect. *)
Definition SpecializeValueCheck (c_info : PutByIntegerIndexICInfo.t) : MW unit :=
  let c_valueCK := PutByIntegerIndexICInfo.m_valueCheckKind c_info in
  match PutByIntegerIndexICInfo.m_indexCheckKind c_info with
  | PutByIntegerIndexICInfo.Continuous | PutByIntegerIndexICInfo.NoArrayPart =>
      IcSpecializeValueFullCoverage c_valueCK [PutByIntegerIndexICInfo.Double; PutByIntegerIndexICInfo.NotNil]
  | PutByIntegerIndexICInfo.InBound =>
      if PutByIntegerIndexICInfo.m_mayHaveMetatable c_info then mret tt
      else IcSpecializeValueFullCoverage c_valueCK [PutByIntegerIndexICInfo.DoubleOrNil; PutByIntegerIndexICInfo.NoCheck]
  | PutByIntegerIndexICInfo.ForceSlowPath => mret tt
  end.

(** The put of the inline cache, after [SpecializeValueCheck] and the look at
    [__newindex]: [true] when it is done, [false] when the slow path has to do it.
    [TablePutByImm] has no test of the index before it makes the array part, since
    the index is a constant. *)
Definition ic_put_array (check_index : bool) (c_info : PutByIntegerIndexICInfo.t) : MT bool :=
  let c_valueCK := PutByIntegerIndexICInfo.m_valueCheckKind c_info in
  let checked := CheckValueMeetsPreconditionForPutByIntegerIndexFastPath valueToPut c_valueCK in
  match PutByIntegerIndexICInfo.m_indexCheckKind c_info with
  | PutByIntegerIndexICInfo.Continuous => if checked then TryPutByIntegerIndexFastPath_ContinuousArray index valueToPut else mret false
  | PutByIntegerIndexICInfo.InBound => if checked then TryPutByIntegerIndexFastPath_InBoundPut index valueToPut else mret false
  | PutByIntegerIndexICInfo.NoArrayPart =>
      done ← (if checked then
                t ← get_table;
                match m_butterfly t with
                | None => mret false
                | Some b =>
                    if check_index && negb (index =? x_arrayBaseOrd) then mret false
                    else
                      cap ← access (m_arrayStorageCapacity b);
                      if 0 <? cap then
                        if m_hiddenClass t =? PutByIntegerIndexICInfo.m_hiddenClass c_info then
                          update_butterfly (fun b => SetInVector b x_arrayBaseOrd valueToPut);;
                          update_butterfly (fun b => set_arrayLengthIfContinuous b 1);;
                          set_arrayType (PutByIntegerIndexICInfo.m_newArrayType c_info);;
                          set_hiddenClass (PutByIntegerIndexICInfo.m_newHiddenClass c_info);;
                          mret true
                        else mret false
                      else mret false
                end
              else mret false);
      if (done : bool) then mret true else mret (Is env tNil valueToPut)
  | PutByIntegerIndexICInfo.ForceSlowPath => mret false
  end.

(** The body of the inline caches. *)
Definition TablePutByInteger_ic_body (check_index : bool) (tableObj : Z) : MW (Z * TablePutIcResultKind) :=
  if negb (bool_decide (m_type env tableObj = Table)) then mret (TValue_default, PutNotTable)
  else
    c_info ← on_table tableObj (PreparePutByIntegerIndex index valueToPut);
    SpecializeValueCheck c_info;;
    let put :=
      ok ← on_table tableObj (ic_put_array check_index c_info);
      mret (TValue_default, if (ok : bool) then NoMetamethod else SlowPathPut) in
    if negb (PutByIntegerIndexICInfo.m_mayHaveMetatable c_info) then put
    else
      isOldValueNil ←
        match PutByIntegerIndexICInfo.m_indexCheckKind c_info with
        | PutByIntegerIndexICInfo.Continuous =>
            isInRange ← on_table tableObj (CheckIndexFitsInContinuousArray index);
            mret (negb isInRange)
        | PutByIntegerIndexICInfo.NoArrayPart => mret true
        | PutByIntegerIndexICInfo.InBound | PutByIntegerIndexICInfo.ForceSlowPath =>
            getIcInfo ← prepare_integer tableObj;
            originalVal ← get_integer hash tableObj index getIcInfo;
            mret (Is env tNil originalVal)
        end;
      mm ← (if (isOldValueNil : bool) then GetNewIndexMetamethodFromTableObject env vm tableObj else mret Nil);
      if negb (Is env tNil mm) then mret (mm, HandleMetamethod) else put.

(** Whether the put at a table goes on with a metamethod; [None] is
    [no_metamethod]. *)
Definition PutByInteger_metamethod (tableObj : Z) : MW (option Z) :=
  t ← on_table tableObj get_table;
  if negb (ArrayType.MayHaveMetatable (m_arrayType t)) then mret None
  else
    gmr ← on_table tableObj GetMetatable;
    if gm_result gmr =? 0 then mret None
    else
      ruledOut ← TableObject_TryQuicklyRuleOutMetamethod (gm_result gmr) LuaMetamethodKind.NewIndex;
      if (ruledOut : bool) then mret None
      else
        getIcInfo ← prepare_integer tableObj;
        originalVal ← get_integer hash tableObj index getIcInfo;
        if negb (Is env tNil originalVal) then mret None
        else
          metamethod ← GetMetamethodFromMetatable env vm (gm_result gmr) LuaMetamethodKind.NewIndex;
          if Is env tNil metamethod then mret None else mret (Some metamethod).

(** The loop of the slow path. *)
Fixpoint PutByInteger_HandleMetamethodSlowPath (message : string) (fuel : nat) (base metamethod : Z) : Run :=
  if IsHeapEntity metamethod && bool_decide (type_of metamethod = Function_)
  then MakeCall (AsPointer metamethod) [base; tvIndex; valueToPut]
  else
    match fuel with
    | O => out_of_fuel
    | S fuel =>
        if IsHeapEntity metamethod && bool_decide (type_of metamethod = Table) then
          let tableObj := AsPointer metamethod in
          next ← PutByInteger_metamethod tableObj;
          match next with
          | Some metamethod => PutByInteger_HandleMetamethodSlowPath message fuel (CreatePointer tableObj) metamethod
          | None => on_table tableObj (RawPutByValIntegerIndex hash index valueToPut);; ReturnNothing
          end
        else
          let base := metamethod in
          metamethod ← GetMetamethodForValue env vm metamethod LuaMetamethodKind.NewIndex;
          if Is env tNil metamethod then ThrowError message
          else PutByInteger_HandleMetamethodSlowPath message fuel base metamethod
    end.

Definition PutByInteger_HandleNotTableObjectSlowPath (message : string) (fuel : nat) (base : Z) : Run :=
  metamethod ← GetMetamethodForValue env vm base LuaMetamethodKind.NewIndex;
  if Is env tNil metamethod then ThrowError message
  else PutByInteger_HandleMetamethodSlowPath message fuel base metamethod.

(** [HandleNoMetamethodSlowPathPut], [HandleInt64IndexNoMetamethodSlowPathPut]. *)
Definition HandleNoMetamethodSlowPathPut (base : Z) : Run :=
  on_table (AsPointer base) (PutByIntegerIndexSlow hash index valueToPut);; ReturnNothing.
End put_by_integer.

(** ** [TablePutByImm] *)

Definition TablePutByImmImpl (index valueToPut : Z) (fuel : nat) (base : Z) : Run :=
  let tvIndex := CreateDouble (double_of_int index) in
  let HandleNotTableObjectSlowPath := PutByInteger_HandleNotTableObjectSlowPath index tvIndex valueToPut "bad type for TablePutByImm" in
  if IsHeapEntity base then
    '(metamethod, resKind) ← TablePutByInteger_ic_body index valueToPut false (AsPointer base);
    match resKind with
    | NoMetamethod => ReturnNothing
    | SlowPathPut => HandleNoMetamethodSlowPathPut index valueToPut base
    | HandleMetamethod =>
        PutByInteger_HandleMetamethodSlowPath index tvIndex valueToPut "bad type for TablePutByImm" fuel base metamethod
    | PutNotTable => HandleNotTableObjectSlowPath fuel base
    end
  else HandleNotTableObjectSlowPath fuel base.

(** ** [TablePutByVal] *)

Section put_by_val.
Variable tvIndex : Z.
Variable valueToPut : Z.
Notation message := "bad type for TablePutByVal"%string.

(** [None]: no metamethod. *)
Definition CheckShouldInvokeMetamethodForDoubleNotRepresentableAsInt64Index (tableObj indexDouble : Z) : MW (option Z) :=
  t ← on_table tableObj get_table;
  let arrType := m_arrayType t in
  if negb (ArrayType.MayHaveMetatable arrType) then mret None
  else
    gmr ← on_table tableObj GetMetatable;
    if gm_result gmr =? 0 then mret None
    else
      ruledOut ← TableObject_TryQuicklyRuleOutMetamethod (gm_result gmr) LuaMetamethodKind.NewIndex;
      if (ruledOut : bool) then mret None
      else
        originalVal ← (if HasSparseMap arrType then on_table tableObj (QueryArraySparseMap hash indexDouble) else mret Nil);
        if negb (Is env tNil originalVal) then mret None
        else
          metamethod ← GetMetamethodFromMetatable env vm (gm_result gmr) LuaMetamethodKind.NewIndex;
          if Is env tNil metamethod then mret None else mret (Some metamethod).

(** A round of the two loops at the table [base]; [handle] is the label of the loop
    where a metamethod is handled. *)
Definition PutByVal_double (indexDouble base : Z) (handle : Z -> Run) : Run :=
  next ← CheckShouldInvokeMetamethodForDoubleNotRepresentableAsInt64Index (AsPointer base) indexDouble;
  match next with
  | None => on_table (AsPointer base) (RawPutByValDoubleIndex hash indexDouble valueToPut);; ReturnNothing
  | Some metamethod => handle metamethod
  end.

Definition PutByVal_property (key base : Z) (handle : Z -> Run) : Run :=
  let tableObj := AsPointer base in
  icInfo ← on_table tableObj (PreparePutById env false key);
  check ← on_table tableObj (PutByIdNeedToCheckMetatable icInfo);
  metamethod ←
    (if (check : bool) then
       gmr ← on_table tableObj GetMetatable;
       if negb (gm_result gmr =? 0) then
         ruledOut ← TableObject_TryQuicklyRuleOutMetamethod (gm_result gmr) LuaMetamethodKind.NewIndex;
         if negb ruledOut then GetMetamethodFromMetatable env vm (gm_result gmr) LuaMetamethodKind.NewIndex else mret Nil
       else mret Nil
     else mret Nil);
  if negb (Is env tNil metamethod) then handle metamethod
  else on_table tableObj (PutById env key valueToPut icInfo);; ReturnNothing.

(** [double_index_handle_metamethod] and [property_index_handle_metamethod]. *)
Fixpoint PutByVal_handle_metamethod (round : Z -> (Z -> Run) -> Run) (fuel : nat) (base metamethod : Z) : Run :=
  if IsFunction metamethod then MakeCall (AsPointer metamethod) [base; tvIndex; valueToPut]
  else
    match fuel with
    | O => out_of_fuel
    | S fuel =>
        let base := metamethod in
        if IsTable base then round base (PutByVal_handle_metamethod round fuel base)
        else
          metamethod ← GetMetamethodForValue env vm base LuaMetamethodKind.NewIndex;
          if Is env tNil metamethod then ThrowError message
          else PutByVal_handle_metamethod round fuel base metamethod
    end.

Definition HandleTableObjectNotInt64IndexSlowPath (fuel : nat) (base : Z) : Run :=
  let loop round := round base (PutByVal_handle_metamethod round fuel base) in
  if Is env tDouble tvIndex then
    if IsNaN tvIndex then ThrowError "table index is NaN" else loop (PutByVal_double tvIndex)
  else if IsHeapEntity tvIndex then loop (PutByVal_property (AsPointer tvIndex))
  else if Is env tNil tvIndex then ThrowError "table index is nil"
  else loop (PutByVal_property (VM_GetSpecialKeyForBoolean vm (MIV.GetBooleanValue (AsMIV tvIndex)))).

Fixpoint HandleNotTableObjectNotInt64IndexSlowPath (fuel : nat) (base : Z) : Run :=
  metamethod ← GetMetamethodForValue env vm base LuaMetamethodKind.NewIndex;
  if Is env tNil metamethod then ThrowError message
  else if IsFunction metamethod then MakeCall (AsPointer metamethod) [base; tvIndex; valueToPut]
  else
    match fuel with
    | O => out_of_fuel
    | S fuel =>
        let base := metamethod in
        if IsTable base then HandleTableObjectNotInt64IndexSlowPath fuel base
        else HandleNotTableObjectNotInt64IndexSlowPath fuel base
    end.

Definition PutByVal_HandleNotInt64IndexSlowPath (fuel : nat) (base : Z) : Run :=
  if IsTable base then HandleTableObjectNotInt64IndexSlowPath fuel base
  else HandleNotTableObjectNotInt64IndexSlowPath fuel base.

Definition PutByVal_HandleNotTableObjectSlowPath (fuel : nat) (base : Z) : Run :=
  let idxDbl := ViewAsDouble tvIndex in
  let index := int_of_double idxDbl in
  if negb (UnsafeFloatEqual idxDbl (double_of_int index)) then HandleNotTableObjectNotInt64IndexSlowPath fuel base
  else
    metamethod ← GetMetamethodForValue env vm base LuaMetamethodKind.NewIndex;
    if Is env tNil metamethod then ThrowError message
    else PutByInteger_HandleMetamethodSlowPath index tvIndex valueToPut message fuel base metamethod.

Definition TablePutByValImpl (fuel : nat) (base : Z) : Run :=
  let idxDbl := ViewAsDouble tvIndex in
  let index := int_of_double idxDbl in
  if UnsafeFloatEqual idxDbl (double_of_int index) then
    if IsHeapEntity base then
      '(metamethod, resKind) ← TablePutByInteger_ic_body index valueToPut true (AsPointer base);
      match resKind with
      | NoMetamethod => ReturnNothing
      | SlowPathPut => HandleNoMetamethodSlowPathPut index valueToPut base
      | HandleMetamethod => PutByInteger_HandleMetamethodSlowPath index tvIndex valueToPut message fuel base metamethod
      | PutNotTable => PutByVal_HandleNotTableObjectSlowPath fuel base
      end
    else PutByVal_HandleNotTableObjectSlowPath fuel base
  else PutByVal_HandleNotInt64IndexSlowPath fuel base.
End put_by_val.
End bytecodes.
