(* ===== verification/NewIndexEvent.v ===== *)
(** * The newindex event

    The specification of the bytecodes that write [base[index] = value]: the
    [settable] event of the Lua 5.1 manual over the tables of a world. *)

From Stdlib Require Import String.
From S2P Require Import Prelude Double TValue TypeMask Machine HiddenClass TableObject ClassHeap NamedInv NamedPut TableHistory TableWorld Metatables Metamethods MetamethodChain IndexEvent.

(** Where a write ends: in the table at an address, or without a write. *)
Inductive PutEnd :=
| Stored (table : Z)
| Ended (o : Outcome).

Definition end_outcome (e : PutEnd) : Outcome := match e with Stored _ => ReturnsNothing | Ended o => o end.

(** The tables afterwards, when [put] writes the value. *)
Definition end_tables (put : Meaning -> Meaning) (e : PutEnd) (tables : gmap Z Meaning) : gmap Z Meaning :=
  match e with Stored p => alter put p tables | Ended _ => tables end.

(** The assignment of [value] under any key that a table can have, which is any
    value but NaN and nil. *)
Definition assign_value (vm : VM) (idx value : Z) (m : Meaning) : Meaning :=
  match unbox idx with
  | LDouble d => meaning_after m (PutDouble d value)
  | LPointer p => meaning_after m (PutNamed false p value)
  | LMIV k => meaning_after m (PutNamed true (m_specialKeyForBooleanIndex vm (MIV.GetBooleanValue k)) value)
  | LInt32 _ => m
  end.

Definition storable (idx : Z) : Prop :=
  match unbox idx with LDouble d => IsNaN d = false | LMIV k => k <> MIV.x_nil | _ => True end.

#[export] Instance storable_dec idx : Decision (storable idx).
Proof. unfold storable. destruct (unbox idx); apply _. Defined.

Section newindex.
Variable env : Env.
Variable vm : VM.
Variable tables : gmap Z Meaning.
(** The value of the key [idx] in a table. *)
Variable raw : Meaning -> Z.
Variable idx : Z.
Variable value : Z.
Variable message : string.
Notation table_of := (table_of tables).
Notation handler v := (metamethod env vm tables v LuaMetamethodKind.NewIndex).

(** [settable_event]. *)
Inductive newindex_event : Z -> PutEnd -> Prop :=
| newindex_store v m : table_of v = Some m -> raw m <> Nil \/ handler v = Nil -> newindex_event v (Stored (AsPointer v))
| newindex_error v : table_of v = None -> handler v = Nil -> newindex_event v (Ended (Throws message))
| newindex_call v p : from_option raw Nil (table_of v) = Nil -> unbox (handler v) = LPointer p -> m_type env p = Function_ ->
    newindex_event v (Ended (Calls p [v; idx; value]))
| newindex_again v e : from_option raw Nil (table_of v) = Nil -> handler v <> Nil -> ~ is_function env (handler v) ->
    newindex_event (handler v) e -> newindex_event v e.

(** ** The event as a chain *)

Definition newindex_stop (v : Z) : option PutEnd :=
  match table_of v with
  | Some m =>
      if decide (raw m <> Nil \/ handler v = Nil) then Some (Stored (AsPointer v))
      else if decide (is_function env (handler v)) then Some (Ended (Calls (AsPointer (handler v)) [v; idx; value])) else None
  | None =>
      if decide (handler v = Nil) then Some (Ended (Throws message))
      else if decide (is_function env (handler v)) then Some (Ended (Calls (AsPointer (handler v)) [v; idx; value])) else None
  end.

Definition newindex_chain : nat -> Z -> option PutEnd := chain env vm tables LuaMetamethodKind.NewIndex newindex_stop.

Lemma newindex_on v : newindex_stop v = None <->
  from_option raw Nil (table_of v) = Nil /\ handler v <> Nil /\ ~ is_function env (handler v).
Proof.
  unfold newindex_stop. destruct (table_of v) as [m|] eqn:Em; simpl; repeat case_decide; try naive_solver.
  destruct (decide (raw m = Nil)); naive_solver.
Qed.

Lemma newindex_stop_nil v : newindex_stop v = None -> handler v <> Nil.
Proof. by intros (_ & ? & _)%newindex_on. Qed.

Lemma newindex_stop_event v e : newindex_stop v = Some e -> newindex_event v e.
Proof.
  unfold newindex_stop. destruct (table_of v) as [m|] eqn:Em; repeat case_decide; try done; intros [= <-].
  - by eapply newindex_store.
  - destruct H0 as (p & E & Hp). rewrite (value_pointer _ _ E). apply newindex_call; [|done..]. rewrite Em. simpl.
    destruct (decide (raw m = Nil)); [done|]. destruct H. by left.
  - by apply newindex_error.
  - destruct H0 as (p & E & Hp). rewrite (value_pointer _ _ E). apply newindex_call; [by rewrite Em|done..].
Qed.

Lemma newindex_event_chain v e : newindex_event v e <-> chain_event env vm tables LuaMetamethodKind.NewIndex newindex_stop v e.
Proof.
  split.
  - induction 1 as [v m Em Hr|v Em Hh|v p Hr E Hp|v e Hr Hn Hf _ IH].
    1-3: apply chain_stop; unfold newindex_stop.
    + rewrite Em. by case_decide.
    + rewrite Em. by case_decide.
    + assert (is_function env (handler v)) as Hf by (by exists p).
      assert (handler v <> Nil) as Hn by (intros Hn; by apply (not_function_nil env) in Hn).
      rewrite (value_pointer _ _ E). destruct (table_of v); simpl in Hr; repeat case_decide; naive_solver.
    + apply chain_on; [by apply newindex_on|done].
  - induction 1 as [v e E|v e E _ IH]; [by apply newindex_stop_event|]. apply newindex_on in E as (? & ? & ?). by apply newindex_again.
Qed.
End newindex.
