(* ===== verification/NewIndexProofs.v ===== *)
(** * The bytecodes that write a field run the newindex event *)

From Stdlib Require Import String.
From S2P Require Import Prelude Double TValue MiscMath Machine TypeMask ArrayType Butterfly SparseMap HiddenClass TableObject TableArray TableTheorems Probing CheckedTable ClassHeap Structure Transition ClassInv ClassLookup ClassFrame ClassCreate ClassTransition ClassQuery ClassOps ClassView ClassTheorems Dictionary TableClasses NamedProps NamedInv NamedPut NamedTransition NamedMeta TableWhole TableHistory TableCreate TableClone TableWorld Metatables Metamethods MetamethodChain IndexEvent GetBytecodes IndexProofs TablePut PutBytecodes NewIndexEvent.

Section proofs.
Variable env : Env.
Variable hash : Z -> Z.
Variable vm : VM.
Hypothesis special_user : user_key (GetSpecialKeyForMetadataSlot env).
Variable tables : gmap Z Meaning.
#[local] Instance proof_ops : HiddenClassOps SysHeap := sys_ops env.
Notation table_of := (table_of tables).
Notation handler v := (metamethod env vm tables v LuaMetamethodKind.NewIndex).
Notation lua_value := (lua_value env).
Notation world_stands := (world_stands env hash vm).

(** ** Chains of writes *)

Section chain.
Variable raw : Meaning -> Z.
Variable idx value : Z.
Variable message : string.
Notation chain := (newindex_chain env vm tables raw idx value message).

(** On to the metamethod of [v]. *)
Definition onto (fuel : nat) (v : Z) : option PutEnd :=
  if decide (is_function env (handler v)) then Some (Ended (Calls (AsPointer (handler v)) [v; idx; value]))
  else match fuel with O => None | S fuel => chain fuel (handler v) end.

Lemma chain_store fuel v m : table_of v = Some m -> raw m <> Nil \/ handler v = Nil -> chain fuel v = Some (Stored (AsPointer v)).
Proof. intros Hm Hr. unfold newindex_chain. rewrite chain_step. unfold newindex_stop. rewrite Hm. by case_decide. Qed.

Lemma chain_table fuel v m : table_of v = Some m -> raw m = Nil -> handler v <> Nil -> chain fuel v = onto fuel v.
Proof.
  intros Hm Hr Hn. unfold newindex_chain. rewrite chain_step. unfold newindex_stop, onto. rewrite Hm.
  rewrite decide_False by naive_solver. by case_decide.
Qed.

Lemma chain_no_table fuel v : table_of v = None ->
  chain fuel v = if decide (handler v = Nil) then Some (Ended (Throws message)) else onto fuel v.
Proof. intros Hm. unfold newindex_chain. rewrite chain_step. unfold newindex_stop, onto. rewrite Hm. by repeat case_decide. Qed.

(** What a bytecode does when the chain gives [e]. *)
Definition put_ok (put : Meaning -> Meaning) (e : option PutEnd) (o : option Outcome) (w : World) : Prop :=
  match e with
  | None => o = None /\ world_stands w tables
  | Some e => o = Some (end_outcome e) /\ world_stands w (end_tables put e tables)
  end.
End chain.

(** ** Steps in a world *)

Lemma wp_on_table {A} a (op : MT A) w t (Q : A -> World -> Prop) F : w_tables w !! a = Some t ->
  wp op (at_table w t) (fun x s => Q x (worked w a s)) F -> wp (on_table a op) w Q F.
Proof. intros Ht. unfold wp, on_table. rewrite Ht. by destruct (op (at_table w t)) as [[x s]| |]. Qed.

Lemma wp_worked {A} a (op : MT A) w s (Q : A -> World -> Prop) F :
  wp op s (fun x s' => Q x (worked w a s')) F -> wp (on_table a op) (worked w a s) Q F.
Proof.
  intros Hop. apply (wp_on_table _ _ _ (st_table s)); [apply lookup_insert_eq|]. rewrite worked_view.
  eapply wp_post_mono; [|exact Hop]. intros x s'. by rewrite worked_twice.
Qed.

Lemma wp_reads {A} (m : MW A) w x (Q : A -> World -> Prop) F : m w = Ok (x, w) -> Q x w -> wp m w Q F.
Proof. unfold wp. by intros ->. Qed.

(** ** Worlds on the way

    A put that goes on with a metamethod has prepared itself at the tables it has
    passed, which may have made hidden classes. *)

Section standing.
(** The preparations, and when a table has no resources left. *)
Variable prepares : TableObject.St SysHeap -> TableObject.St SysHeap -> Prop.
Variable exhausts : TableObject.St SysHeap -> Prop.
Variable start : World.

Inductive prepare_step (w : World) : World -> Prop :=
| prepare_at a t s1 : is_Some (tables !! a) -> w_tables w !! a = Some t -> prepares (at_table w t) s1 -> prepare_step w (worked w a s1).

(** A world of the program that preparations have led to. *)
Definition standing (w : World) : Prop := world_stands w tables /\ rtc prepare_step start w.

(** A put at a table of such a world stops the process. *)
Definition put_fails : Prop :=
  exists w a t, standing w /\ is_Some (tables !! a) /\ w_tables w !! a = Some t /\ exhausts (at_table w t).

Lemma prepare_stands w a m t s1 : standing w -> tables !! a = Some m -> w_tables w !! a = Some t -> prepares (at_table w t) s1 ->
  isolated (at_table w t) s1 -> means env hash s1 m -> standing (worked w a s1).
Proof.
  intros [Hw Hpath] Ha Ht Hp Hi Hm. split; [by eapply world_same|]. eapply rtc_r; [exact Hpath|]. by apply (prepare_at w a t).
Qed.
End standing.

(** The map after a put. *)
Lemma alter_insert (f : Meaning -> Meaning) a m : tables !! a = Some m -> alter f a tables = <[a := f m]> tables.
Proof.
  intros Ha. apply map_eq. intros b. destruct (decide (b = a)) as [->|Hne]; [by rewrite lookup_alter_eq, Ha, lookup_insert_eq|].
  by rewrite lookup_alter_ne, lookup_insert_ne.
Qed.

(** The preparation of a put by name. *)
Definition prepares_by_id (isString : bool) (key : Z) (s s1 : TableObject.St SysHeap) : Prop :=
  exists ic, PreparePutById env isString key s = Ok (ic, s1).

(** The metamethod of a table. *)
Lemma GetNewIndex_world w a m : world_stands w tables -> tables !! a = Some m ->
  GetNewIndexMetamethodFromTableObject env vm a w = Ok (metafield vm tables (metatable m) LuaMetamethodKind.NewIndex, w).
Proof. intros [Hm _] Ha. by apply (table_metamethod_world env hash vm special_user tables w Hm a m LuaMetamethodKind.NewIndex). Qed.

Lemma write_value f key x k : lua_value x -> lua_value (f k) -> lua_value (write f key x k).
Proof. intros Hx Hf. unfold write. by destruct (k =? key). Qed.

(** ** Puts by name *)

Section put_by_id.
Variable start : World.
Variable isString : bool.
Variable key : Z.
Variable value : Z.
Hypothesis key_ok : property_key env isString key.
Hypothesis value_ok : lua_value value.
Notation raw := (fun m => named_value m key).
Notation put := (fun m => meaning_after m (PutNamed isString key value)).
Notation standing := (standing (prepares_by_id isString key) start).
Notation put_fails := (put_fails (prepares_by_id isString key) put_exhausted start).

Lemma wp_prepare w a m (Q : PutByIdICInfo.t -> World -> Prop) : standing w -> tables !! a = Some m ->
  (forall t ic s1, w_tables w !! a = Some t -> PreparePutById env isString key (at_table w t) = Ok (ic, s1) ->
     ready env hash (at_table w t) m isString key ic s1 -> standing (worked w a s1) -> Q ic (worked w a s1)) ->
  wp (on_table a (PreparePutById env isString key)) w Q put_fails.
Proof.
  intros Hw Ha HQ. pose proof Hw as [[[Htab _] _] Hpath]. destruct (Htab a m Ha) as (t & Ht & Hm). apply (wp_on_table _ _ _ t); [done|].
  unfold wp. destruct (wp_cases _ _ _ _ (PreparePutById_ready env hash special_user _ m isString key Hm key_ok)) as [(ic & s1 & E & Hr)|[E Hex]]; rewrite E.
  - apply (HQ t); try done. destruct Hr. eapply prepare_stands; try done. by exists ic.
  - exists w, a, t. split_and!; done.
Qed.

(** The put of a record. *)
Lemma wp_store w a m t ic s1 (op : MT unit) (Q : unit -> World -> Prop) : standing w -> tables !! a = Some m ->
  w_tables w !! a = Some t -> ready env hash (at_table w t) m isString key ic s1 ->
  op s1 = PutById env key value ic s1 -> (forall w', world_stands w' (alter put a tables) -> Q tt w') ->
  wp (on_table a op) (worked w a s1) Q put_fails.
Proof.
  intros Hw Ha Ht Hr Hop HQ. apply wp_worked.
  apply (wp_fail_mono _ _ _ (put_exhausted (at_table w t))); [intros Hex; exists w, a, t; split_and!; try done; by eexists|].
  unfold wp. rewrite Hop. destruct (wp_cases _ _ _ _ (rd_put _ _ _ _ _ _ _ _ Hr value)) as [([] & s' & -> & Hs' & Hi)|[-> ?]]; [|done].
  apply HQ. rewrite (alter_insert put a m Ha).
  pose proof (wm_closed _ _ _ _ _ (ws_means _ _ _ _ _ (proj1 Hw))) as Hcl. destruct (co_values _ _ _ Hcl a m Ha) as [Hn He].
  destruct Hw as [Hw _]. eapply world_work; try done. eapply closed_put; try done. intros k. by apply write_value.
Qed.

(** After the check of the metatable: a metamethod, or the put. *)
Lemma check_and_put idx message w base m t ic s1 (op : MT unit) (again : Z -> Run) fuel :
  standing w -> standing (worked w (AsPointer base) s1) -> table_of base = Some m -> w_tables w !! AsPointer base = Some t ->
  ready env hash (at_table w t) m isString key ic s1 -> op s1 = PutById env key value ic s1 ->
  (forall w, standing w -> handler base <> Nil -> wp (again (handler base)) w (put_ok put (onto raw idx value message fuel base)) put_fails) ->
  wp (check ← on_table (AsPointer base) (PutByIdNeedToCheckMetatable ic);
      metamethod ← (if (check : bool) then GetNewIndexMetamethodFromTableObject env vm (AsPointer base) else mret Nil);
      if negb (Is env tNil metamethod) then again metamethod else on_table (AsPointer base) op;; ReturnNothing)
    (worked w (AsPointer base) s1) (put_ok put (newindex_chain env vm tables raw idx value message fuel base)) put_fails.
Proof.
  intros Hw Hw1 Hm Ht Hr Hop Hagain. pose proof (table_pointer tables base m Hm) as Ha.
  pose proof (table_handler env hash vm tables w (ws_means _ _ _ _ _ (proj1 Hw)) base m LuaMetamethodKind.NewIndex Hm) as Hh.
  assert (named_value m key <> Nil \/ handler base = Nil ->
    wp (on_table (AsPointer base) op;; ReturnNothing) (worked w (AsPointer base) s1) (put_ok put (newindex_chain env vm tables raw idx value message fuel base)) put_fails) as Hput.
  { intros Hc. rewrite (chain_store _ _ _ _ fuel base m) by done. apply wp_bind. by eapply wp_store. }
  destruct (NeedToCheck_ready env hash _ m isString key ic s1 Hr) as (b & Eb & Hb). apply wp_bind, wp_worked. unfold wp at 1. rewrite Eb.
  apply wp_bind. destruct b.
  - eapply wp_reads; [apply GetNewIndex_world; [by destruct Hw1|done]|]. rewrite <- Hh, nil_test. case_bool_decide as Hn; simpl; [by apply Hput; right|].
    rewrite (chain_table _ _ _ _ _ _ m) by done. by apply Hagain.
  - apply wp_ret. simpl. apply Hput. destruct Hb as [Hmt|]; [right|by left].
    rewrite Hh, Hmt. apply (metafield_null env hash vm tables w (ws_means _ _ _ _ _ (proj1 Hw))).
Qed.
End put_by_id.

(** ** The slow path of [TablePutById] and [GlobalPut] *)

Section slow_path.
Variable start : World.
Variable tvIndex value : Z.
Variable message : string.
Notation key := (AsPointer tvIndex).
Hypothesis string_key : property_key env true key.
Hypothesis value_ok : lua_value value.
Notation raw := (fun m => named_value m key).
Notation put := (fun m => meaning_after m (PutNamed true key value)).
Notation standing := (standing (prepares_by_id true key) start).
Notation put_fails := (put_fails (prepares_by_id true key) put_exhausted start).
Notation chain := (newindex_chain env vm tables raw tvIndex value message).
Notation next := (onto raw tvIndex value message).

Lemma PutById_handle fuel : forall w base, standing w ->
  wp (PutById_HandleMetamethodSlowPath env vm tvIndex value message fuel base (handler base)) w (put_ok put (next fuel base)) put_fails.
Proof.
  induction fuel as [|fuel IH]; intros w base Hw; pose proof (proj1 Hw) as Hws; pose proof (ws_means _ _ _ _ _ Hws) as Hm; cbn [PutById_HandleMetamethodSlowPath]; unfold onto;
    rewrite !entity_type by apply (handler_value_of env hash vm tables w Hm);
    rewrite Is_function by apply (handler_value_of env hash vm tables w Hm);
    (case_decide as Hf; [rewrite bool_decide_true by done; by apply wp_ret|rewrite bool_decide_false by done]); [by apply wp_ret|].
  pose proof (handler_value_of env hash vm tables w Hm base LuaMetamethodKind.NewIndex) as Hv.
  rewrite (Is_table env hash vm tables w Hm) by done. destruct (table_of (handler base)) as [m|] eqn:Hb.
  - rewrite bool_decide_true by done. cbv zeta. apply wp_bind.
    apply (wp_prepare start true key string_key _ _ m); [done|by apply table_pointer|]. intros t ic s1 Ht _ Hr Hw1.
    apply (check_and_put start true key value value_ok tvIndex message w (handler base) m t ic s1 (PutById env key value ic)); try done.
    intros w' Hw' Hn. rewrite (table_address env tables (handler base) m) by done. by apply IH.
  - rewrite bool_decide_false by (by intros [? ?]). cbv zeta. apply wp_bind. eapply wp_reads; [by apply (GetMetamethodForValue_world env hash)|].
    rewrite nil_test, chain_no_table by done. case_decide as Hn; [rewrite bool_decide_true by done; by apply wp_ret|].
    rewrite bool_decide_false by done. by apply IH.
Qed.
(** ** The inline caches *)

Lemma store_exists ic s : PutByIdICInfo.m_propertyExists ic = true -> PutByIdICInfo.m_icKind ic <> PutByIdICInfo.TransitionedToDictionaryMode ->
  StoreValueIntoTableObject (PutByIdICInfo.m_icKind ic) (PutByIdICInfo.m_slot ic) value s = PutById env key value ic s.
Proof. intros Hx Hk. unfold PutById. rewrite Hx. by destruct (PutByIdICInfo.m_icKind ic). Qed.

Lemma bind_same {A B} (m m' : MT A) (k : A -> MT B) s : m s = m' s -> (m ≫= k) s = (m' ≫= k) s.
Proof. intros E. unfold mbind, M_bind. by rewrite E. Qed.

Lemma store_new ic s : PutByIdICInfo.m_propertyExists ic = false -> PutByIdICInfo.m_icKind ic <> PutByIdICInfo.TransitionedToDictionaryMode ->
  is_Some (structures (st_hc s) !! m_hiddenClass (st_table s)) ->
  (if PutByIdICInfo.m_shouldGrowButterfly ic
   then ic_put_and_grow value (PutByIdICInfo.m_icKind ic) (PutByIdICInfo.m_slot ic) (PutByIdICInfo.m_newStructure ic)
   else ic_put_new value (PutByIdICInfo.m_icKind ic) (PutByIdICInfo.m_slot ic) (PutByIdICInfo.m_newStructure ic)) s = PutById env key value ic s.
Proof.
  intros Hx Hk [sc Hs].
  assert (PutById env key value ic s = ((if PutByIdICInfo.m_shouldGrowButterfly ic then
            newStructure ← on_heap (load_structure (PutByIdICInfo.m_newStructure ic));
            GrowButterfly true (s_butterflyNamedStorageCapacity newStructure)
          else mret tt);;
         set_hiddenClass (PutByIdICInfo.m_newStructure ic);;
         StoreValueIntoTableObject (PutByIdICInfo.m_icKind ic) (PutByIdICInfo.m_slot ic) value) s) as ->.
  { unfold PutById. rewrite Hx. destruct (PutByIdICInfo.m_icKind ic); [done|..]; simpl; by rewrite bind_assoc. }
  destruct (PutByIdICInfo.m_shouldGrowButterfly ic); [|done].
  unfold ic_put_and_grow. rewrite (bind_ok _ _ s (st_table s) s) by done.
  assert (on_heap (load_structure (m_hiddenClass (st_table s))) s = Ok (sc, s)) as E
    by (unfold on_heap, load_structure; rewrite get_bind, Hs; by destruct s).
  rewrite (bind_ok _ _ _ _ _ E), bind_assoc.
  destruct (on_heap (load_structure (PutByIdICInfo.m_newStructure ic)) s) as [[new s']| |] eqn:E'; [|by unfold mbind, M_bind; rewrite E'..].
  rewrite !(bind_ok _ _ _ _ _ E').
  assert (s' = s) as ->.
  { unfold on_heap, load_structure in E'. rewrite get_bind in E'. unfold access in E'. destruct (structures (st_hc s) !! PutByIdICInfo.m_newStructure ic); [|done].
    injection E' as _ <-. by destruct s. }
  assert (hc_butterflyNamedStorageCapacity (st_hc s) (m_hiddenClass (st_table s)) = s_butterflyNamedStorageCapacity sc) as Hc by (simpl; by rewrite Hs).
  apply bind_same. by rewrite <- Hc.
Qed.

(** What the body of an inline cache leaves behind. *)
Definition ic_ok (fuel : nat) (base : Z) (r : Z * TablePutIcResultKind) (w : World) : Prop :=
  match r.2 with
  | NoMetamethod => put_ok put (chain fuel base) (Some ReturnsNothing) w
  | HandleMetamethod => r.1 = handler base /\ handler base <> Nil /\ chain fuel base = next fuel base /\ standing w
  | _ => False
  end.

Lemma put_end w w' base m t ic s1 (op : MT unit) fuel (kind : TablePutIcResultKind) : standing w -> table_of base = Some m ->
  w_tables w !! AsPointer base = Some t -> ready env hash (at_table w t) m true key ic s1 -> op s1 = PutById env key value ic s1 ->
  named_value m key <> Nil \/ handler base = Nil -> w' = worked w (AsPointer base) s1 ->
  wp (on_table (AsPointer base) op;; mret (TValue_default, NoMetamethod)) w' (ic_ok fuel base) put_fails.
Proof.
  intros Hw Hm Ht Hr Hop Hc ->. pose proof (table_pointer tables base m Hm) as Ha. apply wp_bind.
  eapply (wp_store start true key value); try done. intros w' Hw'. apply wp_ret. unfold ic_ok. simpl. by rewrite (chain_store _ _ _ _ fuel base m).
Qed.

Lemma unless_end w base m t ic s1 (op : MT unit) fuel : standing w -> table_of base = Some m ->
  w_tables w !! AsPointer base = Some t -> ready env hash (at_table w t) m true key ic s1 -> op s1 = PutById env key value ic s1 ->
  named_value m key = Nil -> standing (worked w (AsPointer base) s1) ->
  wp (put_unless_newindex env vm (AsPointer base) (on_table (AsPointer base) op)) (worked w (AsPointer base) s1) (ic_ok fuel base) put_fails.
Proof.
  intros Hw Hm Ht Hr Hop Hnil Hw1. pose proof (table_pointer tables base m Hm) as Ha.
  pose proof (table_handler env hash vm tables w (ws_means _ _ _ _ _ (proj1 Hw)) base m LuaMetamethodKind.NewIndex Hm) as Hh.
  unfold put_unless_newindex. apply wp_bind. eapply wp_reads; [apply GetNewIndex_world; [by destruct Hw1|done]|]. rewrite <- Hh, nil_test. case_bool_decide as Hn; simpl.
  - by apply (put_end w _ base m t ic s1 op fuel NoMetamethod); auto.
  - apply wp_ret. unfold ic_ok. simpl. split_and!; try done. by apply (chain_table _ _ _ _ _ _ m).
Qed.
Lemma TablePutById_ic w base m fuel : standing w -> table_of base = Some m ->
  wp (TablePutById_ic_body env vm tvIndex value (AsPointer base)) w (ic_ok fuel base) put_fails.
Proof.
  intros Hw Hm. pose proof (table_pointer tables base m Hm) as Ha. pose proof (proj1 Hw) as Hws; pose proof (ws_means _ _ _ _ _ Hws) as Hmw.
  pose proof (table_handler env hash vm tables w Hmw base m LuaMetamethodKind.NewIndex Hm) as Hh.
  unfold TablePutById_ic_body. rewrite bool_decide_true by (by eapply (co_type _ _ _ (wm_closed _ _ _ _ _ Hmw))). simpl negb. cbv iota.
  apply wp_bind, (wp_prepare start true key string_key _ _ m); [done|done|]. intros t ic s1 Ht _ Hr Hw1. cbv zeta. pose proof Hr as [_ _ Hmt Hca Hx _].
  rewrite Hca. case_bool_decide as Hk; simpl negb; cbv iota.
  - destruct (PutByIdICInfo.m_propertyExists ic) eqn:Hex; [by destruct Hx as [Hc _]; rewrite Hca in Hc|]. destruct Hx as [Hnil _].
    destruct (NeedToCheck_ready env hash _ m true key ic s1 Hr) as (b & Eb & Hb). apply wp_bind, wp_worked. unfold wp at 1. rewrite Eb. apply wp_bind.
    assert (forall s, PutByIdTransitionToDictionaryImpl env key value s = PutById env key value ic s) as Hop by (intros s; unfold PutById; by rewrite Hk).
    destruct b.
    + eapply wp_reads; [apply GetNewIndex_world; [by destruct Hw1|done]|]. rewrite <- Hh, nil_test. case_bool_decide as Hn; simpl.
      * by apply (put_end w _ base m t ic s1 _ fuel NoMetamethod); auto.
      * apply wp_ret. unfold ic_ok. simpl. split_and!; try done. by apply (chain_table _ _ _ _ _ _ m).
    + apply wp_ret. simpl. apply (put_end w _ base m t ic s1 _ fuel NoMetamethod); try done.
      destruct Hb as [Hz|]; [right|by left]. rewrite Hh, Hz. apply (metafield_null env hash vm tables w Hmw).
  - destruct (PutByIdICInfo.m_mayHaveMetatable ic) eqn:Hmay; simpl negb; cbv iota.
    + destruct (PutByIdICInfo.m_propertyExists ic) eqn:Hex; simpl negb; cbv iota.
      * destruct Hx as (_ & _ & Hread). apply wp_bind, wp_worked. unfold wp at 1. fold (GetOldValueFromTableObject (PutByIdICInfo.m_icKind ic) (PutByIdICInfo.m_slot ic)) in Hread.
        rewrite Hread, nil_test. pose proof (store_exists ic s1 Hex Hk) as Hop. case_bool_decide as Hn.
        -- by apply (unless_end w base m t ic s1).
        -- by apply (put_end w _ base m t ic s1 _ fuel NoMetamethod); auto.
      * destruct Hx as [Hnil Hs]. by apply (unless_end w base m t ic s1); try done; apply store_new.
    + assert (named_value m key <> Nil \/ handler base = Nil) as Hc.
      { right. rewrite Hh, Hmt by done. apply (metafield_null env hash vm tables w Hmw). }
      apply (put_end w _ base m t ic s1 _ fuel NoMetamethod); try done.
      destruct (PutByIdICInfo.m_propertyExists ic) eqn:Hex; [by apply store_exists|]. by apply store_new; try done; apply Hx.
Qed.

(** A base that is no table. *)
Lemma not_table_put w base fuel : standing w -> lua_value base -> table_of base = None ->
  wp (metamethod ← GetMetamethodForValue env vm base LuaMetamethodKind.NewIndex;
      if Is env tNil metamethod then ThrowError message
      else PutById_HandleMetamethodSlowPath env vm tvIndex value message fuel base metamethod) w (put_ok put (chain fuel base)) put_fails.
Proof.
  intros Hw Hv Hm. pose proof (proj1 Hw) as Hws; pose proof (ws_means _ _ _ _ _ Hws) as Hmw. apply wp_bind. eapply wp_reads; [by apply (GetMetamethodForValue_world env hash)|].
  rewrite nil_test, chain_no_table by done. case_decide as Hn; [rewrite bool_decide_true by done; by apply wp_ret|].
  rewrite bool_decide_false by done. by apply PutById_handle.
Qed.
End slow_path.

(** ** [TablePutById] *)

Section put_by_id_impl.
Variable start : World.
Variable tvIndex value : Z.
Notation key := (AsPointer tvIndex).
Hypothesis string_key : property_key env true key.
Hypothesis value_ok : lua_value value.
Notation put := (fun m => meaning_after m (PutNamed true key value)).
Notation standing := (standing (prepares_by_id true key) start).
Notation put_fails := (put_fails (prepares_by_id true key) put_exhausted start).
Notation chain := (newindex_chain env vm tables (fun m => named_value m key) tvIndex value).

Lemma TablePutById_chain w fuel base : standing w -> lua_value base ->
  wp (TablePutByIdImpl env vm tvIndex value fuel base) w (put_ok put (chain "bad type for TablePutById"%string fuel base)) put_fails.
Proof.
  intros Hw Hv. pose proof (proj1 Hw) as Hws; pose proof (ws_means _ _ _ _ _ Hws) as Hmw. unfold TablePutByIdImpl.
  destruct (entity_cases env hash vm tables w Hmw base Hv) as [(-> & m & Hm & Ha)|[(-> & Ht & Hm)|[-> Hm]]]; [| |by apply not_table_put].
  - apply wp_bind. eapply wp_post_mono; [|by apply (TablePutById_ic start tvIndex value "bad type for TablePutById" string_key value_ok w base m fuel)].
    intros [mm kind] w' Hic. unfold ic_ok in Hic. simpl in Hic. destruct kind; try done.
    + destruct Hic as (-> & Hn & -> & Hw'). by apply PutById_handle.
  - apply wp_bind. eapply wp_reads; [unfold TablePutById_ic_body; rewrite bool_decide_false by done; done|]. by apply not_table_put.
Qed.

(** ** [GlobalPut] *)

(** A dictionary makes the property exist. *)
Lemma prepared_exists (dict : Z) (s s1 : TableObject.St SysHeap) ic : PreparePutByIdForCacheableDictionary env true dict key s = Ok (ic, s1) ->
  PutByIdICInfo.m_propertyExists ic = true /\ PutByIdICInfo.m_icKind ic <> PutByIdICInfo.TransitionedToDictionaryMode.
Proof.
  unfold PreparePutByIdForCacheableDictionary, mbind, M_bind. intros E.
  repeat match type of E with match ?m with _ => _ end = _ => let X := fresh in destruct m as [[? ?]| |] eqn:X; [|done..] end.
  injection E as <- _. unfold put_ic. by destruct (_ <? _).
Qed.

Lemma prepare_put_global w a m : standing w -> tables !! a = Some m -> dictionary_table w a ->
  on_table a (PreparePutByIdForGlobalObject env true key) w = on_table a (PreparePutById env true key) w /\
  forall t ic s1, w_tables w !! a = Some t -> PreparePutById env true key (at_table w t) = Ok (ic, s1) ->
    PutByIdICInfo.m_propertyExists ic = true /\ PutByIdICInfo.m_icKind ic <> PutByIdICInfo.TransitionedToDictionaryMode.
Proof.
  intros [[[Htab _] _] _] Ha (t & Ht & d & Hd).
  destruct (Htab a m Ha) as (t' & Ht' & (K & v & sc & [[[Hinv _ _] _ _] _ _ _ _] & _)).
  assert (t' = t) as -> by congruence. destruct (dictionary_type env K _ _ d Hinv Hd) as [_ E].
  assert (PreparePutById env true key (at_table w t) = PreparePutByIdForCacheableDictionary env true (m_hiddenClass t) key (at_table w t)) as Es.
  { unfold PreparePutById. rewrite (bind_ok _ _ (at_table w t) t (at_table w t)) by done.
    rewrite (bind_ok _ _ (at_table w t) HcCacheableDictionary (at_table w t)); [done|].
    unfold on_heap, query. rewrite get_bind. simpl in *. by rewrite E. }
  split.
  - unfold on_table. rewrite Ht. unfold PreparePutByIdForGlobalObject. rewrite (bind_ok _ _ (at_table w t) t (at_table w t)) by done. by rewrite Es.
  - intros u ic s1 Hu. assert (u = t) as -> by congruence. rewrite Es. by apply prepared_exists.
Qed.

Lemma GlobalPut_chain w fuel base m : standing w -> lua_value base -> table_of base = Some m -> dictionary_table w (AsPointer base) ->
  wp (GlobalPutImpl env vm tvIndex value fuel (AsPointer base)) w (put_ok put (chain "bad type for GlobalPut"%string fuel base)) put_fails.
Proof.
  intros Hw Hv Hm Hd. pose proof (table_pointer tables base m Hm) as Ha. pose proof (proj1 Hw) as Hws; pose proof (ws_means _ _ _ _ _ Hws) as Hmw.
  pose proof (table_handler env hash vm tables w Hmw base m LuaMetamethodKind.NewIndex Hm) as Hh.
  destruct (prepare_put_global w _ m Hw Ha Hd) as [Ep Hexists].
  assert (wp (GlobalPut_ic_body env vm tvIndex value (AsPointer base)) w
    (fun r w' => if r.2 then r.1 = handler base /\ handler base <> Nil /\
        chain "bad type for GlobalPut" fuel base = onto (fun m => named_value m key) tvIndex value "bad type for GlobalPut" fuel base /\ standing w'
      else put_ok put (chain "bad type for GlobalPut"%string fuel base) (Some ReturnsNothing) w') put_fails) as Hic.
  { unfold GlobalPut_ic_body. apply wp_bind. unfold wp at 1. rewrite Ep. apply (wp_prepare start true key string_key _ _ m); [done|done|].
    intros t ic s1 Ht E Hr Hw1. cbv zeta. destruct (Hexists t ic s1 Ht E) as [Hex Hk]. pose proof (store_exists tvIndex value ic s1 Hex Hk) as Hop.
    pose proof Hr as [_ _ Hmt _ Hx _]. rewrite Hex in Hx. destruct Hx as (_ & _ & Hread).
    assert (named_value m key <> Nil \/ handler base = Nil ->
      wp (on_table (AsPointer base) (StoreValueIntoTableObject (PutByIdICInfo.m_icKind ic) (PutByIdICInfo.m_slot ic) value);; mret (TValue_default, false))
        (worked w (AsPointer base) s1) (fun r w' => if r.2 then r.1 = handler base /\ handler base <> Nil /\
        chain "bad type for GlobalPut" fuel base = onto (fun m => named_value m key) tvIndex value "bad type for GlobalPut" fuel base /\ standing w'
      else put_ok put (chain "bad type for GlobalPut"%string fuel base) (Some ReturnsNothing) w') put_fails) as Hput.
    { intros Hc. apply wp_bind. eapply (wp_store start true key value); try done. intros w' Hw'. apply wp_ret. simpl. by rewrite (chain_store _ _ _ _ fuel base m). }
    destruct (PutByIdICInfo.m_mayHaveMetatable ic); simpl negb; cbv iota.
    - apply wp_bind, wp_worked. unfold wp at 1. fold (GetOldValueFromTableObject (PutByIdICInfo.m_icKind ic) (PutByIdICInfo.m_slot ic)) in Hread.
      rewrite Hread, nil_test. apply wp_bind. case_bool_decide as Hn.
      + eapply wp_reads; [apply GetNewIndex_world; [by destruct Hw1|done]|]. rewrite <- Hh, nil_test. case_bool_decide as Hn'; simpl; [by apply Hput; right|].
        apply wp_ret. simpl. split_and!; try done. by apply (chain_table _ _ _ _ _ _ m).
      + apply wp_ret. simpl. by apply Hput; left.
    - apply Hput. right. rewrite Hh, Hmt by done. apply (metafield_null env hash vm tables w Hmw). }
  unfold GlobalPutImpl. apply wp_bind. eapply wp_post_mono; [|exact Hic]. intros [mm []] w' Hr; simpl in *; [|by apply wp_ret].
  destruct Hr as (-> & Hn & -> & Hw'). rewrite (table_address env tables base m) by done. by apply PutById_handle.
Qed.
End put_by_id_impl.
End proofs.
