(* ===== verification/ArrayPut.v ===== *)
(** * Puts by index into the tables of a world

    The two halves of an inline-cached put by index at one table, with what is known
    between them, and the checks for a metamethod before such a put. *)

From Stdlib Require Import String.
From S2P Require Import Prelude Double TValue MiscMath Machine TypeMask ArrayType Butterfly SparseMap HiddenClass TableObject TableArray TableTheorems Probing CheckedTable ClassHeap Structure Transition ClassInv ClassLookup ClassFrame ClassCreate ClassTransition ClassQuery ClassOps ClassView ClassTheorems Dictionary TableClasses NamedProps NamedInv NamedPut NamedTransition NamedMeta TableWhole TableHistory TableCreate TableClone TableWorld Metatables Metamethods MetamethodChain IndexEvent GetBytecodes IndexProofs TablePut PutBytecodes PutIndexBytecodes NewIndexEvent NewIndexProofs.

Section array_put.
Variable env : Env.
Variable hash : Z -> Z.
#[local] Instance array_put_ops : HiddenClassOps SysHeap := sys_ops env.
Hypothesis special_user : user_key (GetSpecialKeyForMetadataSlot env).
Notation St := (TableObject.St SysHeap).
Implicit Types (s : St).
Notation means := (means env hash).

(** Elements are compared key by key. *)
Lemma means_elements s m m' : means s m -> named_value m' = named_value m -> metatable m' = metatable m ->
  (forall k, element m' k = element m k) -> means s m'.
Proof.
  unfold TableHistory.means. intros (K & v & sc & Hw & Hg) -> -> He. exists K, v, sc. split; [done|]. intros k. by rewrite He, Hg.
Qed.

Lemma bind_bool (op : MT bool) s : (b ← op; if (b : bool) then mret true else mret false) s = op s.
Proof. unfold mbind, M_bind. by destruct (op s) as [[[] ?]| |]. Qed.

(** The put of the bytecodes is the fast path of [TableObject]. *)
Lemma ic_put_same `{!HiddenClassLaws SysHeap} s i value check_index ic s1 : TableArray.ic_ok s value ic s1 ->
  (PutByIntegerIndexICInfo.m_indexCheckKind ic = PutByIntegerIndexICInfo.NoArrayPart -> i = x_arrayBaseOrd) ->
  ic_put_array env i value check_index ic s1 = TryPutByIntegerIndexFast i value ic s1.
Proof.
  intros Hic Hi. unfold ic_put_array, TryPutByIntegerIndexFast. unfold TableArray.ic_ok in Hic.
  destruct (PutByIntegerIndexICInfo.m_indexCheckKind ic); try (by destruct (CheckValueMeetsPreconditionForPutByIntegerIndexFastPath _ _)).
  rewrite (Hi eq_refl). destruct Hic as (h & c & -> & _ & Hnil & _ & Hhc & _).
  change (Is env tNil value) with (IsNil value). rewrite Hnil, bind_bool.
  destruct (CheckValueMeetsPreconditionForPutByIntegerIndexFastPath _ _); [|done]. cbn [negb].
  rewrite !(bind_ok _ _ (with_hc s h) (st_table s) (with_hc s h)) by done.
  destruct (m_butterfly (st_table s)) as [b|]; [|done]. rewrite Z.eqb_refl, andb_false_r. cbn [negb].
  destruct (m_arrayStorageCapacity b) as [cap|]; [|done]. rewrite !(access_bind _ cap) by done. destruct (0 <? cap); [|done].
  by rewrite Hhc, Z.eqb_refl.
Qed.

(** Between the preparation and the put. *)
Record array_ready s (m : Meaning) (i value : Z) (ic : PutByIntegerIndexICInfo.t) s1 : Prop := {
  ar_means : means s1 m;
  ar_isolated : isolated s s1;
  ar_metatable : PutByIntegerIndexICInfo.m_mayHaveMetatable ic = false -> metatable m = 0;
  ar_kind : match PutByIntegerIndexICInfo.m_indexCheckKind ic with
            | PutByIntegerIndexICInfo.Continuous => IsContinuous (m_arrayType (st_table s1)) = true
            | PutByIntegerIndexICInfo.NoArrayPart => element m (double_of_int i) = Nil
            | _ => True
            end;
  ar_fast : forall check_index, wp (ic_put_array env i value check_index ic) s1
    (fun b s' => if (b : bool) then means s' (meaning_after m (PutInteger i value)) /\ isolated s s' else s' = s1) False;
  ar_slow : wp (PutByIntegerIndexSlow hash i value) s1
    (fun _ s' => means s' (meaning_after m (PutInteger i value)) /\ isolated s s') (exhausted s1)
}.

Lemma PreparePut_array s m i value : means s m -> in_i 64 i -> exact i ->
  wp (PreparePutByIntegerIndex i value) s (fun ic s1 => array_ready s m i value ic s1) (exhausted s).
Proof.
  intros Hs Hi Hex. destruct (put_whole env hash s _ _ _ Hs) as (N & Hinv & Hc & Hput).
  eapply wp_post_mono; [|by apply (@PreparePut_ready _ _ (named_laws env N (st_hc s)) hash s i value)].
  intros ic s1 [Hok (h & Hs1 & Hx) Hmt Hfirst Hfast Hslow].
  assert (means s1 m /\ isolated s s1) as [Hm1 Hi1].
  { destruct (Hput quiet_NaN Nil s1) as [Hw Hiso].
    - subst s1. by apply (@prepared_same _ _ (named_laws env N (st_hc s)) hash).
    - split; [|done]. eapply (means_elements s1 (mkMeaning _ _ _)); [exact Hw|done|done|]. intros k. simpl.
      by destruct (UnsafeFloatEqual quiet_NaN k) eqn:E; [apply feq_nan_l in E|]. }
  split; try done.
  - intros Hf. rewrite Hmt in Hf. by apply (arrayType_metatable env hash s m Hs).
  - unfold TableArray.ic_ok in Hok. destruct (PutByIntegerIndexICInfo.m_indexCheckKind ic); try done.
    + rewrite (Hfirst eq_refl), <- Hc. destruct Hok as (_ & _ & _ & _ & _ & Hk & _).
      destruct (inv_view hash s Hinv) as (_ & named & len & cap & vec & sc & Hv).
      destruct (view_no_array hash s _ _ _ _ _ Hv Hk) as (_ & _ & _ & Hnil & ->). rewrite (view_content hash s _ _ _ _ _ _ Hv).
      unfold cont_of. destruct (IsInt64Index _); [|done]. case_match; [|done]. rewrite Forall_forall in Hnil.
      destruct (vec !! _) as [x|] eqn:E; [|done]. by apply Hnil, (list_elem_of_lookup_2 _ _ _ E).
    + by destruct Hok as (-> & _ & ? & _).
  - intros check_index. unfold wp. rewrite (@ic_put_same (named_laws env N (st_hc s)) s i value check_index ic s1 Hok Hfirst).
    eapply wp_post_mono; [|exact Hfast]. intros [] s' Hb; [|done]. by apply Hput.
  - eapply wp_post_mono; [|exact Hslow]. intros ? s' Hb. by apply Hput.
Qed.
End array_put.
