(* ===== verification/PutIndexProofs.v ===== *)
(** * The bytecodes that write an element run the newindex event

    [TablePutByImm] and [TablePutByVal] compute [newindex_chain], with the same
    fuel. *)

From Stdlib Require Import String.
From S2P Require Import Prelude Double TValue MiscMath Machine TypeMask ArrayType Butterfly SparseMap HiddenClass TableObject TableArray TableTheorems Probing CheckedTable ClassHeap Structure Transition ClassInv ClassLookup ClassFrame ClassCreate ClassTransition ClassQuery ClassOps ClassView ClassTheorems Dictionary TableClasses NamedProps NamedInv NamedPut NamedTransition NamedMeta TableWhole TableHistory TableCreate TableClone TableWorld Metatables Metamethods MetamethodChain IndexEvent GetBytecodes IndexProofs TablePut PutBytecodes PutIndexBytecodes NewIndexEvent NewIndexProofs ArrayPut.

Section proofs.
Variable env : Env.
Variable hash : Z -> Z.
Variable vm : VM.
Hypothesis special_user : user_key (GetSpecialKeyForMetadataSlot env).
Variable tables : gmap Z Meaning.
#[local] Instance put_index_proof_ops : HiddenClassOps SysHeap := sys_ops env.
Notation table_of := (table_of tables).
Notation handler v := (metamethod env vm tables v LuaMetamethodKind.NewIndex).
Notation lua_value := (lua_value env).
Notation world_stands := (world_stands env hash vm).
Notation put_ok := (put_ok env hash vm tables).

Ltac read E := rewrite (bind_ok _ _ _ _ _ E).

(** The consequence rule, with the run at hand. *)
Lemma wp_with {S A} (m : M S A) s (P Q : A -> S -> Prop) (F F' : Prop) : wp m s P F -> (forall x s', m s = Ok (x, s') -> P x s' -> Q x s') ->
  (F -> F') -> wp m s Q F'.
Proof. unfold wp. destruct (m s) as [[x s']| |]; auto. Qed.

(** The state of a table at which nothing has been prepared. *)
Lemma get_table_world w a m : world_stands w tables -> tables !! a = Some m ->
  exists t, on_table a get_table w = Ok (t, w) /\ w_tables w !! a = Some t /\ means env hash (at_table w t) m.
Proof.
  intros [Hw _] Ha. destruct (wm_tables _ _ _ _ _ Hw a m Ha) as (t & Ht & Hm). exists t. split_and!; try done.
  by apply (on_table_reads w a t).
Qed.

(** The look for a metamethod that comes before a put by index: [original] reads
    the old value. *)
Lemma metamethod_world w a m raw (original : Z -> MW Z) : world_stands w tables -> tables !! a = Some m ->
  (forall t, w_tables w !! a = Some t -> means env hash (at_table w t) m -> original (m_arrayType t) w = Ok (raw, w)) ->
  (t ← on_table a get_table;
   if negb (ArrayType.MayHaveMetatable (m_arrayType t)) then mret None
   else
     gmr ← on_table a GetMetatable;
     if gm_result gmr =? 0 then mret None
     else
       ruledOut ← TableObject_TryQuicklyRuleOutMetamethod (gm_result gmr) LuaMetamethodKind.NewIndex;
       if (ruledOut : bool) then mret None
       else
         originalVal ← original (m_arrayType t);
         if negb (Is env tNil originalVal) then mret None
         else
           metamethod ← GetMetamethodFromMetatable env vm (gm_result gmr) LuaMetamethodKind.NewIndex;
           if Is env tNil metamethod then mret None else mret (Some metamethod)) w
  = Ok (if decide (raw <> Nil \/ metafield vm tables (metatable m) LuaMetamethodKind.NewIndex = Nil) then None
        else Some (metafield vm tables (metatable m) LuaMetamethodKind.NewIndex), w).
Proof.
  intros Hw Ha Horig. destruct (get_table_world w a m Hw Ha) as (t & E & Ht & Hm). read E. pose proof (ws_means _ _ _ _ _ Hw) as Hwm.
  destruct (ArrayType.MayHaveMetatable (m_arrayType t)) eqn:Hmt; cbn [negb].
  2: { rewrite decide_True; [done|right]. rewrite (arrayType_metatable env hash _ m Hm Hmt). apply (metafield_null env hash vm tables w Hwm). }
  destruct (metamethod_search env hash vm special_user tables w Hwm a m LuaMetamethodKind.NewIndex Ha) as (r & Er & _ & Hc). read Er.
  destruct Hc as [[-> Hn]|(-> & Eg & b & Eb & Hb)]; [rewrite decide_True; [done|by right]|].
  read Eb. destruct b; [rewrite decide_True; [done|right; auto]|]. read (Horig t Ht Hm). rewrite nil_test.
  case_bool_decide as Hr; cbn [negb]; [|rewrite decide_True; [done|by left]]. read Eg. rewrite nil_test.
  case_bool_decide as Hn; [rewrite decide_True; [done|by right]|]. rewrite decide_False; [done|]. by intros [?|?].
Qed.

(** ** Puts by integer *)

Section put_by_integer.
Variable index key idx value : Z.
Variable message : string.
Variable start : World.
Variable raw : Meaning -> Z.
Variable put : Meaning -> Meaning.
Hypothesis key_index : IsInt64Index key = Some index.
Hypothesis raw_element : forall m, raw m = element m key.
Hypothesis put_element : forall m, put m = meaning_after m (PutDouble key value).
Hypothesis value_ok : lua_value value.
Hypothesis value_int32 : IsInt32 value = false.
Notation chain := (newindex_chain env vm tables raw idx value message).
Notation next := (onto env vm tables raw idx value message).

(** The preparation of a put by index. *)
Definition prepares_array (s s1 : TableObject.St SysHeap) : Prop := exists ic, PreparePutByIntegerIndex index value s = Ok (ic, s1).
Notation standing := (standing env hash vm tables prepares_array start).
Notation put_fails := (put_fails env hash vm tables prepares_array exhausted start).

Lemma index_exact : exact index /\ in_i 64 index.
Proof. by apply (exact_of_index key). Qed.

(** A put under the double of the index is a put under the key. *)
Lemma put_same s m : means env hash s (meaning_after m (PutInteger index value)) -> means env hash s (put m).
Proof.
  intros Hs. rewrite put_element. eapply means_elements; [exact Hs|done|done|]. intros k. simpl. unfold TableHistory.put_element.
  destruct (IsInt64Index_Some _ _ key_index) as (_ & Hf & _). by rewrite (feq_congr _ _ k Hf).
Qed.

Lemma raw_index s m : means env hash s m -> raw m = element m (double_of_int index).
Proof.
  intros Hs. rewrite raw_element. pose proof (integer_reads env hash s m key index Hs key_index) as E1.
  pose proof (integer_reads env hash s m (double_of_int index) index Hs (proj1 index_exact)) as E2. rewrite E1 in E2. by injection E2.
Qed.

(** Without int32 values the inline caches get none of the value checks that they
    have no code for. *)
Lemma set_kind_check s ic s1 a vck kind : setNewHiddenClassAndArrayType a vck kind s = Ok (ic, s1) ->
  PutByIntegerIndexICInfo.m_indexCheckKind ic = PutByIntegerIndexICInfo.NoArrayPart /\ PutByIntegerIndexICInfo.m_valueCheckKind ic = vck.
Proof.
  unfold setNewHiddenClassAndArrayType. rewrite (bind_ok _ _ s s s) by done. cbv zeta. case_bool_decide.
  - destruct (UpdateArrayType _ _ _) as [[c h]| |]; [|done..]. unfold mbind, M_bind. simpl. by intros [= <- _].
  - by intros [= <- _].
Qed.

Lemma prepared_check s ic s1 (w : World) : PreparePutByIntegerIndex index value s = Ok (ic, s1) ->
  ArrayKind (m_arrayType (st_table s)) <> Int32 -> SpecializeValueCheck ic w = Ok (tt, w).
Proof.
  unfold PreparePutByIntegerIndex. rewrite value_int32, (bind_ok _ _ s (st_table s) s) by done. cbv zeta. unfold SpecializeValueCheck.
  destruct (index <? x_arrayBaseOrd); [by intros [= <- _]|]. case_bool_decide as Hno.
  - destruct (negb (index =? x_arrayBaseOrd)); [by intros [= <- _]|].
    destruct (IsDouble value); [by intros [-> ->]%set_kind_check|].
    destruct (negb (IsNil value)); [by intros [-> ->]%set_kind_check|by intros [= <- _]].
  - unfold continuousCheck, inBoundCheck. destruct (IsContinuous _); intros [= <- _] Hk; simpl;
      destruct (ArrayKind _); try done; by destruct (ArrayType.MayHaveMetatable _).
Qed.

(** The world after the put. *)
Lemma stored_world w a m t s' : world_stands w tables -> tables !! a = Some m -> w_tables w !! a = Some t ->
  isolated (at_table w t) s' -> means env hash s' (meaning_after m (PutInteger index value)) ->
  world_stands (worked w a s') (alter put a tables).
Proof.
  intros Hw Ha Ht Hi Hs. rewrite (alter_insert tables put a m Ha). pose proof (wm_closed _ _ _ _ _ (ws_means _ _ _ _ _ Hw)) as Hcl.
  destruct (co_values _ _ _ Hcl a m Ha) as [Hn He]. eapply world_work; try done; [by apply put_same|].
  rewrite put_element. eapply closed_put; try done. intros k. simpl. unfold TableHistory.put_element. by destruct (UnsafeFloatEqual key k).
Qed.

Lemma wp_prepare_array w a m (Q : PutByIntegerIndexICInfo.t -> World -> Prop) : standing w -> tables !! a = Some m ->
  (forall t ic s1, w_tables w !! a = Some t -> PreparePutByIntegerIndex index value (at_table w t) = Ok (ic, s1) ->
     array_ready env hash (at_table w t) m index value ic s1 -> standing (worked w a s1) -> Q ic (worked w a s1)) ->
  wp (on_table a (PreparePutByIntegerIndex index value)) w Q put_fails.
Proof.
  intros Hw Ha HQ. pose proof Hw as [[[Htab _] _] Hpath]. destruct (Htab a m Ha) as (t & Ht & Hm). apply (wp_on_table _ _ _ t); [done|].
  destruct index_exact as [Hex Hi]. eapply wp_with; [by apply (PreparePut_array env hash _ m index value Hm Hi Hex)|..].
  - intros ic s1 E Hr. apply (HQ t); try done. destruct Hr as [? ? _ _ _ _]. eapply prepare_stands; try done. by exists ic.
  - intros Hf. exists w, a, t. split_and!; done.
Qed.

(** The raw put of the slow path. *)
Lemma wp_raw_put w a m (Q : unit -> World -> Prop) : standing w -> tables !! a = Some m ->
  (forall w', world_stands w' (alter put a tables) -> Q tt w') ->
  wp (on_table a (RawPutByValIntegerIndex hash index value)) w Q put_fails.
Proof.
  intros Hw Ha HQ. destruct (get_table_world w a m (proj1 Hw) Ha) as (t & _ & Ht & Hm). apply (wp_on_table _ _ _ t); [done|].
  destruct index_exact as [Hex Hi].
  eapply wp_mono; [apply (run_table_spec env hash 0 special_user (PutInteger index value) (at_table w t) m Hm); by split|..].
  - intros [] s' [Hs Hiso]. apply HQ. destruct Hw. by eapply stored_world.
  - intros Hf. by exists w, a, t.
Qed.

Lemma PutByInteger_metamethod_world w base m : world_stands w tables -> table_of base = Some m ->
  PutByInteger_metamethod env hash vm index (AsPointer base) w =
    Ok (if decide (raw m <> Nil \/ handler base = Nil) then None else Some (handler base), w).
Proof.
  intros Hw Hm. pose proof (table_pointer tables base m Hm) as Ha. pose proof (ws_means _ _ _ _ _ Hw) as Hwm.
  rewrite (table_handler env hash vm tables w Hwm base m LuaMetamethodKind.NewIndex Hm). unfold PutByInteger_metamethod.
  assert ((getIcInfo ← prepare_integer (AsPointer base); get_integer hash (AsPointer base) index getIcInfo) w = Ok (raw m, w)) as E.
  { destruct (integer_world env hash vm tables w Hwm _ m key index Ha key_index) as (ic & E1 & E2 & _). read E1. by rewrite raw_element. }
  rewrite <- (metamethod_world w _ m (raw m) (fun _ => getIcInfo ← prepare_integer (AsPointer base); get_integer hash (AsPointer base) index getIcInfo) Hw Ha)
    by (intros; exact E).
  unfold mbind, M_bind. repeat (case_match; try done; simplify_eq).
Qed.

Lemma PutByInteger_handle fuel : forall w base, standing w ->
  wp (PutByInteger_HandleMetamethodSlowPath env hash vm index idx value message fuel base (handler base)) w
    (put_ok put (next fuel base)) put_fails.
Proof.
  induction fuel as [|fuel IH]; intros w base Hw; pose proof (proj1 Hw) as Hws; pose proof (ws_means _ _ _ _ _ Hws) as Hm;
    cbn [PutByInteger_HandleMetamethodSlowPath]; unfold onto;
    rewrite !entity_type by apply (handler_value_of env hash vm tables w Hm);
    rewrite Is_function by apply (handler_value_of env hash vm tables w Hm);
    (case_decide as Hf; [rewrite bool_decide_true by done; by apply wp_ret|rewrite bool_decide_false by done]); [by apply wp_ret|].
  pose proof (handler_value_of env hash vm tables w Hm base LuaMetamethodKind.NewIndex) as Hv.
  rewrite (Is_table env hash vm tables w Hm) by done. destruct (table_of (handler base)) as [m|] eqn:Hb.
  - rewrite bool_decide_true by done. cbv zeta. apply wp_bind. eapply wp_reads; [by apply (PutByInteger_metamethod_world w _ m)|].
    case_decide as Hc.
    + apply wp_bind, (wp_raw_put w _ m _ Hw); [by apply table_pointer|]. intros w' Hw'. apply wp_ret.
      by rewrite (chain_store env vm tables _ _ _ _ fuel _ m).
    + rewrite (table_address env tables (handler base) m), (chain_table env hash vm tables _ _ _ _ fuel _ m) by (done || tauto || (destruct (decide (raw m = Nil)); tauto)). by apply IH.
  - rewrite bool_decide_false by (by intros [? ?]). cbv zeta. apply wp_bind. eapply wp_reads; [by apply (GetMetamethodForValue_world env hash)|].
    rewrite nil_test, chain_no_table by done. case_decide as Hn; [rewrite bool_decide_true by done; by apply wp_ret|].
    rewrite bool_decide_false by done. by apply IH.
Qed.

(** ** The inline caches *)

(** What the body of an inline cache leaves behind. *)
Definition integer_ic_ok (fuel : nat) (base : Z) (r : Z * TablePutIcResultKind) (w : World) : Prop :=
  match r.2 with
  | NoMetamethod => put_ok put (chain fuel base) (Some ReturnsNothing) w
  | HandleMetamethod => r.1 = handler base /\ handler base <> Nil /\ chain fuel base = next fuel base /\ standing w
  | SlowPathPut => wp (HandleNoMetamethodSlowPathPut env hash index value base) w (put_ok put (chain fuel base)) put_fails
  | PutNotTable => False
  end.

Lemma ic_store w base m t ic s1 check_index fuel : standing w -> standing (worked w (AsPointer base) s1) -> table_of base = Some m ->
  w_tables w !! AsPointer base = Some t -> array_ready env hash (at_table w t) m index value ic s1 ->
  raw m <> Nil \/ handler base = Nil ->
  wp (ok ← on_table (AsPointer base) (ic_put_array env index value check_index ic);
      mret (TValue_default, if (ok : bool) then NoMetamethod else SlowPathPut))
    (worked w (AsPointer base) s1) (integer_ic_ok fuel base) put_fails.
Proof.
  intros Hw Hw1 Hm Ht Hr Hc. pose proof (table_pointer tables base m Hm) as Ha. apply wp_bind, wp_worked.
  eapply wp_mono; [apply (ar_fast _ _ _ _ _ _ _ _ Hr)| |done]. intros [] s' Hs; apply wp_ret; unfold integer_ic_ok; simpl.
  - rewrite (chain_store _ _ _ _ _ _ _ _ _ m) by done. split; [done|]. destruct Hs. destruct Hw. by eapply stored_world.
  - subst s'. unfold HandleNoMetamethodSlowPathPut. apply wp_bind, wp_worked.
    eapply wp_mono; [apply (ar_slow _ _ _ _ _ _ _ _ Hr)|..].
    + intros [] s' [Hs Hi]. apply wp_ret. rewrite (chain_store _ _ _ _ _ _ _ _ _ m) by done. split; [done|]. destruct Hw. by eapply stored_world.
    + intros Hf. exists (worked w (AsPointer base) s1), (AsPointer base), (st_table s1). split_and!; [done|by eexists|apply lookup_insert_eq|].
      by rewrite worked_view.
Qed.

(** Whether the old value is nil. *)
Lemma old_value_nil w base m t ic s1 : standing (worked w (AsPointer base) s1) -> table_of base = Some m ->
  array_ready env hash (at_table w t) m index value ic s1 ->
  match PutByIntegerIndexICInfo.m_indexCheckKind ic with
  | PutByIntegerIndexICInfo.Continuous =>
      isInRange ← on_table (AsPointer base) (CheckIndexFitsInContinuousArray index);
      mret (negb isInRange)
  | PutByIntegerIndexICInfo.NoArrayPart => mret true
  | PutByIntegerIndexICInfo.InBound | PutByIntegerIndexICInfo.ForceSlowPath =>
      getIcInfo ← prepare_integer (AsPointer base);
      originalVal ← get_integer hash (AsPointer base) index getIcInfo;
      mret (Is env tNil originalVal)
  end (worked w (AsPointer base) s1) = Ok (bool_decide (raw m = Nil), worked w (AsPointer base) s1).
Proof.
  intros Hw1 Hm Hr. pose proof (table_pointer tables base m Hm) as Ha. pose proof (ws_means _ _ _ _ _ (proj1 Hw1)) as Hwm.
  destruct (integer_world env hash vm tables _ Hwm _ m key index Ha key_index) as (gic & E1 & E2 & _).
  destruct Hr as [Hm1 _ _ Hk _ _]. destruct (PutByIntegerIndexICInfo.m_indexCheckKind ic).
  - read E1. read E2. by rewrite nil_test, raw_element.
  - rewrite bool_decide_true; [done|]. by rewrite (raw_index s1).
  - read E1. read E2. by rewrite nil_test, raw_element.
  - destruct (continuous_reads env hash s1 m key index Hm1 key_index Hk) as (b & Eb & Hb).
    assert (on_table (AsPointer base) (CheckIndexFitsInContinuousArray index) (worked w (AsPointer base) s1) = Ok (b, worked w (AsPointer base) s1)) as E.
    { apply (on_table_reads _ _ (st_table s1)); [apply lookup_insert_eq|]. by rewrite worked_view. }
    read E. rewrite raw_element. destruct b; [destruct Hb as [_ Hb]|]; by case_bool_decide.
Qed.

Lemma TablePutByInteger_ic w base m check_index fuel : standing w -> no_int32_arrays w -> table_of base = Some m ->
  wp (TablePutByInteger_ic_body env hash vm index value check_index (AsPointer base)) w (integer_ic_ok fuel base) put_fails.
Proof.
  intros Hw Hint Hm. pose proof (table_pointer tables base m Hm) as Ha. pose proof (ws_means _ _ _ _ _ (proj1 Hw)) as Hmw.
  pose proof (table_handler env hash vm tables w Hmw base m LuaMetamethodKind.NewIndex Hm) as Hh.
  unfold TablePutByInteger_ic_body. rewrite bool_decide_true by (by eapply (co_type _ _ _ (wm_closed _ _ _ _ _ Hmw))). simpl negb. cbv iota.
  apply wp_bind, (wp_prepare_array w _ m _ Hw Ha). intros t ic s1 Ht E Hr Hw1. cbv zeta.
  apply wp_bind. eapply wp_reads; [by apply (prepared_check (at_table w t) ic s1); [|apply (Hint _ t Ht)]|].
  destruct (PutByIntegerIndexICInfo.m_mayHaveMetatable ic) eqn:Hmay; simpl negb; cbv iota.
  - apply wp_bind. eapply wp_reads; [by apply (old_value_nil w base m t ic s1)|]. apply wp_bind. case_bool_decide as Hn.
    + eapply wp_reads; [by apply (GetNewIndex_world env hash vm special_user tables _ _ m); [destruct Hw1|]|]. rewrite <- Hh, nil_test. case_bool_decide as Hn'; simpl.
      * by apply (ic_store w base m t); auto.
      * apply wp_ret. unfold integer_ic_ok. simpl. split_and!; try done. by apply (chain_table _ hash _ _ _ _ _ _ _ _ m).
    + apply wp_ret. simpl. by apply (ic_store w base m t); auto.
  - apply (ic_store w base m t); try done. right. rewrite Hh, (ar_metatable _ _ _ _ _ _ _ _ Hr) by done.
    apply (metafield_null env hash vm tables w Hmw).
Qed.

(** A base that is no table. *)
Lemma not_table_integer w base fuel : standing w -> lua_value base -> table_of base = None ->
  wp (PutByInteger_HandleNotTableObjectSlowPath env hash vm index idx value message fuel base) w (put_ok put (chain fuel base)) put_fails.
Proof.
  intros Hw Hv Hm. pose proof (proj1 Hw) as Hws. pose proof (ws_means _ _ _ _ _ Hws) as Hmw. unfold PutByInteger_HandleNotTableObjectSlowPath. apply wp_bind.
  eapply wp_reads; [by apply (GetMetamethodForValue_world env hash vm tables w Hmw)|].
  rewrite nil_test, (chain_no_table env vm tables _ _ _ _ fuel base Hm). case_decide as Hn; [rewrite bool_decide_true by done; by apply wp_ret|].
  rewrite bool_decide_false by done. by apply PutByInteger_handle.
Qed.

(** The bytecode after its look at the index. *)
Lemma integer_chain w base check_index fuel (not_table : Run) : standing w -> no_int32_arrays w -> lua_value base ->
  (table_of base = None -> wp not_table w (put_ok put (chain fuel base)) put_fails) ->
  wp (if Is env tHeapEntity base then
        '(metamethod, resKind) ← TablePutByInteger_ic_body env hash vm index value check_index (AsPointer base);
        match resKind with
        | NoMetamethod => ReturnNothing
        | SlowPathPut => HandleNoMetamethodSlowPathPut env hash index value base
        | HandleMetamethod => PutByInteger_HandleMetamethodSlowPath env hash vm index idx value message fuel base metamethod
        | PutNotTable => not_table
        end
      else not_table) w (put_ok put (chain fuel base)) put_fails.
Proof.
  intros Hw Hint Hv Hnt. pose proof (ws_means _ _ _ _ _ (proj1 Hw)) as Hmw.
  destruct (entity_cases env hash vm tables w Hmw base Hv) as [(-> & m & Hm & Ha)|[(-> & Ht & Hm)|[-> Hm]]]; [..|by apply Hnt].
  - apply wp_bind. eapply wp_post_mono; [|by apply (TablePutByInteger_ic w base m check_index fuel)].
    intros [mm kind] w' Hic. unfold integer_ic_ok in Hic. simpl in Hic. destruct kind; try done.
    destruct Hic as (-> & Hn & -> & Hw'). by apply PutByInteger_handle.
  - apply wp_bind. eapply wp_reads; [unfold TablePutByInteger_ic_body; rewrite bool_decide_false by done; done|]. by apply Hnt.
Qed.
End put_by_integer.

(** ** [TablePutByImm] *)

Lemma TablePutByImm_chain start index value fuel w base : lua_value value -> IsInt32 value = false -> in_i 16 index ->
  standing env hash vm tables (prepares_array index value) start w -> no_int32_arrays w -> lua_value base ->
  wp (TablePutByImmImpl env hash vm index value fuel base) w
    (put_ok (fun m => meaning_after m (PutInteger index value))
       (newindex_chain env vm tables (fun m => element m (double_of_int index)) (CreateDouble (double_of_int index)) value
          "bad type for TablePutByImm" fuel base))
    (put_fails env hash vm tables (prepares_array index value) exhausted start).
Proof.
  intros Hval Hnot Hi Hw Hint Hv. assert (IsInt64Index (double_of_int index) = Some index) as Hex by by apply imm_index. unfold TablePutByImmImpl. cbv zeta.
  apply (integer_chain index (double_of_int index)); try done. intros Hm. by apply (not_table_integer index (double_of_int index)).
Qed.
End proofs.
