(* ===== verification/PutValueProofs.v ===== *)
(** * [TablePutByVal] runs the newindex event

    For every key that a table can have; NaN and nil make it throw. *)

From Stdlib Require Import String.
From S2P Require Import Prelude Double TValue MiscMath Machine TypeMask ArrayType Butterfly SparseMap HiddenClass TableObject TableArray TableTheorems Probing CheckedTable ClassHeap Structure Transition ClassInv ClassLookup ClassFrame ClassCreate ClassTransition ClassQuery ClassOps ClassView ClassTheorems Dictionary TableClasses NamedProps NamedInv NamedPut NamedTransition NamedMeta TableWhole TableHistory TableCreate TableClone TableWorld Metatables Metamethods MetamethodChain IndexEvent GetBytecodes IndexProofs TablePut PutBytecodes PutIndexBytecodes NewIndexEvent NewIndexProofs ArrayPut PutIndexProofs.

(** ** Sparse maps of array types *)

Definition sparse_kind (k : GetByIntegerIndexICInfo.ICKind) : bool :=
  match k with
  | GetByIntegerIndexICInfo.VectorStorageOrSparseMap | GetByIntegerIndexICInfo.VectorStorageXorSparseMap => true
  | _ => false
  end.

(** What the array type of a table says of its sparse map. *)
Definition sparse_consistent (a : Z) : bool :=
  implb (HasSparseMap a) (negb (IsContinuous a) && negb (bool_decide (ArrayKind a = ArrayType.NoButterflyArrayPart))) &&
  implb (SparseMapContainsVectorIndex a) (HasSparseMap a).

Lemma sparse_icKind a : useful a -> sparse_consistent a = true ->
  sparse_kind (ComputeGetByIntegerIndexIcKindFromArrayType a) = HasSparseMap a.
Proof.
  intros Hu Hs. apply eqb_prop.
  refine (proj1 (Bool.implb_true_iff (sparse_consistent a) _) _ Hs).
  revert a Hu Hs. intros a Hu _. revert a Hu. apply useful_checked. by vm_compute.
Qed.

Lemma inv_sparse_consistent {Hc} `{HiddenClassLaws Hc} hash (s : TableObject.St Hc) : inv hash s -> sparse_consistent (m_arrayType (st_table s)) = true.
Proof.
  intros [_ [(_ & _ & (Hk & Hc' & Hs & Hv))|(named & len & cap & vec & sc & (_ & _ & _ & Hsh))]]; unfold sparse_consistent.
  - by rewrite Hk, Hc', Hs, Hv.
  - destruct Hsh as [(Hk & Hc' & Hs & Hv)|Hk Hc' Hs Hv|Hk Hc' Hs Hv|m Hk Hc' Hs]; rewrite Hk, Hc', Hs, ?Hv || rewrite Hc', Hs, ?Hv; try done.
    by destruct (SparseMapContainsVectorIndex _).
Qed.

Section proofs.
Variable env : Env.
Variable hash : Z -> Z.
Variable vm : VM.
Hypothesis special_user : user_key (GetSpecialKeyForMetadataSlot env).
Variable tables : gmap Z Meaning.
#[local] Instance put_value_ops : HiddenClassOps SysHeap := sys_ops env.
Notation table_of := (table_of tables).
Notation handler v := (metamethod env vm tables v LuaMetamethodKind.NewIndex).
Notation lua_value := (lua_value env).
Notation world_stands := (world_stands env hash vm).
Notation put_ok := (put_ok env hash vm tables).

(** The read of an old value that is not in the vector. *)
Lemma sparse_reads s m key : means env hash s m -> IsInt64Index key = None ->
  (if HasSparseMap (m_arrayType (st_table s)) then QueryArraySparseMap hash key else mret Nil) s = Ok (element m key, s).
Proof.
  intros Hs Hk. rewrite <- (double_reads env hash s m key Hs Hk).
  destruct (put_whole env hash s _ _ _ Hs) as (N & Hinv & _). pose proof Hinv as [[] _].
  change (GetByIntegerIndexICInfo.m_icKind _) with (ComputeGetByIntegerIndexIcKindFromArrayType (m_arrayType (st_table s))).
  rewrite <- sparse_icKind; [|done|by eapply inv_sparse_consistent].
  by destruct (ComputeGetByIntegerIndexIcKindFromArrayType _).
Qed.

Section put_by_val.
Variable start : World.
Variable tvIndex value : Z.
Hypothesis tvIndex_key : index_key env vm tvIndex.
Hypothesis value_ok : lua_value value.
Hypothesis value_int32 : IsInt32 value = false.
Hypothesis tvIndex_storable : storable tvIndex.
Notation raw := (index_value vm tvIndex).
Notation put := (assign_value vm tvIndex value).
Notation message := "bad type for TablePutByVal"%string.
Notation chain := (newindex_chain env vm tables raw tvIndex value message).
Notation next := (onto env vm tables raw tvIndex value message).

(** ** The loops *)

Section loops.
Variable prepares : TableObject.St SysHeap -> TableObject.St SysHeap -> Prop.
Variable exhausts : TableObject.St SysHeap -> Prop.
Notation standing := (standing env hash vm tables prepares start).
Notation put_fails := (put_fails env hash vm tables prepares exhausts start).
Variable round : Z -> (Z -> Run) -> Run.

(** A round at a table puts, or goes on with the metamethod of the table. *)
Definition round_runs : Prop := forall fuel w base m again, standing w -> lua_value base -> table_of base = Some m ->
  (forall w', standing w' -> handler base <> Nil -> wp (again (handler base)) w' (put_ok put (next fuel base)) put_fails) ->
  wp (round base again) w (put_ok put (chain fuel base)) put_fails.
Hypothesis round_ok : round_runs.

Lemma PutByVal_handle fuel : forall w base, standing w ->
  wp (PutByVal_handle_metamethod env vm tvIndex value round fuel base (handler base)) w (put_ok put (next fuel base)) put_fails.
Proof.
  induction fuel as [|fuel IH]; intros w base Hw; pose proof (proj1 Hw) as Hws; pose proof (ws_means _ _ _ _ _ Hws) as Hm;
    cbn [PutByVal_handle_metamethod]; unfold onto;
    pose proof (handler_value_of env hash vm tables w Hm base LuaMetamethodKind.NewIndex) as Hv;
    rewrite Is_function by done;
    (case_decide as Hf; [rewrite bool_decide_true by done; by apply wp_ret|rewrite bool_decide_false by done]); [by apply wp_ret|].
  cbv zeta. rewrite (Is_table env hash vm tables w Hm) by done. destruct (table_of (handler base)) as [m|] eqn:Hb.
  - rewrite bool_decide_true by done. apply (round_ok fuel w (handler base) m); try done. intros w' Hw' Hn. by apply IH.
  - rewrite bool_decide_false by (by intros [? ?]). apply wp_bind. eapply wp_reads; [by apply (GetMetamethodForValue_world env hash vm tables w Hm)|].
    rewrite nil_test, (chain_no_table env vm tables _ _ _ _ fuel _ Hb). case_decide as Hn; [rewrite bool_decide_true by done; by apply wp_ret|].
    rewrite bool_decide_false by done. by apply IH.
Qed.

Lemma PutByVal_loop fuel w base m : standing w -> lua_value base -> table_of base = Some m ->
  wp (round base (PutByVal_handle_metamethod env vm tvIndex value round fuel base)) w (put_ok put (chain fuel base)) put_fails.
Proof. intros Hw Hv Hm. apply (round_ok fuel w base m); try done. intros w' Hw' _. by apply PutByVal_handle. Qed.
End loops.

(** What a put prepares at a table, and when a table has no resources left for it. *)
Definition value_prepares : TableObject.St SysHeap -> TableObject.St SysHeap -> Prop :=
  match IsInt64Index tvIndex with
  | Some i => prepares_array env i value
  | None =>
      match unbox tvIndex with
      | LPointer p => prepares_by_id env false p
      | LMIV k => prepares_by_id env false (m_specialKeyForBooleanIndex vm (MIV.GetBooleanValue k))
      | _ => fun _ _ => False
      end
  end.
Definition value_exhausts : TableObject.St SysHeap -> Prop :=
  match unbox tvIndex with LDouble _ => exhausted | _ => put_exhausted end.
Notation standing := (standing env hash vm tables value_prepares start).
Notation put_fails := (put_fails env hash vm tables value_prepares value_exhausts start).

(** Rounds at the keys of named properties. *)
Lemma property_round isString p : raw = (fun m => named_value m p) -> put = (fun m => meaning_after m (PutNamed isString p value)) ->
  property_key env false p -> value_prepares = prepares_by_id env false p -> value_exhausts = put_exhausted ->
  round_runs value_prepares value_exhausts (PutByVal_property env vm value p).
Proof.
  intros Hraw Hput Hkey Hp He fuel w base m again Hw Hv Hm Hagain. rewrite Hp, He in *. rewrite Hraw, Hput in *.
  pose proof (table_pointer tables base m Hm) as Ha. unfold PutByVal_property. cbv zeta.
  apply wp_bind, (wp_prepare env hash vm special_user tables start false p Hkey _ _ m _ Hw Ha). intros t ic s1 Ht _ Hr Hw1.
  apply (check_and_put env hash vm special_user tables start false p value value_ok tvIndex message w base m t ic s1 (PutById env p value ic)); done.
Qed.

(** Rounds at doubles. *)
Lemma double_look w base m : world_stands w tables -> table_of base = Some m -> IsInt64Index tvIndex = None -> raw m = element m tvIndex ->
  CheckShouldInvokeMetamethodForDoubleNotRepresentableAsInt64Index env hash vm (AsPointer base) tvIndex w =
    Ok (if decide (raw m <> Nil \/ handler base = Nil) then None else Some (handler base), w).
Proof.
  intros Hw Hm Hi Hraw. pose proof (table_pointer tables base m Hm) as Ha. pose proof (ws_means _ _ _ _ _ Hw) as Hwm.
  rewrite (table_handler env hash vm tables w Hwm base m LuaMetamethodKind.NewIndex Hm).
  apply (metamethod_world env hash vm special_user tables w (AsPointer base) m (raw m)
    (fun arrType => if HasSparseMap arrType then on_table (AsPointer base) (QueryArraySparseMap hash tvIndex) else mret Nil) Hw Ha).
  intros t Ht Hmean. pose proof (sparse_reads _ _ _ Hmean Hi) as E. change (m_arrayType (st_table (at_table w t))) with (m_arrayType t) in E.
  rewrite Hraw. destruct (HasSparseMap (m_arrayType t)); [by apply (on_table_reads _ _ t)|]. by injection E as <-.
Qed.

Lemma double_round d : unbox tvIndex = LDouble d -> IsInt64Index tvIndex = None ->
  round_runs value_prepares value_exhausts (PutByVal_double env hash vm value tvIndex).
Proof.
  intros E Hi fuel w base m again Hw Hv Hm Hagain. pose proof (table_pointer tables base m Hm) as Ha.
  assert (d = tvIndex) as -> by (by apply value_double).
  assert (IsNaN tvIndex = false) as Hnan by (pose proof tvIndex_storable as Hst; unfold storable in Hst; by rewrite E in Hst).
  assert (raw m = element m tvIndex) as Hraw by (unfold index_value; by rewrite E, Hnan).
  unfold PutByVal_double. apply wp_bind. eapply wp_reads; [by apply (double_look w base m); [destruct Hw|..]|].
  case_decide as Hc.
  - destruct (get_table_world env hash vm tables w _ m (proj1 Hw) Ha) as (t & _ & Ht & Hmean).
    apply wp_bind, (wp_on_table _ _ _ t); [done|].
    eapply wp_mono; [by apply (run_table_spec env hash 0 special_user (PutDouble tvIndex value) (at_table w t) m Hmean)|..].
    + intros [] s' [Hs Hiso]. apply wp_ret. rewrite (chain_store _ _ _ _ _ _ _ _ _ m) by done. split; [done|]. simpl.
      rewrite (alter_insert tables put _ m Ha). destruct Hw as [Hw _]. pose proof (wm_closed _ _ _ _ _ (ws_means _ _ _ _ _ Hw)) as Hcl.
      destruct (co_values _ _ _ Hcl _ m Ha) as [Hn He]. unfold assign_value. rewrite E.
      eapply world_work; try done. eapply closed_put; try done. intros k. simpl. unfold TableHistory.put_element. by destruct (UnsafeFloatEqual tvIndex k).
    + intros Hf. exists w, (AsPointer base), t. split_and!; [done|by eexists|done|]. unfold value_exhausts. by rewrite E.
  - rewrite (chain_table env hash vm tables _ _ _ _ fuel _ m) by (done || tauto || (destruct (decide (raw m = Nil)); tauto)).
    apply Hagain; [done|tauto].
Qed.

(** ** Indices that are no integers *)

Lemma not_int64_table fuel w base m : IsInt64Index tvIndex = None -> standing w -> lua_value base -> table_of base = Some m ->
  wp (HandleTableObjectNotInt64IndexSlowPath env hash vm tvIndex value fuel base) w (put_ok put (chain fuel base)) put_fails.
Proof.
  intros Hi Hw Hv Hm. pose proof tvIndex_key as [Hiv Hk]. pose proof (value_tests env tvIndex Hiv) as Ht. unfold tag_tests in Ht.
  pose proof tvIndex_storable as Hst. unfold storable in Hst.
  unfold HandleTableObjectNotInt64IndexSlowPath. cbv zeta. rewrite (Is_entity env tvIndex Hiv). change (Is env tDouble tvIndex) with (IsDouble tvIndex).
  destruct (unbox tvIndex) as [d| |k|p] eqn:E; [|done|..]; injection Ht as Hd _ _ _; rewrite ?Hd.
  - assert (d = tvIndex) as -> by (by apply value_double). rewrite Hst. by apply (PutByVal_loop _ _ _ (double_round _ E Hi) _ _ _ m).
  - rewrite nil_test, (value_AsMIV _ k E).
    rewrite bool_decide_false by (intros Hz; rewrite Hz in E; by injection E as <-). unfold VM_GetSpecialKeyForBoolean.
    apply (PutByVal_loop _ _ _) with m; try done.
    apply (property_round true); unfold index_value, assign_value, value_prepares, value_exhausts; rewrite ?Hi, ?E; try done.
    + by rewrite (proj2 (Z.eqb_neq k MIV.x_nil)).
    + destruct (Hk (MIV.GetBooleanValue k)) as (? & ? & _). by split_and!.
  - rewrite (value_pointer _ p E). apply (PutByVal_loop _ _ _) with m; try done.
    by apply (property_round false); unfold index_value, assign_value, value_prepares, value_exhausts; rewrite ?Hi, ?E.
Qed.

Lemma not_int64_not_table fuel : forall w base, IsInt64Index tvIndex = None -> standing w -> lua_value base -> table_of base = None ->
  wp (HandleNotTableObjectNotInt64IndexSlowPath env hash vm tvIndex value fuel base) w (put_ok put (chain fuel base)) put_fails.
Proof.
  induction fuel as [|fuel IH]; intros w base Hi Hw Hv Hb; pose proof (proj1 Hw) as Hws; pose proof (ws_means _ _ _ _ _ Hws) as Hm;
    pose proof (handler_value_of env hash vm tables w Hm base LuaMetamethodKind.NewIndex) as Hh;
    cbn [HandleNotTableObjectNotInt64IndexSlowPath]; apply wp_bind; (eapply wp_reads; [by apply (GetMetamethodForValue_world env hash vm tables w Hm)|]);
    rewrite nil_test, (chain_no_table env vm tables _ _ _ _ _ _ Hb); unfold onto;
    (case_decide as Hn; [rewrite bool_decide_true by done; by apply wp_ret|rewrite bool_decide_false by done]);
    rewrite Is_function by done; (case_decide as Hf; [rewrite bool_decide_true by done; by apply wp_ret|rewrite bool_decide_false by done]); [by apply wp_ret|].
  cbv zeta. rewrite (Is_table env hash vm tables w Hm) by done. destruct (table_of (handler base)) as [m|] eqn:Hb'.
  - rewrite bool_decide_true by done. by apply (not_int64_table fuel w (handler base) m).
  - rewrite bool_decide_false by (by intros [? ?]). by apply IH.
Qed.

(** ** [TablePutByVal] *)

Lemma integer_prepares i : IsInt64Index tvIndex = Some i -> value_prepares = prepares_array env i value /\ value_exhausts = exhausted /\
  (forall m, raw m = element m tvIndex) /\ (forall m, put m = meaning_after m (PutDouble tvIndex value)).
Proof.
  intros Hi. destruct (int64_double env vm tvIndex tvIndex_key) as (d & E & Hn); [by eexists|].
  assert (d = tvIndex) as -> by (by apply value_double). unfold value_prepares, value_exhausts, index_value, assign_value. by rewrite Hi, E, Hn.
Qed.

Lemma TablePutByVal_chain w fuel base : standing w -> no_int32_arrays w -> lua_value base ->
  wp (TablePutByValImpl env hash vm tvIndex value fuel base) w (put_ok put (chain fuel base)) put_fails.
Proof.
  intros Hw Hint Hv. pose proof (ws_means _ _ _ _ _ (proj1 Hw)) as Hmw. unfold TablePutByValImpl. cbv zeta.
  destruct (IsInt64Index tvIndex) as [i|] eqn:Hi.
  - rewrite int64_index_same, bool_decide_true by (by eexists). rewrite (int64_index _ _ Hi).
    destruct (integer_prepares i Hi) as (Ep & Ee & Hraw & Hput). rewrite Ep, Ee in *.
    apply (integer_chain env hash vm special_user tables i tvIndex tvIndex value message start); try done. intros Hm.
    unfold PutByVal_HandleNotTableObjectSlowPath. cbv zeta. rewrite int64_index_same, bool_decide_true by (by eexists). rewrite (int64_index _ _ Hi).
    cbn [negb]. by apply (not_table_integer env hash vm special_user tables i tvIndex tvIndex value message start).
  - rewrite int64_index_same, bool_decide_false by (rewrite Hi; by intros [? ?]).
    unfold PutByVal_HandleNotInt64IndexSlowPath. rewrite (Is_table env hash vm tables w Hmw) by done.
    destruct (table_of base) as [m|] eqn:Hm.
    + rewrite bool_decide_true by done. by apply (not_int64_table fuel w base m).
    + rewrite bool_decide_false by (by intros [? ?]). by apply not_int64_not_table.
Qed.
End put_by_val.

(** NaN and nil are no keys: a put at a table throws before it looks for a metamethod. *)
Lemma not_storable_index tvIndex : lua_value tvIndex -> ~ storable tvIndex -> IsInt64Index tvIndex = None.
Proof.
  intros Hiv Hst. pose proof (value_tests env tvIndex Hiv) as Ht. unfold tag_tests in Ht.
  apply eq_None_not_Some. intros [i Hi]. destruct (IsInt64Index_Some _ _ Hi) as (_ & (_ & Hn & _)%feq_spec & _). unfold storable in Hst.
  destruct Hiv as (x & -> & Hx & _). rewrite unbox_box_lemma in Hst, Ht by done.
  destruct (IsDouble (box x)) eqn:Ed; [|by rewrite box_not_double_NaN in Hn].
  destruct x as [d| | |]; [by apply Hst|congruence..].
Qed.

Lemma not_storable_table tvIndex value fuel base w : lua_value tvIndex -> ~ storable tvIndex ->
  HandleTableObjectNotInt64IndexSlowPath env hash vm tvIndex value fuel base w =
    Ok (Some (Throws (if IsDouble tvIndex then "table index is NaN" else "table index is nil")), w).
Proof.
  intros Hiv Hst. pose proof (value_tests env tvIndex Hiv) as Ht. unfold tag_tests in Ht.
  unfold HandleTableObjectNotInt64IndexSlowPath. cbv zeta. rewrite (Is_entity env tvIndex Hiv). change (Is env tDouble tvIndex) with (IsDouble tvIndex).
  unfold storable in Hst. destruct (unbox tvIndex) as [d| |k|p] eqn:E; [|tauto| |tauto]; injection Ht as Hd _ _ _; rewrite Hd.
  - assert (d = tvIndex) as -> by (by apply value_double). by destruct (IsNaN tvIndex).
  - rewrite nil_test, bool_decide_true; [done|]. destruct Hiv as (x & -> & Hx & _). rewrite unbox_box_lemma in E by done. subst x.
    by destruct (decide (k = MIV.x_nil)) as [->|].
Qed.

Lemma TablePutByVal_not_storable w tvIndex value fuel base : world_stands w tables -> lua_value tvIndex -> ~ storable tvIndex ->
  lua_value base -> is_Some (table_of base) ->
  TablePutByValImpl env hash vm tvIndex value fuel base w =
    Ok (Some (Throws (if IsDouble tvIndex then "table index is NaN" else "table index is nil")), w).
Proof.
  intros Hw Hiv Hst Hv Hm. unfold TablePutByValImpl. cbv zeta.
  rewrite int64_index_same, bool_decide_false by (rewrite not_storable_index by done; by intros [? ?]).
  unfold PutByVal_HandleNotInt64IndexSlowPath. rewrite (Is_table env hash vm tables w (ws_means _ _ _ _ _ Hw)), bool_decide_true by done.
  by apply not_storable_table.
Qed.
End proofs.
