(* ===== verification/BytecodeProperties.v ===== *)
(** * Properties of the bytecodes that read and write fields

    The bytecodes implement the index and newindex events of Lua, with their
    instances on a sample world. *)

From Stdlib Require Import String.
From S2P Require Import Prelude Double TValue MiscMath Machine TypeMask ArrayType Butterfly SparseMap HiddenClass TableObject TableArray TableTheorems Probing CheckedTable ClassHeap Structure Transition ClassInv ClassLookup ClassFrame ClassCreate ClassTransition ClassQuery ClassOps ClassView ClassTheorems Dictionary TableClasses NamedProps NamedInv NamedPut NamedTransition NamedMeta TableWhole TableHistory TableProperties TableCreate TableClone TableWorld WorldProperties Metatables Metamethods MetamethodChain IndexEvent GetBytecodes IndexProofs TablePut PutBytecodes NewIndexEvent NewIndexProofs.

(** ** What it means to implement an event *)

(** The run of a bytecode that reads: it is defined and changes nothing, what it
    ends with is an outcome of the event, and as many rounds as there are tables are
    enough for every outcome. *)
Definition reads_as (event : Outcome -> Prop) (tables : nat) (run : nat -> Run) (w : World) : Prop :=
  forall fuel, exists r, run fuel w = Ok (r, w) /\ (forall o, r = Some o -> event o) /\
    ((tables <= fuel)%nat -> forall o, event o -> r = Some o).

(** The run of a bytecode that writes: an end of the event, with the tables it
    leaves behind, or no end; or the process stops at a put. *)
Definition writes_as (env : Env) (hash : Z -> Z) (vm : VM) (event : PutEnd -> Prop) (put : Meaning -> Meaning)
    (tables : gmap Z Meaning) (stops : Prop) (run : nat -> Run) (w : World) : Prop :=
  forall fuel, match run fuel w with
  | Ok (Some o, w') => exists e, event e /\ o = end_outcome e /\ world_stands env hash vm w' (end_tables put e tables)
  | Ok (None, w') => world_stands env hash vm w' tables /\ ((size tables <= fuel)%nat -> forall e, ~ event e)
  | VMFail => stops
  | UB => False
  end.

Lemma chain_reads env vm tables raw idx message run w base :
  (forall fuel, run fuel w = Ok (index_chain env vm tables raw idx message fuel base, w)) ->
  reads_as (index_event env vm tables raw idx message base) (size tables) run w.
Proof.
  intros Hrun fuel. exists (index_chain env vm tables raw idx message fuel base). split; [done|].
  destruct (chain_result env vm tables LuaMetamethodKind.Index _ (index_stop_nil env vm tables raw idx message) fuel base) as [H1 H2].
  split; [intros o Ho; by apply index_event_chain, H1|]. intros Hf o He. apply H2; [done|]. by apply index_event_chain.
Qed.

Lemma chain_writes env hash vm tables raw idx value message put stops run w base :
  (forall fuel, wp (run fuel) w (put_ok env hash vm tables put (newindex_chain env vm tables raw idx value message fuel base)) stops) ->
  writes_as env hash vm (newindex_event env vm tables raw idx value message base) put tables stops run w.
Proof.
  intros Hrun fuel. specialize (Hrun fuel). unfold wp in Hrun. destruct (run fuel w) as [[r w']| |]; [|done..].
  destruct (chain_result env vm tables LuaMetamethodKind.NewIndex _ (newindex_stop_nil env vm tables raw idx value message) fuel base) as [H1 H2].
  fold (newindex_chain env vm tables raw idx value message fuel base) in H1, H2. unfold put_ok in Hrun.
  destruct (newindex_chain env vm tables raw idx value message fuel base) as [e|]; destruct Hrun as [-> Hw].
  - exists e. split; [by apply newindex_event_chain, H1|done].
  - split; [done|]. intros Hf e He. apply newindex_event_chain in He. by apply (H2 Hf) in He.
Qed.

(** ** From a program to the meaning of its tables *)

(** The tables of the variables of a program. *)
Definition program_tables (vars : list Z) (ms : list Meaning) : gmap Z Meaning := list_to_map (zip vars ms).

Lemma program_tables_lookup env hash h vars w ms a m : stands env hash h vars w ms -> program_tables vars ms !! a = Some m ->
  exists x, vars !! x = Some a /\ ms !! x = Some m.
Proof. intros Hst Ha%elem_of_list_to_map_2. by apply elem_of_lookup_zip_with in Ha as (x & ? & ? & [= <- <-] & ? & ?); exists x. Qed.

Lemma program_stands env hash h vm vars w ms : stands env hash h vars w ms -> closed env vm (program_tables vars ms) ->
  world_stands env hash vm w (program_tables vars ms).
Proof.
  intros Hst Hcl. pose proof Hst as []. split; [split; [|done]|].
  - intros a m Ha. destruct (program_tables_lookup _ _ _ _ _ _ _ _ Hst Ha) as (x & Hx & Hm). by apply (sd_means x).
  - intros a b t u Hab [m Ha] [n Hb] Ht Hu. destruct (program_tables_lookup _ _ _ _ _ _ _ _ Hst Ha) as (x & Hx & _),
      (program_tables_lookup _ _ _ _ _ _ _ _ Hst Hb) as (y & Hy & _).
    apply (sd_apart x y a b); try done. intros ->. congruence.
Qed.

(** ** A sample world *)

(** The tables of the program below: two tables and the global object, whose
    metatable is the second table. *)
Definition sample_tables : list Z := [-4294967328; -4294967360; -4294967392; -4294969432].
Definition sample_table_at (n : nat) : Z := nth n sample_tables 0.
Definition sample_function : Z := sample_key 70.
Definition sample_name (kind : LuaMetamethodKind) : Z := sample_key (20 + LuaMetamethodKind.ordinal kind).

Definition sample_lua_env : Env :=
  mkEnv (fun p => if bool_decide (p ∈ sample_tables) then Table else if p =? sample_function then Function_ else String)
    (m_hashLow sample_env) (XXH3_64bits_int32 sample_env) (XXH3_64bits_int64 sample_env) (sample_key 1)
    (fun k => if (sample_key 20 <=? k) && (k <=? sample_key 35) then (k - sample_key 20) / 8 else -1).

(** Booleans have a metatable. *)
Definition sample_vm : VM := mkVM sample_name (fun b => sample_key (if b then 61 else 60)) 0 (sample_table_at 1) 0 0 0 0.

Definition sample_number (n : Z) : Z := CreateDouble (double_of_int n).

(** [setmetatable(t, mt)], [setmetatable(_G, mt)], [mt.__index = fields],
    [mt.__newindex = fields], [mt.__call = f], [mt.__lt = f], [fields.x = 7], [fields[1] = 8]. *)
Definition sample_lua_program : list WorldOp :=
  [NewTable sample_root 0; NewTable sample_root 0; NewTable sample_root 0; NewGlobal;
   OnTable 1 (PutNamed true (sample_name LuaMetamethodKind.Index) (CreatePointer (sample_table_at 2)));
   OnTable 1 (PutNamed true (sample_name LuaMetamethodKind.NewIndex) (CreatePointer (sample_table_at 2)));
   OnTable 1 (PutNamed true (sample_name LuaMetamethodKind.Call) (CreatePointer sample_function));
   OnTable 1 (PutNamed true (sample_name LuaMetamethodKind.Lt) (CreatePointer sample_function));
   OnTable 2 (PutNamed true (sample_key 3) (sample_number 7)); OnTable 2 (PutInteger 1 (sample_number 8));
   OnTable 0 (SetMeta (sample_table_at 1)); OnTable 3 (SetMeta (sample_table_at 1))].

Definition sample_meta : Meaning :=
  meaning_of empty_meaning [PutNamed true (sample_name LuaMetamethodKind.Index) (CreatePointer (sample_table_at 2));
    PutNamed true (sample_name LuaMetamethodKind.NewIndex) (CreatePointer (sample_table_at 2));
    PutNamed true (sample_name LuaMetamethodKind.Call) (CreatePointer sample_function);
    PutNamed true (sample_name LuaMetamethodKind.Lt) (CreatePointer sample_function)].
Definition sample_fields : Meaning := meaning_of empty_meaning [PutNamed true (sample_key 3) (sample_number 7); PutInteger 1 (sample_number 8)].
Definition sample_user : Meaning := meaning_of empty_meaning [SetMeta (sample_table_at 1)].

(** What the tables are at the end. *)
Definition sample_lua_meanings : list Meaning := [sample_user; sample_meta; sample_fields; sample_user].
Definition sample_lua_tables : gmap Z Meaning := program_tables sample_tables sample_lua_meanings.

Lemma sample_lua_meaning : foldl world_after [] sample_lua_program = sample_lua_meanings.
Proof. reflexivity. Qed.

Lemma sample_lua_special : user_key (GetSpecialKeyForMetadataSlot sample_lua_env).
Proof. exact sample_special. Qed.

Lemma sample_lua_reachable : reachable sample_lua_env sample_base.
Proof. apply (history_reachable sample_lua_env [OpCreateInitial 2]). by vm_compute. Qed.

Lemma sample_lua_program_ok : program_ok sample_lua_env sample_base 0 sample_lua_program.
Proof.
  destruct sample_view_ok as (Hd & He & _). unfold sample_lua_program, program_ok, world_op_ok, variables_after.
  split_and!; try done; try lia; try (by apply (bool_decide_unpack _); vm_compute); by exists sample_view.
Qed.

Lemma sample_lua_keys kind : property_key sample_lua_env true (sample_name kind) /\
  GetMetamethodOrdinalFromStringName sample_lua_env (sample_name kind) = LuaMetamethodKind.ordinal kind.
Proof. destruct kind; (split; [apply (bool_decide_unpack _)|]); by vm_compute. Qed.

(** A put keeps the values of a table values. *)
Lemma values_after env m op : (forall key, lua_value env (named_value m key)) /\ (forall k, lua_value env (element m k)) ->
  match op with PutNamed _ _ x | PutDouble _ x | PutInteger _ x => lua_value env x | _ => True end ->
  (forall key, lua_value env (named_value (meaning_after m op) key)) /\ (forall k, lua_value env (element (meaning_after m op) k)).
Proof.
  intros [Hn He] Hop. destruct op; simpl; split; intros k; try done.
  - by apply write_value.
  - unfold put_element. by destruct (UnsafeFloatEqual _ _).
  - unfold put_element. by destruct (UnsafeFloatEqual _ _).
Qed.

Lemma int32_free_after m op : (forall key, not_int32 (named_value m key)) /\ (forall k, not_int32 (element m k)) ->
  match op with PutNamed _ _ x | PutDouble _ x | PutInteger _ x => not_int32 x | _ => True end ->
  (forall key, not_int32 (named_value (meaning_after m op) key)) /\ (forall k, not_int32 (element (meaning_after m op) k)).
Proof.
  intros [Hn He] Hop. destruct op; simpl; split; intros k; try done.
  - unfold write. by destruct (_ =? _).
  - unfold put_element. by destruct (UnsafeFloatEqual _ _).
  - unfold put_element. by destruct (UnsafeFloatEqual _ _).
Qed.

Lemma values_empty env : (forall key, lua_value env (named_value empty_meaning key)) /\ (forall k, lua_value env (element empty_meaning k)).
Proof. split; intros ?; by exists (LMIV MIV.x_nil). Qed.

(** The values of a table that is built by puts of values. *)
Lemma values_of env ops : Forall (fun op => match op with PutNamed _ _ x | PutDouble _ x | PutInteger _ x => lua_value env x | _ => True end) ops ->
  (forall key, lua_value env (named_value (meaning_of empty_meaning ops) key)) /\
  (forall k, lua_value env (element (meaning_of empty_meaning ops) k)).
Proof.
  unfold meaning_of. generalize (values_empty env). generalize empty_meaning. intros m Hm Hops. revert m Hm.
  induction Hops as [|op ops Hop _ IH]; intros m Hm; [done|]. simpl. apply IH. by apply values_after.
Qed.

Lemma sample_lua_values : Forall (fun m => table_or_null sample_lua_tables (metatable m) /\
  (forall key, lua_value sample_lua_env (named_value m key)) /\ (forall k, lua_value sample_lua_env (element m k))) sample_lua_meanings.
Proof.
  repeat apply List.Forall_cons; try apply List.Forall_nil; (split;
    [first [by left|right; by eexists]|apply values_of; repeat constructor; by apply (bool_decide_unpack _); vm_compute]).
Qed.

Lemma sample_lua_closed : closed sample_lua_env sample_vm sample_lua_tables.
Proof.
  assert (forall p, is_Some (sample_lua_tables !! p) <-> p ∈ sample_tables) as Hdom.
  { intros p. unfold sample_lua_tables, program_tables. rewrite <- elem_of_dom, dom_list_to_map_L, elem_of_list_to_set. done. }
  assert (forall p m, sample_lua_tables !! p = Some m -> m ∈ sample_lua_meanings) as Hin.
  { intros p m Hm%elem_of_list_to_map_2. by apply elem_of_zip_r in Hm. }
  pose proof sample_lua_values as Hvs. rewrite Forall_forall in Hvs. split.
  - intros p. rewrite Hdom. simpl. case_bool_decide; [done|]. by destruct (p =? _).
  - apply eq_None_not_Some. rewrite Hdom. apply (bool_decide_unpack _); by vm_compute.
  - intros p m Hm. by apply Hvs, (Hin p).
  - unfold vm_metatables. repeat apply List.Forall_cons; try apply List.Forall_nil; first [by left|right; by eexists].
  - intros p m Hm. by apply Hvs, (Hin p).
  - apply sample_lua_keys.
Qed.

(** The values of a table that is built by puts of values that are no int32. *)
Lemma int32_free_of ops : Forall (fun op => match op with PutNamed _ _ x | PutDouble _ x | PutInteger _ x => not_int32 x | _ => True end) ops ->
  (forall key, not_int32 (named_value (meaning_of empty_meaning ops) key)) /\
  (forall k, not_int32 (element (meaning_of empty_meaning ops) k)).
Proof.
  unfold meaning_of. assert ((forall key, not_int32 (named_value empty_meaning key)) /\ (forall k, not_int32 (element empty_meaning k))) as H by done.
  revert H. generalize empty_meaning. intros m Hm Hops. revert m Hm.
  induction Hops as [|op ops Hop _ IH]; intros m Hm; [done|]. simpl. apply IH. by apply int32_free_after.
Qed.

Lemma sample_int32_free : int32_free sample_lua_tables.
Proof.
  intros p m Hm%elem_of_list_to_map_2%elem_of_zip_r. revert m Hm. apply Forall_forall.
  repeat apply List.Forall_cons; try apply List.Forall_nil; apply int32_free_of; repeat constructor; by apply (bool_decide_unpack _); vm_compute.
Qed.

(** The program runs, and its tables are these. *)
Lemma sample_lua_world : exists w,
  run_program sample_lua_env sample_hash 0 sample_lua_program ([], mkWorld sample_base initUserHeap ∅ ∅) = Ok (tt, (sample_tables, w)) /\
  world_stands sample_lua_env sample_hash sample_vm w sample_lua_tables /\ dictionary_table w (sample_table_at 3).
Proof.
  destruct (run_program_spec sample_lua_env sample_hash 0 sample_lua_special sample_base sample_lua_program []
    (mkWorld sample_base initUserHeap ∅ ∅) []) as [(vars & w & E & Hst)|[E _]].
  - by apply (stands_nothing sample_lua_env sample_hash sample_base initUserHeap ∅ ∅ sample_lua_special sample_lua_reachable sample_world).
  - apply sample_lua_program_ok.
  - assert (vars = sample_tables) as ->.
    { assert (match run_program sample_lua_env sample_hash 0 sample_lua_program ([], mkWorld sample_base initUserHeap ∅ ∅) with
        Ok (_, (v, _)) => v | _ => [] end = sample_tables) as Ev by (by vm_compute). by rewrite E in Ev. }
    exists w. split_and!; [done| |].
    + rewrite sample_lua_meaning in Hst. eapply program_stands; [exact Hst|]. apply sample_lua_closed.
    + assert (match run_program sample_lua_env sample_hash 0 sample_lua_program ([], mkWorld sample_base initUserHeap ∅ ∅) with
        Ok (_, (_, w)) => match w_tables w !! sample_table_at 3 with
                          | Some t => bool_decide (is_Some (dictionaries (w_hc w) !! m_hiddenClass t)) | None => false end
        | _ => false end = true) as Ed by (by vm_compute).
      rewrite E in Ed. unfold dictionary_table. destruct (w_tables w !! sample_table_at 3) as [t|]; [|done].
      exists t. split; [done|]. by apply bool_decide_eq_true in Ed.
  - exfalso. by vm_compute in E.
Qed.

Lemma sample_no_int32 vars w :
  run_program sample_lua_env sample_hash 0 sample_lua_program ([], mkWorld sample_base initUserHeap ∅ ∅) = Ok (tt, (vars, w)) -> no_int32_arrays w.
Proof.
  intros E. assert (match run_program sample_lua_env sample_hash 0 sample_lua_program ([], mkWorld sample_base initUserHeap ∅ ∅) with
    Ok (_, (_, w)) => bool_decide (map_Forall (fun _ t => ArrayKind (m_arrayType t) <> Int32) (w_tables w)) | _ => false end = true) as Hk
    by (by vm_compute).
  rewrite E in Hk. by apply bool_decide_eq_true in Hk.
Qed.

(** ** Reads *)

(** C3: [TableGetById] implements the index event.  With a string key and any base
    it never has undefined behaviour, it changes nothing, and what it ends with is
    an outcome of [base.key] as the manual defines it: the field, nil, an error, or
    the call of a metamethod.  Every outcome is found within as many rounds as there
    are tables; the bytecode loops only when the event has no outcome. *)
Theorem get_by_name env hash vm tables w tvIndex base : user_key (GetSpecialKeyForMetadataSlot env) ->
  world_means env hash vm w tables -> property_key env true (AsPointer tvIndex) -> lua_value env base ->
  reads_as (index_event env vm tables (fun m => named_value m (AsPointer tvIndex)) tvIndex "bad type for TableGetById" base)
    (size tables) (fun fuel => TableGetByIdImpl env vm tvIndex fuel base) w.
Proof. intros. apply chain_reads. intros fuel. by apply (TableGetById_chain env hash). Qed.

Definition sample_field : Z := CreatePointer (sample_key 3).
Definition sample_base_value : Z := CreatePointer (sample_table_at 0).
Definition sample_global_value : Z := CreatePointer (sample_table_at 3).

(** A read of a sample event. *)
Lemma sample_reads event run w o : reads_as event (size sample_lua_tables) run w -> event o -> run 4%nat w = Ok (Some o, w).
Proof.
  intros Hr He. destruct (Hr 4%nat) as (r & -> & _ & Hall). rewrite (Hall ltac:(apply Nat.leb_le; by vm_compute) o He). done.
Qed.

(** A field that is not in the table is found in the one that [__index] names. *)
Lemma sample_index_event raw idx message base : from_option raw Nil (table_of sample_lua_tables base) = Nil ->
  metamethod sample_lua_env sample_vm sample_lua_tables base LuaMetamethodKind.Index = CreatePointer (sample_table_at 2) ->
  raw sample_fields <> Nil ->
  index_event sample_lua_env sample_vm sample_lua_tables raw idx message base (Returns (raw sample_fields)).
Proof.
  intros Hr Hh Hf. apply index_again; rewrite ?Hh; [done|by vm_compute|by apply (bool_decide_unpack _); vm_compute|].
  by apply index_raw.
Qed.

Lemma get_by_name_witness : exists w, world_means sample_lua_env sample_hash sample_vm w sample_lua_tables /\
  TableGetByIdImpl sample_lua_env sample_vm sample_field 4 sample_base_value w = Ok (Some (Returns (sample_number 7)), w).
Proof.
  destruct sample_lua_world as (w & _ & [Hw _] & _). exists w. split; [exact Hw|].
  apply (sample_reads _ (fun fuel => TableGetByIdImpl sample_lua_env sample_vm sample_field fuel sample_base_value) w _
    (get_by_name sample_lua_env sample_hash sample_vm sample_lua_tables w sample_field sample_base_value sample_lua_special Hw
       ltac:(apply (bool_decide_unpack _); by vm_compute) ltac:(apply (bool_decide_unpack _); by vm_compute))).
  change (sample_number 7) with (named_value sample_fields (AsPointer sample_field)).
  apply (sample_index_event (fun m => named_value m (AsPointer sample_field))); by vm_compute.
Defined.

(** C12: [GlobalGet] implements the index event on the global object, whose hidden
    class is a dictionary. *)
Theorem global_get env hash vm tables w tvIndex base : user_key (GetSpecialKeyForMetadataSlot env) ->
  world_means env hash vm w tables -> property_key env true (AsPointer tvIndex) -> lua_value env base ->
  is_Some (table_of tables base) -> dictionary_table w (AsPointer base) ->
  reads_as (index_event env vm tables (fun m => named_value m (AsPointer tvIndex)) tvIndex "bad type for GlobalGet" base)
    (size tables) (fun fuel => GlobalGetImpl env vm tvIndex fuel (AsPointer base)) w.
Proof. intros ? ? ? ? [m Hm] ?. apply chain_reads. intros fuel. by apply (GlobalGet_chain env hash) with m. Qed.

Lemma global_get_witness : exists w, world_means sample_lua_env sample_hash sample_vm w sample_lua_tables /\
  GlobalGetImpl sample_lua_env sample_vm sample_field 4 (AsPointer sample_global_value) w = Ok (Some (Returns (sample_number 7)), w).
Proof.
  destruct sample_lua_world as (w & _ & [Hw _] & Hd). exists w. split; [exact Hw|].
  apply (sample_reads _ (fun fuel => GlobalGetImpl sample_lua_env sample_vm sample_field fuel (AsPointer sample_global_value)) w _
    (global_get sample_lua_env sample_hash sample_vm sample_lua_tables w sample_field sample_global_value sample_lua_special Hw
       ltac:(apply (bool_decide_unpack _); by vm_compute) ltac:(apply (bool_decide_unpack _); by vm_compute) ltac:(by eexists) Hd)).
  change (sample_number 7) with (named_value sample_fields (AsPointer sample_field)).
  apply (sample_index_event (fun m => named_value m (AsPointer sample_field))); by vm_compute.
Defined.

(** C5: [TableGetByVal] implements the index event for every key: strings and other
    objects, integers inside and outside of the array part, other doubles, NaN, nil
    and the two Booleans. *)
Theorem get_by_value env hash vm tables w tvIndex base : user_key (GetSpecialKeyForMetadataSlot env) ->
  world_means env hash vm w tables -> index_key env vm tvIndex -> lua_value env base ->
  reads_as (index_event env vm tables (index_value vm tvIndex) tvIndex "bad type for TableGetByVal" base)
    (size tables) (fun fuel => TableGetByValImpl env hash vm tvIndex fuel base) w.
Proof. intros. apply chain_reads. intros fuel. by apply TableGetByVal_chain. Qed.

Lemma get_by_value_witness : exists w, world_means sample_lua_env sample_hash sample_vm w sample_lua_tables /\
  TableGetByValImpl sample_lua_env sample_hash sample_vm (sample_number 1) 4 sample_base_value w = Ok (Some (Returns (sample_number 8)), w).
Proof.
  destruct sample_lua_world as (w & _ & [Hw _] & _). exists w. split; [exact Hw|].
  apply (sample_reads _ (fun fuel => TableGetByValImpl sample_lua_env sample_hash sample_vm (sample_number 1) fuel sample_base_value) w _
    (get_by_value sample_lua_env sample_hash sample_vm sample_lua_tables w (sample_number 1) sample_base_value sample_lua_special Hw
       ltac:(split; [apply (bool_decide_unpack _); by vm_compute|done]) ltac:(apply (bool_decide_unpack _); by vm_compute))).
  change (sample_number 8) with (index_value sample_vm (sample_number 1) sample_fields).
  apply (sample_index_event (index_value sample_vm (sample_number 1))); by vm_compute.
Defined.

(** C8: [TableGetByImm], with its 16-bit index, implements the index event of the
    number. *)
Theorem get_by_immediate env hash vm tables w index base : user_key (GetSpecialKeyForMetadataSlot env) ->
  world_means env hash vm w tables -> in_i 16 index -> lua_value env base ->
  reads_as (index_event env vm tables (fun m => element m (double_of_int index)) (CreateDouble (double_of_int index))
    "bad type for TableGetByImm" base) (size tables) (fun fuel => TableGetByImmImpl env hash vm index fuel base) w.
Proof. intros. apply chain_reads. intros fuel. by apply TableGetByImm_chain. Qed.

Lemma get_by_immediate_witness : exists w, world_means sample_lua_env sample_hash sample_vm w sample_lua_tables /\
  TableGetByImmImpl sample_lua_env sample_hash sample_vm 1 4 sample_base_value w = Ok (Some (Returns (sample_number 8)), w).
Proof.
  destruct sample_lua_world as (w & _ & [Hw _] & _). exists w. split; [exact Hw|].
  apply (sample_reads _ (fun fuel => TableGetByImmImpl sample_lua_env sample_hash sample_vm 1 fuel sample_base_value) w _
    (get_by_immediate sample_lua_env sample_hash sample_vm sample_lua_tables w 1 sample_base_value sample_lua_special Hw
       ltac:(by vm_compute) ltac:(apply (bool_decide_unpack _); by vm_compute))).
  change (sample_number 8) with ((fun m => element m (double_of_int 1)) sample_fields).
  apply (sample_index_event (fun m => element m (double_of_int 1))); by vm_compute.
Defined.

(** ** Writes *)

(** A write of the sample program that does not stop the process. *)
Lemma sample_writes event put stops run w o w' : writes_as sample_lua_env sample_hash sample_vm event put sample_lua_tables stops run w ->
  run 4%nat w = Ok (Some o, w') ->
  exists e, event e /\ o = end_outcome e /\ world_stands sample_lua_env sample_hash sample_vm w' (end_tables put e sample_lua_tables).
Proof. intros Hr E. specialize (Hr 4%nat). by rewrite E in Hr. Qed.

(** The bytecodes of writes run after the sample program. *)
Definition sample_run (run : World -> Res (option Outcome * World)) : option Outcome :=
  match run_program sample_lua_env sample_hash 0 sample_lua_program ([], mkWorld sample_base initUserHeap ∅ ∅) with
  | Ok (_, (_, w)) => match run w with Ok (o, _) => o | _ => None end
  | _ => None
  end.

Lemma sample_run_world run o w vars : sample_run run = Some o ->
  run_program sample_lua_env sample_hash 0 sample_lua_program ([], mkWorld sample_base initUserHeap ∅ ∅) = Ok (tt, (vars, w)) ->
  exists w', run w = Ok (Some o, w').
Proof. unfold sample_run. intros Hr E. rewrite E in Hr. clear E. destruct (run w) as [[r w']| |]; [|done..]. subst r. by exists w'. Qed.

(** C4: [TablePutById] implements the newindex event.  With a string key, any base
    and any value it never has undefined behaviour.  What it ends with is an end of
    [base.key = value] as the manual defines it: the value is stored in the table
    the event names, and in no other, or nothing is stored and there is an error or
    the call of a metamethod.  It loops only when the event has no end, and the
    process stops only at a put that finds the resources of its table exhausted. *)
Theorem put_by_name env hash vm tables w tvIndex value base : user_key (GetSpecialKeyForMetadataSlot env) ->
  world_stands env hash vm w tables -> property_key env true (AsPointer tvIndex) -> lua_value env value -> lua_value env base ->
  writes_as env hash vm
    (newindex_event env vm tables (fun m => named_value m (AsPointer tvIndex)) tvIndex value "bad type for TablePutById" base)
    (fun m => meaning_after m (PutNamed true (AsPointer tvIndex) value)) tables
    (put_fails env hash vm tables (prepares_by_id env true (AsPointer tvIndex)) put_exhausted w) (fun fuel => TablePutByIdImpl env vm tvIndex value fuel base) w.
Proof. intros. apply chain_writes. intros fuel. by apply TablePutById_chain. Qed.

Lemma put_by_name_witness : exists w w' e, TablePutByIdImpl sample_lua_env sample_vm sample_field (sample_number 9) 4 sample_base_value w =
    Ok (Some ReturnsNothing, w') /\ ReturnsNothing = end_outcome e /\
  world_stands sample_lua_env sample_hash sample_vm w'
    (end_tables (fun m => meaning_after m (PutNamed true (AsPointer sample_field) (sample_number 9))) e sample_lua_tables).
Proof.
  destruct sample_lua_world as (w & E & Hw & _).
  destruct (sample_run_world (fun w => TablePutByIdImpl sample_lua_env sample_vm sample_field (sample_number 9) 4 sample_base_value w)
    ReturnsNothing w _ ltac:(by vm_compute) E) as [w' E'].
  destruct (sample_writes _ _ _ _ w _ w' (put_by_name sample_lua_env sample_hash sample_vm sample_lua_tables w sample_field (sample_number 9)
    sample_base_value sample_lua_special Hw ltac:(apply (bool_decide_unpack _); by vm_compute)
    ltac:(apply (bool_decide_unpack _); by vm_compute) ltac:(apply (bool_decide_unpack _); by vm_compute)) E') as (e & _ & He & Hs).
  exists w, w', e. split; [exact E'|split; [exact He|exact Hs]].
Defined.

(** C13: [GlobalPut] implements the newindex event on the global object. *)
Theorem global_put env hash vm tables w tvIndex value base : user_key (GetSpecialKeyForMetadataSlot env) ->
  world_stands env hash vm w tables -> property_key env true (AsPointer tvIndex) -> lua_value env value -> lua_value env base ->
  is_Some (table_of tables base) -> dictionary_table w (AsPointer base) ->
  writes_as env hash vm
    (newindex_event env vm tables (fun m => named_value m (AsPointer tvIndex)) tvIndex value "bad type for GlobalPut" base)
    (fun m => meaning_after m (PutNamed true (AsPointer tvIndex) value)) tables
    (put_fails env hash vm tables (prepares_by_id env true (AsPointer tvIndex)) put_exhausted w) (fun fuel => GlobalPutImpl env vm tvIndex value fuel (AsPointer base)) w.
Proof. intros ? ? ? ? ? [m Hm] ?. apply chain_writes. intros fuel. by apply GlobalPut_chain with m. Qed.


Lemma global_put_witness : exists w w' e, GlobalPutImpl sample_lua_env sample_vm sample_field (sample_number 9) 4 (AsPointer sample_global_value) w =
    Ok (Some ReturnsNothing, w') /\ ReturnsNothing = end_outcome e /\
  world_stands sample_lua_env sample_hash sample_vm w'
    (end_tables (fun m => meaning_after m (PutNamed true (AsPointer sample_field) (sample_number 9))) e sample_lua_tables).
Proof.
  destruct sample_lua_world as (w & E & Hw & Hd).
  destruct (sample_run_world (fun w => GlobalPutImpl sample_lua_env sample_vm sample_field (sample_number 9) 4 (AsPointer sample_global_value) w)
    ReturnsNothing w _ ltac:(by vm_compute) E) as [w' E'].
  destruct (sample_writes _ _ _ _ w _ w' (global_put sample_lua_env sample_hash sample_vm sample_lua_tables w sample_field (sample_number 9)
    sample_global_value sample_lua_special Hw ltac:(apply (bool_decide_unpack _); by vm_compute)
    ltac:(apply (bool_decide_unpack _); by vm_compute) ltac:(apply (bool_decide_unpack _); by vm_compute) ltac:(by eexists) Hd) E') as (e & _ & He & Hs).
  exists w, w', e. split; [exact E'|split; [exact He|exact Hs]].
Defined.
