(* ===== verification/PutProperties.v ===== *)
(** * Properties of the bytecodes that write an element

    On the sample world of [BytecodeProperties]. *)

From Stdlib Require Import String.
From S2P Require Import Prelude Double TValue MiscMath Machine TypeMask ArrayType Butterfly SparseMap HiddenClass TableObject TableArray TableTheorems Probing CheckedTable ClassHeap Structure Transition ClassInv ClassLookup ClassFrame ClassCreate ClassTransition ClassQuery ClassOps ClassView ClassTheorems Dictionary TableClasses NamedProps NamedInv NamedPut NamedTransition NamedMeta TableWhole TableHistory TableProperties TableCreate TableClone TableWorld WorldProperties Metatables Metamethods MetamethodChain IndexEvent GetBytecodes IndexProofs TablePut PutBytecodes PutIndexBytecodes NewIndexEvent NewIndexProofs ArrayPut PutIndexProofs PutValueProofs BytecodeProperties.

(** C6: [TablePutByVal] implements the newindex event for every key a table can have:
    strings and other objects, the two Booleans, integers inside and outside of the
    array part, and other doubles.  The value is any but an int32, and no table has
    an array part for int32 values, which the VM does not make yet and the inline
    caches have no code for.  The bytecode is never undefined, and what it ends with is
    an end of [base[index] = value] as the manual defines it: the value is stored in
    the table the event names, and in no other, or nothing is stored and there is an
    error or the call of a metamethod.  It loops only when the event has no end, and
    the process stops only at a put that finds the resources of its table
    exhausted. *)
Theorem put_by_value env hash vm tables w tvIndex value base : user_key (GetSpecialKeyForMetadataSlot env) ->
  world_stands env hash vm w tables -> no_int32_arrays w -> index_key env vm tvIndex -> storable tvIndex ->
  lua_value env value -> not_int32 value -> lua_value env base ->
  writes_as env hash vm
    (newindex_event env vm tables (index_value vm tvIndex) tvIndex value "bad type for TablePutByVal" base)
    (assign_value vm tvIndex value) tables
    (put_fails env hash vm tables (value_prepares env vm tvIndex value) (value_exhausts env tvIndex) w)
    (fun fuel => TablePutByValImpl env hash vm tvIndex value fuel base) w.
Proof. intros. apply chain_writes. intros fuel. apply TablePutByVal_chain; try done. by eapply no_int32_value. Qed.

(** The world after a write of the sample program. *)
Lemma sample_write event put stops run o : (forall w, world_stands sample_lua_env sample_hash sample_vm w sample_lua_tables -> no_int32_arrays w ->
    writes_as sample_lua_env sample_hash sample_vm event put sample_lua_tables (stops w) run w) ->
  sample_run (run 4%nat) = Some o ->
  exists w w' e, run 4%nat w = Ok (Some o, w') /\ o = end_outcome e /\
    world_stands sample_lua_env sample_hash sample_vm w' (end_tables put e sample_lua_tables).
Proof.
  intros Hr Ho. destruct sample_lua_world as (w & E & Hw & _). destruct (sample_run_world (run 4%nat) o w _ Ho E) as [w' E'].
  destruct (sample_writes _ _ _ _ w _ w' (Hr w Hw (sample_no_int32 _ _ E)) E') as (e & _ & He & Hs).
  clear E. exists w, w', e. split; [exact E'|split; [exact He|exact Hs]].
Qed.

Lemma put_by_value_witness : exists w w' e,
  TablePutByValImpl sample_lua_env sample_hash sample_vm (sample_number 1) (sample_number 9) 4 sample_base_value w = Ok (Some ReturnsNothing, w') /\
  ReturnsNothing = end_outcome e /\
  world_stands sample_lua_env sample_hash sample_vm w' (end_tables (assign_value sample_vm (sample_number 1) (sample_number 9)) e sample_lua_tables).
Proof.
  refine (sample_write _ _ _ (fun fuel => TablePutByValImpl sample_lua_env sample_hash sample_vm (sample_number 1) (sample_number 9) fuel sample_base_value) _
    (fun w Hw Hn => put_by_value sample_lua_env sample_hash sample_vm sample_lua_tables w (sample_number 1) (sample_number 9) sample_base_value
       sample_lua_special Hw Hn _ _ _ _ _) _);
    [split; [|done]|..]; first [apply (bool_decide_unpack _); by vm_compute|by vm_compute].
Defined.

(** C9: [TablePutByImm], with its 16-bit index, implements the newindex event of the
    number.  As above, the value is any but an int32, and no table has an array part
    for int32 values. *)
Theorem put_by_immediate env hash vm tables w index value base : user_key (GetSpecialKeyForMetadataSlot env) ->
  world_stands env hash vm w tables -> no_int32_arrays w -> in_i 16 index -> lua_value env value -> not_int32 value -> lua_value env base ->
  writes_as env hash vm
    (newindex_event env vm tables (fun m => element m (double_of_int index)) (CreateDouble (double_of_int index)) value
       "bad type for TablePutByImm" base)
    (fun m => meaning_after m (PutInteger index value)) tables
    (put_fails env hash vm tables (prepares_array env index value) (@exhausted _ (sys_ops env)) w)
    (fun fuel => TablePutByImmImpl env hash vm index value fuel base) w.
Proof. intros. apply chain_writes. intros fuel. apply TablePutByImm_chain; try done. by eapply no_int32_value. Qed.

Lemma put_by_immediate_witness : exists w w' e,
  TablePutByImmImpl sample_lua_env sample_hash sample_vm 1 (sample_number 9) 4 sample_base_value w = Ok (Some ReturnsNothing, w') /\
  ReturnsNothing = end_outcome e /\
  world_stands sample_lua_env sample_hash sample_vm w' (end_tables (fun m => meaning_after m (PutInteger 1 (sample_number 9))) e sample_lua_tables).
Proof.
  refine (sample_write _ _ _ (fun fuel => TablePutByImmImpl sample_lua_env sample_hash sample_vm 1 (sample_number 9) fuel sample_base_value) _
    (fun w Hw Hn => put_by_immediate sample_lua_env sample_hash sample_vm sample_lua_tables w 1 (sample_number 9) sample_base_value
       sample_lua_special Hw Hn _ _ _ _) _); first [apply (bool_decide_unpack _); by vm_compute|by vm_compute].
Defined.

(** C11: NaN and nil are no keys.  [TablePutByVal] into a table throws at once, with
    the error of the key, and changes nothing, whether or not the table has a
    [__newindex] metamethod. *)
Theorem put_by_bad_key env hash vm tables w tvIndex value fuel base : world_stands env hash vm w tables -> lua_value env tvIndex ->
  ~ storable tvIndex -> lua_value env base -> is_Some (table_of tables base) ->
  TablePutByValImpl env hash vm tvIndex value fuel base w =
    Ok (Some (Throws (if IsDouble tvIndex then "table index is NaN" else "table index is nil")), w).
Proof. apply TablePutByVal_not_storable. Qed.

Lemma put_by_bad_key_witness : exists w, world_stands sample_lua_env sample_hash sample_vm w sample_lua_tables /\
  TablePutByValImpl sample_lua_env sample_hash sample_vm (CreateDouble quiet_NaN) (sample_number 9) 0 sample_base_value w =
    Ok (Some (Throws "table index is NaN"), w).
Proof.
  destruct sample_lua_world as (w & _ & Hw & _). exists w. split; [exact Hw|].
  refine (put_by_bad_key sample_lua_env sample_hash sample_vm sample_lua_tables w (CreateDouble quiet_NaN) (sample_number 9) 0 sample_base_value
    Hw _ _ _ _); apply (bool_decide_unpack _); by vm_compute.
Defined.

(** ** A put, then a get *)

Lemma assigned_value env vm idx value m : index_key env vm idx -> storable idx -> index_value vm idx (assign_value vm idx value m) = value.
Proof.
  intros [_ Hk] Hs. unfold index_value, assign_value, storable in *. destruct (unbox idx) as [d| |k|p]; simpl.
  - rewrite Hs. unfold put_element. by rewrite feq_refl.
  - done.
  - rewrite (proj2 (Z.eqb_neq _ _) Hs). unfold write. by rewrite Z.eqb_refl.
  - unfold write. by rewrite Z.eqb_refl.
Qed.

(** C10: what a put stores in a table, a get finds there: after a [TablePutByVal],
    of any value but nil and an int32, in a world without array parts for int32,
    into a table that has a value under the key, or has no [__newindex] metamethod,
    [TableGetByVal] of the same key returns the value that was put. *)
Theorem put_then_get env hash vm tables w tvIndex value base m fuel fuel' o w' : user_key (GetSpecialKeyForMetadataSlot env) ->
  world_stands env hash vm w tables -> no_int32_arrays w -> index_key env vm tvIndex -> storable tvIndex ->
  lua_value env value -> not_int32 value -> value <> Nil ->
  lua_value env base -> table_of tables base = Some m ->
  index_value vm tvIndex m <> Nil \/ metamethod env vm tables base LuaMetamethodKind.NewIndex = Nil ->
  TablePutByValImpl env hash vm tvIndex value fuel base w = Ok (o, w') ->
  o = Some ReturnsNothing /\ TableGetByValImpl env hash vm tvIndex fuel' base w' = Ok (Some (Returns value), w').
Proof.
  intros Hu Hw Hint Hk Hs Hv Hi Hn Hb Hm Hc E.
  pose proof (TablePutByVal_chain env hash vm Hu tables w tvIndex value Hk Hv (no_int32_value _ _ Hv Hi) Hs w fuel base
    (conj Hw (rtc_refl _ _)) Hint Hb) as Hp.
  unfold wp in Hp. rewrite E, (chain_store _ _ _ _ _ _ _ _ _ m Hm Hc) in Hp. destruct Hp as [-> Hw']. split; [done|].
  rewrite (TableGetByVal_chain env hash vm Hu _ w' (ws_means _ _ _ _ _ Hw') tvIndex Hk fuel' base Hb).
  rewrite (chain_raw env vm _ _ _ _ fuel' base (assign_value vm tvIndex value m)); rewrite ?(assigned_value env vm tvIndex value m Hk Hs); try done.
  pose proof (table_pointer tables base m Hm) as Ha. unfold table_of in *. destruct (unbox base) as [| | |p] eqn:Eb; try done.
  simpl. by rewrite (value_pointer _ _ Eb), lookup_alter_eq, Hm.
Qed.

Definition sample_fields_value : Z := CreatePointer (sample_table_at 2).

Lemma put_then_get_witness : exists w w', TablePutByValImpl sample_lua_env sample_hash sample_vm (sample_number 2) (sample_number 9) 0 sample_fields_value w
    = Ok (Some ReturnsNothing, w') /\
  TableGetByValImpl sample_lua_env sample_hash sample_vm (sample_number 2) 0 sample_fields_value w' = Ok (Some (Returns (sample_number 9)), w').
Proof.
  destruct sample_lua_world as (w & E & Hw & _).
  destruct (sample_run_world (TablePutByValImpl sample_lua_env sample_hash sample_vm (sample_number 2) (sample_number 9) 0 sample_fields_value)
    ReturnsNothing w _ ltac:(by vm_compute) E) as [w' E'].
  exists w, w'. split; [exact E'|].
  refine (proj2 (put_then_get sample_lua_env sample_hash sample_vm sample_lua_tables w (sample_number 2) (sample_number 9) sample_fields_value
    sample_fields 0 0 _ w' sample_lua_special Hw (sample_no_int32 _ _ E) _ _ _ _ _ _ _ _ E')); clear E E' Hw.
  - split; [apply (bool_decide_unpack _); by vm_compute|done].
  - apply (bool_decide_unpack _); by vm_compute.
  - apply (bool_decide_unpack _); by vm_compute.
  - apply (bool_decide_unpack _); by vm_compute.
  - by vm_compute.
  - apply (bool_decide_unpack _); by vm_compute.
  - reflexivity.
  - right. by vm_compute.
Defined.
