(* ===== verification/OperatorBytecodes.v ===== *)
(** * The bytecodes of comparisons, of the length and of [not]
      ([annotated/bytecodes/equality_bytecodes.cpp, comparison_bytecodes.cpp,
      length_operator.cpp, logical_not.cpp, test_and_branch_bytecodes.cpp])

    A bytecode ends, or it calls a function and goes on with a continuation, which
    gets the first value that the function returns.  The template arguments of the
    bytecodes are arguments of the definitions. *)

From Stdlib Require Import String.
From stdpp Require Import pretty.
From S2P Require Import Prelude Double TValue MiscMath Machine TypeMask ArrayType Butterfly SparseMap HiddenClass TableObject TableLength ClassHeap Structure TableClasses NamedProps TableHistory TableWorld Metatables IndexEvent.

Inductive OpEnd :=
| Ends (o : Outcome)
| CallsThen (function : Z) (arguments : list Z) (continuation : Z -> Outcome).

Notation Op := (MW OpEnd).

(** ** [HeapString] ([runtime/vm.h]) *)

(** [memcmp] of the first [n] bytes; only its sign has a meaning. *)
Fixpoint memcmp (a b : list Z) (n : nat) : Z :=
  match n, a, b with
  | S n, x :: a, y :: b => if x =? y then memcmp a b n else if x <? y then -1 else 1
  | _, _, _ => 0
  end.

(** ** Order of doubles: [<] and [<=] of C++ *)

(** The order of the numbers is that of these integers, with one integer for the
    two zeros. *)
Definition dbl_order (b : Z) : Z := if dbl_sign b then - (b - 2 ^ 63) else b.
Definition UnsafeFloatLess (a b : Z) : bool := negb (nan_pattern a) && negb (nan_pattern b) && (dbl_order a <? dbl_order b).
Definition UnsafeFloatLessEqual (a b : Z) : bool := negb (nan_pattern a) && negb (nan_pattern b) && (dbl_order a <=? dbl_order b).

Inductive ComparatorKind := LessThan | NotLessThan | LessEqual | NotLessEqual.

Definition DoComparison_double (kind : ComparatorKind) (lhs rhs : Z) : bool :=
  match kind with
  | LessThan => UnsafeFloatLess lhs rhs
  | NotLessThan => negb (UnsafeFloatLess lhs rhs)
  | LessEqual => UnsafeFloatLessEqual lhs rhs
  | NotLessEqual => negb (UnsafeFloatLessEqual lhs rhs)
  end.

Definition GetMetamethodKind (kind : ComparatorKind) : LuaMetamethodKind :=
  match kind with LessThan | NotLessThan => LuaMetamethodKind.Lt | LessEqual | NotLessEqual => LuaMetamethodKind.Le end.

Definition ShouldInvertMetatableCallResult (kind : ComparatorKind) : bool :=
  match kind with NotLessThan | NotLessEqual => true | LessThan | LessEqual => false end.

(** The last step of a bytecode that computes a Boolean, and may branch on it. *)
Definition ReturnOrBranch (shouldBranch result : bool) : Outcome :=
  if shouldBranch then (if result then Branches else ReturnsNothing) else Returns (CreateBoolean result).

(** [EqualityOperationMetamethodCallContinuation], [ComparisonOperationMetamethodCallContinuation]. *)
Definition ComparisonMetamethodCallContinuation (shouldBranch shouldInvertResult : bool) (returned : Z) : Outcome :=
  ReturnOrBranch shouldBranch (xorb (IsTruthy returned) shouldInvertResult).

Section operators.
Variable env : Env.
Variable hash : Z -> Z.
Variable vm : VM.
(** The characters of the string objects. *)
Variable m_string : Z -> list Z.
#[local] Instance operator_ops : HiddenClassOps SysHeap := sys_ops env.
Notation IsHeapEntity := (Is env tHeapEntity).
Notation IsTable := (Is env (tHeap Table)).
Notation IsString := (Is env (tHeap TypeMask.String)).
Notation IsFunction := (Is env (tHeap Function_)).
Notation type_of v := (GetHeapEntityType (m_type env) v).

(** [m_length], a [uint32_t]. *)
Definition m_length (s : Z) : Z := u32 (Z.of_nat (length (m_string s))).

Definition HeapString_Compare (this other : Z) : Z :=
  if this =? other then 0
  else
    let minLen := Z.min (m_length this) (m_length other) in
    let cmpResult := memcmp (m_string this) (m_string other) (Z.to_nat minLen) in
    if negb (cmpResult =? 0) then cmpResult
    else if minLen <? m_length this then 1
    else if minLen <? m_length other then -1
    else 0.

Definition DoComparison_string (kind : ComparatorKind) (lhs rhs : Z) : bool :=
  let cmpRes := HeapString_Compare lhs rhs in
  match kind with
  | LessThan => cmpRes <? 0
  | NotLessThan => 0 <=? cmpRes
  | LessEqual => cmpRes <=? 0
  | NotLessEqual => 0 <? cmpRes
  end.

(** ** Calls of metamethods *)

(** [MakeErrorMessageForUnableToCall] ([runtime/runtime_utils.cpp]). *)
Definition MakeErrorMessageForUnableToCall (badValue : Z) : string :=
  let makeMsg ty := ("attempt to call a " +:+ ty +:+ " value")%string in
  if IsInt32 badValue then makeMsg "number"%string
  else if IsDouble badValue then makeMsg "number"%string
  else if IsMIV badValue then (if AsMIV badValue =? MIV.x_nil then makeMsg "nil"%string else makeMsg "boolean"%string)
  else
    match m_type env (AsPointer badValue) with
    | TypeMask.String => makeMsg "string"%string
    | Function_ => makeMsg "function"%string
    | Table => makeMsg "table"%string
    | Thread => makeMsg "thread"%string
    | ty => makeMsg ("(internal type " +:+ pretty (HeapEntityType_ord ty) +:+ ")")%string
    end.

(** The end of every bytecode that has found a metamethod. *)
Definition CallMetamethod (metamethod : Z) (args : list Z) (continuation : Z -> Outcome) : Op :=
  if IsFunction metamethod then mret (CallsThen (AsPointer metamethod) args continuation)
  else
    callTarget ← GetCallTargetViaMetatable env vm metamethod;
    match callTarget with
    | None => mret (Ends (Throws (MakeErrorMessageForUnableToCall metamethod)))
    | Some callTarget => mret (CallsThen callTarget (metamethod :: args) continuation)
    end.

(** ** Equality

    The assertions that an operand is no int32 ("unimplemented") are kept: behind
    them the bytecodes are undefined. *)

(** The metatables of two tables, if both have one. *)
Definition both_metatables (lhs rhs : Z) : MW (option (Z * Z)) :=
  gmr ← on_table (AsPointer lhs) GetMetatable;
  if gm_result gmr =? 0 then mret None
  else
    gmr' ← on_table (AsPointer rhs) GetMetatable;
    if gm_result gmr' =? 0 then mret None else mret (Some (gm_result gmr, gm_result gmr')).

Definition EqualityOperationImpl (compareForNotEqual shouldBranch : bool) (lhs rhs : Z) : Op :=
  let finish (b : bool) : Op := mret (Ends (ReturnOrBranch shouldBranch (xorb b compareForNotEqual))) in
  if Is env tDouble rhs then finish (UnsafeFloatEqual (ViewAsDouble lhs) (AsDouble rhs))
  else if lhs =? rhs then finish true
  else if Is env tInt32 lhs || Is env tInt32 rhs then ub
  else if IsTable lhs && IsTable rhs then
    metatables ← both_metatables lhs rhs;
    match metatables with
    | None => finish false
    | Some (lhsMetatable, rhsMetatable) =>
        metamethod ← GetMetamethodFromMetatableForComparisonOperation env vm true lhsMetatable rhsMetatable LuaMetamethodKind.Eq;
        if Is env tNil metamethod then finish false
        else CallMetamethod metamethod [lhs; rhs] (ComparisonMetamethodCallContinuation shouldBranch compareForNotEqual)
    end
  else finish false.

(** ** [<] and [<=] *)

Definition ComparisonOperationImpl (shouldBranch : bool) (opKind : ComparatorKind) (lhs rhs : Z) : Op :=
  let fail : Op := mret (Ends (Throws "Invalid types for comparison operator"%string)) in
  let do_metamethod_call metamethod :=
    CallMetamethod metamethod [lhs; rhs] (ComparisonMetamethodCallContinuation shouldBranch (ShouldInvertMetatableCallResult opKind)) in
  let do_metamethod_call_lt_for_le metamethod :=
    CallMetamethod metamethod [rhs; lhs] (ComparisonMetamethodCallContinuation shouldBranch (negb (ShouldInvertMetatableCallResult opKind))) in
  let call_metamethod_of_lhs : Op :=
    metamethod ← GetMetamethodForValue env vm lhs (GetMetamethodKind opKind);
    if IsNil metamethod then fail else do_metamethod_call metamethod in
  if Is env tDouble lhs then
    if negb (Is env tDouble rhs) then fail
    else mret (Ends (ReturnOrBranch shouldBranch (DoComparison_double opKind (AsDouble lhs) (AsDouble rhs))))
  else if IsHeapEntity lhs then
    if negb (IsHeapEntity rhs) then fail
    else if negb (bool_decide (type_of lhs = type_of rhs)) then fail
    else if IsString lhs then
      mret (Ends (ReturnOrBranch shouldBranch (DoComparison_string opKind (AsPointer lhs) (AsPointer rhs))))
    else if IsTable lhs then
      metatables ← both_metatables lhs rhs;
      match metatables with
      | None => fail
      | Some (lhsMetatable, rhsMetatable) =>
          metamethod ← GetMetamethodFromMetatableForComparisonOperation env vm false lhsMetatable rhsMetatable (GetMetamethodKind opKind);
          if Is env tNil metamethod then
            match GetMetamethodKind opKind with
            | LuaMetamethodKind.Le =>
                metamethod ← GetMetamethodFromMetatableForComparisonOperation env vm false lhsMetatable rhsMetatable LuaMetamethodKind.Lt;
                if Is env tNil metamethod then fail else do_metamethod_call_lt_for_le metamethod
            | _ => fail
            end
          else do_metamethod_call metamethod
      end
    else call_metamethod_of_lhs
  else if Is env tInt32 lhs then ub
  else if negb (Is env tMIV rhs) then fail
  else if negb (Bool.eqb (Is env tNil lhs) (Is env tNil rhs)) then fail
  else call_metamethod_of_lhs.

(** ** The length operator *)

Definition LengthOperatorNotTableOrStringSlowPath (input : Z) : Op :=
  metatableMaybeNull ← GetMetatableForValue env vm input;
  if metatableMaybeNull =? 0 then mret (Ends (Throws "Invalid types for length"%string))
  else
    metamethod ← GetMetamethodFromMetatable env vm metatableMaybeNull LuaMetamethodKind.Len;
    if Is env tNil metamethod then mret (Ends (Throws "Invalid types for length"%string))
    else CallMetamethod metamethod [input] Returns.

Definition LengthOperatorTableLengthSlowPath (input : Z) : Op :=
  length ← on_table (AsPointer input) (GetTableLengthWithLuaSemanticsSlowPath hash);
  mret (Ends (Returns (CreateDouble (double_of_int length)))).

Definition LengthOperatorImpl (input : Z) : Op :=
  if IsString input then mret (Ends (Returns (CreateDouble (double_of_int (m_length (AsPointer input))))))
  else if IsTable input then
    result ← on_table (AsPointer input) TryGetTableLengthWithLuaSemanticsFastPath;
    match result with
    | Some result => mret (Ends (Returns (CreateDouble (double_of_int result))))
    | None => LengthOperatorTableLengthSlowPath input
    end
  else LengthOperatorNotTableOrStringSlowPath input.

(** ** Truth *)

Definition LogicalNotImpl (value : Z) : Outcome := Returns (CreateBoolean (negb (IsTruthy value))).

Definition TestAndBranchOperationImpl (testForFalsy : bool) (testValue : Z) : Outcome :=
  if xorb (IsTruthy testValue) testForFalsy then Branches else ReturnsNothing.
End operators.
