(* ===== verification/OperatorEvents.v ===== *)
(** * The events of comparisons and of the length

    The specification of the bytecodes of [OperatorBytecodes], after the events
    [eq], [lt], [le], [len] and [call] of the Lua 5.1 manual, over the tables of a
    world. *)

From Stdlib Require Import String.
From S2P Require Import Prelude Double TValue TypeMask Machine HiddenClass TableObject TableLength ClassHeap NamedInv TableHistory TableWorld Metatables Metamethods IndexEvent OperatorBytecodes.

(** ** Orders *)

(** The order of strings of bytes. *)
Fixpoint lex_compare (a b : list Z) : comparison :=
  match a, b with
  | [], [] => Eq
  | [], _ :: _ => Lt
  | _ :: _, [] => Gt
  | x :: a, y :: b => match x ?= y with Eq => lex_compare a b | c => c end
  end.

(** Equality of values without metamethods. *)
Definition raw_equal (a b : Z) : bool :=
  match unbox a, unbox b with
  | LDouble x, LDouble y => UnsafeFloatEqual x y
  | LInt32 i, LInt32 j => i =? j
  | LMIV k, LMIV l => k =? l
  | LPointer p, LPointer q => p =? q
  | _, _ => false
  end.

(** What the event of a comparison comes to: an answer, a question to a metamethod,
    whose answer may have to be inverted, or an error. *)
Inductive Comparison :=
| Decided (b : bool)
| Asked (h : Z) (arguments : list Z) (inverted : bool)
| Incomparable.

Section events.
Variable env : Env.
Variable vm : VM.
Variable m_string : Z -> list Z.
Variable tables : gmap Z Meaning.
Notation table_of := (table_of tables).
Notation handler v kind := (metamethod env vm tables v kind).

Definition same_type (a b : Z) : bool :=
  match unbox a, unbox b with
  | LDouble _, LDouble _ => true
  | LMIV k, LMIV l => Bool.eqb (k =? MIV.x_nil) (l =? MIV.x_nil)
  | LPointer p, LPointer q => bool_decide (m_type env p = m_type env q)
  | _, _ => false
  end.

(** The metamethod that two values have in common: [getcomphandler]. *)
Definition common_handler (a b : Z) (kind : LuaMetamethodKind) : Z :=
  if same_type a b && raw_equal (handler a kind) (handler b kind) then handler a kind else Nil.

(** [eq]; only tables are asked. *)
Definition equal_event (a b : Z) : Comparison :=
  if raw_equal a b then Decided true
  else
    match table_of a, table_of b with
    | Some _, Some _ =>
        let h := common_handler a b LuaMetamethodKind.Eq in
        if decide (h = Nil) then Decided false else Asked h [a; b] false
    | _, _ => Decided false
    end.

(** The characters of a string. *)
Definition string_of (v : Z) : option (list Z) :=
  match unbox v with
  | LPointer p => if decide (m_type env p = TypeMask.String) then Some (m_string p) else None
  | _ => None
  end.

(** Numbers and strings have an order. *)
Definition ordered (a b : Z) : option comparison :=
  match string_of a, string_of b with Some s, Some t => Some (lex_compare s t) | _, _ => None end.

(** What is left to metamethods.  When there is no [__le], [a <= b] is
    [not (b < a)]. *)
Definition asked_event (strict : bool) (a b : Z) : Comparison :=
  let lt := common_handler a b LuaMetamethodKind.Lt in
  if strict then (if decide (lt = Nil) then Incomparable else Asked lt [a; b] false)
  else
    let le := common_handler a b LuaMetamethodKind.Le in
    if decide (le = Nil) then (if decide (lt = Nil) then Incomparable else Asked lt [b; a] true) else Asked le [a; b] false.

(** [lt] when [strict], [le] otherwise. *)
Definition comparison_event (strict : bool) (a b : Z) : Comparison :=
  match unbox a, unbox b with
  | LDouble x, LDouble y => Decided (if strict then UnsafeFloatLess x y else UnsafeFloatLessEqual x y)
  | _, _ =>
      match ordered a b with
      | Some Lt => Decided true
      | Some Eq => Decided (negb strict)
      | Some Gt => Decided false
      | None => asked_event strict a b
      end
  end.

(** [call]: the value itself, or its [__call] metamethod with the value as the first
    argument; [__call] is not recursive. *)
Definition call_value (v : Z) (args : list Z) (continuation : Z -> Outcome) : OpEnd :=
  if decide (is_function env v) then CallsThen (AsPointer v) args continuation
  else
    let target := handler v LuaMetamethodKind.Call in
    if decide (is_function env target) then CallsThen (AsPointer target) (v :: args) continuation
    else Ends (Throws (MakeErrorMessageForUnableToCall env v)).

(** The end of a bytecode for the comparison [c], or for its inverse. *)
Definition answer (shouldBranch inverse : bool) (c : Comparison) : OpEnd :=
  match c with
  | Decided b => Ends (ReturnOrBranch shouldBranch (xorb b inverse))
  | Asked h args inverted => call_value h args (ComparisonMetamethodCallContinuation shouldBranch (xorb inverted inverse))
  | Incomparable => Ends (Throws "Invalid types for comparison operator")
  end.

(** [len]; the length of a table is any border. *)
Definition length_event (v : Z) (e : OpEnd) : Prop :=
  match string_of v, table_of v with
  | Some s, _ => e = Ends (Returns (CreateDouble (double_of_int (Z.of_nat (length s)))))
  | None, Some m => exists n, border (fun i => element m (double_of_int i)) n /\ e = Ends (Returns (CreateDouble (double_of_int n)))
  | None, None =>
      let h := handler v LuaMetamethodKind.Len in
      e = if decide (h = Nil) then Ends (Throws "Invalid types for length") else call_value h [v] Returns
  end.
End events.

(** ** Facts of the orders *)

Lemma dbl_order_eq a b : in_u 64 a -> in_u 64 b -> dbl_order a = dbl_order b <-> a = b \/ (zero_pattern a = true /\ zero_pattern b = true).
Proof.
  unfold in_u, dbl_order, dbl_sign, zero_pattern. rewrite !orb_true_iff, !Z.eqb_eq. pow2.
  intros Ha Hb. destruct (Z.leb_spec 9223372036854775808 a), (Z.leb_spec 9223372036854775808 b); lia.
Qed.

Lemma less_equal_or a b : in_u 64 a -> in_u 64 b -> UnsafeFloatLessEqual a b = UnsafeFloatLess a b || UnsafeFloatEqual a b.
Proof.
  intros Ha Hb. unfold UnsafeFloatLessEqual, UnsafeFloatLess, UnsafeFloatEqual. destruct (nan_pattern a), (nan_pattern b); try done. simpl.
  apply eq_true_iff_eq. rewrite !orb_true_iff, andb_true_iff, Z.eqb_eq, Z.leb_le, Z.ltb_lt, <- (dbl_order_eq a b Ha Hb). lia.
Qed.

(** Small integers are ordered like their doubles: the pattern of the double of a
    positive integer grows with it. *)
Definition magnitude (m : Z) : Z := if m =? 0 then 0 else (Z.log2 m + 1022) * 2 ^ 52 + m * 2 ^ (52 - Z.log2 m).

Lemma significand m : 0 < m < 2 ^ 53 -> 0 <= Z.log2 m <= 52 /\ 2 ^ 52 <= m * 2 ^ (52 - Z.log2 m) < 2 ^ 53.
Proof.
  intros Hm. pose proof (Z.log2_spec m ltac:(lia)) as Hs. unfold Z.succ in Hs. pose proof (Z.log2_nonneg m).
  assert (Z.log2 m <= 52) by (apply Z.lt_succ_r, Z.log2_lt_pow2; lia). set (e := Z.log2 m) in *. split; [lia|].
  assert (2 ^ 52 = 2 ^ e * 2 ^ (52 - e)) as -> by (rewrite <- Z.pow_add_r by lia; f_equal; lia).
  assert (2 ^ 53 = 2 ^ (e + 1) * 2 ^ (52 - e)) as -> by (rewrite <- Z.pow_add_r by lia; f_equal; lia).
  assert (0 < 2 ^ (52 - e)) by (apply Z.pow_pos_nonneg; lia). nia.
Qed.

Lemma magnitude_mono m m' : 0 <= m < m' -> m' < 2 ^ 53 -> 0 <= magnitude m < magnitude m' /\ magnitude m' < 2 ^ 63.
Proof.
  intros Hm Hm'. unfold magnitude. destruct (significand m' ltac:(lia)) as [He' Hs']. rewrite (proj2 (Z.eqb_neq m' 0)) by lia.
  destruct (Z.eqb_spec m 0) as [->|H0]; [pow2; lia|]. destruct (significand m ltac:(lia)) as [He Hs].
  pose proof (Z.log2_le_mono m m' ltac:(lia)). destruct (Z.eq_dec (Z.log2 m) (Z.log2 m')) as [E|E]; [|pow2; lia].
  rewrite <- E in *. assert (0 < 2 ^ (52 - Z.log2 m)) by (apply Z.pow_pos_nonneg; lia). split; [|pow2; lia]. pow2. nia.
Qed.

Lemma dbl_order_int z : Z.abs z < 2 ^ 53 -> dbl_order (double_of_int z) = Z.sgn z * magnitude (Z.abs z).
Proof.
  intros Hz. destruct (Z.eq_dec z 0) as [->|H0]; [by vm_compute|].
  destruct (magnitude_mono 0 (Z.abs z) ltac:(lia) ltac:(lia)) as [Hm Hm']. change (magnitude 0) with 0 in Hm.
  assert (double_of_int z = (if z <? 0 then 2 ^ 63 else 0) + magnitude (Z.abs z)) as ->.
  { destruct (double_of_int_shape z ltac:(unfold in_i; pow2; lia) H0) as (q & _ & Hq & ->).
    destruct (significand (Z.abs z) ltac:(lia)) as [He _]. destruct Hq as [-> _]; [lia|]. unfold magnitude.
    rewrite (proj2 (Z.eqb_neq (Z.abs z) 0)) by lia. pow2. lia. }
  unfold dbl_order, dbl_sign. destruct (Z.ltb_spec z 0); (case_match; zbool; try lia).
Qed.

Lemma less_int a b : Z.abs a < 2 ^ 53 -> Z.abs b < 2 ^ 53 -> UnsafeFloatLess (double_of_int a) (double_of_int b) = (a <? b).
Proof.
  intros Ha Hb. unfold UnsafeFloatLess. rewrite <- !IsNaN_pattern.
  destruct (double_of_int_number a) as (_ & -> & _); [unfold in_i; pow2; lia|]. destruct (double_of_int_number b) as (_ & -> & _); [unfold in_i; pow2; lia|].
  simpl. rewrite !dbl_order_int by done. apply eq_true_iff_eq. rewrite !Z.ltb_lt.
  pose proof (fun H => magnitude_mono (Z.abs a) (Z.abs b) H Hb) as H1. pose proof (fun H => magnitude_mono (Z.abs b) (Z.abs a) H Ha) as H2.
  assert (Z.abs a = Z.abs b \/ Z.abs a < Z.abs b \/ Z.abs b < Z.abs a) as [E|[E|E]] by lia.
  - rewrite E. clear H1 H2. destruct (Z.eq_dec b 0) as [->|]; [change (magnitude (Z.abs 0)) with 0; lia|].
    pose proof (magnitude_mono 0 (Z.abs b) ltac:(lia) Hb) as [Hm _]. change (magnitude 0) with 0 in Hm. destruct (Z.sgn_spec a) as [[? ->]|[[? ->]|[? ->]]], (Z.sgn_spec b) as [[? ->]|[[? ->]|[? ->]]]; lia.
  - destruct H1 as [H1 _]; [lia|]. destruct (Z.sgn_spec a) as [[? ->]|[[? ->]|[? ->]]], (Z.sgn_spec b) as [[? ->]|[[? ->]|[? ->]]]; lia.
  - destruct H2 as [H2 _]; [lia|]. destruct (Z.sgn_spec a) as [[? ->]|[[? ->]|[? ->]]], (Z.sgn_spec b) as [[? ->]|[[? ->]|[? ->]]]; lia.
Qed.

Lemma lex_refl a : lex_compare a a = Eq.
Proof. induction a as [|x a IH]; [done|]. simpl. by rewrite Z.compare_refl. Qed.

(** [memcmp] stops at the first difference. *)
Lemma memcmp_lex a : forall b, let c := memcmp a b (Nat.min (length a) (length b)) in
  lex_compare a b = if c =? 0 then Nat.compare (length a) (length b) else (c ?= 0).
Proof.
  induction a as [|x a IH]; intros [|y b]; try done. simpl. specialize (IH b). cbv zeta in IH. rewrite IH.
  destruct (Z.eqb_spec x y) as [->|Hne]; [by rewrite Z.compare_refl|].
  destruct (Z.ltb_spec x y) as [Hl|Hl].
  - rewrite (proj2 (Z.compare_lt_iff x y) Hl). done.
  - rewrite (proj2 (Z.compare_gt_iff x y)) by lia. done.
Qed.

(** [HeapString::Compare] is the order of the strings. *)
Lemma HeapString_Compare_lex m_string p q : Z.of_nat (length (m_string p)) < 2 ^ 32 -> Z.of_nat (length (m_string q)) < 2 ^ 32 ->
  (HeapString_Compare m_string p q ?= 0) = lex_compare (m_string p) (m_string q).
Proof.
  intros Hp Hq. unfold HeapString_Compare, m_length. rewrite !wrapu_small by (unfold in_u; lia).
  destruct (Z.eqb_spec p q) as [->|Hne].
  { by rewrite lex_refl. }
  rewrite (memcmp_lex (m_string p) (m_string q)). cbv zeta.
  replace (Z.to_nat _) with (Nat.min (length (m_string p)) (length (m_string q))) by lia.
  destruct (Z.eqb_spec (memcmp (m_string p) (m_string q) (Nat.min (length (m_string p)) (length (m_string q)))) 0); cbn [negb]; [|done].
  destruct (Nat.compare_spec (length (m_string p)) (length (m_string q))); repeat case_match; zbool; try done; lia.
Qed.
