(* ===== verification/OperatorProofs.v ===== *)
(** * The bytecodes of comparisons and of the length run their events *)

From Stdlib Require Import String.
From S2P Require Import Prelude Double TValue MiscMath Machine TypeMask ArrayType Butterfly SparseMap HiddenClass TableObject TableArray TableLength TableTheorems Probing CheckedTable ClassHeap Structure Transition ClassInv ClassLookup ClassFrame ClassCreate ClassTransition ClassQuery ClassOps ClassView ClassTheorems Dictionary TableClasses NamedProps NamedInv NamedPut NamedTransition NamedMeta TableWhole TableHistory TableCreate TableClone TableWorld Metatables Metamethods MetamethodChain IndexEvent GetBytecodes IndexProofs TablePut PutBytecodes NewIndexEvent NewIndexProofs OperatorBytecodes OperatorEvents.

(** ** Raw equality *)

Lemma unbox_inj a b : (exists x, a = box x /\ LuaValue_valid x = true) -> (exists x, b = box x /\ LuaValue_valid x = true) ->
  unbox a = unbox b -> a = b.
Proof. intros (x & -> & Hx) (y & -> & Hy). rewrite !unbox_box_lemma by done. by intros ->. Qed.

Lemma raw_equal_sym a b : raw_equal a b = raw_equal b a.
Proof. unfold raw_equal. destruct (unbox a), (unbox b); try done; (apply feq_sym || apply Z.eqb_sym). Qed.

Section values.
Variable env : Env.
Notation lua_value := (lua_value env).

Lemma value_boxed v : lua_value v -> exists x, v = box x /\ LuaValue_valid x = true.
Proof. intros (x & ? & ? & _). by exists x. Qed.

Lemma raw_equal_double a b : lua_value a -> lua_value b -> IsDouble b = true -> UnsafeFloatEqual (ViewAsDouble a) (AsDouble b) = raw_equal a b.
Proof.
  intros Ha Hb Hd. pose proof (value_tests env a Ha) as Ta. pose proof (value_tests env b Hb) as Tb. unfold tag_tests in Ta, Tb.
  unfold raw_equal, ViewAsDouble, AsDouble. destruct (unbox b) as [y| | |] eqn:Eb; injection Tb as Tb _ _ _; try congruence.
  rewrite (value_double b y Eb). destruct (unbox a) as [x|i|k|p] eqn:Ea; [by rewrite (value_double a x Ea)|..];
    (destruct (UnsafeFloatEqual a b) eqn:E; [|done]); apply feq_nan_l in E; injection Ta as Ta _ _ _;
    destruct (value_boxed a Ha) as (x & -> & Hx); by rewrite box_not_double_NaN in E.
Qed.

Lemma raw_equal_word a b : lua_value a -> lua_value b -> IsDouble b = false -> (a =? b) = raw_equal a b.
Proof.
  intros Ha Hb Hd. pose proof (value_tests env a Ha) as Ta. pose proof (value_tests env b Hb) as Tb. unfold tag_tests in Ta, Tb.
  assert (a = b <-> unbox a = unbox b) as Hab.
  { split; [by intros ->|]. apply unbox_inj; by apply value_boxed. }
  apply eq_true_iff_eq. rewrite Z.eqb_eq, Hab. unfold raw_equal.
  destruct (unbox b) as [y|j|l|q] eqn:Eb; injection Tb as Tb _ _ _; try congruence; destruct (unbox a); rewrite ?Z.eqb_eq; naive_solver.
Qed.

Lemma primitive_equal_raw a b w : lua_value a -> lua_value b -> not_int32 a -> not_int32 b ->
  primitive_equal a b w = Ok (raw_equal a b, w).
Proof.
  intros Ha Hb Na Nb. unfold primitive_equal. rewrite !(no_int32_value env) by done. simpl.
  enough ((if IsDouble a then UnsafeFloatEqual (AsDouble a) (ViewAsDouble b) else a =? b) = raw_equal a b) as -> by done.
  rewrite raw_equal_sym. destruct (IsDouble a) eqn:E.
  - rewrite feq_sym. by apply raw_equal_double.
  - rewrite Z.eqb_sym. by apply raw_equal_word.
Qed.

Lemma raw_equal_nil v : lua_value v -> raw_equal Nil v = bool_decide (v = Nil).
Proof.
  intros Hv. rewrite raw_equal_sym, <- raw_equal_word by (done || by exists (LMIV MIV.x_nil)). apply eq_true_iff_eq.
  by rewrite bool_decide_eq_true, Z.eqb_eq.
Qed.
End values.

Section proofs.
Variable env : Env.
Variable hash : Z -> Z.
Variable vm : VM.
Hypothesis special_user : user_key (GetSpecialKeyForMetadataSlot env).
Variable tables : gmap Z Meaning.
Variable w : World.
Hypothesis meaning : world_means env hash vm w tables.
(** Metamethods are no int32. *)
Hypothesis no_int32 : int32_free tables.
#[local] Instance operator_proof_ops : HiddenClassOps SysHeap := sys_ops env.
Notation table_of := (table_of tables).
Notation handler v kind := (metamethod env vm tables v kind).
Notation metafield := (metafield vm tables).
Notation lua_value := (lua_value env).

Ltac read E := rewrite (bind_ok _ _ _ _ _ E).

(** ** Calls *)

Lemma call_metamethod mt : table_or_null tables mt ->
  GetCallMetamethodFromMetatableImpl env vm mt w =
    Ok (if decide (is_function env (metafield mt LuaMetamethodKind.Call)) then Some (AsPointer (metafield mt LuaMetamethodKind.Call)) else None, w).
Proof.
  intros Hmt. unfold GetCallMetamethodFromMetatableImpl. destruct (Z.eqb_spec mt 0) as [->|Hne].
  - rewrite (metafield_null env hash vm tables w meaning). rewrite decide_False; [done|by apply not_function_nil].
  - destruct Hmt as [?|Ht]; [done|]. read (GetMetamethodFromMetatable_world env hash vm tables w meaning mt LuaMetamethodKind.Call Ht).
    rewrite Is_function by apply (metafield_value env hash vm tables w meaning). by case_decide; case_bool_decide.
Qed.

Lemma GetCallTargetViaMetatable_world v : lua_value v -> ~ is_function env v ->
  GetCallTargetViaMetatable env vm v w =
    Ok (if decide (is_function env (handler v LuaMetamethodKind.Call)) then Some (AsPointer (handler v LuaMetamethodKind.Call)) else None, w).
Proof.
  intros Hv Hf. pose proof (metatable_of_ok env hash vm tables w meaning v) as Hmt. unfold metamethod.
  pose proof (value_tests env v Hv) as Ht. unfold tag_tests in Ht. unfold GetCallTargetViaMetatable. rewrite Is_entity by done.
  rewrite <- (call_metamethod _ Hmt). unfold metatable_of in *. unfold is_function in Hf.
  destruct (unbox v) as [d|i|k|p] eqn:E; injection Ht as _ _ Hmiv _.
  - change (Is env tNil v) with (IsNil v). rewrite (value_nil env v Hv), E, bool_decide_false by done.
    change (Is env tMIV v) with (IsMIV v). by rewrite Hmiv.
  - change (Is env tNil v) with (IsNil v). rewrite (value_nil env v Hv), E, bool_decide_false by done.
    change (Is env tMIV v) with (IsMIV v). by rewrite Hmiv.
  - change (Is env tNil v) with (IsNil v). rewrite (value_nil env v Hv), E. change (Is env tMIV v) with (IsMIV v). rewrite Hmiv.
    destruct (Z.eqb_spec k MIV.x_nil) as [->|Hk]; [by rewrite bool_decide_true|]. by rewrite bool_decide_false by naive_solver.
  - unfold GetHeapEntityType. rewrite (value_pointer v p E). pose proof (value_type env v p Hv E) as Hp.
    rewrite !elem_of_cons, elem_of_nil in Hp. destruct Hp as [Hp|[Hp|[Hp|[Hp|[]]]]]; rewrite Hp in *; try done; [naive_solver|].
    destruct (proj1 (co_type _ _ _ (wm_closed _ _ _ _ _ meaning) p) Hp) as [m Hm].
    destruct (GetMetatable_world env hash vm tables w meaning p m Hm) as (r & Er & Hr).
    simpl. read Er. rewrite Hm. simpl. by rewrite Hr.
Qed.

Lemma CallMetamethod_world h args k : lua_value h -> CallMetamethod env vm h args k w = Ok (call_value env vm tables h args k, w).
Proof.
  intros Hh. unfold CallMetamethod, call_value. rewrite Is_function by done. case_decide as Hf; [by rewrite bool_decide_true|].
  rewrite bool_decide_false by done. read (GetCallTargetViaMetatable_world h Hh Hf). cbv zeta. by case_decide.
Qed.

(** ** Common metamethods *)

(** Arithmetic asks the first operand, then the second one. *)
Lemma arithmetic_metamethod a b kind : lua_value a -> lua_value b ->
  GetMetamethodForBinaryArithmeticOperation env vm a b kind w =
    Ok (if decide (handler a kind = Nil) then handler b kind else handler a kind, w).
Proof.
  intros Ha Hb. unfold GetMetamethodForBinaryArithmeticOperation.
  assert (forall v, lua_value v -> exists mt, GetMetatableForValue env vm v w = Ok (mt, w) /\
    (mt = 0 -> handler v kind = Nil) /\ (mt <> 0 -> GetMetamethodFromMetatable env vm mt kind w = Ok (handler v kind, w))) as Hmt.
  { intros v Hv. exists (metatable_of env vm tables v). split; [by apply (GetMetatableForValue_world env hash)|]. unfold metamethod. split.
    - intros ->. apply (metafield_null env hash vm tables w meaning).
    - intros Hne. destruct (metatable_of_ok env hash vm tables w meaning v) as [?|Ht]; [done|]. by apply (GetMetamethodFromMetatable_world env hash). }
  destruct (Hmt a Ha) as (mt & E & H0 & H1), (Hmt b Hb) as (mt' & E' & H0' & H1'). read E.
  assert (((if negb (mt =? 0) then GetMetamethodFromMetatable env vm mt kind else mret Nil) : MW Z) w = Ok (handler a kind, w)) as Em.
  { destruct (Z.eqb_spec mt 0) as [Hz|Hz]; simpl; [by rewrite (H0 Hz)|by apply H1]. }
  read Em. change (IsNil (handler a kind)) with (Is env tNil (handler a kind)). rewrite nil_test.
  case_decide as Hn; [|by rewrite bool_decide_false]. rewrite bool_decide_true by done. simpl. read E'.
  destruct (Z.eqb_spec mt' 0) as [Hz|Hz]; [by rewrite (H0' Hz)|by apply H1'].
Qed.

Lemma metafield_int32 mt kind : not_int32 (metafield mt kind).
Proof. unfold Metamethods.metafield. destruct (tables !! mt) as [m|] eqn:E; simpl; [by apply (no_int32 mt m)|done]. Qed.

Lemma comparison_metamethod b mt mt' kind : is_Some (tables !! mt) -> is_Some (tables !! mt') ->
  GetMetamethodFromMetatableForComparisonOperation env vm b mt mt' kind w =
    Ok (if raw_equal (metafield mt kind) (metafield mt' kind) then metafield mt kind else Nil, w).
Proof.
  intros Hm Hm'. pose proof (metafield_value env hash vm tables w meaning mt kind) as Hv.
  pose proof (metafield_value env hash vm tables w meaning mt' kind) as Hv'. unfold GetMetamethodFromMetatableForComparisonOperation.
  assert (forall m, is_Some (tables !! m) -> exists r, (if b then TableObject_TryQuicklyRuleOutMetamethod m kind else mret false) w = Ok (r, w) /\
    (r = true -> metafield m kind = Nil)) as Hrule.
  { intros m Hs. destruct b; [by apply (rule_out_world env hash vm special_user tables w meaning)|by exists false]. }
  destruct (Hrule mt Hm) as (r & Er & Hr). read Er. destruct r.
  { rewrite (Hr eq_refl). by destruct (raw_equal _ _). }
  read (GetMetamethodFromMetatable_world env hash vm tables w meaning mt kind Hm). rewrite <- Is_nil with (env := env), nil_test.
  case_bool_decide as Hn; [rewrite Hn; by destruct (raw_equal _ _)|].
  destruct (Hrule mt' Hm') as (r' & Er' & Hr'). read Er'. destruct r'.
  { rewrite (Hr' eq_refl), raw_equal_sym, (raw_equal_nil env) by done. by rewrite bool_decide_false. }
  read (GetMetamethodFromMetatable_world env hash vm tables w meaning mt' kind Hm').
  read (primitive_equal_raw env (metafield mt kind) (metafield mt' kind) w Hv Hv' (metafield_int32 _ _) (metafield_int32 _ _)).
  by destruct (raw_equal _ _).
Qed.

(** The metatables of two tables; a table without one has no metamethod. *)
Lemma both_metatables_world a b m m' : table_of a = Some m -> table_of b = Some m' ->
  exists r, both_metatables a b w = Ok (r, w) /\
  match r with
  | Some (mt, mt') => is_Some (tables !! mt) /\ is_Some (tables !! mt') /\ (forall kind, handler a kind = metafield mt kind /\ handler b kind = metafield mt' kind)
  | None => forall kind, handler a kind = Nil \/ handler b kind = Nil
  end.
Proof.
  intros Ha Hb. pose proof (table_handler env hash vm tables w meaning a m) as Hha. pose proof (table_handler env hash vm tables w meaning b m') as Hhb.
  destruct (GetMetatable_world env hash vm tables w meaning _ m (table_pointer tables a m Ha)) as (r & Er & Hr).
  destruct (GetMetatable_world env hash vm tables w meaning _ m' (table_pointer tables b m' Hb)) as (r' & Er' & Hr').
  unfold both_metatables. read Er. rewrite Hr. destruct (Z.eqb_spec (metatable m) 0) as [E|E].
  { eexists. split; [done|]. intros kind. left. rewrite Hha, E by done. apply (metafield_null env hash vm tables w meaning). }
  read Er'. rewrite Hr'. destruct (Z.eqb_spec (metatable m') 0) as [E'|E'].
  { eexists. split; [done|]. intros kind. right. rewrite Hhb, E' by done. apply (metafield_null env hash vm tables w meaning). }
  pose proof (wm_closed _ _ _ _ _ meaning) as Hcl. pose proof (table_pointer tables a m Ha) as Ta. pose proof (table_pointer tables b m' Hb) as Tb.
  eexists. split; [done|]. simpl. split_and!.
  - by destruct (co_metatables _ _ _ Hcl _ _ Ta).
  - by destruct (co_metatables _ _ _ Hcl _ _ Tb).
  - intros kind. split; [by apply Hha|by apply Hhb].
Qed.

Lemma tables_same_type a b m m' : table_of a = Some m -> table_of b = Some m' -> same_type env a b = true.
Proof.
  unfold Metamethods.table_of, same_type. destruct (unbox a) as [| | |p], (unbox b) as [| | |q]; try done. intros Hp Hq.
  pose proof (co_type _ _ _ (wm_closed _ _ _ _ _ meaning)) as Ht. rewrite bool_decide_true; [done|].
  by rewrite (proj2 (Ht p)), (proj2 (Ht q)) by (by eexists).
Qed.

(** The common metamethod of two tables. *)
Lemma common_tables a b m m' kind : table_of a = Some m -> table_of b = Some m' ->
  common_handler env vm tables a b kind = if raw_equal (handler a kind) (handler b kind) then handler a kind else Nil.
Proof. intros Ha Hb. unfold common_handler. by rewrite (tables_same_type a b m m'). Qed.

Lemma common_none a b m m' kind : table_of a = Some m -> table_of b = Some m' -> handler a kind = Nil \/ handler b kind = Nil ->
  common_handler env vm tables a b kind = Nil.
Proof.
  intros Ha Hb Hn. rewrite (common_tables a b m m') by done. pose proof (handler_value_of env hash vm tables w meaning a kind) as Hv.
  destruct Hn as [-> | ->]; [by destruct (raw_equal _ _)|]. rewrite raw_equal_sym, (raw_equal_nil env) by done. by case_bool_decide.
Qed.

(** ** Equality *)

Lemma EqualityOperation_event ne br a b : lua_value a -> lua_value b -> not_int32 a -> not_int32 b ->
  EqualityOperationImpl env vm ne br a b w = Ok (answer env vm tables br ne (equal_event env vm tables a b), w).
Proof.
  intros Ha Hb Na Nb. unfold EqualityOperationImpl, equal_event. cbv zeta. change (Is env tDouble b) with (IsDouble b).
  destruct (IsDouble b) eqn:Ed.
  { rewrite (raw_equal_double env) by done. destruct (raw_equal a b); [done|].
    assert (table_of b = None) as ->; [|by destruct (table_of a)].
    pose proof (value_tests env b Hb) as Tb. unfold tag_tests in Tb. unfold Metamethods.table_of. destruct (unbox b); [done..|].
    injection Tb as Tb _ _ _. congruence. }
  rewrite (raw_equal_word env) by done. destruct (raw_equal a b); [done|].
  change (Is env tInt32 a) with (IsInt32 a). change (Is env tInt32 b) with (IsInt32 b). rewrite !(no_int32_value env) by done. simpl orb. cbv iota.
  rewrite !(Is_table env hash vm tables w meaning) by done. destruct (table_of a) as [m|] eqn:Ta.
  2: { by rewrite bool_decide_false by (by intros [? ?]). }
  destruct (table_of b) as [m'|] eqn:Tb.
  2: { by rewrite andb_comm, bool_decide_false by (by intros [? ?]). }
  rewrite !bool_decide_true by done. simpl. destruct (both_metatables_world a b m m' Ta Tb) as (r & Er & Hr). read Er.
  destruct r as [[mt mt']|].
  - destruct Hr as (Hm & Hm' & Hh). read (comparison_metamethod true mt mt' LuaMetamethodKind.Eq Hm Hm').
    rewrite (common_tables a b m m') by done. destruct (Hh LuaMetamethodKind.Eq) as [-> ->]. rewrite nil_test.
    pose proof (metafield_value env hash vm tables w meaning mt LuaMetamethodKind.Eq) as Hv.
    destruct (raw_equal _ _); [|done]. case_decide as Hn; [by rewrite bool_decide_true|]. rewrite bool_decide_false by done.
    by apply CallMetamethod_world.
  - rewrite (common_none a b m m') by done. by rewrite decide_True.
Qed.

(** ** [<] and [<=] *)

Variable m_string : Z -> list Z.

(** The event of a comparator, and whether the comparator is its inverse. *)
Definition strict (kind : ComparatorKind) : bool := match kind with LessThan | NotLessThan => true | LessEqual | NotLessEqual => false end.
Notation inverse kind := (ShouldInvertMetatableCallResult kind).
Notation event kind a b := (comparison_event env vm m_string tables (strict kind) a b).
Notation asked kind a b := (asked_event env vm tables (strict kind) a b).
Notation result br kind c := (answer env vm tables br (inverse kind) c).

Lemma DoComparison_double_event kind a b : DoComparison_double kind a b =
  xorb (if strict kind then UnsafeFloatLess a b else UnsafeFloatLessEqual a b) (inverse kind).
Proof. destruct kind; simpl; by rewrite ?xorb_false_r, ?xorb_true_r. Qed.

Hypothesis string_lengths : forall s, Z.of_nat (length (m_string s)) < 2 ^ 32.

Lemma DoComparison_string_event kind p q : DoComparison_string m_string kind p q =
  xorb match lex_compare (m_string p) (m_string q) with Lt => true | Eq => negb (strict kind) | Gt => false end (inverse kind).
Proof.
  unfold DoComparison_string. cbv zeta. rewrite <- (HeapString_Compare_lex m_string p q) by apply string_lengths.
  destruct (Z.compare_spec (HeapString_Compare m_string p q) 0); destruct kind; simpl; zbool; lia.
Qed.

(** A metamethod that the values of a type have: it equals itself, and there is a
    [__le] if there is a [__lt]. *)
Definition regular (kind : ComparatorKind) (a : Z) : Prop :=
  raw_equal (handler a (GetMetamethodKind kind)) (handler a (GetMetamethodKind kind)) = true /\
  (strict kind = false -> handler a LuaMetamethodKind.Le = Nil -> handler a LuaMetamethodKind.Lt = Nil).

Lemma same_type_handler a b kind : same_type env a b = true -> table_of a = None -> handler b kind = handler a kind.
Proof.
  intros Hs Ha. unfold metamethod. f_equal. unfold same_type, Metamethods.table_of, metatable_of in *.
  destruct (unbox a) as [| |k|p], (unbox b) as [| |l|q]; try done.
  - apply eqb_prop in Hs. by rewrite Hs.
  - apply bool_decide_eq_true in Hs. rewrite <- Hs. destruct (m_type env p) eqn:Et; try done.
    apply (co_type _ _ _ (wm_closed _ _ _ _ _ meaning)) in Et. rewrite Ha in Et. by destruct Et.
Qed.

Lemma ask_lhs br kind a b : lua_value a -> same_type env a b = true -> table_of a = None -> regular kind a ->
  (metamethod ← GetMetamethodForValue env vm a (GetMetamethodKind kind);
   if IsNil metamethod then mret (Ends (Throws "Invalid types for comparison operator"))
   else CallMetamethod env vm metamethod [a; b] (ComparisonMetamethodCallContinuation br (inverse kind))) w
  = Ok (result br kind (asked kind a b), w).
Proof.
  intros Ha Hs Ht [Hr Hle]. read (GetMetamethodForValue_world env hash vm tables w meaning a (GetMetamethodKind kind) Ha).
  change (IsNil (handler a (GetMetamethodKind kind))) with (Is env tNil (handler a (GetMetamethodKind kind))). rewrite nil_test.
  pose proof (handler_value_of env hash vm tables w meaning a (GetMetamethodKind kind)) as Hv.
  assert (common_handler env vm tables a b (GetMetamethodKind kind) = handler a (GetMetamethodKind kind)) as Hc.
  { unfold common_handler. rewrite Hs, (same_type_handler a b _ Hs Ht). simpl. by rewrite Hr. }
  assert (handler a (GetMetamethodKind kind) = Nil -> strict kind = false -> common_handler env vm tables a b LuaMetamethodKind.Lt = Nil) as Hlt.
  { intros Hn Hk. unfold common_handler. rewrite Hs, (same_type_handler a b _ Hs Ht). rewrite Hle; [by case_match|done|]. by destruct kind. }
  unfold asked_event. cbv zeta. destruct kind; cbn [strict GetMetamethodKind] in *; rewrite ?Hc;
    (case_bool_decide as Hn; [rewrite ?decide_True by auto; done|rewrite decide_False by done; by apply CallMetamethod_world]).
Qed.

Lemma ask_tables br kind a b m m' : table_of a = Some m -> table_of b = Some m' ->
  (metatables ← both_metatables a b;
   match metatables with
   | None => mret (Ends (Throws "Invalid types for comparison operator"))
   | Some (lhsMetatable, rhsMetatable) =>
       metamethod ← GetMetamethodFromMetatableForComparisonOperation env vm false lhsMetatable rhsMetatable (GetMetamethodKind kind);
       if Is env tNil metamethod then
         match GetMetamethodKind kind with
         | LuaMetamethodKind.Le =>
             metamethod ← GetMetamethodFromMetatableForComparisonOperation env vm false lhsMetatable rhsMetatable LuaMetamethodKind.Lt;
             if Is env tNil metamethod then mret (Ends (Throws "Invalid types for comparison operator"))
             else CallMetamethod env vm metamethod [b; a] (ComparisonMetamethodCallContinuation br (negb (inverse kind)))
         | _ => mret (Ends (Throws "Invalid types for comparison operator"))
         end
       else CallMetamethod env vm metamethod [a; b] (ComparisonMetamethodCallContinuation br (inverse kind))
   end) w = Ok (result br kind (asked kind a b), w).
Proof.
  intros Ta Tb. destruct (both_metatables_world a b m m' Ta Tb) as (r & Er & Hr). read Er. destruct r as [[mt mt']|].
  - destruct Hr as (Hm & Hm' & Hh).
    assert (forall k, GetMetamethodFromMetatableForComparisonOperation env vm false mt mt' k w = Ok (common_handler env vm tables a b k, w)) as Hg.
    { intros k. rewrite (comparison_metamethod false mt mt' k Hm Hm'), (common_tables a b m m') by done. by destruct (Hh k) as [-> ->]. }
    assert (forall k, lua_value (common_handler env vm tables a b k)) as Hv.
    { intros k. unfold common_handler. case_match; [apply (handler_value_of env hash vm tables w meaning)|by exists (LMIV MIV.x_nil)]. }
    read (Hg (GetMetamethodKind kind)). rewrite nil_test. unfold asked_event. cbv zeta.
    destruct kind; cbn [strict GetMetamethodKind]; case_bool_decide as Hn;
      rewrite ?decide_True, ?decide_False by done; try done; try (by apply CallMetamethod_world);
      read (Hg LuaMetamethodKind.Lt); rewrite nil_test; case_bool_decide as Hl; rewrite ?decide_True, ?decide_False by done; try done;
      by apply CallMetamethod_world.
  - unfold asked_event. cbv zeta. rewrite !(common_none a b m m') by done. by destruct kind.
Qed.

(** Values of different types are not compared. *)
Lemma different_types strictly a b : same_type env a b = false -> comparison_event env vm m_string tables strictly a b = Incomparable.
Proof.
  intros Hs. assert (forall kind, common_handler env vm tables a b kind = Nil) as Hc by (intros kind; unfold common_handler; by rewrite Hs).
  assert (asked_event env vm tables strictly a b = Incomparable) as Ha.
  { unfold asked_event. cbv zeta. rewrite !Hc. by destruct strictly. }
  unfold comparison_event, ordered, string_of. unfold same_type in Hs.
  destruct (unbox a) as [x|i|k|p], (unbox b) as [y|j|l|q]; try done; repeat case_decide; try done.
  apply bool_decide_eq_false in Hs. congruence.
Qed.

Lemma type_test v p ty : lua_value v -> unbox v = LPointer p -> Is env (tHeap ty) v = bool_decide (m_type env p = ty).
Proof. intros Hv E. by rewrite (Is_heap env ty v Hv), E. Qed.

Lemma ComparisonOperation_event br kind a b : lua_value a -> lua_value b -> not_int32 a ->
  (table_of a = None -> regular kind a) ->
  ComparisonOperationImpl env vm m_string br kind a b w = Ok (result br kind (event kind a b), w).
Proof.
  intros Ha Hb Hint Hreg. pose proof (value_tests env a Ha) as Ta. pose proof (value_tests env b Hb) as Tb. unfold tag_tests in Ta, Tb.
  unfold ComparisonOperationImpl. cbv zeta. change (Is env tDouble a) with (IsDouble a). change (Is env tDouble b) with (IsDouble b).
  change (Is env tMIV b) with (IsMIV b). change (Is env tInt32 a) with (IsInt32 a). change (Is env tNil a) with (IsNil a). change (Is env tNil b) with (IsNil b).
  rewrite !Is_entity, (value_nil env a Ha), (value_nil env b Hb) by done.
  assert (same_type env a b = false -> (mret (Ends (Throws "Invalid types for comparison operator")) : MW OpEnd) w = Ok (result br kind (event kind a b), w)) as Hfail.
  { intros Hs. by rewrite different_types. }
  destruct (unbox a) as [x|i|k|p] eqn:Ea; injection Ta as Da Ia Ma _; rewrite Da; [| |..].
  - destruct (unbox b) as [y| | |] eqn:Eb; injection Tb as Db _ _ _; rewrite Db; try (apply Hfail; unfold same_type; by rewrite Ea, Eb).
    unfold comparison_event. rewrite Ea, Eb, DoComparison_double_event. unfold AsDouble.
    by rewrite (value_double a x Ea), (value_double b y Eb).
  - by destruct (Hint i).
  - rewrite Ia. destruct (unbox b) as [| |l|] eqn:Eb; injection Tb as _ _ Mb _; rewrite Mb; try (apply Hfail; unfold same_type; by rewrite Ea, Eb).
    simpl negb. cbv iota. destruct (Bool.eqb (bool_decide (LMIV k = LMIV MIV.x_nil)) (bool_decide (LMIV l = LMIV MIV.x_nil))) eqn:E.
    + assert (same_type env a b = true) as Hs.
      { unfold same_type. rewrite Ea, Eb. apply eqb_prop in E. apply Bool.eqb_true_iff, eq_true_iff_eq. rewrite !Z.eqb_eq.
        destruct (bool_decide_reflect (LMIV k = LMIV MIV.x_nil)), (bool_decide_reflect (LMIV l = LMIV MIV.x_nil)); naive_solver. }
      assert (table_of a = None) as Hna by (unfold Metamethods.table_of; by rewrite Ea).
      simpl negb. cbv iota. refine (eq_trans (ask_lhs br kind a b Ha Hs Hna (Hreg Hna)) _).
      unfold comparison_event, ordered, string_of. by rewrite Ea.
    + apply Hfail. unfold same_type. rewrite Ea, Eb. apply Bool.eqb_false_iff. apply Bool.eqb_false_iff in E. intros Hkl. apply E.
      apply bool_decide_ext. split; intros [= ->]; f_equal; apply Z.eqb_eq; [by rewrite <- Hkl|by rewrite Hkl].
  - destruct (unbox b) as [| | |q] eqn:Eb; simpl negb; cbv iota; try (apply Hfail; unfold same_type; by rewrite Ea, Eb).
    unfold GetHeapEntityType. rewrite (value_pointer a p Ea), (value_pointer b q Eb). case_bool_decide as Hty; simpl negb; cbv iota.
    2: { apply Hfail. unfold same_type. rewrite Ea, Eb. by rewrite bool_decide_false. }
    assert (same_type env a b = true) as Hs by (unfold same_type; rewrite Ea, Eb; by rewrite bool_decide_true).
    rewrite !(type_test a p) by done. unfold comparison_event, ordered, string_of. rewrite Ea, Eb. case_bool_decide as Hstr.
    + rewrite !decide_True by congruence. rewrite DoComparison_string_event. by destruct (lex_compare _ _).
    + rewrite !decide_False by congruence. case_bool_decide as Htab.
      * destruct (proj1 (co_type _ _ _ (wm_closed _ _ _ _ _ meaning) p) Htab) as [m Hm].
        destruct (proj1 (co_type _ _ _ (wm_closed _ _ _ _ _ meaning) q)) as [m' Hm']; [congruence|].
        apply (ask_tables br kind a b m m'); unfold Metamethods.table_of; by rewrite ?Ea, ?Eb.
      * assert (table_of a = None) as Hna.
        { unfold Metamethods.table_of. rewrite Ea. apply eq_None_not_Some. by intros Ht%(co_type _ _ _ (wm_closed _ _ _ _ _ meaning)). }
        by apply ask_lhs; auto.
Qed.

(** Values that are no tables, numbers or strings, without [__le]: the code does not
    ask [__lt]. *)
Lemma less_equal_without_le br a b : lua_value a -> lua_value b -> same_type env a b = true -> table_of a = None ->
  string_of env m_string a = None -> (forall d, unbox a <> LDouble d) -> handler a LuaMetamethodKind.Le = Nil ->
  ComparisonOperationImpl env vm m_string br LessEqual a b w = Ok (Ends (Throws "Invalid types for comparison operator"), w).
Proof.
  intros Ha Hb Hs Ht Hstr Hd Hle. pose proof (value_tests env a Ha) as Ta. pose proof (value_tests env b Hb) as Tb. unfold tag_tests in Ta, Tb.
  unfold ComparisonOperationImpl. cbv zeta. change (Is env tDouble a) with (IsDouble a).
  change (Is env tMIV b) with (IsMIV b). change (Is env tInt32 a) with (IsInt32 a). change (Is env tNil a) with (IsNil a). change (Is env tNil b) with (IsNil b).
  rewrite !Is_entity, (value_nil env a Ha), (value_nil env b Hb) by done. unfold same_type in Hs.
  assert ((metamethod ← GetMetamethodForValue env vm a LuaMetamethodKind.Le;
    if IsNil metamethod then mret (Ends (Throws "Invalid types for comparison operator"))
    else CallMetamethod env vm metamethod [a; b] (ComparisonMetamethodCallContinuation br false)) w
    = Ok (Ends (Throws "Invalid types for comparison operator"), w)) as Hask.
  { by read (GetMetamethodForValue_world env hash vm tables w meaning a LuaMetamethodKind.Le Ha); rewrite Hle. }
  destruct (unbox a) as [x|i|k|p] eqn:Ea; [by destruct (Hd x)|by destruct (unbox b)|..]; injection Ta as Da Ia Ma _; rewrite Da.
  - rewrite Ia. destruct (unbox b) as [| |l|]; try done. injection Tb as _ _ Mb _. rewrite Mb. cbn [negb].
    match goal with |- (if ?c then _ else _) _ = _ => destruct c end; [done|exact Hask].
  - destruct (unbox b) as [| | |q] eqn:Eb; try done. simpl negb. cbv iota. unfold GetHeapEntityType.
    rewrite (value_pointer a p Ea), (value_pointer b q Eb), Hs. simpl negb. cbv iota. rewrite !(type_test a p) by done.
    unfold string_of in Hstr. rewrite Ea in Hstr. case_decide as Hp; [done|]. rewrite bool_decide_false by done.
    rewrite bool_decide_false; [exact Hask|]. intros Htab%(co_type _ _ _ (wm_closed _ _ _ _ _ meaning)).
    unfold Metamethods.table_of in Ht. rewrite Ea in Ht. rewrite Ht in Htab. by destruct Htab.
Qed.

(** ** The length *)

Lemma on_table_bind {A B} a (op : MT A) (f : A -> MT B) v : on_table a (op ≫= f) v = (x ← on_table a op; on_table a (f x)) v.
Proof.
  unfold mbind, M_bind, on_table. destruct (w_tables v !! a) as [t|]; [|done]. destruct (op (at_table v t)) as [[x s]| |]; [|done..].
  simpl. rewrite lookup_insert_eq. replace (at_table _ (st_table s)) with s by (by destruct s).
  destruct (f x s) as [[y s']| |]; [|done..]. unfold with_state. simpl. by rewrite insert_insert_eq.
Qed.

(** The length of a table. *)
Lemma length_world a m : tables !! a = Some m -> exists n, border (fun i => element m (double_of_int i)) n /\
  on_table a (GetTableLengthWithLuaSemantics hash) w = Ok (n, w).
Proof.
  intros Ha. destruct (wm_tables _ _ _ _ _ meaning a m Ha) as (t & Ht & Hm). destruct (put_whole env hash _ _ _ _ Hm) as (N & Hinv & Hc & _).
  pose proof (@table_length_spec _ _ (named_laws env N (st_hc (at_table w t))) hash _ Hinv) as Hl.
  destruct (wp_returns _ _ _ Hl) as (n & s' & E & -> & Hb). exists n. split; [|by apply (on_table_reads w a t)].
  unfold border, elem in *. rewrite <- !Hc. exact Hb.
Qed.

Lemma LengthOperator_event v : lua_value v ->
  exists e, length_event env vm m_string tables v e /\ LengthOperatorImpl env hash vm m_string v w = Ok (e, w).
Proof.
  intros Hv. unfold LengthOperatorImpl, length_event, string_of. rewrite (Is_heap env TypeMask.String v Hv), (Is_table env hash vm tables w meaning v Hv).
  assert (LengthOperatorNotTableOrStringSlowPath env vm v w = Ok (if decide (handler v LuaMetamethodKind.Len = Nil)
    then Ends (Throws "Invalid types for length") else call_value env vm tables (handler v LuaMetamethodKind.Len) [v] Returns, w)) as Hother.
  { unfold LengthOperatorNotTableOrStringSlowPath. read (GetMetatableForValue_world env hash vm tables w meaning v Hv). unfold metamethod.
    destruct (Z.eqb_spec (metatable_of env vm tables v) 0) as [->|Hne].
    { rewrite (metafield_null env hash vm tables w meaning). by rewrite decide_True. }
    destruct (metatable_of_ok env hash vm tables w meaning v) as [?|Hmt]; [done|].
    read (GetMetamethodFromMetatable_world env hash vm tables w meaning _ LuaMetamethodKind.Len Hmt). rewrite nil_test.
    case_decide as Hn; [by rewrite bool_decide_true|]. rewrite bool_decide_false by done.
    apply CallMetamethod_world, (metafield_value env hash vm tables w meaning). }
  destruct (unbox v) as [| | |p] eqn:E; try (assert (table_of v = None) as -> by (unfold Metamethods.table_of; by rewrite E);
    rewrite bool_decide_false by (by intros [? ?]); eexists; split; [reflexivity|exact Hother]).
  destruct (decide (m_type env p = TypeMask.String)) as [Hstr|Hstr].
  { rewrite (bool_decide_true (m_type env p = TypeMask.String)) by done. eexists. split; [reflexivity|]. unfold m_length. rewrite (value_pointer v p E).
    by rewrite wrapu_small by (unfold in_u; pose proof (string_lengths p); lia). }
  rewrite (bool_decide_false (m_type env p = TypeMask.String)) by done. destruct (table_of v) as [m|] eqn:Hm.
  2: { rewrite bool_decide_false by (by intros [? ?]). eexists. split; [reflexivity|exact Hother]. }
  rewrite bool_decide_true by done. destruct (length_world (AsPointer v) m (table_pointer tables v m Hm)) as (n & Hb & En).
  eexists. split; [exists n; by split|]. unfold GetTableLengthWithLuaSemantics in En. rewrite on_table_bind in En.
  unfold mbind, M_bind in En |- *. destruct (on_table (AsPointer v) TryGetTableLengthWithLuaSemanticsFastPath w) as [[[x|] w1]| |]; try done.
  - destruct (w_tables w1 !! AsPointer v) as [t|] eqn:Ht; [|by unfold on_table in En; rewrite Ht in En].
    rewrite (on_table_reads w1 (AsPointer v) t (mret x) x Ht eq_refl) in En. by injection En as -> ->.
  - unfold LengthOperatorTableLengthSlowPath, mbind, M_bind. by rewrite En.
Qed.
End proofs.
