(* ===== verification/OperatorProperties.v ===== *)
(** * Properties of the bytecodes of comparisons and of the length

    On the sample world of [BytecodeProperties]. *)

From Stdlib Require Import String.
From S2P Require Import Prelude Double TValue MiscMath Machine TypeMask ArrayType Butterfly SparseMap HiddenClass TableObject TableArray TableLength TableTheorems Probing CheckedTable ClassHeap Structure Transition ClassInv ClassLookup ClassFrame ClassCreate ClassTransition ClassQuery ClassOps ClassView ClassTheorems Dictionary TableClasses NamedProps NamedInv NamedPut NamedTransition NamedMeta TableWhole TableHistory TableCreate TableClone TableWorld Metatables Metamethods MetamethodChain IndexEvent GetBytecodes IndexProofs TablePut PutBytecodes NewIndexEvent NewIndexProofs TableProperties WorldProperties BytecodeProperties PutProperties OperatorBytecodes OperatorEvents OperatorProofs.

(** C14: [EqualityOperation] is the [eq] event: [a == b] and [a ~= b], as a value or
    as a branch, for all values but int32, which the VM does not make yet, in a world
    where no table holds an int32.  Two tables are the same object, or a metamethod
    that both have in common is asked, the answer is inverted for [~=], and a
    metamethod that is no function is called by its own [__call]; nothing changes. *)
Theorem equality_operation env hash vm tables w compareForNotEqual shouldBranch lhs rhs : user_key (GetSpecialKeyForMetadataSlot env) ->
  world_means env hash vm w tables -> int32_free tables -> lua_value env lhs -> lua_value env rhs -> not_int32 lhs -> not_int32 rhs ->
  EqualityOperationImpl env vm compareForNotEqual shouldBranch lhs rhs w =
    Ok (answer env vm tables shouldBranch compareForNotEqual (equal_event env vm tables lhs rhs), w).
Proof. intros. by eapply EqualityOperation_event. Qed.

(** The two tables of the sample program with the same metatable, which has no
    [__eq]. *)
Lemma equality_operation_witness : exists w, world_means sample_lua_env sample_hash sample_vm w sample_lua_tables /\
  EqualityOperationImpl sample_lua_env sample_vm true true sample_base_value sample_global_value w = Ok (Ends Branches, w).
Proof.
  destruct sample_lua_world as (w & _ & [Hw _] & _). exists w. split; [exact Hw|].
  refine (eq_trans (equality_operation sample_lua_env sample_hash sample_vm sample_lua_tables w true true sample_base_value sample_global_value
    sample_lua_special Hw sample_int32_free _ _ _ _) _); [apply (bool_decide_unpack _); by vm_compute..|]. apply (f_equal (fun r => Ok (r, w))). by vm_compute.
Defined.

(** C15: [ComparisonOperation] is the [lt] and [le] events: [a < b], [a <= b] and
    their negations, which differ from [a >= b] and [a > b] when there is a NaN, as
    a value or as a branch.  Numbers have the order of IEEE 754 and strings that of
    their bytes; tables ask the metamethod they have in common, [a <= b] also as
    [not (b < a)].  For other values this holds when their metamethod is [regular].
    The operands are no int32, and no table holds one: the VM does not make them
    yet. *)
Theorem comparison_operation env hash vm m_string tables w shouldBranch opKind lhs rhs : user_key (GetSpecialKeyForMetadataSlot env) ->
  world_means env hash vm w tables -> int32_free tables -> (forall s, Z.of_nat (length (m_string s)) < 2 ^ 32) ->
  lua_value env lhs -> lua_value env rhs -> not_int32 lhs -> not_int32 rhs ->
  (table_of tables lhs = None -> regular env vm tables opKind lhs) ->
  ComparisonOperationImpl env vm m_string shouldBranch opKind lhs rhs w =
    Ok (answer env vm tables shouldBranch (ShouldInvertMetatableCallResult opKind)
          (comparison_event env vm m_string tables (strict opKind) lhs rhs), w).
Proof. intros. by eapply ComparisonOperation_event. Qed.

(** [true < false]: the metamethod of the Booleans. *)
Lemma comparison_operation_witness : exists w, world_means sample_lua_env sample_hash sample_vm w sample_lua_tables /\
  ComparisonOperationImpl sample_lua_env sample_vm (fun _ => []) false LessThan CreateTrue CreateFalse w =
    Ok (CallsThen sample_function [CreateTrue; CreateFalse] (ComparisonMetamethodCallContinuation false false), w).
Proof.
  destruct sample_lua_world as (w & _ & [Hw _] & _). exists w. split; [exact Hw|].
  refine (eq_trans (comparison_operation sample_lua_env sample_hash sample_vm (fun _ => []) sample_lua_tables w false LessThan CreateTrue CreateFalse
    sample_lua_special Hw sample_int32_free _ _ _ _ _ _) _);
    [by vm_compute|apply (bool_decide_unpack _); by vm_compute..|split; by vm_compute|].
  apply (f_equal (fun r => Ok (r, w))). by vm_compute.
Defined.

(** C17: values other than tables do not fall back from [__le] to [__lt].  The
    manual, and a comment of the function, say that [a <= b] is [not (b < a)] when
    there is no [__le]; for Booleans, nil, functions and coroutines that have only a
    [__lt] metamethod, [ComparisonOperation] throws instead. *)
Theorem less_equal_asks_no_lt env hash vm m_string tables w shouldBranch lhs rhs : user_key (GetSpecialKeyForMetadataSlot env) ->
  world_means env hash vm w tables -> lua_value env lhs -> lua_value env rhs -> same_type env lhs rhs = true ->
  table_of tables lhs = None -> string_of env m_string lhs = None -> (forall d, unbox lhs <> LDouble d) ->
  metamethod env vm tables lhs LuaMetamethodKind.Le = Nil ->
  let lt := metamethod env vm tables lhs LuaMetamethodKind.Lt in
  lt <> Nil -> raw_equal lt lt = true ->
  comparison_event env vm m_string tables false lhs rhs = Asked lt [rhs; lhs] true /\
  ComparisonOperationImpl env vm m_string shouldBranch LessEqual lhs rhs w = Ok (Ends (Throws "Invalid types for comparison operator"), w).
Proof.
  intros Hu Hw Hl Hr Hs Ht Hstr Hd Hle lt Hlt Heq. split; [|by eapply less_equal_without_le].
  assert (comparison_event env vm m_string tables false lhs rhs = asked_event env vm tables false lhs rhs) as ->.
  { unfold comparison_event, ordered. rewrite Hstr. destruct (unbox lhs) as [d| | |] eqn:E; [by destruct (Hd d)|done..]. }
  pose proof (same_type_handler env hash vm tables w Hw lhs rhs) as Hsame. unfold asked_event, common_handler. cbv zeta.
  rewrite Hs, !Hsame, Hle by done. fold lt. rewrite Heq. simpl. by rewrite decide_False.
Qed.

Lemma less_equal_asks_no_lt_witness : exists w,
  comparison_event sample_lua_env sample_vm (fun _ => []) sample_lua_tables false CreateTrue CreateFalse =
    Asked (CreatePointer sample_function) [CreateFalse; CreateTrue] true /\
  ComparisonOperationImpl sample_lua_env sample_vm (fun _ => []) false LessEqual CreateTrue CreateFalse w =
    Ok (Ends (Throws "Invalid types for comparison operator"), w).
Proof.
  destruct sample_lua_world as (w & _ & [Hw _] & _). exists w.
  refine (less_equal_asks_no_lt sample_lua_env sample_hash sample_vm (fun _ => []) sample_lua_tables w false CreateTrue CreateFalse
    sample_lua_special Hw _ _ _ _ _ _ _ _ _); clear Hw w; try reflexivity.
  - apply (bool_decide_unpack _); by vm_compute.
  - apply (bool_decide_unpack _); by vm_compute.
  - done.
  - apply (bool_decide_unpack _); by vm_compute.
Defined.

(** C16: [LengthOf]: a string has the length of its bytes; the length of a table is a
    border of its elements, whether or not there is a [__len] metamethod, as Lua 5.1
    wants it; other values ask their [__len] metamethod. *)
Theorem length_of env hash vm m_string tables w input : user_key (GetSpecialKeyForMetadataSlot env) ->
  world_means env hash vm w tables -> (forall s, Z.of_nat (length (m_string s)) < 2 ^ 32) -> lua_value env input ->
  exists e, length_event env vm m_string tables input e /\ LengthOperatorImpl env hash vm m_string input w = Ok (e, w).
Proof. intros. by apply LengthOperator_event. Qed.

Lemma length_of_witness : exists w e, length_event sample_lua_env sample_vm (fun _ => []) sample_lua_tables sample_fields_value e /\
  LengthOperatorImpl sample_lua_env sample_hash sample_vm (fun _ => []) sample_fields_value w = Ok (e, w).
Proof.
  destruct sample_lua_world as (w & _ & [Hw _] & _). exists w.
  refine (length_of sample_lua_env sample_hash sample_vm (fun _ => []) sample_lua_tables w sample_fields_value sample_lua_special Hw _ _);
    [by vm_compute|apply (bool_decide_unpack _); by vm_compute].
Defined.
