(* ===== verification/ArrayKinds.v ===== *)
(** * Array parts of a VM without int32 values

    The array part of a table has a kind, which is [Int32] only after an int32 has
    been put: no operation on other values makes such a table.  The operations are
    followed instruction by instruction, over any state of the heap. *)

From Stdlib Require Import String.
From S2P Require Import Prelude Double TValue MiscMath Machine TypeMask ArrayType Butterfly SparseMap HiddenClass TableObject TableArray TableTheorems Probing CheckedTable ClassHeap Structure Transition ClassInv ClassLookup ClassFrame ClassCreate ClassTransition ClassQuery ClassOps ClassView ClassTheorems Dictionary TableClasses NamedProps NamedInv NamedPut NamedTransition NamedMeta TableWhole TableHistory TableCreate TableClone TableWorld Metatables Metamethods MetamethodChain IndexEvent GetBytecodes PutBytecodes PutIndexBytecodes.

(** ** Invariants of programs *)

(** Every run of [m] from a state with [P] that returns ends in a state with [P], and
    with a result in [R]. *)
Definition yields {S A} (P : S -> Prop) (R : A -> Prop) (m : M S A) : Prop :=
  forall s x s', P s -> m s = Ok (x, s') -> P s' /\ R x.
Notation keeps P m := (yields P (fun _ => True) m).

Create HintDb keeps.

Section rules.
Context {S : Type} (P : S -> Prop).

Lemma yields_weaken {A} (R R' : A -> Prop) (m : M S A) : yields P R m -> (forall x, R x -> R' x) -> yields P R' m.
Proof. intros Hm HR s x s' Hs E. destruct (Hm s x s' Hs E). auto. Qed.

Lemma yields_ret {A} (R : A -> Prop) (x : A) : R x -> yields P R (mret x).
Proof. intros Hx s y s' Hs [= <- <-]. done. Qed.

Lemma yields_bind {A B} (R : A -> Prop) (R' : B -> Prop) (m : M S A) (f : A -> M S B) :
  yields P R m -> (forall x, R x -> yields P R' (f x)) -> yields P R' (m ≫= f).
Proof.
  intros Hm Hf s y s' Hs E. unfold mbind, M_bind in E. destruct (m s) as [[x s1]| |] eqn:E1; [|done..].
  destruct (Hm s x s1 Hs E1) as [H1 Hx]. by apply (Hf x Hx s1).
Qed.

Lemma kept_ret {A} (x : A) : keeps P (mret x).
Proof. by apply yields_ret. Qed.

Lemma kept_bind {A B} (R : B -> Prop) (m : M S A) (f : A -> M S B) :
  keeps P m -> (forall x, yields P R (f x)) -> yields P R (m ≫= f).
Proof. intros Hm Hf. by apply (yields_bind (fun _ => True)). Qed.

Lemma yields_get : yields P P get_st.
Proof. by intros s x s' Hs [= <- <-]. Qed.

Lemma yields_access {A} (o : option A) : keeps P (access o).
Proof. intros s x s' Hs. unfold access. destruct o; [|done]. by intros [= <- <-]. Qed.

Lemma yields_fail {A} (R : A -> Prop) : yields P R vm_fail.
Proof. done. Qed.

Lemma yields_ub {A} (R : A -> Prop) : yields P R ub.
Proof. done. Qed.

Lemma keeps_any {A} (R : A -> Prop) (m : M S A) : yields P R m -> keeps P m.
Proof. intros Hm. by eapply yields_weaken. Qed.
End rules.

#[export] Hint Resolve yields_ret kept_ret yields_get yields_access yields_fail yields_ub : keeps.

(** A step of a program whose parts are in the database. *)
Ltac keep1 :=
  match goal with
  | |- forall _, _ => intros ?
  | |- yields _ _ (mbind _ _) => first [apply kept_bind; [solve [eauto with keeps nocore]|]|apply kept_bind]
  | |- yields _ _ (match ?x with _ => _ end) => destruct x eqn:?
  | |- yields _ _ (let '(_, _) := ?x in _) => destruct x
  | |- _ => progress cbv zeta
  | |- yields _ _ _ => solve [eauto with keeps nocore | eapply keeps_any; eauto with keeps nocore]
  end.
Ltac keep := repeat keep1.

(** ** Tables *)

Notation St := (TableObject.St SysHeap).

Definition kind_ok (s : St) : Prop := ArrayKind (m_arrayType (st_table s)) <> Int32.
Notation kept := (yields kind_ok).

Section tables.
Variable env : Env.
Variable hash : Z -> Z.
#[local] Instance array_kind_ops : HiddenClassOps SysHeap := sys_ops env.

Lemma get_table_kept : kept (fun t => ArrayKind (m_arrayType t) <> Int32) get_table.
Proof. intros s x s' Hs [= <- <-]. done. Qed.

Lemma get_table_keeps : keeps kind_ok get_table.
Proof. eapply keeps_any, get_table_kept. Qed.

Lemma set_table_kept t : ArrayKind (m_arrayType t) <> Int32 -> keeps kind_ok (set_table t).
Proof. by intros Ht s x s' Hs [= <- <-]. Qed.

(** Whatever is done with the table, its array type is that of the table read. *)
Lemma table_kept {B} (R : B -> Prop) (f : TableObject -> MT B) :
  (forall t, ArrayKind (m_arrayType t) <> Int32 -> kept R (f t)) -> kept R (get_table ≫= f).
Proof. intros Hf. eapply yields_bind; [apply get_table_kept|done]. Qed.

Lemma state_kept {B} (R : B -> Prop) (f : St -> MT B) : (forall s, kind_ok s -> kept R (f s)) -> kept R (get_st ≫= f).
Proof. intros Hf. eapply yields_bind; [apply yields_get|done]. Qed.

Lemma put_kept s : kind_ok s -> keeps kind_ok (put_st s).
Proof. by intros Hs s0 x s' _ [= <- <-]. Qed.

Lemma on_heap_kept {A} (m : MH A) : keeps kind_ok (on_heap m).
Proof. intros s x s' Hs. unfold on_heap. destruct (m (st_hc s)) as [[a h]| |]; [|done..]. by intros [= <- <-]. Qed.

Lemma set_hc_kept h : keeps kind_ok (set_hc h).
Proof. by intros s x s' Hs [= <- <-]. Qed.

Lemma set_arrayType_kept a : ArrayKind a <> Int32 -> keeps kind_ok (set_arrayType a).
Proof. intros Ha. apply table_kept. intros t Ht. by apply set_table_kept. Qed.

Lemma set_hiddenClass_kept c : keeps kind_ok (set_hiddenClass c).
Proof. apply table_kept. intros t Ht. by apply set_table_kept. Qed.

Lemma set_butterfly_kept b : keeps kind_ok (set_butterfly b).
Proof. apply table_kept. intros t Ht. by apply set_table_kept. Qed.

Lemma on_butterfly_kept {A} (f : Butterfly -> option A) : keeps kind_ok (on_butterfly f).
Proof. apply table_kept. intros. apply yields_access. Qed.
End tables.

#[export] Hint Resolve get_table_kept get_table_keeps set_table_kept put_kept on_heap_kept set_hc_kept set_arrayType_kept set_hiddenClass_kept
  set_butterfly_kept on_butterfly_kept : keeps.

Ltac kind1 :=
  match goal with
  | |- yields _ _ (get_table ≫= _) => apply table_kept; intros ? ?
  | |- yields _ _ (get_st ≫= _) => apply state_kept; intros ? ?
  | |- _ => keep1
  end.
Ltac kind := repeat kind1.

(** ** The operations of tables *)

Section operations.
Variable env : Env.
Variable hash : Z -> Z.
#[local] Instance array_kind_operation_ops : HiddenClassOps SysHeap := sys_ops env.

Lemma update_butterfly_kept f : keeps kind_ok (update_butterfly f).
Proof. unfold update_butterfly. kind. Qed.
Hint Resolve update_butterfly_kept : keeps.

Lemma write_inline_kept slot v : keeps kind_ok (write_inline slot v).
Proof. unfold write_inline. kind. Qed.
Lemma read_inline_kept slot : keeps kind_ok (read_inline slot).
Proof. unfold read_inline. kind. Qed.
Lemma write_outline_kept slot v : keeps kind_ok (write_outline slot v).
Proof. unfold write_outline. kind. Qed.
Lemma read_outline_kept slot : keeps kind_ok (read_outline slot).
Proof. unfold read_outline. kind. Qed.
Hint Resolve write_inline_kept read_inline_kept write_outline_kept read_outline_kept : keeps.

Lemma write_slot_kept o i v : keeps kind_ok (write_slot o i v).
Proof. unfold write_slot. kind. Qed.
Lemma GetValueForSlot_kept o i : keeps kind_ok (GetValueForSlot o i).
Proof. unfold GetValueForSlot. kind. Qed.
Lemma GrowKnowing_kept o n : keeps kind_ok (TableObject_GrowButterflyKnowingNamedStorageCapacity o n).
Proof. unfold TableObject_GrowButterflyKnowingNamedStorageCapacity. kind. Qed.
Lemma GrowButterfly_kept b n : keeps kind_ok (GrowButterfly b n).
Proof. unfold GrowButterfly. kind. Qed.
Hint Resolve write_slot_kept GetValueForSlot_kept GrowKnowing_kept GrowButterfly_kept : keeps.

(** Gets. *)
Lemma PrepareGetById_kept isString prop : keeps kind_ok (PrepareGetById env isString prop).
Proof. unfold PrepareGetById. kind. Qed.
Lemma GetById_kept ic : keeps kind_ok (GetById ic).
Proof. unfold GetById. kind. Qed.
Lemma QueryArraySparseMap_kept k : keeps kind_ok (QueryArraySparseMap hash k).
Proof. unfold QueryArraySparseMap. kind. Qed.
Hint Resolve PrepareGetById_kept GetById_kept QueryArraySparseMap_kept : keeps.
Lemma TryAccess_kept i : keeps kind_ok (TryAccessIndexInVectorStorage i).
Proof. unfold TryAccessIndexInVectorStorage. kind. Qed.
Lemma CheckIndexFits_kept i : keeps kind_ok (CheckIndexFitsInContinuousArray i).
Proof. unfold CheckIndexFitsInContinuousArray. kind. Qed.
Hint Resolve TryAccess_kept CheckIndexFits_kept : keeps.
Lemma GetByIntegerIndex_kept i ic : keeps kind_ok (GetByIntegerIndex hash i ic).
Proof. unfold GetByIntegerIndex. kind. Qed.
Lemma GetMetatable_kept : keeps kind_ok GetMetatable.
Proof. unfold GetMetatable, GetPolyMetatableFromObjectWithStructureHiddenClass. kind. Qed.
Lemma TryQuicklyRuleOut_kept k : keeps kind_ok (TryQuicklyRuleOutMetamethod k).
Proof. unfold TryQuicklyRuleOutMetamethod. kind. Qed.
Hint Resolve GetByIntegerIndex_kept GetMetatable_kept TryQuicklyRuleOut_kept : keeps.

(** Puts by name. *)
Lemma PreparePutByIdForCacheableDictionary_kept isString d prop : keeps kind_ok (PreparePutByIdForCacheableDictionary env isString d prop).
Proof. unfold PreparePutByIdForCacheableDictionary. kind. Qed.
Hint Resolve PreparePutByIdForCacheableDictionary_kept : keeps.
Lemma PreparePutById_kept isString prop : keeps kind_ok (PreparePutById env isString prop).
Proof. unfold PreparePutById. kind. Qed.
Lemma NeedToCheck_kept ic : keeps kind_ok (PutByIdNeedToCheckMetatable ic).
Proof. unfold PutByIdNeedToCheckMetatable. kind. Qed.
Lemma TransitionToDictionary_kept prop v : keeps kind_ok (PutByIdTransitionToDictionaryImpl env prop v).
Proof.
  unfold PutByIdTransitionToDictionaryImpl. kind. apply set_arrayType_kept. by autorewrite with atype.
Qed.
Hint Resolve PreparePutById_kept NeedToCheck_kept TransitionToDictionary_kept : keeps.
Lemma PutById_kept prop v ic : keeps kind_ok (PutById env prop v ic).
Proof. unfold PutById. kind. Qed.
Hint Resolve PutById_kept : keeps.

(** Puts by index. *)
Lemma update_array_type_kept a : ArrayKind a <> Int32 -> keeps kind_ok (update_array_type a).
Proof. intros Ha. unfold update_array_type. kind. Qed.
Hint Resolve update_array_type_kept : keeps.

Lemma AllocateNew_kept : keeps kind_ok AllocateNewArraySparseMap.
Proof. unfold AllocateNewArraySparseMap. kind. Qed.
Hint Resolve AllocateNew_kept : keeps.
Lemma GetOrAllocate_kept : keeps kind_ok GetOrAllocateSparseMap.
Proof. unfold GetOrAllocateSparseMap. kind. Qed.
Lemma insert_sparse_kept p i v : keeps kind_ok (insert_sparse hash p i v).
Proof. unfold insert_sparse. kind. Qed.
Hint Resolve GetOrAllocate_kept insert_sparse_kept : keeps.

Lemma PutIndexIntoSparseMap_kept q i v : keeps kind_ok (PutIndexIntoSparseMap hash q i v).
Proof.
  unfold PutIndexIntoSparseMap. kind. apply update_array_type_kept.
  destruct (sparseArrayType_fields q (m_arrayType t)) as [-> _]. done.
Qed.
Hint Resolve PutIndexIntoSparseMap_kept : keeps.

Variable value : Z.
Hypothesis value_int32 : IsInt32 value = false.

(** An array type that the slow path goes on with. *)
Definition type_ok (r : option Z) : Prop := forall a, r = Some a -> ArrayKind a <> Int32.

Lemma type_none : type_ok None.
Proof. done. Qed.
Lemma type_some a : ArrayKind a <> Int32 -> type_ok (Some a).
Proof. by intros Ha b [= <-]. Qed.
Hint Resolve type_none type_some : keeps.

Lemma initialKind_kept : initialKind value <> Int32.
Proof. unfold initialKind. rewrite value_int32. by destruct (IsDouble value). Qed.

Lemma NoArrayPart_kept i a : kept type_ok (PutSlow_NoArrayPart hash i value a).
Proof.
  unfold PutSlow_NoArrayPart. kind; apply yields_ret, type_some; autorewrite with atype; apply initialKind_kept.
Qed.

Lemma OutOfBound_kept i a cap : ArrayKind a <> Int32 -> kept type_ok (PutSlow_OutOfBound hash i value a cap).
Proof. intros Ha. unfold PutSlow_OutOfBound. kind; apply yields_ret, type_some; by autorewrite with atype. Qed.

Lemma InBound_kept i a : ArrayKind a <> Int32 -> kept type_ok (PutSlow_InBound i value a).
Proof. intros Ha. unfold PutSlow_InBound. kind; apply yields_ret, type_some; by autorewrite with atype. Qed.

Lemma widenKind_kept a b : ArrayKind b <> Int32 -> ArrayKind (widenKind a b value) <> Int32.
Proof. intros Hb. unfold widenKind. repeat case_match; try done; by autorewrite with atype. Qed.

Lemma decide_kept i : kept type_ok (PutSlow_decide hash i value).
Proof.
  unfold PutSlow_decide. apply table_kept. intros t Ht. cbv zeta. case_bool_decide; [apply NoArrayPart_kept|].
  apply kept_bind; [auto with keeps|]. intros cap.
  apply (yields_bind _ type_ok); [destruct (_ <=? _); [by apply OutOfBound_kept|by apply InBound_kept]|].
  intros r Hr. apply yields_ret. destruct r as [b|]; [|done]. apply type_some, widenKind_kept. by apply Hr.
Qed.

Lemma PutByIntegerIndexSlow_kept i : keeps kind_ok (PutByIntegerIndexSlow hash i value).
Proof.
  unfold PutByIntegerIndexSlow. destruct (_ || _); [auto with keeps|]. cbv zeta.
  eapply yields_bind; [apply decide_kept|]. intros [a|] Hr; [|by apply yields_ret].
  apply kept_bind; [auto with keeps|]. intros _. apply update_array_type_kept. by apply Hr.
Qed.
Hint Resolve PutByIntegerIndexSlow_kept : keeps.

Lemma TryContinuous_kept i : keeps kind_ok (TryPutByIntegerIndexFastPath_ContinuousArray i value).
Proof. unfold TryPutByIntegerIndexFastPath_ContinuousArray. kind. Qed.
Lemma TryInBound_kept i : keeps kind_ok (TryPutByIntegerIndexFastPath_InBoundPut i value).
Proof. unfold TryPutByIntegerIndexFastPath_InBoundPut. kind. Qed.
Hint Resolve TryContinuous_kept TryInBound_kept : keeps.

Lemma RawPutByVal_kept i : keeps kind_ok (RawPutByValIntegerIndex hash i value).
Proof. unfold RawPutByValIntegerIndex, TryPutByValIntegerIndexFastNoIC. kind. Qed.
Hint Resolve RawPutByVal_kept : keeps.
Lemma RawPutByValDouble_kept i : keeps kind_ok (RawPutByValDoubleIndex hash i value).
Proof. unfold RawPutByValDoubleIndex. kind. Qed.

(** An inline cache for another value has another kind of array part. *)
Definition ic_ok (ic : PutByIntegerIndexICInfo.t) : Prop :=
  PutByIntegerIndexICInfo.m_indexCheckKind ic = PutByIntegerIndexICInfo.NoArrayPart ->
  ArrayKind (PutByIntegerIndexICInfo.m_newArrayType ic) <> Int32.

Lemma set_new_kept a vck kind : kind <> Int32 -> kept ic_ok (setNewHiddenClassAndArrayType a vck kind).
Proof.
  intros Hk. assert (forall h c, ic_ok (PutByIntegerIndexICInfo.mk PutByIntegerIndexICInfo.NoArrayPart vck (ArrayType.MayHaveMetatable a) h
    (SetIsContinuous (SetArrayKind a kind) true) c)) as Hok by (intros h c _; simpl; by autorewrite with atype).
  unfold setNewHiddenClassAndArrayType. kind; by apply yields_ret.
Qed.

Lemma PreparePut_kept i : kept ic_ok (PreparePutByIntegerIndex i value).
Proof.
  unfold PreparePutByIntegerIndex. apply table_kept. intros t Ht. cbv zeta. rewrite value_int32.
  repeat case_match; try (by apply yields_ret); by apply set_new_kept.
Qed.

Lemma ic_put_array_kept i check ic : ic_ok ic -> keeps kind_ok (ic_put_array env i value check ic).
Proof. intros Hic. unfold ic_put_array. unfold ic_ok in Hic. destruct (PutByIntegerIndexICInfo.m_indexCheckKind ic); kind. apply set_arrayType_kept; auto. Qed.
End operations.

#[export] Hint Resolve write_inline_kept read_inline_kept write_outline_kept read_outline_kept write_slot_kept
  GrowKnowing_kept PrepareGetById_kept GetById_kept QueryArraySparseMap_kept CheckIndexFits_kept GetByIntegerIndex_kept
  GetMetatable_kept TryQuicklyRuleOut_kept PreparePutById_kept NeedToCheck_kept TransitionToDictionary_kept PutById_kept
  PutByIntegerIndexSlow_kept RawPutByVal_kept RawPutByValDouble_kept PreparePut_kept ic_put_array_kept : keeps.

(** ** Bytecodes *)

Section bytecodes.
Variable env : Env.
Variable hash : Z -> Z.
Variable vm : VM.
#[local] Instance array_kind_bytecode_ops : HiddenClassOps SysHeap := sys_ops env.
Notation keeps_kinds m := (keeps no_int32_arrays m).

Lemma on_table_kept {A} (R : A -> Prop) a (m : MT A) : kept R m -> yields no_int32_arrays R (on_table a m).
Proof.
  intros Hm w x w' Hw. unfold on_table. destruct (w_tables w !! a) as [t|] eqn:Ht; [|done].
  destruct (m (at_table w t)) as [[y s]| |] eqn:E; [|done..]. intros [= <- <-].
  destruct (Hm _ _ _ (Hw a t Ht : kind_ok (at_table w t)) E) as [Hs HR]. split; [|done].
  intros b u. simpl. rewrite lookup_insert_Some. intros [[<- <-]|[_ Hu]]; [exact Hs|by apply (Hw b)].
Qed.

Lemma on_table_keeps {A} a (m : MT A) : keeps kind_ok m -> keeps_kinds (on_table a m).
Proof. apply on_table_kept. Qed.
Hint Resolve on_table_keeps : keeps.
Hint Unfold Return ThrowError MakeCall out_of_fuel ReturnNothing : keeps.
Hint Extern 1 (yields _ _ (Return _)) => apply kept_ret : keeps.
Hint Extern 1 (yields _ _ (ThrowError _)) => apply kept_ret : keeps.
Hint Extern 1 (yields _ _ (MakeCall _ _)) => apply kept_ret : keeps.
Hint Extern 1 (yields _ _ out_of_fuel) => apply kept_ret : keeps.
Hint Extern 1 (yields _ _ ReturnNothing) => apply kept_ret : keeps.

(** Look-ups of metamethods. *)
Lemma GetMetamethodFromMetatable_kept mt kind : keeps_kinds (GetMetamethodFromMetatable env vm mt kind).
Proof. unfold GetMetamethodFromMetatable, RawGetStringPropertyFromTableObject. keep. Qed.
Hint Resolve GetMetamethodFromMetatable_kept : keeps.
Lemma GetMetatableForValue_kept v : keeps_kinds (GetMetatableForValue env vm v).
Proof. unfold GetMetatableForValue. keep. Qed.
Hint Resolve GetMetatableForValue_kept : keeps.
Lemma GetMetamethodForValue_kept v kind : keeps_kinds (GetMetamethodForValue env vm v kind).
Proof. unfold GetMetamethodForValue. keep. Qed.
Lemma RuleOut_kept mt kind : keeps_kinds (TableObject_TryQuicklyRuleOutMetamethod mt kind).
Proof. unfold TableObject_TryQuicklyRuleOutMetamethod. keep. Qed.
Hint Resolve GetMetamethodForValue_kept RuleOut_kept : keeps.
Lemma GetNewIndexMetamethod_kept t : keeps_kinds (GetNewIndexMetamethodFromTableObject env vm t).
Proof. unfold GetNewIndexMetamethodFromTableObject. keep. Qed.
Lemma prepare_integer_kept t : keeps_kinds (prepare_integer t).
Proof. unfold prepare_integer. keep. apply on_table_keeps. kind. Qed.
Lemma get_integer_kept t i ic : keeps_kinds (get_integer hash t i ic).
Proof. unfold get_integer. keep. Qed.
Hint Resolve GetNewIndexMetamethod_kept prepare_integer_kept get_integer_kept : keeps.

(** [TablePutById]. *)
Lemma StoreValue_kept kind slot v : keeps kind_ok (StoreValueIntoTableObject kind slot v).
Proof. unfold StoreValueIntoTableObject. kind. Qed.
Lemma GetOldValue_kept kind slot : keeps kind_ok (GetOldValueFromTableObject kind slot).
Proof. unfold GetOldValueFromTableObject. kind. Qed.
Hint Resolve StoreValue_kept GetOldValue_kept : keeps.
Lemma ic_put_and_grow_kept v kind slot c : keeps kind_ok (ic_put_and_grow v kind slot c).
Proof. unfold ic_put_and_grow. kind. Qed.
Lemma ic_put_new_kept v kind slot c : keeps kind_ok (ic_put_new v kind slot c).
Proof. unfold ic_put_new. kind. Qed.
Hint Resolve ic_put_and_grow_kept ic_put_new_kept : keeps.
Lemma put_unless_newindex_kept t put : keeps_kinds put -> keeps_kinds (put_unless_newindex env vm t put).
Proof. intros Hp. unfold put_unless_newindex. keep. Qed.

Lemma PutById_loop_kept tvIndex v message fuel : forall base mm,
  keeps_kinds (PutById_HandleMetamethodSlowPath env vm tvIndex v message fuel base mm).
Proof. induction fuel as [|fuel IH]; intros base mm; cbn [PutById_HandleMetamethodSlowPath]; keep; apply IH. Qed.
Hint Resolve PutById_loop_kept : keeps.

Lemma TablePutById_kept tvIndex v fuel base : keeps_kinds (TablePutByIdImpl env vm tvIndex v fuel base).
Proof.
  unfold TablePutByIdImpl, PutById_HandleNotTableObjectSlowPath.
  assert (keeps_kinds (TablePutById_ic_body env vm tvIndex v (AsPointer base))) as Hic.
  { unfold TablePutById_ic_body. keep; try apply put_unless_newindex_kept; try apply on_table_keeps; kind. }
  keep.
Qed.

(** [TablePutByImm] and [TablePutByVal]. *)
Section put.
Variable value : Z.
Hypothesis value_int32 : IsInt32 value = false.

Lemma SpecializeValueCheck_kept ic : keeps_kinds (SpecializeValueCheck ic).
Proof. unfold SpecializeValueCheck, IcSpecializeValueFullCoverage. keep. Qed.
Hint Resolve SpecializeValueCheck_kept : keeps.

Lemma integer_ic_kept i check t : keeps_kinds (TablePutByInteger_ic_body env hash vm i value check t).
Proof.
  unfold TablePutByInteger_ic_body. destruct (negb _); [apply kept_ret|].
  eapply yields_bind; [by apply on_table_kept, PreparePut_kept|]. intros ic Hic. pose proof (ic_put_array_kept env value i check ic Hic). keep.
Qed.

Lemma PutByInteger_metamethod_kept i t : keeps_kinds (PutByInteger_metamethod env hash vm i t).
Proof. unfold PutByInteger_metamethod. keep. Qed.
Lemma raw_put_kept i t : keeps_kinds (on_table t (RawPutByValIntegerIndex hash i value)).
Proof. by apply on_table_keeps, RawPutByVal_kept. Qed.
Lemma slow_put_kept i base : keeps_kinds (HandleNoMetamethodSlowPathPut env hash i value base).
Proof. unfold HandleNoMetamethodSlowPathPut. apply kept_bind; [by apply on_table_keeps, PutByIntegerIndexSlow_kept|]. keep. Qed.
Hint Resolve integer_ic_kept PutByInteger_metamethod_kept raw_put_kept slow_put_kept : keeps.

Lemma PutByInteger_loop_kept i tvIndex message fuel : forall base mm,
  keeps_kinds (PutByInteger_HandleMetamethodSlowPath env hash vm i tvIndex value message fuel base mm).
Proof. induction fuel as [|fuel IH]; intros base mm; cbn [PutByInteger_HandleMetamethodSlowPath]; keep; apply IH. Qed.
Hint Resolve PutByInteger_loop_kept : keeps.

Lemma TablePutByImm_kept i fuel base : keeps_kinds (TablePutByImmImpl env hash vm i value fuel base).
Proof. unfold TablePutByImmImpl, PutByInteger_HandleNotTableObjectSlowPath. keep. Qed.

(** The loops of [TablePutByVal] for the other keys. *)
Lemma CheckShouldInvoke_kept t d :
  keeps_kinds (CheckShouldInvokeMetamethodForDoubleNotRepresentableAsInt64Index env hash vm t d).
Proof. unfold CheckShouldInvokeMetamethodForDoubleNotRepresentableAsInt64Index. keep. Qed.
Lemma raw_double_kept i t : keeps_kinds (on_table t (RawPutByValDoubleIndex hash i value)).
Proof. by apply on_table_keeps, RawPutByValDouble_kept. Qed.
Hint Resolve CheckShouldInvoke_kept raw_double_kept : keeps.

Definition round_kept (round : Z -> (Z -> Run) -> Run) : Prop :=
  forall base handle, (forall mm, keeps_kinds (handle mm)) -> keeps_kinds (round base handle).

Lemma double_round_kept d : round_kept (PutByVal_double env hash vm value d).
Proof. intros base handle Hh. unfold PutByVal_double. keep. Qed.
Lemma property_round_kept key : round_kept (PutByVal_property env vm value key).
Proof. intros base handle Hh. unfold PutByVal_property. keep. Qed.

Lemma PutByVal_loop_kept tvIndex round fuel : round_kept round -> forall base mm,
  keeps_kinds (PutByVal_handle_metamethod env vm tvIndex value round fuel base mm).
Proof.
  intros Hr. induction fuel as [|fuel IH]; intros base mm; cbn [PutByVal_handle_metamethod]; keep; first [apply Hr; intros; apply IH|apply IH].
Qed.

Lemma not_int64_table_kept tvIndex fuel base :
  keeps_kinds (HandleTableObjectNotInt64IndexSlowPath env hash vm tvIndex value fuel base).
Proof.
  pose proof double_round_kept as Hd. pose proof property_round_kept as Hp. unfold HandleTableObjectNotInt64IndexSlowPath. keep;
    first [apply Hd|apply Hp]; intros; apply PutByVal_loop_kept; auto.
Qed.
Hint Resolve not_int64_table_kept : keeps.

Lemma not_int64_not_table_kept tvIndex fuel : forall base,
  keeps_kinds (HandleNotTableObjectNotInt64IndexSlowPath env hash vm tvIndex value fuel base).
Proof. induction fuel as [|fuel IH]; intros base; cbn [HandleNotTableObjectNotInt64IndexSlowPath]; keep; apply IH. Qed.
Hint Resolve not_int64_not_table_kept : keeps.

Lemma TablePutByVal_kept tvIndex fuel base : keeps_kinds (TablePutByValImpl env hash vm tvIndex value fuel base).
Proof.
  unfold TablePutByValImpl, PutByVal_HandleNotTableObjectSlowPath, PutByVal_HandleNotInt64IndexSlowPath. keep.
Qed.
End put.
End bytecodes.
