(* ===== verification/BytecodePrograms.v ===== *)
(** * Sequences of bytecodes

    A straight-line sequence of bytecodes runs on the slots of a frame and on the
    world, until one of them throws or calls a function.  Such a run is a run of the
    events of Lua, and it keeps the types: slots and tables hold values that a
    program can compute, and no table gets an array part for int32 values. *)

From Stdlib Require Import String.
From S2P Require Import Prelude Double TValue MiscMath Machine TypeMask ArrayType Butterfly SparseMap HiddenClass TableObject TableArray TableLength TableTheorems Probing CheckedTable ClassHeap Structure Transition ClassInv ClassLookup ClassFrame ClassCreate ClassTransition ClassQuery ClassOps ClassView ClassTheorems Dictionary TableClasses NamedProps NamedInv NamedPut NamedTransition NamedMeta TableWhole TableHistory TableCreate TableClone TableWorld Metatables Metamethods MetamethodChain IndexEvent GetBytecodes IndexProofs TablePut PutBytecodes PutIndexBytecodes NewIndexEvent NewIndexProofs ArrayPut PutIndexProofs PutValueProofs TableProperties WorldProperties BytecodeProperties PutProperties OperatorBytecodes OperatorEvents OperatorProofs ArrayKinds.

(** ** Types *)

(** The type of the values that a program computes: objects of the language in the
    user heap, other than the key that is kept for metatables, doubles, nil and
    Booleans. *)
Definition typed (env : Env) (v : Z) : Prop :=
  lua_value env v /\ not_int32 v /\ forall p, unbox v = LPointer p -> property_key env false p.

Definition typed_meaning (env : Env) (m : Meaning) : Prop :=
  (forall key, typed env (named_value m key)) /\ (forall k, typed env (element m k)).

Definition typed_tables (env : Env) (tables : gmap Z Meaning) : Prop := forall p m, tables !! p = Some m -> typed_meaning env m.

Definition typed_outcome (env : Env) (o : Outcome) : Prop :=
  match o with
  | Returns v => typed env v
  | Calls f args => m_type env f = Function_ /\ Forall (typed env) args
  | _ => True
  end.

Record typed_world (env : Env) (hash : Z -> Z) (vm : VM) (w : World) (tables : gmap Z Meaning) : Prop := {
  tw_stands : world_stands env hash vm w tables;
  tw_values : typed_tables env tables;
  tw_arrays : no_int32_arrays w
}.

(** ** Bytecodes on slots *)

Inductive Instr :=
| SetConstant (output : nat) (constant : Z)
| Mov (output input : nat)
| TableGetById (output base : nat) (index : Z)
| TableGetByImm (output base : nat) (index : Z)
| TableGetByVal (output base index : nat)
| TablePutById (base : nat) (index : Z) (value : nat)
| TablePutByImm (base : nat) (index : Z) (value : nat)
| TablePutByVal (base index value : nat)
| EqualityOperation (compareForNotEqual : bool) (output lhs rhs : nat)
| LogicalNot (output value : nat).

(** The constants of the bytecode. *)
Definition instr_ok (env : Env) (i : Instr) : Prop :=
  match i with
  | SetConstant _ v => typed env v
  | TableGetById _ _ k | TablePutById _ k _ => typed env k /\ property_key env true (AsPointer k)
  | TableGetByImm _ _ k | TablePutByImm _ k _ => in_i 16 k
  | _ => True
  end.

Definition output_of (i : Instr) : option nat :=
  match i with
  | SetConstant d _ | Mov d _ | TableGetById d _ _ | TableGetByImm d _ _ | TableGetByVal d _ _ | EqualityOperation _ d _ _ | LogicalNot d _ => Some d
  | _ => None
  end.

Definition op_outcome (e : OpEnd) : Outcome := match e with Ends o => o | CallsThen f args _ => Calls f args end.

(** What a bytecode leaves behind: the slots for the next one, or the end of the
    sequence. *)
Inductive Step :=
| Next (slots : list Z)
| Leaves (o : Outcome)
| NoFuel.

Definition after (slots : list Z) (i : Instr) (o : Outcome) : Step :=
  match o with
  | Returns v => Next (match output_of i with Some d => <[d := v]> slots | None => slots end)
  | ReturnsNothing | Branches => Next slots
  | Throws _ | Calls _ _ => Leaves o
  end.

Section programs.
Variable env : Env.
Variable hash : Z -> Z.
Variable vm : VM.
Notation slot slots n := (nth n slots Nil).

Definition run_instr (fuel : nat) (slots : list Z) (i : Instr) : Run :=
  match i with
  | SetConstant _ v => Return v
  | Mov _ s => Return (slot slots s)
  | TableGetById _ b k => TableGetByIdImpl env vm k fuel (slot slots b)
  | TableGetByImm _ b k => TableGetByImmImpl env hash vm k fuel (slot slots b)
  | TableGetByVal _ b k => TableGetByValImpl env hash vm (slot slots k) fuel (slot slots b)
  | TablePutById b k v => TablePutByIdImpl env vm k (slot slots v) fuel (slot slots b)
  | TablePutByImm b k v => TablePutByImmImpl env hash vm k (slot slots v) fuel (slot slots b)
  | TablePutByVal b k v => TablePutByValImpl env hash vm (slot slots k) (slot slots v) fuel (slot slots b)
  | EqualityOperation ne _ a b => e ← EqualityOperationImpl env vm ne false (slot slots a) (slot slots b); mret (Some (op_outcome e))
  | LogicalNot _ v => mret (Some (LogicalNotImpl (slot slots v)))
  end.

Fixpoint run_bytecodes (fuel : nat) (code : list Instr) (slots : list Z) : MW Step :=
  match code with
  | [] => mret (Next slots)
  | i :: code =>
      r ← run_instr fuel slots i;
      match r with
      | None => mret NoFuel
      | Some o => match after slots i o with Next slots' => run_bytecodes fuel code slots' | e => mret e end
      end
  end.

(** ** The same as events of Lua *)

(** NaN and nil cannot be assigned to: the table that an assignment comes to throws. *)
Definition bad_key_stop (tables : gmap Z Meaning) (idx value v : Z) : option Outcome :=
  match table_of tables v with
  | Some _ => Some (Throws (if IsDouble idx then "table index is NaN" else "table index is nil"))
  | None =>
      let h := metamethod env vm tables v LuaMetamethodKind.NewIndex in
      if decide (h = Nil) then Some (Throws "bad type for TablePutByVal")
      else if decide (is_function env h) then Some (Calls (AsPointer h) [v; idx; value]) else None
  end.

Definition instr_event (tables : gmap Z Meaning) (slots : list Z) (i : Instr) (o : Outcome) (tables' : gmap Z Meaning) : Prop :=
  match i with
  | SetConstant _ v => o = Returns v /\ tables' = tables
  | Mov _ s => o = Returns (slot slots s) /\ tables' = tables
  | TableGetById _ b k =>
      index_event env vm tables (fun m => named_value m (AsPointer k)) k "bad type for TableGetById" (slot slots b) o /\ tables' = tables
  | TableGetByImm _ b k =>
      index_event env vm tables (fun m => element m (double_of_int k)) (CreateDouble (double_of_int k)) "bad type for TableGetByImm" (slot slots b) o /\
      tables' = tables
  | TableGetByVal _ b k =>
      index_event env vm tables (index_value vm (slot slots k)) (slot slots k) "bad type for TableGetByVal" (slot slots b) o /\ tables' = tables
  | TablePutById b k v => exists e,
      newindex_event env vm tables (fun m => named_value m (AsPointer k)) k (slot slots v) "bad type for TablePutById" (slot slots b) e /\
      o = end_outcome e /\ tables' = end_tables (fun m => meaning_after m (PutNamed true (AsPointer k) (slot slots v))) e tables
  | TablePutByImm b k v => exists e,
      newindex_event env vm tables (fun m => element m (double_of_int k)) (CreateDouble (double_of_int k)) (slot slots v)
        "bad type for TablePutByImm" (slot slots b) e /\
      o = end_outcome e /\ tables' = end_tables (fun m => meaning_after m (PutInteger k (slot slots v))) e tables
  | TablePutByVal b k v =>
      if decide (storable (slot slots k)) then exists e,
        newindex_event env vm tables (index_value vm (slot slots k)) (slot slots k) (slot slots v) "bad type for TablePutByVal" (slot slots b) e /\
        o = end_outcome e /\ tables' = end_tables (assign_value vm (slot slots k) (slot slots v)) e tables
      else
        chain_event env vm tables LuaMetamethodKind.NewIndex (bad_key_stop tables (slot slots k) (slot slots v)) (slot slots b) o /\ tables' = tables
  | EqualityOperation ne _ a b =>
      o = op_outcome (answer env vm tables false ne (equal_event env vm tables (slot slots a) (slot slots b))) /\ tables' = tables
  | LogicalNot _ v => o = Returns (CreateBoolean (negb (IsTruthy (slot slots v)))) /\ tables' = tables
  end.

(** The events of a sequence, to its end or to the first one that leaves it. *)
Inductive events : gmap Z Meaning -> list Z -> list Instr -> Step -> gmap Z Meaning -> Prop :=
| events_done tables slots : events tables slots [] (Next slots) tables
| events_next tables slots i code o tables' slots' r tables'' : instr_event tables slots i o tables' -> after slots i o = Next slots' ->
    events tables' slots' code r tables'' -> events tables slots (i :: code) r tables''
| events_leave tables slots i code o tables' : instr_event tables slots i o tables' -> after slots i o = Leaves o ->
    events tables slots (i :: code) (Leaves o) tables'.

(** A sequence with an event that has no end. *)
Inductive diverges : gmap Z Meaning -> list Z -> list Instr -> Prop :=
| diverges_here tables slots i code : (forall o tables', ~ instr_event tables slots i o tables') -> diverges tables slots (i :: code)
| diverges_later tables slots i code o tables' slots' : instr_event tables slots i o tables' -> after slots i o = Next slots' ->
    diverges tables' slots' code -> diverges tables slots (i :: code).

(** The process stops at a put that finds the resources of its table exhausted. *)
Definition instr_stops (tables : gmap Z Meaning) (slots : list Z) (i : Instr) (w : World) : Prop :=
  match i with
  | TablePutById _ k _ => put_fails env hash vm tables (prepares_by_id env true (AsPointer k)) put_exhausted w
  | TablePutByImm _ k v => put_fails env hash vm tables (prepares_array env k (slot slots v)) (@exhausted _ (sys_ops env)) w
  | TablePutByVal _ k v => put_fails env hash vm tables (value_prepares env vm (slot slots k) (slot slots v)) (value_exhausts env (slot slots k)) w
  | _ => False
  end.

Inductive stops (fuel : nat) : gmap Z Meaning -> list Z -> list Instr -> World -> Prop :=
| stops_here tables slots i code w : run_instr fuel slots i w = VMFail -> instr_stops tables slots i w -> stops fuel tables slots (i :: code) w
| stops_later tables slots i code w o tables' slots' w' : run_instr fuel slots i w = Ok (Some o, w') -> instr_event tables slots i o tables' ->
    after slots i o = Next slots' -> world_stands env hash vm w' tables' -> stops fuel tables' slots' code w' -> stops fuel tables slots (i :: code) w.
End programs.
