(* ===== verification/ProgramProofs.v ===== *)
(** * Sequences of bytecodes run their events, and keep the types *)

From Stdlib Require Import String.
From S2P Require Import Prelude Double TValue MiscMath Machine TypeMask ArrayType Butterfly SparseMap HiddenClass TableObject TableArray TableLength TableTheorems Probing CheckedTable ClassHeap Structure Transition ClassInv ClassLookup ClassFrame ClassCreate ClassTransition ClassQuery ClassOps ClassView ClassTheorems Dictionary TableClasses NamedProps NamedInv NamedPut NamedTransition NamedMeta TableWhole TableHistory TableCreate TableClone TableWorld Metatables Metamethods MetamethodChain IndexEvent GetBytecodes IndexProofs TablePut PutBytecodes PutIndexBytecodes NewIndexEvent NewIndexProofs ArrayPut PutIndexProofs PutValueProofs TableProperties WorldProperties BytecodeProperties PutProperties OperatorBytecodes OperatorEvents OperatorProofs TableIteration ArrayKinds BytecodePrograms.

(** ** Values *)

Section types.
Variable env : Env.
Notation typed := (typed env).

Lemma typed_value v : typed v -> lua_value env v.
Proof. by intros [? _]. Qed.

Lemma typed_int32 v : typed v -> not_int32 v.
Proof. by intros (_ & ? & _). Qed.

(** A value that is no object and no int32. *)
Lemma typed_box x : LuaValue_valid x = true ->
  match x with LDouble _ => True | LMIV m => m <> MIV.x_impossible_value | _ => False end -> typed (box x).
Proof.
  intros Hx Hm. split; [exists x; split_and!; try done; by destruct x|]. unfold not_int32. rewrite unbox_box_lemma by done.
  split; [intros i ->|intros p ->]; done.
Qed.

Lemma typed_nil : typed Nil.
Proof. by apply (typed_box (LMIV MIV.x_nil)). Qed.

Lemma typed_boolean b : typed (CreateBoolean b).
Proof. destruct b; [by apply (typed_box (LMIV MIV.x_true))|by apply (typed_box (LMIV MIV.x_false))]. Qed.

Lemma typed_double z : in_i 64 z -> typed (CreateDouble (double_of_int z)).
Proof. intros Hz. apply (typed_box (LDouble _)); [|done]. destruct (double_of_int_number z Hz) as (? & ? & _). by apply number_below. Qed.

Lemma typed_after m op : typed_meaning env m ->
  match op with PutNamed _ _ x | PutDouble _ x | PutInteger _ x => typed x | _ => True end -> typed_meaning env (meaning_after m op).
Proof.
  intros [Hn He] Hop. destruct op; split; intros k; simpl; try done.
  - unfold write. by destruct (_ =? _).
  - unfold put_element. by destruct (UnsafeFloatEqual _ _).
  - unfold put_element. by destruct (UnsafeFloatEqual _ _).
Qed.

Lemma typed_assign vm idx v m : typed_meaning env m -> typed v -> typed_meaning env (assign_value vm idx v m).
Proof. intros Hm Hv. unfold assign_value. destruct (unbox idx); try done; by apply typed_after. Qed.

Lemma typed_alter put p tables : typed_tables env tables -> (forall m, typed_meaning env m -> typed_meaning env (put m)) ->
  typed_tables env (alter put p tables).
Proof.
  intros Ht Hp q m. rewrite lookup_alter_Some. intros [(-> & m' & Hm' & ->)|[_ Hm]]; [by apply Hp, (Ht q)|by apply (Ht q)].
Qed.

Lemma typed_end put e tables : typed_tables env tables -> (forall m, typed_meaning env m -> typed_meaning env (put m)) ->
  typed_tables env (end_tables put e tables).
Proof. intros Ht Hp. destruct e; [by apply typed_alter|done]. Qed.

Lemma size_end put e (tables : gmap Z Meaning) : size (end_tables put e tables) = size tables.
Proof. destruct e as [p|]; [|done]. simpl. by rewrite <- !size_dom, dom_alter_L. Qed.

Lemma typed_free tables : typed_tables env tables -> int32_free tables.
Proof. intros Ht p m Hm. destruct (Ht p m Hm) as [Hn He]. split; intros ?; by apply typed_int32. Qed.

Lemma typed_slot slots n : Forall typed slots -> typed (nth n slots Nil).
Proof. intros Hs. revert n. induction Hs as [|v slots Hv _ IH]; intros [|n]; simpl; auto using typed_nil. Qed.
End types.

(** ** Events *)

Ltac all_typed := repeat first [apply List.Forall_nil | apply List.Forall_cons; [assumption|]].

Section events.
Variable env : Env.
Variable vm : VM.
Variable tables : gmap Z Meaning.
Hypothesis tables_typed : typed_tables env tables.
Notation typed := (typed env).
Notation typed_outcome := (typed_outcome env).

Lemma typed_metamethod v kind : typed (metamethod env vm tables v kind).
Proof.
  unfold metamethod, metafield. destruct (tables !! _) as [m|] eqn:E; simpl; [by apply (tables_typed _ m E)|apply typed_nil].
Qed.

Lemma typed_call f args : is_function env f -> Forall typed args -> typed_outcome (Calls (AsPointer f) args).
Proof. intros (p & E & Hp) Ha. simpl. by rewrite (value_pointer _ _ E). Qed.

Lemma typed_index raw idx message v o : typed idx -> (forall m, typed_meaning env m -> typed (raw m)) -> typed v ->
  index_event env vm tables raw idx message v o -> typed_outcome o.
Proof.
  intros Hidx Hraw Hv He. revert Hv. induction He as [v m Em Hr|v m Em Hr Hh|v Em Hh|v p Hr E Hp|v o Hr Hn Hf _ IH]; intros Hv; simpl; try done.
  - apply Hraw, (tables_typed (AsPointer v)). by apply table_pointer.
  - apply typed_nil.
  - split; [done|]. all_typed.
  - apply IH, typed_metamethod.
Qed.

Lemma typed_newindex raw idx value message v e : typed idx -> typed value -> typed v ->
  newindex_event env vm tables raw idx value message v e -> typed_outcome (end_outcome e).
Proof.
  intros Hidx Hval Hv He. revert Hv. induction He as [v m Em Hr|v Em Hh|v p Hr E Hp|v e Hr Hn Hf _ IH]; intros Hv; simpl; try done.
  - split; [done|]. all_typed.
  - apply IH, typed_metamethod.
Qed.

Lemma typed_bad_key idx value v o : typed idx -> typed value -> typed v ->
  chain_event env vm tables LuaMetamethodKind.NewIndex (bad_key_stop env vm tables idx value) v o -> typed_outcome o.
Proof.
  intros Hidx Hval Hv He. revert Hv. induction He as [v o E|v o _ _ IH]; intros Hv; [|apply IH, typed_metamethod].
  unfold bad_key_stop in E. destruct (table_of tables v); [by injection E as <-|]. cbv zeta in E.
  repeat case_decide; try done; injection E as <-; [done|]. apply typed_call; [done|]. all_typed.
Qed.

Lemma typed_index_value idx m : typed_meaning env m -> typed (index_value vm idx m).
Proof. intros [Hn He]. unfold index_value. repeat case_match; auto using typed_nil. Qed.

Lemma typed_called v args k : typed v -> Forall typed args -> typed_outcome (op_outcome (call_value env vm tables v args k)).
Proof.
  intros Hv Ha. unfold call_value. cbv zeta. repeat case_decide; simpl; try done; apply typed_call; try done. all_typed. exact Ha.
Qed.

Lemma typed_equal ne a b : typed a -> typed b -> typed_outcome (op_outcome (answer env vm tables false ne (equal_event env vm tables a b))).
Proof.
  intros Ha Hb. unfold equal_event. cbv zeta.
  assert (forall c, typed_outcome (op_outcome (answer env vm tables false ne (Decided c)))) as Hd by (intros c; simpl; apply typed_boolean).
  repeat case_match; try apply Hd. simpl. apply typed_called; [|all_typed].
  unfold common_handler. destruct (_ && _); [apply typed_metamethod|apply typed_nil].
Qed.
End events.

(** ** One bytecode *)

Section instructions.
Variable env : Env.
Variable hash : Z -> Z.
Variable vm : VM.
Hypothesis special_user : user_key (GetSpecialKeyForMetadataSlot env).
(** The string keys of the two Booleans. *)
Hypothesis boolean_keys : forall b, property_key env true (m_specialKeyForBooleanIndex vm b).
Variable tables : gmap Z Meaning.
Variable slots : list Z.
Variable w : World.
Hypothesis world : typed_world env hash vm w tables.
Hypothesis slots_typed : Forall (typed env) slots.
Notation slot n := (nth n slots Nil).
Notation typed := (typed env).
Notation instr_event := (instr_event env vm tables slots).

(** What a bytecode does: an end of its event, in a typed world, or no end. *)
Definition instr_post (i : Instr) (fuel : nat) (r : Res (option Outcome * World)) : Prop :=
  match r with
  | Ok (Some o, w') => exists tables', instr_event i o tables' /\ size tables' = size tables /\
      typed_world env hash vm w' tables' /\ typed_outcome env o
  | Ok (None, w') => (size tables <= fuel)%nat -> forall o tables', ~ instr_event i o tables'
  | VMFail => instr_stops env hash vm tables slots i w
  | UB => False
  end.

Lemma slot_typed n : typed (slot n).
Proof. by apply typed_slot. Qed.

Lemma typed_index_key v : typed v -> index_key env vm v.
Proof. intros (Hv & Hi & Hp). split; [done|]. destruct (unbox v) eqn:E; try done; [by destruct (Hi i)|by apply Hp]. Qed.

Lemma returns_post i fuel o : (forall o' t', instr_event i o' t' <-> o' = o /\ t' = tables) -> typed_outcome env o -> instr_post i fuel (Ok (Some o, w)).
Proof. intros He Ho. exists tables. split_and!; [by apply He|done..]. Qed.

Lemma reads_post i fuel event run : reads_as event (size tables) run w -> (forall o t', instr_event i o t' <-> event o /\ t' = tables) ->
  (forall o, event o -> typed_outcome env o) -> instr_post i fuel (run fuel w).
Proof.
  intros Hr Hi Ht. destruct (Hr fuel) as (r & -> & Hs & Hall). destruct r as [o|]; simpl.
  - exists tables. split_and!; [apply Hi; auto|done|done|auto].
  - intros Hf o t' [He _]%Hi. by apply (Hall Hf) in He.
Qed.

Lemma writes_post i fuel event put run :
  writes_as env hash vm event put tables (instr_stops env hash vm tables slots i w) run w ->
  (forall o t', instr_event i o t' <-> exists e, event e /\ o = end_outcome e /\ t' = end_tables put e tables) ->
  (forall e, event e -> typed_outcome env (end_outcome e)) -> (forall m, typed_meaning env m -> typed_meaning env (put m)) ->
  yields no_int32_arrays (fun _ => True) (run fuel) -> instr_post i fuel (run fuel w).
Proof.
  intros Hw Hi Ht Hput Hk. specialize (Hw fuel). destruct world as [_ Hv Ha]. unfold instr_post.
  destruct (run fuel w) as [[[o|] w']| |] eqn:E; [|..|done|done].
  - destruct Hw as (e & He & -> & Hs). exists (end_tables put e tables). split_and!; [apply Hi; by exists e|apply size_end| |auto].
    split; [done|by apply typed_end|by apply (Hk w _ w' Ha) in E as [E _]].
  - intros Hf o t' (e & He & _)%Hi. by apply (proj2 Hw Hf) in He.
Qed.

(** [TablePutByVal] of NaN and nil. *)
Notation bad_chain idx value := (chain env vm tables LuaMetamethodKind.NewIndex (bad_key_stop env vm tables idx value)).

Lemma bad_key_loop idx value fuel : lua_value env idx -> ~ storable idx -> forall base, lua_value env base -> table_of tables base = None ->
  HandleNotTableObjectNotInt64IndexSlowPath env hash vm idx value fuel base w = Ok (bad_chain idx value fuel base, w).
Proof.
  intros Hidx Hs. pose proof (ws_means _ _ _ _ _ (tw_stands _ _ _ _ _ world)) as Hm.
  induction fuel as [|fuel IH]; intros base Hb Ht; pose proof (handler_value_of env hash vm tables w Hm base LuaMetamethodKind.NewIndex) as Hh;
    cbn [HandleNotTableObjectNotInt64IndexSlowPath];
    rewrite (bind_ok _ _ _ _ _ (GetMetamethodForValue_world env hash vm tables w Hm base LuaMetamethodKind.NewIndex Hb)),
      nil_test, chain_step; unfold bad_key_stop at 1; rewrite Ht; cbv zeta;
    (case_decide as Hn; [by rewrite bool_decide_true|rewrite bool_decide_false by done]);
    rewrite Is_function by done; (case_decide as Hf; [by rewrite bool_decide_true|rewrite bool_decide_false by done]); [done|].
  rewrite (Is_table env hash vm tables w Hm) by done.
  destruct (table_of tables (metamethod env vm tables base LuaMetamethodKind.NewIndex)) as [m|] eqn:Ht'.
  - rewrite bool_decide_true by done. rewrite not_storable_table by done. rewrite chain_step. unfold bad_key_stop at 1. by rewrite Ht'.
  - rewrite bool_decide_false by (by intros [? ?]). by apply IH.
Qed.

Lemma bad_key_chain idx value fuel base : lua_value env idx -> ~ storable idx -> lua_value env base ->
  TablePutByValImpl env hash vm idx value fuel base w = Ok (bad_chain idx value fuel base, w).
Proof.
  intros Hidx Hs Hb. pose proof (tw_stands _ _ _ _ _ world) as Hw. destruct (table_of tables base) as [m|] eqn:Ht.
  { rewrite (TablePutByVal_not_storable env hash vm tables) by (done || by rewrite Ht). rewrite chain_step. unfold bad_key_stop at 1. by rewrite Ht. }
  unfold TablePutByValImpl. cbv zeta. rewrite int64_index_same, bool_decide_false by (rewrite (not_storable_index env) by done; by intros [? ?]).
  unfold PutByVal_HandleNotInt64IndexSlowPath. rewrite (Is_table env hash vm tables w (ws_means _ _ _ _ _ Hw)) by done.
  rewrite Ht, bool_decide_false by (by intros [? ?]). by apply bad_key_loop.
Qed.

Lemma bad_key_post i fuel b k v : i = TablePutByVal b k v -> ~ storable (slot k) ->
  instr_post i fuel (TablePutByValImpl env hash vm (slot k) (slot v) fuel (slot b) w).
Proof.
  intros -> Hs. pose proof slot_typed as Hst. rewrite bad_key_chain by (done || by apply typed_value).
  destruct (chain_result env vm tables LuaMetamethodKind.NewIndex (bad_key_stop env vm tables (slot k) (slot v))) with (fuel := fuel) (v := slot b) as [H1 H2].
  { intros u. unfold bad_key_stop. cbv zeta. destruct (table_of tables u); [done|]. by case_decide. }
  unfold instr_post. destruct (bad_chain _ _ fuel (slot b)) as [o|].
  - exists tables. simpl. rewrite decide_False by done. split_and!; auto.
    apply (typed_bad_key env vm tables (tw_values _ _ _ _ _ world) (slot k) (slot v) (slot b)); auto.
  - intros Hf o t'. simpl. rewrite decide_False by done. intros [He _]. by apply (H2 Hf) in He.
Qed.

Lemma put_by_val_post i fuel b k v : i = TablePutByVal b k v -> storable (slot k) ->
  instr_post i fuel (TablePutByValImpl env hash vm (slot k) (slot v) fuel (slot b) w).
Proof.
  intros -> Hs. pose proof slot_typed as Hst. pose proof (tw_stands _ _ _ _ _ world) as Hw.
  assert (IsInt32 (slot v) = false) as Hint by (eapply no_int32_value; [apply typed_value|apply (typed_int32 env)]; apply Hst).
  refine (writes_post _ fuel _ _ (fun fuel => TablePutByValImpl env hash vm (slot k) (slot v) fuel (slot b)) (chain_writes _ _ _ _ _ _ _ _ _ _ _ _ _ _) _ _ _ _).
  - intros f. apply (TablePutByVal_chain env hash vm special_user tables w); try done;
      first [by apply typed_index_key|by apply typed_value|exact (conj Hw (rtc_refl _ _))|by destruct world].
  - intros o t'. simpl. by rewrite decide_True.
  - intros e. by apply (typed_newindex env vm tables (tw_values _ _ _ _ _ world)).
  - intros m Hm. by apply typed_assign.
  - by apply TablePutByVal_kept.
Qed.

Lemma instr_spec i fuel : instr_ok env i -> instr_post i fuel (run_instr env hash vm fuel slots i w).
Proof.
  intros Hok. pose proof slot_typed as Hst. pose proof (tw_stands _ _ _ _ _ world) as Hw. pose proof (ws_means _ _ _ _ _ Hw) as Hm.
  pose proof (tw_values _ _ _ _ _ world) as Hv. pose proof (fun n => typed_value env _ (Hst n)) as Hval.
  assert (forall n, IsInt32 (slot n) = false) as Hint by (intros n; eapply no_int32_value; [apply Hval|apply (typed_int32 env), Hst]).
  destruct i as [d v|d s|d b k|d b k|d b k|b k v|b k v|b k v|ne d a b|d v]; simpl run_instr.
  - apply returns_post; [done|exact Hok].
  - apply returns_post; [done|apply Hst].
  - destruct Hok as [Hk Hp]. refine (reads_post _ fuel _ (fun f => TableGetByIdImpl env vm k f (slot b)) (chain_reads _ _ _ _ _ _ _ _ _ _) _ _).
    + intros f. by apply (TableGetById_chain env hash).
    + done.
    + intros o. apply (typed_index env vm tables Hv); [done| |done]. intros m [Hn _]. apply Hn.
  - refine (reads_post _ fuel _ (fun f => TableGetByImmImpl env hash vm k f (slot b)) (chain_reads _ _ _ _ _ _ _ _ _ _) _ _).
    + intros f. by apply TableGetByImm_chain.
    + done.
    + intros o. apply (typed_index env vm tables Hv); [|intros m [_ He]; apply He|done].
      apply typed_double. cbn in Hok. unfold in_i in *. pow2. lia.
  - refine (reads_post _ fuel _ (fun f => TableGetByValImpl env hash vm (slot k) f (slot b)) (chain_reads _ _ _ _ _ _ _ _ _ _) _ _).
    + intros f. apply TableGetByVal_chain; try done. by apply typed_index_key.
    + done.
    + intros o. apply (typed_index env vm tables Hv); [done| |done]. apply typed_index_value.
  - destruct Hok as [Hk Hp].
    refine (writes_post _ fuel _ _ (fun f => TablePutByIdImpl env vm k (slot v) f (slot b)) (chain_writes _ _ _ _ _ _ _ _ _ _ _ _ _ _) _ _ _ _).
    + intros f. apply (TablePutById_chain env hash vm special_user tables w); try done.
    + done.
    + intros e. by apply (typed_newindex env vm tables Hv).
    + intros m Hmt. by apply typed_after.
    + apply TablePutById_kept.
  - refine (writes_post _ fuel _ _ (fun f => TablePutByImmImpl env hash vm k (slot v) f (slot b)) (chain_writes _ _ _ _ _ _ _ _ _ _ _ _ _ _) _ _ _ _).
    + intros f. apply (TablePutByImm_chain env hash vm special_user tables w); try done; first [exact (conj Hw (rtc_refl _ _))|by destruct world].
    + done.
    + intros e. apply (typed_newindex env vm tables Hv); [|done..]. apply typed_double. cbn in Hok. unfold in_i in *. pow2. lia.
    + intros m Hmt. by apply typed_after.
    + by apply TablePutByImm_kept.
  - destruct (decide (storable (slot k))); [by apply put_by_val_post|by eapply bad_key_post].
  - rewrite (bind_ok _ _ _ _ _ (EqualityOperation_event env hash vm special_user tables w Hm (typed_free env tables Hv) ne false (slot a) (slot b)
      (Hval a) (Hval b) (typed_int32 env _ (Hst a)) (typed_int32 env _ (Hst b)))).
    apply returns_post; [done|]. by apply typed_equal.
  - apply returns_post; [done|apply typed_boolean].
Qed.
End instructions.

(** ** Sequences *)

Section sequences.
Variable env : Env.
Variable hash : Z -> Z.
Variable vm : VM.
Hypothesis special_user : user_key (GetSpecialKeyForMetadataSlot env).
Hypothesis boolean_keys : forall b, property_key env true (m_specialKeyForBooleanIndex vm b).

Definition typed_step (r : Step) : Prop :=
  match r with Next slots => Forall (typed env) slots | Leaves o => typed_outcome env o | NoFuel => True end.

Lemma after_typed slots i o : Forall (typed env) slots -> typed_outcome env o -> typed_step (after slots i o).
Proof.
  intros Hs Ho. unfold after. destruct o; try done. destruct (output_of i) as [d|]; [|done]. by apply Forall_insert.
Qed.

(** What a sequence does. *)
Definition sequence_post (fuel : nat) (code : list Instr) (tables : gmap Z Meaning) (slots : list Z) (w : World) : Prop :=
  match run_bytecodes env hash vm fuel code slots w with
  | Ok (NoFuel, _) => (size tables <= fuel)%nat -> diverges env vm tables slots code
  | Ok (r, w') => exists tables', events env vm tables slots code r tables' /\ typed_world env hash vm w' tables' /\ typed_step r
  | VMFail => stops env hash vm fuel tables slots code w
  | UB => False
  end.

Lemma after_leaves slots i o r : after slots i o = r -> (forall s, r <> Next s) -> r = Leaves o.
Proof. intros <- Hn. unfold after in *. destruct o; try done; by destruct (Hn _ eq_refl). Qed.

Lemma sequence_spec fuel code : Forall (instr_ok env) code -> forall tables slots w, typed_world env hash vm w tables ->
  Forall (typed env) slots -> sequence_post fuel code tables slots w.
Proof.
  induction 1 as [|i code Hi _ IH]; intros tables slots w Hw Hs; unfold sequence_post; cbn [run_bytecodes].
  { exists tables. split_and!; [constructor|done..]. }
  pose proof (instr_spec env hash vm special_user boolean_keys tables slots w Hw Hs i fuel Hi) as Hp. unfold instr_post in Hp.
  unfold mbind, M_bind. destruct (run_instr env hash vm fuel slots i w) as [[[o|] w1]| |] eqn:E; [| |by apply stops_here|done].
  - destruct Hp as (tables1 & He & Hsz & Hw1 & Ho). pose proof (after_typed slots i o Hs Ho) as Ha.
    destruct (after slots i o) as [slots1|o'|] eqn:Ea.
    + specialize (IH tables1 slots1 w1 Hw1 Ha). unfold sequence_post in IH.
      destruct (run_bytecodes env hash vm fuel code slots1 w1) as [[r w2]| |]; [|eapply stops_later; first [eassumption|apply Hw1]|done].
      destruct r; [..|intros Hf; eapply diverges_later; [exact He|exact Ea|]; apply IH; lia];
        destruct IH as (tables2 & He2 & Hw2 & Hr); exists tables2; (split_and!; [by eapply events_next|done..]).
    + pose proof (after_leaves _ _ _ _ Ea ltac:(done)) as E'. injection E' as ->. exists tables1. split_and!; [|done..]. by eapply events_leave.
    + by pose proof (after_leaves _ _ _ _ Ea ltac:(done)).
  - intros Hf. apply diverges_here. by apply Hp.
Qed.
End sequences.
