(* ===== verification/ProgramProperties.v ===== *)
(** * Type safety of sequences of bytecodes

    The theorem, and a sequence that runs on the sample world of
    [BytecodeProperties]. *)

From Stdlib Require Import String.
From S2P Require Import Prelude Double TValue MiscMath Machine TypeMask ArrayType Butterfly SparseMap HiddenClass TableObject TableArray TableLength TableTheorems Probing CheckedTable ClassHeap Structure Transition ClassInv ClassLookup ClassFrame ClassCreate ClassTransition ClassQuery ClassOps ClassView ClassTheorems Dictionary TableClasses NamedProps NamedInv NamedPut NamedTransition NamedMeta TableWhole TableHistory TableCreate TableClone TableWorld Metatables Metamethods MetamethodChain IndexEvent GetBytecodes IndexProofs TablePut PutBytecodes PutIndexBytecodes NewIndexEvent NewIndexProofs ArrayPut PutIndexProofs PutValueProofs TableProperties WorldProperties BytecodeProperties PutProperties OperatorBytecodes OperatorEvents OperatorProofs TableIteration ArrayKinds BytecodePrograms ProgramProofs.

(** C7: sequences of bytecodes are type safe.  A straight-line sequence of gets, puts,
    equality tests and [not] starts with typed slots, in a world of typed tables: a
    typed value is a double, nil, a Boolean or an object of the program, and so is
    neither the word of an empty slot nor an int32 nor a tagged pointer.  It never
    has undefined behaviour: every contract of the code it runs is kept.  What it
    computes, to its end or to the error or the call that ends it, is what the
    events of Lua give for its instructions, one after the other on the slots and
    the tables; the slots, the tables and what it calls are typed again, no table
    gets an array part for int32, and every table of the world still is what its
    meaning says.  With as many rounds as there are tables it loops only when an
    event has no end, and the process stops only at a put that finds the resources
    of its table exhausted. *)
Theorem bytecodes_type_safe env hash vm fuel code tables slots w : user_key (GetSpecialKeyForMetadataSlot env) ->
  (forall b, property_key env true (m_specialKeyForBooleanIndex vm b)) -> Forall (instr_ok env) code ->
  typed_world env hash vm w tables -> Forall (typed env) slots ->
  match run_bytecodes env hash vm fuel code slots w with
  | Ok (NoFuel, _) => (size tables <= fuel)%nat -> diverges env vm tables slots code
  | Ok (r, w') => exists tables', events env vm tables slots code r tables' /\ typed_world env hash vm w' tables' /\ typed_step env r
  | VMFail => stops env hash vm fuel tables slots code w
  | UB => False
  end.
Proof. intros Hu Hb Hc Hw Hs. exact (sequence_spec env hash vm Hu Hb fuel code Hc tables slots w Hw Hs). Qed.

(** ** A sequence on the sample world *)

#[export] Instance typed_dec env v : Decision (typed env v).
Proof.
  unfold typed. apply and_dec; [apply _|]. apply and_dec; [apply _|].
  destruct (unbox v) as [| | |p] eqn:E; try (left; by intros ? ?).
  destruct (decide (property_key env false p)) as [H|H]; [left|right]; [by intros ? [= <-]|]. intros Hp. by apply H, Hp.
Defined.

Lemma typed_of env ops : Forall (fun op => match op with PutNamed _ _ x | PutDouble _ x | PutInteger _ x => typed env x | _ => True end) ops ->
  typed_meaning env (meaning_of empty_meaning ops).
Proof.
  unfold meaning_of. assert (typed_meaning env empty_meaning) as H by (split; intros ?; apply typed_nil).
  revert H. generalize empty_meaning. intros m Hm Hops. revert m Hm.
  induction Hops as [|op ops Hop _ IH]; intros m Hm; [done|]. simpl. apply IH. by apply typed_after.
Qed.

(** Every item of a concrete list. *)
Ltac all_decided := repeat first [apply List.Forall_nil | apply List.Forall_cons; [first [exact I | apply (bool_decide_unpack _); by vm_compute]|]].

Lemma sample_typed_tables : typed_tables sample_lua_env sample_lua_tables.
Proof.
  intros p m Hm%elem_of_list_to_map_2%elem_of_zip_r. revert m Hm. apply Forall_forall.
  repeat apply List.Forall_cons; try apply List.Forall_nil; apply typed_of; by all_decided.
Qed.

Lemma sample_boolean_keys b : property_key sample_lua_env true (m_specialKeyForBooleanIndex sample_vm b).
Proof. destruct b; apply (bool_decide_unpack _); by vm_compute. Qed.

(** [t[1] = 9; a = t[1]; b = a ~= 9; c = not b] on a table whose [__newindex] and
    [__index] are another table. *)
Definition sample_code : list Instr :=
  [SetConstant 1 (sample_number 1); SetConstant 2 (sample_number 9); TablePutByVal 0 1 2; TableGetByVal 3 0 1;
   EqualityOperation true 4 3 2; LogicalNot 5 4].
Definition sample_slots : list Z := [sample_base_value; Nil; Nil; Nil; Nil; Nil].
Definition sample_slots_after : list Z :=
  [sample_base_value; sample_number 1; sample_number 9; sample_number 9; CreateFalse; CreateTrue].

Definition sample_code_result : option Step :=
  match run_program sample_lua_env sample_hash 0 sample_lua_program ([], mkWorld sample_base initUserHeap ∅ ∅) with
  | Ok (_, (_, w)) => match run_bytecodes sample_lua_env sample_hash sample_vm 4 sample_code sample_slots w with Ok (r, _) => Some r | _ => None end
  | _ => None
  end.

Lemma sample_code_world w vars :
  run_program sample_lua_env sample_hash 0 sample_lua_program ([], mkWorld sample_base initUserHeap ∅ ∅) = Ok (tt, (vars, w)) ->
  exists w', run_bytecodes sample_lua_env sample_hash sample_vm 4 sample_code sample_slots w = Ok (Next sample_slots_after, w').
Proof.
  intros E. assert (sample_code_result = Some (Next sample_slots_after)) as Hr by (by vm_compute).
  unfold sample_code_result in Hr. rewrite E in Hr. clear E. destruct (run_bytecodes _ _ _ _ _ _ w) as [[r w']| |]; [|done..].
  injection Hr as ->. by exists w'.
Qed.

Lemma bytecodes_type_safe_witness : exists w w' tables',
  typed_world sample_lua_env sample_hash sample_vm w sample_lua_tables /\
  run_bytecodes sample_lua_env sample_hash sample_vm 4 sample_code sample_slots w = Ok (Next sample_slots_after, w') /\
  events sample_lua_env sample_vm sample_lua_tables sample_slots sample_code (Next sample_slots_after) tables' /\
  typed_world sample_lua_env sample_hash sample_vm w' tables'.
Proof.
  destruct sample_lua_world as (w & E & Hw & _). pose proof (sample_no_int32 _ _ E) as Hn.
  destruct (sample_code_world w _ E) as [w' E']. clear E.
  assert (typed_world sample_lua_env sample_hash sample_vm w sample_lua_tables) as Ht by (split; [exact Hw|exact sample_typed_tables|exact Hn]).
  pose proof (bytecodes_type_safe sample_lua_env sample_hash sample_vm 4 sample_code sample_lua_tables sample_slots w sample_lua_special
    sample_boolean_keys ltac:(all_decided) Ht
    ltac:(all_decided)) as H.
  rewrite E' in H. destruct H as (tables' & He & Hw' & _). exists w, w', tables'. split_and!; assumption.
Defined.
